(* ===== verification/_CoqProject ===== *)
-Q . S2P
Prelude.v
Text.v
Utf8.v
Sanitize.v
Scrollback.v
TerminalState.v
TerminalBooks.v
TerminalQueries.v
TerminalScanners.v
ScrollbackWire.v
Display.v
Replay.v
Fragment.v
Pb.v
UserStream.v
Crypto.v
Transport.v
Ieee.v
ClientStream.v
Instruction.v
Assembly.v
Sender.v
SenderRuns.v
Receiver.v
ClientScreen.v
ClientTerminal.v
ClientPacket.v
Prediction.v
PredictionRuns.v
ClientSession.v
SessionRuns.v
SessionTurns.v
Layout.v
Stack.v
Tab.v
RunCommand.v
RunLinks.v
RunResolve.v
RunRegistry.v
RunGuarantees.v
History.v
Alias.v
PersistenceQueue.v
