(* ===== verification/Prelude.v ===== *)
(** * Zetta: a verification development

    Zetta is a terminal multiplexer: windows hold tabs, tabs hold panes, panes
    hold terminals, and a terminal may be a remote session that survives a
    change of network (the Mosh protocol: [crates/moshcatty] on the server's wire,
    [crates/zosh] the server and its client, [crates/mosh_rs] the client library).
    This development models the parts of it that carry its own logic and proves
    what they promise.  File names below are under [src/].

    ** The files

    - [Prelude] (this file): Rust's results and panics, machine integers, bytes,
      the loops that consume a buffer, record update, list lemmas.

    The remote session, from the wire up:

    - [Replay] models [crates/moshcatty/src/replay.rs], the ring of bits that
      says which datagrams were already opened.  [Replay.Spec] is the contract in
      terms of the full history; the ring refines it.
    - [Fragment] models [fragment.rs]: the header codec, the splitting of an
      instruction and the assembler.  Fragments come back together in any order;
      the sizes are bounded.
    - [Pb] models [pb.rs], the protobuf messages with their primitives: round
      trips for all three messages, and where a malformed one panics.
    - [Crypto] models [crypto.rs], OCB3 over a block cipher: what is sealed
      opens, and nothing else does.
    - [Transport] models [transport.rs], the State Synchronization Protocol on
      top of the four: sending, receiving, acknowledgement, retry, timers and
      shutdown.  A [Datagrams.Cipher] class states what it needs of the cipher;
      [Crypto] gives the instance.  One step of sending refines the abstract
      transfer of one state; sessions keep their bounds; the deadlines are never
      late.
    - [UserStream] models [crates/zosh/server/src/user_stream.rs], the server's
      reconstruction of the typed input from the states it receives, in whatever
      order: each keystroke is delivered exactly once.

    What the remote terminal shows, from the program to the user's screen:

    - [Text] has byte strings written as text, Rust's decimal numbers and the
      base64 engine: a class with its laws and an instance; [Utf8] is the
      Standard Library's UTF-8.
    - [TerminalState] models [crates/zosh/server/src/terminal_state.rs]: the title
      and the clear requests read from the program's output, the history that
      scrolled off, the queries, the snapshots and the frames built from them.
      The emulator is the class [Emulator]; of [crates/vt100] the rows that leave
      the grid are modelled ([Eviction]).
    - [TerminalBooks] proves its accounts over any sequence of calls, and that no
      row of history is lost; [TerminalQueries] that each query is handed over
      once; [TerminalScanners] what the two scanners read.
    - [Sanitize] and [Scrollback] model [crates/zosh/src/scrollback.rs], the
      client's reading of the history: what it keeps is inert and bounded.
    - [ScrollbackWire] composes the two ends: the client ends with the rows the
      server carried.
    - [Display] models [crates/zosh/src/display.rs]: what the client writes to the
      user's terminal to keep the history, and the scroll it infers without one.

    The client of a remote session ([crates/mosh_rs/src]), from what is typed to
    what is shown:

    - [ClientStream] models the client half of [statesync.rs], the log of what the
      user did, its diffs and their reading.  prost writes the messages: the class
      [Prost], its wire format the laws [ProstWire].
    - [Instruction] models [transport.rs], instructions and their fragments;
      [Assembly] proves the reassembly in any order and its bounds.  Serialization
      and zlib are the class [InstructionCodec].
    - [Sender] and [Receiver] model [sender.rs], the two state machines that keep
      the peers in step; [SenderRuns] composes the sender with the server's
      [UserStream]: what is typed reaches the server, once, in order, in time, and
      again when it was lost.
    - [ClientScreen] is [screen.rs], the emulator as a class with its laws and what
      is painted over it; [ClientTerminal] models [terminal.rs], the screens held by
      number with the sharing of their [Arc]s, and what is written to the user's
      terminal.
    - [ClientPacket] models [packet.rs] and [crypto.rs]: timestamps, the round trip,
      nonces and sealing, the cipher the class [Aead].
    - [Prediction] models [prediction/], the guesses at what the server will answer;
      [PredictionRuns] proves that they never panic and that what is shown of them
      is still to be answered.
    - [ClientSession] models [session.rs], which puts all of these together, and
      the host half of [statesync.rs]; a call on a session is a function in a state
      and error monad, as the code is a method with [?].  [SessionRuns] has the
      rules to reason on such calls ([succeeds], [moves]) and proves that the
      screens held are the server's; [SessionTurns] what a turn reads, that a
      request is handed over once, that ports stay few, and what a turn can lose.

    The window:

    - [Ieee] gives Rust's floats as the Standard Library's specification floats,
      with the order lemmas the geometry needs.
    - [Layout] models [src/pane/layout.rs], the tree of splits: splitting,
      closing, moving, rotating, resizing, tiling, directional focus.
    - [Stack] models [src/pane/stack.rs], the command terminals that share one
      pane.
    - [Tab] models [src/pane/tab.rs] with the window handlers that call it
      ([src/app/panes.rs], [src/pane_resize.rs]): no sequence of operations makes
      a tab inconsistent or panics, and its active pane stays visible.

    Waiting for commands in other panes ([zetta pane wait]):

    - [RunCommand] models [src/run_command.rs], the registry of runs that wait
      for panes and for each other.  Its handlers run under one lock, so each is
      a function on the registry; [steps] is any sequence of them.
    - [RunLinks] proves that replacing observations does what it says and keeps
      the link tables exact, [RunResolve] that evaluation is total and finds
      every cycle and that resolution ends with nothing left undecided,
      [RunRegistry] that every handler keeps the registry's invariant, and
      [RunGuarantees] what follows for its callers.

    The Windows console host ([crates/console-server/src]):

    - [History] models [history.rs], the commands of a program and the lists a
      console keeps, and [Alias] [alias.rs], what a line is replaced by before the
      program reads it.  Lower case is the class [Lowercase].

    The multiplexer's daemon ([crates/zmux/src/server]):

    - [PersistenceQueue] models [persistence_queue.rs], the queue between the drain
      of the panes and the encrypted store, with its worker and those who wait for
      it.  The threads are a state and events that may come in any order; each is
      what one thread does under a lock or between two.

    ** Conventions

    Integers of the code are [Z]s with their width written out where an
    operation can leave it ([wrap], [checked_add_u64], [as_i32]).  A computation
    that can fail is a [result]: a value, an error or a panic.  Mutable state is
    passed and returned.  Hash maps and sets are [gmap]s and [gset]s; where the
    code iterates over one, the order is a parameter ([RunCommand.Iteration]).
    Loops are structural where they consume a list; [Prelude.loop_fuel] takes
    the length of the buffer, which every step shortens; [RunCommand.evaluate_run]
    takes the number of runs, which bounds the depth because a run on the stack
    ends the recursion; [RunCommand.resolve_loop] takes [resolve_fuel], which
    every turn lowers ([RunResolve.turned_potential]); [Alias.split_args] takes
    eleven, since every turn finds a word and it stops at ten.  In each case the
    theorem says that the fuel suffices and never assumes it.

    Third-party code is a parameter with its documented behaviour as hypotheses:
    the AES block permutation, zlib, the random generator, the base64 engine, prost,
    the terminal emulators and the escape parser.  Each class of laws has an
    instance, in a [Sample] module beside the theorems that use it.

    ** What the theorems show

    - On the wire: a datagram opens once and only if it was sealed; a state a
      tick sends reaches the peer whole whatever the order of its datagrams;
      bases that may still be needed are kept; queues, timers and sizes stay
      within their limits.
    - At the server: input is delivered exactly once and in order, all of it if the
      client's states arrive in the order they were sent, and a client that follows
      the protocol is never refused.
    - Of the screen: from the client's announcement on, and while the screen is not
      reset or cleared, every row that scrolls off reaches the client or is said to
      be missing, in order; a scroll is inferred only where rows moved; nothing a
      server sends as a row can make the terminal do anything but show it.
    - In the client: whatever datagrams arrive, in any order and however often, the
      screens it holds are the server's and it acknowledges what it shows, if the
      server keeps its size; what the terminal shows after a render is the newest
      of them, if it was repainted since it was last resized; no nonce is used twice;
      a guess that is shown was not answered; the reading of a turn does what handling
      its first sixty-four datagrams one by one does.
    - In the window: the layout, the panes and the focus agree through every
      operation; each operation on the layout does what its name says and
      nothing more; paired operations undo each other.
    - In the registry: nothing panics or loops, no waiting run is left behind,
      waits never form a cycle, every wrapper is told its fate once, and only a
      dependency's own trusted success releases a run that allows no failure.
    - In the console host: a history keeps its bounds and its place, a search finds
      the nearest command, and a line becomes what its alias says of its words.
    - In the daemon: the store sees one order of appends and uses, whoever is lent
      it finds in it what was queued before, and no wakeup is lost.

    Some modelled code does not do what it means to; the lemmas that show it are
    [Pb.transport_decode_panics_on_cut_fixed_field],
    [Fragment.assembler_overwrite_uncounted],
    [Transport.deadline_past_with_nothing_due],
    [Tab.Tab.reassign_ids_moves_selection],
    [TerminalState.reset_stalls_the_program],
    [TerminalScanners.Titles.skipped_sequence_clears_the_title],
    [TerminalScanners.Titles.large_command_is_a_title],
    [TerminalScanners.Titles.title_is_not_decoded],
    [Scrollback.Scrollback.cancelled_payload_is_kept],
    [Display.Display.gap_scrolls_one_line],
    [SessionTurns.Losses.late_resize_reshapes_the_newest],
    [SessionTurns.Losses.undecoded_state_is_acknowledged],
    [SessionTurns.Losses.unread_datagrams_are_dropped],
    [History.History.SampleHistory.search_after_deletion_panics] and
    [History.History.SampleHistory.a_huge_size_is_no_bound].

    ** Not modelled

    GPUI, the terminal emulators' cells, the widgets and themes are vendored or
    adapted third-party code.  Sockets, processes, files and configuration are I/O around
    libraries.  Of the tab, titles, icons, rename fields and themes are display
    state.  Of the registry, the threads that wait on its channels and the
    process-control connection that feeds it are left out: what they send is any
    sequence of calls.  Of the client session, how long a read waits and the
    resolution of names are I/O; the theorem on its screens is for a server that
    does not change their size (a late change of size is a finding) and has not
    shut down.  The emulator behind [Screen] ([screen/vt100_screen.rs]), the
    window titles it reads ([screen/osc_title.rs], whose scanner is the server's)
    and the parsing of a key are not modelled.  Of the
    multiplexer's daemon ([crates/zmux]) the rest is client and server of a local
    socket around processes, and the files of its store; the counters of the queue
    are taken not to come around, at 2^64 appends or bytes.  Of the console host, the
    rest drives the Windows console protocol. *)
From Stdlib Require Import ZArith Lia List Bool.
From Stdlib Require Strings.Byte.
From stdpp Require Import base numbers list list_numbers gmap sets strings.

Declare Scope zetta_scope.
Delimit Scope zetta_scope with zetta.

(** ** Results

    A Rust computation ends with a value, with an error it reports to its
    caller, or with a panic (an index or slice out of range, an [expect] that
    fails, an arithmetic overflow where the build checks it). *)
Inductive result (E A : Type) : Type :=
| Ok (a : A)
| Err (e : E)
| Panic.
Arguments Ok {E A} a.
Arguments Err {E A} e.
Arguments Panic {E A}.

#[export] Instance result_ret E : MRet (result E) := fun A a => Ok a.
#[export] Instance result_bind E : MBind (result E) := fun A B k r =>
  match r with Ok a => k a | Err e => Err e | Panic => Panic end.
#[export] Instance result_fmap E : FMap (result E) := fun A B f r =>
  match r with Ok a => Ok (f a) | Err e => Err e | Panic => Panic end.

(** [ok_or o e] is Rust's [o.ok_or(e)]. *)
Definition ok_or {E A} (o : option A) (e : E) : result E A :=
  match o with Some a => Ok a | None => Err e end.

(** [expect o] is Rust's [o.expect(..)]: a panic on [None]. *)
Definition expect {E A} (o : option A) : result E A :=
  match o with Some a => Ok a | None => Panic end.

(** [ensure b e] is [anyhow::ensure!(b, e)]. *)
Definition ensure {E} (b : bool) (e : E) : result E unit :=
  if b then Ok tt else Err e.

(** The computation does not panic. *)
Definition no_panic {E A} (r : result E A) : Prop := r <> Panic.

Lemma no_panic_ok {E A} (a : A) : no_panic (@Ok E A a).
Proof. discriminate. Qed.
Lemma no_panic_err {E A} (e : E) : no_panic (@Err E A e).
Proof. discriminate. Qed.
Lemma no_panic_ok_or {E A} (o : option A) (e : E) : no_panic (ok_or o e).
Proof. destruct o; discriminate. Qed.
Lemma no_panic_bind {E A B} (r : result E A) (k : A -> result E B) :
  no_panic r -> (forall a, r = Ok a -> no_panic (k a)) -> no_panic (r ≫= k).
Proof. destruct r; simpl; intros Hr Hk; [by apply Hk | discriminate | done]. Qed.
Lemma bind_ok_inv {E A B} (r : result E A) (k : A -> result E B) b :
  r ≫= k = Ok b -> exists a, r = Ok a /\ k a = Ok b.
Proof. destruct r; simpl; intros H; [by eauto | discriminate | discriminate]. Qed.

Create HintDb no_panic discriminated.
#[export] Hint Resolve no_panic_ok no_panic_err no_panic_ok_or : no_panic.

(** ** Machine integers

    An unsigned integer of width [w] is a [Z] in [0, 2^w); the operations that
    can leave the range write their wrap-around out. *)
Definition fits (w z : Z) : Prop := (0 <= z < 2 ^ w)%Z.
Definition wrap (w z : Z) : Z := (z mod 2 ^ w)%Z.
Definition u64_max : Z := (2 ^ 64 - 1)%Z.
Definition u32_max : Z := (2 ^ 32 - 1)%Z.
Definition u16_max : Z := (2 ^ 16 - 1)%Z.

(** [z as i32] for an unsigned [z]. *)
Definition as_i32 (z : Z) : Z :=
  let m := wrap 32 z in if (m <? 2 ^ 31)%Z then m else (m - 2 ^ 32)%Z.
(** [z as i64] for an unsigned [z]. *)
Definition as_i64 (z : Z) : Z :=
  let m := wrap 64 z in if (m <? 2 ^ 63)%Z then m else (m - 2 ^ 64)%Z.

(** [a.saturating_add(b)] on u64. *)
Definition saturating_add_u64 (a b : Z) : Z := Z.min (a + b) u64_max.
(** [a.checked_add(b)] on u64. *)
Definition checked_add_u64 (a b : Z) : option Z :=
  if (a + b <=? u64_max)%Z then Some (a + b)%Z else None.
(** [!z] on u64. *)
Definition not_u64 (z : Z) : Z := Z.lxor z (Z.ones 64).

Lemma wrap_fits w z : (0 <= w)%Z -> fits w (wrap w z).
Proof. intros Hw. apply Z.mod_pos_bound. by apply Z.pow_pos_nonneg. Qed.
Lemma wrap_small w z : fits w z -> wrap w z = z.
Proof. apply Z.mod_small. Qed.
#[export] Instance fits_dec w z : Decision (fits w z).
Proof. unfold fits. apply _. Defined.

(** ** Bytes *)
Abbreviation byte := Corelib.Init.Byte.byte.
Abbreviation bytes := (list Corelib.Init.Byte.byte).

#[export] Instance byte_eq_dec : EqDecision byte := Strings.Byte.byte_eq_dec.

Definition b2z (b : byte) : Z := Z.of_N (Strings.Byte.to_N b).
(** [z as u8] *)
Definition z2b (z : Z) : byte :=
  default Corelib.Init.Byte.x00 (Strings.Byte.of_N (Z.to_N (z mod 256))).

Lemma b2z_range b : (0 <= b2z b < 256)%Z.
Proof. unfold b2z. pose proof (Strings.Byte.to_N_bounded b). lia. Qed.
Lemma z2b_b2z b : z2b (b2z b) = b.
Proof.
  unfold z2b. rewrite Z.mod_small by apply b2z_range. unfold b2z.
  by rewrite N2Z.id, Strings.Byte.of_to_N.
Qed.
Lemma b2z_z2b z : b2z (z2b z) = (z mod 256)%Z.
Proof.
  unfold z2b. pose proof (Z.mod_pos_bound z 256 ltac:(lia)) as Hb.
  destruct (Strings.Byte.of_N _) as [b|] eqn:E; simpl.
  - apply Strings.Byte.to_of_N in E. unfold b2z. rewrite E. lia.
  - apply Strings.Byte.of_N_None_iff in E. lia.
Qed.
Lemma b2z_inj a b : b2z a = b2z b -> a = b.
Proof. intros H. by rewrite <-(z2b_b2z a), H, z2b_b2z. Qed.

(** [z.to_be_bytes()] for an integer of [n] bytes. *)
Fixpoint be_bytes (n : nat) (z : Z) : bytes :=
  match n with
  | O => []
  | S m => z2b (z / 2 ^ (8 * Z.of_nat m)) :: be_bytes m z
  end.
(** [uN::from_be_bytes(l)] *)
Definition from_be (l : bytes) : Z := foldl (fun acc b => acc * 256 + b2z b)%Z 0%Z l.

Lemma length_be_bytes n z : length (be_bytes n z) = n.
Proof. induction n; simpl; congruence. Qed.

Lemma foldl_be acc l :
  foldl (fun acc b => acc * 256 + b2z b)%Z acc l =
  (acc * 2 ^ (8 * Z.of_nat (length l)) + from_be l)%Z.
Proof.
  revert acc; unfold from_be; induction l as [|b l IH]; intros acc; cbn [foldl length].
  - change (2 ^ (8 * Z.of_nat 0))%Z with 1%Z. lia.
  - rewrite IH, (IH (0 * 256 + b2z b)%Z).
    replace (8 * Z.of_nat (S (length l)))%Z with (8 + 8 * Z.of_nat (length l))%Z by lia.
    rewrite Z.pow_add_r by lia. change (2 ^ 8)%Z with 256%Z. nia.
Qed.

Lemma from_be_cons b l :
  from_be (b :: l) = (b2z b * 2 ^ (8 * Z.of_nat (length l)) + from_be l)%Z.
Proof. unfold from_be at 1. cbn [foldl]. by rewrite foldl_be. Qed.

Lemma from_be_bytes n z : from_be (be_bytes n z) = (z mod 2 ^ (8 * Z.of_nat n))%Z.
Proof.
  induction n as [|n IH]; [by rewrite Z.mod_1_r|]. cbn [be_bytes].
  rewrite from_be_cons, IH, length_be_bytes, b2z_z2b.
  replace (8 * Z.of_nat (S n))%Z with (8 * Z.of_nat n + 8)%Z by lia.
  rewrite Z.pow_add_r by lia. change (2 ^ 8)%Z with 256%Z.
  rewrite Z.rem_mul_r by lia. lia.
Qed.

Lemma from_be_range l : (0 <= from_be l < 2 ^ (8 * Z.of_nat (length l)))%Z.
Proof.
  induction l as [|b l IH]; [done|]. rewrite from_be_cons. cbn [length].
  pose proof (b2z_range b).
  replace (8 * Z.of_nat (S (length l)))%Z with (8 + 8 * Z.of_nat (length l))%Z by lia.
  rewrite Z.pow_add_r by lia. change (2 ^ 8)%Z with 256%Z. nia.
Qed.

(** ** Lengths and slices *)

(** [a.div_ceil(b)] *)
Definition div_ceil (a b : nat) : nat := (a + b - 1) / b.

(** The length of a byte string as an integer. *)
Definition zlen {A} (l : list A) : Z := Z.of_nat (length l).

Lemma zlen_nonneg {A} (l : list A) : (0 <= zlen l)%Z.
Proof. unfold zlen; lia. Qed.
Lemma zlen_app {A} (l k : list A) : zlen (l ++ k) = (zlen l + zlen k)%Z.
Proof. unfold zlen. rewrite length_app. lia. Qed.

(** [&l[n..]] panics past the end. *)
Definition slice_from {E A} (l : list A) (n : nat) : result E (list A) :=
  if decide (n <= length l) then Ok (drop n l) else Panic.
(** [&l[a..b]] panics when the bounds are out of order or past the end. *)
Definition slice {E A} (l : list A) (a b : nat) : result E (list A) :=
  if decide (a <= b <= length l) then Ok (take (b - a) (drop a l)) else Panic.

(** ** Loops over a shrinking input

    [while !data.is_empty() { .. }]: every round of the loop consumes input, so
    the input's length is fuel enough ([while_data_unfold]); running out of it
    would read as a panic. *)
Section Loop.
Context {E S : Type} (step : bytes -> S -> result E (bytes * S)).

Fixpoint loop_fuel (fuel : nat) (data : bytes) (s : S) : result E S :=
  match data with
  | [] => Ok s
  | _ =>
      match fuel with
      | O => Panic
      | Datatypes.S fuel =>
          step data s ≫= fun '(data, s) => loop_fuel fuel data s
      end
  end.

Definition while_data (data : bytes) (s : S) : result E S :=
  loop_fuel (length data) data s.

(** A round consumes at least one byte. *)
Definition consumes : Prop := forall data s data' s',
  data <> [] -> step data s = Ok (data', s') -> length data' < length data.

Hypothesis Hstep : consumes.

Lemma loop_fuel_enough fuel data s :
  length data <= fuel -> loop_fuel fuel data s = while_data data s.
Proof.
  unfold while_data. remember (length data) as n eqn:En.
  revert fuel data s En. induction (lt_wf n) as [n _ IH]. intros fuel data s -> Hf.
  destruct data as [|b data]; [by destruct fuel|].
  destruct fuel as [|fuel]; [simpl in Hf; lia|]. cbn [length loop_fuel].
  destruct (step (b :: data) s) as [[d' s']|e|] eqn:Es; [|done|done]. simpl.
  pose proof (Hstep (b :: data) s d' s' ltac:(done) Es) as Hlt. simpl in Hlt.
  rewrite (IH (length d')) by (simpl in *; lia). symmetry.
  apply (IH (length d')); simpl; lia.
Qed.

Lemma while_data_unfold data s :
  while_data data s =
  match data with
  | [] => Ok s
  | _ => step data s ≫= fun '(data, s) => while_data data s
  end.
Proof.
  destruct data as [|b data]; [done|]. unfold while_data at 1. cbn [length loop_fuel].
  destruct (step (b :: data) s) as [[d' s']|e|] eqn:Es; [|done|done]. simpl.
  apply loop_fuel_enough. pose proof (Hstep (b :: data) s d' s' ltac:(done) Es). simpl in *. lia.
Qed.

Lemma while_data_step data s data' s' :
  data <> [] -> step data s = Ok (data', s') -> while_data data s = while_data data' s'.
Proof. intros Hne Hs. rewrite while_data_unfold. destruct data; [done|]. by rewrite Hs. Qed.

(** What holds at the start and is kept by every round holds at the end. *)
Lemma while_data_inv (I : bytes -> S -> Prop) data s s' :
  (forall d s d' s', I d s -> d <> [] -> step d s = Ok (d', s') -> I d' s') ->
  I data s -> while_data data s = Ok s' -> I [] s'.
Proof.
  intros HI. remember (length data) as n eqn:En. revert data s En.
  induction (lt_wf n) as [n _ IH]. intros data s -> Hi.
  rewrite while_data_unfold. destruct data as [|b data]; [by intros [= <-]|].
  destruct (step (b :: data) s) as [[d' s'']|e|] eqn:Es; simpl; [|done|done].
  apply (IH (length d')); [by apply (Hstep (b :: data) s d' s'') | done|].
  by apply (HI (b :: data) s).
Qed.

Lemma while_data_no_panic data s :
  (forall d s, d <> [] -> no_panic (step d s)) -> no_panic (while_data data s).
Proof.
  intros Hnp. remember (length data) as n eqn:En. revert data s En.
  induction (lt_wf n) as [n _ IH]. intros data s ->. rewrite while_data_unfold.
  destruct data as [|b data]; [discriminate|]. apply no_panic_bind; [by apply Hnp|].
  intros [d' s'] Es. apply (IH (length d')); [|done]. by apply (Hstep (b :: data) s d' s').
Qed.

(** A round that succeeds does the same in front of more input. *)
Definition extends : Prop := forall data s data' s' more,
  data <> [] -> step data s = Ok (data', s') -> step (data ++ more) s = Ok (data' ++ more, s').

(** The loop over a concatenation is the loop over the parts in turn. *)
Lemma while_data_app data more s s' : extends ->
  while_data data s = Ok s' -> while_data (data ++ more) s = while_data more s'.
Proof.
  intros Hext. remember (length data) as n eqn:En. revert data s En.
  induction (lt_wf n) as [n _ IH]. intros data s ->.
  rewrite (while_data_unfold data). destruct data as [|b data]; [by intros [= <-]|].
  destruct (step (b :: data) s) as [[d' s'']|e|] eqn:Es; simpl; [|done|done]. intros Hd.
  rewrite (while_data_step (b :: data ++ more) s (d' ++ more) s'');
    [| done | by apply (Hext (b :: data))].
  apply (IH (length d')); [by apply (Hstep (b :: data) s d' s'') | done | done].
Qed.

End Loop.

(** ** Bits *)

(** Joining a low part and a shifted high part. *)
Lemma lor_shiftl_add a x k : (0 <= k)%Z -> (0 <= a < 2 ^ k)%Z ->
  Z.lor a (Z.shiftl x k) = (a + x * 2 ^ k)%Z.
Proof.
  intros Hk Ha. rewrite Z.shiftl_mul_pow2 by done. symmetry.
  apply Z.add_nocarry_lor, Z.bits_inj'. intros n Hn. rewrite Z.land_spec, Z.bits_0.
  destruct (Z.ltb_spec n k).
  - rewrite Z.mul_pow2_bits_low by done. apply andb_false_r.
  - replace (Z.testbit a n) with false; [done|]. symmetry. apply Z.testbit_false; [done|].
    rewrite Z.div_small; [done|]. split; [lia|].
    apply Z.lt_le_trans with (2 ^ k)%Z; [lia|]. apply Z.pow_le_mono_r; lia.
Qed.

(** A statement about a byte can be checked on all of them. *)
Lemma byte_forall (P : Z -> bool) :
  forallb P (seqZ 0 256) = true -> forall z, (0 <= z < 256)%Z -> P z = true.
Proof.
  intros H z Hz. rewrite forallb_forall in H. apply H.
  apply list_elem_of_In, elem_of_seqZ. lia.
Qed.

Lemma lor_0x80 z : (0 <= z < 256)%Z -> Z.lor z 0x80 = (128 + z mod 128)%Z.
Proof.
  intros Hz. apply Z.eqb_eq.
  apply (byte_forall (fun z => Z.lor z 0x80 =? 128 + z mod 128)%Z); [by vm_compute|done].
Qed.
Lemma land_0x7f z : Z.land z 0x7f = (z mod 128)%Z.
Proof. change 0x7f%Z with (Z.ones 7). by rewrite Z.land_ones. Qed.
Lemma land_7 z : Z.land z 7 = (z mod 8)%Z.
Proof. change 7%Z with (Z.ones 3). by rewrite Z.land_ones. Qed.

(** Take a successful computation apart: its binds, the cases it chose. *)
Ltac invert_ok H :=
  repeat match type of H with
  | mbind _ _ = Ok _ =>
      let x := fresh "x" in let Hx := fresh "Hx" in apply bind_ok_inv in H as (x & Hx & H)
  | (match ?p with pair _ _ => _ end) = Ok _ => destruct p
  | (if ?b then _ else _) = Ok _ => let Hb := fresh "Hb" in destruct b eqn:Hb
  | mret _ = Ok _ => unfold mret, result_ret in H
  | Ok _ = Ok _ => injection H as H; subst
  | Err _ = Ok _ => discriminate H
  | Panic = Ok _ => discriminate H
  end.

(** [u32::try_from(v).ok()], [u16::try_from(v).ok()] *)
Definition try_u32 (v : Z) : option Z := if (0 <=? v)%Z && (v <=? u32_max)%Z then Some v else None.
Definition try_u16 (v : Z) : option Z := if (0 <=? v)%Z && (v <=? u16_max)%Z then Some v else None.

(** [a.or(b)] *)
Definition option_or {A} (a b : option A) : option A := match a with Some _ => a | None => b end.

(** [bytes.split_at_checked(n)] with a usize position. *)
Definition split_at_checked (l : bytes) (n : Z) : option (bytes * bytes) :=
  if (n <=? zlen l)%Z then Some (take (Z.to_nat n) l, drop (Z.to_nat n) l) else None.

(** ** Record update

    [r <| f := v |>] is [r] with field [f] replaced.  A record is updatable once
    its [Eta] instance rebuilds it from its fields. *)
Class Eta (R : Type) := eta : R -> R.
Class Setter {R T : Type} (field : R -> T) := set_field : (T -> T) -> R -> R.

(** Abstract the field out of the rebuilt record. *)
Ltac derive_setter :=
  lazymatch goal with
  | |- @Setter ?R ?T ?field =>
      let inst := constr:(_ : Eta R) in
      let inst := lazymatch inst with
        | ?h ?a ?b ?c => eval unfold h in inst | ?h ?a ?b => eval unfold h in inst
        | ?h ?a => eval unfold h in inst | ?h => eval unfold h in inst end in
      lazymatch (eval pattern field in inst) with
      | ?build _ => exact (fun (g : T -> T) => build (fun r => g (field r)))
      end
  end.
#[export] Hint Extern 0 (Setter _) => derive_setter : typeclass_instances.

Notation "r <| f := v |>" := (set_field (field:=f) (fun _ => v) r)
  (at level 12, f at next level, v at level 200, left associativity, format "r  <| f  :=  v |>") : zetta_scope.

(** [v.remove(i)] on a vector, for an index in range. *)
Definition remove_at {A} (i : nat) (l : list A) : list A := take i l ++ drop (S i) l.

(** [iter().position(p)] and [iter().rposition(p)] *)
Fixpoint position {A} (p : A -> bool) (l : list A) : option nat :=
  match l with
  | [] => None
  | a :: l => if p a then Some O else S <$> position p l
  end.
Lemma position_lt {A} (p : A -> bool) l i : position p l = Some i -> (i < length l)%nat.
Proof.
  revert i. induction l as [|a l IH]; intros i; [done|]. cbn [position length]. destruct (p a); [intros [= <-]; lia|].
  destruct (position p l) as [k|]; [|done]. intros [= <-]. specialize (IH k eq_refl). lia.
Qed.
Lemma position_finds {A} (p : A -> bool) l :
  match position p l with
  | Some i => exists a, l !! i = Some a /\ p a = true
  | None => forall a, a ∈ l -> p a = false
  end.
Proof.
  induction l as [|a l IH]; [by intros a ?%elem_of_nil|]. cbn [position]. destruct (p a) eqn:Ha; [by exists a|].
  destruct (position p l) as [i|]; cbn [fmap option_fmap option_map]; [done|]. intros b [->|Hb]%elem_of_cons; [done | by apply IH].
Qed.
Fixpoint rposition {A} (p : A -> bool) (l : list A) : option nat :=
  match l with
  | [] => None
  | a :: l => match rposition p l with Some i => Some (S i) | None => if p a then Some O else None end
  end.

(** A filter that keeps everything. *)
Lemma filter_all {A} (P : A -> Prop) `{!forall x, Decision (P x)} (l : list A) :
  (forall x, x ∈ l -> P x) -> filter P l = l.
Proof.
  induction l as [|x l IH]; intros Hl; [done|]. rewrite filter_cons_True by (apply Hl; set_solver).
  f_equal. apply IH. set_solver.
Qed.
