(* ===== verification/Text.v ===== *)
(** * Numbers and bytes as text

    What the scrollback markers write inside an escape sequence: decimal numbers
    as Rust's [to_string] gives them, and Base64.  The [base64] crate is third
    party, so its engine is a class with the documented laws; [rfc4648] is the
    instance the examples run. *)
From Stdlib Require Import ZArith Lia List Bool.
From Stdlib Require Strings.String.
From stdpp Require Import base numbers list strings.
From S2P Require Import Prelude.
Open Scope Z_scope.

(** A literal [b".."]. *)
Definition text (s : String.string) : bytes := String.list_byte_of_string s.
Arguments text s%_string_scope.

(** ** Decimal numbers *)
Module Decimal.

Definition digit (d : Z) : byte := z2b (0x30 + d).
(** [u8::is_ascii_digit] *)
Definition is_ascii_digit (b : byte) : bool := (0x30 <=? b2z b) && (b2z b <=? 0x39).

Fixpoint digits (fuel : nat) (n : Z) : bytes :=
  match fuel with
  | O => [digit (n mod 10)]
  | S fuel => (if n <? 10 then [] else digits fuel (n / 10)) ++ [digit (n mod 10)]
  end.

(** [n.to_string()] for a [u64], which has at most twenty digits. *)
Definition decimal (n : Z) : bytes := digits 19 n.

Lemma b2z_digit d : 0 <= d < 10 -> b2z (digit d) = 0x30 + d.
Proof. intros. unfold digit. rewrite b2z_z2b. apply Z.mod_small. lia. Qed.
Lemma is_ascii_digit_digit d : 0 <= d < 10 -> is_ascii_digit (digit d) = true.
Proof. intros. unfold is_ascii_digit. rewrite b2z_digit by done. apply andb_true_iff. lia. Qed.

Lemma digits_digits fuel n : Forall (fun b => is_ascii_digit b = true) (digits fuel n).
Proof.
  revert n. induction fuel as [|fuel IH]; intros n; cbn [digits];
    (assert (0 <= n mod 10 < 10) by (apply Z.mod_pos_bound; lia)).
  - repeat constructor. by apply is_ascii_digit_digit.
  - apply Forall_app. split; [destruct (n <? 10); [constructor | apply IH]|].
    repeat constructor. by apply is_ascii_digit_digit.
Qed.
Lemma digits_nonempty fuel n : digits fuel n <> [].
Proof. destruct fuel; cbn; [done|]. by destruct (if n <? 10 then _ else _). Qed.
Lemma digits_length fuel n : (length (digits fuel n) <= S fuel)%nat.
Proof.
  revert n. induction fuel as [|fuel IH]; intros n; cbn [digits]; [cbn; lia|].
  rewrite length_app. cbn [length]. destruct (n <? 10); cbn [length]; [lia|].
  specialize (IH (n / 10)). lia.
Qed.

Lemma decimal_digits n : Forall (fun b => is_ascii_digit b = true) (decimal n).
Proof. apply digits_digits. Qed.
Lemma decimal_nonempty n : decimal n <> [].
Proof. apply digits_nonempty. Qed.
Lemma decimal_length n : (length (decimal n) <= 20)%nat.
Proof. apply (digits_length 19). Qed.

Example decimal_0 : decimal 0 = text "0". Proof. reflexivity. Qed.
Example decimal_max : decimal (2 ^ 64 - 1) = text "18446744073709551615". Proof. reflexivity. Qed.

End Decimal.

(** ** Base64 *)

(** [STANDARD_NO_PAD.encode] and [.decode]. *)
Class Base64 := {
  encode : bytes -> bytes;
  decode : bytes -> option bytes;
}.

(** The alphabet of RFC 4648, section 4. *)
Definition base64_alphabet : bytes :=
  text "ABCDEFGHIJKLMNOPQRSTUVWXYZabcdefghijklmnopqrstuvwxyz0123456789+/".

(** What the engine documents: decoding undoes encoding, and without padding
    three bytes take four characters of the alphabet. *)
Class Base64Laws `{Base64} : Prop := {
  decode_encode_64 : forall l, decode (encode l) = Some l;
  encode_alphabet : forall l, Forall (fun b => b ∈ base64_alphabet) (encode l);
  encode_length : forall l, length (encode l) = ((4 * length l + 2) / 3)%nat;
}.

Module Rfc4648.

Definition sextet (v : Z) : byte := nth (Z.to_nat v) base64_alphabet (z2b 0).
Definition value (b : byte) : option Z :=
  Z.of_nat <$> position (fun c => bool_decide (c = b)) base64_alphabet.

Fixpoint encode (l : bytes) : bytes :=
  match l with
  | a :: b :: c :: rest =>
      let n := b2z a * 65536 + b2z b * 256 + b2z c in
      sextet (n / 262144) :: sextet (n / 4096 mod 64) :: sextet (n / 64 mod 64) :: sextet (n mod 64)
        :: encode rest
  | [a; b] =>
      let n := b2z a * 1024 + b2z b * 4 in
      [sextet (n / 4096); sextet (n / 64 mod 64); sextet (n mod 64)]
  | [a] => let n := b2z a * 16 in [sextet (n / 64); sextet (n mod 64)]
  | [] => []
  end.

(** No padding is accepted, and the unused bits of the last character are zero. *)
Fixpoint decode (l : bytes) : option bytes :=
  match l with
  | w :: x :: y :: z :: rest =>
      w ← value w; x ← value x; y ← value y; z ← value z; rest ← decode rest;
      let n := w * 262144 + x * 4096 + y * 64 + z in
      Some (z2b (n / 65536) :: z2b (n / 256) :: z2b n :: rest)
  | [w; x; y] =>
      w ← value w; x ← value x; y ← value y;
      let n := w * 4096 + x * 64 + y in
      if n mod 4 =? 0 then Some [z2b (n / 1024); z2b (n / 4)] else None
  | [w; x] =>
      w ← value w; x ← value x;
      let n := w * 64 + x in
      if n mod 16 =? 0 then Some [z2b (n / 16)] else None
  | [_] => None
  | [] => Some []
  end.

Lemma value_sextet v : 0 <= v < 64 -> value (sextet v) = Some v.
Proof.
  intros Hv.
  assert (forallb (fun v => bool_decide (value (sextet v) = Some v)) (seqZ 0 64) = true) as H
    by (by vm_compute).
  rewrite forallb_forall in H. specialize (H v).
  rewrite bool_decide_eq_true in H. apply H, list_elem_of_In, elem_of_seqZ. lia.
Qed.
Lemma sextet_alphabet v : 0 <= v < 64 -> sextet v ∈ base64_alphabet.
Proof.
  intros Hv. apply list_elem_of_In, nth_In. change (length base64_alphabet) with 64%nat. lia.
Qed.

(** A list by groups of three. *)
Lemma triples_ind {A} (P : list A -> Prop) :
  P [] -> (forall a, P [a]) -> (forall a b, P [a; b]) ->
  (forall a b c l, P l -> P (a :: b :: c :: l)) -> forall l, P l.
Proof.
  intros H0 H1 H2 H3. fix IH 1. intros [|a [|b [|c l]]]; [done | done | done |].
  apply H3, IH.
Qed.

Lemma byte_bits a n : n mod 256 = b2z a -> z2b n = a.
Proof.
  intros H. apply b2z_inj. by rewrite b2z_z2b.
Qed.

Ltac sextet_range := Z.to_euclidean_division_equations; lia.

Lemma base64_decode_encode l : decode (encode l) = Some l.
Proof.
  induction l as [|a|a b|a b c l IH] using triples_ind; [done|..].
  - cbn [encode decode]. pose proof (b2z_range a). set (n := b2z a * 16) in *.
    rewrite !value_sextet by (subst n; sextet_range). cbn [mbind option_bind].
    replace (n / 64 * 64 + n mod 64) with n by (subst n; sextet_range).
    assert (n mod 16 = 0) as -> by (subst n; sextet_range). cbn.
    do 2 f_equal. apply byte_bits. subst n. sextet_range.
  - cbn [encode decode]. pose proof (b2z_range a). pose proof (b2z_range b).
    set (n := b2z a * 1024 + b2z b * 4) in *.
    rewrite !value_sextet by (subst n; sextet_range). cbn [mbind option_bind].
    replace (n / 4096 * 4096 + n / 64 mod 64 * 64 + n mod 64) with n by (subst n; sextet_range).
    assert (n mod 4 = 0) as -> by (subst n; sextet_range). cbn.
    do 2 f_equal; [apply byte_bits; subst n; sextet_range|]. f_equal.
    apply byte_bits. subst n. sextet_range.
  - cbn [encode decode]. pose proof (b2z_range a). pose proof (b2z_range b). pose proof (b2z_range c).
    set (n := b2z a * 65536 + b2z b * 256 + b2z c) in *.
    rewrite !value_sextet by (subst n; sextet_range). cbn [mbind option_bind]. rewrite IH. cbn [mbind option_bind].
    replace (n / 262144 * 262144 + n / 4096 mod 64 * 4096 + n / 64 mod 64 * 64 + n mod 64) with n
      by (subst n; sextet_range).
    do 2 f_equal; [apply byte_bits; subst n; sextet_range|].
    f_equal; [apply byte_bits; subst n; sextet_range|]. f_equal.
    apply byte_bits. subst n. sextet_range.
Qed.

Lemma encode_in_alphabet l : Forall (fun b => b ∈ base64_alphabet) (encode l).
Proof.
  induction l as [|a|a b|a b c l IH] using triples_ind; cbn [encode];
    repeat match goal with x : byte |- _ => lazymatch goal with _ : 0 <= b2z x < 256 |- _ => fail | _ => pose proof (b2z_range x) end end;
    repeat (constructor; [apply sextet_alphabet; sextet_range|]); try done; constructor.
Qed.

Lemma length_base64 l : length (encode l) = ((4 * length l + 2) / 3)%nat.
Proof.
  induction l as [|a|a b|a b c l IH] using triples_ind; [done..|].
  cbn [encode length]. rewrite IH.
  replace (4 * S (S (S (length l))) + 2)%nat with (4 * length l + 2 + 4 * 3)%nat by lia.
  rewrite Nat.div_add by lia. lia.
Qed.

Definition engine : Base64 := {| Text.encode := encode; Text.decode := decode |}.

Lemma engine_laws : @Base64Laws engine.
Proof. split; [apply base64_decode_encode | apply encode_in_alphabet | apply length_base64]. Qed.

Example encode_hi : encode (z2b 1 :: be_bytes 4 2 ++ text "hi") = text "AQAAAAJoaQ".
Proof. reflexivity. Qed.

End Rfc4648.
