(* ===== verification/Utf8.v ===== *)
(** * Characters

    Rust's [char] and its UTF-8 encoding, as the Standard Library of the language
    defines them: what [utf8_chunks] reads out of bytes that may not be UTF-8,
    what [encode_utf8] writes, and [is_control].  A character is the [Z] of its
    scalar value.  [Scrollback] builds on it. *)
From Stdlib Require Import ZArith Lia List Bool.
From stdpp Require Import base numbers list.
From S2P Require Import Prelude.
Open Scope Z_scope.

Module Utf8.

(** A Unicode scalar value: no surrogate. *)
Definition scalar (c : Z) : Prop := 0 <= c < 0xD800 \/ 0xE000 <= c < 0x110000.

(** [a..=b] contains [c]. *)
Definition within (a b c : Z) : bool := (a <=? c) && (c <=? b).

Lemma within_iff a b c : within a b c = true <-> a <= c <= b.
Proof. unfold within. rewrite andb_true_iff, !Z.leb_le. done. Qed.
Lemma within_spec a b c : reflect (a <= c <= b) (within a b c).
Proof. apply iff_reflect. by rewrite within_iff. Qed.

(** [char::is_control]: the general category Cc. *)
Definition is_control (c : Z) : bool := within 0 0x1f c || within 0x7f 0x9f c.

Definition continuation (b : byte) : bool := within 0x80 0xBF (b2z b).

(** The second byte that may follow a lead byte of three or four. *)
Definition second_of_three (b0 b1 : Z) : bool :=
  if b0 =? 0xE0 then within 0xA0 0xBF b1
  else if b0 =? 0xED then within 0x80 0x9F b1
  else within 0x80 0xBF b1.
Definition second_of_four (b0 b1 : Z) : bool :=
  if b0 =? 0xF0 then within 0x90 0xBF b1
  else if b0 =? 0xF4 then within 0x80 0x8F b1
  else within 0x80 0xBF b1.

(** The characters of the valid parts of [bytes.utf8_chunks()], in order.  An
    invalid part is a lead byte with the continuation bytes that could follow
    it, or a single byte; none of these begins a character, so dropping a part
    is dropping its bytes one at a time. *)
Fixpoint utf8_chars (l : bytes) : list Z :=
  match l with
  | [] => []
  | b0 :: l1 =>
      let c0 := b2z b0 in
      if c0 <? 0x80 then c0 :: utf8_chars l1
      else if within 0xC2 0xDF c0 then
        match l1 with
        | b1 :: l2 =>
            if continuation b1 then ((c0 - 0xC0) * 64 + (b2z b1 - 0x80)) :: utf8_chars l2
            else utf8_chars l1
        | [] => []
        end
      else if within 0xE0 0xEF c0 then
        match l1 with
        | b1 :: b2 :: l3 =>
            if second_of_three c0 (b2z b1) && continuation b2 then
              ((c0 - 0xE0) * 4096 + (b2z b1 - 0x80) * 64 + (b2z b2 - 0x80)) :: utf8_chars l3
            else utf8_chars l1
        | _ => utf8_chars l1
        end
      else if within 0xF0 0xF4 c0 then
        match l1 with
        | b1 :: b2 :: b3 :: l4 =>
            if second_of_four c0 (b2z b1) && continuation b2 && continuation b3 then
              ((c0 - 0xF0) * 262144 + (b2z b1 - 0x80) * 4096 + (b2z b2 - 0x80) * 64 + (b2z b3 - 0x80))
                :: utf8_chars l4
            else utf8_chars l1
        | _ => utf8_chars l1
        end
      else utf8_chars l1
  end.

(** [c.encode_utf8(..)] *)
Definition encode_utf8 (c : Z) : bytes :=
  if c <? 0x80 then [z2b c]
  else if c <? 0x800 then [z2b (0xC0 + c / 64); z2b (0x80 + c mod 64)]
  else if c <? 0x10000 then
    [z2b (0xE0 + c / 4096); z2b (0x80 + c / 64 mod 64); z2b (0x80 + c mod 64)]
  else
    [z2b (0xF0 + c / 262144); z2b (0x80 + c / 4096 mod 64); z2b (0x80 + c / 64 mod 64);
     z2b (0x80 + c mod 64)].

(** ** What is read is a character *)

Ltac bytes_in_range :=
  repeat match goal with
  | |- context [b2z ?b] =>
      lazymatch goal with
      | _ : 0 <= b2z b < 256 |- _ => fail
      | _ => pose proof (b2z_range b)
      end
  end.

(** Decide the tests on the code's ranges. *)
Ltac split_within :=
  repeat match goal with
  | H : (_ && _)%bool = true |- _ => apply andb_true_iff in H as [? ?]
  | H : within _ _ _ = true |- _ => apply within_iff in H
  | H : (_ <? _) = true |- _ => apply Z.ltb_lt in H
  | H : (_ <? _) = false |- _ => apply Z.ltb_ge in H
  | H : (_ =? _) = true |- _ => apply Z.eqb_eq in H
  | H : (_ =? _) = false |- _ => apply Z.eqb_neq in H
  end.

Lemma second_of_three_range b0 b1 :
  second_of_three b0 b1 = true ->
  0x80 <= b1 <= 0xBF /\ (b0 = 0xE0 -> 0xA0 <= b1) /\ (b0 = 0xED -> b1 <= 0x9F).
Proof.
  unfold second_of_three. destruct (b0 =? 0xE0) eqn:?; [|destruct (b0 =? 0xED) eqn:?];
    intros; split_within; lia.
Qed.
Lemma second_of_four_range b0 b1 :
  second_of_four b0 b1 = true ->
  0x80 <= b1 <= 0xBF /\ (b0 = 0xF0 -> 0x90 <= b1) /\ (b0 = 0xF4 -> b1 <= 0x8F).
Proof.
  unfold second_of_four. destruct (b0 =? 0xF0) eqn:?; [|destruct (b0 =? 0xF4) eqn:?];
    intros; split_within; lia.
Qed.

(** Whatever the bytes, only scalar values are read. *)
Lemma utf8_chars_scalar l : Forall scalar (utf8_chars l).
Proof.
  remember (length l) as n eqn:En. revert l En.
  induction (lt_wf n) as [n _ IH]. intros [|b0 l1] ->; [constructor|].
  pose proof (fun l (H : (length l < length (b0 :: l1))%nat) => IH _ H l eq_refl) as Hrec.
  cbn [utf8_chars length] in *. pose proof (b2z_range b0).
  destruct (b2z b0 <? 0x80) eqn:?; split_within.
  { constructor; [left; lia | apply Hrec; lia]. }
  destruct (within 0xC2 0xDF (b2z b0)) eqn:?; split_within.
  { destruct l1 as [|b1 l2]; [constructor|]. cbn [length] in *.
    destruct (continuation b1) eqn:?; [|apply Hrec; simpl; lia].
    unfold continuation in *; split_within. constructor; [left; lia | apply Hrec; lia]. }
  destruct (within 0xE0 0xEF (b2z b0)) eqn:?; split_within.
  { destruct l1 as [|b1 [|b2 l3]]; [apply Hrec; simpl; lia..|]. cbn [length] in *.
    destruct (_ && _) eqn:?; [|apply Hrec; simpl; lia].
    unfold continuation in *; split_within. edestruct second_of_three_range as (?&?&?); [done|].
    constructor; [unfold scalar; lia | apply Hrec; lia]. }
  destruct (within 0xF0 0xF4 (b2z b0)) eqn:?; split_within; [|apply Hrec; simpl; lia].
  destruct l1 as [|b1 [|b2 [|b3 l4]]]; [apply Hrec; simpl; lia..|]. cbn [length] in *.
  destruct (_ && _) eqn:?; [|apply Hrec; simpl; lia].
  unfold continuation in *; split_within. edestruct second_of_four_range as (?&?&?); [done|].
  constructor; [unfold scalar; lia | apply Hrec; lia].
Qed.

(** ** A written character is read back *)

Lemma within_true a b c : a <= c <= b -> within a b c = true.
Proof. apply within_iff. Qed.
Lemma within_false a b c : c < a \/ b < c -> within a b c = false.
Proof. intros. apply not_true_iff_false. rewrite within_iff. lia. Qed.

Lemma b2z_small z : 0 <= z < 256 -> b2z (z2b z) = z.
Proof. intros. rewrite b2z_z2b. by apply Z.mod_small. Qed.

Lemma second_of_three_ok b0 b1 :
  0x80 <= b1 <= 0xBF -> (b0 = 0xE0 -> 0xA0 <= b1) -> (b0 = 0xED -> b1 <= 0x9F) ->
  second_of_three b0 b1 = true.
Proof.
  intros ? ? ?. unfold second_of_three.
  destruct (Z.eqb_spec b0 0xE0); [|destruct (Z.eqb_spec b0 0xED)]; apply within_true; lia.
Qed.
Lemma second_of_four_ok b0 b1 :
  0x80 <= b1 <= 0xBF -> (b0 = 0xF0 -> 0x90 <= b1) -> (b0 = 0xF4 -> b1 <= 0x8F) ->
  second_of_four b0 b1 = true.
Proof.
  intros ? ? ?. unfold second_of_four.
  destruct (Z.eqb_spec b0 0xF0); [|destruct (Z.eqb_spec b0 0xF4)]; apply within_true; lia.
Qed.

Lemma continuation_ok z : 0x80 <= z <= 0xBF -> continuation (z2b z) = true.
Proof. intros. unfold continuation. rewrite b2z_small by lia. by apply within_true. Qed.

Lemma utf8_decode_encode c l : scalar c -> utf8_chars (encode_utf8 c ++ l) = c :: utf8_chars l.
Proof.
  intros Hc. assert (0 <= c < 0x110000) by (unfold scalar in Hc; lia).
  unfold encode_utf8. destruct (c <? 0x80) eqn:?; split_within.
  { cbn [app utf8_chars]. rewrite b2z_small by lia. by rewrite (proj2 (Z.ltb_lt _ _)) by lia. }
  destruct (c <? 0x800) eqn:?; split_within; [|destruct (c <? 0x10000) eqn:?; split_within].
  - assert (2 <= c / 64 < 32) by (Z.to_euclidean_division_equations; lia).
    assert (0 <= c mod 64 < 64) by (apply Z.mod_pos_bound; lia).
    cbn [app utf8_chars]. rewrite continuation_ok by lia. rewrite !b2z_small by lia.
    rewrite (proj2 (Z.ltb_ge _ _)) by lia. rewrite within_true by lia.
    f_equal. rewrite (Z.div_mod c 64) at 3; lia.
  - assert (0 <= c / 4096 < 16) by (Z.to_euclidean_division_equations; lia).
    assert (0 <= c mod 64 < 64) by (apply Z.mod_pos_bound; lia).
    assert (0 <= c / 64 mod 64 < 64) by (apply Z.mod_pos_bound; lia).
    assert (c = c / 4096 * 4096 + c / 64 mod 64 * 64 + c mod 64) as Hsum
      by (clear; Z.to_euclidean_division_equations; lia).
    cbn [app utf8_chars]. rewrite continuation_ok by lia. rewrite !b2z_small by lia.
    rewrite (proj2 (Z.ltb_ge _ _)), within_false, within_true by lia.
    rewrite second_of_three_ok; [cbn [andb]; f_equal; lia | lia..|].
    intros. unfold scalar in Hc. lia.
  - assert (0 <= c / 262144 < 5) by (Z.to_euclidean_division_equations; lia).
    assert (0 <= c mod 64 < 64) by (apply Z.mod_pos_bound; lia).
    assert (0 <= c / 64 mod 64 < 64) by (apply Z.mod_pos_bound; lia).
    assert (0 <= c / 4096 mod 64 < 64) by (apply Z.mod_pos_bound; lia).
    assert (c = c / 262144 * 262144 + c / 4096 mod 64 * 4096 + c / 64 mod 64 * 64 + c mod 64) as Hsum
      by (clear; Z.to_euclidean_division_equations; lia).
    cbn [app utf8_chars]. rewrite !continuation_ok by lia. rewrite !b2z_small by lia.
    rewrite (proj2 (Z.ltb_ge _ _)), !within_false, within_true by lia.
    rewrite second_of_four_ok; [cbn [andb]; f_equal; lia | lia..].
Qed.

(** Text written out is read back character by character. *)
Lemma decode_text cs l :
  Forall scalar cs -> utf8_chars (flat_map encode_utf8 cs ++ l) = cs ++ utf8_chars l.
Proof.
  induction 1 as [|c cs Hc _ IH]; [done|]. cbn [flat_map]. rewrite <- app_assoc.
  rewrite utf8_decode_encode by done. by rewrite IH.
Qed.

End Utf8.
