(* ===== verification/Sanitize.v ===== *)
(** * What a carried row may hold

    Models [sanitize_row] and its helpers of [crates/zosh/src/scrollback.rs]:
    the filter between the rows a server sends and the user's terminal.  [clean]
    says what may come out of it; the filter lets nothing else out, and leaves
    what is clean alone. *)
From Stdlib Require Import ZArith Lia List Bool.
From stdpp Require Import base numbers list.
From S2P Require Import Prelude Utf8.
Import Utf8.
Open Scope Z_scope.
Open Scope zetta_scope.

Module Sanitize.

(** ** The filter *)

Definition MAX_ROW_CSI : nat := 64.

Inductive RowParser :=
| Ground
| Escape
| EscapeIntermediate
| Csi
| Osc
| String
| StringEscape (osc : bool).

(** Characters by their code. *)
Definition ESC : Z := 0x1b.
Definition BACKSLASH : Z := 0x5c.

(** [sanitize_ground]: the state, the buffered CSI and the output after the
    character. *)
Definition sanitize_ground (character : Z) (csi output : bytes) : RowParser * bytes * bytes :=
  if character =? ESC then (Escape, csi, output)
  else if character =? 0x9b then (Csi, [], output)
  else if character =? 0x9d then (Osc, csi, output)
  else if (character =? 0x90) || (character =? 0x98) || (character =? 0x9e) || (character =? 0x9f) then
    (String, csi, output)
  else if is_control character then (Ground, csi, output)
  else (Ground, csi, output ++ encode_utf8 character).

(** ['0'..='9' | ';' | ':'] *)
Definition is_parameter (character : Z) : bool :=
  within 0x30 0x39 character || (character =? 0x3b) || (character =? 0x3a).
(** ['m' | 'C' | 'X'] *)
Definition is_kept_final (character : Z) : bool :=
  (character =? 0x6d) || (character =? 0x43) || (character =? 0x58).

Definition sanitize_csi (character : Z) (csi output : bytes) : RowParser * bytes * bytes :=
  if is_parameter character && (length csi <? MAX_ROW_CSI)%nat then (Csi, csi ++ [z2b character], output)
  else if is_kept_final character && (length csi <=? MAX_ROW_CSI)%nat then
    (Ground, [], output ++ [z2b ESC; z2b 0x5b] ++ csi ++ [z2b character])
  else if within 0x30 0x3f character || within 0x20 0x2f character then
    (Csi, replicate (MAX_ROW_CSI + 1) (z2b 0), output)
  else if character =? ESC then (Escape, csi, output)
  else (Ground, csi, output).

Definition sanitize_char (state : RowParser) (character : Z) (csi output : bytes) : RowParser * bytes * bytes :=
  if (character =? 0x18) || (character =? 0x1a) then (Ground, csi, output)
  else
    match state with
    | Ground => sanitize_ground character csi output
    | Escape =>
        if character =? 0x5b then (Csi, [], output)
        else if character =? 0x5d then (Osc, csi, output)
        else if (character =? 0x50) || (character =? 0x58) || (character =? 0x5e) || (character =? 0x5f) then
          (String, csi, output)
        else if character =? ESC then (Escape, csi, output)
        else if within 0x20 0x2f character then (EscapeIntermediate, csi, output)
        else (Ground, csi, output)
    | EscapeIntermediate =>
        if within 0x20 0x2f character then (EscapeIntermediate, csi, output)
        else if character =? ESC then (Escape, csi, output)
        else (Ground, csi, output)
    | Csi => sanitize_csi character csi output
    | Osc =>
        if (character =? 0x7) || (character =? 0x9c) then (Ground, csi, output)
        else if character =? ESC then (StringEscape true, csi, output)
        else (Osc, csi, output)
    | String =>
        if character =? 0x9c then (Ground, csi, output)
        else if character =? ESC then (StringEscape false, csi, output)
        else (String, csi, output)
    | StringEscape osc =>
        if character =? BACKSLASH then (Ground, csi, output)
        else if character =? ESC then (StringEscape osc, csi, output)
        else if osc then (Osc, csi, output)
        else (String, csi, output)
    end.

(** The loop over the characters. *)
Definition sanitize_chars (characters : list Z) (s : RowParser * bytes * bytes) : RowParser * bytes * bytes :=
  foldl (fun '(state, csi, output) character => sanitize_char state character csi output) s characters.

Definition sanitize_row (contents : bytes) : bytes :=
  (sanitize_chars (utf8_chars contents) (Ground, [], [])).2.

(** ** What a row may hold *)

(** A printable character, or one of three control sequences that stay on the
    row: colours, cursor forward, erase characters. *)
Inductive token :=
| Text (c : Z)
| Sequence (parameters : list Z) (final : Z).

Definition safe (t : token) : Prop :=
  match t with
  | Text c => scalar c /\ is_control c = false
  | Sequence parameters final =>
      (length parameters <= MAX_ROW_CSI)%nat /\ Forall (fun p => is_parameter p = true) parameters /\
      is_kept_final final = true
  end.

(** The characters of a token. *)
Definition characters (t : token) : list Z :=
  match t with
  | Text c => [c]
  | Sequence parameters final => ESC :: 0x5b :: parameters ++ [final]
  end.

Definition render (ts : list token) : bytes := flat_map encode_utf8 (flat_map characters ts).

Definition clean (row : bytes) : Prop := exists ts, Forall safe ts /\ row = render ts.

(** ** Lemmas *)

Lemma is_parameter_range p : is_parameter p = true -> 0x30 <= p <= 0x3b.
Proof.
  unfold is_parameter. rewrite !orb_true_iff, within_iff, !Z.eqb_eq. lia.
Qed.
Lemma is_kept_final_cases f : is_kept_final f = true -> f = 0x6d \/ f = 0x43 \/ f = 0x58.
Proof. unfold is_kept_final. rewrite !orb_true_iff, !Z.eqb_eq. tauto. Qed.

Lemma encode_ascii c : 0 <= c < 0x80 -> encode_utf8 c = [z2b c].
Proof. intros. unfold encode_utf8. by rewrite (proj2 (Z.ltb_lt c 0x80)) by lia. Qed.

Lemma encode_ascii_list cs :
  Forall (fun c => 0 <= c < 0x80) cs -> flat_map encode_utf8 cs = z2b <$> cs.
Proof. induction 1 as [|c cs Hc _ IH]; [done|]. cbn. by rewrite encode_ascii, IH. Qed.

Lemma render_app ts ts' : render (ts ++ ts') = render ts ++ render ts'.
Proof. unfold render. by rewrite !flat_map_app. Qed.

Lemma parameters_ascii ps :
  Forall (fun p => is_parameter p = true) ps -> Forall (fun c => 0 <= c < 0x80) ps.
Proof.
  intros Hps. eapply Forall_impl; [exact Hps|]. cbn. intros p Hp. apply is_parameter_range in Hp. lia.
Qed.

Lemma safe_scalar t : safe t -> Forall scalar (characters t).
Proof.
  destruct t as [c|ps f]; cbn; [intros [? _]; constructor; [done | constructor]|].
  intros (_ & Hp & Hf). apply is_kept_final_cases in Hf. unfold scalar, ESC.
  repeat (constructor; [lia|]). apply Forall_app. split; [|by repeat constructor; lia].
  eapply Forall_impl; [by apply parameters_ascii|]. cbn. lia.
Qed.

(** What the terminal reads of a clean row are the characters of its tokens. *)
Lemma clean_characters ts : Forall safe ts -> utf8_chars (render ts) = flat_map characters ts.
Proof.
  intros Hts. unfold render. rewrite <- (app_nil_r (flat_map encode_utf8 _)).
  rewrite decode_text, app_nil_r; [done|].
  induction Hts as [|t ts Ht _ IH]; [constructor|]. cbn. apply Forall_app. split; [|done].
  by apply safe_scalar.
Qed.

(** *** Nothing else comes out *)

(** The buffered sequence holds parameters, or is marked as one to drop. *)
Definition buffered (csi : bytes) : Prop :=
  (exists ps, csi = z2b <$> ps /\ Forall (fun p => is_parameter p = true) ps /\ (length ps <= MAX_ROW_CSI)%nat) \/
  length csi = S MAX_ROW_CSI.

(** Inside a sequence, the buffer is one. *)
Definition row_inv (s : RowParser * bytes * bytes) : Prop :=
  clean s.2 /\ (s.1.1 = Csi -> buffered s.1.2).

Lemma buffered_nil : buffered [].
Proof. left. exists []. repeat constructor. Qed.

Lemma clean_nil : clean [].
Proof. by exists []. Qed.
Lemma clean_app r r' : clean r -> clean r' -> clean (r ++ r').
Proof.
  intros (ts & Hts & ->) (ts' & Hts' & ->). exists (ts ++ ts').
  split; [by apply Forall_app | by rewrite render_app].
Qed.
Lemma clean_text c : scalar c -> is_control c = false -> clean (encode_utf8 c).
Proof.
  intros. exists [Text c]. split; [constructor; [by split | constructor]|]. cbn. by rewrite app_nil_r.
Qed.
Lemma clean_sequence ps f : safe (Sequence ps f) -> clean (z2b ESC :: z2b 0x5b :: (z2b <$> ps) ++ [z2b f]).
Proof.
  intros Hs. exists [Sequence ps f]. split; [constructor; [done | constructor]|].
  destruct Hs as (_ & Hp & Hf). apply is_kept_final_cases in Hf.
  unfold render. cbn [flat_map]. rewrite app_nil_r. cbn [characters flat_map].
  rewrite flat_map_app, (encode_ascii_list ps) by (by apply parameters_ascii). cbn [flat_map].
  rewrite (encode_ascii f) by lia. done.
Qed.
#[local] Hint Resolve clean_nil clean_app clean_text clean_sequence buffered_nil : core.

(** Go through the tests of a transition that leaves the output alone. *)
Ltac through_tests :=
  repeat match goal with |- context [if ?b then _ else _] => destruct b eqn:? end.

Lemma sanitize_ground_inv c csi output :
  scalar c -> clean output -> row_inv (sanitize_ground c csi output).
Proof.
  intros Hc Ho. unfold sanitize_ground. through_tests; split; cbn; intros; try done; auto.
Qed.

Lemma sanitize_csi_inv c csi output :
  clean output -> buffered csi -> row_inv (sanitize_csi c csi output).
Proof.
  intros Ho Hb. unfold sanitize_csi.
  destruct (is_parameter c && _) eqn:Hp.
  { apply andb_true_iff in Hp as [Hp Hl]. apply Nat.ltb_lt in Hl. split; [done|]. intros _. cbn.
    destruct Hb as [(ps & -> & Hps & _)|Hb]; [|lia]. rewrite length_fmap in Hl.
    left. exists (ps ++ [c]). rewrite fmap_app, length_app. cbn.
    split_and!; [done | apply Forall_app; split; [done | by repeat constructor] | lia]. }
  destruct (is_kept_final c && _) eqn:Hf.
  { apply andb_true_iff in Hf as [Hf Hl]. apply Nat.leb_le in Hl. split; [|done]. cbn [snd].
    destruct Hb as [(ps & -> & Hps & Hlen)|Hb]; [|lia].
    apply clean_app; [done|]. cbn [app]. by apply clean_sequence. }
  through_tests; split; cbn; intros; try done. right. by rewrite ?length_replicate.
Qed.

Lemma sanitize_char_inv state c csi output :
  scalar c -> row_inv (state, csi, output) -> row_inv (sanitize_char state c csi output).
Proof.
  intros Hc [Ho Hb]. cbn in Ho, Hb. unfold sanitize_char.
  destruct (_ || _); [done|].
  destruct state; try (through_tests; split; cbn; intros; auto; done).
  - by apply sanitize_ground_inv.
  - apply sanitize_csi_inv; auto.
Qed.

Lemma sanitize_chars_inv cs s : Forall scalar cs -> row_inv s -> row_inv (sanitize_chars cs s).
Proof.
  intros Hcs. revert s. induction Hcs as [|c cs Hc _ IH]; intros [[state csi] output] Hs; [done|].
  apply IH. by apply sanitize_char_inv.
Qed.

Lemma sanitize_row_clean contents : clean (sanitize_row contents).
Proof.
  apply (sanitize_chars_inv (utf8_chars contents) (Ground, [], [])); [apply utf8_chars_scalar|].
  by split.
Qed.

(** *** Everything clean is kept *)

Lemma sanitize_parameters ps csi output :
  Forall (fun p => is_parameter p = true) ps -> (length csi + length ps <= MAX_ROW_CSI)%nat ->
  sanitize_chars ps (Csi, csi, output) = (Csi, csi ++ (z2b <$> ps), output).
Proof.
  intros Hps. revert csi. induction Hps as [|p ps Hp _ IH]; intros csi Hl; cbn.
  { by rewrite app_nil_r. }
  cbn [length] in Hl. pose proof (is_parameter_range p Hp).
  assert (sanitize_char Csi p csi output = (Csi, csi ++ [z2b p], output)) as ->.
  { unfold sanitize_char. rewrite !(proj2 (Z.eqb_neq _ _)) by lia. cbn [orb]. unfold sanitize_csi.
    rewrite Hp. cbn [andb]. by rewrite (proj2 (Nat.ltb_lt _ _)) by lia. }
  change (sanitize_chars ps (Csi, csi ++ [z2b p], output) = (Csi, csi ++ z2b p :: (z2b <$> ps), output)).
  rewrite IH by (rewrite length_app; cbn; lia). by rewrite <- app_assoc.
Qed.

Lemma sanitize_text c csi output :
  is_control c = false -> sanitize_char Ground c csi output = (Ground, csi, output ++ encode_utf8 c).
Proof.
  intros Hc. pose proof Hc as Hr. unfold is_control in Hr. apply orb_false_iff in Hr as [H1 H2].
  destruct (within_spec 0 0x1f c); [done|]. destruct (within_spec 0x7f 0x9f c); [done|].
  assert (0 <= c \/ c < 0) as [Hpos|Hneg] by lia.
  - unfold sanitize_char, sanitize_ground, ESC. rewrite Hc. by rewrite !(proj2 (Z.eqb_neq _ _)) by lia.
  - unfold sanitize_char, sanitize_ground, ESC. rewrite Hc. by rewrite !(proj2 (Z.eqb_neq _ _)) by lia.
Qed.

Lemma sanitize_final f csi output :
  is_kept_final f = true -> (length csi <= MAX_ROW_CSI)%nat ->
  sanitize_char Csi f csi output = (Ground, [], output ++ z2b ESC :: z2b 0x5b :: csi ++ [z2b f]).
Proof.
  intros Hf Hl. pose proof (is_kept_final_cases f Hf).
  unfold sanitize_char. rewrite !(proj2 (Z.eqb_neq _ _)) by lia. cbn [orb]. unfold sanitize_csi.
  assert (is_parameter f = false) as ->.
  { apply not_true_iff_false. intros Hp. apply is_parameter_range in Hp. lia. }
  rewrite Hf. cbn [andb]. by rewrite (proj2 (Nat.leb_le _ _)) by lia.
Qed.

Lemma sanitize_token t csi output :
  safe t -> exists csi', sanitize_chars (characters t) (Ground, csi, output) = (Ground, csi', output ++ render [t]).
Proof.
  destruct t as [c|ps f]; intros Ht.
  - destruct Ht as [_ Hc]. exists csi. cbn. rewrite sanitize_text by done. by rewrite app_nil_r.
  - destruct Ht as (Hl & Hps & Hf). exists []. cbn [characters].
    change (ESC :: 0x5b :: ps ++ [f]) with ([ESC; 0x5b] ++ ps ++ [f]).
    unfold sanitize_chars. rewrite !foldl_app.
    change (foldl _ (Ground, csi, output) [ESC; 91]) with (Csi, @nil byte, output).
    change (foldl _ (Csi, [], output) ps) with (sanitize_chars ps (Csi, [], output)).
    rewrite sanitize_parameters by done. cbn [foldl app].
    rewrite sanitize_final by (rewrite ?length_fmap; done).
    destruct (is_kept_final_cases f Hf) as [-> | [-> | ->]];
      unfold render; cbn [flat_map characters]; rewrite app_nil_r; cbn [flat_map];
      by rewrite flat_map_app, encode_ascii_list by (by apply parameters_ascii).
Qed.

Lemma sanitize_chars_app cs cs' s :
  sanitize_chars (cs ++ cs') s = sanitize_chars cs' (sanitize_chars cs s).
Proof. apply foldl_app. Qed.

Lemma sanitize_tokens ts csi output :
  Forall safe ts ->
  (sanitize_chars (flat_map characters ts) (Ground, csi, output)).2 = output ++ render ts.
Proof.
  intros Hts. revert csi output. induction Hts as [|t ts Ht _ IH]; intros csi output.
  { cbn. by rewrite app_nil_r. }
  cbn [flat_map]. rewrite sanitize_chars_app.
  destruct (sanitize_token t csi output Ht) as [csi' ->]. rewrite IH.
  by rewrite <- app_assoc, <- render_app.
Qed.

Lemma sanitize_clean row : clean row -> sanitize_row row = row.
Proof.
  intros (ts & Hts & ->). unfold sanitize_row. rewrite clean_characters by done.
  by rewrite sanitize_tokens.
Qed.

(** ** The property *)

(** C30. What is kept of a row, whatever the server sent, is printable text and the
    three harmless sequences with their parameters; a row made of these is kept
    as it is, so filtering a second time changes nothing; and no byte the
    terminal could answer or act on is left: a control character in it is the
    escape of such a sequence. *)
Theorem carried_rows_are_inert contents :
  clean (sanitize_row contents) /\
  sanitize_row (sanitize_row contents) = sanitize_row contents /\
  (clean contents <-> sanitize_row contents = contents) /\
  forall i c, utf8_chars (sanitize_row contents) !! i = Some c -> is_control c = true ->
    c = ESC /\ utf8_chars (sanitize_row contents) !! S i = Some 0x5b.
Proof.
  pose proof (sanitize_row_clean contents) as Hc. 
  split_and!; [done | by apply sanitize_clean | split; [apply sanitize_clean | by intros <-] |].
  destruct Hc as (ts & Hts & ->). rewrite clean_characters by done.
  induction Hts as [|t ts Ht _ IH]; [done|]. intros i c. cbn [flat_map].
  destruct (decide (i < length (characters t))%nat) as [Hi|Hi].
  2: { rewrite !lookup_app_r by lia. replace (S i - _)%nat with (S (i - length (characters t))) by lia. apply IH. }
  rewrite lookup_app_l by done. destruct t as [d|ps f]; cbn in Hi |- *.
  - replace i with 0%nat by lia. cbn. intros [= <-]. destruct Ht as [_ Ht]. by rewrite Ht.
  - destruct Ht as (_ & Hps & Hf).
    destruct i as [|[|i]]; cbn; [by intros [= <-] | by intros [= <-] |].
    intros Hl Hctl. exfalso.
    assert (is_parameter c = true \/ is_kept_final c = true) as Hor.
    { apply lookup_app_Some in Hl as [Hl|[_ Hl]].
      - left. rewrite Forall_forall in Hps. apply Hps. by apply list_elem_of_lookup_2 in Hl.
      - right. apply list_lookup_singleton_Some in Hl as [_ <-]. done. }
    unfold is_control in Hctl. rewrite orb_true_iff, !within_iff in Hctl.
    destruct Hor as [Hp|Hk]; [apply is_parameter_range in Hp | apply is_kept_final_cases in Hk]; lia.
Qed.

(** A row with a colour, a query for the cursor's position and a title: the
    colour and the text stay. *)
Lemma carried_rows_are_inert_witness :
  let row := z2b <$> [0x1b; 0x5b; 0x31; 0x6d; 0x61; 0x1b; 0x5b; 0x36; 0x6e; 0x1b; 0x5d; 0x32; 0x3b; 0x78; 7; 0xc3; 0xa9] in
  sanitize_row row = z2b <$> [0x1b; 0x5b; 0x31; 0x6d; 0x61; 0xc3; 0xa9] /\
  utf8_chars (sanitize_row row) !! 1%nat = Some 0x5b.
Proof.
  intros row. split; [by vm_compute|].
  destruct (carried_rows_are_inert row) as (_ & _ & _ & H). by apply (H 0%nat ESC).
Defined.

End Sanitize.
