(* ===== verification/Scrollback.v ===== *)
(** * Carried history, as the client reads it

    Models [crates/zosh/src/scrollback.rs]: the parser that reads the server's
    markers out of a display diff on its way to the emulator, and the rows and
    counts it keeps with the screen.  Base64 is a parameter ([Text.Base64]). *)
From Stdlib Require Import ZArith Lia List Bool.
From stdpp Require Import base numbers list strings.
From S2P Require Import Prelude Text Utf8 Sanitize.
Import Decimal Sanitize.
Open Scope Z_scope.
Open Scope zetta_scope.

Module Scrollback.

(** ** Data *)

Definition PREFIX : bytes := text "777;zosh-clear-scrollback;".
Definition ROWS_PREFIX : bytes := text "777;zosh-scrollback;".
Definition MAX_MARKER : nat := length PREFIX + 20.
Definition ROW_HEADER : Z := 5.
Definition FLAG_WRAPPED : Z := 1.
Definition MAX_PAYLOAD : Z := 6 * 1024 * 1024.

Record ScrollbackRow := mkRow { contents : bytes; wrapped : bool }.

Inductive Parser :=
| Ground | Escape | Osc | OscPayload | OscEnd | IgnoreOsc | IgnoreOscEnd | IgnoreString | IgnoreEnd.

Record ScrollbackState := mkState {
  generation : Z;
  active : bool;
  evicted : Z;
  rows : list ScrollbackRow;
  rows_first : Z;
  parser : Parser;
  buffer : bytes;
  len : nat;
  payload : bytes;
}.
#[export] Instance ScrollbackState_eta : Eta ScrollbackState := fun s =>
  mkState (generation s) (active s) (evicted s) (rows s) (rows_first s) (parser s) (buffer s) (len s) (payload s).

Definition default_state : ScrollbackState :=
  mkState 0 false 0 [] 0 Ground (replicate MAX_MARKER (z2b 0)) 0 [].

(** [l.starts_with(p)] and [l.strip_prefix(p)] *)
Fixpoint strip_prefix (p l : bytes) : option bytes :=
  match p, l with
  | [], _ => Some l
  | a :: p, b :: l => if decide (a = b) then strip_prefix p l else None
  | _ :: _, [] => None
  end.
Definition starts_with (p l : bytes) : bool := bool_decide (is_Some (strip_prefix p l)).

(** ** The numbers and rows of a marker *)

Definition index_digit (value : option Z) (digit : byte) : option Z :=
  value ← value;
  if value * 10 <=? u64_max then
    if value * 10 + (b2z digit - 0x30) <=? u64_max then Some (value * 10 + (b2z digit - 0x30)) else None
  else None.

Definition parse_index (digits : bytes) : option Z :=
  if bool_decide (digits = []) || negb (forallb is_ascii_digit digits) then None
  else foldl index_digit (Some 0) digits.

Section Rows.
Context `{Base64}.

(** One round of the loop of [decode_rows]: a row off the front. *)
Definition decode_row (rest : bytes) (rows : list ScrollbackRow) : result unit (bytes * list ScrollbackRow) :=
  '(header, tail) ← ok_or (split_at_checked rest ROW_HEADER) tt;
  let length := from_be (drop 1 header) in
  '(contents, tail) ← ok_or (split_at_checked tail length) tt;
  flags ← expect (header !! 0%nat);
  Ok (tail, rows ++ [mkRow (sanitize_row contents) (negb (Z.land (b2z flags) FLAG_WRAPPED =? 0))]).

Definition decode_rows (encoded : bytes) : option (list ScrollbackRow) :=
  payload ← decode encoded;
  match while_data decode_row payload [] with Ok rows => Some rows | _ => None end.

(** ** The parser *)

Definition finish_rows (s : ScrollbackState) : ScrollbackState :=
  let body := drop (length ROWS_PREFIX) (take (len s) (buffer s)) in
  match position (fun b => b2z b =? 0x3b) body with
  | None => s
  | Some semicolon =>
      match parse_index (take semicolon body) with
      | None => s
      | Some first =>
          let head := drop (S semicolon) body in
          let encoded := head ++ payload s in
          let s := s <| payload := [] |> in
          match decode_rows encoded with
          | None => s
          | Some carried =>
              s <| evicted := saturating_add_u64 first (zlen carried) |> <| rows_first := first |>
                <| rows := carried |> <| active := true |>
          end
      end
  end.

Definition finish (s : ScrollbackState) : ScrollbackState :=
  let marker := take (len s) (buffer s) in
  let s := if starts_with ROWS_PREFIX marker then s else s <| payload := [] |> in
  match strip_prefix PREFIX marker with
  | Some digits =>
      match parse_index digits with
      | Some generation' => s <| generation := generation' |>
      | None => s
      end
  | None => if starts_with ROWS_PREFIX marker then finish_rows s else s
  end.

Definition is_cancel (byte : Z) : bool := (byte =? 0x18) || (byte =? 0x1a).

(** One byte; the tests are in the order of the arms. *)
Definition feed_byte (s : ScrollbackState) (b : byte) : ScrollbackState :=
  let byte := b2z b in
  match parser s with
  | Ground => s <| parser := if byte =? 0x1b then Escape else Ground |>
  | Escape =>
      if byte =? 0x5d then s <| len := 0%nat |> <| payload := [] |> <| parser := Osc |>
      else if (byte =? 0x50) || (byte =? 0x58) || (byte =? 0x5e) || (byte =? 0x5f) then s <| parser := IgnoreString |>
      else if byte =? 0x1b then s <| parser := Escape |>
      else s <| parser := Ground |>
  | Osc =>
      if byte =? 7 then finish s <| parser := Ground |>
      else if byte =? 0x1b then s <| parser := OscEnd |>
      else if is_cancel byte then s <| parser := Ground |>
      else if (len s <? length (buffer s))%nat then
        s <| buffer := <[len s := b]> (buffer s) |> <| len := S (len s) |> <| parser := Osc |>
      else if starts_with ROWS_PREFIX (buffer s) then
        s <| payload := payload s ++ [b] |> <| parser := OscPayload |>
      else s <| parser := IgnoreOsc |>
  | OscPayload =>
      if byte =? 7 then finish s <| parser := Ground |>
      else if byte =? 0x1b then s <| parser := OscEnd |>
      else if is_cancel byte then s <| parser := Ground |>
      else if zlen (payload s) <? MAX_PAYLOAD then
        s <| payload := payload s ++ [b] |> <| parser := OscPayload |>
      else s <| payload := [] |> <| parser := IgnoreOsc |>
  | OscEnd =>
      if byte =? 0x5c then finish s <| parser := Ground |> else s <| parser := Ground |>
  | IgnoreOsc =>
      if byte =? 0x1b then s <| parser := IgnoreOscEnd |>
      else if (byte =? 7) || is_cancel byte then s <| parser := Ground |>
      else s <| parser := IgnoreOsc |>
  | IgnoreOscEnd => s <| parser := if byte =? 0x5c then Ground else IgnoreOsc |>
  | IgnoreString =>
      if byte =? 0x1b then s <| parser := IgnoreEnd |>
      else if is_cancel byte then s <| parser := Ground |>
      else s <| parser := IgnoreString |>
  | IgnoreEnd => s <| parser := if byte =? 0x5c then Ground else IgnoreString |>
  end.

Definition feed (s : ScrollbackState) (data : bytes) : ScrollbackState := foldl feed_byte s data.

End Rows.

(** ** What every state satisfies *)

(** The buffers are within their bounds, the rows can be written to a terminal
    as they are, and the count is the one past the last row carried. *)
Record state_ok (s : ScrollbackState) : Prop := {
  ok_buffer : length (buffer s) = MAX_MARKER;
  ok_len : (len s <= MAX_MARKER)%nat;
  ok_payload : zlen (payload s) <= MAX_PAYLOAD;
  ok_rows : Forall (fun r => clean (contents r)) (rows s);
  ok_first : 0 <= rows_first s <= u64_max;
  ok_evicted : evicted s = saturating_add_u64 (rows_first s) (zlen (rows s));
  ok_inactive : active s = false -> rows s = [] /\ evicted s = 0;
  ok_generation : 0 <= generation s <= u64_max;
}.

Lemma default_state_ok : state_ok default_state.
Proof.
  split; cbn [buffer len payload rows rows_first evicted generation default_state];
    [by rewrite length_replicate | lia | done | constructor | done | done | done | done].
Qed.

Lemma index_digit_range value d :
  (forall v, value = Some v -> 0 <= v <= u64_max) -> is_ascii_digit d = true ->
  forall v, index_digit value d = Some v -> 0 <= v <= u64_max.
Proof.
  intros Hv Hd v. unfold index_digit. destruct value as [w|]; [|done]. specialize (Hv w eq_refl).
  unfold is_ascii_digit in Hd. apply andb_true_iff in Hd as [H1%Z.leb_le H2%Z.leb_le]. cbn.
  destruct (_ <=? _); [|done]. destruct (_ <=? _) eqn:Hle; [|done]. apply Z.leb_le in Hle.
  intros [= <-]. lia.
Qed.

Lemma parse_index_range digits v : parse_index digits = Some v -> 0 <= v <= u64_max.
Proof.
  unfold parse_index. destruct (_ || _) eqn:Hor; [done|]. apply orb_false_iff in Hor as [_ Hd].
  apply negb_false_iff in Hd. rewrite forallb_forall in Hd.
  assert (forall value, (forall v, value = Some v -> 0 <= v <= u64_max) ->
    foldl index_digit value digits = Some v -> 0 <= v <= u64_max) as Hfold.
  { induction digits as [|d digits IH]; intros value Hv; cbn; [apply Hv|].
    apply IH; [intros; apply Hd; by right|]. apply index_digit_range; [done|]. apply Hd. by left. }
  apply Hfold. intros ? [= <-]. unfold u64_max. lia.
Qed.

(** A number written by [to_string] is read back. *)
Lemma parse_digits fuel n :
  0 <= n < 10 ^ Z.of_nat (S fuel) -> n <= u64_max -> foldl index_digit (Some 0) (digits fuel n) = Some n.
Proof.
  revert n. induction fuel as [|fuel IH]; intros n Hn Hmax; cbn [digits].
  - assert (n mod 10 = n) as -> by (apply Z.mod_small; lia). cbn [foldl]. unfold index_digit. cbn [mbind option_bind].
    rewrite b2z_digit by lia. rewrite !(proj2 (Z.leb_le _ _)) by (unfold u64_max in *; lia). f_equal. lia.
  - rewrite foldl_app.
    assert (foldl index_digit (Some 0) (if n <? 10 then [] else digits fuel (n / 10)) = Some (n / 10)) as ->.
    { destruct (Z.ltb_spec n 10); [cbn; f_equal; rewrite Z.div_small by lia; done|].
      apply IH; [|Z.to_euclidean_division_equations; lia].
      rewrite Nat2Z.inj_succ, Z.pow_succ_r in Hn by lia.
      split; [Z.to_euclidean_division_equations; lia|]. apply Z.div_lt_upper_bound; lia. }
    cbn [foldl]. unfold index_digit. cbn [mbind option_bind].
    pose proof (Z.mod_pos_bound n 10 ltac:(lia)). rewrite b2z_digit by lia.
    pose proof (Z.div_mod n 10 ltac:(lia)).
    rewrite !(proj2 (Z.leb_le _ _)) by lia. f_equal. lia.
Qed.

Lemma parse_decimal n : 0 <= n <= u64_max -> parse_index (decimal n) = Some n.
Proof.
  intros Hn. unfold parse_index. rewrite bool_decide_eq_false_2 by apply decimal_nonempty.
  assert (forallb is_ascii_digit (decimal n) = true) as ->.
  { apply forallb_forall. intros b Hb. pose proof (decimal_digits n) as Hd.
    rewrite Forall_forall in Hd. apply Hd. by apply list_elem_of_In. }
  cbn [orb negb]. apply parse_digits; [|lia]. unfold u64_max in Hn. lia.
Qed.

Section Properties.
Context `{Base64}.

Lemma split_at_checked_app l a b n :
  split_at_checked l n = Some (a, b) -> l = a ++ b /\ zlen a = Z.max 0 n.
Proof.
  unfold split_at_checked. destruct (Z.leb_spec n (zlen l)); [|done]. intros [= <- <-].
  rewrite take_drop. split; [done|]. unfold zlen in *. rewrite length_take. lia.
Qed.

Lemma decode_row_consumes : consumes decode_row.
Proof.
  intros data s data' s' _ Hrow. unfold decode_row in Hrow.
  destruct (split_at_checked data ROW_HEADER) as [[header tail]|] eqn:Hh; [|done]. cbn in Hrow.
  destruct (split_at_checked tail _) as [[c tail']|] eqn:Hc; [|done]. cbn in Hrow.
  apply bind_ok_inv in Hrow as (flags & _ & Hrow). injection Hrow as <- <-.
  apply split_at_checked_app in Hh as [-> Hh]. apply split_at_checked_app in Hc as [-> _].
  unfold zlen, ROW_HEADER in *. rewrite !length_app. lia.
Qed.

(** Every row of a payload comes out of the filter. *)
Lemma decode_rows_clean encoded carried :
  decode_rows encoded = Some carried -> Forall (fun r => clean (contents r)) carried.
Proof.
  unfold decode_rows. destruct (decode encoded) as [data|]; [|done]. cbn.
  destruct (while_data decode_row data []) as [carried'|e|] eqn:Hd; [|done..]. intros [= <-].
  revert Hd. apply (while_data_inv decode_row decode_row_consumes (fun _ rows => Forall (fun r => clean (contents r)) rows));
    [|constructor].
  intros d s d' s' Hs _ Hrow. unfold decode_row in Hrow.
  destruct (split_at_checked d ROW_HEADER) as [[header tail]|] eqn:Hh; [|done]. cbn in Hrow.
  destruct (split_at_checked tail _) as [[c tail']|] eqn:Hc; [|done]. cbn in Hrow.
  apply bind_ok_inv in Hrow as (flags & _ & Hrow). injection Hrow as <- <-.
  apply Forall_app. split; [done|]. constructor; [apply sanitize_row_clean | constructor].
Qed.

Lemma finish_rows_ok s : state_ok s -> state_ok (finish_rows s).
Proof.
  intros Hs. unfold finish_rows. cbn [payload set_field].
  destruct (position _ _) as [semicolon|]; [|done].
  destruct (parse_index _) as [first|] eqn:Hp; [|done]. apply parse_index_range in Hp.
  destruct (decode_rows _) as [carried|] eqn:Hd.
  - apply decode_rows_clean in Hd. destruct Hs. by split.
  - destruct Hs. split; try done.
Qed.

Lemma sequence_end_ok s : state_ok s -> state_ok (finish s).
Proof.
  intros Hs. unfold finish.
  set (s' := if starts_with _ _ then s else _).
  assert (state_ok s') as Hs' by (subst s'; destruct (starts_with _ _); [done | destruct Hs; by split]).
  destruct (strip_prefix _ _).
  - destruct (parse_index _) as [g|] eqn:Hp; [|done]. apply parse_index_range in Hp. destruct Hs'. by split.
  - destruct (starts_with _ _); [by apply finish_rows_ok | done].
Qed.

(** A transition that only moves the parser. *)
Lemma parser_ok s p : state_ok s -> state_ok (s <| parser := p |>).
Proof. intros []. by split. Qed.

Lemma payload_clear_ok s : state_ok s -> state_ok (s <| payload := [] |>).
Proof. intros []. by split. Qed.

Lemma payload_push_ok s b :
  state_ok s -> zlen (payload s) < MAX_PAYLOAD -> state_ok (s <| payload := payload s ++ [b] |>).
Proof. intros [] Hlt. split; try done. cbn. rewrite zlen_app. unfold zlen at 2. cbn. lia. Qed.

Lemma feed_byte_ok s b :
  state_ok s -> (parser s = Osc -> payload s = []) ->
  state_ok (feed_byte s b) /\ (parser (feed_byte s b) = Osc -> payload (feed_byte s b) = []).
Proof.
  intros Hs Hosc. unfold feed_byte. destruct (parser s) eqn:Hp;
    repeat match goal with
    | |- context [(?a <? ?b)%nat] => destruct (Nat.ltb_spec a b)
    | |- context [zlen ?a <? ?b] => destruct (Z.ltb_spec (zlen a) b)
    | |- context [if ?b then _ else _] => destruct b eqn:?
    end; cbn [parser payload set_field]; (split; [|done || auto]);
    try (apply parser_ok; try done; by apply sequence_end_ok).
  - apply parser_ok, payload_clear_ok. destruct Hs. split; cbn; try assumption. lia.
  - apply parser_ok. destruct Hs. split; cbn; rewrite ?length_insert; try assumption. rewrite ok_buffer0 in *. exact H0.
  - apply parser_ok, payload_push_ok; [done|]. rewrite Hosc by done. done.
  - by apply parser_ok, payload_push_ok.
  - by apply parser_ok, payload_clear_ok.
Qed.

Lemma feed_ok s data :
  state_ok s -> (parser s = Osc -> payload s = []) ->
  state_ok (feed s data) /\ (parser (feed s data) = Osc -> payload (feed s data) = []).
Proof.
  revert s. induction data as [|b data IH]; intros s Hs Hosc; [done|].
  destruct (feed_byte_ok s b Hs Hosc) as [Hs' Hosc']. by apply IH.
Qed.

Lemma fed_ok data : state_ok (feed default_state data).
Proof. by apply feed_ok; [apply default_state_ok|]. Qed.

(** Whatever a server sends, in whatever pieces: the marker buffer and the
    payload stay within their bounds, the rows kept have all been through the
    filter, the count they end at is theirs, until a server has carried rows
    there are none, and a sequence starts with no payload. *)
Theorem client_state_bounded data :
  let s := feed default_state data in
  state_ok s /\ (parser s = Osc -> payload s = []).
Proof. by apply feed_ok; [apply default_state_ok|]. Qed.

End Properties.

(** ** Examples

    The vectors of the tests. *)
#[local] Existing Instance Rfc4648.engine.

Example reads_the_protocol_vector :
  let s := feed default_state (z2b 0x1b :: text "]777;zosh-scrollback;7;AQAAAAJoaQ" ++ [z2b 7]) in
  (rows_first s, evicted s, rows s, active s) = (7, 8, [mkRow (text "hi") true], true).
Proof. by vm_compute. Qed.
Example reads_the_generation :
  generation (feed default_state (z2b 0x1b :: text "]777;zosh-clear-scrollback;18446744073709551615" ++ [z2b 0x1b; z2b 0x5c]))
  = u64_max.
Proof. by vm_compute. Qed.
Example too_large_a_generation :
  generation (feed default_state (z2b 0x1b :: text "]777;zosh-clear-scrollback;18446744073709551616" ++ [z2b 7])) = 0.
Proof. by vm_compute. Qed.
Example a_row_past_the_payload :
  rows (feed default_state (z2b 0x1b :: text "]777;zosh-scrollback;1;AH////8A" ++ [z2b 7])) = [].
Proof. by vm_compute. Qed.

(** The payload is meant to be held only while its sequence is being read; one
    that is cancelled, or ended without a separator, stays. *)
Lemma cancelled_payload_is_kept :
  let s := feed default_state (z2b 0x1b :: text "]777;zosh-scrollback;1;AAAAAAAAAAAAAAAAAAAAAAAAAAAAAAAA" ++ [z2b 0x18]) in
  parser s = Ground /\ active s = false /\ payload s = text "AAAAAAAA".
Proof. by vm_compute. Qed.

End Scrollback.
