(* ===== verification/TerminalState.v ===== *)
(** * The server's terminal

    Models [crates/zosh/server/src/terminal_state.rs], the server's copy of the
    screen with what travels beside it: the rows that scrolled off the top, the
    clear-history generation, the title and the relayed queries.  Of
    [crates/vt100] it models the queue of evicted rows in [grid.rs] and
    [screen.rs]; the emulator itself is the class [Emulator], which says which
    rows leave the screen and how screens are drawn.

    A [usize] that adds up the lengths of buffers held in memory is exact. *)
From Stdlib Require Import ZArith Lia List Bool.
From stdpp Require Import base numbers list strings.
From S2P Require Import Prelude Text Utf8.
Import Decimal Utf8.
Open Scope Z_scope.
Open Scope zetta_scope.

(** ** The queue of evicted rows *)
Module Eviction.

Record EvictedRow := mkEvicted { contents : bytes; wrapped : bool }.

(** What a screen does with its normal grid's top: rows leave it, and a full
    reset replaces it. *)
Inductive screen_event :=
| Removed (r : EvictedRow)
| Reset.

Record Grid := mkGrid { evicted : list EvictedRow; evicted_total : Z; capture_evicted : bool }.
#[export] Instance Grid_eta : Eta Grid := fun g => mkGrid (evicted g) (evicted_total g) (capture_evicted g).

Definition EVICTED_CAP : Z := 16 * 1024.

(** The fields [Grid::new] gives. *)
Definition new_grid : Grid := mkGrid [] 0 false.

Definition remember_row (removed : EvictedRow) (g : Grid) : Grid :=
  let g := g <| evicted_total := wrap 64 (evicted_total g + 1) |> in
  if capture_evicted g then
    let rows := if EVICTED_CAP <=? zlen (evicted g) then drop 1 (evicted g) else evicted g in
    g <| evicted := rows ++ [removed] |>
  else g.

Definition set_capture_evicted (capture : bool) (g : Grid) : Grid :=
  let g := g <| capture_evicted := capture |> in
  if capture then g else g <| evicted := [] |>.

Definition take_evicted (g : Grid) : (Z * list EvictedRow) * Grid :=
  ((Z.max 0 (evicted_total g - zlen (evicted g)), evicted g), g <| evicted := [] |>).

(** [Screen::ris] replaces the screen, and the grid with it. *)
Definition apply_event (g : Grid) (e : screen_event) : Grid :=
  match e with Removed r => remember_row r g | Reset => new_grid end.
Definition apply_events (es : list screen_event) (g : Grid) : Grid := foldl apply_event g es.

End Eviction.

(** ** The emulator

    What the server uses of [vt100::Parser] and [vt100::Screen]. *)
Class Emulator := {
  visual : Type;
  blank : Z -> Z -> visual;
  emulate : bytes -> visual -> visual * list Eviction.screen_event;
  reflow : Z -> Z -> visual -> visual * list Eviction.screen_event;
  screen_size : visual -> Z * Z;
  state_diff : visual -> visual -> bytes;
  state_formatted : visual -> bytes;
}.

(** Bytes that are not there change nothing. *)
Class EmulatorLaws `{Emulator} : Prop := {
  emulate_nothing : forall v, emulate [] v = (v, []);
}.

(** ** The window title *)
Module TitleScanner.

Inductive TitleScannerState := Ground | Escape | Command | Text | Skip | Terminator.
#[export] Instance TitleScannerState_eq_dec : EqDecision TitleScannerState.
Proof. solve_decision. Defined.

Record TitleScanner := mkScanner {
  state : TitleScannerState; command : Z; pending : bytes; title : option bytes;
}.
#[export] Instance TitleScanner_eta : Eta TitleScanner := fun s =>
  mkScanner (state s) (command s) (pending s) (title s).

Definition default_scanner : TitleScanner := mkScanner Ground 0 [] None.

Definition MAX_TITLE_BYTES : Z := 4096.

Definition finish (s : TitleScanner) : TitleScanner :=
  let s :=
    if bool_decide (state s = Text) || bool_decide (state s = Terminator)
    then s <| title := Some (pending s) |> else s in
  s <| pending := [] |> <| state := Ground |>.

(** The arm of [Text] and [Skip]. *)
Definition step_text (byte : Z) (s : TitleScanner) : TitleScanner :=
  if byte =? 0x07 then finish s
  else if byte =? 0x1b then s <| state := Terminator |>
  else if (byte =? 0x18) || (byte =? 0x1a) then s <| state := Ground |>
  else if bool_decide (state s = Text) then
    if (byte <? 0x20) || (MAX_TITLE_BYTES <=? zlen (pending s)) then s <| state := Ground |>
    else s <| pending := pending s ++ encode_utf8 byte |>
  else s.

Definition step (byte : Z) (s : TitleScanner) : TitleScanner :=
  match state s with
  | Ground => if byte =? 0x1b then s <| state := Escape |> else s
  | Escape =>
      if byte =? 0x5d then s <| state := Command |> <| command := 0 |> <| pending := [] |>
      else s <| state := Ground |>
  | Command =>
      if within 0x30 0x39 byte then
        s <| command := wrap 16 (Z.min (command s * 10) u16_max + (byte - 0x30)) |>
      else if byte =? 0x3b then
        s <| state := if (command s =? 0) || (command s =? 2) then Text else Skip |>
      else s <| state := Ground |>
  | Text | Skip => step_text byte s
  | Terminator =>
      if byte =? 0x5c then finish s
      else if byte =? 0x1b then s
      else step_text byte (s <| state := Text |>)
  end.

Definition feed (data : bytes) (s : TitleScanner) : TitleScanner :=
  foldl (fun s b => step (b2z b) s) s data.

End TitleScanner.

(** ** Requests to clear the history *)
Module ClearDetector.

Inductive ScrollbackDetectorState := Ground | Escape | Csi | Osc | OscEnd | String | StringEnd.

Record ScrollbackClearDetector := mkDetector {
  state : ScrollbackDetectorState;
  parameters : bytes;
  parameter_len : nat;
  overflowed : bool;
  c1_utf8_prefix : bool;
}.
#[export] Instance ScrollbackClearDetector_eta : Eta ScrollbackClearDetector := fun d =>
  mkDetector (state d) (parameters d) (parameter_len d) (overflowed d) (c1_utf8_prefix d).

Definition default_detector : ScrollbackClearDetector := mkDetector Ground (replicate 100 (z2b 0)) 0 false false.

Definition start_csi (d : ScrollbackClearDetector) : ScrollbackClearDetector :=
  d <| state := Csi |> <| parameter_len := 0%nat |> <| overflowed := false |>.

(** [parameters.split(|b| b == b';').next()] *)
Fixpoint first_field (parameters : bytes) : bytes :=
  match parameters with
  | [] => []
  | b :: rest => if b2z b =? 0x3b then [] else b :: first_field rest
  end.

(** The loop over the digits: [None] is the early [return false]. *)
Definition parameter_digit (value : option Z) (byte : byte) : option Z :=
  value ← value;
  if negb (is_ascii_digit byte) then None
  else if value * 10 <=? u64_max then
    if value * 10 + (b2z byte - 0x30) <=? u64_max then Some (value * 10 + (b2z byte - 0x30)) else None
  else None.

Definition first_parameter_is_three (parameters : bytes) : bool :=
  let first := first_field parameters in
  if bool_decide (first = []) then false
  else match foldl parameter_digit (Some 0) first with Some value => value =? 3 | None => false end.

Definition step (b : byte) (d : ScrollbackClearDetector) : ScrollbackClearDetector * bool :=
  let byte := b2z b in
  match state d with
  | Ground =>
      (if byte =? 0x1b then d <| state := Escape |>
       else if (byte =? 0x90) || (byte =? 0x98) || (byte =? 0x9e) || (byte =? 0x9f) then d <| state := String |>
       else if byte =? 0x9b then start_csi d
       else if byte =? 0x9d then d <| state := Osc |>
       else d, false)
  | Escape =>
      (if byte =? 0x5b then start_csi d
       else if byte =? 0x5d then d <| state := Osc |>
       else if (byte =? 0x50) || (byte =? 0x58) || (byte =? 0x5e) || (byte =? 0x5f) then d <| state := String |>
       else if byte =? 0x9b then start_csi d
       else if byte =? 0x9d then d <| state := Osc |>
       else if byte =? 0x1b then d
       else d <| state := Ground |>, false)
  | Csi =>
      if byte =? 0x1b then (d <| state := Escape |>, false)
      else if (byte =? 0x18) || (byte =? 0x1a) then (d <| state := Ground |>, false)
      else if within 0x20 0x3f byte then
        (if (parameter_len d <? length (parameters d))%nat
         then d <| parameters := <[parameter_len d := b]> (parameters d) |> <| parameter_len := S (parameter_len d) |>
         else d <| overflowed := true |>, false)
      else if within 0x40 0x7e byte then
        let is_clear := negb (overflowed d) && (byte =? 0x4a)
                        && first_parameter_is_three (take (parameter_len d) (parameters d)) in
        (d <| state := Ground |> <| parameter_len := 0%nat |> <| overflowed := false |>, is_clear)
      else (d, false)
  | Osc =>
      (if byte =? 0x07 then d <| state := Ground |>
       else if (byte =? 0x18) || (byte =? 0x1a) then d <| state := Ground |>
       else if byte =? 0x1b then d <| state := OscEnd |>
       else d, false)
  | OscEnd =>
      (if byte =? 0x5c then d <| state := Ground |>
       else if negb (byte =? 0x1b) then d <| state := Osc |> else d, false)
  | String =>
      (if (byte =? 0x18) || (byte =? 0x1a) then d <| state := Ground |>
       else if byte =? 0x1b then d <| state := StringEnd |>
       else d, false)
  | StringEnd =>
      (if byte =? 0x5c then d <| state := Ground |>
       else if negb (byte =? 0x1b) then d <| state := String |> else d, false)
  end.

(** [if self.step(byte) { count = count.wrapping_add(1); }] *)
Definition count_step (b : byte) (d : ScrollbackClearDetector) (count : Z) : ScrollbackClearDetector * Z :=
  let '(d, clear) := step b d in (d, if clear then wrap 64 (count + 1) else count).

(** One round of the loop of [feed]. *)
Definition feed_byte (s : ScrollbackClearDetector * Z) (b : byte) : ScrollbackClearDetector * Z :=
  let '(d, count) := s in
  let byte := b2z b in
  let d' := d <| c1_utf8_prefix := false |> in
  if c1_utf8_prefix d && within 0x80 0x9f byte then count_step b d' count
  else if byte =? 0xc2 then (d' <| c1_utf8_prefix := true |>, count)
  else if 0x80 <=? byte then (d', count)
  else count_step b d' count.

Definition feed (data : bytes) (d : ScrollbackClearDetector) : ScrollbackClearDetector * Z :=
  foldl feed_byte (d, 0) data.

End ClearDetector.

(** ** The terminal *)
Module TerminalState.

Definition CLEAR_SCROLLBACK_MARKER_PREFIX : bytes := z2b 0x1b :: text "]777;zosh-clear-scrollback;".
Definition SCROLLBACK_MARKER_PREFIX : bytes := z2b 0x1b :: text "]777;zosh-scrollback;".
Definition SCROLLBACK_BUDGET_MIN : Z := 16 * 1024.
Definition SCROLLBACK_BUDGET_MAX : Z := 2048 * 1024.
Definition SCROLLBACK_BUDGET_PROVISIONAL : Z := SCROLLBACK_BUDGET_MAX.
Definition MAX_PENDING_QUERY_BYTES : Z := 2 * 1024 * 1024.
Definition MAX_PENDING_QUERIES : Z := 128.
Definition SCROLLBACK_ROW_HEADER : Z := 5.
Definition SCROLLBACK_FLAG_WRAPPED : Z := 1.
Definition MAX_SNAPSHOTS : Z := 64.

Record PendingRow := mkPending { index : Z; contents : bytes; wrapped : bool }.
Definition cost (row : PendingRow) : Z := zlen (contents row) + SCROLLBACK_ROW_HEADER.

Record TerminalQuery := mkQuery { id : Z; query_bytes : bytes }.

(** ** The escapes a diff carries *)

Definition title_escape (title : bytes) : bytes := z2b 0x1b :: text "]0;" ++ title ++ [z2b 0x07].

(** [u32::try_from(n).unwrap_or(u32::MAX)] *)
Definition u32_or_max (n : Z) : Z := if n <=? u32_max then n else u32_max.

(** A row's frame. *)
Definition frame_row (row : PendingRow) : bytes :=
  z2b (if wrapped row then SCROLLBACK_FLAG_WRAPPED else 0)
    :: be_bytes 4 (u32_or_max (zlen (contents row))) ++ contents row.

Section Terminal.
Context `{Emulator} `{Base64}.

Definition scrollback_marker (rows : list PendingRow) (total : Z) : bytes :=
  let first := match rows with row :: _ => index row | [] => total end in
  let payload := flat_map frame_row rows in
  SCROLLBACK_MARKER_PREFIX ++ decimal first ++ [z2b 0x3b] ++ encode payload ++ [z2b 0x07].

Definition scrollback_clear_marker (generation : Z) : bytes :=
  CLEAR_SCROLLBACK_MARKER_PREFIX ++ decimal generation ++ [z2b 0x07].

(** ** State *)

Record TerminalSnapshot := mkSnapshot {
  snapshot_screen : visual;
  snapshot_clear_count : Z;
  snapshot_evicted_total : Z;
  snapshot_title : option bytes;
  query_count : nat;
}.

Record TerminalState := mkState {
  screen : visual;
  grid : Eviction.Grid;
  base_screen : visual;
  base_num : Z;
  unchanged_screen : option visual;
  scrollback_detector : ClearDetector.ScrollbackClearDetector;
  scrollback_clear_count : Z;
  base_scrollback_clear_count : Z;
  title_scanner : TitleScanner.TitleScanner;
  base_title : option bytes;
  scrollback_budget : Z;
  scrollback_announced : bool;
  pending_scrollback : list PendingRow;
  pending_scrollback_bytes : Z;
  base_evicted_total : Z;
  snapshots : list (Z * TerminalSnapshot);
  pending_queries : list TerminalQuery;
  pending_query_bytes : Z;
  next_query_id : Z;
}.
#[export] Instance TerminalState_eta : Eta TerminalState := fun t =>
  mkState (screen t) (grid t) (base_screen t) (base_num t) (unchanged_screen t) (scrollback_detector t)
    (scrollback_clear_count t) (base_scrollback_clear_count t) (title_scanner t) (base_title t)
    (scrollback_budget t) (scrollback_announced t) (pending_scrollback t) (pending_scrollback_bytes t)
    (base_evicted_total t) (snapshots t) (pending_queries t) (pending_query_bytes t) (next_query_id t).

(** [TerminalState::new] *)
Definition new (rows cols : Z) : TerminalState :=
  let screen := blank rows cols in
  mkState screen (Eviction.set_capture_evicted true Eviction.new_grid) screen 0 None
    ClearDetector.default_detector 0 0 TitleScanner.default_scanner None SCROLLBACK_BUDGET_PROVISIONAL false
    [] 0 0 [] [] 0 1.

(** ** The rows *)

Definition evicted_total (t : TerminalState) : Z := Eviction.evicted_total (grid t).

(** [screen_mut] with the change to the queue of evicted rows made through it. *)
Definition screen_mut (f : Eviction.Grid -> Eviction.Grid) (t : TerminalState) : TerminalState :=
  t <| unchanged_screen := None |> <| grid := f (grid t) |>.

(** [VecDeque::pop_front] while the total is over the budget. *)
Fixpoint drop_rows_over (budget : Z) (rows : list PendingRow) (bytes : Z) : list PendingRow * Z :=
  match rows with
  | row :: rest => if budget <? bytes then drop_rows_over budget rest (bytes - cost row) else (rows, bytes)
  | [] => ([], bytes)
  end.

Definition drop_scrollback_over_budget (t : TerminalState) : TerminalState :=
  let '(rows, bytes) := drop_rows_over (scrollback_budget t) (pending_scrollback t) (pending_scrollback_bytes t) in
  t <| pending_scrollback := rows |> <| pending_scrollback_bytes := bytes |>.

(** The rows taken, numbered from the first. *)
Fixpoint numbered (first : Z) (rows : list Eviction.EvictedRow) : list PendingRow :=
  match rows with
  | [] => []
  | row :: rest => mkPending first (Eviction.contents row) (Eviction.wrapped row) :: numbered (wrap 64 (first + 1)) rest
  end.

Definition total_cost (rows : list PendingRow) : Z := foldr (fun row n => cost row + n) 0 rows.

Definition collect_scrollback (t : TerminalState) : TerminalState :=
  if scrollback_budget t =? 0 then t
  else
    let '((first, taken), grid') := Eviction.take_evicted (grid t) in
    let t := screen_mut (fun _ => grid') t in
    let rows := numbered first taken in
    let t := t <| pending_scrollback_bytes := pending_scrollback_bytes t + total_cost rows |>
               <| pending_scrollback := pending_scrollback t ++ rows |> in
    if scrollback_announced t then t else drop_scrollback_over_budget t.

Definition process (data : bytes) (t : TerminalState) : TerminalState :=
  let '(detector, cleared) := ClearDetector.feed data (scrollback_detector t) in
  let t := t <| scrollback_detector := detector |>
             <| scrollback_clear_count := wrap 64 (scrollback_clear_count t + cleared) |>
             <| title_scanner := TitleScanner.feed data (title_scanner t) |> in
  let t := match data with [] => t | _ => t <| unchanged_screen := None |> end in
  let '(screen', events) := emulate data (screen t) in
  let t := t <| screen := screen' |> <| grid := Eviction.apply_events events (grid t) |> in
  let t := if 0 <? cleared then t <| pending_scrollback := [] |> <| pending_scrollback_bytes := 0 |> else t in
  collect_scrollback t.

Definition set_scrollback_budget (budget : Z) (t : TerminalState) : TerminalState :=
  screen_mut (Eviction.set_capture_evicted true)
    (t <| scrollback_budget := Z.min (Z.max budget SCROLLBACK_BUDGET_MIN) SCROLLBACK_BUDGET_MAX |>
       <| scrollback_announced := true |>).

Definition forget_scrollback (t : TerminalState) : TerminalState :=
  screen_mut (Eviction.set_capture_evicted false)
    (t <| scrollback_budget := 0 |> <| scrollback_announced := false |>
       <| pending_scrollback := [] |> <| pending_scrollback_bytes := 0 |>).

Definition scrollback_over_budget (t : TerminalState) : bool :=
  scrollback_announced t && (scrollback_budget t <=? pending_scrollback_bytes t).

Definition resize (rows cols : Z) (t : TerminalState) : TerminalState :=
  let '(screen', events) := reflow rows cols (screen t) in
  collect_scrollback (screen_mut (Eviction.apply_events events) t <| screen := screen' |>).

Definition size (t : TerminalState) : Z * Z := screen_size (screen t).

(** ** Queries *)

(** [Err] is never used; a number past the last is a panic. *)
Definition add_query (query : bytes) (t : TerminalState) : result unit (Z * TerminalState) :=
  if (MAX_PENDING_QUERIES <=? zlen (pending_queries t))
     || (MAX_PENDING_QUERY_BYTES <? pending_query_bytes t + zlen query) then Ok (0, t)
  else
    let id := next_query_id t in
    next ← expect (checked_add_u64 id 1);
    Ok (id, t <| next_query_id := next |>
              <| pending_query_bytes := pending_query_bytes t + zlen query |>
              <| pending_queries := pending_queries t ++ [mkQuery id query] |>).

(** ** Snapshots

    A [BTreeMap] is its entries in the order of their keys. *)

Fixpoint insert_snapshot (num : Z) (s : TerminalSnapshot) (l : list (Z * TerminalSnapshot)) : list (Z * TerminalSnapshot) :=
  match l with
  | [] => [(num, s)]
  | (n, s') :: rest =>
      if num <? n then (num, s) :: l
      else if num =? n then (num, s) :: rest
      else (n, s') :: insert_snapshot num s rest
  end.

Definition get_snapshot (num : Z) (l : list (Z * TerminalSnapshot)) : option TerminalSnapshot :=
  snd <$> find (fun p => p.1 =? num) l.

(** [range(..=num).next_back()] *)
Definition newest_up_to (num : Z) (l : list (Z * TerminalSnapshot)) : option TerminalSnapshot :=
  snd <$> last (filter (fun p => p.1 <= num) l).

Definition has_snapshot (state : Z) (t : TerminalState) : bool := bool_decide (is_Some (get_snapshot state (snapshots t))).

Definition snapshot_for_state (state_num : Z) (t : TerminalState) : TerminalState :=
  let screen' := default (screen t) (unchanged_screen t) in
  let snapshot := mkSnapshot screen' (scrollback_clear_count t) (evicted_total t)
                    (TitleScanner.title (title_scanner t)) (length (pending_queries t)) in
  let l := insert_snapshot state_num snapshot (snapshots t) in
  t <| unchanged_screen := Some screen' |>
    <| snapshots := drop (length l - Z.to_nat MAX_SNAPSHOTS) l |>.

(** [retire_scrollback_below] *)
Fixpoint retire_rows_below (bound : Z) (rows : list PendingRow) (bytes : Z) : list PendingRow * Z :=
  match rows with
  | row :: rest => if index row <? bound then retire_rows_below bound rest (bytes - cost row) else (rows, bytes)
  | [] => ([], bytes)
  end.

Definition retire_scrollback_below (bound : Z) (t : TerminalState) : TerminalState :=
  let '(rows, bytes) := retire_rows_below bound (pending_scrollback t) (pending_scrollback_bytes t) in
  t <| pending_scrollback := rows |> <| pending_scrollback_bytes := bytes |>.

Definition query_sizes (queries : list TerminalQuery) : Z := foldr (fun q n => zlen (query_bytes q) + n) 0 queries.

(** The queries an acknowledged state carried are done with. *)
Definition retire_queries (acknowledged : nat) (t : TerminalState) : TerminalState :=
  if (0 <? acknowledged)%nat then
    let count := Nat.min acknowledged (length (pending_queries t)) in
    t <| pending_query_bytes := pending_query_bytes t - query_sizes (take count (pending_queries t)) |>
      <| pending_queries := drop count (pending_queries t) |>
      <| snapshots := (fun '(num, s) =>
           (num, mkSnapshot (snapshot_screen s) (snapshot_clear_count s) (snapshot_evicted_total s)
                   (snapshot_title s) (query_count s - acknowledged))) <$> snapshots t |>
  else t.

(** The acknowledged state is the base, and the snapshots up to it are done with. *)
Definition advance_base (ack_num : Z) (t : TerminalState) : TerminalState :=
  t <| base_num := ack_num |> <| snapshots := filter (fun p => ack_num < p.1) (snapshots t) |>.

(** What the base shows is what the snapshot does. *)
Definition rebase (s : TerminalSnapshot) (t : TerminalState) : TerminalState :=
  t <| base_screen := snapshot_screen s |>
    <| base_scrollback_clear_count := snapshot_clear_count s |>
    <| base_title := snapshot_title s |>
    <| base_evicted_total := snapshot_evicted_total s |>.

Definition acknowledge (ack_num : Z) (t : TerminalState) : TerminalState :=
  if ack_num <=? base_num t then t
  else
    let newest := newest_up_to ack_num (snapshots t) in
    let acknowledged := match newest with Some s => query_count s | None => 0%nat end in
    let t :=
      match newest with
      | Some s => retire_scrollback_below (snapshot_evicted_total s) (rebase s t)
      | None => t
      end in
    advance_base ack_num (retire_queries acknowledged t).

(** ** Frames *)

Record Base := mkBase {
  b_screen : visual; b_clear_count : Z; b_evicted_total : Z; b_title : option bytes; b_query_count : nat;
}.

Definition base (state : option Z) (t : TerminalState) : option Base :=
  match state with
  | None => Some (mkBase (base_screen t) (base_scrollback_clear_count t) (base_evicted_total t) (base_title t) 0)
  | Some state =>
      s ← get_snapshot state (snapshots t);
      Some (mkBase (snapshot_screen s) (snapshot_clear_count s) (snapshot_evicted_total s) (snapshot_title s)
              (Nat.min (query_count s) (length (pending_queries t))))
  end.

Record TerminalFrame := mkFrame { f_resize : option (Z * Z); host_bytes : bytes; queries : list TerminalQuery }.

(** [iter().skip_while(|row| row.index < bound)] *)
Fixpoint skip_rows_below (bound : Z) (rows : list PendingRow) : list PendingRow :=
  match rows with
  | row :: rest => if index row <? bound then skip_rows_below bound rest else rows
  | [] => []
  end.

Definition frame_from (from : option Z) (t : TerminalState) : result unit (option TerminalFrame) :=
  match base from t with
  | None => Ok None
  | Some b =>
      let resized := if decide (size t = screen_size (b_screen b)) then None else Some (size t) in
      let diff :=
        match resized with
        | None => state_diff (screen t) (b_screen b)
        | Some _ => state_formatted (screen t)
        end in
      let diff :=
        if scrollback_announced t && negb (evicted_total t =? b_evicted_total b) then
          scrollback_marker (skip_rows_below (b_evicted_total b) (pending_scrollback t)) (evicted_total t) ++ diff
        else diff in
      let diff :=
        if negb (scrollback_clear_count t =? b_clear_count b) then
          scrollback_clear_marker (scrollback_clear_count t) ++ diff
        else diff in
      let title := TitleScanner.title (title_scanner t) in
      let diff :=
        match title with
        | Some shown => if decide (title = b_title b) then diff else title_escape shown ++ diff
        | None => diff
        end in
      queries ← slice_from (pending_queries t) (b_query_count b);
      Ok (Some (mkFrame resized diff queries))
  end.

End Terminal.

End TerminalState.

(** ** A small emulator

    An instance to run the examples on: a screen of one line.  A line feed sends
    the line off the top, an escape followed by [c] is a full reset, and other
    bytes are written. *)
Module OneLine.

Record Line := mkLine { written : bytes; escape : bool }.

Definition put (s : Line * list Eviction.screen_event) (b : byte) : Line * list Eviction.screen_event :=
  let '(line, events) := s in
  if escape line && (b2z b =? 0x63) then (mkLine [] false, events ++ [Eviction.Reset])
  else if b2z b =? 0x1b then (mkLine (written line) true, events)
  else if b2z b =? 0x0a then
    (mkLine [] false, events ++ [Eviction.Removed (Eviction.mkEvicted (written line) false)])
  else (mkLine (written line ++ [b]) false, events).

Definition emulator : Emulator := {|
  visual := Line;
  blank := fun _ _ => mkLine [] false;
  emulate := fun data line => foldl put (line, []) data;
  reflow := fun _ _ line => (line, []);
  screen_size := fun _ => (1, 80);
  state_diff := fun line _ => written line;
  state_formatted := written;
|}.

Lemma emulator_laws : @EmulatorLaws emulator.
Proof. by split. Qed.

End OneLine.

(** ** What a full reset does

    [ris] puts a new grid in place of the old one, so the count of evicted rows
    starts again from zero and capture is off, although the count is documented
    to only ever grow. *)
Section Reset.
Import TerminalState.
#[local] Existing Instance OneLine.emulator.
#[local] Existing Instance Rfc4648.engine.

(** A line of [n] letters. *)
Definition long_line (n : nat) : bytes := replicate n (z2b 0x61) ++ [z2b 0x0a].

(** A session that has announced its budget and printed the line, and then reset. *)
Definition printed_session (n : nat) : TerminalState := process (long_line n) (set_scrollback_budget 16384 (new 1 80)).
Definition reset_session (n : nat) : TerminalState := process (z2b 0x1b :: text "c") (printed_session n).

Lemma letters_detected n : ClearDetector.feed (long_line n) ClearDetector.default_detector = (ClearDetector.default_detector, 0).
Proof. induction n as [|n IH]; [done | exact IH]. Qed.

Lemma letters_titled n : TitleScanner.feed (long_line n) TitleScanner.default_scanner = TitleScanner.default_scanner.
Proof. induction n as [|n IH]; [done | exact IH]. Qed.

Lemma letters_written n l :
  foldl OneLine.put (OneLine.mkLine l false, []) (long_line n) =
    (OneLine.mkLine [] false, [Eviction.Removed (Eviction.mkEvicted (l ++ replicate n (z2b 0x61)) false)]).
Proof.
  revert l. induction n as [|n IH]; intros l; [by rewrite app_nil_r|].
  change (foldl OneLine.put (OneLine.mkLine (l ++ [z2b 0x61]) false, []) (long_line n) =
    (OneLine.mkLine [] false, [Eviction.Removed (Eviction.mkEvicted (l ++ z2b 0x61 :: replicate n (z2b 0x61)) false)])).
  by rewrite IH, <- app_assoc.
Qed.

Lemma printed_session_rows n :
  printed_session n =
    let screen := OneLine.mkLine [] false in
    mkState screen (Eviction.mkGrid [] 1 true) screen 0 None
      ClearDetector.default_detector 0 0 TitleScanner.default_scanner None 16384 true
      [mkPending 0 (replicate n (z2b 0x61)) false] (zlen (replicate n (z2b 0x61)) + SCROLLBACK_ROW_HEADER)
      0 [] [] 0 1.
Proof.
  unfold printed_session, process.
  change (scrollback_detector (set_scrollback_budget 16384 (new 1 80))) with ClearDetector.default_detector.
  change (title_scanner (set_scrollback_budget 16384 (new 1 80))) with TitleScanner.default_scanner.
  rewrite letters_detected, letters_titled. cbv zeta iota beta.
  assert (exists b rest, long_line n = b :: rest) as (b & rest & Hline) by (destruct n; by do 2 eexists).
  pose proof (letters_written n []) as Hwritten. rewrite Hline in *.
  change (emulate (b :: rest) ?v) with (foldl OneLine.put (v, []) (b :: rest)).
  match goal with |- context [foldl OneLine.put ?start (b :: rest)] =>
    change (foldl OneLine.put start (b :: rest)) with
      (foldl OneLine.put (OneLine.mkLine [] false, @nil Eviction.screen_event) (b :: rest)) end.
  rewrite Hwritten.
  cbn [app]. generalize (replicate n (z2b 0x61)). intros row.
  replace (zlen row + SCROLLBACK_ROW_HEADER) with (0 + (zlen row + SCROLLBACK_ROW_HEADER + 0)) by lia.
  reflexivity.
Qed.

(** Once the line fills the budget the server holds the program back; the row
    waiting is numbered past the new count, so acknowledging whatever the server
    sends from then on frees nothing. *)
Lemma reset_stalls_the_program n :
  16384 <= Z.of_nat n ->
  scrollback_over_budget (reset_session n) = true /\ evicted_total (reset_session n) = 0 /\
  Eviction.capture_evicted (grid (reset_session n)) = false /\
  scrollback_over_budget (acknowledge 2 (snapshot_for_state 2 (acknowledge 1 (snapshot_for_state 1 (reset_session n))))) = true.
Proof.
  intros Hn. unfold reset_session. rewrite printed_session_rows.
  assert (16384 <= zlen (replicate n (z2b 0x61)) + SCROLLBACK_ROW_HEADER) as Hle.
  { unfold zlen, SCROLLBACK_ROW_HEADER. rewrite length_replicate. lia. }
  revert Hle. generalize (replicate n (z2b 0x61)) as row. clear n Hn. intros row Hle. 
  assert ((16384 <=? zlen row + SCROLLBACK_ROW_HEADER + 0) = true) as Hover by (apply Z.leb_le; lia).
  split_and!; [exact Hover | reflexivity | reflexivity | exact Hover].
Qed.

End Reset.
