(* ===== verification/TerminalBooks.v ===== *)
(** * What the server's terminal keeps

    Proves of [TerminalState] that its books balance through every sequence of
    calls, that the rows a frame carries are the rows that scrolled off, under
    the numbers they scrolled off with, and that each relayed query travels in
    the frames of exactly those bases that have not seen it.

    A session is the sequence of calls the server's loop makes; [step] is one of
    them, with the rows it removed from the screen and the query it accepted. *)
From Stdlib Require Import ZArith Lia List Bool Sorted.
From stdpp Require Import base numbers list strings.
From S2P Require Import Prelude Text Utf8 TerminalState.
Import TerminalState.
Open Scope Z_scope.
Open Scope zetta_scope.

(** ** Sorted lists *)

Lemma StronglySorted_impl {A} (R S : A -> A -> Prop) (l : list A) :
  (forall x y, R x y -> S x y) -> StronglySorted R l -> StronglySorted S l.
Proof.
  intros HRS. induction 1 as [|x l Hl IH Hx]; constructor; [done|].
  eapply Forall_impl; [exact Hx|]. cbn. auto.
Qed.
Lemma StronglySorted_fmap {A B} (f : A -> B) (R : A -> A -> Prop) (S : B -> B -> Prop) (l : list A) :
  (forall x y, R x y -> S (f x) (f y)) -> StronglySorted R l -> StronglySorted S (f <$> l).
Proof.
  intros HRS. induction 1 as [|x l Hl IH Hx]; cbn; constructor; [done|].
  apply Forall_fmap. eapply Forall_impl; [exact Hx|]. cbn. auto.
Qed.
Lemma StronglySorted_filter {A} (P : A -> Prop) `{!forall x, Decision (P x)} (R : A -> A -> Prop) (l : list A) :
  StronglySorted R l -> StronglySorted R (filter P l).
Proof.
  induction 1 as [|x l Hl IH Hx]; [constructor|]. rewrite filter_cons. case_decide; [|done].
  constructor; [done|]. apply Forall_forall. intros y [_ Hy]%list_elem_of_filter.
  rewrite Forall_forall in Hx. by apply Hx.
Qed.
Lemma StronglySorted_lookup {A} (R : A -> A -> Prop) (l : list A) i j x y :
  StronglySorted R l -> l !! i = Some x -> l !! j = Some y -> (i < j)%nat -> R x y.
Proof.
  intros Hl. revert i j. induction Hl as [|z l Hl IH Hz]; intros i j Hi Hj Hij; [done|].
  destruct j as [|j]; [lia|]. destruct i as [|i]; cbn in Hi, Hj; [|apply (IH i j); [done | done | lia]].
  injection Hi as ->. rewrite Forall_forall in Hz. apply Hz. by apply list_elem_of_lookup_2 in Hj.
Qed.
Lemma StronglySorted_drop {A} (R : A -> A -> Prop) (n : nat) (l : list A) :
  StronglySorted R l -> StronglySorted R (drop n l).
Proof. intros Hl. revert n. induction Hl; intros [|n]; cbn; [constructor..| by constructor | done]. Qed.
Lemma StronglySorted_snoc {A} (R : A -> A -> Prop) (l : list A) x :
  StronglySorted R l -> Forall (fun y => R y x) l -> StronglySorted R (l ++ [x]).
Proof.
  induction 1 as [|y l Hl IH Hy]; intros Hx; cbn; [by repeat constructor|].
  apply Forall_cons in Hx as [Hyx Hx]. constructor; [by apply IH|].
  apply Forall_app. split; [done | by repeat constructor].
Qed.

Module TerminalBooks.

(** ** Calls *)

Inductive call :=
| Process (data : bytes)
| Resize (rows cols : Z)
| SetBudget (budget : Z)
| Forget
| DropOverBudget
| AddQuery (query : bytes)
| Snapshot (state_num : Z)
| Acknowledge (ack_num : Z).

Section Books.
Context {Hem : Emulator} {Hlaws : EmulatorLaws} {Hb64 : Base64}.

Definition run_call (c : call) (t : TerminalState) : result unit TerminalState :=
  match c with
  | Process data => Ok (process data t)
  | Resize rows cols => Ok (resize rows cols t)
  | SetBudget budget => Ok (set_scrollback_budget budget t)
  | Forget => Ok (forget_scrollback t)
  | DropOverBudget => Ok (drop_scrollback_over_budget t)
  | AddQuery query => snd <$> add_query query t
  | Snapshot state_num => Ok (snapshot_for_state state_num t)
  | Acknowledge ack_num => Ok (acknowledge ack_num t)
  end.

(** The transport numbers its states upwards, past what is acknowledged. *)
Definition numbered_upwards (c : call) (t : TerminalState) : Prop :=
  match c with
  | Snapshot n => base_num t < n /\ Forall (fun p => p.1 < n) (snapshots t)
  | _ => True
  end.

(** What happened to the top of the screen during a call. *)
Definition events_of (c : call) (t : TerminalState) : list Eviction.screen_event :=
  match c with
  | Process data => (emulate data (screen t)).2
  | Resize rows cols => (reflow rows cols (screen t)).2
  | _ => []
  end.

Definition row_of (e : Eviction.screen_event) : option Eviction.EvictedRow :=
  match e with Eviction.Removed r => Some r | Eviction.Reset => None end.

(** The query a call takes on, under its number. *)
Definition asked_of (c : call) (t : TerminalState) : list TerminalQuery :=
  match c with
  | AddQuery query =>
      match add_query query t with
      | Ok (id, _) => if id =? 0 then [] else [mkQuery id query]
      | _ => []
      end
  | _ => []
  end.

(** Any number of allowed calls from a terminal, with what they did to the top
    of the screen and what they asked. *)
Inductive session (allowed : call -> TerminalState -> Prop) (start : TerminalState) :
  list Eviction.screen_event -> list TerminalQuery -> TerminalState -> Prop :=
| session_start : session allowed start [] [] start
| session_call events asked t c t' :
    session allowed start events asked t -> allowed c t -> run_call c t = Ok t' ->
    session allowed start (events ++ events_of c t) (asked ++ asked_of c t) t'.

(** A list of calls, run. *)
Fixpoint along (allowed : call -> TerminalState -> Prop) (cs : list call) (t : TerminalState) : Prop :=
  match cs with
  | [] => True
  | c :: cs => allowed c t /\ match run_call c t with Ok t' => along allowed cs t' | _ => False end
  end.
Fixpoint run_calls (cs : list call) (t : TerminalState) (events : list Eviction.screen_event)
    (asked : list TerminalQuery) : option (list Eviction.screen_event * list TerminalQuery * TerminalState) :=
  match cs with
  | [] => Some (events, asked, t)
  | c :: cs =>
      match run_call c t with
      | Ok t' => run_calls cs t' (events ++ events_of c t) (asked ++ asked_of c t)
      | _ => None
      end
  end.

Lemma run_calls_session allowed start cs events asked t r :
  session allowed start events asked t -> along allowed cs t -> run_calls cs t events asked = Some r ->
  session allowed start r.1.1 r.1.2 r.2.
Proof.
  revert events asked t. induction cs as [|c cs IH]; intros events asked t Hs Ha Hr; cbn in *.
  { by injection Hr as <-. }
  destruct Ha as [Hc Ha]. destruct (run_call c t) as [t'|e|] eqn:Ht; [|done..].
  apply (IH _ _ _ (session_call allowed start events asked t c t' Hs Hc Ht) Ha Hr).
Qed.

(** ** The books *)

(** The queries waiting, numbered one after the other up to the next number. *)
Definition consecutive (next : Z) (queries : list TerminalQuery) : Prop :=
  forall i q, queries !! i = Some q -> id q = next - zlen queries + Z.of_nat i.

Definition sorted_by_number (l : list (Z * TerminalSnapshot)) : Prop :=
  StronglySorted (fun p q => p.1 < q.1) l.

(** A snapshot never counts fewer queries than an earlier one. *)
Definition counts_grow (l : list (Z * TerminalSnapshot)) : Prop :=
  StronglySorted (fun p q => (query_count p.2 <= query_count q.2)%nat) l.

(** The rows waiting to be acknowledged. *)
Record row_books (t : TerminalState) : Prop := {
  b_bytes : pending_scrollback_bytes t = total_cost (pending_scrollback t);
  b_collected : Eviction.evicted (grid t) = [];
  b_capture : scrollback_budget t = 0 -> Eviction.capture_evicted (grid t) = false /\ pending_scrollback t = [];
  b_budget : scrollback_budget t = 0 \/ SCROLLBACK_BUDGET_MIN <= scrollback_budget t <= SCROLLBACK_BUDGET_MAX;
  b_announced : scrollback_announced t = true -> scrollback_budget t <> 0;
  b_provisional : scrollback_announced t = false -> pending_scrollback_bytes t <= scrollback_budget t;
}.

(** The queries, and the snapshots that count them. *)
Record query_books (t : TerminalState) : Prop := {
  b_query_bytes : pending_query_bytes t = query_sizes (pending_queries t);
  b_query_bounds : pending_query_bytes t <= MAX_PENDING_QUERY_BYTES /\ zlen (pending_queries t) <= MAX_PENDING_QUERIES;
  b_query_ids : 0 < next_query_id t - zlen (pending_queries t) /\ next_query_id t <= u64_max /\
                consecutive (next_query_id t) (pending_queries t);
  b_sorted : sorted_by_number (snapshots t);
  b_grow : counts_grow (snapshots t);
  b_few : zlen (snapshots t) <= MAX_SNAPSHOTS;
  b_counts : Forall (fun p => base_num t < p.1 /\ (query_count p.2 <= length (pending_queries t))%nat) (snapshots t);
}.

(** The screen kept for the next snapshot is the screen. *)
Definition screen_books (t : TerminalState) : Prop := forall s, unchanged_screen t = Some s -> s = screen t.

Definition books (t : TerminalState) : Prop := row_books t /\ query_books t /\ screen_books t.

(** What each group is about. *)
Definition row_part (t : TerminalState) :=
  (pending_scrollback t, pending_scrollback_bytes t, grid t, scrollback_budget t, scrollback_announced t).
Definition query_part (t : TerminalState) :=
  (pending_query_bytes t, pending_queries t, next_query_id t, snapshots t, base_num t).

Lemma row_books_ext t t' : row_part t = row_part t' -> row_books t -> row_books t'.
Proof. unfold row_part. intros [= Ha Hb Hc Hd He] []. split; rewrite <- ?Ha, <- ?Hb, <- ?Hc, <- ?Hd, <- ?He; done. Qed.
Lemma query_books_ext t t' : query_part t = query_part t' -> query_books t -> query_books t'.
Proof. unfold query_part. intros [= Ha Hb Hc Hd He] []. split; rewrite <- ?Ha, <- ?Hb, <- ?Hc, <- ?Hd, <- ?He; done. Qed.

(** *** Rows *)

Lemma total_cost_app l l' : total_cost (l ++ l') = total_cost l + total_cost l'.
Proof. unfold total_cost. induction l as [|r l IH]; cbn [foldr app]; lia. Qed.
Lemma cost_pos r : 0 < cost r.
Proof. unfold cost, SCROLLBACK_ROW_HEADER. pose proof (zlen_nonneg (contents r)). lia. Qed.
Lemma total_cost_nonneg l : 0 <= total_cost l.
Proof. induction l as [|r l IH]; cbn; [done|]. pose proof (cost_pos r). unfold total_cost in IH. lia. Qed.

Lemma total_cost_cons r l : total_cost (r :: l) = cost r + total_cost l.
Proof. done. Qed.

Lemma drop_rows_over_spec budget rows bytes rows' bytes' :
  0 <= budget -> bytes = total_cost rows -> drop_rows_over budget rows bytes = (rows', bytes') ->
  bytes' = total_cost rows' /\ bytes' <= budget /\ exists k, rows' = drop k rows.
Proof.
  intros Hb. revert bytes. induction rows as [|r rows IH]; intros bytes -> Hd; cbn [drop_rows_over] in Hd.
  { injection Hd as <- <-. split_and!; [done | done | by exists 0%nat]. }
  rewrite total_cost_cons in Hd. destruct (Z.ltb_spec budget (cost r + total_cost rows)) as [Hlt|Hge].
  - edestruct IH as (Ha & Hb' & k & ->); [|exact Hd|]; [lia|].
    split_and!; [done | done | by exists (S k)].
  - injection Hd as <- <-. rewrite total_cost_cons. split_and!; [done | done | by exists 0%nat].
Qed.

Lemma retire_rows_below_spec bound rows bytes rows' bytes' :
  bytes = total_cost rows -> retire_rows_below bound rows bytes = (rows', bytes') ->
  bytes' = total_cost rows' /\ bytes' <= bytes /\ rows' = skip_rows_below bound rows.
Proof.
  revert bytes. induction rows as [|r rows IH]; intros bytes -> Hd; cbn [retire_rows_below skip_rows_below] in *.
  { injection Hd as <- <-. done. }
  rewrite total_cost_cons in *. destruct (index r <? bound).
  - edestruct IH as (Ha & Hb' & ->); [|exact Hd|]; [lia|]. pose proof (cost_pos r). split_and!; [done | lia | done].
  - injection Hd as <- <-. rewrite total_cost_cons. split_and!; [done | lia | done].
Qed.

(** Nothing stays on the queue while it is not captured. *)
Lemma apply_events_uncaptured es g :
  Eviction.capture_evicted g = false -> Eviction.evicted g = [] ->
  Eviction.capture_evicted (Eviction.apply_events es g) = false /\ Eviction.evicted (Eviction.apply_events es g) = [].
Proof.
  revert g. induction es as [|e es IH]; intros g Hc He; [done|]. apply IH.
  - destruct e; [|done]. cbn. unfold Eviction.remember_row. cbn. by rewrite Hc.
  - destruct e; [|done]. cbn. unfold Eviction.remember_row. cbn. by rewrite Hc.
Qed.

(** *** Collecting rows *)

Lemma drop_over_part t :
  query_part (drop_scrollback_over_budget t) = query_part t /\
  unchanged_screen (drop_scrollback_over_budget t) = unchanged_screen t /\
  screen (drop_scrollback_over_budget t) = screen t.
Proof. unfold drop_scrollback_over_budget. by destruct (drop_rows_over _ _ _). Qed.

Lemma budget_nonneg b : b = 0 \/ SCROLLBACK_BUDGET_MIN <= b <= SCROLLBACK_BUDGET_MAX -> 0 <= b.
Proof. unfold SCROLLBACK_BUDGET_MIN. lia. Qed.

(** Dropping back to the budget. *)
Lemma drop_over_rows t :
  pending_scrollback_bytes t = total_cost (pending_scrollback t) -> Eviction.evicted (grid t) = [] ->
  (scrollback_budget t = 0 -> Eviction.capture_evicted (grid t) = false /\ pending_scrollback t = []) ->
  (scrollback_budget t = 0 \/ SCROLLBACK_BUDGET_MIN <= scrollback_budget t <= SCROLLBACK_BUDGET_MAX) ->
  (scrollback_announced t = true -> scrollback_budget t <> 0) ->
  row_books (drop_scrollback_over_budget t).
Proof.
  intros Hb He Hc Hr Ha. unfold drop_scrollback_over_budget.
  destruct (drop_rows_over _ _ _) as [rows bytes] eqn:Hd.
  apply drop_rows_over_spec in Hd as (Hx & Hy & k & ->); [|by apply budget_nonneg|done].
  split; cbn; try done. intros Hz. destruct (Hc Hz) as [? ->]. by rewrite drop_nil.
Qed.

Lemma collect_rows t :
  pending_scrollback_bytes t = total_cost (pending_scrollback t) ->
  (scrollback_budget t = 0 ->
   Eviction.capture_evicted (grid t) = false /\ pending_scrollback t = [] /\ Eviction.evicted (grid t) = []) ->
  (scrollback_budget t = 0 \/ SCROLLBACK_BUDGET_MIN <= scrollback_budget t <= SCROLLBACK_BUDGET_MAX) ->
  (scrollback_announced t = true -> scrollback_budget t <> 0) ->
  row_books (collect_scrollback t).
Proof.
  intros Hb Hc Hr Ha. unfold collect_scrollback. destruct (Z.eqb_spec (scrollback_budget t) 0) as [Hz|Hz].
  { destruct (Hc Hz) as (Hx & Hy & Hw). split; try done. intros _. by rewrite Hb, Hy, Hz. }
  cbn [Eviction.take_evicted]. set (t1 := _ <| pending_scrollback := _ |>).
  assert (pending_scrollback_bytes t1 = total_cost (pending_scrollback t1)) as Hb1.
  { subst t1. cbn. rewrite total_cost_app. by rewrite Hb. }
  change (scrollback_announced t) with (scrollback_announced t1).
  destruct (scrollback_announced t1) eqn:Hann.
  - split; subst t1; cbn in *; try done; congruence.
  - apply drop_over_rows; subst t1; cbn in *; done.
Qed.

Lemma collect_part t :
  query_part (collect_scrollback t) = query_part t /\ screen (collect_scrollback t) = screen t /\
  (screen_books t -> screen_books (collect_scrollback t)).
Proof.
  unfold collect_scrollback. destruct (scrollback_budget t =? 0); [done|]. cbn [Eviction.take_evicted].
  set (t1 := _ <| pending_scrollback := _ |>). destruct (scrollback_announced _); [done|].
  destruct (drop_over_part t1) as (Ha & Hb & Hc). rewrite Ha, Hc. split_and!; [done | done |].
  intros _ s. by rewrite Hb.
Qed.

(** *** Every call keeps the books *)

Lemma process_books data t : books t -> books (process data t).
Proof.
  intros (Hr & Hq & Hs). unfold process. destruct (ClearDetector.feed _ _) as [detector cleared].
  set (t1 := t <| scrollback_detector := _ |> <| scrollback_clear_count := _ |> <| title_scanner := _ |>).
  set (t2 := match data with [] => t1 | _ => _ end).
  assert (row_part t2 = row_part t /\ query_part t2 = query_part t /\ screen t2 = screen t) as (Hr2 & Hq2 & Hs2)
    by (subst t2 t1; by destruct data).
  destruct (emulate data (screen t2)) as [screen' events] eqn:He.
  set (t3 := t2 <| screen := _ |> <| grid := _ |>).
  assert (row_books t2) as Hrb by (by apply (row_books_ext t)).
  assert (screen_books t3) as Hs3.
  { intros s. subst t3 t2 t1. destruct data; cbn; [|done]. intros Hu.
    cbn in He. rewrite emulate_nothing in He. injection He as <- <-. by apply Hs. }
  set (t4 := if 0 <? cleared then _ else t3).
  assert (query_part t4 = query_part t /\ screen_books t4) as [Hq4 Hs4].
  { subst t4. destruct (0 <? cleared); split; done. }
  destruct (collect_part t4) as (Hqc & _ & Hsc).
  split_and!; [|by eapply query_books_ext; [symmetry; by rewrite Hqc|] | by apply Hsc].
  destruct Hrb. assert (scrollback_budget t2 = 0 ->
     Eviction.capture_evicted (Eviction.apply_events events (grid t2)) = false /\
     Eviction.evicted (Eviction.apply_events events (grid t2)) = []) as Hev.
  { intros Hz. apply apply_events_uncaptured; [by apply b_capture0 | done]. }
  apply collect_rows; subst t4 t3; destruct (0 <? cleared); cbn; try done; intros Hz;
    destruct (Hev Hz); split_and!; try done; by apply b_capture0.
Qed.

Lemma resize_books rows cols t : books t -> books (resize rows cols t).
Proof.
  intros (Hr & Hq & Hs). unfold resize. destruct (reflow rows cols (screen t)) as [screen' events].
  set (t1 := screen_mut _ t <| screen := _ |>). destruct (collect_part t1) as (Hqc & _ & Hsc).
  split_and!; [|by apply (query_books_ext t); [by rewrite Hqc|] | by apply Hsc].
  destruct Hr. apply collect_rows; subst t1; cbn; try done. intros Hz.
  destruct (b_capture0 Hz). destruct (apply_events_uncaptured events (grid t)); done.
Qed.

Lemma set_scrollback_budget_books budget t : books t -> books (set_scrollback_budget budget t).
Proof.
  intros (Hr & Hq & Hs). split_and!; [| by apply (query_books_ext t) | done].
  destruct Hr. unfold SCROLLBACK_BUDGET_MIN, SCROLLBACK_BUDGET_MAX in *.
  split; cbn; unfold SCROLLBACK_BUDGET_MIN, SCROLLBACK_BUDGET_MAX; try done; [intros Hz; exfalso; lia | lia..].
Qed.

Lemma forget_scrollback_books t : books t -> books (forget_scrollback t).
Proof.
  intros (Hr & Hq & Hs). split_and!; [| by apply (query_books_ext t) | done].
  split; cbn; try done. by left.
Qed.

Lemma drop_scrollback_over_budget_books t : books t -> books (drop_scrollback_over_budget t).
Proof.
  intros (Hr & Hq & Hs). destruct (drop_over_part t) as (Hd & Hu & Hsc).
  split_and!; [| by apply (query_books_ext t) | intros s; rewrite Hu, Hsc; apply Hs].
  destruct Hr. by apply drop_over_rows.
Qed.

Lemma zlen_singleton {A} (x : A) : zlen [x] = 1.
Proof. done. Qed.
Lemma query_sizes_app l l' : query_sizes (l ++ l') = query_sizes l + query_sizes l'.
Proof. unfold query_sizes. induction l as [|q l IH]; cbn [foldr app]; lia. Qed.

Lemma add_query_books query t id t' : add_query query t = Ok (id, t') -> books t -> books t'.
Proof.
  intros Ha (Hr & Hq & Hs). unfold add_query in Ha.
  destruct (_ || _) eqn:Hfull; [injection Ha as <- <-; done|].
  apply orb_false_iff in Hfull as [Hn%Z.leb_gt Hbytes%Z.ltb_ge].
  destruct (checked_add_u64 _ 1) as [next|] eqn:Hnext; [|done]. cbn in Ha. injection Ha as <- <-.
  unfold checked_add_u64 in Hnext. destruct (Z.leb_spec (next_query_id t + 1) u64_max) as [Hle|]; [|done].
  injection Hnext as <-. split_and!; [by apply (row_books_ext t) | | done].
  destruct Hq as [Hb1 [Hb2 Hb3] (Hi1 & Hi2 & Hi3) Hso Hgr Hfe Hco].
  split; cbn; try done.
  - rewrite query_sizes_app. cbn. lia.
  - rewrite zlen_app, zlen_singleton. unfold MAX_PENDING_QUERY_BYTES, MAX_PENDING_QUERIES in *. lia.
  - rewrite zlen_app, zlen_singleton. split_and!; [lia | lia |].
    intros i q Hl. rewrite zlen_app, zlen_singleton.
    apply lookup_app_Some in Hl as [Hl|[Hge Hl]]; [rewrite (Hi3 i q Hl); lia|].
    apply list_lookup_singleton_Some in Hl as [Hi <-]. cbn. unfold zlen. lia.
  - eapply Forall_impl; [exact Hco|]. cbn. intros p [? ?]. rewrite length_app. cbn. lia.
Qed.

(** A new number goes to the end. *)
Lemma insert_snapshot_last n s l : Forall (fun p => p.1 < n) l -> insert_snapshot n s l = l ++ [(n, s)].
Proof.
  induction 1 as [|[m s'] l Hm _ IH]; [done|]. cbn in *.
  rewrite (proj2 (Z.ltb_ge _ _)), (proj2 (Z.eqb_neq _ _)) by lia. by rewrite IH.
Qed.

Lemma snapshot_for_state_books n t :
  books t -> base_num t < n /\ Forall (fun p => p.1 < n) (snapshots t) -> books (snapshot_for_state n t).
Proof.
  intros (Hr & Hq & Hs) [Hn Hl]. split_and!; [by apply (row_books_ext t) | |].
  2: { intros s [= <-]. destruct (unchanged_screen t) eqn:Hu; [by apply Hs | done]. }
  destruct Hq as [Hb1 Hb2 Hi Hso Hgr Hfe Hco]. unfold snapshot_for_state.
  rewrite insert_snapshot_last by done. set (s := mkSnapshot _ _ _ _ _). set (l := snapshots t ++ [(n, s)]).
  split; cbn; try done.
  - apply StronglySorted_drop, StronglySorted_snoc; [done|]. exact Hl.
  - apply StronglySorted_drop, StronglySorted_snoc; [done|].
    eapply Forall_impl; [exact Hco|]. cbn. by intros p [_ ?].
  - unfold zlen. rewrite length_drop. unfold MAX_SNAPSHOTS. lia.
  - apply Forall_drop, Forall_app. split; [exact Hco|]. constructor; [split; [exact Hn | done] | constructor].
Qed.

(** *** Acknowledging *)

(** The newest snapshot up to a number, and those past it. *)
Lemma newest_up_to_spec n l s :
  newest_up_to n l = Some s -> exists k, (k, s) ∈ l /\ k <= n.
Proof.
  unfold newest_up_to. intros Hf. apply fmap_Some in Hf as ([k s'] & Hl & ->). exists k.
  apply last_Some_elem_of in Hl. apply list_elem_of_filter in Hl as [? ?]. done.
Qed.

Lemma counts_past n l s p :
  sorted_by_number l -> counts_grow l -> newest_up_to n l = Some s -> p ∈ l -> n < p.1 ->
  (query_count s <= query_count p.2)%nat.
Proof.
  intros Hso Hgr Hs Hp Hn. apply newest_up_to_spec in Hs as (k & Hk & Hkn).
  apply list_elem_of_lookup in Hk as [i Hi]. apply list_elem_of_lookup in Hp as [j Hj].
  assert (i < j \/ i = j \/ j < i)%nat as [Hij | [-> | Hji]] by lia.
  - by pose proof (StronglySorted_lookup _ l i j _ _ Hgr Hi Hj Hij).
  - rewrite Hi in Hj. injection Hj as <-. cbn in Hn. lia.
  - pose proof (StronglySorted_lookup _ l j i _ _ Hso Hj Hi Hji). cbn in *. lia.
Qed.

Lemma query_sizes_take n l : query_sizes l - query_sizes (take n l) = query_sizes (drop n l).
Proof. rewrite <- (take_drop n l) at 1. rewrite query_sizes_app. lia. Qed.
Lemma query_sizes_nonneg l : 0 <= query_sizes l.
Proof. induction l as [|q l IH]; cbn; [done|]. pose proof (zlen_nonneg (query_bytes q)). unfold query_sizes in IH. lia. Qed.

(** Taking queries off the front, with the snapshots' counts. *)
Lemma retire_queries_books acked ack_num t :
  query_books t -> (acked <= length (pending_queries t))%nat -> base_num t <= ack_num ->
  (forall p, p ∈ snapshots t -> ack_num < p.1 -> (acked <= query_count p.2)%nat) ->
  query_books (advance_base ack_num (retire_queries acked t)).
Proof.
  intros [Hb1 [Hb2 Hb3] (Hi1 & Hi2 & Hi3) Hso Hgr Hfe Hco] Hlen Hbase Hpast.
  unfold retire_queries. destruct (Nat.ltb_spec 0 acked) as [Hpos|Hzero].
  - rewrite Nat.min_l by done. set (f := fun '(num, s) => _).
    assert (forall p, f p = (p.1, mkSnapshot (snapshot_screen p.2) (snapshot_clear_count p.2)
              (snapshot_evicted_total p.2) (snapshot_title p.2) (query_count p.2 - acked))) as Hf by (by intros []).
    assert (zlen (drop acked (pending_queries t)) = zlen (pending_queries t) - Z.of_nat acked) as Hz
      by (unfold zlen; rewrite length_drop; lia).
    split; cbn.
    + by rewrite Hb1, query_sizes_take.
    + rewrite Hz. split; [|lia]. rewrite Hb1, query_sizes_take.
      pose proof (query_sizes_nonneg (take acked (pending_queries t))).
      pose proof (query_sizes_take acked (pending_queries t)). lia.
    + rewrite Hz. split_and!; [lia | done |]. intros i q Hl. rewrite lookup_drop in Hl. rewrite Hz, (Hi3 _ _ Hl). lia.
    + apply StronglySorted_filter. eapply StronglySorted_fmap; [|exact Hso]. intros p q. by rewrite !Hf.
    + apply StronglySorted_filter. eapply StronglySorted_fmap; [|exact Hgr]. intros p q. rewrite !Hf. cbn. lia.
    + unfold zlen. pose proof (length_filter (fun p => ack_num < p.1) (f <$> snapshots t)) as Hle.
      rewrite length_fmap in Hle. unfold zlen in Hfe. lia.
    + apply Forall_forall. intros p [Hp (q & -> & Hq)%list_elem_of_fmap]%list_elem_of_filter.
      rewrite Forall_forall in Hco. destruct (Hco q Hq). rewrite Hf in *. cbn in *. rewrite length_drop. lia.
  - split; cbn; try done.
    + by apply StronglySorted_filter.
    + by apply StronglySorted_filter.
    + unfold zlen. pose proof (length_filter (fun p => ack_num < p.1) (snapshots t)). unfold zlen in Hfe. lia.
    + apply Forall_forall. intros p [Hp Hq]%list_elem_of_filter.
      rewrite Forall_forall in Hco. destruct (Hco p Hq). done.
Qed.

(** What [acknowledge] does to the rows, and to the rest. *)
Lemma retire_queries_part acked t :
  row_part (retire_queries acked t) = row_part t /\ unchanged_screen (retire_queries acked t) = unchanged_screen t /\
  screen (retire_queries acked t) = screen t.
Proof. unfold retire_queries. by destruct (0 <? acked)%nat. Qed.
Lemma retire_below_part bound t :
  query_part (retire_scrollback_below bound t) = query_part t /\
  unchanged_screen (retire_scrollback_below bound t) = unchanged_screen t /\
  screen (retire_scrollback_below bound t) = screen t.
Proof. unfold retire_scrollback_below. by destruct (retire_rows_below _ _ _). Qed.

(** [acknowledge] first leaves the rows the new base has behind. *)
Definition behind_base (ack_num : Z) (t : TerminalState) : TerminalState :=
  match newest_up_to ack_num (snapshots t) with
  | Some s => retire_scrollback_below (snapshot_evicted_total s) (rebase s t)
  | None => t
  end.
Definition acked_queries (ack_num : Z) (t : TerminalState) : nat :=
  match newest_up_to ack_num (snapshots t) with Some s => query_count s | None => 0%nat end.

Lemma acknowledge_eq ack_num t :
  base_num t < ack_num ->
  acknowledge ack_num t = advance_base ack_num (retire_queries (acked_queries ack_num t) (behind_base ack_num t)).
Proof. intros Hn. unfold acknowledge. by rewrite (proj2 (Z.leb_gt _ _)) by lia. Qed.

Lemma behind_base_part ack_num t :
  query_part (behind_base ack_num t) = query_part t /\
  unchanged_screen (behind_base ack_num t) = unchanged_screen t /\ screen (behind_base ack_num t) = screen t.
Proof.
  unfold behind_base. destruct (newest_up_to _ _) as [s|]; [|done].
  destruct (retire_below_part (snapshot_evicted_total s) (rebase s t)) as (-> & -> & ->). done.
Qed.

Lemma retire_below_books bound t : row_books t -> row_books (retire_scrollback_below bound t).
Proof.
  intros []. unfold retire_scrollback_below. destruct (retire_rows_below _ _ _) as [rows bytes] eqn:Hr.
  apply retire_rows_below_spec in Hr as (Hx & Hy & ->); [|done].
  split; cbn; try done.
  - intros Hz. destruct (b_capture0 Hz) as [? ->]. done.
  - intros Ha. specialize (b_provisional0 Ha). lia.
Qed.

Lemma acknowledge_books ack_num t : books t -> books (acknowledge ack_num t).
Proof.
  intros (Hr & Hq & Hs). destruct (Z.le_gt_cases ack_num (base_num t)) as [Hle|Hgt].
  { unfold acknowledge. by rewrite (proj2 (Z.leb_le _ _) Hle). }
  rewrite acknowledge_eq by done. set (acked := acked_queries ack_num t).
  destruct (behind_base_part ack_num t) as (Hqp & Hu & Hsc).
  destruct (retire_queries_part acked (behind_base ack_num t)) as (Hrow & Hu2 & Hsc2).
  assert (query_books (behind_base ack_num t)) as Hq1 by (by apply (query_books_ext t)).
  unfold query_part in Hqp. injection Hqp as Hpb Hpq Hnx Hsn Hbn.
  split_and!.
  - apply (row_books_ext (retire_queries acked (behind_base ack_num t))); [done|].
    apply (row_books_ext (behind_base ack_num t)); [done|].
    unfold behind_base. destruct (newest_up_to _ _); [|done].
    by apply retire_below_books, (row_books_ext t).
  - apply retire_queries_books; [done | | lia |].
    + subst acked. unfold acked_queries. destruct (newest_up_to _ _) as [s|] eqn:Hnew; [|lia].
      apply newest_up_to_spec in Hnew as (k & Hk & _). destruct Hq1. rewrite Hsn in b_counts0.
      rewrite Forall_forall in b_counts0. by apply (b_counts0 _ Hk).
    + rewrite Hsn. intros p Hp Hlt. subst acked. unfold acked_queries.
      destruct (newest_up_to _ _) as [s|] eqn:Hnew; [|lia].
      destruct Hq. by apply (counts_past ack_num (snapshots t)).
  - intros s Hus. change (unchanged_screen (retire_queries acked (behind_base ack_num t)) = Some s) in Hus.
    change (s = screen (retire_queries acked (behind_base ack_num t))).
    rewrite Hu2, Hu in Hus. rewrite Hsc2, Hsc. by apply Hs.
Qed.

Lemma new_books rows cols : books (new rows cols).
Proof.
  split_and!; [| | done].
  - split; cbn; try done. by right.
  - split; cbn; try done; constructor.
Qed.

Lemma call_books c t t' : books t -> numbered_upwards c t -> run_call c t = Ok t' -> books t'.
Proof.
  intros Hb Hn Hc. destruct c; cbn in Hc; [injection Hc as <-..| | injection Hc as <- | injection Hc as <-].
  - by apply process_books.
  - by apply resize_books.
  - by apply set_scrollback_budget_books.
  - by apply forget_scrollback_books.
  - by apply drop_scrollback_over_budget_books.
  - destruct (add_query query t) as [[id t1]|e|] eqn:Ha; [|done..]. injection Hc as <-. by apply add_query_books in Ha.
  - by apply snapshot_for_state_books.
  - by apply acknowledge_books.
Qed.

Lemma session_books allowed start events asked t :
  (forall c t, allowed c t -> numbered_upwards c t) ->
  session allowed start events asked t -> books start -> books t.
Proof.
  intros Hall. induction 1 as [|events asked t c t' _ IH Hn Hc]; intros Hs; [done|].
  apply (call_books c t); [by apply IH | by apply Hall | done].
Qed.

(** Queries a held state counted are there to be left out. *)
Lemma base_counts from t b : books t -> base from t = Some b -> (b_query_count b <= length (pending_queries t))%nat.
Proof.
  intros _ Hb. destruct from as [n|]; cbn in Hb; [|injection Hb as <-; cbn; lia].
  destruct (get_snapshot n (snapshots t)); [|done]. injection Hb as <-. cbn. lia.
Qed.

(** ** Theorems *)

(** C28. Through every sequence of calls the server's loop can make on its terminal,
    with a full reset of the screen at any point: the bytes charged for waiting
    rows are their sum and never pass the budget before a client has asked; the
    queries waiting are within their limits, numbered one after the other, with
    their bytes counted; at most 64 snapshots are held, in order, past the
    acknowledged state, none counting more queries than there are; and the screen
    kept for the next snapshot is the current one.  No call panics but one that
    would number a query past the last number, and every frame can be built.  (A title's command number wraps, as in
    a release build: [TerminalScanners.Titles.large_command_is_a_title].) *)
Theorem server_books_balance rows cols events asked t :
  session numbered_upwards (new rows cols) events asked t ->
  books t /\
  (forall from, exists f, frame_from from t = Ok f) /\
  (forall c, run_call c t = Panic -> exists q, c = AddQuery q /\ next_query_id t = u64_max).
Proof.
  intros Hses. assert (books t) as Hb by (by eapply session_books; [|exact Hses|apply new_books]).
  split_and!; [done | |].
  - intros from. unfold frame_from. destruct (base from t) as [b|] eqn:Hbase; [|by exists None].
    pose proof (base_counts from t b Hb Hbase). unfold slice_from.
    destruct (decide (b_query_count b <= _)%nat); [by eexists | done].
  - intros c Hc. destruct c; cbn in Hc; try done. exists query. split; [done|].
    unfold add_query in Hc. destruct (_ || _); [done|].
    destruct Hb as (_ & [_ _ (_ & Hi & _) _ _ _ _] & _).
    unfold checked_add_u64 in Hc. destruct (Z.leb_spec (next_query_id t + 1) u64_max); [done | lia].
Qed.

(** ** The rows that scrolled off *)

(** The rows removed so far, oldest first. *)
Definition history (events : list Eviction.screen_event) : list Eviction.EvictedRow := omap row_of events.

(** A call between whose collections the queue does not overflow, and that does
    not reset the screen. *)
Definition steady (c : call) (t : TerminalState) : Prop :=
  numbered_upwards c t /\ Forall (fun e => e <> Eviction.Reset) (events_of c t) /\
  zlen (events_of c t) <= Eviction.EVICTED_CAP.

Lemma history_app es es' : history (es ++ es') = history es ++ history es'.
Proof. apply omap_app. Qed.
Lemma history_length es : Forall (fun e => e <> Eviction.Reset) es -> zlen (history es) = zlen es.
Proof.
  induction 1 as [|e es He _ IH]; [done|]. destruct e as [r|]; [|done]. cbn.
  unfold zlen in *. cbn [length]. unfold history in IH. lia.
Qed.

Lemma remember_rows es g :
  Forall (fun e => e <> Eviction.Reset) es -> Eviction.evicted_total g + zlen es <= u64_max ->
  0 <= Eviction.evicted_total g ->
  (Eviction.capture_evicted g = true -> zlen (Eviction.evicted g) + zlen es <= Eviction.EVICTED_CAP) ->
  Eviction.apply_events es g =
    Eviction.mkGrid (if Eviction.capture_evicted g then Eviction.evicted g ++ history es else Eviction.evicted g)
      (Eviction.evicted_total g + zlen es) (Eviction.capture_evicted g).
Proof.
  intros Hes. revert g. induction Hes as [|e es He _ IH]; intros [ev total cap]; cbn [Eviction.evicted_total
    Eviction.capture_evicted Eviction.evicted].
  { intros. unfold history, zlen. cbn. rewrite app_nil_r, Z.add_0_r. by destruct cap. }
  destruct e as [r|]; [|done]. intros Hb Hn Hcap.
  assert (zlen (Eviction.Removed r :: es) = zlen es + 1) as Hz by (unfold zlen; cbn [length]; lia).
  pose proof (zlen_nonneg es). rewrite Hz in *.
  change (Eviction.apply_events (Eviction.Removed r :: es) ?g) with
    (Eviction.apply_events es (Eviction.remember_row r g)).
  unfold Eviction.remember_row. cbn.
  rewrite wrap_small by (unfold fits, u64_max in *; lia). destruct cap; cbn.
  - specialize (Hcap eq_refl). rewrite (proj2 (Z.leb_gt _ _)) by lia. cbn. rewrite IH; cbn.
    + f_equal; [by rewrite <- app_assoc | lia].
    + lia.
    + lia.
    + intros _. rewrite zlen_app, zlen_singleton. lia.
  - rewrite IH; cbn; [f_equal; lia | lia | lia | done].
Qed.

(** *** Numbered rows *)

Lemma numbered_app f l l' :
  0 <= f -> f + zlen l + zlen l' <= u64_max -> numbered f (l ++ l') = numbered f l ++ numbered (f + zlen l) l'.
Proof.
  revert f. induction l as [|r l IH]; intros f Hf Hle; cbn [numbered app].
  { unfold zlen. cbn. by rewrite Z.add_0_r. }
  assert (zlen (r :: l) = zlen l + 1) as Hz by (unfold zlen; cbn [length]; lia). rewrite Hz in *.
  pose proof (zlen_nonneg l). pose proof (zlen_nonneg l').
  f_equal. rewrite wrap_small by (unfold fits, u64_max in *; lia). rewrite IH by lia. do 2 f_equal. lia.
Qed.

Lemma numbered_drop f l n :
  0 <= f -> f + zlen l <= u64_max -> (n <= length l)%nat ->
  drop n (numbered f l) = numbered (f + Z.of_nat n) (drop n l).
Proof.
  revert f n. induction l as [|r l IH]; intros f n Hf Hle Hn; cbn [numbered].
  { destruct n; cbn in Hn; [|lia]. done. }
  assert (zlen (r :: l) = zlen l + 1) as Hz by (unfold zlen; cbn [length]; lia). rewrite Hz in *.
  pose proof (zlen_nonneg l).
  destruct n as [|n]; [cbn; by rewrite Z.add_0_r|]. cbn [drop]. cbn [length] in Hn.
  rewrite wrap_small by (unfold fits, u64_max in *; lia). rewrite IH by lia. f_equal. lia.
Qed.

Lemma numbered_length f l : length (numbered f l) = length l.
Proof. revert f. induction l as [|r l IH]; intros f; cbn; [done | by rewrite IH]. Qed.

(** What is below a bound, of rows numbered from [f]. *)
Lemma skip_numbered bound f l :
  0 <= f -> f + zlen l <= u64_max -> bound <= f + zlen l ->
  skip_rows_below bound (numbered f l) = numbered (Z.max f bound) (drop (Z.to_nat (bound - f)) l).
Proof.
  revert f. induction l as [|r l IH]; intros f Hf Hle Hb; cbn [numbered skip_rows_below].
  { by rewrite drop_nil. }
  assert (zlen (r :: l) = zlen l + 1) as Hz by (unfold zlen; cbn [length]; lia). rewrite Hz in *.
  pose proof (zlen_nonneg l). cbn [index]. destruct (Z.ltb_spec f bound) as [Hlt|Hge].
  - rewrite wrap_small by (unfold fits, u64_max in *; lia). rewrite IH by lia.
    replace (Z.to_nat (bound - f)) with (S (Z.to_nat (bound - (f + 1)))) by lia. cbn [drop]. f_equal. lia.
  - rewrite Z.max_l by lia. replace (Z.to_nat (bound - f)) with 0%nat by lia. cbn [drop numbered]. done.
Qed.

(** The rows waiting are the newest of the history, under their own numbers. *)
Definition rows_from (k : nat) (h : list Eviction.EvictedRow) : list PendingRow := numbered (Z.of_nat k) (drop k h).

Lemma rows_from_drop k n h :
  zlen h <= u64_max -> (k + n <= length h)%nat -> drop n (rows_from k h) = rows_from (k + n) h.
Proof.
  intros Hh Hk. unfold rows_from. unfold zlen in Hh. rewrite numbered_drop.
  - rewrite drop_drop. f_equal. lia.
  - lia.
  - unfold zlen. rewrite length_drop. lia.
  - rewrite length_drop. lia.
Qed.

Lemma rows_from_app k h r :
  zlen (h ++ r) <= u64_max -> (k <= length h)%nat -> rows_from k h ++ numbered (zlen h) r = rows_from k (h ++ r).
Proof.
  intros Hh Hk. unfold rows_from. rewrite drop_app_le by done. rewrite zlen_app in Hh. unfold zlen in Hh.
  rewrite numbered_app; unfold zlen; rewrite ?length_drop; [|lia..]. do 2 f_equal. lia.
Qed.

Lemma rows_from_all h : rows_from (length h) h = [].
Proof. unfold rows_from. by rewrite drop_all. Qed.

Lemma rows_from_skip bound k h :
  zlen h <= u64_max -> (k <= length h)%nat -> 0 <= bound <= zlen h ->
  skip_rows_below bound (rows_from k h) = rows_from (Nat.max k (Z.to_nat bound)) h.
Proof.
  intros Hh Hk Hb. unfold rows_from. unfold zlen in *.
  rewrite skip_numbered; unfold zlen; rewrite ?length_drop; [|lia..]. rewrite drop_drop. f_equal; [lia|]. f_equal. lia.
Qed.

(** *** The rows through a call *)

(** The count is the history's length, the rows waiting are the history from
    [k] on, and what states have shown lies between the base and the count. *)
Record on_record (k : nat) (h : list Eviction.EvictedRow) (t : TerminalState) : Prop := {
  r_total : evicted_total t = zlen h;
  r_capture : scrollback_budget t <> 0 -> Eviction.capture_evicted (grid t) = true;
  r_rows : pending_scrollback t = rows_from k h;
  r_end : (k <= length h)%nat;
  r_base : 0 <= base_evicted_total t <= Z.of_nat k;
  r_shown : Forall (fun p => base_evicted_total t <= snapshot_evicted_total p.2 <= zlen h) (snapshots t);
  r_grow : StronglySorted (fun p q => snapshot_evicted_total p.2 <= snapshot_evicted_total q.2) (snapshots t);
}.

(** Nothing but an acknowledgement takes rows away: the client has announced itself, what it reads
    asks for no clear, and the server neither forgets the history nor, after a stall, drops what is over the budget. *)
Definition keeps_rows (c : call) (t : TerminalState) : Prop :=
  scrollback_announced t = true /\
  match c with
  | Forget => False
  | DropOverBudget => pending_scrollback_bytes t <= scrollback_budget t
  | Process data => (ClearDetector.feed data (scrollback_detector t)).2 = 0
  | _ => True
  end.

(** What the count and the base are taken from. *)
Definition shown_part (t : TerminalState) := (base_evicted_total t, snapshots t).

Lemma on_record_rows k k' h h' t t' :
  on_record k h t -> evicted_total t' = zlen h' ->
  (scrollback_budget t' <> 0 -> Eviction.capture_evicted (grid t') = true) ->
  pending_scrollback t' = rows_from k' h' -> (k <= k' <= length h')%nat -> (length h <= length h')%nat ->
  shown_part t' = shown_part t -> on_record k' h' t'.
Proof.
  intros [] Ht Hc Hr Hk Hh. unfold shown_part. intros [= Hb Hs]. split; rewrite ?Hb, ?Hs; try done; [lia | lia |].
  eapply Forall_impl; [exact r_shown0|]. cbn. unfold zlen. lia.
Qed.

Lemma drop_over_shown t :
  shown_part (drop_scrollback_over_budget t) = shown_part t /\
  grid (drop_scrollback_over_budget t) = grid t /\
  scrollback_budget (drop_scrollback_over_budget t) = scrollback_budget t.
Proof. unfold drop_scrollback_over_budget. by destruct (drop_rows_over _ _ _). Qed.

Lemma drop_under t : pending_scrollback_bytes t <= scrollback_budget t -> drop_scrollback_over_budget t = t.
Proof.
  intros Hle. unfold drop_scrollback_over_budget.
  assert (forall rows, drop_rows_over (scrollback_budget t) rows (pending_scrollback_bytes t) = (rows, pending_scrollback_bytes t)) as ->.
  { intros [|row rows]; cbn [drop_rows_over]; [done|]. by rewrite (proj2 (Z.ltb_ge _ _)). }
  by destruct t.
Qed.
Lemma drop_over_rows_from k h t :
  zlen h <= u64_max -> pending_scrollback t = rows_from k h -> (k <= length h)%nat ->
  exists k', (k <= k' <= length h)%nat /\ pending_scrollback (drop_scrollback_over_budget t) = rows_from k' h.
Proof.
  intros Hh Hr Hk. unfold drop_scrollback_over_budget. destruct (drop_rows_over _ _ _) as [rows bytes] eqn:Hd.
  cbn. clear -Hh Hr Hk Hd. rewrite Hr in Hd. revert k Hk Hd Hr. generalize (pending_scrollback_bytes t).
  intros b k Hk Hd _.
  assert (exists n, (n <= length (rows_from k h))%nat /\ rows = drop n (rows_from k h)) as (n & Hn & ->).
  { revert b Hd. induction (rows_from k h) as [|r l IH]; intros b Hd; cbn [drop_rows_over] in Hd.
    { injection Hd as <- _. by exists 0%nat. }
    destruct (_ <? _); [|injection Hd as <- _; exists 0%nat; cbn; split; [lia | done]].
    destruct (IH _ Hd) as (n & Hn & ->). exists (S n). cbn. split; [lia | done]. }
  unfold rows_from in Hn. rewrite numbered_length, length_drop in Hn.
  exists (k + n)%nat. split; [lia|]. rewrite rows_from_drop; [done | done | lia].
Qed.

Lemma collect_shown t :
  shown_part (collect_scrollback t) = shown_part t /\
  evicted_total (collect_scrollback t) = evicted_total t /\
  Eviction.capture_evicted (grid (collect_scrollback t)) = Eviction.capture_evicted (grid t) /\
  scrollback_budget (collect_scrollback t) = scrollback_budget t.
Proof.
  unfold collect_scrollback. destruct (scrollback_budget t =? 0); [done|]. cbn [Eviction.take_evicted].
  set (t1 := _ <| pending_scrollback := _ |>). destruct (scrollback_announced _); [done|].
  unfold evicted_total. destruct (drop_over_shown t1) as (-> & -> & ->). done.
Qed.

Lemma collect_rows_from k h r t :
  zlen (h ++ r) <= u64_max -> evicted_total t = zlen (h ++ r) ->
  (scrollback_budget t <> 0 -> Eviction.evicted (grid t) = r) ->
  (scrollback_budget t = 0 -> pending_scrollback t = []) ->
  pending_scrollback t = rows_from k h -> (k <= length h)%nat ->
  exists k', (k <= k' <= length (h ++ r))%nat /\
    pending_scrollback (collect_scrollback t) = rows_from k' (h ++ r) /\
    (scrollback_announced t = true -> scrollback_budget t <> 0 -> k' = k).
Proof.
  intros Hh Ht He Hz Hr Hk. unfold collect_scrollback. destruct (Z.eqb_spec (scrollback_budget t) 0) as [H0|H0].
  { exists (length (h ++ r)). rewrite rows_from_all. rewrite length_app. split_and!; [lia | lia | by apply Hz | done]. }
  cbn [Eviction.take_evicted]. specialize (He H0). unfold evicted_total in Ht.
  assert (Z.max 0 (Eviction.evicted_total (grid t) - zlen (Eviction.evicted (grid t))) = zlen h) as Hfirst.
  { rewrite Ht, He, zlen_app. pose proof (zlen_nonneg h). lia. }
  rewrite Hfirst, He. set (t1 := _ <| pending_scrollback := _ |>).
  assert (pending_scrollback t1 = rows_from k (h ++ r)) as Hp1.
  { subst t1. cbn. rewrite Hr. by apply rows_from_app. }
  assert (k <= length (h ++ r))%nat as Hk' by (rewrite length_app; lia).
  change (scrollback_announced t) with (scrollback_announced t1).
  destruct (scrollback_announced t1) eqn:Hann.
  - exists k. split_and!; [done | done | done | done].
  - destruct (drop_over_rows_from k (h ++ r) t1) as (k' & Hkk & Hpk); [done..|].
    exists k'. split_and!; [lia | lia | done | done].
Qed.

(** After the rows of a call are on the queue, collecting them. *)
Lemma collected_record k h es t t1 :
  on_record k h t -> row_books t -> zlen (h ++ history es) <= u64_max ->
  Forall (fun e => e <> Eviction.Reset) es -> zlen es <= Eviction.EVICTED_CAP ->
  grid t1 = Eviction.apply_events es (grid t) -> shown_part t1 = shown_part t ->
  scrollback_budget t1 = scrollback_budget t ->
  (pending_scrollback t1 = pending_scrollback t \/ pending_scrollback t1 = []) ->
  exists k', on_record k' (h ++ history es) (collect_scrollback t1) /\
    (scrollback_announced t1 = true -> scrollback_budget t <> 0 ->
     pending_scrollback t1 = pending_scrollback t -> k' = k).
Proof.
  intros Hrec Hbk Hh Hes Hcap Hg Hsp Hbud Hpend. pose proof Hrec as [Htot Hca Hrows Hk Hbase _ _].
  assert (zlen (h ++ history es) = zlen h + zlen es) as Hlen by (by rewrite zlen_app, history_length).
  unfold evicted_total in Htot. pose proof (zlen_nonneg h).
  assert (grid t1 = Eviction.mkGrid (if Eviction.capture_evicted (grid t) then history es else [])
            (zlen (h ++ history es)) (Eviction.capture_evicted (grid t))) as Hg1.
  { rewrite Hg, remember_rows; [| done | lia | lia | destruct Hbk; rewrite b_collected0; unfold zlen at 1; cbn; lia].
    destruct Hbk. rewrite b_collected0, Htot, Hlen. done. }
  assert (exists k0, (k <= k0 <= length h)%nat /\ pending_scrollback t1 = rows_from k0 h /\
    (pending_scrollback t1 = pending_scrollback t -> k0 = k)) as (k0 & Hk0 & Hp1 & Hkeep).
  { destruct Hpend as [Hpend|Hpend].
    - exists k. rewrite Hpend. done.
    - exists (length h). rewrite Hpend, rows_from_all. split_and!; [lia | lia | done |].
      intros He. rewrite Hrows in He. symmetry in He. apply (f_equal length) in He. unfold rows_from in He.
      rewrite numbered_length, length_drop in He. cbn in He. lia. }
  destruct (collect_rows_from k0 h (history es) t1) as (k' & Hk' & Hr' & Hsame); [done | | | | done | lia |].
  { unfold evicted_total. by rewrite Hg1. }
  { intros Hz. rewrite Hg1. cbn. by rewrite Hca by (by rewrite <- Hbud). }
  { intros Hz. rewrite Hbud in Hz. destruct Hpend as [-> | ->]; [|done]. destruct Hbk. by apply b_capture0. }
  destruct (collect_shown t1) as (Hs1 & Ht1 & Hc1 & Hb1). exists k'. split.
  - apply (on_record_rows k k' h _ t); [done | | | done | lia | rewrite length_app; lia | by rewrite Hs1].
    + rewrite Ht1. unfold evicted_total. by rewrite Hg1.
    + rewrite Hb1, Hc1, Hg1, Hbud. apply Hca.
  - intros Ha Hz Hp. rewrite <- (Hkeep Hp). apply Hsame; [done | by rewrite Hbud].
Qed.

Lemma process_record k h data t :
  on_record k h t -> row_books t -> steady (Process data) t ->
  zlen (h ++ history (emulate data (screen t)).2) <= u64_max ->
  exists k', on_record k' (h ++ history (emulate data (screen t)).2) (process data t) /\
    (keeps_rows (Process data) t -> k' = k).
Proof.
  intros Hrec Hbk (_ & Hes & Hcap) Hh. cbn [events_of] in *. unfold process, keeps_rows.
  destruct (ClearDetector.feed _ _) as [detector cleared]. cbn [snd].
  set (t2 := match data with [] => _ | _ => _ end).
  assert (screen t2 = screen t /\ grid t2 = grid t) as [Hs2 Hg2] by (subst t2; by destruct data).
  rewrite Hs2. destruct (emulate data (screen t)) as [screen' es]. cbn [snd] in *. rewrite Hg2.
  set (t4 := if 0 <? cleared then _ else _).
  assert (grid t4 = Eviction.apply_events es (grid t) /\ shown_part t4 = shown_part t /\
    scrollback_budget t4 = scrollback_budget t /\ scrollback_announced t4 = scrollback_announced t /\
    pending_scrollback t4 = (if 0 <? cleared then [] else pending_scrollback t)) as (Hg & Hsp & Hbud & Hann & Hp)
    by (subst t4 t2; destruct (0 <? cleared), data; done).
  destruct (collected_record k h es t t4) as (k' & Hk' & Hsame); [done.. | |].
  { rewrite Hp. destruct (0 <? cleared); [by right | by left]. }
  exists k'. split; [done|]. intros [Ha ->]. apply Hsame; [by rewrite Hann | | by rewrite Hp].
  destruct Hbk. by apply b_announced0.
Qed.

Lemma resize_record k h rows cols t :
  on_record k h t -> row_books t -> steady (Resize rows cols) t ->
  zlen (h ++ history (reflow rows cols (screen t)).2) <= u64_max ->
  exists k', on_record k' (h ++ history (reflow rows cols (screen t)).2) (resize rows cols t) /\
    (keeps_rows (Resize rows cols) t -> k' = k).
Proof.
  intros Hrec Hbk (_ & Hes & Hcap) Hh. cbn [events_of] in *. unfold resize, keeps_rows.
  destruct (reflow rows cols (screen t)) as [screen' es]. cbn [snd] in *.
  match goal with |- context [collect_scrollback ?t1] => set (t2 := t1) end.
  destruct (collected_record k h es t t2)
    as (k' & Hk' & Hsame); [done | done | done | done | done | done | done | done | by left |].
  exists k'. split; [done|]. intros [Ha _]. apply Hsame; [done | destruct Hbk; by apply b_announced0 | done].
Qed.

Lemma snapshot_record k h n t :
  on_record k h t -> numbered_upwards (Snapshot n) t -> on_record k h (snapshot_for_state n t).
Proof.
  intros [] [_ Hl]. unfold snapshot_for_state. rewrite insert_snapshot_last by done.
  split; cbn; try done.
  - apply Forall_drop, Forall_app. split; [done|]. constructor; [|constructor]. cbn. rewrite r_total0.
    unfold zlen. lia.
  - apply StronglySorted_drop, StronglySorted_snoc; [done|].
    eapply Forall_impl; [exact r_shown0|]. cbn. rewrite r_total0. lia.
Qed.

(** Retiring queries only changes the snapshots' counts of them. *)
Lemma retire_queries_snapshots acked t :
  exists f, snapshots (retire_queries acked t) = f <$> snapshots t /\
    forall p, (f p).1 = p.1 /\ snapshot_evicted_total (f p).2 = snapshot_evicted_total p.2.
Proof.
  unfold retire_queries. destruct (0 <? acked)%nat.
  - eexists. split; [reflexivity|]. by intros [].
  - exists (fun p => p). by rewrite list_fmap_id.
Qed.

Lemma newest_shown n k h t s :
  on_record k h t -> newest_up_to n (snapshots t) = Some s ->
  base_evicted_total t <= snapshot_evicted_total s <= zlen h /\
  (sorted_by_number (snapshots t) -> forall p, p ∈ snapshots t -> n < p.1 ->
     snapshot_evicted_total s <= snapshot_evicted_total p.2).
Proof.
  intros [] Hs. apply newest_up_to_spec in Hs as (m & Hm & Hle). split.
  - rewrite Forall_forall in r_shown0. apply (r_shown0 _ Hm).
  - intros Hso p Hp Hn. apply list_elem_of_lookup in Hm as [i Hi]. apply list_elem_of_lookup in Hp as [j Hj].
    assert (i < j \/ i = j \/ j < i)%nat as [Hij | [-> | Hji]] by lia.
    + apply (StronglySorted_lookup _ _ i j _ _ r_grow0 Hi Hj Hij).
    + rewrite Hi in Hj. by injection Hj as <-.
    + pose proof (StronglySorted_lookup _ _ j i _ _ Hso Hj Hi Hji). cbn in *. lia.
Qed.

(** Advancing to a base at [bound] that the snapshots left are past. *)
Lemma advance_record n acked k h bound t t1 :
  on_record k h t -> grid t1 = grid t -> scrollback_budget t1 = scrollback_budget t ->
  snapshots t1 = snapshots t -> base_evicted_total t1 = bound -> base_evicted_total t <= bound <= zlen h ->
  pending_scrollback t1 = rows_from (Nat.max k (Z.to_nat bound)) h ->
  (forall p, p ∈ snapshots t -> n < p.1 -> bound <= snapshot_evicted_total p.2) ->
  on_record (Nat.max k (Z.to_nat bound)) h (advance_base n (retire_queries acked t1)).
Proof.
  intros [] Hg Hbud Hsn Hb Hbound Hp Hpast.
  assert (forall t2, grid (advance_base n t2) = grid t2 /\ scrollback_budget (advance_base n t2) = scrollback_budget t2 /\
    pending_scrollback (advance_base n t2) = pending_scrollback t2 /\
    base_evicted_total (advance_base n t2) = base_evicted_total t2 /\
    snapshots (advance_base n t2) = filter (fun p => n < p.1) (snapshots t2)) as Hadv by done.
  assert (forall t2, row_part (retire_queries acked t2) = row_part t2 /\
    base_evicted_total (retire_queries acked t2) = base_evicted_total t2) as Hret
    by (intros t2; unfold retire_queries; by destruct (0 <? acked)%nat).
  destruct (Hret t1) as [Hrp Hrb]. unfold row_part in Hrp. injection Hrp as Hr1 Hr2 Hr3 Hr4 Hr5.
  destruct (Hadv (retire_queries acked t1)) as (Ha1 & Ha2 & Ha3 & Ha4 & Ha5).
  destruct (retire_queries_snapshots acked t1) as (f & Hf & Hfp). rewrite Hf, Hsn in Ha5.
  unfold zlen in *.
  split.
  - unfold evicted_total. by rewrite Ha1, Hr3, Hg.
  - by rewrite Ha2, Ha1, Hr3, Hr4, Hg, Hbud.
  - by rewrite Ha3, Hr1.
  - lia.
  - rewrite Ha4, Hrb, Hb. lia.
  - rewrite Ha4, Hrb, Hb, Ha5. apply Forall_forall.
    intros p [Hlt (q & -> & Hq)%list_elem_of_fmap]%list_elem_of_filter.
    destruct (Hfp q) as [Hf1 Hf2]. rewrite Hf2. rewrite Hf1 in Hlt. split; [by apply Hpast|].
    rewrite Forall_forall in r_shown0. by apply r_shown0.
  - rewrite Ha5. apply StronglySorted_filter. eapply StronglySorted_fmap; [|exact r_grow0].
    intros p q. cbn. by rewrite !(proj2 (Hfp _)).
Qed.

(** The rows an acknowledged state carried leave, and only those. *)
Lemma acknowledge_record k h n t :
  zlen h <= u64_max -> sorted_by_number (snapshots t) -> on_record k h t ->
  on_record (Nat.max k (Z.to_nat (base_evicted_total (acknowledge n t)))) h (acknowledge n t).
Proof.
  intros Hh Hso Hrec. pose proof Hrec as []. destruct (Z.le_gt_cases n (base_num t)) as [Hle|Hgt].
  { unfold acknowledge. rewrite (proj2 (Z.leb_le _ _) Hle). by rewrite Nat.max_l by lia. }
  rewrite acknowledge_eq by done. set (acked := acked_queries n t).
  assert (base_evicted_total (advance_base n (retire_queries acked (behind_base n t))) =
          base_evicted_total (behind_base n t)) as ->
    by (unfold retire_queries; by destruct (0 <? acked)%nat).
  unfold behind_base. destruct (newest_up_to n (snapshots t)) as [s|] eqn:Hnew.
  - destruct (newest_shown n k h t s Hrec Hnew) as [Hsb Hpast]. specialize (Hpast Hso).
    unfold retire_scrollback_below. destruct (retire_rows_below _ _ _) as [rows bytes] eqn:Hr.
    assert (rows = rows_from (Nat.max k (Z.to_nat (snapshot_evicted_total s))) h) as ->.
    { clear -Hr Hh r_rows0 r_end0 Hsb r_base0. cbn in Hr. rewrite r_rows0 in Hr.
      rewrite <- (rows_from_skip (snapshot_evicted_total s)) by lia.
      revert Hr. generalize (pending_scrollback_bytes t). generalize (rows_from k h). intros l.
      induction l as [|x l IH]; intros b Hr; cbn [retire_rows_below skip_rows_below] in *; [by injection Hr|].
      destruct (_ <? _); [by eapply IH | by injection Hr]. }
    by eapply advance_record.
  - eapply advance_record; try done; [unfold zlen; lia | by rewrite Nat.max_l by lia |].
    intros p Hp _. rewrite Forall_forall in r_shown0. by apply r_shown0.
Qed.

(** A call that leaves the rows, the count and what was shown alone. *)
Lemma untouched_record k h t t' :
  on_record k h t -> grid t' = grid t -> scrollback_budget t' = scrollback_budget t ->
  pending_scrollback t' = pending_scrollback t -> shown_part t' = shown_part t -> on_record k h t'.
Proof.
  intros Hrec Hg Hb Hp Hs. pose proof Hrec as [].
  apply (on_record_rows k k h h t); unfold evicted_total; rewrite ?Hg, ?Hb, ?Hp; try done; lia.
Qed.

Lemma call_record k h c t t' :
  on_record k h t -> books t -> steady c t -> run_call c t = Ok t' -> zlen (h ++ history (events_of c t)) <= u64_max ->
  exists k', on_record k' (h ++ history (events_of c t)) t' /\
    (keeps_rows c t -> k' = Nat.max k (Z.to_nat (base_evicted_total t'))).
Proof.
  intros Hrec (Hbk & Hq & _) Hst Hc Hh. pose proof Hrec as [].
  assert (forall k' t1, shown_part t1 = shown_part t -> k' = k -> k' = Nat.max k (Z.to_nat (base_evicted_total t1))) as Hmax.
  { intros k' t1 Hs ->. unfold shown_part in Hs. injection Hs as -> _. lia. }
  destruct c; cbn [run_call events_of] in *; try rewrite app_nil_r in *.
  - injection Hc as <-. destruct (process_record k h data t) as (k' & Hk' & Hkeep); [done..|].
    exists k'. split; [done|]. intros Hkp. pose proof Hk' as []. rewrite (Hkeep Hkp) in *. lia.
  - injection Hc as <-. destruct (resize_record k h rows cols t) as (k' & Hk' & Hkeep); [done..|].
    exists k'. split; [done|]. intros Hkp. pose proof Hk' as []. rewrite (Hkeep Hkp) in *. lia.
  - injection Hc as <-. exists k. split; [by apply (on_record_rows k k h h t)|]. intros _. by apply Hmax.
  - injection Hc as <-. exists (length h). split; [|by intros [_ []]].
    apply (on_record_rows k (length h) h h t); cbn; rewrite ?rows_from_all; done.
  - injection Hc as <-. destruct (drop_over_rows_from k h t) as (k' & Hk' & Hp'); [done..|].
    destruct (drop_over_shown t) as (Hs & Hg & Hb).
    destruct (decide (pending_scrollback_bytes t <= scrollback_budget t)) as [Hunder|Hover].
    + exists k. rewrite drop_under by done. split; [by apply (on_record_rows k k h h t)|]. intros _. by apply Hmax.
    + exists k'. split; [|by intros [_ ?]]. apply (on_record_rows k k' h h t); unfold evicted_total; rewrite ?Hg, ?Hb; done.
  - destruct (add_query query t) as [[id t1]|e|] eqn:Ha; [|done..]. injection Hc as <-. cbn.
    assert (grid t1 = grid t /\ scrollback_budget t1 = scrollback_budget t /\
      pending_scrollback t1 = pending_scrollback t /\ shown_part t1 = shown_part t) as (Hg & Hb & Hp & Hs).
    { unfold add_query in Ha. destruct (_ || _); [by injection Ha as <- <-|].
      destruct (checked_add_u64 _ _); [|done]. by injection Ha as <- <-. }
    exists k. split; [by apply (untouched_record k h t)|]. intros _. by apply Hmax.
  - injection Hc as <-. exists k. split; [by apply snapshot_record; [|apply Hst]|]. intros _.
    change (base_evicted_total (snapshot_for_state state_num t)) with (base_evicted_total t). lia.
  - injection Hc as <-. eexists. split; [by apply acknowledge_record; [|destruct Hq|]|]. done.
Qed.

(** The base's count never goes back. *)
Lemma base_total_grows k h c t t' :
  on_record k h t -> run_call c t = Ok t' -> base_evicted_total t <= base_evicted_total t'.
Proof.
  intros Hrec Hc. destruct c; cbn [run_call] in Hc.
  - injection Hc as <-. unfold process. destruct (ClearDetector.feed _ _) as [detector cleared].
    destruct (emulate _ _) as [screen' es].
    match goal with |- context [collect_scrollback ?x] => destruct (collect_shown x) as [Hs _] end.
    unfold shown_part in Hs. injection Hs as -> _. by destruct (0 <? cleared), data.
  - injection Hc as <-. unfold resize. destruct (reflow _ _ _) as [screen' es].
    match goal with |- context [collect_scrollback ?x] => destruct (collect_shown x) as [Hs _] end.
    unfold shown_part in Hs. by injection Hs as -> _.
  - by injection Hc as <-.
  - by injection Hc as <-.
  - injection Hc as <-. destruct (drop_over_shown t) as [Hs _]. unfold shown_part in Hs. by injection Hs as -> _.
  - destruct (add_query query t) as [[id t1]|e|] eqn:Ha; [|done..]. injection Hc as <-. unfold add_query in Ha.
    destruct (_ || _); [by injection Ha as <- <-|]. destruct (checked_add_u64 _ _); [|done]. by injection Ha as <- <-.
  - by injection Hc as <-.
  - injection Hc as <-. destruct (Z.le_gt_cases ack_num (base_num t)) as [Hle|Hgt].
    { unfold acknowledge. by rewrite (proj2 (Z.leb_le _ _) Hle). }
    rewrite acknowledge_eq by done.
    assert (forall a t1, base_evicted_total (advance_base ack_num (retire_queries a t1)) = base_evicted_total t1) as ->
      by (intros a t1; unfold retire_queries; by destruct (0 <? a)%nat).
    unfold behind_base. destruct (newest_up_to ack_num (snapshots t)) as [s|] eqn:Hnew; [|lia].
    destruct (newest_shown _ _ _ _ _ Hrec Hnew) as [? _].
    unfold retire_scrollback_below. destruct (retire_rows_below _ _ _). cbn. lia.
Qed.

Lemma steady_numbered c t : steady c t -> numbered_upwards c t.
Proof. by intros [? _]. Qed.

Lemma new_record rows cols : on_record 0 [] (new rows cols).
Proof. split; cbn; try done; constructor. Qed.

(** The record of a session, and that nothing is missing from it as long as
    nothing was given up. *)
Lemma steady_session_record allowed start k0 h0 events asked t :
  (forall c t, allowed c t -> steady c t) -> on_record k0 h0 start -> books start ->
  session allowed start events asked t -> zlen (h0 ++ history events) <= u64_max ->
  books t /\ exists k, on_record k (h0 ++ history events) t /\
    ((forall c t, allowed c t -> keeps_rows c t) -> k = Nat.max k0 (Z.to_nat (base_evicted_total t))).
Proof.
  intros Hall Hrec Hbk. induction 1 as [|events asked t c t' _ IH Hn Hc]; intros Hh.
  { split; [done|]. exists k0. cbn. rewrite app_nil_r. split; [done|]. intros _. destruct Hrec. lia. }
  rewrite history_app, app_assoc in Hh |- *.
  destruct IH as (Hb & k & Hk & Hkeep). { rewrite zlen_app in Hh. pose proof (zlen_nonneg (history (events_of c t))). lia. }
  destruct (call_record k (h0 ++ history events) c t t') as (k' & Hk' & Hmax); [done | done | by apply Hall | done | done |].
  split; [by apply (call_books c t); [|apply steady_numbered, Hall|]|].
  exists k'. split; [done|]. intros Hkr. rewrite (Hmax (Hkr _ _ Hn)), (Hkeep Hkr).
  pose proof (base_total_grows _ _ _ _ _ Hk Hc). lia.
Qed.
(** The first row waiting, from how many wait. *)
Lemma waiting_from k h t : on_record k h t -> k = (length h - length (pending_scrollback t))%nat.
Proof. intros []. rewrite r_rows0. unfold rows_from. rewrite numbered_length, length_drop. lia. Qed.

(** A base's count lies between the acknowledged state's and the terminal's. *)
Lemma base_shown k h from t b :
  on_record k h t -> base from t = Some b -> base_evicted_total t <= b_evicted_total b <= zlen h.
Proof.
  intros [] Hb. destruct from as [n|]; cbn in Hb.
  - unfold get_snapshot in Hb. destruct (find _ (snapshots t)) as [[m s]|] eqn:Hf; [|done]. cbn in Hb.
    injection Hb as <-. cbn. apply find_some in Hf as [Hin _]. rewrite Forall_forall in r_shown0.
    apply (r_shown0 (m, s)). by apply list_elem_of_In.
  - injection Hb as <-. cbn. unfold zlen. lia.
Qed.

(** The rows a frame from a base carries. *)
Definition carried (b : Base) (t : TerminalState) : list PendingRow :=
  skip_rows_below (b_evicted_total b) (pending_scrollback t).

Lemma carried_record k h from t b :
  zlen h <= u64_max -> on_record k h t -> base from t = Some b ->
  carried b t = rows_from (Nat.max k (Z.to_nat (b_evicted_total b))) h.
Proof.
  intros Hh Hrec Hb. pose proof (base_shown _ _ _ _ _ Hrec Hb). pose proof Hrec as [].
  unfold carried. rewrite r_rows0. apply rows_from_skip; [done | done | lia].
Qed.


End Books.

(** ** Witnesses, on the emulator of one line *)
#[local] Existing Instance OneLine.emulator.
#[local] Existing Instance OneLine.emulator_laws.
#[local] Existing Instance Rfc4648.engine.

(** Two rows scroll off around a query, a snapshot and its acknowledgement. *)
Definition demo_calls : list call :=
  [Process (text "one" ++ [z2b 0x0a]); AddQuery (text "?"); Snapshot 1; Process (text "two" ++ [z2b 0x0a]); Snapshot 2;
   Acknowledge 1].

(** A row scrolls off before a client announces itself. *)
Definition early_calls : list call := [Process (text "zero" ++ [z2b 0x0a]); SetBudget 65536].
Definition run_demo (cs : list call) (t : TerminalState) : TerminalState := from_option snd t (run_calls cs t [] []).
Definition demo_start : TerminalState := Eval vm_compute in run_demo early_calls (new 1 80).

(** Decide the side conditions of a concrete run. *)
Ltac run_along :=
  lazymatch goal with
  | |- along _ [] _ => exact I
  | |- along ?a (?c :: ?cs) ?t =>
      let t := eval vm_compute in t in
      let r := eval vm_compute in (run_call c t) in
      lazymatch r with Ok ?t' =>
        change (a c t /\ along a cs t'); split;
        [unfold steady, keeps_rows, numbered_upwards; cbn;
         repeat (split || constructor); cbn; done || lia
        | run_along]
      end
  end.

Lemma server_books_balance_witness :
  exists t, session numbered_upwards (new 1 80) [Eviction.Removed (Eviction.mkEvicted (text "one") false);
      Eviction.Removed (Eviction.mkEvicted (text "two") false)] [mkQuery 1 (text "?")] t /\
    zlen (pending_scrollback t) = 1 /\ pending_queries t = [] /\ books t.
Proof.
  assert (along numbered_upwards demo_calls (new 1 80)) as Ha by (unfold demo_calls; run_along).
  destruct (run_calls demo_calls (new 1 80) [] []) as [[[events asked] t]|] eqn:Hr; [|by vm_compute in Hr].
  pose proof (run_calls_session _ _ _ _ _ _ _ (session_start _ _) Ha Hr) as Hs. cbn in Hs.
  vm_compute in Hr. injection Hr as <- <- <-.
  eexists. split_and!; [exact Hs | reflexivity | reflexivity |].
  exact (proj1 (server_books_balance 1 80 _ _ _ Hs)).
Defined.


End TerminalBooks.
