(* ===== verification/TerminalQueries.v ===== *)
(** * Relayed queries

    Proves of [TerminalState] that each query the program makes is handed to a
    client once: the frame from a state carries the queries taken on since that
    state was sent, whatever was acknowledged in between. *)
From Stdlib Require Import ZArith Lia List Bool Sorted.
From stdpp Require Import base numbers list strings.
From S2P Require Import Prelude Text TerminalState TerminalBooks.
Import TerminalState TerminalBooks.
Open Scope Z_scope.
Open Scope zetta_scope.

Module TerminalQueries.

Section Queries.
Context {Hem : Emulator} {Hlaws : EmulatorLaws} {Hb64 : Base64}.

(** A call that is no query and no acknowledgement leaves the queries alone. *)
Definition queries_part (t : TerminalState) := (pending_queries t, base_num t).

Lemma other_call_queries c t t' :
  match c with AddQuery _ | Snapshot _ | Acknowledge _ => False | _ => True end ->
  run_call c t = Ok t' -> queries_part t' = queries_part t /\ snapshots t' = snapshots t /\ asked_of c t = [].
Proof.
  assert (forall t1, query_part (collect_scrollback t1) = query_part t1) as Hcol
    by (intros t1; by destruct (collect_part t1)).
  assert (forall t1 t2, query_part t1 = query_part t2 -> queries_part t1 = queries_part t2 /\ snapshots t1 = snapshots t2)
    as Hpart by (unfold query_part, queries_part; intros t1 t2 [= ? ? ? ? ?]; split; congruence).
  intros Hc Hr. destruct c; try done; cbn in Hr; injection Hr as <-.
  - destruct (Hpart (process data t) t) as [-> ->]; [|done]. unfold process.
    destruct (ClearDetector.feed _ _) as [detector cleared]. destruct (emulate _ _) as [screen' es].
    rewrite Hcol. by destruct (0 <? cleared), data.
  - destruct (Hpart (resize rows cols t) t) as [-> ->]; [|done]. unfold resize.
    destruct (reflow _ _ _) as [screen' es]. by rewrite Hcol.
  - done.
  - done.
  - destruct (Hpart (drop_scrollback_over_budget t) t) as [-> ->]; [|done]. by destruct (drop_over_part t).
Qed.

(** Take a call apart that does not touch the queries. *)
Ltac other_call Hc :=
  lazymatch type of Hc with
  | run_call ?c ?t = Ok ?t' =>
      let Hq := fresh in let Hsn := fresh "Hsn" in
      destruct (other_call_queries c t t' I Hc) as (Hq & Hsn & ->);
      unfold queries_part in Hq; injection Hq as Hq1 Hq2; rewrite app_nil_r
  end.

(** What a query does. *)
Lemma add_query_cases q t id t' :
  books t -> add_query q t = Ok (id, t') ->
  (t' = t /\ asked_of (AddQuery q) t = []) \/
  (pending_queries t' = pending_queries t ++ [mkQuery id q] /\ snapshots t' = snapshots t /\ base_num t' = base_num t /\
   asked_of (AddQuery q) t = [mkQuery id q]).
Proof.
  intros (_ & [_ _ (Hpos & _ & _) _ _ _ _] & _) Ha. cbn [asked_of]. rewrite Ha. unfold add_query in Ha.
  destruct (_ || _); [injection Ha as <- <-; by left|]. right.
  destruct (checked_add_u64 _ _); [|done]. injection Ha as <- <-. cbn. pose proof (zlen_nonneg (pending_queries t)).
  rewrite (proj2 (Z.eqb_neq _ _)) by lia. done.
Qed.

(** What is waiting is the newest of what was asked. *)
Lemma pending_is_suffix start before events asked t :
  session numbered_upwards start events asked t -> books start ->
  (exists older, before = older ++ pending_queries start) ->
  exists older, before ++ asked = older ++ pending_queries t.
Proof.
  intros Hses Hbk Hstart. induction Hses as [|events asked t c t' Hses IH Hn Hc]; [by rewrite app_nil_r|].
  destruct IH as [older IH]. rewrite app_assoc, IH.
  assert (books t) as Hb by (by eapply session_books).
  destruct c; try (other_call Hc; exists older; by rewrite Hq1).
  - cbn in Hc. destruct (add_query query t) as [[id t1]|e|] eqn:Ha; [|done..]. injection Hc as <-. cbn [snd].
    destruct (add_query_cases _ _ _ _ Hb Ha) as [[-> ->] | (-> & _ & _ & ->)]; exists older.
    + by rewrite app_nil_r.
    + by rewrite <- app_assoc.
  - injection Hc as <-. exists older. by rewrite app_nil_r.
  - injection Hc as <-. rewrite app_nil_r. destruct (Z.le_gt_cases ack_num (base_num t)) as [Hle|Hgt].
    { unfold acknowledge. rewrite (proj2 (Z.leb_le _ _) Hle). by exists older. }
    rewrite acknowledge_eq by done.
    destruct (behind_base_part ack_num t) as (Hqp & _). unfold query_part in Hqp. injection Hqp as _ Hpq _ _ _.
    unfold retire_queries. destruct (0 <? _)%nat; cbn; rewrite Hpq; [|by exists older].
    eexists (older ++ take _ _). by rewrite <- app_assoc, take_drop.
Qed.

(** *** A held state *)

(** Numbers given from now on are past [n], and a snapshot held under [n] counts
    everything but what was asked since. *)
Record since (n : Z) (asked : list TerminalQuery) (t : TerminalState) : Prop := {
  s_past : n <= base_num t \/ exists p, p ∈ snapshots t /\ n <= p.1;
  s_asked : forall s, (n, s) ∈ snapshots t -> drop (query_count s) (pending_queries t) = asked;
}.

Lemma elem_of_drop {A} (x : A) n l : x ∈ drop n l -> x ∈ l.
Proof. intros Hx. rewrite <- (take_drop n l). apply elem_of_app. by right. Qed.

Lemma since_snapshot n t :
  numbered_upwards (Snapshot n) t -> since n [] (snapshot_for_state n t).
Proof.
  intros [Hn Hl]. unfold snapshot_for_state. rewrite insert_snapshot_last by done. split.
  - right. cbn [snapshots set_field]. exists (n, mkSnapshot (default (screen t) (unchanged_screen t))
      (scrollback_clear_count t) (evicted_total t) (TitleScanner.title (title_scanner t)) (length (pending_queries t))).
    split; [|cbn; lia]. cbn. rewrite drop_app_le; [apply elem_of_app; right; by apply list_elem_of_singleton|].
    rewrite length_app. cbn. unfold MAX_SNAPSHOTS. lia.
  - intros s Hs. cbn in Hs |- *. apply elem_of_drop, elem_of_app in Hs as [Hs|Hs].
    + rewrite Forall_forall in Hl. specialize (Hl _ Hs). cbn in Hl. lia.
    + apply list_elem_of_singleton in Hs. injection Hs as ->. cbn. by rewrite drop_all.
Qed.

Lemma retire_queries_since n acked ack_num asked t :
  since n asked t -> base_num t < ack_num ->
  (forall p, p ∈ snapshots t -> ack_num < p.1 -> (acked <= query_count p.2)%nat) ->
  (acked <= length (pending_queries t))%nat ->
  since n asked (advance_base ack_num (retire_queries acked t)).
Proof.
  intros [Hpast Hasked] Hlt Hp Hlen. destruct (retire_queries_snapshots acked t) as (f & Hf & Hfp). split.
  - change (n <= ack_num \/ exists p, p ∈ filter (fun p => ack_num < p.1) (snapshots (retire_queries acked t)) /\ n <= p.1).
    destruct (Z.le_gt_cases n ack_num) as [Hle|Hgt]; [by left|]. right.
    destruct Hpast as [?|(p & Hin & Hnp)]; [lia|]. exists (f p). destruct (Hfp p) as [-> _].
    split; [|done]. apply list_elem_of_filter. rewrite (proj1 (Hfp p)). split; [lia|].
    rewrite Hf. by apply list_elem_of_fmap_2.
  - intros s Hs.
    change ((n, s) ∈ filter (fun p => ack_num < p.1) (snapshots (retire_queries acked t))) in Hs.
    change (drop (query_count s) (pending_queries (retire_queries acked t)) = asked).
    apply list_elem_of_filter in Hs as [Hn Hs]. cbn in Hn. unfold retire_queries in *.
    destruct (0 <? acked)%nat; [|by apply Hasked].
    cbn in Hs |- *. apply list_elem_of_fmap in Hs as ([m s0] & Heq & Hs). injection Heq as <- ->. cbn.
    specialize (Hp _ Hs Hn). cbn in Hp. rewrite Nat.min_l by done. rewrite drop_drop.
    replace (acked + (query_count s0 - acked))%nat with (query_count s0) by lia. by apply Hasked.
Qed.

Lemma since_call n asked c t t' :
  books t -> since n asked t -> numbered_upwards c t -> run_call c t = Ok t' ->
  since n (asked ++ asked_of c t) t'.
Proof.
  intros Hb Hs Hn Hc. pose proof Hs as [Hpast Hasked].
  destruct c; try (other_call Hc; split; [by rewrite Hq2, Hsn | by rewrite Hsn, Hq1]).
  - cbn in Hc. destruct (add_query query t) as [[id t1]|e|] eqn:Ha; [|done..]. injection Hc as <-. cbn [snd].
    destruct (add_query_cases _ _ _ _ Hb Ha) as [[-> ->] | (Hpq & Hsn & Hbn & ->)]; [by rewrite app_nil_r|].
    split; [by rewrite Hbn, Hsn|]. intros s Hin. rewrite Hsn in Hin. rewrite Hpq.
    destruct Hb as (_ & [_ _ _ _ _ _ Hcounts] & _). rewrite Forall_forall in Hcounts.
    destruct (Hcounts _ Hin) as [_ Hle]. cbn in Hle. rewrite drop_app_le by done. by rewrite (Hasked s Hin).
  - injection Hc as <-. rewrite app_nil_r. destruct Hn as [Hbase Hl].
    assert (n < state_num) as Hlt.
    { destruct Hpast as [?|(p & Hin & ?)]; [lia|]. rewrite Forall_forall in Hl. specialize (Hl _ Hin). cbn in Hl. lia. }
    destruct (since_snapshot state_num t (conj Hbase Hl)) as [Hp' _]. split.
    + change (base_num (snapshot_for_state state_num t)) with (base_num t) in *.
      destruct Hp' as [?|(p & Hin & ?)]; [lia|]. right. exists p. split; [done | lia].
    + unfold snapshot_for_state. rewrite insert_snapshot_last by done. intros s Hin. cbn in Hin |- *.
      apply elem_of_drop, elem_of_app in Hin as [Hin|Hin]; [by apply Hasked|].
      apply list_elem_of_singleton in Hin. injection Hin as -> _. lia.
  - injection Hc as <-. rewrite app_nil_r. destruct (Z.le_gt_cases ack_num (base_num t)) as [Hle|Hgt].
    { unfold acknowledge. by rewrite (proj2 (Z.leb_le _ _) Hle). }
    rewrite acknowledge_eq by done.
    destruct (behind_base_part ack_num t) as (Hqp & _ & _).
    unfold query_part in Hqp. injection Hqp as _ Hpq _ Hsn Hbn.
    destruct Hb as (_ & [_ _ _ Hso Hgr _ Hcounts] & _). rewrite Forall_forall in Hcounts.
    apply retire_queries_since; rewrite ?Hsn, ?Hpq, ?Hbn; [split; by rewrite ?Hsn, ?Hpq, ?Hbn | lia | |];
      unfold acked_queries; destruct (newest_up_to _ _) as [s|] eqn:Hnew; [| intros; lia | | lia].
    + intros p Hp Hlt. by apply (counts_past ack_num (snapshots t)).
    + apply newest_up_to_spec in Hnew as (m & Hm & _). apply (Hcounts _ Hm).
Qed.

(** ** The property *)

(** C32. The terminal takes a snapshot for state [n] when that state is sent.  From
    then on, whatever happens, a frame built on state [n] carries exactly the
    queries the program has made since, in order, under the numbers they were
    given: a client that goes from one sent state to the next is handed each
    query once.  A frame built on the acknowledged state carries the newest of
    all that was asked. *)
Theorem frames_hand_over_each_query_once rows cols events0 asked0 t0 n events asked t f :
  session numbered_upwards (new rows cols) events0 asked0 t0 -> numbered_upwards (Snapshot n) t0 ->
  session numbered_upwards (snapshot_for_state n t0) events asked t ->
  (frame_from (Some n) t = Ok (Some f) -> queries f = asked) /\
  (frame_from None t = Ok (Some f) -> exists older, asked0 ++ asked = older ++ queries f).
Proof.
  intros Hses0 Hn Hses.
  assert (books t0) as Hb0 by (by eapply session_books; [|exact Hses0|apply new_books]).
  assert (books (snapshot_for_state n t0)) as Hb1 by (by apply snapshot_for_state_books).
  assert (since n asked t) as [_ Hasked].
  { clear Hses0. induction Hses as [|events asked t c t' Hses IH Hc Hr]; [by apply since_snapshot|].
    eapply since_call; [| exact IH | exact Hc | exact Hr]. by eapply session_books. }
  split.
  - unfold frame_from. cbn [base].
    destruct (get_snapshot n (snapshots t)) as [s|] eqn:Hs; [|done]. cbn [mbind option_bind b_query_count].
    unfold slice_from. destruct (decide (Nat.min _ _ <= _)%nat); [|done]. intros [= <-]. cbn.
    unfold get_snapshot in Hs. destruct (find _ _) as [[m s']|] eqn:Hf; [|done]. cbn in Hs. injection Hs as ->.
    apply find_some in Hf as [Hin Hm]. cbn in Hm. apply Z.eqb_eq in Hm as ->.
    rewrite <- (Hasked s) by (by apply list_elem_of_In).
    destruct (Nat.le_gt_cases (query_count s) (length (pending_queries t))) as [Hle|Hgt].
    + by rewrite Nat.min_l.
    + rewrite Nat.min_r by lia. rewrite !drop_ge by lia. done.
  - unfold frame_from. cbn [base b_query_count]. unfold slice_from.
    destruct (decide (0 <= _)%nat); [|done]. intros [= <-]. cbn [queries]. rewrite drop_0.
    apply (pending_is_suffix (snapshot_for_state n t0) asked0 events); [done | done |].
    change (pending_queries (snapshot_for_state n t0)) with (pending_queries t0).
    apply (pending_is_suffix (new rows cols) [] events0); [done | apply new_books | by exists []].
Qed.

End Queries.

(** ** Witness, on the emulator of one line *)
#[local] Existing Instance OneLine.emulator.
#[local] Existing Instance OneLine.emulator_laws.
#[local] Existing Instance Rfc4648.engine.

Definition calls_before : list call := [Process (text "one" ++ [z2b 0x0a]); AddQuery (text "a")].
Definition calls_after : list call := [AddQuery (text "b"); Process (text "two" ++ [z2b 0x0a])].

Lemma frames_hand_over_each_query_once_witness :
  exists t f, frame_from (Some 1) t = Ok (Some f) /\ zlen (pending_queries t) = 2 /\
    queries f = [mkQuery 2 (text "b")].
Proof.
  assert (along numbered_upwards calls_before (new 1 80)) as Ha by (unfold calls_before; run_along).
  destruct (run_calls calls_before (new 1 80) [] []) as [[[events0 asked0] t0]|] eqn:Hr; [|by vm_compute in Hr].
  pose proof (run_calls_session _ _ _ _ _ _ _ (session_start _ _) Ha Hr) as Hs0. cbn in Hs0.
  vm_compute in Hr. injection Hr as <- <- <-. clear Ha.
  match type of Hs0 with session _ _ _ _ ?t => set (t0 := t) in * end.
  assert (along numbered_upwards calls_after (snapshot_for_state 1 t0)) as Ha by (unfold calls_after; run_along).
  destruct (run_calls calls_after (snapshot_for_state 1 t0) [] []) as [[[events asked] t]|] eqn:Hr; [|by vm_compute in Hr].
  pose proof (run_calls_session _ _ _ _ _ _ _ (session_start _ _) Ha Hr) as Hs. cbn in Hs.
  vm_compute in Hr. injection Hr as <- <- <-.
  assert (numbered_upwards (Snapshot 1) t0) as Hn by (split; [reflexivity | constructor]).
  match type of Hs with session _ _ _ _ ?u => set (t := u) in * end.
  destruct (frame_from (Some 1) t) as [[f|]|e|] eqn:Hf; [|by vm_compute in Hf..].
  exists t, f. split_and!; [exact Hf | vm_compute; reflexivity |].
  exact (proj1 (frames_hand_over_each_query_once 1 80 _ _ t0 1 _ _ _ _ Hs0 Hn Hs) Hf).
Defined.

End TerminalQueries.
