(* ===== verification/TerminalScanners.v ===== *)
(** * What the server picks out of the program's output

    Proves of the two scanners of [TerminalState] what they read: requests to
    clear the history among printable text, and window titles. *)
From Stdlib Require Import ZArith Lia List Bool.
From stdpp Require Import base numbers list strings.
From S2P Require Import Prelude Text Utf8 TerminalState.
Import Decimal Utf8.
Open Scope Z_scope.
Open Scope zetta_scope.

(** ** Requests to clear the history *)
Module ClearRequests.
Import ClearDetector.

(** Between sequences. *)
Definition at_rest (d : ScrollbackClearDetector) : Prop :=
  state d = Ground /\ c1_utf8_prefix d = false /\ length (parameters d) = 100%nat.

Lemma feed_from_app a b d n :
  foldl feed_byte (d, n) (a ++ b) = foldl feed_byte (foldl feed_byte (d, n) a) b.
Proof. apply foldl_app. Qed.

(** *** Printable text *)

(** A byte of a printable character at rest, [0xc2] apart. *)
Lemma printable_byte b d n :
  at_rest d -> 0x20 <= b2z b -> b2z b <> 0xc2 -> feed_byte (d, n) b = (d, n).
Proof.
  intros (Hs & Hc & Hl) Hb Hne. unfold feed_byte. rewrite Hc. cbn [andb].
  rewrite (proj2 (Z.eqb_neq _ _)) by done.
  assert (d <| c1_utf8_prefix := false |> = d) as -> by (destruct d; cbn in *; by subst).
  destruct (Z.leb_spec 0x80 (b2z b)); [done|]. unfold count_step, step. rewrite Hs.
  by rewrite !(proj2 (Z.eqb_neq _ _)) by lia.
Qed.

(** [0xc2] and the byte after it, when it is no C1 control. *)
Lemma prefixed_byte b d n :
  at_rest d -> 0xa0 <= b2z b <= 0xbf -> foldl feed_byte (d, n) [z2b 0xc2; b] = (d, n).
Proof.
  intros (Hs & Hc & Hl) Hb. cbn [foldl].
  assert (feed_byte (d, n) (z2b 0xc2) = (d <| c1_utf8_prefix := true |>, n)) as ->.
  { unfold feed_byte. rewrite Hc. destruct d; done. }
  unfold feed_byte. change (c1_utf8_prefix (d <| c1_utf8_prefix := true |>)) with true. cbn [andb].
  rewrite within_false by lia. rewrite (proj2 (Z.eqb_neq _ _)), (proj2 (Z.leb_le _ _)) by lia.
  destruct d; cbn in *; by subst.
Qed.

Lemma printable_char c d n :
  at_rest d -> scalar c -> is_control c = false -> foldl feed_byte (d, n) (encode_utf8 c) = (d, n).
Proof.
  intros Hd Hc Hctl. unfold is_control in Hctl. apply orb_false_iff in Hctl as [H1 H2].
  destruct (within_spec 0 0x1f c); [done|]. destruct (within_spec 0x7f 0x9f c); [done|].
  assert (0 <= c < 0x110000) by (unfold scalar in Hc; lia).
  unfold encode_utf8. destruct (Z.ltb_spec c 0x80); [|destruct (Z.ltb_spec c 0x800); [|destruct (Z.ltb_spec c 0x10000)]].
  - cbn [foldl]. apply printable_byte; rewrite ?b2z_small; done || lia.
  - assert (2 <= c / 64 < 32) by (Z.to_euclidean_division_equations; lia).
    pose proof (Z.mod_pos_bound c 64 ltac:(lia)).
    destruct (Z.eq_dec (c / 64) 2) as [He|Hne].
    + rewrite He. apply prefixed_byte; [done|]. rewrite b2z_small by lia. pose proof (Z.div_mod c 64 ltac:(lia)). lia.
    + cbn [foldl]. rewrite !printable_byte by (rewrite ?b2z_small; done || lia). done.
  - assert (0 <= c / 4096 < 16) by (Z.to_euclidean_division_equations; lia).
    pose proof (Z.mod_pos_bound c 64 ltac:(lia)). pose proof (Z.mod_pos_bound (c / 64) 64 ltac:(lia)).
    cbn [foldl]. rewrite !printable_byte by (rewrite ?b2z_small; done || lia). done.
  - assert (0 <= c / 262144 < 5) by (Z.to_euclidean_division_equations; lia).
    pose proof (Z.mod_pos_bound c 64 ltac:(lia)). pose proof (Z.mod_pos_bound (c / 64) 64 ltac:(lia)).
    pose proof (Z.mod_pos_bound (c / 4096) 64 ltac:(lia)).
    cbn [foldl]. rewrite !printable_byte by (rewrite ?b2z_small; done || lia). done.
Qed.

Definition printable (cs : list Z) : Prop := Forall (fun c => scalar c /\ is_control c = false) cs.

Lemma printable_text cs d n : at_rest d -> printable cs -> foldl feed_byte (d, n) (flat_map encode_utf8 cs) = (d, n).
Proof.
  intros Hd. induction 1 as [|c cs [Hc Hctl] _ IH]; [done|]. cbn [flat_map].
  rewrite feed_from_app, printable_char by done. done.
Qed.

(** *** A control sequence *)

(** How a control sequence starts: [ESC \[], or the C1 control in UTF-8. *)
Definition introducer (l : bytes) : Prop := l = [z2b 0x1b; z2b 0x5b] \/ l = [z2b 0xc2; z2b 0x9b].
Definition parameter (b : byte) : Prop := 0x20 <= b2z b <= 0x3f.

Lemma introduced l d n :
  at_rest d -> introducer l -> foldl feed_byte (d, n) l = (start_csi d, n).
Proof.
  intros (Hs & Hc & Hl) [-> | ->]; destruct d as [s p k o c]; cbn in Hs, Hc; subst; done.
Qed.

Lemma collect_parameters ps d n :
  state d = Csi -> c1_utf8_prefix d = false -> Forall parameter ps ->
  (parameter_len d + length ps <= length (parameters d))%nat ->
  foldl feed_byte (d, n) ps =
    (d <| parameters := take (parameter_len d) (parameters d) ++ ps ++ drop (parameter_len d + length ps) (parameters d) |>
       <| parameter_len := (parameter_len d + length ps)%nat |>, n).
Proof.
  intros Hs Hc Hps. revert d Hs Hc. induction Hps as [|b ps Hb _ IH]; intros d Hs Hc Hl.
  { cbn. rewrite Nat.add_0_r, take_drop. by destruct d. }
  cbn [length foldl] in *. unfold parameter in Hb.
  assert (feed_byte (d, n) b = (d <| parameters := <[parameter_len d := b]> (parameters d) |>
    <| parameter_len := S (parameter_len d) |>, n)) as ->.
  { unfold feed_byte. rewrite Hc. cbn [andb]. rewrite (proj2 (Z.eqb_neq _ _)), (proj2 (Z.leb_gt _ _)) by lia.
    assert (d <| c1_utf8_prefix := false |> = d) as -> by (destruct d; cbn in *; by subst).
    unfold count_step, step. rewrite Hs, !(proj2 (Z.eqb_neq _ _)) by lia. cbn [orb].
    rewrite within_true by lia. by rewrite (proj2 (Nat.ltb_lt _ _)) by lia. }
  rewrite IH; [| done | done | cbn; rewrite length_insert; lia]. cbn.
  assert (take (S (parameter_len d)) (<[parameter_len d := b]> (parameters d)) = take (parameter_len d) (parameters d) ++ [b]) as ->.
  { rewrite (take_S_r _ _ b) by (apply list_lookup_insert_eq; lia). by rewrite take_insert_ge by lia. }
  rewrite drop_insert_lt by lia. rewrite <- app_assoc. cbn [app].
  replace (S (parameter_len d + length ps)) with (parameter_len d + S (length ps))%nat by lia. by destruct d.
Qed.

(** *** The first parameter *)

(** A field of zeros and a three, which another parameter may follow. *)
Definition names_three (ps : bytes) : Prop :=
  exists k rest, ps = replicate k (z2b 0x30) ++ z2b 0x33 :: rest /\ (rest = [] \/ head rest = Some (z2b 0x3b)).

Lemma digits_abandoned l : foldl parameter_digit None l = None.
Proof. by induction l. Qed.

Lemma digits_reach_three l v :
  0 <= v -> foldl parameter_digit (Some v) l = Some 3 ->
  (v = 3 /\ l = []) \/ (v = 0 /\ exists k, l = replicate k (z2b 0x30) ++ [z2b 0x33]).
Proof.
  revert v. induction l as [|b l IH]; intros v Hv; cbn [foldl].
  { intros [= ->]. by left. }
  unfold parameter_digit at 2. cbn [mbind option_bind].
  destruct (is_ascii_digit b) eqn:Hd; cbn [negb]; [|by rewrite digits_abandoned].
  unfold is_ascii_digit in Hd. apply andb_true_iff in Hd as [Hlo%Z.leb_le Hhi%Z.leb_le].
  destruct (_ <=? _); [|by rewrite digits_abandoned]. destruct (_ <=? _); [|by rewrite digits_abandoned].
  intros Hf. right. apply IH in Hf as [[H3 ->] | [H0 [k ->]]]; [ | | lia].
  - assert (v = 0 /\ b2z b = 0x33) as [-> Hb] by lia. split; [done|]. exists O.
    by rewrite <- (z2b_b2z b), Hb.
  - assert (v = 0 /\ b2z b = 0x30) as [-> Hb] by lia. split; [done|]. exists (S k).
    cbn [replicate app]. by rewrite <- Hb, z2b_b2z.
Qed.

Lemma digits_of_three k : foldl parameter_digit (Some 0) (replicate k (z2b 0x30) ++ [z2b 0x33]) = Some 3.
Proof. induction k as [|k IH]; [done|]. cbn [replicate app foldl]. exact IH. Qed.

Lemma first_field_spec ps :
  exists rest, ps = first_field ps ++ rest /\ (rest = [] \/ head rest = Some (z2b 0x3b)).
Proof.
  induction ps as [|b ps (rest & Hps & Hrest)]; [by exists []; split; [|left]|]. cbn [first_field].
  destruct (Z.eqb_spec (b2z b) 0x3b) as [Hb|Hb].
  - exists (b :: ps). split; [done|]. right. cbn [head]. by rewrite <- Hb, z2b_b2z.
  - exists rest. split; [|done]. cbn [app]. by rewrite <- Hps.
Qed.

Lemma first_field_three k rest :
  rest = [] \/ head rest = Some (z2b 0x3b) ->
  first_field (replicate k (z2b 0x30) ++ z2b 0x33 :: rest) = replicate k (z2b 0x30) ++ [z2b 0x33].
Proof.
  intros Hrest. induction k as [|k IH]; cbn [replicate app first_field].
  - change (b2z (z2b 0x33) =? 0x3b) with false. cbn iota. f_equal.
    destruct rest as [|b rest]; [done|]. destruct Hrest as [|[= ->]]; done.
  - change (b2z (z2b 0x30) =? 0x3b) with false. cbn iota. by rewrite IH.
Qed.

Lemma first_parameter_names_three ps : first_parameter_is_three ps = true <-> names_three ps.
Proof.
  unfold first_parameter_is_three. cbv zeta. split.
  - destruct (bool_decide _); [done|]. destruct (foldl _ _ _) as [v|] eqn:Hf; [|done].
    intros ->%Z.eqb_eq. apply digits_reach_three in Hf as [[? _] | [_ [k Hk]]]; [done| |done].
    destruct (first_field_spec ps) as (rest & Hps & Hrest). exists k, rest. split; [|done].
    rewrite Hps, Hk, <- app_assoc. done.
  - intros (k & rest & -> & Hrest). rewrite first_field_three, digits_of_three by done.
    rewrite bool_decide_eq_false_2; [done|]. by destruct k.
Qed.

(** In printable text, in either spelling, and with whatever came before: a
    sequence that erases the display is counted once when its first parameter
    is three, and not otherwise, and the scanner is ready for the next. *)
Theorem clear_requests_are_counted_in_text d before intro ps :
  at_rest d -> printable before -> introducer intro -> Forall parameter ps -> (length ps <= 100)%nat ->
  exists d' n, at_rest d' /\
    feed (flat_map encode_utf8 before ++ intro ++ ps ++ [z2b 0x4a]) d = (d', n) /\
    (names_three ps /\ n = 1 \/ ~ names_three ps /\ n = 0).
Proof.
  intros Hd Hb Hi Hps Hl. unfold feed. rewrite feed_from_app, printable_text by done.
  rewrite feed_from_app, introduced by done. pose proof Hd as (Hs & Hc & Hlen).
  rewrite feed_from_app, collect_parameters; [| done | done | done | cbn; lia].
  set (d1 := start_csi d <| parameters := _ |> <| parameter_len := _ |>).
  exists (d1 <| state := Ground |> <| parameter_len := 0%nat |> <| overflowed := false |>),
    (if first_parameter_is_three ps then 1 else 0). split; [|split].
  3: { rewrite <- first_parameter_names_three. destruct (first_parameter_is_three ps); [by left | right; by split]. }
  { split_and!; [done | done |]. change (length (ps ++ drop (length ps) (parameters d)) = 100%nat). rewrite length_app, length_drop. lia. }
  cbn [foldl]. unfold feed_byte. change (c1_utf8_prefix d1) with (c1_utf8_prefix d). rewrite Hc. cbn [andb].
  change (b2z (z2b 0x4a)) with 0x4a. cbn iota.
  change (0x4a =? 0xc2) with false. change (0x80 <=? 0x4a) with false. cbn iota.
  unfold count_step, step. change (state (d1 <| c1_utf8_prefix := false |>)) with Csi. cbn iota.
  change (b2z (z2b 0x4a)) with 0x4a. change (0x4a =? 0x1b) with false.
  change ((0x4a =? 0x18) || (0x4a =? 0x1a)) with false. change (within 0x20 0x3f 0x4a) with false.
  change (within 0x40 0x7e 0x4a) with true. change (0x4a =? 0x4a) with true. cbn iota.
  change (overflowed (d1 <| c1_utf8_prefix := false |>)) with false. cbn [negb andb].
  assert (take (parameter_len (d1 <| c1_utf8_prefix := false |>)) (parameters (d1 <| c1_utf8_prefix := false |>)) = ps) as ->.
  { change (take (length ps) (ps ++ drop (length ps) (parameters d)) = ps). apply take_app_length. }
  assert (d1 <| c1_utf8_prefix := false |> = d1) as ->.
  { subst d1. destruct d; cbn in *. by subst. }
  by destruct (first_parameter_is_three ps).
Qed.

Lemma clear_requests_are_counted_in_text_witness :
  (feed (flat_map encode_utf8 [0x276f; 0x20] ++ [z2b 0x1b; z2b 0x5b] ++ text "03;1" ++ [z2b 0x4a]) default_detector).2 = 1.
Proof.
  destruct (clear_requests_are_counted_in_text default_detector [0x276f; 0x20] [z2b 0x1b; z2b 0x5b] (text "03;1"))
    as (d' & n & _ & -> & Hn); [| | by left | | |].
  - by split.
  - repeat constructor; unfold scalar; lia.
  - repeat constructor; done.
  - cbn. lia.
  - destruct Hn as [[_ ->] | [Hn _]]; [reflexivity|]. destruct Hn. by exists 1%nat, (text ";1"); split; [|right].
Defined.

End ClearRequests.

(** ** Titles *)
Module Titles.
Import TitleScanner.

Definition at_rest (s : TitleScanner) : Prop := state s = Ground.

(** The scanner keeps a byte as the character of its number, which is the byte
    itself for ASCII. *)
Definition title_byte (b : byte) : Prop := 0x20 <= b2z b <= 0x7e.

Lemma title_characters l s :
  state s = Text -> Forall title_byte l -> zlen (pending s) + zlen l <= MAX_TITLE_BYTES ->
  feed l s = s <| pending := pending s ++ l |>.
Proof.
  intros Hs Hl. revert s Hs. induction Hl as [|b l Hb _ IH]; intros s Hs Hlen.
  { cbn. rewrite app_nil_r. by destruct s. }
  unfold feed in *. cbn [foldl]. unfold title_byte in Hb.
  assert (zlen (b :: l) = zlen l + 1) as Hz by (unfold zlen; cbn [length]; lia). rewrite Hz in Hlen.
  pose proof (zlen_nonneg l).
  assert (step (b2z b) s = s <| pending := pending s ++ [b] |>) as ->.
  { unfold step. rewrite Hs. unfold step_text. rewrite !(proj2 (Z.eqb_neq _ _)) by lia. cbn [orb].
    rewrite Hs, bool_decide_eq_true_2 by done. rewrite (proj2 (Z.ltb_ge _ _)), (proj2 (Z.leb_gt _ _)) by lia. cbn [orb].
    assert (encode_utf8 (b2z b) = [b]) as ->; [|done].
    unfold encode_utf8. rewrite (proj2 (Z.ltb_lt _ _)) by lia. by rewrite z2b_b2z. }
  rewrite IH; [| done | cbn; rewrite zlen_app; change (zlen [b]) with 1; lia].
  cbn. rewrite <- app_assoc. by destruct s.
Qed.

(** A title of printable ASCII, set by OSC 0 or OSC 2 and ended by BEL or ST, is
    the scanner's title. *)
Theorem titles_are_read s command l terminator :
  at_rest s -> command = z2b 0x30 \/ command = z2b 0x32 ->
  terminator = [z2b 7] \/ terminator = [z2b 0x1b; z2b 0x5c] ->
  Forall title_byte l -> zlen l <= MAX_TITLE_BYTES ->
  let s' := feed ([z2b 0x1b; z2b 0x5d; command; z2b 0x3b] ++ l ++ terminator) s in
  at_rest s' /\ title s' = Some l.
Proof.
  intros Hs Hc Ht Hl Hlen s'. unfold at_rest in Hs.
  assert (exists c, feed [z2b 0x1b; z2b 0x5d; command; z2b 0x3b] s = mkScanner Text c [] (title s)) as [c Hstart].
  { destruct s as [st cmd p t]. cbn in Hs. subst st. destruct Hc as [-> | ->]; by eexists. }
  subst s'. unfold feed in *. rewrite !foldl_app, Hstart.
  pose proof (title_characters l (mkScanner Text c [] (title s)) eq_refl Hl) as Hchars. unfold feed in Hchars.
  rewrite Hchars by (change (pending _) with (@nil byte); change (zlen (@nil byte)) with 0; lia). by destruct Ht as [-> | ->].
Qed.

Lemma titles_are_read_witness :
  title (feed (z2b 0x1b :: text "]2;hi" ++ [z2b 7]) default_scanner) = Some (text "hi").
Proof.
  refine (proj2 (titles_are_read default_scanner (z2b 0x32) (text "hi") [z2b 7] _ _ _ _ _));
    [done | by right | by left | by repeat constructor | done].
Defined.

(** An icon name, or any other sequence, ended by ST replaces the title with
    nothing: the terminator's state does not tell what was skipped. *)
Lemma skipped_sequence_clears_the_title :
  let named := feed (z2b 0x1b :: text "]2;shell" ++ [z2b 7]) default_scanner in
  title named = Some (text "shell") /\
  title (feed (z2b 0x1b :: text "]1;icon" ++ [z2b 0x1b; z2b 0x5c]) named) = Some [].
Proof. by vm_compute. Qed.

(** A number past 65535 wraps in a release build, and so names another command. *)
Lemma large_command_is_a_title : title (feed (z2b 0x1b :: text "]65538;x" ++ [z2b 7]) default_scanner) = Some (text "x").
Proof. by vm_compute. Qed.

(** A character past ASCII is kept as one character per byte of its encoding. *)
Lemma title_is_not_decoded :
  title (feed (z2b 0x1b :: text "]2;" ++ encode_utf8 0xe9 ++ [z2b 7]) default_scanner)
    = Some (encode_utf8 0xc3 ++ encode_utf8 0xa9).
Proof. by vm_compute. Qed.

End Titles.
