(* ===== verification/ScrollbackWire.v ===== *)
(** * From the server's history to the client's

    Composes [TerminalState] with [Scrollback]: what the server writes ahead of
    a screen diff is read back by the client's parser as the rows, the count and
    the generation they stand for. *)
From Stdlib Require Import ZArith Lia List Bool Sorted.
From stdpp Require Import base numbers list strings.
From S2P Require Import Prelude Text Utf8 Sanitize Scrollback TerminalState TerminalBooks.
Import Decimal.
Open Scope Z_scope.
Open Scope zetta_scope.

Module ScrollbackWire.
Import Scrollback.

(** ** A sequence through the parser *)

(** A byte that neither ends nor cancels a sequence. *)
Definition plain (b : byte) : Prop := b2z b <> 7 /\ b2z b <> 0x1b /\ b2z b <> 0x18 /\ b2z b <> 0x1a.

Section Parser.
Context {Hb64 : Base64}.

Ltac plain_tests H :=
  destruct H as (? & ? & ? & ?); unfold is_cancel; rewrite ?(proj2 (Z.eqb_neq _ _)) by done; cbn [orb].

Lemma feed_two s a b : feed s (a ++ b) = feed (feed s a) b.
Proof. apply foldl_app. Qed.
Lemma feed_cons s a b : feed s (a :: b) = feed (feed_byte s a) b.
Proof. done. Qed.

(** The fixed buffer takes what fits. *)
Lemma feed_osc t s :
  parser s = Osc -> (len s + length t <= length (buffer s))%nat -> Forall plain t ->
  feed s t = s <| buffer := take (len s) (buffer s) ++ t ++ drop (len s + length t) (buffer s) |>
               <| len := (len s + length t)%nat |> <| parser := Osc |>.
Proof.
  revert s. induction t as [|b t IH]; intros s Hp Hl Ht.
  { cbn. rewrite Nat.add_0_r, take_drop. destruct s; cbn in *; by subst. }
  apply Forall_cons in Ht as [Hb Ht]. cbn [length] in Hl. rewrite feed_cons.
  assert (feed_byte s b = s <| buffer := <[len s := b]> (buffer s) |> <| len := S (len s) |> <| parser := Osc |>) as ->.
  { unfold feed_byte. rewrite Hp. plain_tests Hb. by rewrite (proj2 (Nat.ltb_lt _ _)) by lia. }
  rewrite IH; [| done | cbn; rewrite length_insert; lia | done]. cbn.
  assert (take (S (len s)) (<[len s := b]> (buffer s)) = take (len s) (buffer s) ++ [b]) as ->.
  { rewrite (take_S_r _ _ b) by (apply list_lookup_insert_eq; lia). by rewrite take_insert_ge by lia. }
  rewrite drop_insert_lt by lia. rewrite <- app_assoc. cbn [app].
  replace (S (len s + length t)) with (len s + S (length t))%nat by lia. destruct s; done.
Qed.

(** The rest of a long one is the payload. *)
Lemma feed_payload t s :
  parser s = OscPayload -> zlen (payload s) + zlen t <= MAX_PAYLOAD -> Forall plain t ->
  feed s t = s <| payload := payload s ++ t |> <| parser := OscPayload |>.
Proof.
  revert s. induction t as [|b t IH]; intros s Hp Hl Ht.
  { cbn. rewrite app_nil_r. destruct s; cbn in *; by subst. }
  apply Forall_cons in Ht as [Hb Ht]. rewrite feed_cons.
  assert (zlen (b :: t) = 1 + zlen t) as Hz by (unfold zlen; cbn [length]; lia). rewrite Hz in Hl.
  pose proof (zlen_nonneg t).
  assert (feed_byte s b = s <| payload := payload s ++ [b] |> <| parser := OscPayload |>) as ->.
  { unfold feed_byte. rewrite Hp. plain_tests Hb. by rewrite (proj2 (Z.ltb_lt _ _)) by lia. }
  rewrite IH; [| done | cbn; rewrite zlen_app; change (zlen [b]) with 1; lia | done]. cbn.
  rewrite <- app_assoc. destruct s; done.
Qed.

(** A whole sequence ends in [finish], with what was read of it. *)
Definition read_sequence (t : bytes) (s : ScrollbackState) : ScrollbackState :=
  s <| buffer := take MAX_MARKER t ++ drop (length t) (buffer s) |>
    <| len := Nat.min (length t) MAX_MARKER |> <| payload := drop MAX_MARKER t |>.

Lemma finish_parser s p q : finish (s <| parser := p |>) <| parser := q |> = finish s <| parser := q |>.
Proof.
  unfold finish, finish_rows. cbn [buffer len payload set_field].
  repeat match goal with
  | |- context [match ?x with _ => _ end] => destruct x eqn:?; cbn [buffer len payload set_field]
  end; done.
Qed.

Lemma feed_sequence t s :
  parser s = Ground -> length (buffer s) = MAX_MARKER -> Forall plain t ->
  (length t <= MAX_MARKER)%nat \/
    (starts_with ROWS_PREFIX (take MAX_MARKER t) = true /\ zlen (drop MAX_MARKER t) <= MAX_PAYLOAD) ->
  feed s (z2b 0x1b :: z2b 0x5d :: t ++ [z2b 7]) = finish (read_sequence t s) <| parser := Ground |>.
Proof.
  intros Hp Hbuf Ht Hlen. rewrite !feed_cons.
  assert (feed_byte (feed_byte s (z2b 0x1b)) (z2b 0x5d) = s <| len := 0%nat |> <| payload := [] |> <| parser := Osc |>) as ->.
  { unfold feed_byte at 2. rewrite Hp. destruct s; done. }
  set (s0 := s <| len := _ |> <| payload := _ |> <| parser := _ |>). rewrite feed_two.
  assert (exists p, feed s0 t = read_sequence t s <| parser := p |> /\ (p = Osc \/ p = OscPayload)) as (p & -> & Hpp).
  { destruct (Nat.le_gt_cases (length t) MAX_MARKER) as [Hle|Hgt].
    - exists Osc. split; [|by left]. rewrite feed_osc by (try done; change (len s0) with 0%nat; change (buffer s0) with (buffer s); lia).
      change (len s0) with 0%nat. change (buffer s0) with (buffer s). cbn [take app Nat.add].
      unfold read_sequence. rewrite (take_ge t), (drop_ge t), Nat.min_l by lia. destruct s; done.
    - destruct Hlen as [?|[Hpre Hpay]]; [lia|]. exists OscPayload. split; [|by right].
      rewrite <- (take_drop MAX_MARKER t) at 1. rewrite feed_two.
      assert (length (take MAX_MARKER t) = MAX_MARKER) as Hlt by (rewrite length_take; lia).
      apply (Forall_take _ MAX_MARKER) in Ht as Ht1. apply (Forall_drop _ MAX_MARKER) in Ht as Ht2.
      rewrite (feed_osc (take MAX_MARKER t) s0) by (try done; change (len s0) with 0%nat; change (buffer s0) with (buffer s); lia).
      change (len s0) with 0%nat. change (buffer s0) with (buffer s). cbn [take app Nat.add]. rewrite Hlt.
      destruct (drop MAX_MARKER t) as [|b rest] eqn:Hd.
      { apply (f_equal length) in Hd. rewrite length_drop in Hd. cbn [length] in Hd. lia. }
      rewrite feed_cons. apply Forall_cons in Ht2 as [Hb Ht2].
      match goal with |- feed (feed_byte ?x b) rest = _ => set (s1 := x) end.
      assert (buffer s1 = take MAX_MARKER t) as Hb1.
      { subst s1 s0. cbn. rewrite (drop_ge (buffer s)) by (rewrite Hbuf; apply Nat.le_refl). by rewrite app_nil_r. }
      assert (feed_byte s1 b = s1 <| payload := [b] |> <| parser := OscPayload |>) as ->.
      { unfold feed_byte. change (parser s1) with Osc. cbn iota. plain_tests Hb. rewrite Hb1.
        change (len s1) with MAX_MARKER. rewrite Hlt, Nat.ltb_irrefl, Hpre. done. }
      rewrite feed_payload; [| done | | done].
      2: { cbn [payload set_field]. assert (zlen (b :: rest) = zlen [b] + zlen rest) as <- by (by rewrite <- zlen_app). lia. }
      cbn. unfold read_sequence. rewrite Nat.min_r by lia. rewrite Hd, (drop_ge (buffer s) (length t)) by lia.
      subst s1 s0. rewrite app_nil_r. cbn. rewrite (drop_ge (buffer s)) by (rewrite Hbuf; apply Nat.le_refl). rewrite app_nil_r. destruct s; done. }
  cbn [feed foldl]. unfold feed_byte. destruct Hpp as [-> | ->]; cbn; apply finish_parser.
Qed.

(** *** What a finished sequence says *)

Lemma strip_prefix_app p l : strip_prefix p (p ++ l) = Some l.
Proof. induction p as [|a p IH]; [done|]. cbn. by rewrite decide_True. Qed.
Lemma starts_with_app p l : starts_with p (p ++ l) = true.
Proof. unfold starts_with. rewrite strip_prefix_app. by apply bool_decide_eq_true. Qed.

Lemma read_marker t s :
  take (len (read_sequence t s)) (buffer (read_sequence t s)) = take MAX_MARKER t.
Proof.
  change (take (Nat.min (length t) MAX_MARKER) (take MAX_MARKER t ++ drop (length t) (buffer s)) = take MAX_MARKER t).
  rewrite take_app_le by (rewrite length_take; lia). rewrite take_take.
  destruct (Nat.le_gt_cases (length t) MAX_MARKER); [rewrite !take_ge by lia; done|].
  f_equal. lia.
Qed.

Lemma position_first (f : byte -> bool) d c r :
  Forall (fun b => f b = false) d -> f c = true -> position f (d ++ c :: r) = Some (length d).
Proof. induction 1 as [|b d Hb _ IH]; intros Hc; cbn; [by rewrite Hc|]. rewrite Hb, IH by done. done. Qed.

Lemma digits_no_semicolon n : Forall (fun b => (b2z b =? 0x3b) = false) (decimal n).
Proof.
  eapply Forall_impl; [apply decimal_digits|]. cbn. unfold is_ascii_digit. intros b Hb.
  apply andb_true_iff in Hb as [? ?%Z.leb_le]. apply Z.eqb_neq. lia.
Qed.
Lemma decimal_plain n : Forall plain (decimal n).
Proof.
  eapply Forall_impl; [apply decimal_digits|]. cbn. unfold is_ascii_digit, plain. intros b Hb.
  apply andb_true_iff in Hb as [?%Z.leb_le ?%Z.leb_le]. lia.
Qed.

(** The text of a rows marker. *)
Definition rows_text (first : Z) (encoded : bytes) : bytes := ROWS_PREFIX ++ decimal first ++ [z2b 0x3b] ++ encoded.

Lemma rows_text_take first encoded :
  take MAX_MARKER (rows_text first encoded) =
    ROWS_PREFIX ++ decimal first ++ z2b 0x3b :: take (MAX_MARKER - (length ROWS_PREFIX + length (decimal first) + 1)) encoded.
Proof.
  pose proof (decimal_length first). unfold rows_text.
  assert (MAX_MARKER = length ROWS_PREFIX + (length (decimal first) +
    (1 + (MAX_MARKER - (length ROWS_PREFIX + length (decimal first) + 1)))))%nat as Hm
    by (change MAX_MARKER with 46%nat; change (length ROWS_PREFIX) with 20%nat; lia).
  rewrite Hm at 1. by rewrite take_app_add, take_app_add.
Qed.
Lemma rows_text_drop first encoded :
  drop MAX_MARKER (rows_text first encoded) =
    drop (MAX_MARKER - (length ROWS_PREFIX + length (decimal first) + 1)) encoded.
Proof.
  pose proof (decimal_length first). unfold rows_text.
  assert (MAX_MARKER = length ROWS_PREFIX + (length (decimal first) +
    (1 + (MAX_MARKER - (length ROWS_PREFIX + length (decimal first) + 1)))))%nat as Hm
    by (change MAX_MARKER with 46%nat; change (length ROWS_PREFIX) with 20%nat; lia).
  rewrite Hm at 1. by rewrite drop_app_add, drop_app_add.
Qed.

(** A rows marker, finished. *)
Lemma finish_rows_text first encoded carried s :
  0 <= first <= u64_max -> decode_rows encoded = Some carried ->
  finish (read_sequence (rows_text first encoded) s) =
    read_sequence (rows_text first encoded) s <| payload := [] |>
      <| evicted := saturating_add_u64 first (zlen carried) |> <| rows_first := first |>
      <| rows := carried |> <| active := true |>.
Proof.
  intros Hf Hd. unfold finish. rewrite read_marker, rows_text_take.
  rewrite starts_with_app. change (strip_prefix PREFIX (ROWS_PREFIX ++ ?l)) with (@None bytes). cbn iota.
  unfold finish_rows. rewrite read_marker, rows_text_take, drop_app_length.
  rewrite position_first by (apply digits_no_semicolon || done).
  rewrite take_app_length, parse_decimal by done.
  replace (S (length (decimal first))) with (length (decimal first) + 1)%nat by lia.
  rewrite drop_app_add. change (payload (read_sequence _ s)) with (drop MAX_MARKER (rows_text first encoded)).
  rewrite rows_text_drop. change (drop 1 (?a :: ?l)) with l. rewrite take_drop, Hd. done.
Qed.

(** A generation marker, finished. *)
Definition clear_text (generation : Z) : bytes := PREFIX ++ decimal generation.

Lemma finish_clear_text g s :
  0 <= g <= u64_max ->
  finish (read_sequence (clear_text g) s) = read_sequence (clear_text g) s <| payload := [] |> <| generation := g |>.
Proof.
  intros Hg. pose proof (decimal_length g). unfold finish. rewrite read_marker.
  assert (take MAX_MARKER (clear_text g) = clear_text g) as ->.
  { apply take_ge. unfold clear_text. rewrite length_app. unfold MAX_MARKER. lia. }
  unfold clear_text. change (starts_with ROWS_PREFIX (PREFIX ++ ?l)) with false. cbn iota.
  by rewrite strip_prefix_app, parse_decimal.
Qed.

(** *** Rows in their frames *)

(** A row as the client keeps it. *)
Definition received (r : TerminalState.PendingRow) : ScrollbackRow :=
  mkRow (Sanitize.sanitize_row (TerminalState.contents r)) (TerminalState.wrapped r).

Lemma split_at_checked_length a b : split_at_checked (a ++ b) (zlen a) = Some (a, b).
Proof.
  unfold split_at_checked. rewrite zlen_app. pose proof (zlen_nonneg b).
  rewrite (proj2 (Z.leb_le _ _)) by lia. unfold zlen. rewrite Nat2Z.id.
  by rewrite take_app_length, drop_app_length.
Qed.

Lemma decode_framed r rest acc :
  zlen (TerminalState.contents r) <= u32_max ->
  decode_row (TerminalState.frame_row r ++ rest) acc = Ok (rest, acc ++ [received r]).
Proof.
  intros Hr. unfold TerminalState.frame_row, TerminalState.u32_or_max. rewrite (proj2 (Z.leb_le _ _) Hr).
  set (flag := z2b _). set (lenb := be_bytes 4 _). cbn [app]. rewrite <- app_assoc.
  change (flag :: lenb ++ TerminalState.contents r ++ rest) with ((flag :: lenb) ++ TerminalState.contents r ++ rest).
  unfold decode_row.
  assert (ROW_HEADER = zlen (flag :: lenb)) as -> by (subst lenb; unfold zlen; cbn [length]; by rewrite length_be_bytes).
  rewrite split_at_checked_length. cbn [ok_or mbind result_bind drop]. rewrite drop_0.
  assert (from_be lenb = zlen (TerminalState.contents r)) as ->.
  { subst lenb. rewrite from_be_bytes. apply Z.mod_small. pose proof (zlen_nonneg (TerminalState.contents r)).
    unfold u32_max in Hr. lia. }
  rewrite split_at_checked_length. cbn. unfold received. subst flag. do 4 f_equal. by destruct (TerminalState.wrapped r).
Qed.

Lemma decode_frames rows acc :
  Forall (fun r => zlen (TerminalState.contents r) <= u32_max) rows ->
  while_data decode_row (flat_map TerminalState.frame_row rows) acc = Ok (acc ++ (received <$> rows)).
Proof.
  intros Hrows. revert acc. induction Hrows as [|r rows Hr _ IH]; intros acc; cbn [flat_map].
  { by rewrite app_nil_r. }
  rewrite (while_data_step decode_row decode_row_consumes _ _ (flat_map TerminalState.frame_row rows) (acc ++ [received r]));
    [| done | by apply decode_framed].
  rewrite IH, <- app_assoc. done.
Qed.

Context {Hlaws64 : Base64Laws}.

Lemma decode_rows_encoded rows :
  Forall (fun r => zlen (TerminalState.contents r) <= u32_max) rows ->
  decode_rows (encode (flat_map TerminalState.frame_row rows)) = Some (received <$> rows).
Proof. intros Hr. unfold decode_rows. rewrite decode_encode_64. cbn. by rewrite decode_frames. Qed.

Lemma encoded_plain l : Forall plain (encode l).
Proof.
  eapply Forall_impl; [apply encode_alphabet|]. cbn. intros b Hb.
  assert (forallb (fun b => negb ((b2z b =? 7) || (b2z b =? 0x1b) || (b2z b =? 0x18) || (b2z b =? 0x1a)))
            base64_alphabet = true) as Hall by (by vm_compute).
  rewrite forallb_forall in Hall. apply list_elem_of_In in Hb. specialize (Hall b Hb).
  rewrite negb_true_iff, !orb_false_iff, !Z.eqb_neq in Hall. unfold plain. tauto.
Qed.

Lemma frames_length rows : zlen (flat_map TerminalState.frame_row rows) = TerminalState.total_cost rows.
Proof.
  induction rows as [|r rows IH]; [done|]. cbn [flat_map]. rewrite zlen_app, IH, TerminalBooks.total_cost_cons.
  unfold TerminalState.frame_row, TerminalState.cost, TerminalState.SCROLLBACK_ROW_HEADER, zlen.
  cbn [length]. rewrite length_app, length_be_bytes. lia.
Qed.

(** The most bytes of rows a marker carries: what Mosh allows an instruction. *)
Definition MAX_CARRIED : Z := 4 * 1024 * 1024.

Lemma encoded_fits l : zlen l <= MAX_CARRIED -> zlen (encode l) <= MAX_PAYLOAD.
Proof.
  unfold zlen, MAX_CARRIED, MAX_PAYLOAD. rewrite encode_length. intros Hl.
  pose proof (Nat.div_mod (4 * length l + 2) 3 ltac:(lia)). lia.
Qed.

Lemma cost_bounds_row r rows : r ∈ rows -> zlen (TerminalState.contents r) <= TerminalState.total_cost rows.
Proof.
  induction 1 as [r rows|r r' rows Hr IH]; rewrite TerminalBooks.total_cost_cons; pose proof (TerminalBooks.total_cost_nonneg rows).
  - unfold TerminalState.cost, TerminalState.SCROLLBACK_ROW_HEADER. lia.
  - pose proof (TerminalBooks.cost_pos r'). lia.
Qed.

(** *** The markers *)

(** What the client keeps between sequences. *)
Definition at_rest (s : ScrollbackState) : Prop := parser s = Ground /\ length (buffer s) = MAX_MARKER.

Lemma rows_marker_read rows total s :
  at_rest s -> 0 <= total <= u64_max -> Forall (fun r => 0 <= TerminalState.index r <= u64_max) rows ->
  TerminalState.total_cost rows <= MAX_CARRIED ->
  let s' := feed s (TerminalState.scrollback_marker rows total) in
  let first := match rows with r :: _ => TerminalState.index r | [] => total end in
  at_rest s' /\ active s' = true /\ rows_first s' = first /\ Scrollback.rows s' = received <$> rows /\
  evicted s' = saturating_add_u64 first (zlen rows) /\ generation s' = generation s.
Proof.
  intros [Hp Hbuf] Ht Hi Hcost s' first.
  assert (0 <= first <= u64_max) as Hf by (subst first; destruct Hi; done).
  assert (Forall (fun r => zlen (TerminalState.contents r) <= u32_max) rows) as Hu.
  { apply Forall_forall. intros r Hr. pose proof (cost_bounds_row r rows Hr).
    unfold MAX_CARRIED, u32_max in *. lia. }
  set (encoded := encode (flat_map TerminalState.frame_row rows)).
  assert (TerminalState.scrollback_marker rows total =
    z2b 0x1b :: z2b 0x5d :: rows_text first encoded ++ [z2b 7]) as Hm.
  { unfold TerminalState.scrollback_marker, rows_text. fold first encoded.
    change (TerminalState.SCROLLBACK_MARKER_PREFIX) with (z2b 0x1b :: z2b 0x5d :: ROWS_PREFIX).
    cbn [app]. by rewrite <- !app_assoc. }
  assert (zlen encoded <= MAX_PAYLOAD) as Hpay by (apply encoded_fits; by rewrite frames_length).
  subst s'. rewrite Hm, feed_sequence; [| done | done | |].
  - rewrite (finish_rows_text first encoded (received <$> rows)); [| done | by apply decode_rows_encoded].
    unfold zlen. rewrite length_fmap. split_and!; [| done..]. split; [done|].
    change (length (take MAX_MARKER (rows_text first encoded) ++ drop (length (rows_text first encoded)) (buffer s)) = MAX_MARKER).
    rewrite length_app, length_take, length_drop. lia.
  - unfold rows_text. apply Forall_app; split; [|apply Forall_app; split; [apply decimal_plain|apply Forall_app; split]].
    + unfold plain. by repeat constructor.
    + unfold plain. by repeat constructor.
    + apply encoded_plain.
  - right. rewrite rows_text_take, rows_text_drop. rewrite starts_with_app. split; [done|].
    unfold zlen in *. rewrite length_drop. lia.
Qed.

Lemma clear_marker_read g s :
  at_rest s -> 0 <= g <= u64_max ->
  let s' := feed s (TerminalState.scrollback_clear_marker g) in
  at_rest s' /\ generation s' = g /\ active s' = active s /\ rows_first s' = rows_first s /\
  Scrollback.rows s' = Scrollback.rows s /\ evicted s' = evicted s.
Proof.
  intros [Hp Hbuf] Hg s'.
  assert (TerminalState.scrollback_clear_marker g = z2b 0x1b :: z2b 0x5d :: clear_text g ++ [z2b 7]) as Hm.
  { unfold TerminalState.scrollback_clear_marker, clear_text.
    change (TerminalState.CLEAR_SCROLLBACK_MARKER_PREFIX) with (z2b 0x1b :: z2b 0x5d :: PREFIX).
    cbn [app]. by rewrite <- !app_assoc. }
  assert (length (clear_text g) <= MAX_MARKER)%nat as Hl.
  { unfold clear_text. rewrite length_app. pose proof (decimal_length g). unfold MAX_MARKER. lia. }
  subst s'. rewrite Hm, feed_sequence; [| done | done | | by left].
  - rewrite finish_clear_text by done. split_and!; [|done..]. split; [done|].
    change (length (take MAX_MARKER (clear_text g) ++ drop (length (clear_text g)) (buffer s)) = MAX_MARKER).
    rewrite length_app, length_take, length_drop. lia.
  - unfold clear_text. apply Forall_app; split; [|apply decimal_plain]. unfold plain. by repeat constructor.
Qed.

(** *** Other sequences *)

Lemma feed_ignored t s : parser s = IgnoreOsc -> Forall plain t -> feed s t = s.
Proof.
  intros Hp. induction 1 as [|b t Hb _ IH]; [done|]. rewrite feed_cons.
  assert (feed_byte s b = s) as -> by (unfold feed_byte; rewrite Hp; plain_tests Hb; destruct s; cbn in *; by subst).
  done.
Qed.

(** One that is too long for the buffer and carries no rows is skipped. *)
Lemma long_sequence_ignored t s :
  parser s = Osc -> len s = 0%nat -> length (buffer s) = MAX_MARKER -> (MAX_MARKER < length t)%nat ->
  Forall plain t -> starts_with ROWS_PREFIX (take MAX_MARKER t) = false ->
  exists x, feed s t = x <| parser := IgnoreOsc |> /\
    (generation x = generation s /\ active x = active s /\ rows_first x = rows_first s /\
     Scrollback.rows x = Scrollback.rows s /\ evicted x = evicted s) /\ length (buffer x) = MAX_MARKER.
Proof.
  intros Hp Hz Hbuf Hgt Ht Hpre. replace (feed s t) with (feed s (take MAX_MARKER t ++ drop MAX_MARKER t)) by (by rewrite take_drop). rewrite feed_two.
  assert (length (take MAX_MARKER t) = MAX_MARKER) as Hlt by (rewrite length_take; lia).
  rewrite (feed_osc (take MAX_MARKER t) s) by (done || lia || by apply Forall_take).
  destruct (drop MAX_MARKER t) as [|b rest] eqn:Hd.
  { apply (f_equal length) in Hd. rewrite length_drop in Hd. cbn [length] in Hd. lia. }
  assert (Forall plain (b :: rest)) as [Hb Hrestp]%Forall_cons by (rewrite <- Hd; by apply Forall_drop).
  rewrite Hz, Hlt. cbn [take app Nat.add]. rewrite (drop_ge (buffer s)), app_nil_r by lia.
  match goal with |- context [feed ?x (b :: rest)] => set (s1 := x) end. exists s1.
  assert (buffer s1 = take MAX_MARKER t /\ len s1 = MAX_MARKER) as [Hb1 Hl1] by done.
  rewrite (feed_cons s1 b rest).
  assert (feed_byte s1 b = s1 <| parser := IgnoreOsc |>) as ->.
  { unfold feed_byte. change (parser s1) with Osc. cbn iota. plain_tests Hb.
    by rewrite Hb1, Hl1, Hlt, Nat.ltb_irrefl, Hpre. }
  rewrite (feed_ignored rest) by done. by rewrite Hb1.
Qed.

(** A title changes nothing the client keeps of the history. *)
Lemma title_read title s :
  at_rest s -> Forall plain title ->
  let s' := feed s (TerminalState.title_escape title) in
  at_rest s' /\ generation s' = generation s /\ active s' = active s /\ rows_first s' = rows_first s /\
  Scrollback.rows s' = Scrollback.rows s /\ evicted s' = evicted s.
Proof.
  intros Hs Ht s'. pose proof Hs as [Hp Hbuf]. set (t := text "0;" ++ title).
  assert (TerminalState.title_escape title = z2b 0x1b :: z2b 0x5d :: t ++ [z2b 7]) as Hm.
  { unfold TerminalState.title_escape. subst t. cbn [app]. by rewrite <- app_assoc. }
  assert (Forall plain t) as Hpt by (apply Forall_app; split; [unfold plain; by repeat constructor | done]).
  assert (forall x, length x = MAX_MARKER ->
    at_rest (s <| buffer := x |> <| len := 0%nat |> <| payload := [] |> <| parser := Ground |>)) as Hrest by done.
  destruct (Nat.le_gt_cases (length t) MAX_MARKER) as [Hle|Hgt].
  - subst s'. rewrite Hm, feed_sequence by (done || by left). unfold finish. rewrite read_marker, take_ge by lia.
    change (starts_with ROWS_PREFIX t) with false. change (strip_prefix PREFIX t) with (@None bytes). cbn iota.
    split_and!; [|done..]. split; [done|].
    change (length (take MAX_MARKER t ++ drop (length t) (buffer s)) = MAX_MARKER).
    rewrite length_app, length_take, length_drop. lia.
  - subst s'. rewrite Hm, !feed_cons.
    assert (feed_byte (feed_byte s (z2b 0x1b)) (z2b 0x5d) = s <| len := 0%nat |> <| payload := [] |> <| parser := Osc |>) as ->.
    { unfold feed_byte at 2. rewrite Hp. destruct s; done. }
    set (s0 := s <| len := _ |> <| payload := _ |> <| parser := _ |>). rewrite feed_two.
    destruct (long_sequence_ignored t s0) as (x & -> & Hx & Hbx); [done | done | done | done | done | done |].
    assert (feed (x <| parser := IgnoreOsc |>) [z2b 7] = x <| parser := Ground |>) as -> by (by destruct x).
    destruct Hx as (Hx1 & Hx2 & Hx3 & Hx4 & Hx5). split_and!; done.
Qed.

End Parser.

(** ** What the server writes can be read *)

(** Text of a title: no control character. *)
Definition title_text (l : bytes) : Prop := Forall (fun b => 0x20 <= b2z b) l.
Definition scanner_ok (s : TitleScanner.TitleScanner) : Prop :=
  title_text (TitleScanner.pending s) /\ forall l, TitleScanner.title s = Some l -> title_text l.

Lemma title_text_plain l : title_text l -> Forall plain l.
Proof. intros Hl. eapply Forall_impl; [exact Hl|]. cbn. unfold plain. lia. Qed.

Lemma encode_text c : 0x20 <= c < 256 -> title_text (Utf8.encode_utf8 c).
Proof.
  intros Hc. unfold title_text, Utf8.encode_utf8. destruct (Z.ltb_spec c 0x80).
  - repeat constructor. rewrite Utf8.b2z_small; lia.
  - rewrite (proj2 (Z.ltb_lt c 0x800)) by lia.
    assert (0 <= c / 64 < 4) by (Z.to_euclidean_division_equations; lia).
    pose proof (Z.mod_pos_bound c 64 ltac:(lia)). repeat constructor; rewrite Utf8.b2z_small; lia.
Qed.

Lemma finish_title_ok s : scanner_ok s -> scanner_ok (TitleScanner.finish s).
Proof.
  intros [Hp Ht]. unfold TitleScanner.finish. destruct (_ || _); (split; [constructor|]); cbn; [by intros l [= <-] | done].
Qed.

Lemma step_text_ok byte s : 0 <= byte < 256 -> scanner_ok s -> scanner_ok (TitleScanner.step_text byte s).
Proof.
  intros Hb Hs. pose proof Hs as [Hp Ht]. unfold TitleScanner.step_text.
  destruct (byte =? 7); [by apply finish_title_ok|]. destruct (byte =? 0x1b); [done|]. destruct (_ || _); [done|].
  destruct (bool_decide _); [|done]. destruct (_ || _) eqn:Hor; [done|].
  apply orb_false_iff in Hor as [Hlt%Z.ltb_ge _]. split; [|done].
  apply Forall_app. split; [done|]. apply encode_text. lia.
Qed.

Lemma title_step_ok byte s : 0 <= byte < 256 -> scanner_ok s -> scanner_ok (TitleScanner.step byte s).
Proof.
  intros Hb Hs. pose proof Hs as [Hp Ht]. unfold TitleScanner.step.
  destruct (TitleScanner.state s); try (by apply step_text_ok);
    repeat match goal with |- context [if ?b then _ else _] => destruct b end;
    try done; try (by apply finish_title_ok); try (by apply step_text_ok); by split; [constructor|].
Qed.

Lemma title_feed_ok data s : scanner_ok s -> scanner_ok (TitleScanner.feed data s).
Proof.
  revert s. induction data as [|b data IH]; intros s Hs; [done|].
  apply IH, title_step_ok; [apply b2z_range | done].
Qed.

Section Composition.
Context {Hem : Emulator} {Hlaws : EmulatorLaws} {Hb64 : Base64} {Hlaws64 : Base64Laws}.
Import TerminalBooks.

(** The generation is a [u64] and the title is text. *)
Definition wire_ok (t : TerminalState.TerminalState) : Prop :=
  0 <= TerminalState.scrollback_clear_count t <= u64_max /\ scanner_ok (TerminalState.title_scanner t).

Definition wire_part (t : TerminalState.TerminalState) :=
  (TerminalState.scrollback_clear_count t, TerminalState.title_scanner t).

Lemma collect_wire t : wire_part (TerminalState.collect_scrollback t) = wire_part t.
Proof.
  unfold TerminalState.collect_scrollback. destruct (_ =? 0); [done|]. cbn [Eviction.take_evicted].
  destruct (TerminalState.scrollback_announced _); [done|]. unfold TerminalState.drop_scrollback_over_budget.
  by destruct (TerminalState.drop_rows_over _ _ _).
Qed.

Lemma wire_ok_ext t t' : wire_part t' = wire_part t -> wire_ok t -> wire_ok t'.
Proof. unfold wire_part, wire_ok. by intros [= -> ->]. Qed.

Lemma call_wire c t t' : wire_ok t -> run_call c t = Ok t' -> wire_ok t'.
Proof.
  intros Hw Hc. destruct c; cbn [run_call] in Hc.
  - injection Hc as <-. destruct Hw as [Hg Ht]. unfold TerminalState.process.
    destruct (ClearDetector.feed _ _) as [detector cleared]. destruct (emulate _ _) as [screen' es].
    match goal with |- wire_ok (TerminalState.collect_scrollback ?x) => apply (wire_ok_ext x); [apply collect_wire|] end.
    assert (forall z, 0 <= wrap 64 z <= u64_max) as Hwrap
      by (intros z; pose proof (Z.mod_pos_bound z (2 ^ 64) ltac:(lia)); unfold wrap, u64_max; lia).
    destruct (0 <? cleared), data; (split; [apply Hwrap | by apply title_feed_ok]).
  - injection Hc as <-. unfold TerminalState.resize. destruct (reflow _ _ _) as [screen' es].
    match goal with |- wire_ok (TerminalState.collect_scrollback ?x) => apply (wire_ok_ext x); [apply collect_wire|] end. done.
  - by injection Hc as <-.
  - by injection Hc as <-.
  - injection Hc as <-. apply (wire_ok_ext t); [|done]. unfold TerminalState.drop_scrollback_over_budget.
    by destruct (TerminalState.drop_rows_over _ _ _).
  - destruct (TerminalState.add_query query t) as [[id t1]|e|] eqn:Ha; [|done..]. injection Hc as <-.
    unfold TerminalState.add_query in Ha. destruct (_ || _); [by injection Ha as <- <-|].
    destruct (checked_add_u64 _ _); [|done]. by injection Ha as <- <-.
  - by injection Hc as <-.
  - injection Hc as <-. destruct (Z.le_gt_cases ack_num (TerminalState.base_num t)) as [Hle|Hgt].
    { unfold TerminalState.acknowledge. by rewrite (proj2 (Z.leb_le _ _) Hle). }
    rewrite acknowledge_eq by done. apply (wire_ok_ext t); [|done].
    unfold TerminalState.retire_queries, behind_base, TerminalState.retire_scrollback_below.
    destruct (0 <? _)%nat, (TerminalState.newest_up_to _ _); try destruct (TerminalState.retire_rows_below _ _ _); done.
Qed.

Lemma session_wire allowed rows cols events asked t :
  session allowed (TerminalState.new rows cols) events asked t -> wire_ok t.
Proof.
  induction 1 as [|events asked t c t' _ IH _ Hc]; [|by apply (call_wire c t)].
  split; [cbn; unfold u64_max; lia|]. split; [constructor | done].
Qed.

(** A row of the history as the client keeps it. *)
Definition kept (r : Eviction.EvictedRow) : ScrollbackRow :=
  mkRow (Sanitize.sanitize_row (Eviction.contents r)) (Eviction.wrapped r).

Lemma received_numbered f l : received <$> TerminalState.numbered f l = kept <$> l.
Proof. revert f. induction l as [|r l IH]; intros f; cbn; [done|]. by rewrite IH. Qed.

Lemma numbered_range f l :
  0 <= f -> f + zlen l <= u64_max -> Forall (fun r => 0 <= TerminalState.index r <= u64_max) (TerminalState.numbered f l).
Proof.
  revert f. induction l as [|r l IH]; intros f Hf Hl; cbn; [constructor|].
  assert (zlen (r :: l) = zlen l + 1) as Hz by (unfold zlen; cbn [length]; lia). rewrite Hz in Hl.
  pose proof (zlen_nonneg l). constructor; [cbn; lia|].
  rewrite wrap_small by (unfold fits, u64_max in *; lia). apply IH; lia.
Qed.

(** The marker of the history from [k] on. *)
Lemma history_marker_read k h s :
  at_rest s -> zlen h <= u64_max -> (k <= length h)%nat -> TerminalState.total_cost (rows_from k h) <= MAX_CARRIED ->
  let s' := feed s (TerminalState.scrollback_marker (rows_from k h) (zlen h)) in
  at_rest s' /\ active s' = true /\ rows_first s' = Z.of_nat k /\ Scrollback.rows s' = kept <$> drop k h /\
  evicted s' = zlen h /\ generation s' = generation s.
Proof.
  intros Hs Hh Hk Hcost s'. assert (zlen (drop k h) = zlen h - Z.of_nat k) as Hd by (unfold zlen; rewrite length_drop; lia).
  destruct (rows_marker_read (rows_from k h) (zlen h) s) as (H1' & H2' & H3' & H4' & H5' & H6');
    [done | pose proof (zlen_nonneg h); lia | apply numbered_range; lia | done |].
  assert (match rows_from k h with r :: _ => TerminalState.index r | [] => zlen h end = Z.of_nat k) as Hfirst.
  { unfold rows_from. destruct (drop k h) as [|r l] eqn:He; [|done]. cbn. unfold zlen in *. cbn in Hd. lia. }
  assert (zlen (rows_from k h) = zlen h - Z.of_nat k) as Hlen
    by (unfold zlen, rows_from in *; by rewrite numbered_length).
  rewrite Hfirst in *. rewrite Hlen in H5'.
  split_and!; [done | done | done | | | done].
  - unfold s'. rewrite H4'. apply received_numbered.
  - unfold s'. rewrite H5'. unfold saturating_add_u64. lia.
Qed.

(** *** A frame in its parts *)

Definition title_part (b : TerminalState.Base) (t : TerminalState.TerminalState) : bytes :=
  let title := TitleScanner.title (TerminalState.title_scanner t) in
  match title with
  | Some shown => if decide (title = TerminalState.b_title b) then [] else TerminalState.title_escape shown
  | None => []
  end.
Definition clear_part (b : TerminalState.Base) (t : TerminalState.TerminalState) : bytes :=
  if negb (TerminalState.scrollback_clear_count t =? TerminalState.b_clear_count b)
  then TerminalState.scrollback_clear_marker (TerminalState.scrollback_clear_count t) else [].
(** The history has moved and the client asked for it. *)
Definition history_moved (b : TerminalState.Base) (t : TerminalState.TerminalState) : bool :=
  TerminalState.scrollback_announced t && negb (TerminalState.evicted_total t =? TerminalState.b_evicted_total b).
Definition rows_part (b : TerminalState.Base) (t : TerminalState.TerminalState) : bytes :=
  if history_moved b t then TerminalState.scrollback_marker (carried b t) (TerminalState.evicted_total t) else [].
Definition screen_part (b : TerminalState.Base) (t : TerminalState.TerminalState) : bytes :=
  if decide (TerminalState.size t = screen_size (TerminalState.b_screen b))
  then state_diff (TerminalState.screen t) (TerminalState.b_screen b)
  else state_formatted (TerminalState.screen t).

Lemma frame_parts from t b f :
  TerminalState.base from t = Some b -> TerminalState.frame_from from t = Ok (Some f) ->
  TerminalState.host_bytes f = title_part b t ++ clear_part b t ++ rows_part b t ++ screen_part b t.
Proof.
  intros Hb Hf. unfold TerminalState.frame_from in Hf. rewrite Hb in Hf.
  apply bind_ok_inv in Hf as (q & _ & Hf). injection Hf as <-. cbn [TerminalState.host_bytes].
  unfold title_part, clear_part, rows_part, screen_part, history_moved, carried. cbv zeta.
  destruct (decide (TerminalState.size t = _)); cbn iota;
    destruct (TerminalState.scrollback_announced t && _), (negb (TerminalState.scrollback_clear_count t =? _)),
      (TitleScanner.title (TerminalState.title_scanner t)); try done; by destruct (decide _).
Qed.

(** What the client keeps of the history. *)
Definition held (s : ScrollbackState) := (active s, rows_first s, Scrollback.rows s, evicted s).

Lemma title_part_read b t s :
  wire_ok t -> at_rest s ->
  at_rest (feed s (title_part b t)) /\ generation (feed s (title_part b t)) = generation s /\
  held (feed s (title_part b t)) = held s.
Proof.
  intros [_ [_ Ht]] Hs. unfold title_part. destruct (TitleScanner.title _) as [shown|] eqn:Htitle; [|done].
  destruct (decide _); [done|].
  destruct (title_read shown s Hs (title_text_plain _ (Ht _ eq_refl))) as (? & ? & Ha & Hf & Hr & He).
  unfold held. by rewrite Ha, Hf, Hr, He.
Qed.

Lemma clear_part_read b t s :
  wire_ok t -> at_rest s -> generation s = TerminalState.b_clear_count b ->
  at_rest (feed s (clear_part b t)) /\
  generation (feed s (clear_part b t)) = TerminalState.scrollback_clear_count t /\
  held (feed s (clear_part b t)) = held s.
Proof.
  intros [Hg _] Hs Hgen. unfold clear_part. destruct (Z.eqb_spec (TerminalState.scrollback_clear_count t)
    (TerminalState.b_clear_count b)) as [He|Hne]; cbn [negb].
  - split_and!; [done | by rewrite He | done].
  - destruct (clear_marker_read _ s Hs Hg) as (? & ? & Ha & Hf & Hr & He).
    unfold held. by rewrite Ha, Hf, Hr, He.
Qed.

(** ** The property *)

Lemma feed_in_pieces pieces s : foldl feed s pieces = feed s (concat pieces).
Proof. revert s. induction pieces as [|l pieces IH]; intros s; cbn [foldl concat]; [done|]. by rewrite IH, feed_two. Qed.


End Composition.

(** ** Witness, on the emulator of one line *)
#[local] Existing Instance OneLine.emulator.
#[local] Existing Instance OneLine.emulator_laws.
#[local] Existing Instance Rfc4648.engine.
#[local] Existing Instance Rfc4648.engine_laws.
Import TerminalBooks.

Definition wire_calls : list call := [SetBudget 65536; Process (text "one" ++ [z2b 0x0a]); Process (text "two" ++ [z2b 0x0a])].


End ScrollbackWire.
