(* ===== verification/Display.v ===== *)
(** * What the client writes to the terminal

    Models the part of [crates/zosh/src/display.rs] that keeps the terminal's own
    history: the replay of the rows that scrolled off between the screen shown
    and the one about to be, the rows that stand in for them after a resize, and
    the scroll that stock Mosh infers.  Of the client's screen it uses what the
    class [Renderer] names. *)
From Stdlib Require Import ZArith Lia List Bool.
From stdpp Require Import base numbers list strings.
From S2P Require Import Prelude Text Utf8 Sanitize Scrollback TerminalState.
Import Decimal.
Open Scope Z_scope.
Open Scope zetta_scope.

(** What a client reads of its screen. *)
Class Renderer `{Emulator} := {
  cell : Type;
  cell_eq : EqDecision cell;
  cell_at : visual -> Z -> Z -> cell;
  row_wrapped : visual -> Z -> bool;
  cursor_row : visual -> Z;
  visible_rows_as_evicted : visual -> list Eviction.EvictedRow;
  hide_cursor : visual -> bool;
  contents_diff : visual -> visual -> bytes;
  contents_formatted : visual -> bytes;
  input_mode_diff : visual -> visual -> bytes;
}.
#[export] Existing Instance cell_eq.

Module Display.
Import Sanitize Scrollback.

Section Display.
Context `{Renderer} `{Base64}.

Record DisplayScreen := mkDisplay { inner : visual; received_output : bool; scrollback : ScrollbackState }.

Definition new (height width : Z) : DisplayScreen := mkDisplay (blank height width) false default_state.

Definition rows (s : DisplayScreen) : Z := (screen_size (inner s)).1.
Definition cols (s : DisplayScreen) : Z := (screen_size (inner s)).2.

(** [bytes] of a [format!]. *)
Definition cursor_to (row : Z) : bytes := z2b 0x1b :: text "[" ++ decimal row ++ text ";1H".
Definition reset_margins : bytes := z2b 0x1b :: text "[r" ++ z2b 0x1b :: text "[0m".
Definition CRLF : bytes := [z2b 0x0d; z2b 0x0a].
Definition gap_text (dropped : Z) : bytes := text "[zosh: " ++ decimal dropped ++ text " lines of scrollback dropped]".

(** ** The replay *)

Definition carried_row (s : DisplayScreen) (index : Z) : option ScrollbackRow :=
  if rows_first (scrollback s) <=? index
  then Scrollback.rows (scrollback s) !! Z.to_nat (index - rows_first (scrollback s))
  else None.

(** The output and the pending wrap after the gap. *)
Definition write_gap (output : bytes) (dropped : Z) (wrapping : bool) : bytes * bool :=
  (output ++ (if wrapping then [] else CRLF)
     ++ z2b 0x1b :: text "[2m" ++ gap_text dropped ++ z2b 0x1b :: text "[0m", false).

(** The loop over the rows that are about to leave; [row] counts them. *)
Fixpoint correct_rows (s : DisplayScreen) (evicted : Z) (row : Z) (shown : list Eviction.EvictedRow)
    (output : bytes) : result unit bytes :=
  match shown with
  | [] => Ok output
  | on_screen :: shown =>
      index ← expect (checked_add_u64 evicted row);
      let output :=
        match carried_row s index with
        | Some carried =>
            if decide (contents carried = Eviction.contents on_screen) then output
            else output ++ cursor_to (row + 1) ++ z2b 0x1b :: text "[2K" ++ contents carried
        | None => output
        end in
      correct_rows s evicted (row + 1) shown output
  end.

Definition correct_stale_rows (s previous : DisplayScreen) (missing : Z) (output : bytes) : result unit bytes :=
  let leaving := Z.to_nat (Z.min missing (rows s)) in
  correct_rows s (evicted (scrollback previous)) 0 (take leaving (visible_rows_as_evicted (inner previous))) output.

(** The loop over the rows carried. *)
Definition write_row (s : bytes * bool) (row : ScrollbackRow) : bytes * bool :=
  (s.1 ++ (if s.2 then [] else CRLF) ++ contents row, wrapped row).
Definition write_rows (carried : list ScrollbackRow) (output : bytes) (wrapping : bool) : bytes * bool :=
  foldl write_row (output, wrapping) carried.

(** From the first row the terminal was not showing to the last. *)
Definition write_unseen (s : DisplayScreen) (unseen_from unseen_end : Z) (output : bytes) : result unit bytes :=
  let carried_end := saturating_add_u64 (rows_first (scrollback s)) (zlen (Scrollback.rows (scrollback s))) in
  let retained_from := Z.max unseen_from (rows_first (scrollback s)) in
  let retained_end := Z.min unseen_end carried_end in
  if retained_from <? retained_end then
    let '(output, wrapping) :=
      if unseen_from <? retained_from then write_gap output (retained_from - unseen_from) false else (output, false) in
    let offset := Z.to_nat (retained_from - rows_first (scrollback s)) in
    let count := Z.to_nat (retained_end - retained_from) in
    carried ← slice (Scrollback.rows (scrollback s)) offset (offset + count);
    let '(output, wrapping) := write_rows carried output wrapping in
    Ok (if retained_end <? unseen_end then (write_gap output (unseen_end - retained_end) wrapping).1 else output)
  else if unseen_from <? unseen_end then Ok (write_gap output (unseen_end - unseen_from) false).1
  else Ok output.

Definition scrollback_replay (s previous : DisplayScreen) : result unit (option bytes) :=
  let height := rows s in
  let missing := evicted (scrollback s) - evicted (scrollback previous) in
  if missing <=? 0 then Ok None
  else if negb (active (scrollback s)) || (height <? 1) then Ok None
  else
    output ← correct_stale_rows s previous missing reset_margins;
    let output := output ++ cursor_to height in
    let unseen_from := saturating_add_u64 (evicted (scrollback previous)) height in
    output ← write_unseen s unseen_from (evicted (scrollback s)) output;
    Ok (Some ((output ++ [z2b 0x0d]) ++ replicate (Z.to_nat (Z.min missing height)) (z2b 0x0a))).

(** ** After a resize *)

(** What is written into the small screen that lays rows out again. *)
Definition resized_rows (s : DisplayScreen) (since : Z) : list (bytes * bool) :=
  let sb := scrollback s in
  let first := Z.min (Z.max since (rows_first sb)) (evicted sb) in
  let offset := Z.to_nat (first - rows_first sb) in
  let carried := take (Z.to_nat (evicted sb - first)) (drop offset (Scrollback.rows sb)) in
  let end_ := first + zlen carried in
  (if since <? first then [(gap_text (first - since), false)] else [])
    ++ ((fun r => (contents r, wrapped r)) <$> carried)
    ++ (if end_ <? evicted sb then [(gap_text (evicted sb - end_), false)] else []).

(** The closure [feed]: the small screen, its queue, the rows laid out and
    whether the last one continues. *)
Definition lay_out (st : visual * Eviction.Grid * list ScrollbackRow * bool) (row : bytes * bool) :
    visual * Eviction.Grid * list ScrollbackRow * bool :=
  let '(screen, grid, out, _) := st in
  let '(line, continues) := row in
  let '(screen, events) := emulate line screen in
  let grid := Eviction.apply_events events grid in
  let '(screen, grid) :=
    if continues then (screen, grid)
    else let '(screen, events) := emulate CRLF screen in (screen, Eviction.apply_events events grid) in
  let '((_, taken), grid) := Eviction.take_evicted grid in
  (screen, grid, out ++ ((fun r => mkRow (Eviction.contents r) (Eviction.wrapped r)) <$> taken), continues).

Definition resized_history (s : DisplayScreen) (since : Z) : list ScrollbackRow :=
  let start := (blank 2 (cols s), Eviction.set_capture_evicted true Eviction.new_grid, [], false) in
  let '(screen, _, out, wrapped_last) := foldl lay_out start (resized_rows s since) in
  let visible := Z.to_nat (cursor_row screen + if wrapped_last then 1 else 0) in
  out ++ ((fun r => mkRow (Eviction.contents r) (Eviction.wrapped r)) <$> take visible (visible_rows_as_evicted screen)).

Definition DISPLAY_RESIZE : bytes :=
  z2b 0x1b :: text "[r" ++ z2b 0x1b :: text "[0m" ++ z2b 0x1b :: text "[H" ++ z2b 0x1b :: text "[2J".

Definition scrollback_replay_after_resize (s previous : DisplayScreen) : result unit (option bytes) :=
  if negb (active (scrollback s)) || (evicted (scrollback s) <=? evicted (scrollback previous)) then Ok None
  else
    let laid := resized_history s (evicted (scrollback previous)) in
    let current := mkDisplay (inner s) (received_output s)
      (scrollback s <| evicted := zlen laid |> <| rows_first := 0 |> <| Scrollback.rows := laid |>) in
    let blank_screen := new (rows s) (cols s) in
    replay ← scrollback_replay current blank_screen;
    Ok (match replay with Some replay => Some (DISPLAY_RESIZE ++ replay) | None => None end).

Definition clears_scrollback_since (s previous : DisplayScreen) : bool :=
  negb (generation (scrollback s) =? generation (scrollback previous)).

(** ** The scroll of stock Mosh *)

Record ScrollPlan := mkPlan { lines_scrolled : Z; scroll_height : Z }.

Definition rows_equal (current : visual) (current_row : Z) (previous : visual) (previous_row : Z) : bool :=
  eqb (row_wrapped current current_row) (row_wrapped previous previous_row)
  && forallb (fun column => bool_decide (cell_at current current_row column = cell_at previous previous_row column))
       (seqZ 0 (screen_size current).2).

(** [while lines_scrolled + scroll_height < height && rows_equal(..)] *)
Fixpoint matching_rows (fuel : nat) (current previous : visual) (lines height n : Z) : Z :=
  match fuel with
  | O => n
  | S fuel =>
      if (lines + n <? height) && rows_equal current n previous (lines + n)
      then matching_rows fuel current previous lines height (n + 1) else n
  end.

(** [for lines_scrolled in 1..height] *)
Fixpoint find_plan (fuel : nat) (current previous : visual) (lines height : Z) : option ScrollPlan :=
  match fuel with
  | O => None
  | S fuel =>
      if lines <? height then
        if rows_equal current 0 previous lines
        then Some (mkPlan lines (matching_rows (Z.to_nat height) current previous lines height 1))
        else find_plan fuel current previous (lines + 1) height
      else None
  end.

Definition scroll_plan (previous current : DisplayScreen) : option ScrollPlan :=
  if negb (received_output previous) || negb (bool_decide (screen_size (inner previous) = screen_size (inner current)))
  then None
  else
    let height := rows current in
    if height <? 2 then None
    else if rows_equal (inner current) 0 (inner previous) 0 then None
    else find_plan (Z.to_nat height) (inner current) (inner previous) 1 height.

Definition sequence (p : ScrollPlan) (previous_cursor_row height : Z) : bytes :=
  let bottom := lines_scrolled p + scroll_height p - 1 in
  let feeds := replicate (Z.to_nat (lines_scrolled p)) (z2b 0x0a) in
  if (lines_scrolled p + scroll_height p =? height) && (previous_cursor_row =? height - 1) then z2b 0x0d :: feeds
  else
    z2b 0x1b :: text "[1;" ++ decimal (bottom + 1) ++ text "r" ++ z2b 0x1b :: text "[" ++ decimal (bottom + 1)
      ++ text ";1H" ++ feeds ++ z2b 0x1b :: text "[r".

(** ** A frame *)

Definition CLEAR_SCROLLBACK : bytes := z2b 0x1b :: text "[3J".

(** The methods of [Screen] that change it. *)
Definition feed_screen (s : DisplayScreen) (data : bytes) : DisplayScreen :=
  match data with
  | [] => s
  | _ => mkDisplay (emulate data (inner s)).1 true (Scrollback.feed (scrollback s) data)
  end.
Definition resize_screen (s : DisplayScreen) (height width : Z) : DisplayScreen :=
  mkDisplay (reflow height width (inner s)).1 (received_output s) (scrollback s).

Definition repaint (s : DisplayScreen) : bytes := contents_formatted (inner s).
Definition input_modes_diff (s previous : DisplayScreen) : bytes := input_mode_diff (inner s) (inner previous).

(** What moves the terminal's rows up before the cells are painted. *)
Definition moved_rows (s previous : DisplayScreen) : result unit bytes :=
  replay ← scrollback_replay s previous;
  Ok match replay with
     | Some replay => replay
     | None =>
         if active (scrollback s) then []
         else match scroll_plan previous s with
              | Some plan => sequence plan (cursor_row (inner previous)) (rows s)
              | None => []
              end
     end.

Definition diff_from (s previous : DisplayScreen) : result unit bytes :=
  if clears_scrollback_since s previous then
    Ok (DISPLAY_RESIZE ++ CLEAR_SCROLLBACK ++ repaint s ++ input_modes_diff s previous)
  else
    let first :=
      if received_output previous then []
      else z2b 0x1b :: (if hide_cursor (inner s) then text "[?25l" else text "[?25h") in
    if negb (bool_decide (screen_size (inner previous) = screen_size (inner s))) then
      replay ← scrollback_replay_after_resize s previous;
      Ok (first ++ default [] replay ++ DISPLAY_RESIZE
            ++ contents_diff (inner s) (blank (rows s) (cols s)) ++ input_modes_diff s previous)
    else
      moved ← moved_rows s previous;
      let physical_previous := (emulate moved (inner previous)).1 in
      Ok (first ++ moved ++ state_diff (inner s) physical_previous).

(** ** Accounting for the rows *)

(** What is written of the history: a row, or a line saying how many are
    missing. *)
Inductive piece := Row (r : ScrollbackRow) | Gap (dropped : Z).

(** The pieces account for the rows from one index to another: each row is the
    one carried under its index, each gap is of rows that are not carried. *)
Fixpoint accounts (s : DisplayScreen) (from : Z) (ps : list piece) (to : Z) : Prop :=
  match ps with
  | [] => from = to
  | Row r :: ps => carried_row s from = Some r /\ accounts s (from + 1) ps to
  | Gap n :: ps => 0 < n /\ (forall i, from <= i < from + n -> carried_row s i = None) /\ accounts s (from + n) ps to
  end.

Definition write_piece (st : bytes * bool) (p : piece) : bytes * bool :=
  match p with Row r => write_row st r | Gap n => write_gap st.1 n st.2 end.
Definition write_pieces (ps : list piece) (output : bytes) : bytes := (foldl write_piece (output, false) ps).1.

Lemma accounts_app s from ps mid ps' to :
  accounts s from ps mid -> accounts s mid ps' to -> accounts s from (ps ++ ps') to.
Proof.
  revert from. induction ps as [|[r|n] ps IH]; intros from; cbn; [by intros <- | |].
  - intros [? ?] ?. split; [done | by apply IH].
  - intros (? & ? & ?) ?. split_and!; [done | done | by apply IH].
Qed.

Lemma accounts_gap s from to :
  (forall i, from <= i < to -> carried_row s i = None) ->
  accounts s from (if from <? to then [Gap (to - from)] else []) (Z.max from to).
Proof.
  intros Hn. destruct (Z.ltb_spec from to); cbn [accounts]; [|lia].
  split_and!; [lia | intros i Hi; apply Hn; lia | lia].
Qed.

(** Consecutive carried rows. *)
Lemma accounts_rows s from count l :
  rows_first (scrollback s) <= from ->
  l = take count (drop (Z.to_nat (from - rows_first (scrollback s))) (Scrollback.rows (scrollback s))) ->
  accounts s from (Row <$> l) (from + zlen l).
Proof.
  intros Hf ->. set (n := Z.to_nat _). set (all := Scrollback.rows (scrollback s)).
  assert (from = rows_first (scrollback s) + Z.of_nat n) as Hfrom by (subst n; lia). clearbody n.
  revert n from Hf Hfrom. induction count as [|count IH]; intros n from Hf Hfrom.
  { rewrite take_0. change (from = from + 0). lia. }
  destruct (drop n all) as [|r rest] eqn:Hd; [change (from = from + 0); lia|].
  assert (all !! n = Some r) as Hr.
  { rewrite <- (Nat.add_0_r n), <- lookup_drop, Hd. done. }
  assert (rest = drop (S n) all) as ->.
  { rewrite <- Nat.add_1_r, <- drop_drop, Hd. done. }
  cbn [take fmap list_fmap accounts]. split.
  - unfold carried_row. rewrite (proj2 (Z.leb_le _ _)) by lia. rewrite Hfrom. by rewrite Z.add_simpl_l, Nat2Z.id.
  - specialize (IH (S n) (from + 1) ltac:(lia) ltac:(lia)).
    assert (zlen (r :: take count (drop (S n) all)) = 1 + zlen (take count (drop (S n) all))) as ->
      by (unfold zlen; cbn [length]; lia).
    by rewrite Z.add_assoc.
Qed.

(** Nothing is carried below the first row or past the last. *)
Lemma carried_outside s i :
  i < rows_first (scrollback s) \/ rows_first (scrollback s) + zlen (Scrollback.rows (scrollback s)) <= i ->
  carried_row s i = None.
Proof.
  intros Hi. unfold carried_row. destruct (Z.leb_spec (rows_first (scrollback s)) i); [|done].
  apply lookup_ge_None_2. unfold zlen in Hi. lia.
Qed.

Lemma write_rows_pieces l output wrapping :
  foldl write_piece (output, wrapping) (Row <$> l) = write_rows l output wrapping.
Proof. unfold write_rows. revert output wrapping. induction l as [|r l IH]; intros; [done|]. apply IH. Qed.

(** The optional gap at either end. *)
Definition gap_from (from to : Z) : list piece := if from <? to then [Gap (to - from)] else [].

Lemma write_gap_from from to output wrapping :
  foldl write_piece (output, wrapping) (gap_from from to) =
    if from <? to then write_gap output (to - from) wrapping else (output, wrapping).
Proof. unfold gap_from. by destruct (from <? to). Qed.

(** The rows never shown are written, each once, and what is missing is said. *)
Lemma write_unseen_spec s from to output :
  0 <= rows_first (scrollback s) -> to <= u64_max ->
  exists ps, write_unseen s from to output = Ok (write_pieces ps output) /\ accounts s from ps (Z.max from to).
Proof.
  intros Hfirst Hto. unfold write_unseen, write_pieces. cbv zeta.
  set (first := rows_first (scrollback s)) in *. set (all := Scrollback.rows (scrollback s)).
  pose proof (zlen_nonneg all). unfold saturating_add_u64.
  set (cend := Z.min (first + zlen all) u64_max). set (rfrom := Z.max from first). set (rend := Z.min to cend).
  destruct (Z.ltb_spec rfrom rend) as [Hlt|Hge].
  - set (offset := Z.to_nat (rfrom - first)). set (count := Z.to_nat (rend - rfrom)).
    assert (offset + count <= length all)%nat as Hslice by (unfold zlen in *; lia).
    unfold slice. rewrite decide_True by lia. replace (offset + count - offset)%nat with count by lia.
    cbn [mbind result_bind]. set (l := take count (drop offset all)).
    assert (zlen l = rend - rfrom) as Hl by (subst l; unfold zlen in *; rewrite length_take, length_drop; lia).
    exists (gap_from from rfrom ++ (Row <$> l) ++ gap_from rend to). split.
    + rewrite !foldl_app, write_gap_from.
      destruct (if from <? rfrom then _ else _) as [o w] eqn:Ho. rewrite write_rows_pieces.
      destruct (write_rows l o w) as [o' w']. rewrite write_gap_from. by destruct (rend <? to).
    + apply (accounts_app s from _ rfrom); [|apply (accounts_app s rfrom _ rend)].
      * replace rfrom with (Z.max from rfrom) at 2 by lia. apply accounts_gap.
        intros i Hi. apply carried_outside. fold first. lia.
      * replace rend with (rfrom + zlen l) by lia. apply (accounts_rows s rfrom count); [fold first; lia | done].
      * replace (Z.max from to) with (Z.max rend to) by lia. apply accounts_gap.
        intros i Hi. apply carried_outside. fold first all. lia.
  - exists (gap_from from to). rewrite write_gap_from. split; [by destruct (from <? to)|].
    apply accounts_gap. intros i Hi. apply carried_outside. fold first all. lia.
Qed.

(** Writing appends. *)
Lemma write_piece_app w p : exists more w', forall o, write_piece (o, w) p = (o ++ more, w').
Proof.
  destruct p as [r|n]; [exists ((if w then [] else CRLF) ++ contents r), (wrapped r) | exists (write_gap [] n w).1, false];
    by intros o.
Qed.

Lemma write_pieces_app ps output : write_pieces ps output = output ++ write_pieces ps [].
Proof.
  unfold write_pieces.
  assert (forall o w, (foldl write_piece (o, w) ps).1 = o ++ (foldl write_piece ([], w) ps).1) as Happ; [|apply Happ].
  induction ps as [|p ps IH]; intros o w; cbn [foldl]; [by rewrite app_nil_r|].
  destruct (write_piece_app w p) as (more & w' & Hm). rewrite !Hm. cbn [app].
  rewrite IH, (IH more). by rewrite <- app_assoc.
Qed.

(** *** The rows corrected on the screen *)

(** What is written over the screen for a row that is about to leave. *)
Definition correction (s : DisplayScreen) (index row : Z) (on_screen : Eviction.EvictedRow) : bytes :=
  match carried_row s index with
  | Some carried =>
      if decide (contents carried = Eviction.contents on_screen) then []
      else cursor_to (row + 1) ++ z2b 0x1b :: text "[2K" ++ contents carried
  | None => []
  end.
Fixpoint corrections (s : DisplayScreen) (evicted row : Z) (shown : list Eviction.EvictedRow) : bytes :=
  match shown with
  | [] => []
  | on_screen :: shown => correction s (evicted + row) row on_screen ++ corrections s evicted (row + 1) shown
  end.

Lemma correct_rows_spec s evicted row shown output :
  evicted + row + zlen shown <= u64_max + 1 ->
  correct_rows s evicted row shown output = Ok (output ++ corrections s evicted row shown).
Proof.
  revert row output. induction shown as [|r shown IH]; intros row output Hle; cbn [correct_rows corrections].
  { by rewrite app_nil_r. }
  assert (zlen (r :: shown) = zlen shown + 1) as Hz by (unfold zlen; cbn [length]; lia). rewrite Hz in Hle.
  pose proof (zlen_nonneg shown). unfold checked_add_u64. rewrite (proj2 (Z.leb_le _ _)) by lia.
  cbn [expect mbind result_bind]. rewrite IH by lia. unfold correction.
  destruct (carried_row s _) as [carried|]; [|done]. destruct (decide _); [done|]. by rewrite <- app_assoc.
Qed.

(** *** The replay whole *)

(** How many rows of the screen leave it, and the first the terminal never showed. *)
Definition leaving (s previous : DisplayScreen) : nat :=
  Z.to_nat (Z.min (evicted (scrollback s) - evicted (scrollback previous)) (rows s)).
Definition unseen_from (s previous : DisplayScreen) : Z :=
  saturating_add_u64 (evicted (scrollback previous)) (rows s).

Definition replayed (s previous : DisplayScreen) (ps : list piece) : bytes :=
  reset_margins
    ++ corrections s (evicted (scrollback previous)) 0 (take (leaving s previous) (visible_rows_as_evicted (inner previous)))
    ++ cursor_to (rows s) ++ write_pieces ps [] ++ [z2b 0x0d] ++ replicate (leaving s previous) (z2b 0x0a).

(** There is nothing to replay. *)
Definition nothing_to_replay (s previous : DisplayScreen) : Prop :=
  evicted (scrollback s) <= evicted (scrollback previous) \/ active (scrollback s) = false \/ rows s < 1.

Lemma replay_cases s previous :
  state_ok (scrollback s) -> state_ok (scrollback previous) ->
  (nothing_to_replay s previous /\ scrollback_replay s previous = Ok None) \/
  (~ nothing_to_replay s previous /\ exists ps, scrollback_replay s previous = Ok (Some (replayed s previous ps)) /\
     accounts s (unseen_from s previous) ps (Z.max (unseen_from s previous) (evicted (scrollback s)))).
Proof.
  intros Hs Hp. unfold nothing_to_replay, scrollback_replay. cbv zeta.
  set (missing := evicted (scrollback s) - evicted (scrollback previous)).
  destruct (Z.leb_spec missing 0) as [Hle|Hgt]; [left; split; [left; lia | done]|].
  destruct (negb (active (scrollback s)) || (rows s <? 1)) eqn:Hor.
  { left. split; [|done]. right.
    apply orb_true_iff in Hor as [Ha%negb_true_iff|Hr%Z.ltb_lt]; [by left | by right]. }
  apply orb_false_iff in Hor as [Ha%negb_false_iff Hr%Z.ltb_ge]. right.
  split. { intros [?|[?|?]]; [lia | congruence | lia]. }
  assert (evicted (scrollback s) <= u64_max) as Hmax.
  { rewrite (ok_evicted _ Hs). unfold saturating_add_u64. lia. }
  unfold correct_stale_rows. cbv zeta. fold missing.
  rewrite correct_rows_spec by (unfold zlen; rewrite length_take; lia).
  cbn [mbind result_bind]. fold (unseen_from s previous).
  destruct (write_unseen_spec s (unseen_from s previous) (evicted (scrollback s))
    ((reset_margins ++ corrections s (evicted (scrollback previous)) 0 (take (Z.to_nat (Z.min missing (rows s)))
       (visible_rows_as_evicted (inner previous)))) ++ cursor_to (rows s))) as (ps & -> & Hps);
    [apply Hs | done |].
  cbn [mbind result_bind]. exists ps. split; [|done]. do 2 f_equal. unfold replayed, leaving. fold missing.
  rewrite write_pieces_app. generalize reset_margins as m, (cursor_to (rows s)) as c, [z2b 0x0d] as r.
  intros m c r. by rewrite <- !app_assoc.
Qed.

(** C31. The replay never fails: with nothing to do there is none, and otherwise it
    corrects what is about to leave the screen, writes what the terminal never
    showed and scrolls the rest.  What it writes accounts for every row between
    the last the terminal was showing and the last there is, in order: a row
    that is carried is written, and a run of rows that is not is said to be
    missing, with its length. *)
Theorem replay_accounts_for_every_row s previous :
  state_ok (scrollback s) -> state_ok (scrollback previous) ->
  exists replay, scrollback_replay s previous = Ok replay /\
    (replay = None <-> nothing_to_replay s previous) /\
    forall output, replay = Some output -> exists ps,
      output = replayed s previous ps /\
      accounts s (unseen_from s previous) ps (Z.max (unseen_from s previous) (evicted (scrollback s))).
Proof.
  intros Hs Hp. destruct (replay_cases s previous Hs Hp) as [[Hn ->] | (Hn & ps & -> & Hps)]; eexists; (split; [done|]).
  - split; [done|]. done.
  - split; [done|]. intros output Ho. apply (inj Some) in Ho as <-. by exists ps.
Qed.

(** ** What reaches the terminal *)

(** The client's own sequences: line ends, margins, erasing a line and placing
    the cursor. *)
Definition own (p : bytes) : Prop :=
  p ∈ [CRLF; [z2b 0x0d]; [z2b 0x0a]; z2b 0x1b :: text "[r"; z2b 0x1b :: text "[2K"] \/ exists row, p = cursor_to row.
Definition harmless (output : bytes) : Prop :=
  exists parts, Forall (fun p => clean p \/ own p) parts /\ output = concat parts.

Lemma harmless_nil : harmless [].
Proof. by exists []. Qed.
Lemma harmless_app a b : harmless a -> harmless b -> harmless (a ++ b).
Proof.
  intros (pa & Ha & ->) (pb & Hb & ->). exists (pa ++ pb). split; [by apply Forall_app | by rewrite concat_app].
Qed.
Lemma harmless_part p : clean p \/ own p -> harmless p.
Proof. intros Hp. exists [p]. split; [by constructor|]. cbn. by rewrite app_nil_r. Qed.

(** Printable ASCII. *)
Lemma clean_printable l : Forall (fun b => 0x20 <= b2z b <= 0x7e) l -> clean l.
Proof.
  induction 1 as [|b l Hb _ IH]; [apply clean_nil|]. change (b :: l) with ([b] ++ l). apply clean_app; [|done].
  assert (Utf8.encode_utf8 (b2z b) = [b]) as <- by (rewrite encode_ascii by lia; by rewrite z2b_b2z).
  apply clean_text; [left; lia|]. unfold Utf8.is_control. rewrite !Utf8.within_false by lia. done.
Qed.
Lemma clean_decimal n : clean (decimal n).
Proof.
  apply clean_printable. eapply Forall_impl; [apply decimal_digits|]. cbn. intros b Hb. unfold is_ascii_digit in Hb.
  apply andb_true_iff in Hb as [?%Z.leb_le ?%Z.leb_le]. lia.
Qed.
Lemma clean_check l : sanitize_row l = l -> clean l.
Proof. intros <-. apply sanitize_row_clean. Qed.

Lemma gap_clean n : clean (z2b 0x1b :: text "[2m" ++ gap_text n ++ z2b 0x1b :: text "[0m").
Proof.
  change (z2b 0x1b :: text "[2m" ++ gap_text n ++ z2b 0x1b :: text "[0m") with
    ((z2b 0x1b :: text "[2m") ++ gap_text n ++ z2b 0x1b :: text "[0m").
  apply clean_app; [by apply clean_check; vm_compute|]. apply clean_app; [|by apply clean_check; vm_compute].
  unfold gap_text. apply clean_app; [by apply clean_check; vm_compute|].
  apply clean_app; [apply clean_decimal | by apply clean_check; vm_compute].
Qed.

Lemma carried_row_clean s i r : state_ok (scrollback s) -> carried_row s i = Some r -> clean (contents r).
Proof.
  intros Hs. unfold carried_row. destruct (_ <=? _); [|done]. intros Hr.
  pose proof (ok_rows _ Hs) as Hall. rewrite Forall_forall in Hall. apply Hall. by apply list_elem_of_lookup_2 in Hr.
Qed.

Lemma harmless_break (w : bool) : harmless (if w then [] else CRLF).
Proof. destruct w; [apply harmless_nil|]. apply harmless_part. right. left. by left. Qed.

Lemma write_pieces_harmless s from ps to :
  state_ok (scrollback s) -> accounts s from ps to -> harmless (write_pieces ps []).
Proof.
  intros Hs. unfold write_pieces.
  assert (forall o w from, harmless o -> accounts s from ps to -> harmless (foldl write_piece (o, w) ps).1) as Hall;
    [|apply Hall, harmless_nil].
  induction ps as [|[r|n] ps IH]; intros o w f Ho; cbn [accounts foldl write_piece]; [done| |].
  - intros [Hr Hps]. unfold write_row. apply (IH _ _ (f + 1)); [|done].
    cbn [fst snd]. apply harmless_app; [done|]. apply harmless_app; [apply harmless_break|].
    apply harmless_part. left. by eapply carried_row_clean.
  - intros (_ & _ & Hps). unfold write_gap. apply (IH _ _ (f + n)); [|done]. cbn [fst snd].
    apply harmless_app; [done|]. apply harmless_app; [apply harmless_break|].
    apply harmless_part. left. apply gap_clean.
Qed.

Lemma corrections_harmless s evicted row shown :
  state_ok (scrollback s) -> harmless (corrections s evicted row shown).
Proof.
  intros Hs. revert row. induction shown as [|r shown IH]; intros row; cbn [corrections]; [apply harmless_nil|].
  apply harmless_app; [|apply IH]. unfold correction.
  destruct (carried_row s (evicted + row)) as [c|] eqn:Hc; [|apply harmless_nil].
  destruct (decide _); [apply harmless_nil|]. apply harmless_app; [apply harmless_part; right; right; by eexists|].
  change (z2b 0x1b :: text "[2K" ++ contents c) with ((z2b 0x1b :: text "[2K") ++ contents c).
  apply harmless_app; apply harmless_part; [right; left; by do 4 right; left | left; by eapply carried_row_clean].
Qed.

(** Whatever the server sent, a replay puts nothing on the terminal but rows
    that went through the filter, the client's own notices, and the client's own
    line ends and cursor placements. *)
Theorem replay_is_harmless s previous output :
  state_ok (scrollback s) -> state_ok (scrollback previous) ->
  scrollback_replay s previous = Ok (Some output) -> harmless output.
Proof.
  intros Hs Hp Hr. destruct (replay_cases s previous Hs Hp) as [[_ Hn] | (_ & ps & Ho & Hps)]; [congruence|].
  assert (output = replayed s previous ps) as -> by congruence. unfold replayed.
  apply harmless_app.
  { unfold reset_margins. change (z2b 0x1b :: text "[r" ++ z2b 0x1b :: text "[0m") with
      ((z2b 0x1b :: text "[r") ++ z2b 0x1b :: text "[0m").
    apply harmless_app; apply harmless_part; [right; left; by do 3 right; left | left; by apply clean_check; vm_compute]. }
  apply harmless_app; [by apply corrections_harmless|].
  apply harmless_app; [apply harmless_part; right; right; by eexists|].
  apply harmless_app; [exact (write_pieces_harmless s _ ps _ Hs Hps)|].
  apply harmless_app; [apply harmless_part; right; left; by right; left|].
  generalize (leaving s previous). intros n. induction n as [|n IH]; [apply harmless_nil|].
  change (harmless ([z2b 0x0a] ++ replicate n (z2b 0x0a))). apply harmless_app; [|done].
  apply harmless_part. right. left. by do 2 right; left.
Qed.

(** ** After a resize *)

(** What a piece is laid out as. *)
Definition piece_line (p : piece) : bytes * bool :=
  match p with Row r => (contents r, wrapped r) | Gap n => (gap_text n, false) end.

Lemma gap_line from to : piece_line <$> gap_from from to = if from <? to then [(gap_text (to - from), false)] else [].
Proof. unfold gap_from. by destruct (from <? to). Qed.

(** The history rebuilt for a new size is laid out from pieces that account for
    every row since the screen the terminal was showing. *)
Theorem resized_rows_account s since :
  state_ok (scrollback s) -> since < evicted (scrollback s) ->
  exists ps, resized_rows s since = piece_line <$> ps /\ accounts s since ps (evicted (scrollback s)).
Proof.
  intros Hs Hlt. unfold resized_rows. cbv zeta. pose proof (ok_evicted _ Hs) as He. pose proof (ok_first _ Hs) as Hf.
  set (first := rows_first (scrollback s)) in *. set (all := Scrollback.rows (scrollback s)) in *.
  set (to := evicted (scrollback s)) in *. unfold saturating_add_u64 in He. pose proof (zlen_nonneg all).
  set (from := Z.min (Z.max since first) to). assert (from = Z.max since first) as Hfrom by lia.
  set (l := take (Z.to_nat (to - from)) (drop (Z.to_nat (from - first)) all)).
  assert (zlen l = Z.min (to - from) (zlen all - (from - first))) as Hl.
  { subst l. unfold zlen in *. rewrite length_take, length_drop. lia. }
  exists (gap_from since from ++ (Row <$> l) ++ gap_from (from + zlen l) to). split.
  - rewrite !fmap_app, !gap_line. by rewrite <- list_fmap_compose.
  - apply (accounts_app s since _ from); [|apply (accounts_app s from _ (from + zlen l))].
    + replace from with (Z.max since from) at 2 by lia. apply accounts_gap.
      intros i Hi. apply carried_outside. fold first. lia.
    + apply (accounts_rows s from (Z.to_nat (to - from))); [fold first; lia | done].
    + replace to with (Z.max (from + zlen l) to) at 2 by lia. apply accounts_gap.
      intros i Hi. apply carried_outside. fold first all. lia.
Qed.

(** ** The inferred scroll *)

Lemma matching_rows_spec fuel current previous lines height n :
  lines + n <= height -> height - (lines + n) <= Z.of_nat fuel ->
  let m := matching_rows fuel current previous lines height n in
  n <= m /\ lines + m <= height /\
  (forall r, n <= r < m -> rows_equal current r previous (lines + r) = true) /\
  (lines + m = height \/ rows_equal current m previous (lines + m) = false).
Proof.
  revert n. induction fuel as [|fuel IH]; intros n Hn Hfuel; cbn [matching_rows].
  { split_and!; [lia | lia | lia | left; lia]. }
  destruct (Z.ltb_spec (lines + n) height) as [Hlt|Hge]; cbn [andb].
  2: { split_and!; [lia | lia | lia | left; lia]. }
  destruct (rows_equal current n previous (lines + n)) eqn:He.
  2: { split_and!; [lia | lia | lia | by right]. }
  destruct (IH (n + 1) ltac:(lia) ltac:(lia)) as (H1' & H2' & H3' & H4'). split_and!; [lia | done | | done].
  intros r Hr. destruct (Z.eq_dec r n) as [-> | ]; [done | apply H3'; lia].
Qed.

Lemma find_plan_spec fuel current previous lines height :
  1 <= lines -> height - lines <= Z.of_nat fuel ->
  match find_plan fuel current previous lines height with
  | Some p => lines <= lines_scrolled p < height /\ 1 <= scroll_height p /\
      lines_scrolled p + scroll_height p <= height /\
      (forall r, 0 <= r < scroll_height p -> rows_equal current r previous (lines_scrolled p + r) = true) /\
      (lines_scrolled p + scroll_height p = height \/
       rows_equal current (scroll_height p) previous (lines_scrolled p + scroll_height p) = false) /\
      (forall l, lines <= l < lines_scrolled p -> rows_equal current 0 previous l = false)
  | None => forall l, lines <= l < height -> rows_equal current 0 previous l = false
  end.
Proof.
  revert lines. induction fuel as [|fuel IH]; intros lines Hl Hfuel; cbn [find_plan].
  { intros l Hr. lia. }
  destruct (Z.ltb_spec lines height) as [Hlt|Hge]; [|intros l Hr; lia].
  destruct (rows_equal current 0 previous lines) eqn:He.
  - cbn [lines_scrolled scroll_height].
    destruct (matching_rows_spec (Z.to_nat height) current previous lines height 1 ltac:(lia) ltac:(lia))
      as (H1' & H2' & H3' & H4').
    split_and!; [lia | lia | done | done | | done | intros l Hr; lia].
    intros r Hr. destruct (Z.eq_dec r 0) as [-> | ]; [by rewrite Z.add_0_r | apply H3'; lia].
  - specialize (IH (lines + 1) ltac:(lia) ltac:(lia)). destruct (find_plan fuel _ _ _ _) as [p|].
    + destruct IH as (? & ? & ? & ? & ? & Hmin). split_and!; [lia | lia | done | done | done | done |].
      intros l Hr. destruct (Z.eq_dec l lines) as [-> | ]; [done | apply Hmin; lia].
    + intros l Hr. destruct (Z.eq_dec l lines) as [-> | ]; [done | apply IH; lia].
Qed.


End Display.

(** ** Witnesses, on a screen of one line *)
#[local] Existing Instance OneLine.emulator.
#[local] Existing Instance Rfc4648.engine.

#[local] Instance one_line_renderer : Renderer := {|
  cell := byte;
  cell_eq := _;
  cell_at := fun v _ column => default (z2b 0x20) (OneLine.written v !! Z.to_nat column);
  row_wrapped := fun _ _ => false;
  cursor_row := fun _ => 0;
  visible_rows_as_evicted := fun v => [Eviction.mkEvicted (OneLine.written v) false];
  hide_cursor := fun _ => false;
  contents_diff := fun v _ => OneLine.written v;
  contents_formatted := OneLine.written;
  input_mode_diff := fun _ _ => [];
|}.

(** The screen after a marker, over a blank one. *)
Definition shown_after (marker : bytes) : DisplayScreen :=
  mkDisplay (blank 1 80) true (feed default_state (z2b 0x1b :: marker ++ [z2b 7])).
Definition before : DisplayScreen := mkDisplay (blank 1 80) true default_state.

(** Rows seven and on are carried; the one on the screen and five more are not. *)
Lemma replay_accounts_for_every_row_witness :
  exists replay, scrollback_replay (shown_after (text "]777;zosh-scrollback;6;AQAAAAJoaQ")) before = Ok replay /\
    replay <> None.
Proof.
  destruct (replay_accounts_for_every_row (shown_after (text "]777;zosh-scrollback;6;AQAAAAJoaQ")) before)
    as (replay & Hr & Hn & _); [apply fed_ok | apply default_state_ok |].
  exists replay. split; [done|]. intros H. apply Hn in H as [H|[H|H]]; vm_compute in H; first [discriminate H | by apply H].
Defined.

Lemma replay_is_harmless_witness :
  exists output, scrollback_replay (shown_after (text "]777;zosh-scrollback;6;AQAAAAJoaQ")) before = Ok (Some output) /\
    harmless output.
Proof.
  destruct (scrollback_replay (shown_after (text "]777;zosh-scrollback;6;AQAAAAJoaQ")) before) as [[output|]|e|] eqn:Hr;
    [|by vm_compute in Hr..].
  exists output. split; [done|].
  by apply (replay_is_harmless (shown_after (text "]777;zosh-scrollback;6;AQAAAAJoaQ")) before);
    [apply fed_ok | apply default_state_ok|].
Defined.

(** The replay is documented to scroll exactly the missing rows off; a gap is one
    line, however many rows it stands for. *)
Lemma gap_scrolls_one_line :
  let s := shown_after (text "]777;zosh-scrollback;7;") in
  evicted (scrollback s) - evicted (scrollback before) = 7 /\
  exists output, scrollback_replay s before = Ok (Some output) /\
    zlen (filter (fun b => b = z2b 0x0a) output) = 2.
Proof. split; [by vm_compute|]. eexists. split; [vm_compute; reflexivity | by vm_compute]. Qed.

End Display.
