(* ===== verification/Replay.v ===== *)
(** * The receiver's replay filter

    Models [crates/moshcatty/src/replay.rs]: a high-water mark and a ring of
    1024 bits, in sixteen 64-bit words, that says which crypto sequence numbers
    have been opened.  [Spec] is the contract the module documentation states,
    in terms of the complete history of the numbers opened so far; the ring
    refines it. *)
From Stdlib Require Import ZArith Lia List Bool.
From stdpp Require Import base numbers list list_numbers.
From S2P Require Import Prelude.
Open Scope Z_scope.

(** ** The filter, as the code has it *)
Module ReplayWindow.

Definition REPLAY_WINDOW : Z := 1024.
Definition WORDS : Z := REPLAY_WINDOW / 64.

Inductive Freshness := InOrder | OutOfOrder | IsReplay.

#[global] Instance Freshness_eq_dec : EqDecision Freshness.
Proof. solve_decision. Defined.

Definition accepted (f : Freshness) : bool := negb (bool_decide (f = IsReplay)).

Record t := mk { highest : option Z; bits : list Z }.

Definition new : t := mk None (replicate (Z.to_nat WORDS) 0).

(** The word and the mask of a number's bit. *)
Definition slot (seq : Z) : nat * Z :=
  let index := seq mod REPLAY_WINDOW in
  (Z.to_nat (index / 64), Z.shiftl 1 (index mod 64)).

(** [self.bits[word]]; [slot_lt] shows the index is always in range. *)
Definition word (w : t) (i : nat) : Z := default 0 (bits w !! i).

Definition is_set (w : t) (seq : Z) : bool :=
  let '(i, mask) := slot seq in negb (Z.land (word w i) mask =? 0).

Definition set (w : t) (seq : Z) : t :=
  let '(i, mask) := slot seq in
  mk (highest w) (<[i := Z.lor (word w i) mask]> (bits w)).

Definition clear (w : t) (seq : Z) : t :=
  let '(i, mask) := slot seq in
  mk (highest w) (<[i := Z.land (word w i) (not_u64 mask)]> (bits w)).

Definition check (w : t) (seq : Z) : Freshness :=
  match highest w with
  | None => InOrder
  | Some h =>
      if h <? seq then InOrder
      else if (REPLAY_WINDOW <=? h - seq) || is_set w seq then IsReplay
      else OutOfOrder
  end.

(** [for stale in highest + 1..seq { self.clear(stale); }] *)
Definition clear_range (w : t) (h seq : Z) : t :=
  foldl clear w (seqZ (h + 1) (seq - (h + 1))).

Definition commit (w : t) (seq : Z) : t * Freshness :=
  let freshness := check w seq in
  match freshness with
  | IsReplay => (w, freshness)
  | OutOfOrder => (set w seq, freshness)
  | InOrder =>
      let w1 :=
        match highest w with
        | Some h =>
            if seq - h <? REPLAY_WINDOW then clear_range w h seq
            else mk (highest w) (replicate (Z.to_nat WORDS) 0)
        | None => mk (highest w) (replicate (Z.to_nat WORDS) 0)
        end in
      (set (mk (Some seq) (bits w1)) seq, freshness)
  end.

(** A run of commits, with how each was classified. *)
Fixpoint commits (w : t) (seqs : list Z) : t * list Freshness :=
  match seqs with
  | [] => (w, [])
  | seq :: rest =>
      let '(w1, f) := commit w seq in
      let '(w2, fs) := commits w1 rest in (w2, f :: fs)
  end.

End ReplayWindow.

(** ** The contract: what the whole history of opened numbers says *)
Module Spec.
Import ReplayWindow.

(** The newest number opened. *)
Definition newest (hist : list Z) : option Z :=
  match hist with [] => None | x :: l => Some (foldr Z.max x l) end.

Definition check (hist : list Z) (seq : Z) : Freshness :=
  match newest hist with
  | None => InOrder
  | Some m =>
      if m <? seq then InOrder
      else if bool_decide (m - seq < REPLAY_WINDOW /\ seq ∉ hist) then OutOfOrder
      else IsReplay
  end.

Definition commit (hist : list Z) (seq : Z) : list Z * Freshness :=
  let f := check hist seq in (if accepted f then seq :: hist else hist, f).

Fixpoint commits (hist : list Z) (seqs : list Z) : list Z * list Freshness :=
  match seqs with
  | [] => (hist, [])
  | seq :: rest =>
      let '(h1, f) := commit hist seq in
      let '(h2, fs) := commits h1 rest in (h2, f :: fs)
  end.

End Spec.

(** ** The ring as 1024 bits *)
Section Ring.
Import ReplayWindow.

(** Bit [i] of the ring. *)
Definition ring_bit (w : t) (i : Z) : bool :=
  Z.testbit (word w (Z.to_nat (i / 64))) (i mod 64).

Definition ring_ok (w : t) : Prop := length (bits w) = Z.to_nat WORDS.

Lemma slot_lt (w : t) seq : ring_ok w -> (fst (slot seq) < length (bits w))%nat.
Proof.
  unfold ring_ok, slot, WORDS, REPLAY_WINDOW; simpl. intros ->.
  pose proof (Z.mod_pos_bound seq 1024 ltac:(lia)).
  assert (seq mod 1024 / 64 < 16) by (apply Z.div_lt_upper_bound; lia).
  pose proof (Z.div_pos (seq mod 1024) 64 ltac:(lia) ltac:(lia)).
  change (1024 / 64) with 16. lia.
Qed.

Lemma testbit_shiftl1 k n : 0 <= k -> 0 <= n -> Z.testbit (Z.shiftl 1 k) n = (n =? k).
Proof.
  intros Hk Hn. rewrite Z.shiftl_1_l, Z.pow2_bits_eqb by done. by rewrite Z.eqb_sym.
Qed.

Lemma land_mask_zero a k : 0 <= k -> (Z.land a (Z.shiftl 1 k) =? 0) = negb (Z.testbit a k).
Proof.
  intros Hk. rewrite Z.shiftl_1_l.
  destruct (Z.testbit a k) eqn:E; simpl.
  - apply Z.eqb_neq. intros H0. assert (Z.testbit (Z.land a (2 ^ k)) k = false) as Hf
      by (rewrite H0; apply Z.bits_0).
    rewrite Z.land_spec, E, Z.pow2_bits_true in Hf by done. done.
  - apply Z.eqb_eq, Z.bits_inj'. intros n Hn. rewrite Z.land_spec, Z.bits_0.
    rewrite Z.pow2_bits_eqb by done. destruct (Z.eqb_spec k n) as [<-|]; [by rewrite E|].
    apply andb_false_r.
Qed.

Lemma is_set_ring w seq : is_set w seq = ring_bit w (seq mod REPLAY_WINDOW).
Proof.
  unfold is_set, ring_bit, slot. rewrite land_mask_zero.
  - by rewrite negb_involutive.
  - apply Z.mod_pos_bound. lia.
Qed.

Lemma ring_split i j : 0 <= i < 1024 -> 0 <= j < 1024 ->
  i <> j -> Z.to_nat (i / 64) = Z.to_nat (j / 64) -> i mod 64 <> j mod 64.
Proof.
  intros Hi Hj Hne Hd Hm. apply Hne.
  assert (i / 64 = j / 64) by
    (apply Z2Nat.inj; [apply Z.div_pos; lia | apply Z.div_pos; lia | done]).
  rewrite (Z.div_mod i 64), (Z.div_mod j 64) by lia. lia.
Qed.

(** Writing one word of the ring changes one bit, when the new word differs
    from the old one in that bit only. *)
Lemma ring_bit_insert w (hi : option Z) seq v (b : bool) i :
  ring_ok w -> 0 <= i < REPLAY_WINDOW ->
  (forall n, 0 <= n < 64 -> Z.testbit v n =
     if n =? (seq mod REPLAY_WINDOW) mod 64 then b
     else Z.testbit (word w (fst (slot seq))) n) ->
  ring_bit (mk hi (<[fst (slot seq) := v]> (bits w))) i =
  if i =? seq mod REPLAY_WINDOW then b else ring_bit w i.
Proof.
  intros Hok Hi Hv. pose proof (slot_lt w seq Hok) as Hlt.
  pose proof (Z.mod_pos_bound i 64 ltac:(lia)).
  pose proof (Z.mod_pos_bound seq REPLAY_WINDOW ltac:(unfold REPLAY_WINDOW; lia)).
  unfold ring_bit, word; simpl.
  destruct (decide (fst (slot seq) = Z.to_nat (i / 64))) as [Heq|Hne].
  - simpl in Heq. rewrite <-Heq, list_lookup_insert_eq by done. simpl.
    rewrite Hv by done. unfold word; simpl. rewrite Heq.
    destruct (Z.eqb_spec i (seq mod REPLAY_WINDOW)) as [->|Hne].
    + by rewrite Z.eqb_refl.
    + destruct (Z.eqb_spec (i mod 64) ((seq mod REPLAY_WINDOW) mod 64)) as [E|]; [|done].
      exfalso. unfold REPLAY_WINDOW in *. by apply (ring_split i (seq mod 1024)).
  - simpl in Hne. rewrite list_lookup_insert_ne by done.
    destruct (Z.eqb_spec i (seq mod REPLAY_WINDOW)) as [->|]; done.
Qed.

Lemma ring_ok_set w seq : ring_ok w -> ring_ok (set w seq).
Proof. unfold ring_ok, set, slot. simpl. by rewrite length_insert. Qed.
Lemma ring_ok_clear w seq : ring_ok w -> ring_ok (clear w seq).
Proof. unfold ring_ok, clear, slot. simpl. by rewrite length_insert. Qed.

Lemma ring_bit_set w seq i : ring_ok w -> 0 <= i < REPLAY_WINDOW ->
  ring_bit (set w seq) i = if i =? seq mod REPLAY_WINDOW then true else ring_bit w i.
Proof.
  intros Hok Hi. apply (ring_bit_insert w (highest w) seq); [done..|].
  intros n Hn. rewrite Z.lor_spec, testbit_shiftl1 by (try apply Z.mod_pos_bound; lia).
  destruct (n =? _); simpl; [apply orb_true_r | apply orb_false_r].
Qed.

Lemma ring_bit_clear w seq i : ring_ok w -> 0 <= i < REPLAY_WINDOW ->
  ring_bit (clear w seq) i = if i =? seq mod REPLAY_WINDOW then false else ring_bit w i.
Proof.
  intros Hok Hi. apply (ring_bit_insert w (highest w) seq); [done..|].
  intros n Hn. unfold not_u64. rewrite Z.land_spec, Z.lxor_spec.
  rewrite testbit_shiftl1, Z.ones_spec_low by (try apply Z.mod_pos_bound; lia).
  destruct (n =? _); simpl; [apply andb_false_r | apply andb_true_r].
Qed.

Lemma highest_clears w l : highest (foldl clear w l) = highest w.
Proof. revert w; induction l as [|x l IH]; intros w; simpl; [done|]. by rewrite IH. Qed.

Lemma ring_clears w l : ring_ok w ->
  ring_ok (foldl clear w l) /\
  forall i, 0 <= i < REPLAY_WINDOW ->
    ring_bit (foldl clear w l) i =
      if existsb (fun s => i =? s mod REPLAY_WINDOW) l then false else ring_bit w i.
Proof.
  revert w; induction l as [|x l IH]; intros w Hok; simpl; [done|].
  destruct (IH _ (ring_ok_clear w x Hok)) as [Hok' Hbit]. split; [done|].
  intros i Hi. rewrite Hbit by done. rewrite ring_bit_clear by done.
  destruct (i =? x mod REPLAY_WINDOW); simpl; destruct (existsb _ _); done.
Qed.

Lemma ring_bit_zero hi i : ring_bit (mk hi (replicate (Z.to_nat WORDS) 0)) i = false.
Proof.
  unfold ring_bit, word; cbn [bits].
  destruct (replicate (Z.to_nat WORDS) 0 !! Z.to_nat (i / 64)) as [x|] eqn:E; cbn [default from_option].
  - apply lookup_replicate in E as [-> _]. apply Z.bits_0.
  - apply Z.bits_0.
Qed.

Lemma ring_bit_highest hi w i : ring_bit (mk hi (bits w)) i = ring_bit w i.
Proof. done. Qed.

End Ring.

(** ** The ring refines the history *)
Section Refinement.
Import ReplayWindow.

(** [represents w hist]: the ring [w] is what the filter holds after opening
    exactly the numbers of [hist]. *)
Record represents (w : t) (hist : list Z) : Prop := {
  rep_ok : ring_ok w;
  rep_u64 : Forall (fits 64) hist;
  rep_highest : highest w = Spec.newest hist;
  rep_bits : forall m seq, Spec.newest hist = Some m ->
    m - REPLAY_WINDOW < seq <= m -> 0 <= seq ->
    is_set w seq = bool_decide (seq ∈ hist);
}.

Lemma newest_cons x hist :
  Spec.newest (x :: hist) =
  Some (match Spec.newest hist with Some m => Z.max m x | None => x end).
Proof.
  destruct hist as [|y l]; [done|]. cbn [Spec.newest foldr]. f_equal.
  revert y; induction l as [|z l IH]; intros y; simpl in *; [lia|].
  specialize (IH y). lia.
Qed.

Lemma newest_ge hist m x : Spec.newest hist = Some m -> x ∈ hist -> x <= m.
Proof.
  revert m; induction hist as [|y l IH]; intros m Hm Hx; [by apply not_elem_of_nil in Hx|].
  rewrite newest_cons in Hm. injection Hm as <-.
  apply elem_of_cons in Hx as [->|Hx].
  - destruct (Spec.newest l); lia.
  - destruct (Spec.newest l) as [m'|] eqn:E; [specialize (IH m' eq_refl Hx); lia|].
    destruct l; [by apply not_elem_of_nil in Hx | done].
Qed.

Lemma represents_new : represents new [].
Proof. split; [done | constructor | done | done]. Qed.

Lemma is_set_range w seq i : ring_ok w -> 0 <= seq -> 0 <= i ->
  is_set (set w seq) i =
  (if i mod REPLAY_WINDOW =? seq mod REPLAY_WINDOW then true else is_set w i).
Proof.
  intros Hok Hs Hi. rewrite !is_set_ring, ring_bit_set; [done..|].
  apply Z.mod_pos_bound. unfold REPLAY_WINDOW; lia.
Qed.

(** Two numbers less than a window apart share no bit. *)
Lemma window_inj a b : Z.abs (a - b) < REPLAY_WINDOW ->
  a mod REPLAY_WINDOW = b mod REPLAY_WINDOW -> a = b.
Proof.
  unfold REPLAY_WINDOW. intros Hd Hm.
  pose proof (Z.div_mod a 1024 ltac:(lia)). pose proof (Z.div_mod b 1024 ltac:(lia)). lia.
Qed.

Lemma check_represents w hist seq : represents w hist -> fits 64 seq ->
  check w seq = Spec.check hist seq.
Proof.
  intros [Hok Hu Hhi Hbits] Hseq. unfold check, Spec.check. rewrite Hhi.
  destruct (Spec.newest hist) as [m|] eqn:E; [|done].
  destruct (Z.ltb_spec m seq) as [|Hle]; [done|].
  destruct (Z.leb_spec REPLAY_WINDOW (m - seq)) as [Hfar|Hnear]; simpl.
  - rewrite bool_decide_eq_false_2; [done|]. intros [? _]. lia.
  - rewrite (Hbits m seq) by (unfold fits in *; first [done | lia]).
    do 2 case_bool_decide; try done; exfalso; tauto.
Qed.

(** The ring after its numbers up to [seq] have been reused. *)
Lemma represents_forget w hist m seq hi : represents w hist ->
  Spec.newest hist = Some m -> m < seq -> 0 <= m ->
  let w1 := if seq - m <? REPLAY_WINDOW then clear_range w m seq
            else mk hi (replicate (Z.to_nat WORDS) 0) in
  ring_ok w1 /\ forall s, seq - REPLAY_WINDOW < s < seq -> 0 <= s ->
    is_set w1 s = bool_decide (s ∈ hist).
Proof.
  intros Hrep Hm Hlt H0. destruct (Z.ltb_spec (seq - m) REPLAY_WINDOW) as [Hnear|Hfar]; cbv zeta.
  - destruct (ring_clears w (seqZ (m + 1) (seq - (m + 1))) (rep_ok _ _ Hrep)) as [Hok Hbit].
    split; [done|]. intros s Hs Hs0. unfold clear_range. rewrite is_set_ring.
    rewrite Hbit by (apply Z.mod_pos_bound; unfold REPLAY_WINDOW; lia).
    destruct (existsb _ _) eqn:E.
    + apply existsb_exists in E as (x & Hx & Heq). apply list_elem_of_In, elem_of_seqZ in Hx.
      apply Z.eqb_eq, window_inj in Heq; [|unfold REPLAY_WINDOW in *; lia]. subst x.
      rewrite bool_decide_eq_false_2; [done|]. intros Hin.
      pose proof (newest_ge hist m s Hm Hin). lia.
    + rewrite <-is_set_ring. destruct (Z.leb_spec s m) as [Hsm|Hsm].
      * apply (rep_bits _ _ Hrep m); [done | lia | done].
      * exfalso. apply not_true_iff_false in E. apply E, existsb_exists. exists s.
        split; [apply list_elem_of_In, elem_of_seqZ; lia | apply Z.eqb_refl].
  - split; [done|]. intros s Hs Hs0. rewrite is_set_ring, ring_bit_zero.
    rewrite bool_decide_eq_false_2; [done|]. intros Hin.
    pose proof (newest_ge hist m s Hm Hin). lia.
Qed.

Lemma represents_set w1 hist seq : ring_ok w1 -> Forall (fits 64) hist -> fits 64 seq ->
  highest w1 = Spec.newest (seq :: hist) ->
  (forall m s, Spec.newest (seq :: hist) = Some m -> m - REPLAY_WINDOW < s <= m -> 0 <= s ->
     s <> seq -> is_set w1 s = bool_decide (s ∈ hist)) ->
  (forall m, Spec.newest (seq :: hist) = Some m -> m - REPLAY_WINDOW < seq) ->
  represents (set w1 seq) (seq :: hist).
Proof.
  intros Hok Hu Hseq Hhi Hbits Hnear. split.
  - by apply ring_ok_set.
  - by constructor.
  - unfold set, slot. simpl. done.
  - intros m s Hm Hs Hs0. specialize (Hnear m Hm).
    rewrite is_set_range by (unfold fits in *; first [done | lia]).
    pose proof (newest_ge _ m seq Hm ltac:(left)).
    destruct (Z.eqb_spec (s mod REPLAY_WINDOW) (seq mod REPLAY_WINDOW)) as [E|E].
    + apply window_inj in E; [|unfold REPLAY_WINDOW in *; lia]. subst s.
      symmetry. apply bool_decide_eq_true_2. left.
    + rewrite (Hbits m s Hm Hs Hs0) by congruence.
      apply bool_decide_ext. rewrite elem_of_cons. split; [by right|].
      intros [->|]; [done|done].
Qed.

(** [commit] answers what [check] answers. *)
Lemma commit_check w seq : snd (commit w seq) = check w seq.
Proof. unfold commit. by destruct (check w seq). Qed.

Lemma commit_represents w hist seq : represents w hist -> fits 64 seq ->
  represents (fst (commit w seq)) (fst (Spec.commit hist seq)).
Proof.
  intros Hrep Hseq. unfold commit, Spec.commit.
  rewrite (check_represents w hist seq Hrep Hseq).
  unfold Spec.check. rewrite (rep_highest _ _ Hrep).
  destruct (Spec.newest hist) as [m|] eqn:Hm.
  - destruct (Z.ltb_spec m seq) as [Hlt|Hle]; simpl.
    + assert (0 <= m).
      { destruct hist as [|x l]; [done|]. pose proof (newest_ge _ m x Hm ltac:(left)).
        pose proof (rep_u64 _ _ Hrep) as Hu. apply Forall_cons in Hu as [Hx _].
        unfold fits in Hx; lia. }
      destruct (represents_forget w hist m seq (Some m) Hrep Hm Hlt ltac:(done)) as [Hok Hbits].
      apply represents_set; [done | apply Hrep | done | | |].
      * rewrite newest_cons, Hm. simpl. f_equal. lia.
      * intros m' s. rewrite newest_cons, Hm. intros [= <-] Hs Hs0 Hne.
        apply Hbits; [lia | done].
      * intros m'. rewrite newest_cons, Hm. intros [= <-]. unfold REPLAY_WINDOW. lia.
    + case_bool_decide as Hd; simpl; [|done]. destruct Hd as [Hnear Hnin].
      apply represents_set; [apply Hrep | apply Hrep | done | | |].
      * rewrite newest_cons, Hm, (rep_highest _ _ Hrep), Hm. f_equal. lia.
      * intros m' s. rewrite newest_cons, Hm. intros [= <-] Hs Hs0 Hne.
        apply (rep_bits _ _ Hrep m); [done | lia | done].
      * intros m'. rewrite newest_cons, Hm. intros [= <-]. lia.
  - destruct hist as [|? ?]; [|by rewrite newest_cons in Hm]. simpl.
    apply represents_set; [done | constructor | done | done | |].
    + intros m' s Hm' Hs Hs0 Hne. injection Hm' as <-.
      rewrite is_set_ring. unfold ring_bit. simpl bits. symmetry.
      rewrite bool_decide_eq_false_2 by apply not_elem_of_nil. symmetry. apply ring_bit_zero.
    + intros m' [= <-]. simpl. unfold REPLAY_WINDOW; lia.
Qed.

Lemma commits_represents w hist seqs : represents w hist -> Forall (fits 64) seqs ->
  let '(w', fs) := commits w seqs in
  let '(hist', fs') := Spec.commits hist seqs in
  fs = fs' /\ represents w' hist'.
Proof.
  intros Hrep Hs. revert w hist Hrep; induction Hs as [|seq rest Hseq Hs IH]; intros w hist Hrep; [done|].
  cbn [commits Spec.commits].
  pose proof (commit_represents w hist seq Hrep Hseq) as Hrep1.
  pose proof (commit_check w seq) as Hf. rewrite (check_represents w hist seq Hrep Hseq) in Hf.
  change (Spec.check hist seq) with (snd (Spec.commit hist seq)) in Hf.
  destruct (commit w seq) as [w1 f], (Spec.commit hist seq) as [h1 f'].
  simpl in Hf, Hrep1. subst f'. specialize (IH _ _ Hrep1).
  destruct (commits w1 rest) as [w2 fs], (Spec.commits h1 rest) as [h2 fs'].
  destruct IH as [-> IH]. by split.
Qed.

(** The history never holds a number twice. *)
Lemma spec_commit_nodup hist seq : NoDup hist -> NoDup (fst (Spec.commit hist seq)).
Proof.
  intros Hnd. unfold Spec.commit; simpl. destruct (accepted _) eqn:Hacc; [|done].
  apply NoDup_cons; split; [|done]. intros Hin. unfold accepted, Spec.check in Hacc.
  destruct (Spec.newest hist) as [m|] eqn:E.
  - pose proof (newest_ge _ m seq E Hin). destruct (Z.ltb_spec m seq); [lia|].
    rewrite (bool_decide_eq_false_2 (m - seq < REPLAY_WINDOW /\ seq ∉ hist)) in Hacc
      by (intros [_ Hnin]; contradiction). done.
  - destruct hist; [by apply not_elem_of_nil in Hin | by rewrite newest_cons in E].
Qed.

(** The numbers a run of commits opened, oldest first. *)
Definition opened (seqs : list Z) (fs : list Freshness) : list Z :=
  fst <$> filter (fun p => accepted (snd p) = true) (zip seqs fs).

Lemma spec_commits_opened seqs hist :
  fst (Spec.commits hist seqs) = reverse (opened seqs (snd (Spec.commits hist seqs))) ++ hist.
Proof.
  revert hist; induction seqs as [|seq rest IH]; intros hist; [done|]. simpl.
  specialize (IH (fst (Spec.commit hist seq))). unfold Spec.commit in *. simpl in *.
  destruct (Spec.commits _ rest) as [h2 fs]. simpl in *. rewrite IH.
  unfold opened. simpl. rewrite filter_cons. simpl.
  destruct (accepted _); simpl; [|done]. by rewrite reverse_cons, <-app_assoc.
Qed.

Lemma spec_commits_nodup hist seqs : NoDup hist -> NoDup (fst (Spec.commits hist seqs)).
Proof.
  revert hist; induction seqs as [|seq rest IH]; intros hist Hnd; [done|].
  cbn [Spec.commits]. pose proof (spec_commit_nodup hist seq Hnd) as H1.
  destruct (Spec.commit hist seq) as [h1 f]. specialize (IH h1 H1).
  by destruct (Spec.commits h1 rest) as [h2 fs].
Qed.

End Refinement.

(** ** Properties *)
Section Properties.
Import ReplayWindow.

(** C17. The ring of 1024 bits refines the history it stands for: whatever
    64-bit numbers have been committed, in whatever order, the filter
    classifies every later number exactly as the complete history would.  It is
    in order when it is above everything opened, out of order when it is less
    than a window below the newest and has not been opened, and a replay
    otherwise. *)
Theorem replay_refines_history (seqs : list Z) (seq : Z) :
  Forall (fits 64) seqs -> fits 64 seq ->
  snd (commits new seqs) = snd (Spec.commits [] seqs) /\
  check (fst (commits new seqs)) seq = Spec.check (fst (Spec.commits [] seqs)) seq.
Proof.
  intros Hs Hseq. pose proof (commits_represents new [] seqs represents_new Hs) as H.
  destruct (commits new seqs) as [w fs], (Spec.commits [] seqs) as [hist fs'].
  destruct H as [-> Hrep]. simpl. split; [done|]. by apply check_represents.
Qed.

(** No sequence number is accepted twice in the life of a filter, however
    the numbers are reordered, repeated or spread over the 64-bit range. *)
Theorem replay_never_accepts_twice (seqs : list Z) :
  Forall (fits 64) seqs -> NoDup (opened seqs (snd (commits new seqs))).
Proof.
  intros Hs. pose proof (commits_represents new [] seqs represents_new Hs) as H.
  pose proof (spec_commits_opened seqs []) as Ho.
  pose proof (spec_commits_nodup [] seqs (NoDup_nil_2)) as Hnd.
  destruct (commits new seqs) as [w fs], (Spec.commits [] seqs) as [hist fs'].
  destruct H as [-> _]. simpl in *. rewrite app_nil_r in Ho. subst hist.
  by rewrite reverse_Permutation in Hnd.
Qed.

Lemma replay_refines_history_witness :
  snd (commits new [5; 4; 5; 2000; 976; 977; 18446744073709551615]) =
    [InOrder; OutOfOrder; IsReplay; InOrder; IsReplay; OutOfOrder; InOrder] /\
  check (fst (commits new [5; 4; 5; 2000; 976; 977; 18446744073709551615])) 2000 =
    Spec.check (fst (Spec.commits [] [5; 4; 5; 2000; 976; 977; 18446744073709551615])) 2000.
Proof.
  split.
  - vm_compute. reflexivity.
  - apply replay_refines_history; [|split; vm_compute; congruence].
    repeat constructor; vm_compute; congruence.
Defined.

Lemma replay_never_accepts_twice_witness :
  opened [5; 4; 5; 2000; 976; 977] (snd (commits new [5; 4; 5; 2000; 976; 977])) = [5; 4; 2000; 977]
  /\ NoDup (opened [5; 4; 5; 2000; 976; 977] (snd (commits new [5; 4; 5; 2000; 976; 977]))).
Proof.
  split.
  - vm_compute. reflexivity.
  - apply replay_never_accepts_twice. repeat constructor; vm_compute; congruence.
Defined.

End Properties.
