(* ===== verification/Fragment.v ===== *)
(** * Datagram fragmentation

    Models [crates/moshcatty/src/fragment.rs]: the fragment header codec, the
    splitting of a compressed instruction into fragments, and the assembler
    that collects them whatever order they arrive in. *)
From Stdlib Require Import ZArith Lia List Bool.
From stdpp Require Import base numbers list list_numbers.
From S2P Require Import Prelude.

(** ** The codec *)
Module Fragment.
Open Scope Z_scope.

Definition FRAGMENT_HEADER_SIZE : nat := 10.
Definition FRAGMENT_FINAL_BIT : Z := 0x8000.
Definition MAX_FRAGMENT_PAYLOAD : nat := 1214.
Definition MAX_INSTRUCTION_BYTES : Z := 2048 * 2048.

Record t := mk {
  id : Z;
  fragment_num : Z;
  is_final : bool;
  payload : bytes;
}.

#[export] Instance t_eq_dec : EqDecision t.
Proof. solve_decision. Defined.

Inductive error := FragmentTooShort.

Definition num_and_final (f : t) : Z :=
  let num := Z.land (fragment_num f) 0x7fff in
  if is_final f then Z.lor num FRAGMENT_FINAL_BIT else num.

Definition encode (f : t) : bytes :=
  be_bytes 8 (id f) ++ be_bytes 2 (num_and_final f) ++ payload f.

Definition decode (data : bytes) : result error t :=
  if (length data <? FRAGMENT_HEADER_SIZE)%nat then Err FragmentTooShort
  else
    let id := from_be (take 8 data) in
    let num_and_final := from_be (take 2 (drop 8 data)) in
    Ok (mk id (Z.land num_and_final 0x7fff)
           (negb (Z.land num_and_final FRAGMENT_FINAL_BIT =? 0))
           (drop FRAGMENT_HEADER_SIZE data)).

(** One round of the splitting loop. *)
Definition nth_fragment (id : Z) (data : bytes) (max_payload n i : nat) : t :=
  let start := (i * max_payload)%nat in
  let stop := Nat.min (start + max_payload) (length data) in
  mk id (wrap 16 (Z.of_nat i)) (i + 1 =? n)%nat (take (stop - start) (drop start data)).

Definition fragmentize_with_payload (id : Z) (data : bytes) (max_payload : nat) : list t :=
  let max_payload := Nat.max max_payload 1 in
  let fragment_count := div_ceil (Nat.max (length data) 1) max_payload in
  if 0x8000 <? Z.of_nat fragment_count then []
  else match data with
  | [] => [mk id 0 true []]
  | _ =>
      let n := div_ceil (length data) max_payload in
      nth_fragment id data max_payload n <$> seq 0 n
  end.

Definition fragmentize (id : Z) (data : bytes) : list t :=
  fragmentize_with_payload id data MAX_FRAGMENT_PAYLOAD.

End Fragment.

(** ** The assembler *)
Module Assembler.
Open Scope Z_scope.

Record t := mk {
  current_id : Z;
  fragments : list (option bytes);
  total_num : option nat;
  total_size : Z;
  has_id : bool;
}.

Definition new : t := mk 0 [] None 0 false.

(** [self.fragments.clear(); self.total_num = None; self.total_size = 0;] *)
Definition cleared (a : t) : t := mk (current_id a) [] None 0 (has_id a).

(** A fragment of another instruction discards what was collected. *)
Definition switch (a : t) (f : Fragment.t) : t :=
  if negb (has_id a) || negb (Fragment.id f =? current_id a)
  then mk (Fragment.id f) [] None 0 true else a.

(** [self.fragments.resize_with(idx + 1, || None)], when it is too short. *)
Definition grow (frags : list (option bytes)) (idx : nat) : list (option bytes) :=
  if (length frags <=? idx)%nat then frags ++ replicate (idx + 1 - length frags) None else frags.

Definition slot_empty (frags : list (option bytes)) (idx : nat) : bool :=
  match frags !! idx with Some None => true | _ => false end.

(** [usize::saturating_add] *)
Definition saturating_add (a b : Z) : Z := Z.min (a + b) u64_max.

(** The message, when every one of the [total] slots is filled. *)
Definition assembled (frags : list (option bytes)) (total : nat) : option bytes :=
  if (length frags <? total)%nat then None
  else if forallb (fun o => bool_decide (is_Some o)) (take total frags)
  then Some (concat (default [] <$> take total frags)) else None.

Definition add (a0 : t) (f : Fragment.t) : t * option bytes :=
  let a := switch a0 f in
  let idx := Z.to_nat (Fragment.fragment_num f) in
  let frags := grow (fragments a) idx in
  let is_new_slot := slot_empty frags idx in
  let size := if is_new_slot then saturating_add (total_size a) (zlen (Fragment.payload f))
              else total_size a in
  if is_new_slot && (Fragment.MAX_INSTRUCTION_BYTES <? size) then (cleared a, None)
  else
    let frags := <[idx := Some (Fragment.payload f)]> frags in
    let total := if Fragment.is_final f then Some (idx + 1)%nat else total_num a in
    let a' := mk (current_id a) frags total size (has_id a) in
    match total with
    | None => (a', None)
    | Some total =>
        match assembled frags total with
        | None => (a', None)
        | Some msg => (cleared a', Some msg)
        end
    end.

(** A run of fragments, with what each completed. *)
Fixpoint feed (a : t) (fs : list Fragment.t) : t * list (option bytes) :=
  match fs with
  | [] => (a, [])
  | f :: rest =>
      let '(a1, o) := add a f in
      let '(a2, os) := feed a1 rest in (a2, o :: os)
  end.

End Assembler.

(** ** The header codec *)
Section Codec.
Import Fragment.
Open Scope Z_scope.

(** A fragment as the sender makes one: a 64-bit id, a 15-bit number. *)
Definition wf_fragment (f : t) : Prop := fits 64 (id f) /\ fits 15 (fragment_num f).

Lemma land_7fff z : Z.land z 0x7fff = z mod 2 ^ 15.
Proof. change 0x7fff with (Z.ones 15). by rewrite Z.land_ones. Qed.

Lemma num_and_final_value f : fits 15 (fragment_num f) ->
  num_and_final f = fragment_num f + (if is_final f then 2 ^ 15 else 0).
Proof.
  intros Hn. unfold num_and_final. rewrite land_7fff, Z.mod_small by done.
  destruct (is_final f); [|lia]. unfold FRAGMENT_FINAL_BIT.
  change 0x8000 with (2 ^ 15). symmetry. apply Z.add_nocarry_lor, Z.bits_inj'. intros k Hk.
  rewrite Z.land_spec, Z.pow2_bits_eqb, Z.bits_0 by lia.
  destruct (Z.eqb_spec 15 k) as [<-|]; [|by rewrite andb_false_r].
  rewrite andb_true_r. apply Z.testbit_false; [lia|]. by rewrite Z.div_small.
Qed.

Lemma final_bit_value z : fits 16 z ->
  negb (Z.land z FRAGMENT_FINAL_BIT =? 0) = (2 ^ 15 <=? z).
Proof.
  intros Hz. unfold fits in Hz. unfold FRAGMENT_FINAL_BIT. change 0x8000 with (2 ^ 15).
  destruct (Z.leb_spec (2 ^ 15) z) as [Hle|Hlt]; rewrite Z.land_comm, <-(Z.shiftl_1_l 15).
  - apply negb_true_iff, Z.eqb_neq. intros H0.
    assert (Z.testbit z 15 = true) as Ht.
    { apply Z.testbit_true; [lia|]. assert (z / 2 ^ 15 = 1) as ->; [|done].
      symmetry. apply (Z.div_unique _ _ _ (z - 2 ^ 15)); lia. }
    assert (Z.testbit (Z.land (Z.shiftl 1 15) z) 15 = true) by (by rewrite Z.land_spec, Ht).
    rewrite H0, Z.bits_0 in *. done.
  - apply negb_false_iff, Z.eqb_eq, Z.bits_inj'. intros n Hn.
    rewrite Z.land_spec, Z.bits_0, Z.shiftl_1_l, Z.pow2_bits_eqb by lia.
    destruct (Z.eqb_spec 15 n) as [<-|]; [|done].
    rewrite andb_true_l. apply Z.testbit_false; [lia|]. rewrite Z.div_small by lia. done.
Qed.

Lemma decode_encode f : wf_fragment f -> decode (encode f) = Ok f.
Proof.
  intros [Hid Hnum]. unfold decode, encode, FRAGMENT_HEADER_SIZE.
  rewrite !length_app, !length_be_bytes. simpl (_ <? _)%nat.
  rewrite take_app_length' by done.
  rewrite drop_app_length' by done.
  rewrite take_app_length' by done.
  rewrite app_assoc, drop_app_length' by done.
  rewrite !from_be_bytes, num_and_final_value by done.
  unfold fits in *. simpl Z.of_nat. rewrite Z.mod_small by done.
  destruct f as [i n fin p]; simpl in *.
  rewrite (Z.mod_small (n + _)) by (destruct fin; lia).
  rewrite land_7fff, final_bit_value by (unfold fits; destruct fin; lia).
  destruct fin.
  - replace (n + 2 ^ 15) with (n + 1 * 2 ^ 15) by lia.
    rewrite Z.mod_add, Z.mod_small by lia. do 2 f_equal. apply Z.leb_le. lia.
  - rewrite Z.add_0_r, Z.mod_small by lia. do 2 f_equal. apply Z.leb_gt. lia.
Qed.

End Codec.

(** ** Splitting *)
Section Splitting.
Import Fragment.

(** The fragments that carry the payloads [ps], in order. *)
Definition piece (id : Z) (ps : list bytes) (j : nat) : t :=
  mk id (Z.of_nat j) (j + 1 =? length ps)%nat (default [] (ps !! j)).
Definition pieces (id : Z) (ps : list bytes) : list t := piece id ps <$> seq 0 (length ps).

Lemma payload_pieces id ps : payload <$> pieces id ps = ps.
Proof.
  unfold pieces. apply list_eq. intros i. rewrite !list_lookup_fmap.
  destruct (decide (i < length ps)%nat) as [Hi|Hi].
  - rewrite lookup_seq_lt by done. simpl. by destruct (lookup_lt_is_Some_2 _ _ Hi) as [p ->].
  - rewrite lookup_seq_ge by lia. simpl. symmetry. apply lookup_ge_None_2. lia.
Qed.

(** The payloads a byte string is cut into. *)
Definition chunks (data : bytes) (mp : nat) : list bytes :=
  match data with
  | [] => [[]]
  | _ => (fun i => take mp (drop (i * mp) data)) <$> seq 0 (div_ceil (length data) mp)
  end.

Lemma div_ceil_spec a b : (0 < b)%nat ->
  (div_ceil a b * b < a + b)%nat /\ (a <= div_ceil a b * b)%nat.
Proof.
  intros Hb. unfold div_ceil.
  pose proof (Nat.div_mod_eq (a + b - 1) b). pose proof (Nat.mod_upper_bound (a + b - 1) b).
  nia.
Qed.

Lemma concat_chunks_prefix (data : bytes) mp n :
  concat ((fun i => take mp (drop (i * mp) data)) <$> seq 0 n) = take (n * mp) data.
Proof.
  induction n as [|n IH]; [done|].
  rewrite seq_S, fmap_app, concat_app, IH. simpl. rewrite app_nil_r, take_take_drop.
  f_equal. lia.
Qed.

Lemma concat_chunks data mp : (0 < mp)%nat -> concat (chunks data mp) = data.
Proof.
  intros Hmp. unfold chunks. destruct data as [|b data]; [done|].
  rewrite concat_chunks_prefix. apply take_ge.
  by destruct (div_ceil_spec (length (b :: data)) mp Hmp).
Qed.

Lemma chunks_bound data mp p : p ∈ chunks data mp -> (length p <= mp)%nat.
Proof.
  unfold chunks. destruct data as [|b data].
  - intros ->%list_elem_of_singleton. simpl. lia.
  - intros (i & -> & _)%list_elem_of_fmap. rewrite length_take. lia.
Qed.

Lemma length_chunks data mp : (0 < mp)%nat ->
  length (chunks data mp) = div_ceil (Nat.max (length data) 1) mp.
Proof.
  intros Hmp. unfold chunks. destruct data as [|b data].
  - simpl. unfold div_ceil. replace (1 + mp - 1)%nat with mp by lia. by rewrite Nat.div_same by lia.
  - rewrite length_fmap, length_seq, Nat.max_l; [done | simpl; lia].
Qed.

(** What the splitting loop makes: the numbered chunks, or nothing when there
    are more of them than the 15-bit fragment number can count. *)
Lemma fragmentize_pieces id data max_payload :
  fragmentize_with_payload id data max_payload =
  let mp := Nat.max max_payload 1 in
  if (0x8000 <? Z.of_nat (length (chunks data mp)))%Z then []
  else pieces id (chunks data mp).
Proof.
  unfold fragmentize_with_payload. cbv zeta. rewrite length_chunks by lia.
  destruct (Z.ltb_spec 0x8000 (Z.of_nat (div_ceil (Nat.max (length data) 1) (Nat.max max_payload 1))))
    as [|Hle]; [done|].
  set (mp := Nat.max max_payload 1) in *.
  assert (0 < mp)%nat as Hmp by lia.
  unfold pieces. rewrite length_chunks by done. unfold chunks.
  destruct data as [|b data].
  - replace (div_ceil (Nat.max (length []) 1) mp) with 1%nat; [done|].
    rewrite <-(length_chunks [] mp) by done. done.
  - replace (Nat.max (length (b :: data)) 1) with (length (b :: data)) in * by (simpl; lia).
    apply list_fmap_ext. intros k i Hk. apply lookup_seq in Hk as [-> Hlt].
    change (0 + k)%nat with k in *.
    unfold nth_fragment, piece. rewrite length_fmap, length_seq.
    rewrite wrap_small by (unfold fits; lia).
    rewrite list_lookup_fmap, lookup_seq_lt by lia. cbn [fmap option_fmap option_map default from_option].
    change (0 + k)%nat with k. f_equal. unfold Datatypes.id.
    destruct (Nat.le_gt_cases (k * mp + mp) (length (b :: data))) as [H|H].
    + rewrite Nat.min_l by lia. f_equal. lia.
    + rewrite Nat.min_r by lia. rewrite (take_ge (drop (k * mp) (b :: data)) mp) by (rewrite length_drop; lia).
      apply take_ge. rewrite length_drop. lia.
Qed.

End Splitting.

(** ** What the assembler holds *)
Section Assembly.
Import Assembler.
Open Scope Z_scope.

(** The bytes held in the slots. *)
Definition filled (frags : list (option bytes)) : Z :=
  foldr (fun o n => match o with Some p => zlen p | None => 0 end + n) 0 frags.
Definition total_bytes (ps : list bytes) : Z := foldr (fun p n => zlen p + n) 0 ps.

Lemma filled_app l k : filled (l ++ k) = filled l + filled k.
Proof. induction l as [|o l IH]; simpl; [done|]. rewrite IH. lia. Qed.
Lemma filled_empty n : filled (replicate n None) = 0.
Proof. induction n as [|n IH]; simpl; [done|]. by rewrite IH. Qed.

Lemma filled_insert frags j o p : frags !! j = Some o ->
  filled (<[j := Some p]> frags) =
  filled frags - match o with Some q => zlen q | None => 0 end + zlen p.
Proof.
  revert j; induction frags as [|o' frags IH]; intros [|j] Hj; simpl in *; try done.
  - injection Hj as ->. lia.
  - rewrite (IH _ Hj). lia.
Qed.

Lemma filled_le frags ps :
  (forall j p, frags !! j = Some (Some p) -> ps !! j = Some p) ->
  filled frags <= total_bytes ps.
Proof.
  revert ps; induction frags as [|o frags IH]; intros ps H; simpl.
  - clear H. induction ps as [|p ps IH]; simpl; [done|]. pose proof (zlen_nonneg p). lia.
  - destruct ps as [|p ps].
    + assert (filled frags <= total_bytes []) by
        (apply IH; intros j q Hj; specialize (H (S j) q Hj); done).
      destruct o as [q|]; simpl in *; [by specialize (H O q eq_refl) | lia].
    + simpl. assert (filled frags <= total_bytes ps) by
        (apply IH; intros j q Hj; by apply (H (S j) q)).
      pose proof (zlen_nonneg p).
      destruct o as [q|]; [specialize (H O q eq_refl); injection H as ->|]; lia.
Qed.

Lemma zlen_concat ps : zlen (concat ps) = total_bytes ps.
Proof. induction ps as [|p ps IH]; [done|]. simpl. rewrite zlen_app, IH. done. Qed.

Lemma grow_lookup frags idx j : grow frags idx !! j =
  if decide (length frags <= j /\ j <= idx)%nat then Some None else frags !! j.
Proof.
  unfold grow. destruct (Nat.leb_spec (length frags) idx) as [Hle|Hlt].
  - case_decide as Hd.
    + rewrite lookup_app_r by lia. apply lookup_replicate_2. lia.
    + destruct (decide (j < length frags)%nat).
      * by rewrite lookup_app_l by lia.
      * rewrite lookup_app_r by lia. rewrite (lookup_ge_None_2 frags) by lia.
        apply lookup_ge_None_2. rewrite length_replicate. lia.
  - by rewrite decide_False by lia.
Qed.

Lemma filled_grow frags idx : filled (grow frags idx) = filled frags.
Proof.
  unfold grow. destruct (_ <=? _)%nat; [|done]. rewrite filled_app, filled_empty. lia.
Qed.

Lemma length_grow frags idx : length (grow frags idx) = Nat.max (length frags) (idx + 1).
Proof.
  unfold grow. destruct (Nat.leb_spec (length frags) idx).
  - rewrite length_app, length_replicate. lia.
  - lia.
Qed.

(** The assembler after the pieces [seen] of the message [ps] have arrived. *)
Record collects (id : Z) (ps : list bytes) (seen : list nat) (a : t) : Prop := {
  col_id : current_id a = id;
  col_has : has_id a = true;
  col_len : (length (fragments a) <= length ps)%nat;
  col_slots : forall j, (j < length ps)%nat ->
    if decide (j ∈ seen) then fragments a !! j = Some (ps !! j)
    else fragments a !! j = None \/ fragments a !! j = Some None;
  col_total : total_num a =
    if decide (length ps - 1 ∈ seen)%nat then Some (length ps) else None;
  col_size : total_size a = filled (fragments a);
}.

Lemma collects_lookup id ps seen a j p : collects id ps seen a ->
  fragments a !! j = Some (Some p) -> ps !! j = Some p.
Proof.
  intros H Hj. pose proof (col_len _ _ _ _ H).
  assert (j < length (fragments a))%nat by (apply lookup_lt_is_Some; eauto).
  pose proof (col_slots _ _ _ _ H j ltac:(lia)) as Hs. rewrite Hj in Hs.
  case_decide; [congruence|]. by destruct Hs.
Qed.

Lemma switch_collects id ps seen a j : collects id ps seen a ->
  switch a (piece id ps j) = a.
Proof.
  intros H. unfold switch. simpl. rewrite (col_has _ _ _ _ H), (col_id _ _ _ _ H).
  by rewrite Z.eqb_refl.
Qed.

(** Every piece of [ps] has arrived. *)
Definition all_seen (ps : list bytes) (seen : list nat) : Prop :=
  Forall (fun j => j ∈ seen) (seq 0 (length ps)).

#[local] Instance all_seen_dec ps seen : Decision (all_seen ps seen).
Proof. unfold all_seen. apply _. Defined.

Lemma all_seen_spec ps seen :
  all_seen ps seen <-> forall j, (j < length ps)%nat -> j ∈ seen.
Proof.
  unfold all_seen. rewrite Forall_forall. split; intros H j Hj; apply H.
  - apply elem_of_seq. lia.
  - apply elem_of_seq in Hj. lia.
Qed.

(** The message is assembled exactly when every piece has arrived. *)
Lemma assembled_collects id ps seen a : collects id ps seen a ->
  assembled (fragments a) (length ps) =
  if decide (all_seen ps seen) then Some (concat ps) else None.
Proof.
  intros H. unfold assembled. pose proof (col_len _ _ _ _ H) as Hlen.
  case_decide as Hall; rewrite all_seen_spec in Hall.
  - assert (fragments a = Some <$> ps) as ->.
    { apply list_eq. intros j. rewrite list_lookup_fmap.
      destruct (decide (j < length ps)%nat) as [Hj|Hj].
      - pose proof (col_slots _ _ _ _ H j Hj) as Hs. rewrite decide_True in Hs by auto.
        rewrite Hs. destruct (lookup_lt_is_Some_2 ps j Hj) as [p ->]. done.
      - rewrite !(lookup_ge_None_2 _ j); [done | lia | lia]. }
    rewrite length_fmap, Nat.ltb_irrefl, take_ge by (rewrite length_fmap; lia).
    rewrite (proj2 (forallb_forall _ _)).
    + f_equal. f_equal. rewrite <-list_fmap_compose. apply list_fmap_id.
    + intros o Ho%list_elem_of_In. apply list_elem_of_fmap in Ho as (p & -> & _).
      by apply bool_decide_eq_true_2.
  - destruct (Nat.ltb_spec (length (fragments a)) (length ps)) as [|Hge]; [done|].
    destruct (forallb _ _) eqn:E; [|done]. exfalso. apply Hall. intros j Hj.
    pose proof (col_slots _ _ _ _ H j Hj) as Hs. case_decide; [done|exfalso].
    rewrite forallb_forall in E.
    assert (fragments a !! j = Some None) as Hn.
    { destruct Hs as [Hs|Hs]; [|done]. apply lookup_ge_None in Hs. lia. }
    specialize (E None). rewrite bool_decide_eq_true in E.
    assert (is_Some (@None bytes)) as [? ?]; [|done]. apply E.
    apply list_elem_of_In, list_elem_of_lookup. exists j. by rewrite lookup_take_lt by lia.
Qed.

(** *** One more piece *)
Section Piece.
Context (id : Z) (ps : list bytes) (seen : list nat) (a : t) (j : nat) (p : bytes).
Hypothesis Hcol : collects id ps seen a.
Hypothesis Hp : ps !! j = Some p.
Let frags := grow (fragments a) j.
Let frags' := <[j := Some p]> frags.

Lemma piece_in_range : (j < length ps)%nat.
Proof. by apply lookup_lt_is_Some_1; exists p. Qed.

Lemma slot_in_range : (j < length frags)%nat.
Proof. unfold frags. rewrite length_grow. lia. Qed.

Lemma slot_empty_collects : slot_empty frags j = negb (bool_decide (j ∈ seen)).
Proof.
  unfold slot_empty, frags. rewrite grow_lookup.
  pose proof (col_slots _ _ _ _ Hcol j piece_in_range) as Hs. destruct (decide (j ∈ seen)) as [Hin|Hin].
  - rewrite bool_decide_eq_true_2 by done. rewrite decide_False, Hs, Hp; [done|].
    intros [Hge _]. apply lookup_ge_None in Hge. congruence.
  - rewrite bool_decide_eq_false_2 by done. case_decide as Hd; [done|].
    destruct Hs as [Hs|Hs]; rewrite Hs; [|done]. apply lookup_ge_None in Hs. lia.
Qed.

Lemma insert_slots i q : frags' !! i = Some (Some q) -> ps !! i = Some q.
Proof.
  unfold frags'. destruct (decide (i = j)) as [->|Hne].
  - rewrite list_lookup_insert_eq by apply slot_in_range. congruence.
  - rewrite list_lookup_insert_ne by done. unfold frags. rewrite grow_lookup.
    case_decide; [done|]. apply (collects_lookup _ _ _ _ _ _ Hcol).
Qed.

Lemma size_collects : total_bytes ps <= Fragment.MAX_INSTRUCTION_BYTES ->
  (if slot_empty frags j then saturating_add (total_size a) (zlen p) else total_size a)
  = filled frags' /\ filled frags' <= total_bytes ps.
Proof.
  intros Hmax. pose proof (filled_le frags' ps insert_slots) as Hle. split; [|done].
  assert (Hfr : filled frags = filled (fragments a)) by apply filled_grow.
  destruct (lookup_lt_is_Some_2 frags j slot_in_range) as [o Ho].
  unfold frags' in *. rewrite (filled_insert _ _ _ _ Ho), Hfr in *.
  unfold slot_empty. rewrite Ho, (col_size _ _ _ _ Hcol). destruct o as [q|].
  - unfold frags in Ho. rewrite grow_lookup in Ho. case_decide; [done|].
    apply (collects_lookup _ _ _ _ _ _ Hcol) in Ho. assert (q = p) as -> by congruence. lia.
  - unfold saturating_add, u64_max, Fragment.MAX_INSTRUCTION_BYTES in *. lia.
Qed.

Lemma collects_next :
  collects id ps (j :: seen)
    (mk (current_id a) frags'
       (if (j + 1 =? length ps)%nat then Some (j + 1)%nat else total_num a)
       (filled frags') (has_id a)).
Proof.
  pose proof piece_in_range as Hj. pose proof slot_in_range as Hj'.
  split; simpl; try apply Hcol; [| | |reflexivity].
  - unfold frags', frags. rewrite length_insert, length_grow. pose proof (col_len _ _ _ _ Hcol). lia.
  - intros i Hi. unfold frags'. destruct (decide (i = j)) as [->|Hne].
    + rewrite decide_True by left. rewrite list_lookup_insert_eq by done. congruence.
    + rewrite list_lookup_insert_ne by done. unfold frags. rewrite grow_lookup.
      pose proof (col_slots _ _ _ _ Hcol i Hi) as Hs. destruct (decide (i ∈ seen)) as [Hin|Hin].
      * rewrite decide_True by (by right). rewrite decide_False; [done|].
        intros [Hge _]. apply lookup_ge_None in Hge. congruence.
      * rewrite decide_False by (rewrite elem_of_cons; tauto). case_decide; [by right|done].
  - destruct (Nat.eqb_spec (j + 1) (length ps)) as [E|E].
    + rewrite decide_True; [by rewrite E|]. replace (length ps - 1)%nat with j by lia. left.
    + rewrite (col_total _ _ _ _ Hcol). case_decide as Hd.
      * by rewrite decide_True by (by right).
      * rewrite decide_False; [done|]. rewrite elem_of_cons. intros [?|?]; [lia|done].
Qed.

End Piece.

Lemma add_collects id ps seen a j :
  collects id ps seen a -> (j < length ps)%nat ->
  total_bytes ps <= Fragment.MAX_INSTRUCTION_BYTES ->
  if decide (all_seen ps (j :: seen))
  then snd (add a (piece id ps j)) = Some (concat ps)
  else snd (add a (piece id ps j)) = None /\
       collects id ps (j :: seen) (fst (add a (piece id ps j))).
Proof.
  intros H Hj Hmax. destruct (lookup_lt_is_Some_2 ps j Hj) as [p Hp].
  destruct (size_collects id ps seen a j p H Hp Hmax) as [Hsize Hle].
  pose proof (collects_next id ps seen a j p H Hp) as Hnext.
  pose proof (assembled_collects _ _ _ _ Hnext) as Hasm. cbn [fragments] in Hasm.
  unfold add. rewrite (switch_collects _ _ _ _ _ H).
  unfold piece; cbn [Fragment.fragment_num Fragment.payload Fragment.is_final].
  rewrite Nat2Z.id, Hp. cbn [default from_option]. unfold Datatypes.id.
  rewrite Hsize, (proj2 (Z.ltb_ge _ _)), andb_false_r by lia.
  pose proof (col_total _ _ _ _ Hnext) as Ht. cbn [total_num] in Ht.
  destruct (decide (all_seen ps (j :: seen))) as [Hall|Hall].
  - rewrite decide_True in Ht by (apply (proj1 (all_seen_spec _ _) Hall); lia).
    by rewrite Ht, Hasm.
  - destruct (if (j + 1 =? length ps)%nat then _ else _) as [n|] eqn:E.
    + case_decide; [|congruence]. assert (n = length ps) as -> by congruence.
      rewrite Hasm. split; [done|]. exact Hnext.
    + split; [done|]. exact Hnext.
Qed.

(** The first fragment of a new instruction starts from nothing. *)
Definition fresh_for (id : Z) (a : t) : Prop := has_id a = false \/ current_id a <> id.

Lemma add_fresh id ps a j : fresh_for id a ->
  add a (piece id ps j) = add (mk id [] None 0 true) (piece id ps j).
Proof.
  intros Hf. unfold add. assert (switch a (piece id ps j) = mk id [] None 0 true) as ->.
  { unfold switch. simpl. destruct Hf as [->|Hne]; [done|].
    rewrite (proj2 (Z.eqb_neq _ _)) by congruence. by rewrite orb_true_r. }
  unfold switch. simpl. by rewrite Z.eqb_refl.
Qed.

Lemma collects_start id ps : collects id ps [] (mk id [] None 0 true).
Proof.
  split; cbn [current_id fragments total_num total_size has_id]; try done.
  - simpl; lia.
  - intros j _. rewrite decide_False by apply not_elem_of_nil. by left.
Qed.

Lemma feed_app a fs gs :
  snd (feed a (fs ++ gs)) = snd (feed a fs) ++ snd (feed (fst (feed a fs)) gs).
Proof.
  revert a; induction fs as [|f fs IH]; intros a; [done|]. cbn [app feed].
  specialize (IH (fst (add a f))). destruct (add a f) as [a1 o]; simpl in *.
  destruct (feed a1 (fs ++ gs)) as [? ?], (feed a1 fs) as [a2 os]; simpl in *. by rewrite IH.
Qed.

Lemma feed_collects id ps js last seen a :
  collects id ps seen a -> total_bytes ps <= Fragment.MAX_INSTRUCTION_BYTES ->
  Forall (fun j => j < length ps)%nat js -> (last < length ps)%nat ->
  last ∉ seen -> last ∉ js ->
  snd (feed a (piece id ps <$> js)) = replicate (length js) None /\
  exists seen', collects id ps seen' (fst (feed a (piece id ps <$> js))) /\
    forall j, j ∈ seen' <-> j ∈ js \/ j ∈ seen.
Proof.
  intros Hc Hmax Hjs Hlast. revert seen a Hc.
  induction Hjs as [|j js Hj Hjs IH]; intros seen a Hc Hns Hnj.
  { split; [done|]. exists seen. split; [done|]. intros j. rewrite elem_of_nil. tauto. }
  apply not_elem_of_cons in Hnj as [Hne Hnj]. rewrite fmap_cons. cbn [feed].
  pose proof (add_collects id ps seen a j Hc Hj Hmax) as Hadd. rewrite decide_False in Hadd.
  2:{ rewrite all_seen_spec. intros Hall. specialize (Hall last Hlast).
      apply elem_of_cons in Hall. tauto. }
  destruct (add a (piece id ps j)) as [a1 o]; simpl in Hadd. destruct Hadd as [-> Hc1].
  destruct (IH (j :: seen) a1 Hc1) as [Hout (seen' & Hc' & Hs')];
    [rewrite elem_of_cons; tauto | done |].
  destruct (feed a1 (piece id ps <$> js)) as [a2 os]; simpl in *. split; [by rewrite Hout|].
  exists seen'. split; [done|]. intros i. rewrite Hs', !elem_of_cons. tauto.
Qed.

(** Fragments of a message are pieces of it. *)
Lemma pieces_indices id ps l : Forall (fun f => f ∈ pieces id ps) l ->
  exists js, l = piece id ps <$> js /\ Forall (fun j => j < length ps)%nat js.
Proof.
  induction 1 as [|f l (j & -> & Hj)%list_elem_of_fmap _ IH]; [by exists []|].
  destruct IH as (js & -> & Hjs). exists (j :: js). split; [done|].
  constructor; [|done]. apply elem_of_seq in Hj. lia.
Qed.

Lemma piece_inj id ps i j : piece id ps i = piece id ps j -> i = j.
Proof. intros H. injection H. lia. Qed.

(** A fresh assembler treats the pieces as one that has just switched to them. *)
Lemma feed_fresh id ps a js : fresh_for id a -> js <> [] ->
  feed a (piece id ps <$> js) = feed (mk id [] None 0 true) (piece id ps <$> js).
Proof.
  intros Hf. destruct js as [|j js]; [done|]. intros _. rewrite fmap_cons. cbn [feed].
  by rewrite (add_fresh id ps a j Hf).
Qed.

Lemma feed_pieces id ps a arrivals last :
  fresh_for id a -> total_bytes ps <= Fragment.MAX_INSTRUCTION_BYTES ->
  Forall (fun f => f ∈ pieces id ps) arrivals -> last ∈ pieces id ps -> last ∉ arrivals ->
  Forall (fun f => f ∈ arrivals \/ f = last) (pieces id ps) ->
  snd (feed a (arrivals ++ [last])) = replicate (length arrivals) None ++ [Some (concat ps)].
Proof.
  intros Hfresh Hsize (js & -> & Hjs)%pieces_indices Hlast Hnew Hcover.
  apply list_elem_of_fmap in Hlast as (x & -> & Hx). apply elem_of_seq in Hx.
  assert (Hxj : x ∉ js) by (intros Hin; apply Hnew; by apply list_elem_of_fmap_2).
  change [piece id ps x] with (piece id ps <$> [x]). rewrite <-fmap_app.
  rewrite (feed_fresh id ps a) by (done || by destruct js). rewrite fmap_app, feed_app, length_fmap.
  destruct (feed_collects id ps js x [] _ (collects_start id ps) Hsize Hjs ltac:(lia)
              ltac:(apply not_elem_of_nil) Hxj) as [-> (seen & Hc & Hseen)].
  f_equal. pose proof (add_collects id ps seen _ x Hc ltac:(lia) Hsize) as Hadd.
  rewrite decide_True in Hadd.
  - simpl. destruct (add _ _) as [? o]; simpl in *. by rewrite Hadd.
  - apply all_seen_spec. intros j Hj. rewrite Forall_forall in Hcover.
    destruct (Hcover (piece id ps j)) as [Hin|Heq].
    + apply list_elem_of_fmap. exists j. split; [done|]. apply elem_of_seq. lia.
    + apply list_elem_of_fmap in Hin as (k & Hk & Hk'). apply piece_inj in Hk as ->.
      right. apply Hseen. by left.
    + apply piece_inj in Heq as ->. left.
Qed.

End Assembly.

(** ** Bounds that hold whatever arrives *)
Section Bounds.
Import Assembler.
Open Scope Z_scope.

Definition size_ok (a : t) : Prop := 0 <= total_size a <= Fragment.MAX_INSTRUCTION_BYTES.

Lemma add_size_ok a f : size_ok a -> size_ok (fst (add a f)).
Proof.
  intros Ha. assert (Hs : size_ok (switch a f)).
  { unfold switch, size_ok in *. destruct (_ || _); simpl; [|done].
    unfold Fragment.MAX_INSTRUCTION_BYTES. lia. }
  unfold add, size_ok in *. pose proof (zlen_nonneg (Fragment.payload f)) as Hp.
  destruct (slot_empty _ _); cbn [andb].
  - destruct (Z.ltb_spec Fragment.MAX_INSTRUCTION_BYTES
                (saturating_add (total_size (switch a f)) (zlen (Fragment.payload f)))).
    + simpl. unfold Fragment.MAX_INSTRUCTION_BYTES. lia.
    + unfold saturating_add, u64_max, Fragment.MAX_INSTRUCTION_BYTES in *.
      destruct (if Fragment.is_final f then _ else _); [destruct (assembled _ _)|]; simpl; lia.
  - destruct (if Fragment.is_final f then _ else _); [destruct (assembled _ _)|];
      simpl; unfold Fragment.MAX_INSTRUCTION_BYTES in *; lia.
Qed.

Lemma feed_size_ok a fs : size_ok a -> size_ok (fst (feed a fs)).
Proof.
  revert a; induction fs as [|f fs IH]; intros a Ha; [done|]. cbn [feed].
  specialize (IH _ (add_size_ok a f Ha)). destruct (add a f) as [a1 o]; simpl in *.
  by destruct (feed a1 fs).
Qed.

End Bounds.

(** ** Properties *)
Section Properties.
Import Fragment.

(** Every fragment the sender can make survives the wire: decoding what
    [encode] wrote gives the fragment back, whatever its payload. *)
Theorem fragment_roundtrip (f : t) : wf_fragment f -> decode (encode f) = Ok f.
Proof. apply decode_encode. Qed.

(** Splitting loses nothing and never overruns the 15-bit fragment number:
    either the instruction needs more than 32768 fragments and nothing is sent,
    or the payloads concatenate to the instruction, none is larger than asked,
    the fragments are numbered from zero and exactly the last one is final. *)
Theorem fragmentize_partitions (id : Z) (data : bytes) (max_payload : nat) :
  let frs := fragmentize_with_payload id data max_payload in
  (frs = [] /\ (0x8000 < Z.of_nat (div_ceil (Nat.max (length data) 1) (Nat.max max_payload 1)))%Z) \/
  (concat (payload <$> frs) = data /\ (1 <= Z.of_nat (length frs) <= 0x8000)%Z /\
   forall i f, frs !! i = Some f ->
     Fragment.id f = id /\ fragment_num f = Z.of_nat i /\
     is_final f = (i + 1 =? length frs)%nat /\
     (length (payload f) <= Nat.max max_payload 1)%nat).
Proof.
  cbv zeta. rewrite fragmentize_pieces. cbv zeta.
  set (mp := Nat.max max_payload 1). assert (Hmp : (0 < mp)%nat) by lia.
  rewrite <-length_chunks by done.
  destruct (Z.ltb_spec 0x8000 (Z.of_nat (length (chunks data mp)))) as [Hlt|Hle]; [by left|right].
  assert (length (pieces id (chunks data mp)) = length (chunks data mp)) as Hlen
    by (unfold pieces; by rewrite length_fmap, length_seq).
  rewrite Hlen. split; [|split; [split; [|done]|]].
  - by rewrite (payload_pieces id), concat_chunks.
  - rewrite length_chunks by done. unfold div_ceil.
    assert (1 <= (Nat.max (length data) 1 + mp - 1) / mp)%nat by
      (apply Nat.div_le_lower_bound; lia). lia.
  - unfold pieces. intros i f Hf. apply list_lookup_fmap_Some in Hf as (k & -> & Hk).
    apply lookup_seq in Hk as [-> Hi]. simpl. split; [done|]. split; [done|]. split; [done|].
    destruct (lookup_lt_is_Some_2 _ _ Hi) as [p Hp]. rewrite Hp. simpl.
    apply (chunks_bound data mp). by apply list_elem_of_lookup_2 in Hp.
Qed.

(** Reassembly is independent of the network's ordering and duplication.
    Take the fragments of one instruction no larger than the 4 MiB limit, for
    an assembler that is not already collecting that id.  However they are
    ordered and repeated, nothing is delivered until the last missing one
    arrives, and that one delivers exactly the instruction. *)
Theorem reassembly_any_order (id : Z) (data : bytes) (max_payload : nat)
    (a : Assembler.t) (arrivals : list t) (last : t) :
  let frs := fragmentize_with_payload id data max_payload in
  fresh_for id a -> (zlen data <= MAX_INSTRUCTION_BYTES)%Z ->
  Forall (fun f => f ∈ frs) arrivals -> last ∈ frs -> last ∉ arrivals ->
  Forall (fun f => f ∈ arrivals \/ f = last) frs ->
  snd (Assembler.feed a (arrivals ++ [last])) = replicate (length arrivals) None ++ [Some data].
Proof.
  cbv zeta. rewrite fragmentize_pieces. cbv zeta. set (mp := Nat.max max_payload 1).
  intros Hfresh Hsize Harr Hlast Hnew Hcover.
  destruct (_ <? _)%Z; [by apply not_elem_of_nil in Hlast|].
  assert (Hcat : concat (chunks data mp) = data) by (apply concat_chunks; lia).
  rewrite <-Hcat. rewrite <-Hcat, zlen_concat in Hsize.
  apply (feed_pieces id (chunks data mp)); done.
Qed.

(** Whatever fragments arrive, the byte count the assembler keeps never
    exceeds the limit of a complete instruction, so it never saturates. *)
Theorem assembler_size_bounded (fs : list t) :
  (0 <= Assembler.total_size (fst (Assembler.feed Assembler.new fs)) <= MAX_INSTRUCTION_BYTES)%Z.
Proof. apply feed_size_ok. unfold size_ok, MAX_INSTRUCTION_BYTES. simpl. lia. Qed.

(** The limit guards new slots only.  A fragment that overwrites a slot
    already filled is not counted, so a retransmission that carries a larger
    payload under the same number completes an instruction of any size. *)
Theorem assembler_overwrite_uncounted (id : Z) (p : bytes) :
  snd (Assembler.feed Assembler.new [mk id 0 false []; mk id 0 true p]) = [None; Some p].
Proof.
  unfold Assembler.feed, Assembler.add, Assembler.switch. simpl.
  rewrite Z.eqb_refl. simpl. by rewrite app_nil_r.
Qed.

Lemma fragment_roundtrip_witness :
  decode (encode (mk 9 2 true [z2b 1; z2b 255])) = Ok (mk 9 2 true [z2b 1; z2b 255]).
Proof. apply fragment_roundtrip. split; split; vm_compute; congruence. Defined.

Lemma reassembly_any_order_witness :
  let data := z2b <$> [10; 20; 30; 40; 50]%Z in
  let frs := fragmentize_with_payload 7 data 2 in
  let f i := default (mk 0 0 true []) (frs !! i) in
  snd (Assembler.feed Assembler.new ([f 2; f 0; f 2; f 0] ++ [f 1]))%nat =
    replicate 4 None ++ [Some data].
Proof.
  cbv zeta. apply (reassembly_any_order 7 _ 2).
  - by left.
  - vm_compute. congruence.
  - repeat (apply Forall_cons; split; [apply (bool_decide_unpack _); vm_compute; exact I|]).
    apply Forall_nil. exact I.
  - apply (bool_decide_unpack _). vm_compute. exact I.
  - intros Hin. apply (bool_decide_pack _) in Hin. vm_compute in Hin. exact Hin.
  - apply (bool_decide_unpack _). vm_compute. exact I.
Defined.

End Properties.
