(* ===== verification/Pb.v ===== *)
(** * Protobuf codecs of the Mosh wire protocol

    Models [crates/moshcatty/src/pb.rs]: varints and tags, and the codecs of the
    transport, user and host instructions.  A slice past the end is a panic, and
    the additions [n + len] on offsets wrap at 64 bits, as the release build
    compiles them. *)
From Stdlib Require Import ZArith Lia List Bool.
From stdpp Require Import base numbers list.
From S2P Require Import Prelude.
Open Scope Z_scope.

Module Pb.

Definition WIRE_VARINT : Z := 0.
Definition WIRE_BYTES : Z := 2.

Inductive error :=
| VarintTooLong | TruncatedVarint | TruncatedBytes | TruncatedSkip
| UnknownWireType (wtype : Z).

(** ** Encoding *)

(** [while v >= 0x80 { buf.push((v as u8) | 0x80); v >>= 7; } buf.push(v as u8)].
    A u64 takes at most ten rounds. *)
Fixpoint varint_loop (fuel : nat) (v : Z) : bytes :=
  match fuel with
  | O => [z2b v]
  | S fuel =>
      if 0x80 <=? v then z2b (Z.lor (wrap 8 v) 0x80) :: varint_loop fuel (Z.shiftr v 7)
      else [z2b v]
  end.
Definition append_varint (v : Z) : bytes := varint_loop 10 v.

Definition append_tag (field wtype : Z) : bytes :=
  append_varint (Z.lor (Z.shiftl field 3) wtype).
Definition append_tag_varint (field v : Z) : bytes :=
  append_tag field WIRE_VARINT ++ append_varint v.
Definition append_tag_bytes (field : Z) (data : bytes) : bytes :=
  append_tag field WIRE_BYTES ++ append_varint (zlen data) ++ data.

(** ** Decoding *)

Fixpoint varint_from (i v : Z) (data : bytes) : result error (Z * Z) :=
  match data with
  | [] => Err TruncatedVarint
  | c :: rest =>
      if 10 <=? i then Err VarintTooLong
      else
        let v := Z.lor v (wrap 64 (Z.shiftl (Z.land (b2z c) 0x7f) (7 * i))) in
        if b2z c <? 0x80 then Ok (v, i + 1) else varint_from (i + 1) v rest
  end.
Definition decode_varint (data : bytes) : result error (Z * Z) := varint_from 0 0 data.

Definition decode_tag (data : bytes) : result error (Z * Z * Z) :=
  '(v, n) ← decode_varint data; mret (Z.shiftr v 3, Z.land v 7, n).

(** [n + len] on usize. *)
Definition add_usize (n len : Z) : Z := wrap 64 (n + len).

(** [&data[n..]] and [&data[a..b]] with usize bounds. *)
Definition from_offset (data : bytes) (n : Z) : result error bytes :=
  if n <=? zlen data then Ok (drop (Z.to_nat n) data) else Panic.
Definition sub_range (data : bytes) (a b : Z) : result error bytes :=
  if (a <=? b) && (b <=? zlen data)
  then Ok (take (Z.to_nat (b - a)) (drop (Z.to_nat a) data)) else Panic.

Definition decode_bytes (data : bytes) : result error (bytes * Z) :=
  '(len, n) ← decode_varint data;
  if zlen data <? add_usize n len then Err TruncatedBytes
  else
    v ← sub_range data n (add_usize n len);
    mret (v, add_usize n len).

Definition skip_field (data : bytes) (wtype : Z) : result error Z :=
  if wtype =? WIRE_VARINT then '(_, n) ← decode_varint data; mret n
  else if wtype =? WIRE_BYTES then
    '(len, n) ← decode_varint data;
    let total := add_usize n len in
    if zlen data <? total then Err TruncatedSkip else mret total
  else if wtype =? 5 then mret 4
  else if wtype =? 1 then mret 8
  else Err (UnknownWireType wtype).

(** The pattern every decoder repeats: decode one item, then
    [data = &data[n..]]. *)
Definition read_tag (data : bytes) : result error (Z * Z * bytes) :=
  '(field, wtype, n) ← decode_tag data; data ← from_offset data n; mret (field, wtype, data).
Definition read_varint (data : bytes) : result error (Z * bytes) :=
  '(v, n) ← decode_varint data; data ← from_offset data n; mret (v, data).
Definition read_bytes (data : bytes) : result error (bytes * bytes) :=
  '(v, n) ← decode_bytes data; data ← from_offset data n; mret (v, data).
Definition read_skip (data : bytes) (wtype : Z) : result error bytes :=
  n ← skip_field data wtype; from_offset data n.

(** [(field, wtype) == (f, w)] *)
Definition is_field (field wtype f w : Z) : bool := (field =? f) && (wtype =? w).

(** ** The transport instruction *)
Module TransportInstruction.

Record t := mk {
  protocol_version : Z;
  old_num : Z;
  new_num : Z;
  ack_num : Z;
  throwaway_num : Z;
  diff : bytes;
  chaff : bytes;
}.

Definition default_ : t := mk 0 0 0 0 0 [] [].

Definition encode (m : t) : bytes :=
  (if negb (protocol_version m =? 0) then append_tag_varint 1 (protocol_version m) else []) ++
  append_tag_varint 2 (old_num m) ++
  append_tag_varint 3 (new_num m) ++
  append_tag_varint 4 (ack_num m) ++
  append_tag_varint 5 (throwaway_num m) ++
  (if bool_decide (diff m <> []) then append_tag_bytes 6 (diff m) else []) ++
  (if bool_decide (chaff m <> []) then append_tag_bytes 7 (chaff m) else []).

Definition decode_step (data : bytes) (m : t) : result error (bytes * t) :=
  '(field, wtype, data) ← read_tag data;
  if is_field field wtype 1 WIRE_VARINT then
    '(v, data) ← read_varint data;
    mret (data, mk (wrap 32 v) (old_num m) (new_num m) (ack_num m) (throwaway_num m) (diff m) (chaff m))
  else if is_field field wtype 2 WIRE_VARINT then
    '(v, data) ← read_varint data;
    mret (data, mk (protocol_version m) v (new_num m) (ack_num m) (throwaway_num m) (diff m) (chaff m))
  else if is_field field wtype 3 WIRE_VARINT then
    '(v, data) ← read_varint data;
    mret (data, mk (protocol_version m) (old_num m) v (ack_num m) (throwaway_num m) (diff m) (chaff m))
  else if is_field field wtype 4 WIRE_VARINT then
    '(v, data) ← read_varint data;
    mret (data, mk (protocol_version m) (old_num m) (new_num m) v (throwaway_num m) (diff m) (chaff m))
  else if is_field field wtype 5 WIRE_VARINT then
    '(v, data) ← read_varint data;
    mret (data, mk (protocol_version m) (old_num m) (new_num m) (ack_num m) v (diff m) (chaff m))
  else if is_field field wtype 6 WIRE_BYTES then
    '(v, data) ← read_bytes data;
    mret (data, mk (protocol_version m) (old_num m) (new_num m) (ack_num m) (throwaway_num m) v (chaff m))
  else if is_field field wtype 7 WIRE_BYTES then
    '(v, data) ← read_bytes data;
    mret (data, mk (protocol_version m) (old_num m) (new_num m) (ack_num m) (throwaway_num m) (diff m) v)
  else
    data ← read_skip data wtype; mret (data, m).

Definition decode (data : bytes) : result error t := while_data decode_step data default_.

End TransportInstruction.

(** ** The user instruction *)
Module UserInstruction.

Record t := mk { keys : bytes; width : Z; height : Z }.

Definition default_ : t := mk [] 0 0.
Definition keystroke (keys : bytes) : t := mk keys 0 0.
Definition resize (width height : Z) : t := mk [] width height.

Definition encode_one (m : t) : bytes :=
  (if bool_decide (keys m <> []) then append_tag_bytes 2 (append_tag_bytes 4 (keys m)) else []) ++
  (if (0 <? width m) || (0 <? height m) then
     append_tag_bytes 3
       (append_tag_varint 5 (wrap 32 (width m)) ++ append_tag_varint 6 (wrap 32 (height m)))
   else []).

Definition encode_message (instructions : list t) : bytes :=
  concat ((fun m => append_tag_bytes 1 (encode_one m)) <$> instructions).

(** [Keystroke { field 4: keys }] *)
Definition keys_step (rest : bytes) (m : t) : result error (bytes * t) :=
  '(f, wt, rest) ← read_tag rest;
  if is_field f wt 4 WIRE_BYTES then
    '(v, rest) ← read_bytes rest; mret (rest, mk (keys m ++ v) (width m) (height m))
  else rest ← read_skip rest wt; mret (rest, m).

(** [ResizeMessage { field 5: width, field 6: height }] *)
Definition size_step (rest : bytes) (m : t) : result error (bytes * t) :=
  '(f, wt, rest) ← read_tag rest;
  if is_field f wt 5 WIRE_VARINT then
    '(v, rest) ← read_varint rest; mret (rest, mk (keys m) (as_i32 v) (height m))
  else if is_field f wt 6 WIRE_VARINT then
    '(v, rest) ← read_varint rest; mret (rest, mk (keys m) (width m) (as_i32 v))
  else rest ← read_skip rest wt; mret (rest, m).

Definition one_step (data : bytes) (m : t) : result error (bytes * t) :=
  '(field, wtype, data) ← read_tag data;
  if is_field field wtype 2 WIRE_BYTES then
    '(inner, data) ← read_bytes data;
    m ← while_data keys_step inner m; mret (data, m)
  else if is_field field wtype 3 WIRE_BYTES then
    '(inner, data) ← read_bytes data;
    m ← while_data size_step inner m; mret (data, m)
  else data ← read_skip data wtype; mret (data, m).

Definition decode_one (data : bytes) : result error t := while_data one_step data default_.

Definition message_step (data : bytes) (out : list t) : result error (bytes * list t) :=
  '(field, wtype, data) ← read_tag data;
  if is_field field wtype 1 WIRE_BYTES then
    '(inner, data) ← read_bytes data;
    m ← decode_one inner; mret (data, out ++ [m])
  else data ← read_skip data wtype; mret (data, out).

Definition decode_message (data : bytes) : result error (list t) := while_data message_step data [].

End UserInstruction.

(** ** The host instruction *)
Module HostInstruction.

Record t := mk { hoststring : bytes; width : Z; height : Z; echo_ack_num : Z }.

(** [Self { echo_ack_num: -1, ..Default::default() }] *)
Definition absent : t := mk [] 0 0 (-1).

Definition encode_one (m : t) : bytes :=
  (if bool_decide (hoststring m <> [])
   then append_tag_bytes 2 (append_tag_bytes 4 (hoststring m)) else []) ++
  (if (0 <? width m) || (0 <? height m) then
     append_tag_bytes 3
       (append_tag_varint 5 (wrap 32 (width m)) ++ append_tag_varint 6 (wrap 32 (height m)))
   else []) ++
  (if 0 <=? echo_ack_num m then append_tag_bytes 7 (append_tag_varint 8 (echo_ack_num m)) else []).

Definition encode_message (instructions : list t) : bytes :=
  concat ((fun m => append_tag_bytes 1 (encode_one m)) <$> instructions).

(** [HostBytes { field 4: hoststring }] *)
Definition host_step (rest : bytes) (m : t) : result error (bytes * t) :=
  '(f, wt, rest) ← read_tag rest;
  if is_field f wt 4 WIRE_BYTES then
    '(v, rest) ← read_bytes rest; mret (rest, mk v (width m) (height m) (echo_ack_num m))
  else rest ← read_skip rest wt; mret (rest, m).

Definition size_step (rest : bytes) (m : t) : result error (bytes * t) :=
  '(f, wt, rest) ← read_tag rest;
  if is_field f wt 5 WIRE_VARINT then
    '(v, rest) ← read_varint rest;
    mret (rest, mk (hoststring m) (as_i32 v) (height m) (echo_ack_num m))
  else if is_field f wt 6 WIRE_VARINT then
    '(v, rest) ← read_varint rest;
    mret (rest, mk (hoststring m) (width m) (as_i32 v) (echo_ack_num m))
  else rest ← read_skip rest wt; mret (rest, m).

Definition echo_step (rest : bytes) (m : t) : result error (bytes * t) :=
  '(f, wt, rest) ← read_tag rest;
  if is_field f wt 8 WIRE_VARINT then
    '(v, rest) ← read_varint rest; mret (rest, mk (hoststring m) (width m) (height m) (as_i64 v))
  else rest ← read_skip rest wt; mret (rest, m).

Definition one_step (data : bytes) (m : t) : result error (bytes * t) :=
  '(field, wtype, data) ← read_tag data;
  if is_field field wtype 2 WIRE_BYTES then
    '(inner, data) ← read_bytes data;
    m ← while_data host_step inner m; mret (data, m)
  else if is_field field wtype 3 WIRE_BYTES then
    '(inner, data) ← read_bytes data;
    m ← while_data size_step inner m; mret (data, m)
  else if is_field field wtype 7 WIRE_BYTES then
    '(inner, data) ← read_bytes data;
    m ← while_data echo_step inner m; mret (data, m)
  else data ← read_skip data wtype; mret (data, m).

Definition decode_one (data : bytes) : result error t := while_data one_step data absent.

Definition message_step (data : bytes) (out : list t) : result error (bytes * list t) :=
  '(field, wtype, data) ← read_tag data;
  if is_field field wtype 1 WIRE_BYTES then
    '(inner, data) ← read_bytes data;
    m ← decode_one inner; mret (data, out ++ [m])
  else data ← read_skip data wtype; mret (data, out).

Definition decode_message (data : bytes) : result error (list t) := while_data message_step data [].

End HostInstruction.

End Pb.

(** ** Varints *)
Section Varints.
Import Pb.

Lemma continuation_byte v : 0 <= v -> b2z (z2b (Z.lor (wrap 8 v) 0x80)) = 128 + v mod 128.
Proof.
  intros Hv. assert (0 <= wrap 8 v < 256) by (apply (wrap_fits 8); lia).
  rewrite b2z_z2b, lor_0x80 by done.
  assert (wrap 8 v mod 128 = v mod 128) as ->.
  { unfold wrap. change (2 ^ 8) with (128 * 2). rewrite Z.rem_mul_r by lia.
    rewrite Z.mul_comm, Z.mod_add by lia. apply Z.mod_mod. lia. }
  pose proof (Z.mod_pos_bound v 128 ltac:(lia)). apply Z.mod_small. lia.
Qed.

(** Joining the next seven bits. *)
Lemma join_bits i acc x : 0 <= i -> 0 <= acc < 2 ^ (7 * i) -> 0 <= x -> x * 2 ^ (7 * i) < 2 ^ 64 ->
  Z.lor acc (wrap 64 (Z.shiftl x (7 * i))) = acc + x * 2 ^ (7 * i).
Proof.
  intros Hi Ha Hx Hlt. rewrite wrap_small.
  - apply lor_shiftl_add; lia.
  - unfold fits. rewrite Z.shiftl_mul_pow2 by lia. nia.
Qed.

Lemma varint_from_loop fuel i acc v rest :
  0 <= i -> i + Z.of_nat fuel = 10 -> (1 <= fuel)%nat ->
  0 <= acc < 2 ^ (7 * i) -> 0 <= v -> v * 2 ^ (7 * i) < 2 ^ 64 ->
  varint_from i acc (varint_loop fuel v ++ rest) =
  Ok (acc + v * 2 ^ (7 * i), i + zlen (varint_loop fuel v)).
Proof.
  revert i acc v; induction fuel as [|fuel IH]; intros i acc v Hi Hsum H1 Hacc Hv Hlt; [lia|].
  cbn [varint_loop]. assert (0 < 2 ^ (7 * i)) by (apply Z.pow_pos_nonneg; lia).
  destruct (Z.leb_spec 0x80 v) as [Hge|Hlt'].
  - cbn [app varint_from]. rewrite (proj2 (Z.leb_gt 10 i)) by lia.
    rewrite continuation_byte by done. pose proof (Z.mod_pos_bound v 128 ltac:(lia)).
    rewrite (proj2 (Z.ltb_ge _ _)) by lia. rewrite land_0x7f.
    replace ((128 + v mod 128) mod 128) with (v mod 128)
      by (replace (128 + v mod 128) with (v mod 128 + 1 * 128) by lia;
          by rewrite Z.mod_add, Z.mod_mod by lia).
    pose proof (Z.div_mod v 128 ltac:(lia)) as Hdm.
    assert (0 <= v / 128) by (apply Z.div_pos; lia).
    rewrite join_bits by nia. rewrite Z.shiftr_div_pow2 by lia. change (2 ^ 7) with 128.
    assert (2 ^ (7 * (i + 1)) = 128 * 2 ^ (7 * i)) as Hpow
      by (replace (7 * (i + 1)) with (7 + 7 * i) by lia; by rewrite Z.pow_add_r by lia).
    rewrite IH; [| lia | lia | | rewrite Hpow; nia | done | rewrite Hpow; nia].
    + f_equal. f_equal; [rewrite Hpow; nia|]. unfold zlen. simpl length. lia.
    + destruct fuel; [|lia]. assert (i = 9) as -> by lia. change (2 ^ (7 * 9)) with (2 ^ 63) in Hlt. lia.
  - cbn [app varint_from]. rewrite (proj2 (Z.leb_gt 10 i)) by lia.
    rewrite b2z_z2b, (Z.mod_small v) by lia. rewrite (proj2 (Z.ltb_lt _ _)) by lia.
    rewrite land_0x7f, Z.mod_small by lia. rewrite join_bits by nia. done.
Qed.

Lemma decode_varint_append v rest : fits 64 v ->
  decode_varint (append_varint v ++ rest) = Ok (v, zlen (append_varint v)).
Proof.
  intros Hv. unfold decode_varint, append_varint, fits in *.
  rewrite varint_from_loop; [f_equal; f_equal; lia | simpl; lia..].
Qed.

Lemma varint_from_bounds i v data w n : 0 <= i -> varint_from i v data = Ok (w, n) ->
  i + 1 <= n <= i + zlen data.
Proof.
  revert i v; induction data as [|c data IH]; intros i v Hi; cbn [varint_from]; [done|].
  destruct (10 <=? i); [done|]. unfold zlen. cbn [length].
  destruct (_ <? _); [intros [= _ <-]; lia|].
  intros H%IH; [|lia]. unfold zlen in H. lia.
Qed.

Lemma decode_varint_bounds data w n : decode_varint data = Ok (w, n) -> 1 <= n <= zlen data.
Proof. intros H%varint_from_bounds; lia. Qed.

Lemma decode_varint_le_10 data w n : decode_varint data = Ok (w, n) -> n <= 10.
Proof.
  assert (forall i v, i <= 10 -> varint_from i v data = Ok (w, n) -> n <= 10) as H.
  { induction data as [|c l IH]; intros i v Hi; cbn [varint_from]; [done|].
    destruct (Z.leb_spec 10 i); [done|]. destruct (_ <? _); [intros [= _ <-]; lia|].
    apply IH. lia. }
  apply H. lia.
Qed.

Lemma varint_from_no_panic i v data : no_panic (varint_from i v data).
Proof.
  revert i v; induction data as [|c data IH]; intros i v; cbn [varint_from]; [done|].
  destruct (_ <=? _); [done|]. destruct (_ <? _); [done|]. apply IH.
Qed.

(** *** Reading one item *)

Lemma from_offset_drop (data : bytes) n : 0 <= n <= zlen data ->
  from_offset data n = Ok (drop (Z.to_nat n) data).
Proof. intros Hn. unfold from_offset. by rewrite (proj2 (Z.leb_le _ _)) by lia. Qed.

Lemma from_offset_app (l rest : bytes) : from_offset (l ++ rest) (zlen l) = Ok rest.
Proof.
  rewrite from_offset_drop by (rewrite zlen_app; pose proof (zlen_nonneg l); pose proof (zlen_nonneg rest); lia).
  unfold zlen. by rewrite Nat2Z.id, drop_app_length.
Qed.

Lemma from_offset_length data n d : from_offset data n = Ok d ->
  (length d <= length data)%nat /\ (1 <= n -> data <> [] -> (length d < length data)%nat).
Proof.
  unfold from_offset. destruct (_ <=? _); [|done]. intros [= <-]. rewrite length_drop.
  split; [lia|]. intros H1 Hne. destruct data; [done|]. simpl length. lia.
Qed.

Lemma read_varint_append v rest : fits 64 v ->
  read_varint (append_varint v ++ rest) = Ok (v, rest).
Proof.
  intros Hv. unfold read_varint. rewrite decode_varint_append by done. simpl.
  by rewrite from_offset_app.
Qed.

Lemma read_tag_append field wtype rest : 0 <= field < 2 ^ 61 -> 0 <= wtype < 8 ->
  read_tag (append_tag field wtype ++ rest) = Ok (field, wtype, rest).
Proof.
  intros Hf Hw. unfold read_tag, decode_tag, append_tag.
  assert (Z.lor (Z.shiftl field 3) wtype = wtype + field * 8) as Ht
    by (rewrite Z.lor_comm, lor_shiftl_add by lia; done).
  assert (fits 64 (wtype + field * 8)) by (unfold fits; lia).
  rewrite Ht, decode_varint_append by done. simpl. rewrite from_offset_app. simpl.
  rewrite Z.shiftr_div_pow2 by lia. change (2 ^ 3) with 8.
  rewrite Z.div_add, Z.div_small, land_7, Z.mod_add, Z.mod_small by lia. done.
Qed.

Lemma read_bytes_append d rest : zlen d + 10 < 2 ^ 64 ->
  read_bytes (append_varint (zlen d) ++ d ++ rest) = Ok (d, rest).
Proof.
  intros Hd. pose proof (zlen_nonneg d) as H0. unfold read_bytes, decode_bytes.
  rewrite decode_varint_append by (unfold fits; lia). simpl.
  set (hd := append_varint (zlen d)).
  assert (Hh : zlen hd <= 10).
  { apply (decode_varint_le_10 hd (zlen d)). rewrite <-(app_nil_r hd) at 1.
    apply decode_varint_append. unfold fits; lia. }
  assert (add_usize (zlen hd) (zlen d) = zlen (hd ++ d)) as ->.
  { unfold add_usize. rewrite zlen_app. apply wrap_small. pose proof (zlen_nonneg hd). unfold fits; lia. }
  rewrite (proj2 (Z.ltb_ge _ _)) by (rewrite !zlen_app; pose proof (zlen_nonneg rest); lia).
  unfold sub_range. rewrite (proj2 (Z.leb_le _ _)) by (rewrite zlen_app; lia).
  rewrite (proj2 (Z.leb_le _ _)) by (rewrite !zlen_app; pose proof (zlen_nonneg rest); lia). simpl.
  rewrite app_assoc, from_offset_app. simpl. unfold mret, result_ret. do 2 f_equal.
  rewrite zlen_app. replace (zlen hd + zlen d - zlen hd) with (zlen d) by lia.
  unfold zlen. rewrite !Nat2Z.id, <-app_assoc, drop_app_length. by rewrite take_app_length.
Qed.

End Varints.

(** ** Every round of a decoder consumes input *)
Section Consumption.
Import Pb.

Lemma read_tag_shorter data f w d : read_tag data = Ok (f, w, d) ->
  (length d < length data)%nat.
Proof.
  unfold read_tag, decode_tag. intros H. invert_ok H. invert_ok Hx.
  match goal with Hv : decode_varint _ = Ok _ |- _ => apply decode_varint_bounds in Hv as Hb end.
  apply (from_offset_length _ _ _) in Hx0 as [_ Hlt]. apply Hlt; [lia|].
  intros ->. unfold zlen in Hb; simpl in Hb; lia.
Qed.

Lemma read_varint_shorter data v d : read_varint data = Ok (v, d) -> (length d <= length data)%nat.
Proof. unfold read_varint. intros H. invert_ok H. by apply from_offset_length in Hx0 as [? _]. Qed.
Lemma read_bytes_shorter data v d : read_bytes data = Ok (v, d) -> (length d <= length data)%nat.
Proof. unfold read_bytes. intros H. invert_ok H. by apply from_offset_length in Hx0 as [? _]. Qed.
Lemma read_skip_shorter data w d : read_skip data w = Ok d -> (length d <= length data)%nat.
Proof. unfold read_skip. intros H. invert_ok H. by apply from_offset_length in H as [? _]. Qed.

End Consumption.

(** The rounds all read a tag first, and give back what is left. *)
Ltac solve_consumes :=
  let H := fresh "H" in
  intros ? ? ? ? _ H; invert_ok H; simplify_eq;
  repeat match goal with
  | Hr : Pb.read_tag _ = Ok _ |- _ => apply read_tag_shorter in Hr
  | Hr : Pb.read_varint _ = Ok _ |- _ => apply read_varint_shorter in Hr
  | Hr : Pb.read_bytes _ = Ok _ |- _ => apply read_bytes_shorter in Hr
  | Hr : Pb.read_skip _ _ = Ok _ |- _ => apply read_skip_shorter in Hr
  end; lia.

Section Consumes.
Import Pb.
Lemma transport_consumes : consumes TransportInstruction.decode_step.
Proof. unfold TransportInstruction.decode_step. solve_consumes. Qed.
Lemma user_keys_consumes : consumes UserInstruction.keys_step.
Proof. unfold UserInstruction.keys_step. solve_consumes. Qed.
Lemma user_size_consumes : consumes UserInstruction.size_step.
Proof. unfold UserInstruction.size_step. solve_consumes. Qed.
Lemma user_one_consumes : consumes UserInstruction.one_step.
Proof. unfold UserInstruction.one_step. solve_consumes. Qed.
Lemma user_message_consumes : consumes UserInstruction.message_step.
Proof. unfold UserInstruction.message_step. solve_consumes. Qed.
Lemma host_bytes_consumes : consumes HostInstruction.host_step.
Proof. unfold HostInstruction.host_step. solve_consumes. Qed.
Lemma host_size_consumes : consumes HostInstruction.size_step.
Proof. unfold HostInstruction.size_step. solve_consumes. Qed.
Lemma host_echo_consumes : consumes HostInstruction.echo_step.
Proof. unfold HostInstruction.echo_step. solve_consumes. Qed.
Lemma host_one_consumes : consumes HostInstruction.one_step.
Proof. unfold HostInstruction.one_step. solve_consumes. Qed.
Lemma host_message_consumes : consumes HostInstruction.message_step.
Proof. unfold HostInstruction.message_step. solve_consumes. Qed.
End Consumes.

#[global] Arguments Pb.append_varint : simpl never.
#[global] Arguments Pb.append_tag : simpl never.
#[global] Arguments Pb.read_tag : simpl never.
#[global] Arguments Pb.read_varint : simpl never.
#[global] Arguments Pb.read_bytes : simpl never.
#[global] Arguments Pb.read_skip : simpl never.
#[global] Arguments while_data : simpl never.

(** ** Round trips *)
Section RoundTrips.
Import Pb.

Lemma append_varint_ne v rest : append_varint v ++ rest <> [].
Proof. unfold append_varint. cbn [varint_loop]. by destruct (_ <=? _). Qed.
Lemma append_tag_ne f w rest : append_tag f w ++ rest <> [].
Proof. apply append_varint_ne. Qed.
Lemma append_tag_varint_ne f v rest : append_tag_varint f v ++ rest <> [].
Proof. unfold append_tag_varint. rewrite <-app_assoc. apply append_tag_ne. Qed.
Lemma append_tag_bytes_ne f d rest : append_tag_bytes f d ++ rest <> [].
Proof. unfold append_tag_bytes. rewrite <-app_assoc. apply append_tag_ne. Qed.

(** Encoding adds at most twenty bytes around a field's payload. *)
Lemma append_varint_le v : zlen (append_varint v) <= 11.
Proof.
  unfold append_varint. assert (forall n v, zlen (varint_loop n v) <= Z.of_nat n + 1) as H.
  { induction n as [|n IH]; intros x; cbn [varint_loop]; [unfold zlen; simpl; lia|].
    destruct (_ <=? _); unfold zlen in *; simpl length; [|lia]. specialize (IH (Z.shiftr x 7)). lia. }
  specialize (H 10%nat v). lia.
Qed.

Lemma append_tag_le f w : zlen (append_tag f w) <= 11.
Proof. apply append_varint_le. Qed.

#[local] Opaque append_varint append_tag.

Lemma read_tag_varint f v rest : 0 <= f < 2 ^ 61 ->
  read_tag (append_tag_varint f v ++ rest) = Ok (f, WIRE_VARINT, append_varint v ++ rest).
Proof.
  intros Hf. unfold append_tag_varint. rewrite <-app_assoc.
  by rewrite read_tag_append by (unfold WIRE_VARINT; lia).
Qed.
Lemma read_tag_bytes f d rest : 0 <= f < 2 ^ 61 ->
  read_tag (append_tag_bytes f d ++ rest) =
  Ok (f, WIRE_BYTES, append_varint (zlen d) ++ d ++ rest).
Proof.
  intros Hf. unfold append_tag_bytes. rewrite <-!app_assoc.
  by rewrite read_tag_append by (unfold WIRE_BYTES; lia).
Qed.

(** Read a tag and its item off an encoded field. *)
Ltac read_field :=
  first [ rewrite read_tag_varint by lia; simpl; rewrite read_varint_append by (unfold fits in *; lia)
        | rewrite read_tag_bytes by lia; simpl; rewrite read_bytes_append by lia ]; simpl.

(** One round of the decoder [stp] over an encoded field. *)
Ltac field_round lem stp :=
  rewrite <-?app_assoc;
  erewrite (while_data_step _ lem);
  [ | first [apply append_tag_varint_ne | apply append_tag_bytes_ne]
    | unfold stp; read_field; reflexivity ].

Section Transport.
Import TransportInstruction.

Definition wf_instruction (m : t) : Prop :=
  fits 32 (protocol_version m) /\ fits 64 (old_num m) /\ fits 64 (new_num m) /\
  fits 64 (ack_num m) /\ fits 64 (throwaway_num m) /\
  zlen (diff m) + 10 < 2 ^ 64 /\ zlen (chaff m) + 10 < 2 ^ 64.

Lemma transport_decode_encode m : wf_instruction m -> decode (encode m) = Ok m.
Proof.
  destruct m as [pv o n a th d c]. intros (Hpv & Ho & Hn & Ha & Hth & Hd & Hc). simpl in *.
  assert (fits 64 pv) by (unfold fits in *; lia).
  unfold decode, encode, default_.
  cbn [protocol_version old_num new_num ack_num throwaway_num diff chaff].
  assert (forall rest,
    while_data decode_step ((if negb (pv =? 0) then append_tag_varint 1 pv else []) ++ rest)
      (mk 0 0 0 0 0 [] []) = while_data decode_step rest (mk pv 0 0 0 0 [] [])) as ->.
  { intros rest. destruct (Z.eqb_spec pv 0) as [->|Hne]; [done|]. cbn [negb].
    field_round transport_consumes decode_step. by rewrite wrap_small. }
  do 4 field_round transport_consumes decode_step.
  cbn [protocol_version old_num new_num ack_num throwaway_num diff chaff].
  assert (forall rest,
    while_data decode_step ((if bool_decide (d <> []) then append_tag_bytes 6 d else []) ++ rest)
      (mk pv o n a th [] []) = while_data decode_step rest (mk pv o n a th d [])) as ->.
  { intros rest. case_bool_decide as Hne; [|by destruct d]. field_round transport_consumes decode_step. done. }
  case_bool_decide as Hne; [|by destruct c].
  rewrite <-(app_nil_r (append_tag_bytes 7 c)). field_round transport_consumes decode_step. done.
Qed.

End Transport.

(** Instructions of both directions: an [i32] size is sent as its 32 bits. *)
Lemma as_i32_wrap z : - 2 ^ 31 <= z < 2 ^ 31 -> as_i32 (wrap 32 z) = z.
Proof.
  intros Hz. unfold as_i32. cbv zeta.
  assert (wrap 32 (wrap 32 z) = wrap 32 z) as -> by (apply wrap_small, wrap_fits; lia).
  unfold wrap. destruct (Z.leb_spec 0 z).
  - rewrite Z.mod_small by lia. by rewrite (proj2 (Z.ltb_lt _ _)) by lia.
  - replace (z mod 2 ^ 32) with (z + 2 ^ 32).
    + rewrite (proj2 (Z.ltb_ge _ _)) by lia. lia.
    + symmetry. rewrite <-(Z.mod_add z 1) by lia. apply Z.mod_small. lia.
Qed.
Lemma as_i64_small z : 0 <= z < 2 ^ 63 -> as_i64 z = z.
Proof.
  intros Hz. unfold as_i64. cbv zeta. rewrite wrap_small by (unfold fits; lia).
  by rewrite (proj2 (Z.ltb_lt _ _)) by lia.
Qed.
Lemma wrap32_fits64 z : fits 64 (wrap 32 z).
Proof. pose proof (wrap_fits 32 z ltac:(lia)). unfold fits in *. lia. Qed.

(** A terminal size that is sent: positive in one direction, or not set. *)
Definition wf_size (w h : Z) : Prop :=
  - 2 ^ 31 <= w < 2 ^ 31 /\ - 2 ^ 31 <= h < 2 ^ 31 /\ (0 < w \/ 0 < h \/ (w = 0 /\ h = 0)).

Lemma size_bytes_small w h :
  zlen (append_tag_varint 5 (wrap 32 w) ++ append_tag_varint 6 (wrap 32 h)) + 10 < 2 ^ 64.
Proof.
  unfold append_tag_varint. rewrite !zlen_app.
  pose proof (append_tag_le 5 WIRE_VARINT). pose proof (append_tag_le 6 WIRE_VARINT).
  pose proof (append_varint_le (wrap 32 w)). pose proof (append_varint_le (wrap 32 h)). lia.
Qed.

Lemma tag_bytes_small f d n : zlen d <= n -> n < 2 ^ 63 -> zlen (append_tag_bytes f d) <= n + 22.
Proof.
  intros Hd Hn. unfold append_tag_bytes. rewrite !zlen_app.
  pose proof (append_tag_le f WIRE_BYTES).
  pose proof (append_varint_le (zlen d)). lia.
Qed.


Section User.
Import UserInstruction.

Definition wf_user (m : t) : Prop :=
  zlen (keys m) < 2 ^ 62 /\ wf_size (width m) (height m).

Lemma user_keys_field d rest m : zlen d < 2 ^ 62 ->
  while_data one_step
    ((if bool_decide (d <> []) then append_tag_bytes 2 (append_tag_bytes 4 d) else []) ++ rest)
    (mk [] (width m) (height m)) =
  while_data one_step rest (mk d (width m) (height m)).
Proof.
  intros Hd. case_bool_decide as Hne; [|by destruct d].
  assert (zlen (append_tag_bytes 4 d) <= 2 ^ 62 + 22) by (apply tag_bytes_small; lia).
  rewrite (while_data_step _ user_one_consumes _ _ rest (mk d (width m) (height m)));
    [done | apply append_tag_bytes_ne |].
  unfold one_step. read_field. rewrite <-(app_nil_r (append_tag_bytes 4 d)).
  field_round user_keys_consumes keys_step. done.
Qed.

Lemma user_size_field w h rest d : wf_size w h ->
  while_data one_step
    ((if (0 <? w) || (0 <? h) then
        append_tag_bytes 3 (append_tag_varint 5 (wrap 32 w) ++ append_tag_varint 6 (wrap 32 h))
      else []) ++ rest) (mk d 0 0) =
  while_data one_step rest (mk d w h).
Proof.
  intros (Hw & Hh & Hpos). destruct ((0 <? w) || (0 <? h)) eqn:Hb.
  - pose proof (size_bytes_small w h). pose proof (wrap32_fits64 w). pose proof (wrap32_fits64 h).
    rewrite (while_data_step _ user_one_consumes _ _ rest (mk d w h));
      [done | apply append_tag_bytes_ne |].
    unfold one_step. read_field. field_round user_size_consumes size_step.
    rewrite <-(app_nil_r (append_tag_varint 6 _)). field_round user_size_consumes size_step.
    unfold while_data; simpl. by rewrite !as_i32_wrap by lia.
  - apply orb_false_iff in Hb as [?%Z.ltb_ge ?%Z.ltb_ge].
    destruct Hpos as [?|[?|[-> ->]]]; [lia | lia | done].
Qed.

Lemma user_one_roundtrip m : wf_user m -> decode_one (encode_one m) = Ok m.
Proof.
  destruct m as [d w h]. intros [Hd Hs]. unfold decode_one, encode_one, default_.
  cbn [keys width height] in *. rewrite (user_keys_field d _ (mk [] 0 0)) by done. cbn [width height].
  rewrite <-(app_nil_r (if _ || _ then _ else _)), user_size_field by done. done.
Qed.

Lemma encode_one_small m : wf_user m -> zlen (encode_one m) <= 2 ^ 62 + 200.
Proof.
  intros [Hd Hs]. unfold encode_one. rewrite zlen_app.
  assert (zlen (append_tag_bytes 4 (keys m)) <= 2 ^ 62 + 22) by (apply tag_bytes_small; lia).
  assert (zlen (append_tag_bytes 2 (append_tag_bytes 4 (keys m))) <= 2 ^ 62 + 44) by
    (etransitivity; [apply (tag_bytes_small 2 _ (2 ^ 62 + 22)); lia | lia]).
  assert (zlen (append_tag_varint 5 (wrap 32 (width m)) ++ append_tag_varint 6 (wrap 32 (height m))) <= 50).
  { unfold append_tag_varint. rewrite !zlen_app.
    pose proof (append_tag_le 5 WIRE_VARINT). pose proof (append_tag_le 6 WIRE_VARINT).
    pose proof (append_varint_le (wrap 32 (width m))). pose proof (append_varint_le (wrap 32 (height m))). lia. }
  pose proof (tag_bytes_small 3 _ 50 ltac:(eassumption) ltac:(lia)).
  destruct (bool_decide _), (_ || _); unfold zlen in *; simpl length in *; lia.
Qed.

Lemma user_message_app out ms :
  Forall wf_user ms ->
  while_data message_step (encode_message ms) out = Ok (out ++ ms).
Proof.
  intros Hms. revert out; induction Hms as [|m ms Hm Hms IH]; intros out.
  { unfold while_data; simpl. by rewrite app_nil_r. }
  pose proof (encode_one_small m Hm). unfold encode_message in *. rewrite fmap_cons. cbn [concat].
  rewrite (while_data_step _ user_message_consumes _ _ (concat ((fun m => append_tag_bytes 1 (encode_one m)) <$> ms)) (out ++ [m]));
    [| apply append_tag_bytes_ne |].
  - rewrite IH. by rewrite <-app_assoc.
  - unfold message_step. read_field. by rewrite user_one_roundtrip.
Qed.

End User.

Section Host.
Import HostInstruction.

Definition wf_host (m : t) : Prop :=
  zlen (hoststring m) < 2 ^ 62 /\ wf_size (width m) (height m) /\ -1 <= echo_ack_num m < 2 ^ 63.

Lemma host_string_field d rest : zlen d < 2 ^ 62 ->
  while_data one_step
    ((if bool_decide (d <> []) then append_tag_bytes 2 (append_tag_bytes 4 d) else []) ++ rest)
    absent =
  while_data one_step rest (mk d 0 0 (-1)).
Proof.
  intros Hd. case_bool_decide as Hne; [|by destruct d].
  assert (zlen (append_tag_bytes 4 d) <= 2 ^ 62 + 22) by (apply tag_bytes_small; lia).
  rewrite (while_data_step _ host_one_consumes _ _ rest (mk d 0 0 (-1)));
    [done | apply append_tag_bytes_ne |].
  unfold one_step, absent. read_field. rewrite <-(app_nil_r (append_tag_bytes 4 d)).
  field_round host_bytes_consumes host_step. done.
Qed.

Lemma host_size_field w h rest d : wf_size w h ->
  while_data one_step
    ((if (0 <? w) || (0 <? h) then
        append_tag_bytes 3 (append_tag_varint 5 (wrap 32 w) ++ append_tag_varint 6 (wrap 32 h))
      else []) ++ rest) (mk d 0 0 (-1)) =
  while_data one_step rest (mk d w h (-1)).
Proof.
  intros (Hw & Hh & Hpos). destruct ((0 <? w) || (0 <? h)) eqn:Hb.
  - pose proof (size_bytes_small w h). pose proof (wrap32_fits64 w). pose proof (wrap32_fits64 h).
    rewrite (while_data_step _ host_one_consumes _ _ rest (mk d w h (-1)));
      [done | apply append_tag_bytes_ne |].
    unfold one_step. read_field. field_round host_size_consumes size_step.
    rewrite <-(app_nil_r (append_tag_varint 6 _)). field_round host_size_consumes size_step.
    unfold while_data; simpl. by rewrite !as_i32_wrap by lia.
  - apply orb_false_iff in Hb as [?%Z.ltb_ge ?%Z.ltb_ge].
    destruct Hpos as [?|[?|[-> ->]]]; [lia | lia | done].
Qed.

Lemma host_one_roundtrip m : wf_host m -> decode_one (encode_one m) = Ok m.
Proof.
  destruct m as [d w h e]. intros (Hd & Hs & He). unfold decode_one, encode_one.
  cbn [hoststring width height echo_ack_num] in *.
  rewrite host_string_field, host_size_field by done.
  destruct (Z.leb_spec 0 e) as [H0|H0].
  - assert (zlen (append_tag_varint 8 e) <= 22).
    { unfold append_tag_varint. rewrite zlen_app.
      pose proof (append_tag_le 8 WIRE_VARINT). pose proof (append_varint_le e). lia. }
    rewrite <-(app_nil_r (append_tag_bytes 7 _)).
    rewrite (while_data_step _ host_one_consumes _ _ [] (mk d w h e));
      [done | apply append_tag_bytes_ne |].
    unfold one_step. read_field. rewrite <-(app_nil_r (append_tag_varint 8 e)).
    assert (fits 64 e) by (unfold fits; lia).
    field_round host_echo_consumes echo_step.
    unfold while_data; simpl. by rewrite as_i64_small by lia.
  - by assert (e = -1) as -> by lia.
Qed.

Lemma host_encode_small m : wf_host m -> zlen (encode_one m) <= 2 ^ 62 + 300.
Proof.
  intros (Hd & Hs & He). unfold encode_one. rewrite !zlen_app.
  assert (zlen (append_tag_bytes 4 (hoststring m)) <= 2 ^ 62 + 22) by (apply tag_bytes_small; lia).
  assert (zlen (append_tag_bytes 2 (append_tag_bytes 4 (hoststring m))) <= 2 ^ 62 + 44) by
    (etransitivity; [apply (tag_bytes_small 2 _ (2 ^ 62 + 22)); lia | lia]).
  assert (zlen (append_tag_varint 5 (wrap 32 (width m)) ++ append_tag_varint 6 (wrap 32 (height m))) <= 50).
  { unfold append_tag_varint. rewrite !zlen_app.
    pose proof (append_tag_le 5 WIRE_VARINT). pose proof (append_tag_le 6 WIRE_VARINT).
    pose proof (append_varint_le (wrap 32 (width m))). pose proof (append_varint_le (wrap 32 (height m))). lia. }
  assert (zlen (append_tag_varint 8 (echo_ack_num m)) <= 22).
  { unfold append_tag_varint. rewrite zlen_app.
    pose proof (append_tag_le 8 WIRE_VARINT). pose proof (append_varint_le (echo_ack_num m)). lia. }
  pose proof (tag_bytes_small 3 _ 50 ltac:(eassumption) ltac:(lia)).
  pose proof (tag_bytes_small 7 _ 22 ltac:(eassumption) ltac:(lia)).
  destruct (bool_decide _), (_ || _), (_ <=? _); unfold zlen in *; simpl length in *; lia.
Qed.

Lemma host_message_app out ms :
  Forall wf_host ms ->
  while_data message_step (encode_message ms) out = Ok (out ++ ms).
Proof.
  intros Hms. revert out; induction Hms as [|m ms Hm Hms IH]; intros out.
  { unfold while_data; simpl. by rewrite app_nil_r. }
  pose proof (host_encode_small m Hm). unfold encode_message in *. rewrite fmap_cons. cbn [concat].
  rewrite (while_data_step _ host_message_consumes _ _ (concat ((fun m => append_tag_bytes 1 (encode_one m)) <$> ms)) (out ++ [m]));
    [| apply append_tag_bytes_ne |].
  - rewrite IH. by rewrite <-app_assoc.
  - unfold message_step. read_field. by rewrite host_one_roundtrip.
Qed.

End Host.

End RoundTrips.

(** ** Properties *)
Section Properties.
Import Pb.

(** A transport instruction whose numbers fit their wire types is read back
    exactly: version, state numbers, acknowledgement, watermark, diff and
    chaff, whichever optional fields are left out because they are empty. *)
Theorem transport_instruction_roundtrip (m : TransportInstruction.t) :
  wf_instruction m -> TransportInstruction.decode (TransportInstruction.encode m) = Ok m.
Proof. apply transport_decode_encode. Qed.

(** A user message, any number of keystroke and resize instructions, is
    read back in order, sizes keeping their sign through the 32-bit varint. *)
Theorem user_message_roundtrip (ms : list UserInstruction.t) :
  Forall wf_user ms -> UserInstruction.decode_message (UserInstruction.encode_message ms) = Ok ms.
Proof. intros H. unfold UserInstruction.decode_message. by rewrite user_message_app. Qed.

(** A host message is read back in order, with the absent echo
    acknowledgement (-1) told apart from an acknowledgement of zero. *)
Theorem host_message_roundtrip (ms : list HostInstruction.t) :
  Forall wf_host ms -> HostInstruction.decode_message (HostInstruction.encode_message ms) = Ok ms.
Proof. intros H. unfold HostInstruction.decode_message. by rewrite host_message_app. Qed.

(** The transport decoder does not report a fixed-width field cut short as
    a protobuf error: skipping it slices past the end, which panics. *)
Theorem transport_decode_panics_on_cut_fixed_field :
  TransportInstruction.decode [z2b 0x0d] = Panic /\
  TransportInstruction.decode [z2b 0x09; z2b 1; z2b 2] = Panic.
Proof. split; vm_compute; reflexivity. Qed.

Lemma transport_instruction_roundtrip_witness :
  let m := TransportInstruction.mk 2 300 18446744073709551615 7 0 [z2b 1; z2b 2] [] in
  TransportInstruction.decode (TransportInstruction.encode m) = Ok m.
Proof.
  cbv zeta. apply transport_instruction_roundtrip.
  repeat split; vm_compute; congruence.
Defined.

Lemma user_message_roundtrip_witness :
  let ms := [UserInstruction.keystroke [z2b 108; z2b 115]; UserInstruction.resize 120 (-40);
             UserInstruction.default_] in
  UserInstruction.decode_message (UserInstruction.encode_message ms) = Ok ms.
Proof.
  cbv zeta. apply user_message_roundtrip.
  repeat constructor; unfold wf_user, wf_size; simpl; try (vm_compute; congruence); lia.
Defined.

Lemma host_message_roundtrip_witness :
  let ms := [HostInstruction.mk [z2b 65] 0 0 (-1); HostInstruction.mk [] 80 24 0] in
  HostInstruction.decode_message (HostInstruction.encode_message ms) = Ok ms.
Proof.
  cbv zeta. apply host_message_roundtrip.
  repeat constructor; unfold wf_host, wf_size; simpl; try (vm_compute; congruence); lia.
Defined.

End Properties.
