(* ===== verification/UserStream.v ===== *)
(** * The server's reconstruction of the client's input stream

    Models [crates/zosh/server/src/user_stream.rs]: the strict decoder of a
    UserMessage diff, the lenient scan for the settings a diff announces, and the
    tracker that turns a graph of SSP states into input delivered exactly once.
    [ReceivedState] is [crates/zosh/server/src/protocol.rs]'s. *)
From Stdlib Require Import ZArith Lia List Bool.
From stdpp Require Import base numbers list gmap.
From S2P Require Import Prelude Pb.
Open Scope Z_scope.

Module UserStream.

(** ** Data *)

Record ReceivedState := mkReceivedState {
  old_num : Z; new_num : Z; ack_num : Z; throwaway_num : Z; diff : bytes;
}.

Inductive UserEvent :=
| Byte (b : byte)
| Resize (cols rows : Z)
| TerminalResponse (response : bytes)
| AgentHello (version : Z)
| AgentResponseEvent (connection_id request_id : Z) (frame : bytes) (closed : bool).

#[export] Instance UserEvent_eq_dec : EqDecision UserEvent.
Proof. solve_decision. Defined.

Record AgentResponse := mkAgentResponse {
  connection_id : Z; request_id : Z; frame : bytes; closed : bool;
}.

Record AcceptedInput := mkAcceptedInput {
  accepted_frame : Z;
  events : list UserEvent;
  keep_alive_ms : option Z;
  scrollback_kib : option Z;
  clipboard_version : option Z;
}.

Definition INSTRUCTION_FIELD : Z := 1.
Definition KEEP_ALIVE_FIELD : Z := 20.
Definition TERMINAL_RESPONSE_FIELD : Z := 21.
Definition SCROLLBACK_FIELD : Z := 22.
Definition AGENT_FIELD : Z := 23.
Definition CLIPBOARD_FIELD : Z := 24.
Definition MAX_AGENT_FRAME : Z := 256 * 1024.
Definition WIRE_VARINT : Z := 0.
Definition WIRE_FIXED64 : Z := 1.
Definition WIRE_BYTES : Z := 2.
Definition WIRE_FIXED32 : Z := 5.

(** [(field, wire) == (f, w)] *)
Definition is_field (field wire f w : Z) : bool := (field =? f) && (wire =? w).

(** ** The strict reader *)

Inductive decode_error :=
| VarintOverflows | TruncatedVarint | TruncatedBytes | TruncatedFixed
| UnsupportedWire (wire : Z)
| InvalidWidth (w : Z) | InvalidHeight (h : Z)
| InvalidVersion (v : Z)
| AgentFrameTooLarge | NoConnectionId | NoRequestId.

(** [for (index, &byte) in rest.iter().enumerate().take(10)] *)
Fixpoint strict_from (rounds : nat) (index value : Z) (rest : bytes) : result decode_error (Z * bytes) :=
  match rounds, rest with
  | S rounds, byte :: tail =>
      let bits := Z.land (b2z byte) 0x7f in
      if (index =? 9) && (1 <? bits) then Err VarintOverflows
      else
        let value := Z.lor value (wrap 64 (Z.shiftl bits (index * 7))) in
        if Z.land (b2z byte) 0x80 =? 0 then Ok (value, tail)
        else strict_from rounds (index + 1) value tail
  | _, _ => Err TruncatedVarint
  end.
Definition read_varint_strict (rest : bytes) : result decode_error (Z * bytes) :=
  strict_from 10 0 0 rest.

Definition read_tag_strict (rest : bytes) : result decode_error (Z * Z * bytes) :=
  '(tag, rest) ← read_varint_strict rest; mret (Z.shiftr tag 3, Z.land tag 0x7, rest).

Definition read_bytes_strict (rest : bytes) : result decode_error (bytes * bytes) :=
  '(length, rest) ← read_varint_strict rest;
  ok_or (split_at_checked rest length) TruncatedBytes.

Definition advance_strict (rest : bytes) (count : Z) : result decode_error bytes :=
  '(_, tail) ← ok_or (split_at_checked rest count) TruncatedFixed; mret tail.

Definition skip_field_strict (rest : bytes) (wire : Z) : result decode_error bytes :=
  if wire =? WIRE_VARINT then '(_, rest) ← read_varint_strict rest; mret rest
  else if wire =? WIRE_FIXED64 then advance_strict rest 8
  else if wire =? WIRE_BYTES then '(_, rest) ← read_bytes_strict rest; mret rest
  else if wire =? WIRE_FIXED32 then advance_strict rest 4
  else Err (UnsupportedWire wire).

(** *** The instructions of a diff *)

Record DecodedInstruction := mkDecoded {
  keys : bytes; width : Z; height : Z;
  terminal_response : option bytes;
  agent_hello : option Z;
  agent_response : option AgentResponse;
}.
Definition decoded_default : DecodedInstruction := mkDecoded [] 0 0 None None None.

Definition keystroke_step (nested : bytes) (keys : bytes) : result decode_error (bytes * bytes) :=
  '(field, wire, nested) ← read_tag_strict nested;
  if is_field field wire 4 WIRE_BYTES then
    '(v, nested) ← read_bytes_strict nested; mret (nested, keys ++ v)
  else nested ← skip_field_strict nested wire; mret (nested, keys).

Definition decode_keystroke (rest keys : bytes) : result decode_error (bytes * bytes) :=
  '(nested, rest) ← read_bytes_strict rest;
  keys ← while_data keystroke_step nested keys; mret (rest, keys).

Definition resize_step (nested : bytes) (size : Z * Z) : result decode_error (bytes * (Z * Z)) :=
  '(field, wire, nested) ← read_tag_strict nested;
  if is_field field wire 5 WIRE_VARINT then
    '(v, nested) ← read_varint_strict nested; mret (nested, (as_i32 v, snd size))
  else if is_field field wire 6 WIRE_VARINT then
    '(v, nested) ← read_varint_strict nested; mret (nested, (fst size, as_i32 v))
  else nested ← skip_field_strict nested wire; mret (nested, size).

Definition decode_resize (rest : bytes) (size : Z * Z) : result decode_error (bytes * (Z * Z)) :=
  '(nested, rest) ← read_bytes_strict rest;
  size ← while_data resize_step nested size; mret (rest, size).

(** The fields of an agent response as they are collected. *)
Record partial_response := mkPartial {
  p_connection_id : option Z; p_request_id : option Z; p_frame : bytes; p_closed : bool;
}.

Definition response_step (rest : bytes) (p : partial_response)
    : result decode_error (bytes * partial_response) :=
  '(field, wire, rest) ← read_tag_strict rest;
  if is_field field wire 1 WIRE_VARINT then
    '(v, rest) ← read_varint_strict rest;
    mret (rest, mkPartial (Some v) (p_request_id p) (p_frame p) (p_closed p))
  else if is_field field wire 2 WIRE_VARINT then
    '(v, rest) ← read_varint_strict rest;
    mret (rest, mkPartial (p_connection_id p) (Some v) (p_frame p) (p_closed p))
  else if is_field field wire 3 WIRE_BYTES then
    '(v, rest) ← read_bytes_strict rest;
    if MAX_AGENT_FRAME <? zlen v then Err AgentFrameTooLarge
    else mret (rest, mkPartial (p_connection_id p) (p_request_id p) v (p_closed p))
  else if is_field field wire 4 WIRE_VARINT then
    '(v, rest) ← read_varint_strict rest;
    mret (rest, mkPartial (p_connection_id p) (p_request_id p) (p_frame p) (negb (v =? 0)))
  else rest ← skip_field_strict rest wire; mret (rest, p).

Definition decode_agent_response (rest : bytes) : result decode_error AgentResponse :=
  p ← while_data response_step rest (mkPartial None None [] false);
  connection_id ← ok_or (p_connection_id p) NoConnectionId;
  request_id ← ok_or (p_request_id p) NoRequestId;
  mret (mkAgentResponse connection_id request_id (p_frame p) (p_closed p)).

Definition hello_step (hello : bytes) (version : option Z) : result decode_error (bytes * option Z) :=
  '(field, wire, hello) ← read_tag_strict hello;
  if is_field field wire 1 WIRE_VARINT then
    '(v, hello) ← read_varint_strict hello;
    v ← ok_or (try_u32 v) (InvalidVersion v); mret (hello, Some v)
  else hello ← skip_field_strict hello wire; mret (hello, version).

Definition agent_step (rest : bytes) (d : option Z * option AgentResponse)
    : result decode_error (bytes * (option Z * option AgentResponse)) :=
  '(field, wire, rest) ← read_tag_strict rest;
  if is_field field wire 1 WIRE_BYTES then
    '(hello, rest) ← read_bytes_strict rest;
    version ← while_data hello_step hello None; mret (rest, (version, snd d))
  else if is_field field wire 2 WIRE_BYTES then
    '(v, rest) ← read_bytes_strict rest;
    response ← decode_agent_response v; mret (rest, (fst d, Some response))
  else rest ← skip_field_strict rest wire; mret (rest, d).

Definition decode_agent (rest : bytes) : result decode_error (option Z * option AgentResponse) :=
  while_data agent_step rest (None, None).

Definition instruction_step (rest : bytes) (d : DecodedInstruction)
    : result decode_error (bytes * DecodedInstruction) :=
  '(field, wire, rest) ← read_tag_strict rest;
  if is_field field wire 2 WIRE_BYTES then
    '(rest, ks) ← decode_keystroke rest (keys d);
    mret (rest, mkDecoded ks (width d) (height d) (terminal_response d) (agent_hello d) (agent_response d))
  else if is_field field wire 3 WIRE_BYTES then
    '(rest, size) ← decode_resize rest (width d, height d);
    mret (rest, mkDecoded (keys d) (fst size) (snd size) (terminal_response d) (agent_hello d) (agent_response d))
  else if is_field field wire TERMINAL_RESPONSE_FIELD WIRE_BYTES then
    '(v, rest) ← read_bytes_strict rest;
    mret (rest, mkDecoded (keys d) (width d) (height d) (Some v) (agent_hello d) (agent_response d))
  else if is_field field wire AGENT_FIELD WIRE_BYTES then
    '(v, rest) ← read_bytes_strict rest;
    '(hello, response) ← decode_agent v;
    mret (rest, mkDecoded (keys d) (width d) (height d) (terminal_response d) hello response)
  else rest ← skip_field_strict rest wire; mret (rest, d).

Definition decode_instruction (rest : bytes) : result decode_error DecodedInstruction :=
  while_data instruction_step rest decoded_default.

(** The keystroke or, failing that, the resize of an instruction. *)
Definition input_events (d : DecodedInstruction) : result decode_error (list UserEvent) :=
  if bool_decide (keys d <> []) then mret (Byte <$> keys d)
  else if (0 <? width d) && (0 <? height d) then
    cols ← ok_or (try_u16 (width d)) (InvalidWidth (width d));
    rows ← ok_or (try_u16 (height d)) (InvalidHeight (height d));
    mret [Resize cols rows]
  else mret [].

Definition response_events (d : DecodedInstruction) : list UserEvent :=
  match terminal_response d with
  | Some response => if bool_decide (response <> []) then [TerminalResponse response] else []
  | None => []
  end.
Definition hello_events (d : DecodedInstruction) : list UserEvent :=
  match agent_hello d with Some version => [AgentHello version] | None => [] end.
Definition agent_events (d : DecodedInstruction) : list UserEvent :=
  match agent_response d with
  | Some r => [AgentResponseEvent (connection_id r) (request_id r) (frame r) (closed r)]
  | None => []
  end.

Definition events_step (rest : bytes) (evs : list UserEvent) : result decode_error (bytes * list UserEvent) :=
  '(field, wire, rest) ← read_tag_strict rest;
  if negb (is_field field wire INSTRUCTION_FIELD WIRE_BYTES) then
    rest ← skip_field_strict rest wire; mret (rest, evs)
  else
    '(instruction, rest) ← read_bytes_strict rest;
    decoded ← decode_instruction instruction;
    input ← input_events decoded;
    mret (rest, evs ++ input ++ response_events decoded ++ hello_events decoded ++ agent_events decoded).

Definition decode_events (diff : bytes) : result decode_error (list UserEvent) :=
  while_data events_step diff [].

(** ** The lenient scan for announced settings *)

Record Announcements := mkAnnouncements {
  a_keep_alive_ms : option Z; a_scrollback_kib : option Z; a_clipboard_version : option Z;
}.
Definition no_announcements : Announcements := mkAnnouncements None None None.

Fixpoint lenient_from (rounds : nat) (index value : Z) (rest : bytes) : option (Z * bytes) :=
  match rounds, rest with
  | S rounds, byte :: tail =>
      let value := Z.lor value (wrap 64 (Z.shiftl (Z.land (b2z byte) 0x7f) (index * 7))) in
      if Z.land (b2z byte) 0x80 =? 0 then Some (value, tail)
      else lenient_from rounds (index + 1) value tail
  | _, _ => None
  end.
Definition read_varint (rest : bytes) : option (Z * bytes) := lenient_from 10 0 0 rest.
Definition read_tag (rest : bytes) : option (Z * Z * bytes) :=
  '(tag, rest) ← read_varint rest; Some (Z.shiftr tag 3, Z.land tag 0x7, rest).
Definition read_bytes (rest : bytes) : option (bytes * bytes) :=
  '(length, rest) ← read_varint rest; split_at_checked rest length.
Definition advance (rest : bytes) (count : Z) : option bytes :=
  '(_, tail) ← split_at_checked rest count; Some tail.
Definition skip_field (rest : bytes) (wire : Z) : option bytes :=
  if wire =? WIRE_VARINT then snd <$> read_varint rest
  else if wire =? WIRE_FIXED64 then advance rest 8
  else if wire =? WIRE_BYTES then snd <$> read_bytes rest
  else if wire =? WIRE_FIXED32 then advance rest 4
  else None.

(** [read_varint(&mut rest).and_then(|v| u32::try_from(v).ok())]: a varint that
    cannot be read leaves [rest] where it was. *)
Definition read_u32 (rest : bytes) : option Z * bytes :=
  match read_varint rest with Some (v, rest') => (try_u32 v, rest') | None => (None, rest) end.

(** [while let Some((field, wire)) = read_tag(&mut rest)]; every round consumes
    a tag, so the length of [rest] bounds the rounds. *)
Fixpoint instruction_announcements_loop (fuel : nat) (rest : bytes) (found : Announcements) : Announcements :=
  match fuel with
  | O => found
  | S fuel =>
      match read_tag rest with
      | None => found
      | Some (field, wire, rest) =>
          if is_field field wire KEEP_ALIVE_FIELD WIRE_VARINT then
            let '(v, rest) := read_u32 rest in
            instruction_announcements_loop fuel rest
              (mkAnnouncements v (a_scrollback_kib found) (a_clipboard_version found))
          else if is_field field wire SCROLLBACK_FIELD WIRE_VARINT then
            let '(v, rest) := read_u32 rest in
            instruction_announcements_loop fuel rest
              (mkAnnouncements (a_keep_alive_ms found) v (a_clipboard_version found))
          else if is_field field wire CLIPBOARD_FIELD WIRE_VARINT then
            let '(v, rest) := read_u32 rest in
            instruction_announcements_loop fuel rest
              (mkAnnouncements (a_keep_alive_ms found) (a_scrollback_kib found) v)
          else
            match skip_field rest wire with
            | None => found
            | Some rest => instruction_announcements_loop fuel rest found
            end
      end
  end.
Definition instruction_announcements (rest : bytes) : Announcements :=
  instruction_announcements_loop (length rest) rest no_announcements.

(** [announced.x.or(found.x)] for each setting. *)
Definition newest_of (announced found : Announcements) : Announcements :=
  mkAnnouncements (option_or (a_keep_alive_ms announced) (a_keep_alive_ms found))
                  (option_or (a_scrollback_kib announced) (a_scrollback_kib found))
                  (option_or (a_clipboard_version announced) (a_clipboard_version found)).

Fixpoint announcements_loop (fuel : nat) (rest : bytes) (found : Announcements) : Announcements :=
  match fuel with
  | O => found
  | S fuel =>
      match read_tag rest with
      | None => found
      | Some (field, wire, rest) =>
          if is_field field wire INSTRUCTION_FIELD WIRE_BYTES then
            match read_bytes rest with
            | None => found
            | Some (instruction, rest) =>
                announcements_loop fuel rest (newest_of (instruction_announcements instruction) found)
            end
          else
            match skip_field rest wire with
            | None => found
            | Some rest => announcements_loop fuel rest found
            end
      end
  end.
Definition announcements (diff : bytes) : Announcements :=
  announcements_loop (length diff) diff no_announcements.

(** ** The tracker *)

Record StreamMeta := mkMeta { total_events : Z; pending : list UserEvent }.

Record Tracker := mkTracker {
  states : gmap Z StreamMeta; latest_state : Z; committed_events : Z;
}.

Definition new : Tracker := mkTracker {[ 0 := mkMeta 0 [] ]} 0 0.

Inductive accept_error :=
| UnknownBase (old : Z) | BadDiff (e : decode_error) | CountOverflow
| LostPrefix | Regressed (committed total : Z).

(** The events of a new state that are past the committed prefix. *)
Definition pending_of (committed : Z) (base : StreamMeta) (delta : list UserEvent)
    : result accept_error (list UserEvent) :=
  if committed <=? total_events base then
    let expected := total_events base - committed in
    if negb (zlen (pending base) =? expected) then Err LostPrefix
    else Ok (pending base ++ delta)
  else
    let already_committed := committed - total_events base in
    if zlen delta <=? already_committed then Ok []
    else Ok (drop (Z.to_nat already_committed) delta).

(** What a commit does to one cached state. *)
Definition commit_meta (committed newly : Z) (meta : StreamMeta) : StreamMeta :=
  if total_events meta <=? committed then mkMeta (total_events meta) []
  else mkMeta (total_events meta) (drop (Z.to_nat (Z.min newly (zlen (pending meta)))) (pending meta)).

Definition accept (t : Tracker) (s : ReceivedState) : Tracker * result accept_error AcceptedInput :=
  if new_num s =? u64_max then (t, Ok (mkAcceptedInput (new_num s) [] None None None))
  else
    let found := announcements (diff s) in
    let input evs := mkAcceptedInput (new_num s) evs (a_keep_alive_ms found)
                       (a_scrollback_kib found) (a_clipboard_version found) in
    match states t !! old_num s with
    | None => (t, Err (UnknownBase (old_num s)))
    | Some base =>
        match decode_events (diff s) with
        | Err e => (t, Err (BadDiff e))
        | Panic => (t, Panic)
        | Ok delta =>
            match checked_add_u64 (total_events base) (zlen delta) with
            | None => (t, Err CountOverflow)
            | Some total =>
                match pending_of (committed_events t) base delta with
                | Err e => (t, Err e)
                | Panic => (t, Panic)
                | Ok pending =>
                    let states' := <[new_num s := mkMeta total pending]> (states t) in
                    let states' := filter (fun p => throwaway_num s <= fst p \/ fst p = new_num s) states' in
                    let t' := mkTracker states' (latest_state t) (committed_events t) in
                    if new_num s <=? latest_state t then (t', Ok (input []))
                    else if total <? committed_events t then
                      (t', Err (Regressed (committed_events t) total))
                    else
                      let newly := total - committed_events t in
                      (mkTracker (commit_meta total newly <$> states') (new_num s) total,
                       Ok (input pending))
                end
            end
        end
    end.

(** A run of received states, with what each delivered. *)
Fixpoint accept_all (t : Tracker) (ss : list ReceivedState)
    : Tracker * list (result accept_error AcceptedInput) :=
  match ss with
  | [] => (t, [])
  | s :: rest =>
      let '(t1, r) := accept t s in
      let '(t2, rs) := accept_all t1 rest in (t2, r :: rs)
  end.

(** The input a run hands to the PTY. *)
Definition delivered (rs : list (result accept_error AcceptedInput)) : list UserEvent :=
  concat ((fun r => match r with Ok i => events i | _ => [] end) <$> rs).

End UserStream.

(** ** The strict reader: it never panics, and every round consumes input *)
Section Strict.
Import UserStream.

Lemma strict_from_shorter rounds i v rest w d :
  strict_from rounds i v rest = Ok (w, d) -> (length d < length rest)%nat.
Proof.
  revert i v rest; induction rounds as [|rounds IH]; intros i v [|b rest]; cbn [strict_from]; try done.
  destruct (_ && _); [done|]. cbv zeta. destruct (_ =? _).
  - intros [= _ <-]. simpl. lia.
  - intros H%IH. simpl. lia.
Qed.
Lemma strict_from_no_panic rounds i v rest : no_panic (strict_from rounds i v rest).
Proof.
  revert i v rest; induction rounds as [|rounds IH]; intros i v [|b rest]; cbn [strict_from]; try done.
  destruct (_ && _); [done|]. cbv zeta. by destruct (_ =? _).
Qed.

Lemma split_at_checked_shorter l n h d :
  split_at_checked l n = Some (h, d) -> (length d <= length l)%nat.
Proof. unfold split_at_checked. destruct (_ <=? _); [|done]. intros [= _ <-]. rewrite length_drop. lia. Qed.

Lemma read_varint_strict_shorter rest v d :
  read_varint_strict rest = Ok (v, d) -> (length d < length rest)%nat.
Proof. apply strict_from_shorter. Qed.
Lemma read_tag_strict_shorter rest f w d :
  read_tag_strict rest = Ok (f, w, d) -> (length d < length rest)%nat.
Proof. unfold read_tag_strict. intros H. invert_ok H. simplify_eq. by eapply read_varint_strict_shorter. Qed.
Lemma read_bytes_strict_shorter rest v d :
  read_bytes_strict rest = Ok (v, d) -> (length d <= length rest)%nat.
Proof.
  unfold read_bytes_strict. intros H. invert_ok H. apply read_varint_strict_shorter in Hx.
  destruct (split_at_checked _ _) as [[h t]|] eqn:E; [|done]. injection H as <- <-.
  apply split_at_checked_shorter in E. lia.
Qed.
Lemma advance_strict_shorter rest n d :
  advance_strict rest n = Ok d -> (length d <= length rest)%nat.
Proof.
  unfold advance_strict. destruct (split_at_checked _ _) as [[h t]|] eqn:E; [|done].
  intros [= <-]. by apply split_at_checked_shorter in E.
Qed.
Lemma skip_field_strict_shorter rest w d :
  skip_field_strict rest w = Ok d -> (length d <= length rest)%nat.
Proof.
  unfold skip_field_strict. intros H.
  destruct (_ =? _); [invert_ok H; simplify_eq; apply read_varint_strict_shorter in Hx; lia|].
  destruct (_ =? _); [by eapply advance_strict_shorter|].
  destruct (_ =? _); [invert_ok H; simplify_eq; by apply read_bytes_strict_shorter in Hx|].
  destruct (_ =? _); [by eapply advance_strict_shorter | done].
Qed.

Lemma read_varint_strict_no_panic rest : no_panic (read_varint_strict rest).
Proof. apply strict_from_no_panic. Qed.
Lemma read_tag_strict_no_panic rest : no_panic (read_tag_strict rest).
Proof. apply no_panic_bind; [apply read_varint_strict_no_panic|]. by intros [??] _. Qed.
Lemma read_bytes_strict_no_panic rest : no_panic (read_bytes_strict rest).
Proof.
  apply no_panic_bind; [apply read_varint_strict_no_panic|]. intros [??] _. apply no_panic_ok_or.
Qed.
Lemma advance_strict_no_panic rest n : no_panic (advance_strict rest n).
Proof. apply no_panic_bind; [apply no_panic_ok_or|]. by intros [??] _. Qed.
Lemma skip_field_strict_no_panic rest w : no_panic (skip_field_strict rest w).
Proof.
  unfold skip_field_strict. repeat case_match; auto using advance_strict_no_panic with no_panic.
  - apply no_panic_bind; [apply read_varint_strict_no_panic|]. by intros [??] _.
  - apply no_panic_bind; [apply read_bytes_strict_no_panic|]. by intros [??] _.
Qed.

End Strict.

#[export] Hint Resolve read_varint_strict_no_panic read_tag_strict_no_panic
  read_bytes_strict_no_panic skip_field_strict_no_panic : no_panic.

#[global] Arguments UserStream.read_varint_strict : simpl never.
#[global] Arguments UserStream.read_tag_strict : simpl never.
#[global] Arguments UserStream.read_bytes_strict : simpl never.
#[global] Arguments UserStream.skip_field_strict : simpl never.
#[global] Arguments while_data : simpl never.

(** Close a goal that a round consumes input: it reads a tag first, and gives
    back what is left. *)
Ltac strict_consumes :=
  let H := fresh "H" in
  intros ? ? ? ? _ H; invert_ok H; simplify_eq;
  repeat match goal with
  | Hr : UserStream.read_tag_strict _ = Ok _ |- _ => apply read_tag_strict_shorter in Hr
  | Hr : UserStream.read_varint_strict _ = Ok _ |- _ => apply read_varint_strict_shorter in Hr
  | Hr : UserStream.read_bytes_strict _ = Ok _ |- _ => apply read_bytes_strict_shorter in Hr
  | Hr : UserStream.skip_field_strict _ _ = Ok _ |- _ => apply skip_field_strict_shorter in Hr
  | Hr : UserStream.decode_keystroke _ _ = Ok _ |- _ => unfold UserStream.decode_keystroke in Hr; invert_ok Hr; simplify_eq
  | Hr : UserStream.decode_resize _ _ = Ok _ |- _ => unfold UserStream.decode_resize in Hr; invert_ok Hr; simplify_eq
  end; lia.

(** Close a goal that a round does not panic: its binds, its branches. *)
Ltac strict_no_panic :=
  repeat match goal with
  | |- no_panic (mbind _ _) => apply no_panic_bind; [ eauto with no_panic | intros ? ? ]
  | |- no_panic (match ?p with pair _ _ => _ end) => destruct p
  | |- no_panic (if ?b then _ else _) => destruct b
  | |- _ => progress eauto with no_panic
  | |- no_panic (mret _) => discriminate
  end.

Section Rounds.
Import UserStream.

Lemma keystroke_consumes : consumes keystroke_step.
Proof. unfold keystroke_step. strict_consumes. Qed.
Lemma resize_consumes : consumes resize_step.
Proof. unfold resize_step. strict_consumes. Qed.
Lemma response_consumes : consumes response_step.
Proof. unfold response_step. strict_consumes. Qed.
Lemma hello_consumes : consumes hello_step.
Proof. unfold hello_step. strict_consumes. Qed.
Lemma agent_consumes : consumes agent_step.
Proof. unfold agent_step. strict_consumes. Qed.
Lemma instruction_consumes : consumes instruction_step.
Proof. unfold instruction_step. strict_consumes. Qed.
Lemma events_consumes : consumes events_step.
Proof. unfold events_step. strict_consumes. Qed.

Lemma decode_keystroke_no_panic rest ks : no_panic (decode_keystroke rest ks).
Proof.
  unfold decode_keystroke. strict_no_panic.
  apply while_data_no_panic; [apply keystroke_consumes|]. intros. unfold keystroke_step. strict_no_panic.
Qed.
Lemma decode_resize_no_panic rest size : no_panic (decode_resize rest size).
Proof.
  unfold decode_resize. strict_no_panic.
  apply while_data_no_panic; [apply resize_consumes|]. intros. unfold resize_step. strict_no_panic.
Qed.
Lemma decode_agent_response_no_panic rest : no_panic (decode_agent_response rest).
Proof.
  unfold decode_agent_response. strict_no_panic.
  apply while_data_no_panic; [apply response_consumes|]. intros. unfold response_step. strict_no_panic.
Qed.
Lemma decode_agent_no_panic rest : no_panic (decode_agent rest).
Proof.
  apply while_data_no_panic; [apply agent_consumes|]. intros. unfold agent_step. strict_no_panic.
  - apply while_data_no_panic; [apply hello_consumes|]. intros. unfold hello_step. strict_no_panic.
  - apply decode_agent_response_no_panic.
Qed.
Lemma decode_instruction_no_panic rest : no_panic (decode_instruction rest).
Proof.
  apply while_data_no_panic; [apply instruction_consumes|]. intros. unfold instruction_step.
  pose proof decode_keystroke_no_panic. pose proof decode_resize_no_panic.
  pose proof decode_agent_no_panic. strict_no_panic.
Qed.
Lemma decode_events_no_panic rest : no_panic (decode_events rest).
Proof.
  apply while_data_no_panic; [apply events_consumes|]. intros. unfold events_step, input_events.
  pose proof decode_instruction_no_panic. strict_no_panic.
Qed.

End Rounds.

(** ** A diff that is extended decodes to more events *)
Section Extension.
Import UserStream.

Lemma strict_from_extend rounds i v rest w d more :
  strict_from rounds i v rest = Ok (w, d) ->
  strict_from rounds i v (rest ++ more) = Ok (w, d ++ more).
Proof.
  revert i v rest; induction rounds as [|rounds IH]; intros i v [|b rest]; cbn [strict_from app]; try done.
  destruct (_ && _); [done|]. cbv zeta. destruct (_ =? _); [by intros [= <- <-] | apply IH].
Qed.
Lemma split_at_checked_extend l n h d more : 0 <= n ->
  split_at_checked l n = Some (h, d) -> split_at_checked (l ++ more) n = Some (h, d ++ more).
Proof.
  unfold split_at_checked. intros Hn. destruct (Z.leb_spec n (zlen l)) as [Hl|]; [|done]. intros [= <- <-].
  rewrite (proj2 (Z.leb_le _ _)) by (rewrite zlen_app; pose proof (zlen_nonneg more); lia).
  unfold zlen in Hl. by rewrite take_app_le, drop_app_le by lia.
Qed.
Lemma strict_from_nonneg rounds i v rest w d :
  0 <= v -> strict_from rounds i v rest = Ok (w, d) -> 0 <= w.
Proof.
  revert i v rest; induction rounds as [|rounds IH]; intros i v [|b rest] Hv; cbn [strict_from]; try done.
  destruct (_ && _); [done|]. cbv zeta.
  set (v' := Z.lor _ _). assert (0 <= v').
  { apply Z.lor_nonneg. split; [done|]. apply wrap_fits. lia. }
  destruct (_ =? _); [by intros [= <- _] | by apply IH].
Qed.

Lemma read_varint_strict_extend rest v d more :
  read_varint_strict rest = Ok (v, d) -> read_varint_strict (rest ++ more) = Ok (v, d ++ more).
Proof. apply strict_from_extend. Qed.
Lemma read_tag_strict_extend rest f w d more :
  read_tag_strict rest = Ok (f, w, d) -> read_tag_strict (rest ++ more) = Ok (f, w, d ++ more).
Proof.
  unfold read_tag_strict. intros H. invert_ok H. simplify_eq.
  by rewrite (read_varint_strict_extend _ _ _ more Hx).
Qed.
Lemma read_bytes_strict_extend rest v d more :
  read_bytes_strict rest = Ok (v, d) -> read_bytes_strict (rest ++ more) = Ok (v, d ++ more).
Proof.
  unfold read_bytes_strict. intros H. invert_ok H.
  rewrite (read_varint_strict_extend _ _ _ more Hx). simpl.
  destruct (split_at_checked _ _) as [[h t]|] eqn:E; [|done]. injection H as <- <-.
  by rewrite (split_at_checked_extend _ _ _ _ more (strict_from_nonneg _ _ _ _ _ _ (Z.le_refl 0) Hx) E).
Qed.
Lemma advance_strict_extend rest n d more : 0 <= n ->
  advance_strict rest n = Ok d -> advance_strict (rest ++ more) n = Ok (d ++ more).
Proof.
  unfold advance_strict. intros Hn. destruct (split_at_checked _ _) as [[h t]|] eqn:E; [|done].
  intros [= <-]. by rewrite (split_at_checked_extend _ _ _ _ more Hn E).
Qed.
Lemma skip_field_strict_extend rest w d more :
  skip_field_strict rest w = Ok d -> skip_field_strict (rest ++ more) w = Ok (d ++ more).
Proof.
  unfold skip_field_strict. intros H.
  destruct (_ =? _).
  { invert_ok H. simplify_eq. by rewrite (read_varint_strict_extend _ _ _ more Hx). }
  destruct (_ =? _); [by apply advance_strict_extend|].
  destruct (_ =? _).
  { invert_ok H. simplify_eq. by rewrite (read_bytes_strict_extend _ _ _ more Hx). }
  destruct (_ =? _); [by apply advance_strict_extend | done].
Qed.

Lemma events_extends : extends events_step.
Proof.
  unfold events_step. intros data evs data' evs' more _ H. invert_ok H; simplify_eq;
    rewrite (read_tag_strict_extend _ _ _ _ more Hx); simpl; rewrite Hb.
  - by rewrite (skip_field_strict_extend _ _ _ more Hx0).
  - rewrite (read_bytes_strict_extend _ _ _ more Hx0). simpl. rewrite Hx1. simpl. by rewrite Hx2.
Qed.

(** The events already found are kept in front. *)
Lemma events_step_acc rest evs :
  events_step rest evs = (fun p => (fst p, evs ++ snd p)) <$> events_step rest [].
Proof.
  unfold events_step. destruct (read_tag_strict rest) as [[[f w] d]|e|]; simpl; [|done|done].
  destruct (negb _).
  { destruct (skip_field_strict d w); simpl; [|done|done]. by rewrite app_nil_r. }
  destruct (read_bytes_strict d) as [[v d']|e|]; simpl; [|done|done].
  destruct (decode_instruction v) as [x|e|]; simpl; [|done|done].
  destruct (input_events x) as [y|e|]; simpl; [|done|done]. done.
Qed.

Lemma events_acc rest evs : while_data events_step rest evs = (app evs) <$> decode_events rest.
Proof.
  unfold decode_events. remember (length rest) as n eqn:En. revert rest evs En.
  induction (lt_wf n) as [n _ IH]. intros rest evs ->.
  rewrite !(while_data_unfold _ events_consumes rest).
  destruct rest as [|b rest]; [simpl; by rewrite app_nil_r|].
  rewrite events_step_acc. destruct (events_step (b :: rest) []) as [[d' s']|e|] eqn:Es; [|done|done].
  simpl. pose proof (events_consumes (b :: rest) [] d' s' ltac:(done) Es) as Hlt.
  rewrite (IH (length d') Hlt d' (evs ++ s')), (IH (length d') Hlt d' s') by done.
  destruct (while_data events_step d' []); simpl; [by rewrite app_assoc | done | done].
Qed.

(** Decoding is a homomorphism on diffs that decode. *)
Lemma decode_events_app d1 d2 e1 :
  decode_events d1 = Ok e1 -> decode_events (d1 ++ d2) = (app e1) <$> decode_events d2.
Proof.
  intros H1. unfold decode_events at 1.
  by rewrite (while_data_app _ events_consumes _ _ _ _ events_extends H1), events_acc.
Qed.

End Extension.

(** ** What the client's encoder writes, the strict reader reads *)
Section Encoded.
Import UserStream.
#[local] Opaque Pb.append_varint Pb.append_tag.

Lemma land_0x80 z : 0 <= z < 256 -> (Z.land z 0x80 =? 0) = (z <? 128).
Proof.
  intros Hz. apply eqb_true_iff.
  apply (byte_forall (fun z => eqb (Z.land z 0x80 =? 0) (z <? 128))); [by vm_compute | done].
Qed.

Lemma strict_from_loop fuel i acc v rest :
  0 <= i -> i + Z.of_nat fuel = 10 -> (1 <= fuel)%nat ->
  0 <= acc < 2 ^ (7 * i) -> 0 <= v -> v * 2 ^ (7 * i) < 2 ^ 64 ->
  strict_from fuel i acc (Pb.varint_loop fuel v ++ rest) = Ok (acc + v * 2 ^ (7 * i), rest).
Proof.
  revert i acc v; induction fuel as [|fuel IH]; intros i acc v Hi Hsum H1 Hacc Hv Hlt; [lia|].
  cbn [Pb.varint_loop]. assert (0 < 2 ^ (7 * i)) by (apply Z.pow_pos_nonneg; lia).
  assert (i = 9 -> v <= 1) as H9 by (intros ->; change (2 ^ (7 * 9)) with (2 ^ 63) in Hlt; lia).
  destruct (Z.leb_spec 0x80 v) as [Hge|Hlt'].
  - cbn [app strict_from]. rewrite continuation_byte by done.
    pose proof (Z.mod_pos_bound v 128 ltac:(lia)).
    rewrite land_0x80, (proj2 (Z.ltb_ge (128 + v mod 128) 128)), (proj2 (Z.eqb_neq i 9)), land_0x7f by lia.
    cbn [andb]. cbv zeta.
    replace ((128 + v mod 128) mod 128) with (v mod 128)
      by (replace (128 + v mod 128) with (v mod 128 + 1 * 128) by lia;
          by rewrite Z.mod_add, Z.mod_mod by lia).
    pose proof (Z.div_mod v 128 ltac:(lia)) as Hdm.
    assert (0 <= v / 128) by (apply Z.div_pos; lia).
    rewrite (Z.mul_comm i 7), join_bits by nia. rewrite Z.shiftr_div_pow2 by lia. change (2 ^ 7) with 128.
    assert (2 ^ (7 * (i + 1)) = 128 * 2 ^ (7 * i)) as Hpow
      by (replace (7 * (i + 1)) with (7 + 7 * i) by lia; by rewrite Z.pow_add_r by lia).
    rewrite IH; [| lia | lia | lia | rewrite Hpow; nia | done | rewrite Hpow; nia].
    do 2 f_equal. rewrite Hpow. nia.
  - cbn [app strict_from]. rewrite b2z_z2b, (Z.mod_small v) by lia.
    rewrite land_0x80, (proj2 (Z.ltb_lt v 128)), land_0x7f, Z.mod_small by lia. cbv zeta.
    assert ((i =? 9) && (1 <? v) = false) as ->.
    { destruct (Z.eqb_spec i 9) as [Hi9|]; [|done]. apply Z.ltb_ge, H9, Hi9. }
    rewrite (Z.mul_comm i 7), join_bits by nia. done.
Qed.

Lemma read_varint_strict_append v rest : fits 64 v ->
  read_varint_strict (Pb.append_varint v ++ rest) = Ok (v, rest).
Proof.
  intros Hv. Transparent Pb.append_varint. unfold read_varint_strict, Pb.append_varint, fits in *.
  rewrite strict_from_loop; [do 2 f_equal; lia | simpl; lia..].
Qed.
#[local] Opaque Pb.append_varint.

Lemma read_tag_strict_append f w rest : 0 <= f < 2 ^ 61 -> 0 <= w < 8 ->
  read_tag_strict (Pb.append_tag f w ++ rest) = Ok (f, w, rest).
Proof.
  intros Hf Hw. Transparent Pb.append_tag. unfold read_tag_strict, Pb.append_tag.
  assert (Z.lor (Z.shiftl f 3) w = w + f * 8) as Ht
    by (rewrite Z.lor_comm, lor_shiftl_add by lia; done).
  rewrite Ht, read_varint_strict_append by (unfold fits; lia). simpl.
  rewrite Z.shiftr_div_pow2 by lia. change (2 ^ 3) with 8.
  by rewrite Z.div_add, Z.div_small, land_7, Z.mod_add, Z.mod_small by lia.
Qed.
#[local] Opaque Pb.append_tag.

Lemma read_bytes_strict_append d rest : zlen d < 2 ^ 64 ->
  read_bytes_strict (Pb.append_varint (zlen d) ++ d ++ rest) = Ok (d, rest).
Proof.
  intros Hd. pose proof (zlen_nonneg d). unfold read_bytes_strict.
  rewrite read_varint_strict_append by (unfold fits; lia). simpl. unfold split_at_checked.
  rewrite (proj2 (Z.leb_le _ _)) by (rewrite zlen_app; pose proof (zlen_nonneg rest); lia).
  unfold zlen. by rewrite Nat2Z.id, take_app_length, drop_app_length.
Qed.

Lemma strict_tag_bytes f d rest : 0 <= f < 2 ^ 61 ->
  read_tag_strict (Pb.append_tag_bytes f d ++ rest) =
  Ok (f, WIRE_BYTES, Pb.append_varint (zlen d) ++ d ++ rest).
Proof.
  intros Hf. unfold Pb.append_tag_bytes. rewrite <-!app_assoc.
  by rewrite read_tag_strict_append by (unfold Pb.WIRE_BYTES; lia).
Qed.
Lemma strict_tag_varint f v rest : 0 <= f < 2 ^ 61 ->
  read_tag_strict (Pb.append_tag_varint f v ++ rest) = Ok (f, WIRE_VARINT, Pb.append_varint v ++ rest).
Proof.
  intros Hf. unfold Pb.append_tag_varint. rewrite <-app_assoc.
  by rewrite read_tag_strict_append by (unfold Pb.WIRE_VARINT; lia).
Qed.

(** The events an instruction of the client stands for. *)
Definition events_of (m : Pb.UserInstruction.t) : list UserEvent :=
  if bool_decide (Pb.UserInstruction.keys m <> []) then Byte <$> Pb.UserInstruction.keys m
  else if (0 <? Pb.UserInstruction.width m) && (0 <? Pb.UserInstruction.height m)
  then [Resize (Pb.UserInstruction.width m) (Pb.UserInstruction.height m)] else [].

(** A terminal size is sent as u16s. *)
Definition wf_input (m : Pb.UserInstruction.t) : Prop :=
  zlen (Pb.UserInstruction.keys m) < 2 ^ 62 /\
  0 <= Pb.UserInstruction.width m < 2 ^ 16 /\ 0 <= Pb.UserInstruction.height m < 2 ^ 16.

Lemma as_i32_u16 v : 0 <= v < 2 ^ 16 -> as_i32 (wrap 32 v) = v.
Proof. intros Hv. apply as_i32_wrap. lia. Qed.

Lemma strict_keys_field ks rest : zlen ks < 2 ^ 62 ->
  while_data instruction_step
    ((if bool_decide (ks <> []) then Pb.append_tag_bytes 2 (Pb.append_tag_bytes 4 ks) else []) ++ rest)
    decoded_default =
  while_data instruction_step rest (mkDecoded ks 0 0 None None None).
Proof.
  intros Hd. case_bool_decide as Hne; [|by destruct ks].
  assert (zlen (Pb.append_tag_bytes 4 ks) <= 2 ^ 62 + 22) by (apply tag_bytes_small; lia).
  rewrite (while_data_step _ instruction_consumes _ _ rest (mkDecoded ks 0 0 None None None));
    [done | apply append_tag_bytes_ne |].
  unfold instruction_step, decode_keystroke. rewrite strict_tag_bytes by lia. simpl.
  rewrite read_bytes_strict_append by lia. simpl. rewrite <-(app_nil_r (Pb.append_tag_bytes 4 ks)).
  rewrite (while_data_step _ keystroke_consumes _ _ [] ks); [done | apply append_tag_bytes_ne |].
  unfold keystroke_step. rewrite strict_tag_bytes by lia. simpl.
  by rewrite read_bytes_strict_append by lia.
Qed.

Lemma strict_size_field w h ks : 0 <= w < 2 ^ 16 -> 0 <= h < 2 ^ 16 ->
  while_data instruction_step
    (if (0 <? w) || (0 <? h) then
       Pb.append_tag_bytes 3
         (Pb.append_tag_varint 5 (wrap 32 w) ++ Pb.append_tag_varint 6 (wrap 32 h)) else [])
    (mkDecoded ks 0 0 None None None) =
  Ok (mkDecoded ks w h None None None).
Proof.
  intros Hw Hh. destruct ((0 <? w) || (0 <? h)) eqn:Hb.
  - pose proof (size_bytes_small w h). pose proof (wrap32_fits64 w). pose proof (wrap32_fits64 h).
    rewrite <-(app_nil_r (Pb.append_tag_bytes 3 _)).
    rewrite (while_data_step _ instruction_consumes _ _ [] (mkDecoded ks w h None None None));
      [done | apply append_tag_bytes_ne |].
    unfold instruction_step, decode_resize. rewrite strict_tag_bytes by lia. simpl.
    rewrite read_bytes_strict_append by lia. simpl. rewrite <-(app_nil_r (Pb.append_tag_varint 6 _)).
    rewrite (while_data_step _ resize_consumes _ _ (Pb.append_tag_varint 6 (wrap 32 h) ++ []) (w, 0)).
    + rewrite (while_data_step _ resize_consumes _ _ [] (w, h)); [done | apply append_tag_varint_ne |].
      unfold resize_step. rewrite strict_tag_varint by lia. simpl.
      rewrite read_varint_strict_append by done. simpl. by rewrite as_i32_u16.
    + apply append_tag_varint_ne.
    + unfold resize_step. rewrite strict_tag_varint by lia. simpl.
      rewrite read_varint_strict_append by done. simpl. by rewrite as_i32_u16.
  - apply orb_false_iff in Hb as [?%Z.ltb_ge ?%Z.ltb_ge].
    assert (w = 0) as -> by lia. assert (h = 0) as -> by lia. done.
Qed.

Lemma strict_instruction m : wf_input m ->
  decode_instruction (Pb.UserInstruction.encode_one m) =
  Ok (mkDecoded (Pb.UserInstruction.keys m) (Pb.UserInstruction.width m)
        (Pb.UserInstruction.height m) None None None).
Proof.
  intros (Hk & Hw & Hh). unfold decode_instruction, Pb.UserInstruction.encode_one.
  by rewrite strict_keys_field, strict_size_field.
Qed.

Lemma strict_input_events m : wf_input m ->
  input_events (mkDecoded (Pb.UserInstruction.keys m) (Pb.UserInstruction.width m)
    (Pb.UserInstruction.height m) None None None) = Ok (events_of m).
Proof.
  intros (Hk & Hw & Hh). unfold input_events, events_of. cbn [keys width height].
  case_bool_decide; [done|]. destruct (_ && _); [|done].
  unfold try_u16, u16_max.
  rewrite !(proj2 (Z.leb_le _ _)) by lia. done.
Qed.

Lemma strict_message_app ms evs : Forall wf_input ms ->
  while_data events_step (Pb.UserInstruction.encode_message ms) evs =
  Ok (evs ++ concat (events_of <$> ms)).
Proof.
  intros Hms. revert evs; induction Hms as [|m ms Hm Hms IH]; intros evs.
  { unfold while_data; simpl. by rewrite app_nil_r. }
  assert (zlen (Pb.UserInstruction.encode_one m) <= 2 ^ 62 + 200).
  { apply encode_one_small. destruct Hm as (? & ? & ?). unfold wf_user, wf_size. lia. }
  unfold Pb.UserInstruction.encode_message in *. rewrite !fmap_cons. cbn [concat].
  rewrite (while_data_step _ events_consumes _ _
    (concat ((fun m => Pb.append_tag_bytes 1 (Pb.UserInstruction.encode_one m)) <$> ms)) (evs ++ events_of m));
    [| apply append_tag_bytes_ne |].
  - by rewrite IH, <-app_assoc.
  - unfold events_step. rewrite strict_tag_bytes by lia. simpl.
    rewrite read_bytes_strict_append by lia. simpl. rewrite strict_instruction by done.
    cbn [mbind result_bind]. rewrite strict_input_events by done. simpl. by rewrite !app_nil_r.
Qed.

End Encoded.

(** ** The tracker on arbitrary input *)
Section Tracking.
Import UserStream.

(** A cached state holds exactly its events past the committed prefix. *)
Definition meta_wf (committed : Z) (m : StreamMeta) : Prop :=
  zlen (pending m) = Z.max 0 (total_events m - committed).
Definition tracker_wf (t : Tracker) : Prop :=
  map_Forall (fun _ => meta_wf (committed_events t)) (states t).

Lemma new_wf : tracker_wf new.
Proof. apply map_Forall_singleton. done. Qed.

Lemma zlen_drop {A} (l : list A) n : 0 <= n <= zlen l -> zlen (drop (Z.to_nat n) l) = zlen l - n.
Proof. unfold zlen. rewrite length_drop. lia. Qed.
Lemma zlen_nil_inv {A} (l : list A) : zlen l = 0 -> l = [].
Proof. destruct l; [done|]. unfold zlen; simpl; lia. Qed.

Lemma pending_of_wf c base delta : meta_wf c base ->
  exists p, pending_of c base delta = Ok p /\
    meta_wf c (mkMeta (total_events base + zlen delta) p).
Proof.
  unfold meta_wf, pending_of. intros Hb. pose proof (zlen_nonneg delta).
  destruct (Z.leb_spec c (total_events base)).
  - rewrite (proj2 (Z.eqb_eq _ _)) by lia. eexists; split; [done|]. simpl. rewrite zlen_app. lia.
  - destruct (Z.leb_spec (zlen delta) (c - total_events base)).
    + eexists; split; [done|]. simpl. change (zlen []) with 0. lia.
    + eexists; split; [done|]. simpl. rewrite zlen_drop; lia.
Qed.

Lemma commit_meta_wf c total m : c <= total -> meta_wf c m ->
  meta_wf total (commit_meta total (total - c) m).
Proof.
  unfold meta_wf, commit_meta. intros Hc Hm. destruct (Z.leb_spec (total_events m) total); simpl.
  - change (zlen []) with 0. lia.
  - rewrite zlen_drop; lia.
Qed.

(** What a call of [accept] can do, on a tracker in good order. *)
Variant accepted (t : Tracker) (s : ReceivedState) : Tracker -> result accept_error AcceptedInput -> Prop :=
| acc_shutdown i : new_num s = u64_max -> events i = [] -> accepted t s t (Ok i)
| acc_unknown : new_num s <> u64_max -> states t !! old_num s = None ->
    accepted t s t (Err (UnknownBase (old_num s)))
| acc_bad base e : states t !! old_num s = Some base -> decode_events (diff s) = Err e ->
    accepted t s t (Err (BadDiff e))
| acc_overflow base delta : states t !! old_num s = Some base -> decode_events (diff s) = Ok delta ->
    u64_max < total_events base + zlen delta -> accepted t s t (Err CountOverflow)
| acc_old base delta p i sts :
    new_num s <> u64_max ->
    states t !! old_num s = Some base -> decode_events (diff s) = Ok delta ->
    pending_of (committed_events t) base delta = Ok p ->
    new_num s <= latest_state t -> events i = [] ->
    sts = filter (fun q => throwaway_num s <= fst q \/ fst q = new_num s)
            (<[new_num s := mkMeta (total_events base + zlen delta) p]> (states t)) ->
    accepted t s (mkTracker sts (latest_state t) (committed_events t)) (Ok i)
| acc_regressed base delta p sts :
    new_num s <> u64_max ->
    states t !! old_num s = Some base -> decode_events (diff s) = Ok delta ->
    pending_of (committed_events t) base delta = Ok p ->
    latest_state t < new_num s -> total_events base + zlen delta < committed_events t ->
    sts = filter (fun q => throwaway_num s <= fst q \/ fst q = new_num s)
            (<[new_num s := mkMeta (total_events base + zlen delta) p]> (states t)) ->
    accepted t s (mkTracker sts (latest_state t) (committed_events t))
      (Err (Regressed (committed_events t) (total_events base + zlen delta)))
| acc_commit base delta p i sts :
    new_num s <> u64_max ->
    states t !! old_num s = Some base -> decode_events (diff s) = Ok delta ->
    pending_of (committed_events t) base delta = Ok p ->
    latest_state t < new_num s -> committed_events t <= total_events base + zlen delta ->
    events i = p ->
    sts = filter (fun q => throwaway_num s <= fst q \/ fst q = new_num s)
            (<[new_num s := mkMeta (total_events base + zlen delta) p]> (states t)) ->
    accepted t s
      (mkTracker (commit_meta (total_events base + zlen delta)
                    (total_events base + zlen delta - committed_events t) <$> sts)
         (new_num s) (total_events base + zlen delta)) (Ok i).

Lemma accept_spec t s : tracker_wf t -> accepted t s (fst (accept t s)) (snd (accept t s)).
Proof.
  intros Hwf. unfold accept. destruct (Z.eqb_spec (new_num s) u64_max) as [Hm|Hm]; [by constructor|].
  destruct (states t !! old_num s) as [base|] eqn:Eb; [|by constructor].
  pose proof (decode_events_no_panic (diff s)) as Hnp.
  destruct (decode_events (diff s)) as [delta|e|] eqn:Ed; [|by eapply acc_bad | done].
  unfold checked_add_u64. destruct (Z.leb_spec (total_events base + zlen delta) u64_max).
  2: { eapply acc_overflow; [done | done | lia]. }
  destruct (pending_of_wf (committed_events t) base delta (Hwf _ _ Eb)) as (p & Hp & _). rewrite Hp.
  destruct (Z.leb_spec (new_num s) (latest_state t)); [by eapply acc_old|].
  destruct (Z.ltb_spec (total_events base + zlen delta) (committed_events t)).
  - by eapply acc_regressed.
  - by eapply acc_commit.
Qed.

Lemma cached_wf t s base delta p :
  tracker_wf t -> states t !! old_num s = Some base ->
  pending_of (committed_events t) base delta = Ok p ->
  map_Forall (fun _ => meta_wf (committed_events t))
    (filter (fun q => throwaway_num s <= fst q \/ fst q = new_num s)
       (<[new_num s := mkMeta (total_events base + zlen delta) p]> (states t))).
Proof.
  intros Hwf Hb Hp n m [Hm _]%map_lookup_filter_Some. revert n m Hm.
  apply map_Forall_insert_2; [|done].
  destruct (pending_of_wf _ _ delta (Hwf _ _ Hb)) as (p' & Hp' & Hw).
  rewrite Hp in Hp'. by injection Hp' as <-.
Qed.

Lemma accept_wf t s : tracker_wf t -> tracker_wf (fst (accept t s)).
Proof.
  intros Hwf. pose proof (accept_spec t s Hwf) as Ha.
  destruct Ha as [| | | |base delta p i sts Hs Hb Hd Hp|base delta p sts Hs Hb Hd Hp|base delta p i sts Hs Hb Hd Hp Hl Hc Hi Hsts];
    try done; subst; unfold tracker_wf; simpl; [by eapply cached_wf..|].
  pose proof (cached_wf t s base delta (events i) Hwf Hb Hp) as Hca.
  intros n m. rewrite lookup_fmap, fmap_Some. intros (m0 & Hm0 & ->).
  apply commit_meta_wf; [lia | by eapply Hca].
Qed.

Definition input_of (r : result accept_error AcceptedInput) : list UserEvent :=
  match r with Ok i => events i | _ => [] end.

(** A call commits exactly as many events as it delivers. *)
Lemma accept_counts t s : tracker_wf t ->
  committed_events (fst (accept t s)) = committed_events t + zlen (input_of (snd (accept t s))).
Proof.
  intros Hwf. pose proof (accept_spec t s Hwf) as Ha.
  destruct Ha as [i Hs Hi| | | |base delta p i sts Hs Hb Hd Hp Hl Hi|base delta p sts Hs Hb Hd Hp|base delta p i sts Hs Hb Hd Hp Hl Hc Hi Hsts];
    simpl; rewrite ?Hi; change (zlen []) with 0; try lia.
  subst. destruct (pending_of_wf _ _ delta (Hwf _ _ Hb)) as (p' & Hp' & Hw).
  rewrite Hp in Hp'. injection Hp' as <-.
  unfold meta_wf in Hw. simpl in Hw. lia.
Qed.

Lemma accept_all_cons t s ss :
  accept_all t (s :: ss) =
  (fst (accept_all (fst (accept t s)) ss), snd (accept t s) :: snd (accept_all (fst (accept t s)) ss)).
Proof. cbn [accept_all]. destruct (accept t s) as [t1 r]. simpl. by destruct (accept_all t1 ss). Qed.

Lemma delivered_cons r rs : delivered (r :: rs) = input_of r ++ delivered rs.
Proof. done. Qed.

Definition sound_result (r : result accept_error AcceptedInput) : Prop := r <> Panic /\ r <> Err LostPrefix.

Lemma accept_sound t s : tracker_wf t -> sound_result (snd (accept t s)).
Proof. intros Hwf. by destruct (accept_spec t s Hwf). Qed.

Lemma run_wf t ss : tracker_wf t ->
  tracker_wf (fst (accept_all t ss)) /\ Forall sound_result (snd (accept_all t ss)) /\
  committed_events (fst (accept_all t ss)) = committed_events t + zlen (delivered (snd (accept_all t ss))).
Proof.
  revert t; induction ss as [|s ss IH]; intros t Hwf.
  { simpl. change (zlen (delivered [])) with 0. split; [done|]. split; [constructor | lia]. }
  rewrite accept_all_cons. cbn [fst snd]. destruct (IH (fst (accept t s)) (accept_wf t s Hwf)) as (H1 & H2 & H3).
  split; [done|]. split; [constructor; [by apply accept_sound | done]|].
  rewrite H3, accept_counts, delivered_cons, zlen_app by done. lia.
Qed.

End Tracking.

(** ** The tracker on the states of one client

    A client's stream [E] and the length [upto n] of the prefix its state [n]
    stands for.  A state is coherent when its diff decodes to the events between
    its base's prefix and its own. *)
Section Client.
Import UserStream.
Context (E : list UserEvent) (upto : Z -> nat).

Definition segment (a b : nat) : list UserEvent := take (b - a) (drop a E).

Definition coherent (s : ReceivedState) : Prop :=
  old_num s <= new_num s < u64_max /\
  decode_events (diff s) = Ok (segment (upto (old_num s)) (upto (new_num s))).

Definition client_stream : Prop :=
  upto 0 = O /\ (forall n m, n <= m -> (upto n <= upto m)%nat) /\
  (forall n, (upto n <= length E)%nat) /\ zlen E <= u64_max.

Hypothesis Hclient : client_stream.

Lemma length_segment a b : (b <= length E)%nat -> length (segment a b) = (b - a)%nat.
Proof using Type. intros Hb. unfold segment. rewrite length_take, length_drop. lia. Qed.
Lemma segment_nil a b : (b <= a)%nat -> segment a b = [].
Proof using Type. intros Hab. unfold segment. by replace (b - a)%nat with O by lia. Qed.
Lemma segment_app a b c : (a <= b <= c)%nat -> (c <= length E)%nat ->
  segment a b ++ segment b c = segment a c.
Proof using Type.
  intros Hab Hc. unfold segment. replace (c - a)%nat with ((b - a) + (c - b))%nat by lia.
  rewrite <-take_take_drop, drop_drop. by replace (a + (b - a))%nat with b by lia.
Qed.
Lemma drop_segment k a b : drop k (segment a b) = segment (a + k) b.
Proof using Type.
  unfold segment. rewrite skipn_firstn_comm, drop_drop. f_equal. lia.
Qed.
Lemma segment_0 b : segment 0 b = take b E.
Proof using Type. unfold segment. by rewrite Nat.sub_0_r. Qed.

(** The tracker holds, for every cached state, the part of its prefix past the
    prefix of the latest state. *)
Definition tracks (t : Tracker) : Prop :=
  committed_events t = Z.of_nat (upto (latest_state t)) /\
  map_Forall (fun n m => m = mkMeta (Z.of_nat (upto n)) (segment (upto (latest_state t)) (upto n)))
    (states t).

Lemma new_tracks : tracks new.
Proof using Hclient.
  destruct Hclient as (H0 & _). split; [simpl; by rewrite H0|].
  apply map_Forall_singleton. simpl. by rewrite H0, segment_nil.
Qed.

Lemma pending_of_segment l old new' : (upto old <= upto new')%nat ->
  pending_of (Z.of_nat (upto l))
    (mkMeta (Z.of_nat (upto old)) (segment (upto l) (upto old))) (segment (upto old) (upto new'))
  = Ok (segment (upto l) (upto new')).
Proof using Hclient.
  destruct Hclient as (_ & _ & Hlen & _). intros Hle. unfold pending_of. cbn [total_events pending].
  unfold zlen. rewrite !length_segment by apply Hlen.
  destruct (Z.leb_spec (Z.of_nat (upto l)) (Z.of_nat (upto old))).
  - rewrite (proj2 (Z.eqb_eq _ _)) by lia. simpl. by rewrite segment_app by (split || apply Hlen; lia).
  - destruct (Z.leb_spec (Z.of_nat (upto new' - upto old)) (Z.of_nat (upto l) - Z.of_nat (upto old))).
    + by rewrite segment_nil by lia.
    + rewrite drop_segment. do 2 f_equal. lia.
Qed.

Lemma commit_meta_segment l l' n : (upto l <= upto l')%nat ->
  commit_meta (Z.of_nat (upto l')) (Z.of_nat (upto l') - Z.of_nat (upto l))
    (mkMeta (Z.of_nat (upto n)) (segment (upto l) (upto n))) =
  mkMeta (Z.of_nat (upto n)) (segment (upto l') (upto n)).
Proof using Hclient.
  destruct Hclient as (_ & _ & Hlen & _). intros Hle. unfold commit_meta. cbn [total_events pending].
  destruct (Z.leb_spec (Z.of_nat (upto n)) (Z.of_nat (upto l'))); [by rewrite segment_nil by lia|].
  unfold zlen. rewrite length_segment by apply Hlen. f_equal. rewrite drop_segment. f_equal. lia.
Qed.

(** The events up to the latest state, once. *)
Definition latest_after (t : Tracker) (s : ReceivedState) : Z := Z.max (latest_state t) (new_num s).

Lemma accept_coherent t s base : tracks t -> coherent s -> states t !! old_num s = Some base ->
  tracks (fst (accept t s)) /\
  latest_state (fst (accept t s)) = latest_after t s /\
  states (fst (accept t s)) =
    (if decide (new_num s <= latest_state t) then Datatypes.id
     else fmap (commit_meta (Z.of_nat (upto (new_num s)))
                 (Z.of_nat (upto (new_num s)) - committed_events t)))
    (filter (fun q => throwaway_num s <= fst q \/ fst q = new_num s)
      (<[new_num s := mkMeta (Z.of_nat (upto (new_num s)))
                        (segment (upto (latest_state t)) (upto (new_num s)))]> (states t))) /\
  exists i, snd (accept t s) = Ok i /\
    events i = segment (upto (latest_state t)) (upto (latest_after t s)).
Proof using Hclient.
  intros [Hc Hst] [Hnum Hdec] Hbase. pose proof Hclient as (_ & Hmono & Hlen & Hmax).
  pose proof (Hst _ _ Hbase) as Hbase'. cbv beta in Hbase'.
  unfold accept. rewrite (proj2 (Z.eqb_neq _ _)) by lia. rewrite Hbase, Hdec.
  cbv beta iota zeta.
  assert (Htot : total_events base + zlen (segment (upto (old_num s)) (upto (new_num s)))
                 = Z.of_nat (upto (new_num s))).
  { rewrite Hbase'. simpl. unfold zlen. rewrite length_segment by apply Hlen.
    pose proof (Hmono _ _ (proj1 Hnum)). lia. }
  unfold checked_add_u64. rewrite Htot.
  rewrite (proj2 (Z.leb_le _ _)) by (specialize (Hlen (new_num s)); unfold zlen in Hmax; lia).
  rewrite Hc, Hbase', pending_of_segment by (apply Hmono; lia). cbv beta iota zeta.
  set (metas := filter _ (<[new_num s := _]> (states t))).
  assert (Hm : map_Forall (fun n m => m = mkMeta (Z.of_nat (upto n))
                 (segment (upto (latest_state t)) (upto n))) metas).
  { intros n m [Hnm _]%map_lookup_filter_Some. revert n m Hnm. by apply map_Forall_insert_2. }
  unfold latest_after. destruct (decide _) as [Hle|Hgt].
  - rewrite (proj2 (Z.leb_le _ _)), Z.max_l by lia. cbn [fst snd]. split; [done|]. split; [done|].
    split; [done|]. eexists; split; [done|]. simpl. by rewrite segment_nil.
  - rewrite (proj2 (Z.leb_gt _ _)), Z.max_r by lia.
    pose proof (Hmono (latest_state t) (new_num s) ltac:(lia)) as Hle.
    rewrite (proj2 (Z.ltb_ge _ _)) by lia. cbn [fst snd]. split; [split|]; [done| |].
    { cbn [states latest_state]. intros n m. rewrite lookup_fmap, fmap_Some. intros (m0 & Hm0 & ->).
      apply Hm in Hm0. rewrite Hm0. by apply commit_meta_segment. }
    split; [done|]. split; [done|]. eexists; split; [done|]. done.
Qed.

End Client.

(** ** Runs *)
Section Runs.
Import UserStream.
Context (E : list UserEvent) (upto : Z -> nat) (Hclient : client_stream E upto).

Definition ok_or_unknown (r : result accept_error AcceptedInput) : Prop :=
  (exists i, r = Ok i) \/ (exists n, r = Err (UnknownBase n)).

Lemma accept_unknown t s : new_num s <> u64_max -> states t !! old_num s = None ->
  accept t s = (t, Err (UnknownBase (old_num s))).
Proof using Type.
  intros Hn Hl. unfold accept. by rewrite (proj2 (Z.eqb_neq _ _)), Hl by done.
Qed.

Lemma run_coherent t ss : tracks E upto t -> Forall (coherent E upto) ss ->
  tracks E upto (fst (accept_all t ss)) /\ latest_state t <= latest_state (fst (accept_all t ss)) /\
  delivered (snd (accept_all t ss)) =
    segment E (upto (latest_state t)) (upto (latest_state (fst (accept_all t ss)))) /\
  Forall ok_or_unknown (snd (accept_all t ss)).
Proof using Hclient.
  intros Ht Hss. revert t Ht; induction Hss as [|s ss Hs Hss IH]; intros t Ht.
  { simpl. rewrite segment_nil by lia. split_and!; [done | lia | done | constructor]. }
  rewrite accept_all_cons. cbn [fst snd]. rewrite delivered_cons.
  destruct (states t !! old_num s) as [base|] eqn:Eb.
  - destruct (accept_coherent E upto Hclient t s base Ht Hs Eb) as (Ht' & Hl & _ & i & Hi & Hev).
    destruct (IH _ Ht') as (H1 & H2 & H3 & H4). rewrite Hl in *. unfold latest_after in *.
    split_and!; [done | lia | | constructor; [by left; exists i | done]].
    rewrite H3, Hi. cbn [input_of]. rewrite Hev. destruct Hclient as (_ & Hmono & Hlen & _).
    apply segment_app; [|apply Hlen]. split; apply Hmono; lia.
  - pose proof Hs as [? _]. rewrite accept_unknown by (done || lia). cbn [fst snd input_of app].
    destruct (IH _ Ht) as (H1 & H2 & H3 & H4).
    split_and!; [done | done | done | constructor; [by right; eexists | done]].
Qed.

(** A client's discipline: each state builds on the initial state or on one it
    sent before, none below the watermark it has announced. *)
Fixpoint disciplined (known : list Z) (mark : Z) (ss : list ReceivedState) : Prop :=
  match ss with
  | [] => True
  | s :: rest =>
      old_num s ∈ known /\ mark <= old_num s /\
      disciplined (new_num s :: known) (Z.max mark (throwaway_num s)) rest
  end.

(** What was sent arrives in that order, but whatever has come may come again at any time. *)
Inductive repeated {A} : list A -> list A -> list A -> Prop :=
| repeated_end seen : repeated seen [] []
| repeated_next seen x sent arrivals : repeated (x :: seen) sent arrivals -> repeated seen (x :: sent) (x :: arrivals)
| repeated_again seen x sent arrivals : x ∈ seen -> repeated seen sent arrivals -> repeated seen sent (x :: arrivals).
Lemma repeated_fmap {A B} (f : A -> B) seen sent arrivals :
  repeated seen sent arrivals -> repeated (f <$> seen) (f <$> sent) (f <$> arrivals).
Proof using Type.
  induction 1; [constructor | by constructor | constructor; [by apply list_elem_of_fmap_2 | done]].
Qed.
Lemma repeated_sent {A} (P : A -> Prop) seen sent arrivals : repeated seen sent arrivals -> Forall P seen -> Forall P sent -> Forall P arrivals.
Proof using Type.
  induction 1 as [|seen x sent arrivals Hr IH|seen x sent arrivals Hx Hr IH]; intros Hseen Hsent; [done| |].
  - apply Forall_cons in Hsent as [Hx Hsent]. constructor; [done|]. apply IH; [by constructor | done].
  - constructor; [by apply (proj1 (Forall_forall _ _) Hseen) | by apply IH].
Qed.

(** Every state that may still be a base is cached. *)
Definition keeps (t : Tracker) (known : list Z) (mark : Z) : Prop :=
  forall n, n ∈ known -> mark <= n -> is_Some (states t !! n).

(** What a state built on a held one leaves held: all it does not throw away, and itself. *)
Lemma accept_still_held t s n : tracks E upto t -> coherent E upto s -> is_Some (states t !! old_num s) ->
  n = new_num s \/ (is_Some (states t !! n) /\ throwaway_num s <= n) -> is_Some (states (fst (accept t s)) !! n).
Proof using Hclient.
  intros Ht Hs [base Hb] Hn. destruct (accept_coherent E upto Hclient t s base Ht Hs Hb) as (_ & _ & Hst & _).
  rewrite Hst. set (metas := filter _ (<[new_num s := _]> (states t))).
  assert (is_Some (metas !! n)) as Hs'.
  { unfold metas. destruct (decide (n = new_num s)) as [->|Hne].
    - eexists. apply map_lookup_filter_Some_2; [by rewrite lookup_insert_eq | by right].
    - destruct Hn as [|[[m Hm'] Hle]]; [done|].
      exists m. apply map_lookup_filter_Some_2; [by rewrite lookup_insert_ne | by left]. }
  destruct (decide _); [done|]. rewrite lookup_fmap. by apply fmap_is_Some.
Qed.
Lemma accept_keeps t s known mark : tracks E upto t -> coherent E upto s ->
  keeps t known mark -> old_num s ∈ known -> mark <= old_num s ->
  keeps (fst (accept t s)) (new_num s :: known) (Z.max mark (throwaway_num s)).
Proof using Hclient.
  intros Ht Hs Hk Ho Hm n Hn Hmn. apply accept_still_held; [done | done | by apply Hk |].
  apply elem_of_cons in Hn as [->|Hn]; [by left | right]. split; [apply Hk; [done | lia] | lia].
Qed.
(** A state that comes again, its base held or not. *)
Lemma accept_again t s known mark : tracks E upto t -> coherent E upto s ->
  keeps t known mark -> new_num s ∈ known -> throwaway_num s <= mark -> new_num s <= latest_state t ->
  tracks E upto (fst (accept t s)) /\ keeps (fst (accept t s)) known mark /\ latest_state (fst (accept t s)) = latest_state t.
Proof using Hclient.
  intros Ht Hs Hk Hn Hm Hold. destruct (states t !! old_num s) as [base|] eqn:Hb.
  - destruct (accept_coherent E upto Hclient t s base Ht Hs Hb) as (Ht' & Hl & _). split_and!; [done | | rewrite Hl; unfold latest_after; lia].
    intros n Hin Hmn. apply accept_still_held; [done | done | by eexists | right]. split; [by apply Hk | lia].
  - pose proof Hs as [? _]. by rewrite accept_unknown by (done || lia).
Qed.

Lemma run_disciplined t ss known mark : tracks E upto t -> Forall (coherent E upto) ss ->
  keeps t known mark -> disciplined known mark ss ->
  Forall (fun r => exists i, r = Ok i) (snd (accept_all t ss)) /\
  latest_state (fst (accept_all t ss)) = foldl Z.max (latest_state t) (new_num <$> ss).
Proof using Hclient.
  intros Ht Hss. revert t known mark Ht; induction Hss as [|s ss Hs Hss IH]; intros t known mark Ht Hk Hd.
  { split; [constructor | done]. }
  destruct Hd as (Ho & Hm & Hd). rewrite accept_all_cons. cbn [fst snd].
  destruct (Hk _ Ho Hm) as [base Hb].
  destruct (accept_coherent E upto Hclient t s base Ht Hs Hb) as (Ht' & Hl & _ & i & Hi & _).
  destruct (IH _ _ _ Ht' (accept_keeps t s known mark Ht Hs Hk Ho Hm) Hd) as [H1 H2].
  split; [constructor; [by exists i | done]|]. rewrite H2, Hl. by rewrite fmap_cons.
Qed.

(** States sent in order, each of which may come again at any time after it came. *)
Lemma run_repeated t seen ss arrivals known mark :
  repeated seen ss arrivals -> tracks E upto t -> Forall (coherent E upto) seen -> Forall (coherent E upto) ss ->
  keeps t known mark -> disciplined known mark ss ->
  Forall (fun s => new_num s ∈ known /\ throwaway_num s <= mark /\ new_num s <= latest_state t) seen ->
  latest_state (fst (accept_all t arrivals)) = foldl Z.max (latest_state t) (new_num <$> ss).
Proof using Hclient.
  intros Hr. revert t known mark. induction Hr as [|seen x ss arrivals Hr IH|seen x ss arrivals Hx Hr IH]; intros t known mark Ht Hseen Hss Hk Hd Hold; [done| |].
  - apply Forall_cons in Hss as [Hs Hss]. destruct Hd as (Ho & Hm & Hd). rewrite accept_all_cons. cbn [fst].
    destruct (Hk _ Ho Hm) as [base Hb]. destruct (accept_coherent E upto Hclient t x base Ht Hs Hb) as (Ht' & Hl & _). unfold latest_after in Hl.
    rewrite (IH _ (new_num x :: known) (Z.max mark (throwaway_num x))); [by rewrite Hl | done | by constructor | done | by apply accept_keeps | done |].
    constructor; [split_and!; [constructor | lia | lia]|]. eapply Forall_impl; [exact Hold|]. cbn. intros y (? & ? & ?).
    split_and!; [by constructor | lia | lia].
  - rewrite accept_all_cons. cbn [fst]. pose proof (proj1 (Forall_forall _ _) Hold x Hx) as (? & ? & ?). pose proof (proj1 (Forall_forall _ _) Hseen x Hx).
    destruct (accept_again t x known mark) as (Ht' & Hk' & Hl); [done..|]. rewrite (IH _ known mark), Hl; by rewrite ?Hl.
Qed.

End Runs.

(** ** Properties *)
Section Properties.
Import UserStream.

(** C2. Exactly once: whatever states of one client reach the server, in
    whatever order, repeated, lost or built on different bases, the input handed
    to the PTY is exactly the client's stream up to the newest state seen, and
    the only error is an unknown base. *)
Theorem input_delivered_exactly_once (E : list UserEvent) (upto : Z -> nat) (ss : list ReceivedState) :
  client_stream E upto -> Forall (coherent E upto) ss ->
  delivered (snd (accept_all new ss)) = take (upto (latest_state (fst (accept_all new ss)))) E /\
  Forall ok_or_unknown (snd (accept_all new ss)).
Proof.
  intros Hc Hss. pose proof (new_tracks E upto Hc) as Ht.
  destruct (run_coherent E upto Hc new ss Ht Hss) as (_ & _ & H & Hr).
  split; [|done]. rewrite H. cbn [latest_state new]. destruct Hc as (-> & _). apply segment_0.
Qed.

(** A client that only builds on states it sent and has not thrown away
    never meets an unknown base: every state is accepted, and all of its stream
    up to the newest of them is delivered. *)
Theorem disciplined_client_always_accepted (E : list UserEvent) (upto : Z -> nat) (ss : list ReceivedState) :
  client_stream E upto -> Forall (coherent E upto) ss -> disciplined [0] 0 ss ->
  Forall (fun r => exists i, r = Ok i) (snd (accept_all new ss)) /\
  delivered (snd (accept_all new ss)) = take (upto (foldl Z.max 0 (new_num <$> ss))) E.
Proof.
  intros Hc Hss Hd. pose proof (new_tracks E upto Hc) as Ht.
  assert (keeps new [0] 0) as Hk.
  { intros n Hn%list_elem_of_singleton _. subst. eexists. apply lookup_singleton_eq. }
  destruct (run_disciplined E upto Hc new ss [0] 0 Ht Hss Hk Hd) as [H1 H2].
  destruct (run_coherent E upto Hc new ss Ht Hss) as (_ & _ & H & _).
  split; [done|]. rewrite H, H2. cbn [latest_state new]. destruct Hc as (-> & _). apply segment_0.
Qed.

(** On arbitrary received states, well formed or hostile, the tracker never
    panics, never loses an uncommitted prefix, and counts as committed exactly
    the events it has handed over. *)
Theorem tracker_counts_what_it_delivers (ss : list ReceivedState) :
  Forall sound_result (snd (accept_all new ss)) /\
  committed_events (fst (accept_all new ss)) = zlen (delivered (snd (accept_all new ss))).
Proof. destruct (run_wf new ss new_wf) as (_ & H1 & H2). split; [done|]. rewrite H2. simpl. lia. Qed.

(** The strict decoder reads the client's messages as the events they stand
    for: the keys of a keystroke, else a resize when both sizes are positive. *)
Theorem client_messages_decode_to_events (ms : list Pb.UserInstruction.t) :
  Forall wf_input ms ->
  decode_events (Pb.UserInstruction.encode_message ms) = Ok (concat (events_of <$> ms)).
Proof. intros H. unfold decode_events. by rewrite strict_message_app. Qed.

(** Diffs compose: appending a diff that decodes appends its events, so the
    diff of a longer span is the diffs of its parts joined. *)
Theorem decoded_diffs_compose (d1 d2 : bytes) (e1 e2 : list UserEvent) :
  decode_events d1 = Ok e1 -> decode_events d2 = Ok e2 -> decode_events (d1 ++ d2) = Ok (e1 ++ e2).
Proof. intros H1 H2. by rewrite (decode_events_app d1 d2 e1 H1), H2. Qed.

(** A client that typed "ab", resized, and typed "c", over states 1, 2, 3. *)
Definition sample_instructions : list Pb.UserInstruction.t :=
  [Pb.UserInstruction.keystroke [z2b 97; z2b 98]; Pb.UserInstruction.resize 80 24;
   Pb.UserInstruction.keystroke [z2b 99]].
Definition sample_events : list UserEvent := [Byte (z2b 97); Byte (z2b 98); Resize 80 24; Byte (z2b 99)].
Definition sample_upto (n : Z) : nat :=
  if n <=? 0 then 0%nat else if n <=? 1 then 2%nat else if n <=? 2 then 3%nat else 4%nat.
Definition sample_state (old new' throwaway : Z) (from upto : nat) : ReceivedState :=
  mkReceivedState old new' 0 throwaway
    (Pb.UserInstruction.encode_message (take (upto - from) (drop from sample_instructions))).

Lemma sample_client : client_stream sample_events sample_upto.
Proof.
  unfold client_stream, sample_upto. split_and!; [done | | | vm_compute; discriminate].
  - intros n m Hnm. repeat case_match; lia.
  - intros n. simpl. repeat case_match; lia.
Qed.

Lemma input_delivered_exactly_once_witness :
  let ss := [sample_state 1 3 0 1 3; sample_state 0 1 0 0 1; sample_state 0 3 0 0 3;
             sample_state 1 2 0 1 2; sample_state 0 1 0 0 1] in
  client_stream sample_events sample_upto /\ delivered (snd (accept_all new ss)) = sample_events.
Proof.
  cbv zeta. split; [exact sample_client|].
  match goal with |- delivered (snd (accept_all new ?l)) = _ => set (ss := l) end.
  destruct (input_delivered_exactly_once sample_events sample_upto ss sample_client) as [H _].
  - subst ss. repeat constructor; try (vm_compute; congruence); vm_compute; reflexivity.
  - rewrite H. vm_compute. reflexivity.
Defined.

Lemma disciplined_client_always_accepted_witness :
  let ss := [sample_state 0 1 0 0 1; sample_state 1 3 1 1 3; sample_state 1 2 1 1 2] in
  delivered (snd (accept_all new ss)) = sample_events.
Proof.
  cbv zeta.
  match goal with |- delivered (snd (accept_all new ?l)) = _ => set (ss := l) end.
  destruct (disciplined_client_always_accepted sample_events sample_upto ss sample_client) as [_ H].
  - subst ss. repeat constructor; try (vm_compute; congruence); vm_compute; reflexivity.
  - subst ss. cbn [disciplined sample_state old_num new_num throwaway_num].
    repeat split; try lia; set_solver.
  - exact H.
Defined.

Lemma client_messages_decode_to_events_witness :
  decode_events (Pb.UserInstruction.encode_message sample_instructions) = Ok sample_events.
Proof.
  rewrite client_messages_decode_to_events; [reflexivity|].
  repeat constructor; simpl; try (vm_compute; congruence); lia.
Defined.

Lemma decoded_diffs_compose_witness :
  decode_events (Pb.UserInstruction.encode_message (take 1 sample_instructions) ++
                 Pb.UserInstruction.encode_message (drop 1 sample_instructions)) = Ok sample_events.
Proof.
  apply (decoded_diffs_compose _ _ (take 2 sample_events) (drop 2 sample_events));
    vm_compute; reflexivity.
Defined.

End Properties.
