(* ===== verification/Crypto.v ===== *)
(** * AES-128-OCB3

    Models [crates/moshcatty/src/crypto.rs].  The block cipher is the [aes]
    crate's: a parameter, of which only the documented facts are used (a block
    stays a block; decryption undoes encryption and the converse). *)
From Stdlib Require Import ZArith Lia List Bool.
From stdpp Require Import base numbers list list_numbers.
From S2P Require Import Prelude.
Open Scope Z_scope.

Module Crypto.

Definition BLOCK : nat := 16.
Definition TAG : nat := 16.
Definition DIR_TO_CLIENT : Z := Z.shiftl 1 63.
Definition DIR_TO_SERVER : Z := 0.
Definition SEQ_MASK : Z := not_u64 (Z.shiftl 1 63).
Definition MIN_DATAGRAM : nat := 24.
Definition RECEIVE_MTU : nat := 2048.

Definition zero_block : bytes := replicate BLOCK (z2b 0).

(** [a ^ b] on bytes, and [dst[i] ^= src[i]] on blocks. *)
Definition xor_byte (a b : byte) : byte := z2b (Z.lxor (b2z a) (b2z b)).
Definition xor_into (dst src : bytes) : bytes := zip_with xor_byte dst src.

(** [n.trailing_zeros()] *)
Fixpoint trailing_zeros (p : positive) : nat :=
  match p with xO p => S (trailing_zeros p) | _ => O end.
Definition ntz (n : nat) : nat :=
  match Z.of_nat n with Zpos p => trailing_zeros p | _ => 32%nat end.

(** [for i in (0..BLOCK).rev()]: the bytes shifted left by one bit from the last
    to the first, with the carry out of the first. *)
Fixpoint double_from (block : bytes) : bytes * Z :=
  match block with
  | [] => ([], 0)
  | b :: rest =>
      let '(out, carry) := double_from rest in
      (z2b (Z.lor (wrap 8 (Z.shiftl (b2z b) 1)) carry) :: out, Z.shiftr (b2z b) 7)
  end.
Definition gf_double (block : bytes) : bytes :=
  let '(out, carry) := double_from block in
  if negb (carry =? 0) then alter (fun b => xor_byte b (z2b 0x87)) (BLOCK - 1)%nat out else out.

(** [diff |= x ^ y] over the zipped bytes. *)
Definition constant_time_eq (a b : bytes) : bool :=
  if negb (length a =? length b)%nat then false
  else foldl Z.lor 0 (zip_with (fun x y => Z.lxor (b2z x) (b2z y)) a b) =? 0.

Definition nonce_for (dir_seq : Z) : bytes := replicate 4 (z2b 0) ++ be_bytes 8 dir_seq.

Definition pack_timestamps (ts ts_reply : Z) : bytes := be_bytes 2 ts ++ be_bytes 2 ts_reply.
Definition unpack_timestamps (buf : bytes) : option (Z * Z * bytes) :=
  if (length buf <? 4)%nat then None
  else Some (from_be (take 2 buf), from_be (take 2 (drop 2 buf)), drop 4 buf).

(** [nn] with the nonce, right-aligned behind its leading one bit. *)
Definition padded_nonce (nonce : bytes) : bytes :=
  let nonce_len := Nat.min (length nonce) 15 in
  let nn := <[0%nat := z2b (Z.land (wrap 8 ((16 * 8) mod 128)) 0x7f)]> zero_block in
  let nn := alter (fun b => z2b (Z.lor (b2z b) 0x01)) (BLOCK - 1 - nonce_len)%nat nn in
  take (BLOCK - nonce_len) nn ++ take nonce_len nonce.

(** The sixteen bytes of [stretch] from bit [bottom] on. *)
Definition offset_byte (stretch : bytes) (byte_shift : nat) (bit_shift : Z) (i : nat) : byte :=
  let idx := (byte_shift + i)%nat in
  if (idx <? 24)%nat then
    if bit_shift =? 0 then nth idx stretch (z2b 0)
    else
      let high := wrap 8 (Z.shiftl (b2z (nth idx stretch (z2b 0))) bit_shift) in
      if (idx + 1 <? 24)%nat
      then z2b (Z.lor high (Z.shiftr (b2z (nth (idx + 1) stretch (z2b 0))) (8 - bit_shift)))
      else z2b high
  else z2b 0.
Definition stretch_of (ktop : bytes) : bytes := ktop ++ zip_with xor_byte (take 8 ktop) (take 8 (drop 1 ktop)).
Definition shifted_offset (stretch : bytes) (bottom : Z) : bytes :=
  offset_byte stretch (Z.to_nat (Z.shiftr bottom 3)) (Z.land bottom 7) <$> seq 0 BLOCK.

Inductive error := InvalidKey.

Section Ocb.
(** [Aes128::new(key)], [encrypt_block] and [decrypt_block] of the [aes] crate,
    and the base64 decoder. *)
Context (aes_encrypt aes_decrypt : bytes -> bytes -> bytes).
Context (b64_decode : bytes -> option bytes).

Record Ocb := mkOcb { key : bytes; l_star : bytes; l_dollar : bytes; l : list bytes }.

(** [l[0] = gf_double(l_dollar)], [l[i] = gf_double(l[i - 1])] *)
Fixpoint doublings (n : nat) (b : bytes) : list bytes :=
  match n with O => [] | S n => gf_double b :: doublings n (gf_double b) end.

Definition new (key : bytes) : result error Ocb :=
  if negb (length key =? 16)%nat then Err InvalidKey
  else
    let l_star := aes_encrypt key zero_block in
    let l_dollar := gf_double l_star in
    Ok (mkOcb key l_star l_dollar (doublings 32 l_dollar)).

Definition from_base64 (key_b64 : bytes) : result error Ocb :=
  if negb (length key_b64 =? 22)%nat then Err InvalidKey
  else raw ← ok_or (b64_decode (key_b64 ++ [z2b 61; z2b 61])) InvalidKey; new raw.

Definition init_offset (o : Ocb) (nonce : bytes) : bytes :=
  let nn := padded_nonce nonce in
  let bottom := Z.land (b2z (nth 15 nn (z2b 0))) 0x3f in
  let nn := alter (fun b => z2b (Z.land (b2z b) 0xc0)) 15%nat nn in
  shifted_offset (stretch_of (aes_encrypt (key o) nn)) bottom.

(** [&self.l[ntz(i + 1)]] *)
Definition l_at {E} (o : Ocb) (i : nat) : result E bytes := expect (l o !! ntz (i + 1)).

Definition encrypt_one (o : Ocb) (offset p_block : bytes) : bytes :=
  xor_into (aes_encrypt (key o) (xor_into p_block offset)) offset.
Definition decrypt_one (o : Ocb) (offset c_block : bytes) : bytes :=
  xor_into (aes_decrypt (key o) (xor_into c_block offset)) offset.

(** The loop over the full blocks [i ..]: offset, checksum and the output of the
    blocks passed. *)
Fixpoint encrypt_blocks {E} (o : Ocb) (n i : nat) (offset checksum data : bytes)
    : result E (bytes * bytes * bytes) :=
  match n with
  | O => Ok (offset, checksum, [])
  | S n =>
      mask ← l_at o i;
      let offset := xor_into offset mask in
      let p_block := take BLOCK data in
      '(offset', checksum', out) ←
        encrypt_blocks o n (i + 1) offset (xor_into checksum p_block) (drop BLOCK data);
      mret (offset', checksum', encrypt_one o offset p_block ++ out)
  end.
Fixpoint decrypt_blocks {E} (o : Ocb) (n i : nat) (offset checksum data : bytes)
    : result E (bytes * bytes * bytes) :=
  match n with
  | O => Ok (offset, checksum, [])
  | S n =>
      mask ← l_at o i;
      let offset := xor_into offset mask in
      let p_block := decrypt_one o offset (take BLOCK data) in
      '(offset', checksum', out) ←
        decrypt_blocks o n (i + 1) offset (xor_into checksum p_block) (drop BLOCK data);
      mret (offset', checksum', p_block ++ out)
  end.

(** [p_star]: the last bytes, a one bit, zeros. *)
Definition pad_block (tail : bytes) : bytes :=
  tail ++ z2b 0x80 :: replicate (BLOCK - 1 - length tail) (z2b 0).

(** The tag over the final checksum and offset. *)
Definition tag_of (o : Ocb) (checksum offset : bytes) : bytes :=
  aes_encrypt (key o) (xor_into (xor_into checksum offset) (l_dollar o)).

Definition encrypt {E} (o : Ocb) (nonce plaintext : bytes) : result E bytes :=
  let full_blocks := (length plaintext / BLOCK)%nat in
  let remaining := (length plaintext mod BLOCK)%nat in
  '(offset, checksum, out) ← encrypt_blocks o full_blocks 0 (init_offset o nonce) zero_block plaintext;
  if (0 <? remaining)%nat then
    let offset := xor_into offset (l_star o) in
    let pad := aes_encrypt (key o) offset in
    let tail := drop (full_blocks * BLOCK) plaintext in
    mret (out ++ zip_with xor_byte tail pad ++ tag_of o (xor_into checksum (pad_block tail)) offset)
  else mret (out ++ tag_of o checksum offset).

Definition decrypt {E} (o : Ocb) (nonce ciphertext_and_tag : bytes) : result E (option bytes) :=
  if (length ciphertext_and_tag <? TAG)%nat then mret None
  else
    let ciphertext := take (length ciphertext_and_tag - TAG) ciphertext_and_tag in
    let tag := drop (length ciphertext_and_tag - TAG) ciphertext_and_tag in
    let full_blocks := (length ciphertext / BLOCK)%nat in
    let remaining := (length ciphertext mod BLOCK)%nat in
    '(offset, checksum, out) ← decrypt_blocks o full_blocks 0 (init_offset o nonce) zero_block ciphertext;
    if (0 <? remaining)%nat then
      let offset := xor_into offset (l_star o) in
      let pad := aes_encrypt (key o) offset in
      let tail := zip_with xor_byte (drop (full_blocks * BLOCK) ciphertext) pad in
      let expected := tag_of o (xor_into checksum (pad_block tail)) offset in
      mret (if constant_time_eq tag expected then Some (out ++ tail) else None)
    else
      let expected := tag_of o checksum offset in
      mret (if constant_time_eq tag expected then Some out else None).

Definition seal_datagram {E} (o : Ocb) (dir_seq : Z) (plaintext : bytes) : result E bytes :=
  body ← encrypt o (nonce_for dir_seq) plaintext; mret (be_bytes 8 dir_seq ++ body).

Definition open_datagram {E} (o : Ocb) (packet : bytes) : result E (option (Z * bytes)) :=
  if ((length packet <? MIN_DATAGRAM) || (RECEIVE_MTU <? length packet))%nat then Ok None
  else
    let dir_seq := from_be (take 8 packet) in
    r ← decrypt o (nonce_for dir_seq) (drop 8 packet);
    Ok (match r with Some plaintext => Some (dir_seq, plaintext) | None => None end).

End Ocb.

End Crypto.

(** ** Exclusive or, block by block *)
Section Xor.
Import Crypto.

Lemma lxor_range x k : 0 <= x < 256 -> 0 <= k < 256 -> 0 <= Z.lxor x k < 256.
Proof.
  intros Hx Hk. assert (0 <= Z.lxor x k) as H0 by (apply Z.lxor_nonneg; lia). split; [done|].
  destruct (Z.eq_dec (Z.lxor x k) 0) as [->|Hne]; [lia|].
  assert (forall z, 0 <= z < 256 -> Z.log2 z < 8) as Hlog.
  { intros z Hz. destruct (Z.eq_dec z 0) as [->|]; [done|]. apply Z.log2_lt_pow2; lia. }
  change 256 with (2 ^ 8). apply Z.log2_lt_pow2; [lia|].
  pose proof (Z.log2_lxor x k ltac:(lia) ltac:(lia)).
  pose proof (Hlog x Hx). pose proof (Hlog k Hk). lia.
Qed.
Lemma b2z_xor a b : b2z (xor_byte a b) = Z.lxor (b2z a) (b2z b).
Proof. unfold xor_byte. rewrite b2z_z2b. apply Z.mod_small, lxor_range; apply b2z_range. Qed.
Lemma xor_byte_cancel a b : xor_byte (xor_byte a b) b = a.
Proof. apply b2z_inj. by rewrite !b2z_xor, Z.lxor_assoc, Z.lxor_nilpotent, Z.lxor_0_r. Qed.

Lemma zip_xor_cancel p k : (length p <= length k)%nat ->
  zip_with xor_byte (zip_with xor_byte p k) k = p.
Proof.
  revert k; induction p as [|a p IH]; intros [|b k]; simpl; intros Hl; [done | done | lia |].
  by rewrite xor_byte_cancel, IH by lia.
Qed.
Lemma xor_into_cancel p k : length p = length k -> xor_into (xor_into p k) k = p.
Proof. intros Hl. apply zip_xor_cancel. lia. Qed.
Lemma length_xor_into p k : length p = length k -> length (xor_into p k) = length k.
Proof. intros Hl. unfold xor_into. rewrite length_zip_with. lia. Qed.

Lemma foldl_lor_xor a b acc : length a = length b -> 0 <= acc ->
  foldl Z.lor acc (zip_with (fun x y => Z.lxor (b2z x) (b2z y)) a b) = 0 <-> acc = 0 /\ a = b.
Proof.
  revert b acc; induction a as [|x a IH]; intros [|y b] acc Hl Ha; simplify_eq/=; [naive_solver|].
  pose proof (b2z_range x). pose proof (b2z_range y).
  rewrite IH; [| done | apply Z.lor_nonneg; split; [done|]; apply Z.lxor_nonneg; lia].
  rewrite Z.lor_eq_0_iff, Z.lxor_eq_0_iff. split.
  - intros [[? Hxy%b2z_inj] ?]. by subst.
  - intros [? Hxy]. by simplify_eq.
Qed.
Lemma constant_time_eq_spec a b : constant_time_eq a b = true <-> a = b.
Proof.
  unfold constant_time_eq. destruct (Nat.eqb_spec (length a) (length b)) as [Hl|Hl]; simpl.
  - rewrite Z.eqb_eq, foldl_lor_xor by done. naive_solver.
  - split; [done|]. by intros ->.
Qed.
Lemma constant_time_eq_refl a : constant_time_eq a a = true.
Proof. by apply constant_time_eq_spec. Qed.

End Xor.

(** ** Sealing and opening *)
Section Sealing.
Import Crypto.
Context (aes_encrypt aes_decrypt : bytes -> bytes -> bytes).

(** AES under one key is a permutation of blocks, and its inverse. *)
Definition block_cipher : Prop := forall k b, length b = BLOCK ->
  length (aes_encrypt k b) = BLOCK /\ length (aes_decrypt k b) = BLOCK /\
  aes_decrypt k (aes_encrypt k b) = b /\ aes_encrypt k (aes_decrypt k b) = b.
Hypothesis Haes : block_cipher.

Definition ocb_ok (o : Ocb) : Prop :=
  length (l_star o) = BLOCK /\ length (l_dollar o) = BLOCK /\
  length (l o) = 32%nat /\ Forall (fun b => length b = BLOCK) (l o).

Lemma length_double_from b : length (fst (double_from b)) = length b.
Proof using Type.
  induction b as [|x b IH]; [done|]. cbn [double_from].
  destruct (double_from b) as [out c]. simpl in *. by rewrite IH.
Qed.
Lemma length_gf_double b : length (gf_double b) = length b.
Proof using Type.
  unfold gf_double. pose proof (length_double_from b) as H. destruct (double_from b) as [out c].
  destruct (negb _); [by rewrite length_alter | done].
Qed.
Lemma doublings_ok n b : length b = BLOCK ->
  length (doublings n b) = n /\ Forall (fun b => length b = BLOCK) (doublings n b).
Proof using Type.
  revert b; induction n as [|n IH]; intros b Hb; [done|]. cbn [doublings].
  assert (length (gf_double b) = BLOCK) as Hd by by rewrite length_gf_double.
  destruct (IH _ Hd). split; [simpl; by f_equal | by constructor].
Qed.

Lemma new_ok k o : new aes_encrypt k = Ok o -> ocb_ok o.
Proof using Haes.
  unfold new. destruct (negb _); [done|]. intros [= <-]. unfold ocb_ok. cbn [l_star l_dollar l].
  assert (length (aes_encrypt k zero_block) = BLOCK) as Hs by by apply Haes.
  assert (length (gf_double (aes_encrypt k zero_block)) = BLOCK) as Hd by by rewrite length_gf_double.
  destruct (doublings_ok 32 _ Hd). done.
Qed.

Lemma length_init_offset o nonce : length (init_offset aes_encrypt o nonce) = BLOCK.
Proof using Type. unfold init_offset, shifted_offset. by rewrite length_fmap, length_seq. Qed.

Lemma trailing_zeros_le p : 2 ^ Z.of_nat (trailing_zeros p) <= Z.pos p.
Proof using Type.
  induction p as [p IH|p IH|]; cbn [trailing_zeros]; [change (2 ^ Z.of_nat 0) with 1; lia| |done].
  rewrite Nat2Z.inj_succ, Z.pow_succ_r by lia. lia.
Qed.
(** The masks suffice for 2^32 - 1 blocks. *)
Lemma l_at_ok {E} o i : ocb_ok o -> Z.of_nat i + 1 < 2 ^ 32 ->
  exists m, @l_at E o i = Ok m /\ length m = BLOCK.
Proof using Type.
  intros (_ & _ & Hlen & Hall) Hi. unfold l_at, ntz.
  destruct (Z.of_nat (i + 1)) as [|p|p] eqn:Ep; [lia| |lia].
  pose proof (trailing_zeros_le p).
  assert (trailing_zeros p < 32)%nat as Hlt.
  { destruct (decide (trailing_zeros p < 32)%nat) as [|Hge]; [done|].
    assert (2 ^ 32 <= 2 ^ Z.of_nat (trailing_zeros p)) by (apply Z.pow_le_mono_r; lia). lia. }
  destruct (lookup_lt_is_Some_2 (l o) (trailing_zeros p) ltac:(lia)) as [m Hm].
  exists m. rewrite Hm. split; [done|]. rewrite Forall_lookup in Hall. by eapply Hall.
Qed.

Lemma encrypt_one_length o off p : length off = BLOCK -> length p = BLOCK ->
  length (encrypt_one aes_encrypt o off p) = BLOCK.
Proof using Haes.
  intros Ho Hp. unfold encrypt_one.
  assert (length (xor_into p off) = BLOCK) as Hx by (rewrite length_xor_into; congruence).
  destruct (Haes (key o) _ Hx) as (He & _). rewrite length_xor_into; congruence.
Qed.
Lemma decrypt_one_length o off c : length off = BLOCK -> length c = BLOCK ->
  length (decrypt_one aes_decrypt o off c) = BLOCK.
Proof using Haes.
  intros Ho Hp. unfold decrypt_one.
  assert (length (xor_into c off) = BLOCK) as Hx by (rewrite length_xor_into; congruence).
  destruct (Haes (key o) _ Hx) as (_ & He & _). rewrite length_xor_into; congruence.
Qed.
Lemma decrypt_encrypt_one o off p : length off = BLOCK -> length p = BLOCK ->
  decrypt_one aes_decrypt o off (encrypt_one aes_encrypt o off p) = p.
Proof using Haes.
  intros Ho Hp. unfold decrypt_one, encrypt_one.
  assert (length (xor_into p off) = BLOCK) as Hx by (rewrite length_xor_into; congruence).
  destruct (Haes (key o) _ Hx) as (He & _ & Hd & _).
  rewrite xor_into_cancel, Hd, xor_into_cancel by congruence. done.
Qed.
Lemma encrypt_decrypt_one o off c : length off = BLOCK -> length c = BLOCK ->
  encrypt_one aes_encrypt o off (decrypt_one aes_decrypt o off c) = c.
Proof using Haes.
  intros Ho Hp. unfold decrypt_one, encrypt_one.
  assert (length (xor_into c off) = BLOCK) as Hx by (rewrite length_xor_into; congruence).
  destruct (Haes (key o) _ Hx) as (_ & He & _ & Hd).
  rewrite xor_into_cancel, Hd, xor_into_cancel by congruence. done.
Qed.

(** The two loops undo each other. *)
Lemma encrypt_blocks_spec {E} o n i off cks data : ocb_ok o ->
  length off = BLOCK -> length cks = BLOCK -> (n * BLOCK <= length data)%nat ->
  Z.of_nat i + Z.of_nat n < 2 ^ 32 ->
  exists off' cks' out, @encrypt_blocks aes_encrypt E o n i off cks data = Ok (off', cks', out) /\
    length off' = BLOCK /\ length cks' = BLOCK /\ length out = (n * BLOCK)%nat /\
    forall rest, @decrypt_blocks aes_decrypt E o n i off cks (out ++ rest) =
      Ok (off', cks', take (n * BLOCK) data).
Proof using Haes.
  intros Ho. revert i off cks data; induction n as [|n IH]; intros i off cks data Hoff Hcks Hd Hi.
  { exists off, cks, []. done. }
  destruct (@l_at_ok E o i Ho ltac:(lia)) as (m & Hm & Hlm).
  cbn [encrypt_blocks decrypt_blocks]. rewrite Hm. cbn [mbind result_bind]. cbv zeta.
  assert (length (xor_into off m) = BLOCK) as Hox by (rewrite length_xor_into; congruence).
  assert (length (take BLOCK data) = BLOCK) as Htk by (rewrite length_take; lia).
  destruct (IH (i + 1)%nat (xor_into off m) (xor_into cks (take BLOCK data)) (drop BLOCK data))
    as (off' & cks' & out & He & Hlo & Hlc & Hl & Hdec);
    [done | rewrite length_xor_into; congruence | rewrite length_drop; lia | lia |].
  rewrite He. cbn [mbind result_bind].
  eexists _, _, _. split; [done|]. split; [done|]. split; [done|].
  pose proof (encrypt_one_length o _ _ Hox Htk) as Hle. split; [rewrite length_app; lia|].
  intros rest. rewrite <-app_assoc, take_app_length' by done.
  rewrite decrypt_encrypt_one by done. rewrite drop_app_length' by done. rewrite Hdec.
  cbn [mbind result_bind]. unfold mret, result_ret. do 2 f_equal.
  change (S n * BLOCK)%nat with (BLOCK + n * BLOCK)%nat. by rewrite take_take_drop.
Qed.
Lemma decrypt_blocks_spec {E} o n i off cks data : ocb_ok o ->
  length off = BLOCK -> length cks = BLOCK -> (n * BLOCK <= length data)%nat ->
  Z.of_nat i + Z.of_nat n < 2 ^ 32 ->
  exists off' cks' out, @decrypt_blocks aes_decrypt E o n i off cks data = Ok (off', cks', out) /\
    length off' = BLOCK /\ length cks' = BLOCK /\ length out = (n * BLOCK)%nat /\
    forall rest, @encrypt_blocks aes_encrypt E o n i off cks (out ++ rest) =
      Ok (off', cks', take (n * BLOCK) data).
Proof using Haes.
  intros Ho. revert i off cks data; induction n as [|n IH]; intros i off cks data Hoff Hcks Hd Hi.
  { exists off, cks, []. done. }
  destruct (@l_at_ok E o i Ho ltac:(lia)) as (m & Hm & Hlm).
  cbn [encrypt_blocks decrypt_blocks]. rewrite Hm. cbn [mbind result_bind]. cbv zeta.
  assert (length (xor_into off m) = BLOCK) as Hox by (rewrite length_xor_into; congruence).
  assert (length (take BLOCK data) = BLOCK) as Htk by (rewrite length_take; lia).
  pose proof (decrypt_one_length o _ _ Hox Htk) as Hle.
  destruct (IH (i + 1)%nat (xor_into off m)
              (xor_into cks (decrypt_one aes_decrypt o (xor_into off m) (take BLOCK data))) (drop BLOCK data))
    as (off' & cks' & out & He & Hlo & Hlc & Hl & Henc);
    [done | rewrite length_xor_into; congruence | rewrite length_drop; lia | lia |].
  rewrite He. cbn [mbind result_bind].
  eexists _, _, _. split; [done|]. split; [done|]. split; [done|]. split; [rewrite length_app; lia|].
  intros rest. rewrite <-app_assoc, take_app_length' by done. rewrite drop_app_length' by done. rewrite Henc.
  rewrite encrypt_decrypt_one by done.
  cbn [mbind result_bind]. unfold mret, result_ret. do 2 f_equal.
  change (S n * BLOCK)%nat with (BLOCK + n * BLOCK)%nat. by rewrite take_take_drop.
Qed.

(** A text short enough for the masks of a key. *)
Definition text_ok (p : bytes) : Prop := zlen p < 2 ^ 36.

Lemma text_ok_blocks p : text_ok p -> Z.of_nat 0 + Z.of_nat (length p / BLOCK) < 2 ^ 32.
Proof using Type.
  unfold text_ok, zlen, BLOCK. intros Hp. rewrite Nat2Z.inj_div.
  assert (Z.of_nat (length p) / Z.of_nat 16 < 2 ^ 32); [|lia].
  apply Z.div_lt_upper_bound; lia.
Qed.
Lemma blocks_le (p : bytes) : (length p / BLOCK * BLOCK <= length p)%nat.
Proof using Type. unfold BLOCK. pose proof (Nat.div_mod_eq (length p) 16). lia. Qed.
Lemma length_tail (p : bytes) :
  length (drop (length p / BLOCK * BLOCK) p) = (length p mod BLOCK)%nat.
Proof using Type. rewrite length_drop. unfold BLOCK. pose proof (Nat.div_mod_eq (length p) 16). lia. Qed.
Lemma length_pad_block tail : (length tail < BLOCK)%nat -> length (pad_block tail) = BLOCK.
Proof using Type. intros Ht. unfold pad_block. rewrite length_app. simpl. rewrite length_replicate. unfold BLOCK in *. lia. Qed.
Lemma length_tag o cks off : ocb_ok o -> length cks = BLOCK -> length off = BLOCK ->
  length (tag_of aes_encrypt o cks off) = BLOCK.
Proof using Haes.
  intros (_ & Hd & _) Hc Ho. unfold tag_of. apply Haes.
  assert (length (xor_into cks off) = BLOCK) by (rewrite length_xor_into; congruence).
  rewrite length_xor_into; congruence.
Qed.

(** Decryption of a body and a tag, taken apart. *)
Lemma decrypt_split {E} o nonce body tag : length tag = TAG ->
  @decrypt aes_encrypt aes_decrypt E o nonce (body ++ tag) =
  ('(offset, checksum, out) ←
     decrypt_blocks aes_decrypt o (length body / BLOCK) 0 (init_offset aes_encrypt o nonce) zero_block body;
   if (0 <? length body mod BLOCK)%nat then
     let offset := xor_into offset (l_star o) in
     let pad := aes_encrypt (key o) offset in
     let tail := zip_with xor_byte (drop (length body / BLOCK * BLOCK) body) pad in
     let expected := tag_of aes_encrypt o (xor_into checksum (pad_block tail)) offset in
     mret (if constant_time_eq tag expected then Some (out ++ tail) else None)
   else
     let expected := tag_of aes_encrypt o checksum offset in
     mret (if constant_time_eq tag expected then Some out else None)).
Proof using Type.
  intros Ht. unfold decrypt.
  rewrite (proj2 (Nat.ltb_ge _ _)) by (rewrite length_app; lia).
  assert (length (body ++ tag) - TAG = length body)%nat as Hl by (rewrite length_app; lia).
  rewrite Hl, take_app_length, drop_app_length. done.
Qed.

Lemma decrypt_encrypt {E} o nonce p : ocb_ok o -> text_ok p ->
  exists c, @encrypt aes_encrypt E o nonce p = Ok c /\ length c = (length p + TAG)%nat /\
    @decrypt aes_encrypt aes_decrypt E o nonce c = Ok (Some p).
Proof using Haes.
  intros Ho Hp. pose proof Ho as (Hls & _).
  destruct (@encrypt_blocks_spec E o (length p / BLOCK) 0 (init_offset aes_encrypt o nonce) zero_block p)
    as (off & cks & out & He & Hlo & Hlc & Hl & Hdec); auto using length_init_offset, blocks_le, text_ok_blocks.
  unfold encrypt. rewrite He. cbn [mbind result_bind]. cbv zeta.
  set (tail := drop (length p / BLOCK * BLOCK) p).
  assert (length tail = length p mod BLOCK)%nat as Hlt by apply length_tail.
  assert (length p mod BLOCK < BLOCK)%nat as Hmod by (apply Nat.mod_upper_bound; done).
  pose proof (Nat.div_mod_eq (length p) BLOCK) as Hdm.
  destruct (Nat.ltb_spec 0 (length p mod BLOCK)) as [Hr|Hr].
  - assert (length (xor_into off (l_star o)) = BLOCK) as Hx by (rewrite length_xor_into; congruence).
    set (pad := aes_encrypt (key o) (xor_into off (l_star o))).
    assert (length pad = BLOCK) as Hpad by by apply Haes.
    set (body := out ++ zip_with xor_byte tail pad).
    assert (length (zip_with xor_byte tail pad) = length p mod BLOCK)%nat as Hz
      by (rewrite length_zip_with; lia).
    assert (length body = length p) as Hb by (unfold body; rewrite length_app; lia).
    set (tag := tag_of _ _ _ _). assert (length tag = TAG) as Htag.
    { apply length_tag; [done| |done]. rewrite length_xor_into; rewrite length_pad_block; lia. }
    eexists; split; [done|]. rewrite app_assoc. fold body. split; [rewrite length_app; lia|].
    rewrite decrypt_split by done. rewrite Hb. unfold body. rewrite Hdec. cbn [mbind result_bind]. fold pad.
    rewrite (proj2 (Nat.ltb_lt _ _)) by done. cbv zeta.
    rewrite drop_app_length' by (rewrite Hl; done).
    rewrite zip_xor_cancel by lia. fold tag. rewrite constant_time_eq_refl.
    unfold tail. by rewrite take_drop.
  - assert (length p mod BLOCK = 0)%nat as H0 by lia. unfold mret, result_ret.
    assert (length out = length p) as Hb by lia.
    eexists; split; [done|]. rewrite length_app, length_tag by done.
    split; [by rewrite Hb|]. rewrite decrypt_split by (by apply length_tag).
    rewrite Hb. specialize (Hdec []). rewrite app_nil_r in Hdec. rewrite Hdec. cbn [mbind result_bind].
    rewrite (proj2 (Nat.ltb_ge _ _)) by lia. cbv zeta. rewrite constant_time_eq_refl.
    rewrite take_ge by lia. done.
Qed.

(** What opens is what the key would have sealed: nothing else has the tag. *)
Lemma encrypt_decrypt {E} o nonce c p : ocb_ok o -> text_ok c ->
  @decrypt aes_encrypt aes_decrypt E o nonce c = Ok (Some p) ->
  @encrypt aes_encrypt E o nonce p = Ok c.
Proof using Haes.
  intros Ho Hc Hdec. pose proof Ho as (Hls & _).
  assert (TAG <= length c)%nat as Hlen.
  { unfold decrypt in Hdec. destruct (Nat.ltb_spec (length c) TAG); [done | lia]. }
  rewrite <-(take_drop (length c - TAG) c) in Hdec |- *.
  set (body := take (length c - TAG) c) in *. set (tag := drop (length c - TAG) c) in *.
  assert (length tag = TAG) as Htag by (unfold tag; rewrite length_drop; lia).
  assert (length body <= length c)%nat as Hbl by (unfold body; rewrite length_take; lia).
  assert (text_ok body) as Hbt by (unfold text_ok, zlen in *; lia).
  rewrite decrypt_split in Hdec by done.
  destruct (@decrypt_blocks_spec E o (length body / BLOCK) 0 (init_offset aes_encrypt o nonce) zero_block body)
    as (off & cks & out & He & Hlo & Hlc & Hl & Henc); auto using length_init_offset, blocks_le, text_ok_blocks.
  rewrite He in Hdec. cbn [mbind result_bind] in Hdec. cbv zeta in Hdec.
  assert (length body mod BLOCK < BLOCK)%nat as Hmod by (apply Nat.mod_upper_bound; done).
  pose proof (Nat.div_mod_eq (length body) BLOCK) as Hdm.
  pose proof (length_tail body) as Hlt.
  destruct (Nat.ltb_spec 0 (length body mod BLOCK)) as [Hr|Hr].
  - set (pad := aes_encrypt (key o) (xor_into off (l_star o))) in *.
    assert (length (xor_into off (l_star o)) = BLOCK) as Hx by (rewrite length_xor_into; congruence).
    assert (length pad = BLOCK) as Hpad by by apply Haes.
    set (ctail := drop (length body / BLOCK * BLOCK) body) in *.
    set (tail := zip_with xor_byte ctail pad) in *.
    assert (length tail = length body mod BLOCK)%nat as Hlz by (unfold tail; rewrite length_zip_with; lia).
    unfold mret, result_ret in Hdec. injection Hdec as Hdec.
    destruct (constant_time_eq tag _) eqn:Hct; [|done]. injection Hdec as <-.
    apply constant_time_eq_spec in Hct.
    unfold encrypt. assert (length (out ++ tail) = length body) as -> by (rewrite length_app; lia).
    rewrite Henc. cbn [mbind result_bind]. rewrite (proj2 (Nat.ltb_lt _ _)) by done. cbv zeta.
    rewrite drop_app_length' by (rewrite Hl; done). rewrite <-Hct. fold pad. unfold tail.
    rewrite zip_xor_cancel by lia. rewrite app_assoc. unfold ctail. by rewrite take_drop.
  - unfold mret, result_ret in Hdec. injection Hdec as Hdec.
    destruct (constant_time_eq tag _) eqn:Hct; [|done]. injection Hdec as <-.
    apply constant_time_eq_spec in Hct.
    unfold encrypt. assert (length out = length body) as -> by lia.
    specialize (Henc []). rewrite app_nil_r in Henc. rewrite Henc. cbn [mbind result_bind].
    rewrite (proj2 (Nat.ltb_ge _ _)) by lia. cbv zeta. rewrite <-Hct.
    by rewrite (take_ge body) by lia.
Qed.

Lemma open_seal {E} o d p : ocb_ok o -> fits 64 d -> (length p + MIN_DATAGRAM <= RECEIVE_MTU)%nat ->
  exists w, @seal_datagram aes_encrypt E o d p = Ok w /\ length w = (length p + MIN_DATAGRAM)%nat /\
    @open_datagram aes_encrypt aes_decrypt E o w = Ok (Some (d, p)).
Proof using Haes.
  intros Ho Hd Hp. unfold MIN_DATAGRAM, RECEIVE_MTU in Hp.
  destruct (@decrypt_encrypt E o (nonce_for d) p Ho) as (c & He & Hlc & Hdec).
  { unfold text_ok, zlen. lia. }
  unfold seal_datagram. rewrite He. cbn [mbind result_bind]. eexists; split; [done|].
  unfold TAG in Hlc. assert (length (be_bytes 8 d ++ c) = length p + MIN_DATAGRAM)%nat as Hl
    by (rewrite length_app, length_be_bytes; unfold MIN_DATAGRAM; lia).
  split; [done|]. unfold open_datagram. rewrite Hl. unfold MIN_DATAGRAM, RECEIVE_MTU.
  rewrite (proj2 (Nat.ltb_ge _ _)), (proj2 (Nat.ltb_ge _ _)) by lia. cbn [orb]. cbv zeta.
  rewrite take_app_length', drop_app_length' by (by rewrite length_be_bytes).
  rewrite from_be_bytes, Z.mod_small by exact Hd. by rewrite Hdec.
Qed.

End Sealing.

(** ** What the masks and offsets are, as integers *)
Section Field.
Import Crypto.

Lemma from_be_app l k : from_be (l ++ k) = from_be l * 2 ^ (8 * Z.of_nat (length k)) + from_be k.
Proof. unfold from_be at 1. rewrite foldl_app. apply foldl_be. Qed.

Lemma shl_lor_carry b c : 0 <= b < 256 -> c = 0 \/ c = 1 ->
  Z.lor (wrap 8 (Z.shiftl b 1)) c = (2 * b) mod 256 + c.
Proof.
  intros Hb Hc. apply Z.eqb_eq. destruct Hc as [-> | ->].
  - apply (byte_forall (fun b => Z.lor (wrap 8 (Z.shiftl b 1)) 0 =? (2 * b) mod 256 + 0)); [by vm_compute | done].
  - apply (byte_forall (fun b => Z.lor (wrap 8 (Z.shiftl b 1)) 1 =? (2 * b) mod 256 + 1)); [by vm_compute | done].
Qed.

Lemma double_from_spec b :
  let '(out, c) := double_from b in
  length out = length b /\ (c = 0 \/ c = 1) /\
  from_be out + c * 2 ^ (8 * Z.of_nat (length b)) = 2 * from_be b.
Proof.
  induction b as [|x b IH]; [split_and!; [done | by left | done]|]. cbn [double_from].
  destruct (double_from b) as [out c]. destruct IH as (Hl & Hc & Hs).
  pose proof (b2z_range x) as Hx. rewrite !from_be_cons, Hl, b2z_z2b, shl_lor_carry by done.
  rewrite Z.shiftr_div_pow2 by lia. change (2 ^ 1) with 2. change (2 ^ 7) with 128.
  assert ((2 * b2z x) mod 256 + 256 * (b2z x / 128) = 2 * b2z x) as Hd by (Z.to_euclidean_division_equations; lia).
  rewrite (Z.mod_small ((2 * b2z x) mod 256 + c)) by (Z.to_euclidean_division_equations; lia).
  cbn [length]. replace (8 * Z.of_nat (S (length b))) with (8 + 8 * Z.of_nat (length b)) by lia.
  rewrite Z.pow_add_r by lia. change (2 ^ 8) with 256.
  split_and!; [by f_equal/= | Z.to_euclidean_division_equations; lia |].
  set (P := 2 ^ (8 * Z.of_nat (length b))) in *. clearbody P.
  transitivity (((2 * b2z x) mod 256 + 256 * (b2z x / 128)) * P + (from_be out + c * P)); [lia|].
  rewrite Hd, Hs. lia.
Qed.

Lemma lxor_low a x k : 0 <= x < 256 -> 0 <= k < 256 ->
  Z.lxor (x + a * 256) k = Z.lxor x k + a * 256.
Proof.
  intros Hx Hk. change 256 with (2 ^ 8) in *.
  pose proof (lxor_range x k Hx Hk) as Hxk.
  rewrite <-!lor_shiftl_add by lia. apply Z.bits_inj'. intros n Hn.
  rewrite Z.lxor_spec, !Z.lor_spec, Z.lxor_spec, Z.shiftl_spec by done.
  destruct (Z.ltb_spec n 8).
  - rewrite (Z.testbit_neg_r a) by lia. by rewrite !orb_false_r.
  - assert (forall z, 0 <= z < 2 ^ 8 -> Z.testbit z n = false) as Hhigh.
    { intros z Hz. rewrite <-(Z.mod_small z (2 ^ 8)) by done. by rewrite Z.mod_pow2_bits_high by lia. }
    rewrite (Hhigh x), (Hhigh k) by done. by destruct (Z.testbit a (n - 8)).
Qed.

(** Doubling in GF(2^128), the block read as an integer. *)
Lemma gf_double_value b : length b = BLOCK ->
  from_be (gf_double b) =
  if from_be b <? 2 ^ 127 then 2 * from_be b else Z.lxor (2 * from_be b - 2 ^ 128) 0x87.
Proof.
  intros Hb. unfold gf_double. pose proof (double_from_spec b) as H.
  destruct (double_from b) as [out c]. destruct H as (Hl & Hc & Hs). rewrite Hb in *.
  unfold BLOCK in *. change (8 * Z.of_nat 16) with 128 in Hs.
  pose proof (from_be_range out) as Ho. rewrite Hl in Ho. change (8 * Z.of_nat 16) with 128 in Ho.
  destruct Hc as [-> | ->]; simpl (negb _); cbn [negb Z.eqb].
  - rewrite (proj2 (Z.ltb_lt _ _)) by lia. lia.
  - rewrite (proj2 (Z.ltb_ge _ _)) by lia.
    destruct out as [|x out _] using rev_ind; [done|]. rewrite length_app in Hl. simpl in Hl.
    rewrite alter_app_r_alt by lia. replace (16 - 1 - length out)%nat with O by lia. cbn [alter list_alter].
    assert (forall y, from_be (out ++ [y]) = b2z y + from_be out * 256) as Happ.
    { intros y. rewrite from_be_app. unfold from_be at 2. simpl. lia. }
    rewrite Happ in *. rewrite b2z_xor, b2z_z2b. change (0x87 mod 256) with 0x87.
    rewrite <-lxor_low by (pose proof (b2z_range x); lia). f_equal. lia.
Qed.

Lemma be_bytes_from_be s n : length s = n -> be_bytes n (from_be s) = s.
Proof.
  revert n; induction s as [|b s IH]; intros n <-; [done|]. cbn [length be_bytes]. rewrite from_be_cons.
  pose proof (from_be_range s) as Hr.
  f_equal.
  - rewrite Z.div_add_l, Z.div_small, Z.add_0_r by lia. apply z2b_b2z.
  - assert (forall m x y, be_bytes m (x * 2 ^ (8 * Z.of_nat m) + y) = be_bytes m y) as Hlow;
      [|rewrite Hlow; by apply IH].
    clear. intros m. induction m as [|m IHm]; intros x y; [done|]. cbn [be_bytes].
    replace (8 * Z.of_nat (S m)) with (8 + 8 * Z.of_nat m) by lia.
    rewrite Z.pow_add_r by lia. change (2 ^ 8) with 256. rewrite Z.mul_assoc, IHm. f_equal.
    apply b2z_inj. rewrite !b2z_z2b, Z.div_add_l by lia. by rewrite Z.add_comm, Z.mod_add by lia.
Qed.
Lemma nth_be_bytes n z i d : (i < n)%nat ->
  nth i (be_bytes n z) d = z2b (z / 2 ^ (8 * (Z.of_nat n - 1 - Z.of_nat i))).
Proof.
  revert i; induction n as [|n IH]; intros i Hi; [lia|]. destruct i as [|i]; cbn [be_bytes nth].
  - do 4 f_equal. lia.
  - rewrite IH by lia. do 4 f_equal. lia.
Qed.

(** Joining the low bits of one byte with the high bits of the next. *)
Lemma join_bytes w k : 0 <= w -> 0 < k < 8 ->
  Z.lor (wrap 8 (Z.shiftl (w / 256 mod 256) k)) (Z.shiftr (w mod 256) (8 - k)) =
  (w / 2 ^ (8 - k)) mod 256.
Proof.
  intros Hw Hk. rewrite Z.shiftr_div_pow2, Z.shiftl_mul_pow2 by lia. unfold wrap.
  change 256 with (2 ^ 8).
  set (q := 2 ^ (8 - k)). assert (2 ^ 8 = q * 2 ^ k) as Hpow by (unfold q; rewrite <-Z.pow_add_r by lia; f_equal; lia).
  assert (0 < q) by (apply Z.pow_pos_nonneg; lia). assert (0 < 2 ^ k) by (apply Z.pow_pos_nonneg; lia).
  rewrite Hpow. rewrite Z.mul_mod_distr_r by lia.
  rewrite <-Z.shiftl_mul_pow2 by lia. rewrite Z.lor_comm, lor_shiftl_add; [| lia |].
  2: { pose proof (Z.mod_pos_bound w (q * 2 ^ k) ltac:(nia)).
       split; [apply Z.div_pos; lia | apply Z.div_lt_upper_bound; lia]. }
  pose proof (Z.div_mod w (q * 2 ^ k) ltac:(nia)) as Hdm.
  set (W := w / (q * 2 ^ k)) in *. set (r := w mod (q * 2 ^ k)) in *.
  assert (0 <= r < q * 2 ^ k) as Hr by (apply Z.mod_pos_bound; nia).
  assert (w / q = r / q + W * 2 ^ k) as ->.
  { rewrite Hdm. replace (q * 2 ^ k * W + r) with (W * 2 ^ k * q + r) by lia.
    rewrite Z.div_add_l by lia. lia. }
  assert (0 <= r / q < 2 ^ k) as Hrq.
  { split; [apply Z.div_pos; lia|]. apply Z.div_lt_upper_bound; lia. }
  rewrite (Z.mul_comm q), (Z.rem_mul_r (r / q + W * 2 ^ k)) by lia.
  rewrite Z.mod_add, Z.div_add by lia. rewrite (Z.mod_small (r / q)), (Z.div_small (r / q)), Z.add_0_l by lia.
  assert ((W mod (2 ^ k * q)) mod q = W mod q) as ->; [|lia].
  apply Z.mod_mod_divide. by exists (2 ^ k).
Qed.

Lemma b2z_nth s i : (i < length s)%nat ->
  b2z (nth i s (z2b 0)) = (from_be s / 2 ^ (8 * (zlen s - 1 - Z.of_nat i))) mod 256.
Proof.
  intros Hi. rewrite <-(be_bytes_from_be s _ eq_refl) at 1. by rewrite nth_be_bytes, b2z_z2b.
Qed.

(** The offset is 128 bits of the stretch, [bottom] bits in (RFC 7253, 4.2). *)
Lemma offset_window stretch bottom : length stretch = 24%nat -> 0 <= bottom < 64 ->
  shifted_offset stretch bottom = be_bytes 16 (Z.shiftr (from_be stretch) (64 - bottom)).
Proof.
  intros Hl Hb. unfold shifted_offset. rewrite land_7, (Z.shiftr_div_pow2 bottom) by lia. change (2 ^ 3) with 8.
  set (sh := Z.to_nat (bottom / 8)). set (k := bottom mod 8).
  assert (Hbk : bottom = 8 * Z.of_nat sh + k) by
    (unfold sh, k; rewrite Z2Nat.id by (apply Z.div_pos; lia); apply Z.div_mod; lia).
  assert (Hk : 0 <= k < 8) by (apply Z.mod_pos_bound; lia). assert (Hsh : (sh <= 7)%nat) by lia.
  clearbody sh k. subst bottom.
  apply nth_ext with (d := z2b 0) (d' := z2b 0); [by rewrite length_fmap, length_be_bytes|].
  intros i Hi. rewrite length_fmap, length_seq in Hi. unfold BLOCK in Hi.
  rewrite nth_be_bytes by lia.
  rewrite (nth_indep _ _ (offset_byte stretch sh k 0)) by (by rewrite length_fmap, length_seq).
  unfold fmap. rewrite (map_nth (offset_byte stretch sh k)), seq_nth by done. cbn [Nat.add].
  unfold offset_byte. rewrite !(proj2 (Nat.ltb_lt _ _)) by lia.
  set (X := from_be stretch).
  assert (0 <= X) as HX by apply from_be_range.
  rewrite (Z.shiftr_div_pow2 X) by lia.
  assert (forall a b, 0 <= a -> 0 <= b -> X / 2 ^ a / 2 ^ b = X / 2 ^ (a + b)) as Hdd.
  { intros a b Ha Hb'. rewrite Z.div_div, Z.pow_add_r by (try apply Z.pow_pos_nonneg; lia). done. }
  rewrite Hdd by lia. apply b2z_inj. rewrite (b2z_z2b (X / _)).
  destruct (Z.eqb_spec k 0) as [->|Hk0].
  - rewrite b2z_nth by lia. fold X. unfold zlen. rewrite Hl. do 3 f_equal. lia.
  - rewrite b2z_z2b, !b2z_nth by lia. fold X. unfold zlen. rewrite Hl.
    set (W := X / 2 ^ (8 * (22 - Z.of_nat (sh + i)))).
    assert (X / 2 ^ (8 * (Z.of_nat 24 - 1 - Z.of_nat (sh + i))) = W / 256) as ->.
    { unfold W. change 256 with (2 ^ 8). rewrite Hdd by lia. do 2 f_equal. lia. }
    assert (X / 2 ^ (8 * (Z.of_nat 24 - 1 - Z.of_nat (sh + i + 1))) = W) as ->
      by (unfold W; do 2 f_equal; lia).
    rewrite join_bytes by (try apply Z.div_pos; try apply Z.pow_pos_nonneg; lia).
    rewrite Z.mod_mod by lia. unfold W. rewrite Hdd by lia. do 3 f_equal. lia.
Qed.

End Field.

(** ** Properties *)
Section Properties.
Import Crypto.
Context (aes_encrypt aes_decrypt : bytes -> bytes -> bytes).

(** Sealing and opening under a key: any text up to 2^36 bytes is sealed,
    sixteen bytes longer, and opens to itself under the same nonce, whatever
    its length modulo the block. *)
Theorem ocb_roundtrip (k : bytes) (o : Ocb) (nonce p : bytes) :
  block_cipher aes_encrypt aes_decrypt -> @new aes_encrypt k = Ok o -> text_ok p ->
  exists c, @encrypt aes_encrypt error o nonce p = Ok c /\ length c = (length p + TAG)%nat /\
    @decrypt aes_encrypt aes_decrypt error o nonce c = Ok (Some p).
Proof. intros Haes Hnew. apply decrypt_encrypt; [done | by eapply new_ok]. Qed.

(** C33. A text that opens is exactly the one the key seals: every ciphertext
    and tag that decryption accepts is the encryption of what it returns. *)
Theorem ocb_accepts_only_sealed (k : bytes) (o : Ocb) (nonce c p : bytes) :
  block_cipher aes_encrypt aes_decrypt -> @new aes_encrypt k = Ok o -> text_ok c ->
  @decrypt aes_encrypt aes_decrypt error o nonce c = Ok (Some p) ->
  @encrypt aes_encrypt error o nonce p = Ok c.
Proof. intros Haes Hnew. apply encrypt_decrypt; [done | by eapply new_ok]. Qed.

(** A sealed datagram that fits the receive MTU opens to its direction and
    sequence word and its text; a longer one is not opened. *)
Theorem datagram_roundtrip (k : bytes) (o : Ocb) (d : Z) (p : bytes) :
  block_cipher aes_encrypt aes_decrypt -> @new aes_encrypt k = Ok o -> fits 64 d ->
  (length p + MIN_DATAGRAM <= RECEIVE_MTU)%nat ->
  exists w, @seal_datagram aes_encrypt error o d p = Ok w /\
    length w = (length p + MIN_DATAGRAM)%nat /\
    @open_datagram aes_encrypt aes_decrypt error o w = Ok (Some (d, p)).
Proof. intros Haes Hnew. apply open_seal; [done | by eapply new_ok]. Qed.

(** The masks and offsets are RFC 7253's: doubling is multiplication by x
    in GF(2^128) and the initial offset is the 128-bit window of the stretched
    block cipher output that the nonce's low six bits select. *)
Theorem ocb_masks_and_offsets (b stretch : bytes) (bottom : Z) :
  length b = BLOCK -> length stretch = 24%nat -> 0 <= bottom < 64 ->
  from_be (gf_double b) =
    (if from_be b <? 2 ^ 127 then 2 * from_be b else Z.lxor (2 * from_be b - 2 ^ 128) 0x87) /\
  shifted_offset stretch bottom = be_bytes 16 (Z.shiftr (from_be stretch) (64 - bottom)).
Proof. intros Hb Hs Hbot. split; [by apply gf_double_value | by apply offset_window]. Qed.

End Properties.

(** A toy block cipher: the block reversed. *)
Lemma reverse_cipher : block_cipher (fun _ b => reverse b) (fun _ b => reverse b).
Proof. intros k b Hb. rewrite length_reverse, reverse_involutive. done. Qed.

Definition sample_key : bytes := replicate 16 (z2b 7).
Definition sample_ocb : Crypto.Ocb :=
  match Crypto.new (fun _ b => reverse b) sample_key with
  | Ok o => o | _ => Crypto.mkOcb [] [] [] [] end.

Lemma ocb_roundtrip_witness :
  exists c, @Crypto.encrypt (fun _ b => reverse b) Crypto.error sample_ocb [z2b 1] (replicate 20 (z2b 65)) = Ok c /\
    length c = 36%nat /\
    @Crypto.decrypt (fun _ b => reverse b) (fun _ b => reverse b) Crypto.error sample_ocb [z2b 1] c =
      Ok (Some (replicate 20 (z2b 65))).
Proof.
  apply (ocb_roundtrip _ _ sample_key sample_ocb); [exact reverse_cipher | reflexivity | vm_compute; reflexivity].
Defined.

Lemma ocb_accepts_only_sealed_witness :
  exists c, @Crypto.encrypt (fun _ b => reverse b) Crypto.error sample_ocb [z2b 1] [z2b 65] = Ok c.
Proof.
  set (c := match @Crypto.encrypt (fun _ b => reverse b) Crypto.error sample_ocb [z2b 1] [z2b 65] with
            | Ok c => c | _ => [] end).
  exists c. apply (ocb_accepts_only_sealed _ (fun _ b => reverse b) sample_key sample_ocb [z2b 1] c [z2b 65]);
    [exact reverse_cipher | reflexivity | vm_compute; reflexivity | vm_compute; reflexivity].
Defined.

Lemma datagram_roundtrip_witness :
  exists w, @Crypto.seal_datagram (fun _ b => reverse b) Crypto.error sample_ocb 5 [z2b 65] = Ok w /\
    length w = 25%nat /\
    @Crypto.open_datagram (fun _ b => reverse b) (fun _ b => reverse b) Crypto.error sample_ocb w = Ok (Some (5, [z2b 65])).
Proof.
  apply (datagram_roundtrip _ _ sample_key sample_ocb);
    [exact reverse_cipher | reflexivity | unfold fits; lia | vm_compute; lia].
Defined.

Lemma ocb_masks_and_offsets_witness :
  from_be (Crypto.gf_double (replicate 16 (z2b 255))) =
    Z.lxor (2 * from_be (replicate 16 (z2b 255)) - 2 ^ 128) 0x87 /\
  Crypto.shifted_offset (be_bytes 24 12345) 13 = be_bytes 16 (Z.shiftr (from_be (be_bytes 24 12345)) 51).
Proof.
  destruct (ocb_masks_and_offsets (replicate 16 (z2b 255)) (be_bytes 24 12345) 13) as [H1 H2];
    [reflexivity | reflexivity | lia |].
  split; [exact H1 | exact H2].
Defined.

(** ** What the transport needs of a cipher *)
Module Datagrams.

Class Cipher (O : Type) := {
  seal_datagram : O -> Z -> bytes -> result unit bytes;
  decrypt : O -> bytes -> bytes -> result unit (option bytes);
}.

(** A sealed text is the direction and sequence word and a body sixteen bytes
    longer than the text, which opens to it under the word's nonce. *)
Class CipherLaws (O : Type) `{Cipher O} (ok : O -> Prop) :=
  seal_opens : forall o d p, ok o -> fits 64 d -> text_ok p ->
    exists body, seal_datagram o d p = Ok (be_bytes 8 d ++ body) /\
      length body = (length p + Crypto.TAG)%nat /\
      decrypt o (Crypto.nonce_for d) body = Ok (Some p).

End Datagrams.

(** OCB keeps the contract, over any block cipher. *)
Section Contract.
Context (aes_encrypt aes_decrypt : bytes -> bytes -> bytes).

#[export] Instance ocb_cipher : Datagrams.Cipher Crypto.Ocb := {|
  Datagrams.seal_datagram := @Crypto.seal_datagram aes_encrypt unit;
  Datagrams.decrypt := @Crypto.decrypt aes_encrypt aes_decrypt unit;
|}.

Lemma ocb_cipher_laws : block_cipher aes_encrypt aes_decrypt ->
  @Datagrams.CipherLaws Crypto.Ocb ocb_cipher ocb_ok.
Proof.
  intros Haes o d p Ho Hd Hp.
  destruct (@decrypt_encrypt aes_encrypt aes_decrypt Haes unit o (Crypto.nonce_for d) p Ho Hp)
    as (c & He & Hlc & Hdec).
  exists c. cbn [Datagrams.seal_datagram ocb_cipher]. unfold Crypto.seal_datagram. by rewrite He.
Qed.

End Contract.
