(* ===== verification/Transport.v ===== *)
(** * The State Synchronization Protocol transport

    Models [crates/moshcatty/src/transport.rs].  Instants and durations are
    nanoseconds; a call of the transport sees one clock reading, its argument
    [now], for all the readings the code takes inside it.  The session cipher
    comes through the [Datagrams.Cipher] interface, zlib and the random chaff
    are parameters, and the process-wide packet counter is threaded through the
    calls that draw from it. *)
From Stdlib Require Import ZArith Lia List Bool.
From stdpp Require Import base numbers list.
From S2P Require Import Prelude Replay Fragment Pb Crypto.
Open Scope Z_scope.
Open Scope zetta_scope.

Module Transport.

Definition ms : Z := 1000000.
Definition PROTOCOL_VERSION : Z := 2.
Definition INITIAL_RTO : Z := 1000 * ms.
Definition MIN_RTO : Z := 50 * ms.
Definition MAX_RTO : Z := 1000 * ms.
Definition HEARTBEAT_INTERVAL : Z := 3000 * ms.
Definition ACK_DELAY : Z := 100 * ms.
Definition ACTIVE_RETRY_TIMEOUT : Z := 10000 * ms.
Definition CONGESTION_TIMESTAMP_PENALTY_MS : Z := 500.
Definition SHUTDOWN_RETRIES : Z := 16.
Definition SENT_STATE_CAP : nat := 32.
Definition OCB_BLOCK_LIMIT : Z := Z.shiftl 1 47.
Definition TS_NO_REPLY : Z := 0xFFFF.
Definition RECEIVED_STATE_CAP : nat := 1024.
Definition RECEIVER_QUENCH_INTERVAL : Z := 15000 * ms.

(** [a.duration_since(b)], [saturating_duration_since] and [elapsed]: zero when
    [b] is later. *)
Definition duration_since (a b : Z) : Z := Z.max 0 (a - b).

Record ReceivedStateDiff := mkReceivedStateDiff {
  old_num : Z; new_num : Z; ack_num : Z; throwaway_num : Z; diff : bytes;
}.

Record Received := mkReceived {
  authenticated : bool; in_order : bool; state : option ReceivedStateDiff;
}.

Record OutboundState := mkOutbound {
  o_old_num : Z; o_new_num : Z; o_diff : bytes; last_sent : option Z;
}.

Record t := mk {
  to_remote : Z;
  to_local : Z;
  sent_num : Z;
  acked_by_remote : Z;
  outbound_states : list OutboundState;
  sent_state_times : list (Z * Z);
  outbound_instruction_too_large : bool;
  outbound_overflowed : bool;
  rebase_required : bool;
  pacing_enabled : bool;
  allow_immediate_new_state : bool;
  pending_data_ack : bool;
  pending_ack_since : option Z;
  local_throwaway : Z;
  received_nums : list Z;
  t_ack_num : Z;
  sent_ack_num : Z;
  t_throwaway_num : Z;
  instruction_id : Z;
  max_fragment_payload : nat;
  encrypted_blocks : Z;
  crypto_exhausted : bool;
  replay : ReplayWindow.t;
  last_send : Z;
  last_recv : Z;
  last_remote_state : Z;
  received_authenticated : bool;
  last_roundtrip_success : Z;
  last_ts : option Z;
  last_ts_at : Z;
  srtt : Z;
  rttvar : Z;
  rto : Z;
  rtt_init : bool;
  assembler : Assembler.t;
  force_send : bool;
  shutdown_in_progress : bool;
  shutdown_started : option Z;
  shutdown_tries : Z;
  counterparty_shutdown_ack_sent : bool;
  receiver_quench_until : option Z;
}.

#[export] Instance eta_transport : Eta t := fun x =>
  mk (to_remote x) (to_local x) (sent_num x) (acked_by_remote x) (outbound_states x)
     (sent_state_times x) (outbound_instruction_too_large x) (outbound_overflowed x)
     (rebase_required x) (pacing_enabled x) (allow_immediate_new_state x) (pending_data_ack x)
     (pending_ack_since x) (local_throwaway x) (received_nums x) (t_ack_num x) (sent_ack_num x)
     (t_throwaway_num x) (instruction_id x) (max_fragment_payload x) (encrypted_blocks x)
     (crypto_exhausted x) (replay x) (last_send x) (last_recv x) (last_remote_state x)
     (received_authenticated x) (last_roundtrip_success x) (last_ts x) (last_ts_at x) (srtt x)
     (rttvar x) (rto x) (rtt_init x) (assembler x) (force_send x) (shutdown_in_progress x)
     (shutdown_started x) (shutdown_tries x) (counterparty_shutdown_ack_sent x)
     (receiver_quench_until x).

Definition new (now : Z) (is_server : bool) : t :=
  let '(to_remote, to_local) :=
    if is_server then (Crypto.DIR_TO_CLIENT, Crypto.DIR_TO_SERVER)
    else (Crypto.DIR_TO_SERVER, Crypto.DIR_TO_CLIENT) in
  mk to_remote to_local 0 0 [] [(0, now)] false false false (negb is_server) true false None 0
     [0] 0 0 0 0 Fragment.MAX_FRAGMENT_PAYLOAD 0 false ReplayWindow.new now now now false now
     None now 0 0 INITIAL_RTO false Assembler.new false false None 0 false None.

(** ** The application's side of the queue *)

Definition force_next_send (s : t) : t := s <| force_send := true |>.

Definition set_pending_from (old : Z) (diff : bytes) (s : t) : t * Z :=
  if shutdown_in_progress s then (s, sent_num s)
  else
    let old :=
      if (old =? acked_by_remote s) ||
         existsb (fun st => o_new_num st =? old) (outbound_states s)
      then old else acked_by_remote s in
    let s := s <| sent_num := saturating_add_u64 (sent_num s) 1 |> in
    let s := s <| outbound_states := outbound_states s ++ [mkOutbound old (sent_num s) diff None] |> in
    let s :=
      if (SENT_STATE_CAP <? length (outbound_states s))%nat then
        let middle := (length (outbound_states s) - 16)%nat in
        s <| outbound_states := remove_at middle (outbound_states s) |> <| outbound_overflowed := true |>
      else s in
    (s, sent_num s).

Definition set_pending (diff : bytes) (s : t) : t * Z := set_pending_from (acked_by_remote s) diff s.

Definition set_pending_on (old : Z) (diff : bytes) (s : t) : t * option Z :=
  let known :=
    (old =? acked_by_remote s) ||
    existsb (fun st => (o_new_num st =? old) && bool_decide (is_Some (last_sent st))) (outbound_states s) in
  if known && negb (shutdown_in_progress s) then
    let '(s, num) := set_pending_from old diff s in (s, Some num)
  else (s, None).

(** The longest prefix of the queue sent recently enough; its last state. *)
Fixpoint recent_prefix (now maximum_age : Z) (states : list OutboundState) (candidate : option Z) : option Z :=
  match states with
  | [] => candidate
  | st :: rest =>
      match last_sent st with
      | Some sent_at =>
          if duration_since now sent_at <? maximum_age
          then recent_prefix now maximum_age rest (Some (o_new_num st)) else candidate
      | None => candidate
      end
  end.
Definition prospective_base_num (now : Z) (s : t) : option Z :=
  recent_prefix now (rto s + ACK_DELAY) (outbound_states s) None.

Definition prospective_chain_expired (now : Z) (s : t) : bool :=
  match last (outbound_states s) with
  | None => false
  | Some latest =>
      if o_old_num latest =? acked_by_remote s then false
      else match prospective_base_num now s with
      | Some freshest_prefix => freshest_prefix <? o_old_num latest
      | None => true
      end
  end.

Definition take_outbound_instruction_too_large (s : t) : t * bool :=
  (s <| outbound_instruction_too_large := false |>, outbound_instruction_too_large s).
Definition take_rebase_required (s : t) : t * bool := (s <| rebase_required := false |>, rebase_required s).

Definition set_max_fragment_payload (payload : nat) (s : t) : t :=
  s <| max_fragment_payload := Nat.max payload 1 |>
    <| outbound_states :=
         (fun st => mkOutbound (o_old_num st) (o_new_num st) (o_diff st) None) <$> outbound_states s |>
    <| force_send := true |>.

Definition srtt_sample (s : t) : option Z := if rtt_init s then Some (srtt s) else None.

(** ** Shutdown *)

Definition start_shutdown (now : Z) (s : t) : t :=
  if negb (shutdown_in_progress s) then
    s <| shutdown_in_progress := true |> <| shutdown_started := Some now |> <| force_send := true |>
  else s.
Definition shutdown_acknowledged (s : t) : bool :=
  shutdown_in_progress s && (acked_by_remote s =? u64_max).
Definition shutdown_timed_out (now : Z) (s : t) : bool :=
  shutdown_in_progress s &&
  ((SHUTDOWN_RETRIES <=? shutdown_tries s) ||
   match shutdown_started s with
   | Some started => ACTIVE_RETRY_TIMEOUT <=? duration_since now started
   | None => false
   end).

(** ** Send times *)

Definition record_sent_state_time (num sent_at : Z) (s : t) : t :=
  match position (fun p => fst p =? num) (sent_state_times s) with
  | Some i => s <| sent_state_times := <[i := (num, sent_at)]> (sent_state_times s) |>
  | None =>
      let s := s <| sent_state_times := sent_state_times s ++ [(num, sent_at)] |> in
      if (SENT_STATE_CAP <? length (sent_state_times s))%nat then
        let middle := (length (sent_state_times s) - 16)%nat in
        s <| sent_state_times := remove_at middle (sent_state_times s) |>
      else s
  end.

Definition process_roundtrip_ack (ack : Z) (s : t) : t * bool :=
  let matched := position (fun p => fst p =? ack) (sent_state_times s) in
  let s := match matched with
           | Some i => s <| sent_state_times := drop i (sent_state_times s) |>
           | None => s
           end in
  let s := match sent_state_times s with
           | (_, sent_at) :: _ => s <| last_roundtrip_success := sent_at |>
           | [] => s
           end in
  (s, bool_decide (is_Some matched)).

(** [self.srtt.as_nanos().div_ceil(2_000_000) as u64], clamped to 20..250 ms. *)
Definition send_interval (s : t) : Z :=
  let half_ms := if rtt_init s then wrap 64 ((srtt s + 1999999) / 2000000) else 250 in
  Z.min (Z.max half_ms 20) 250 * ms.

(** ** Deadlines *)

(** [deadline.map_or(at, |earliest| earliest.min(at))] *)
Definition consider (deadline : option Z) (at_ : Z) : option Z :=
  Some (match deadline with Some earliest => Z.min earliest at_ | None => at_ end).
Definition consider_if (b : bool) (deadline : option Z) (at_ : Z) : option Z :=
  if b then consider deadline at_ else deadline.

Definition unsent (st : OutboundState) : bool := bool_decide (last_sent st = None).
Definition no_states (s : t) : bool := bool_decide (outbound_states s = []).

(** When a state sent at [sent] comes due again. *)
Definition retry_at (s : t) (sent : Z) : Z :=
  let active_until := last_remote_state s + ACTIVE_RETRY_TIMEOUT in
  let active_retry := sent + rto s + ACK_DELAY in
  if active_retry <? active_until then active_retry
  else Z.max (sent + HEARTBEAT_INTERVAL) active_until.

Definition next_deadline (now : Z) (s : t) : option Z :=
  if shutdown_in_progress s then
    if shutdown_acknowledged s || shutdown_timed_out now s then None
    else
      let send := if force_send s then now else last_send s + send_interval s in
      Some (match shutdown_started s with
            | Some started => Z.min send (started + ACTIVE_RETRY_TIMEOUT)
            | None => send
            end)
  else
    let ack_changed := sent_ack_num s <? t_ack_num s in
    if force_send s || (ack_changed && (t_ack_num s =? u64_max)) then Some now
    else
      let deadline := consider_if (existsb unsent (outbound_states s)) None
        (if negb (pacing_enabled s) || allow_immediate_new_state s then now
         else last_send s + send_interval s) in
      let deadline := foldl (fun d sent => consider d (retry_at s sent)) deadline
                        (omap last_sent (outbound_states s)) in
      let deadline := consider_if (no_states s || ack_changed) deadline
                        (last_send s + HEARTBEAT_INTERVAL) in
      match pending_ack_since s with
      | Some since => consider_if (pending_data_ack s) deadline (since + ACK_DELAY)
      | None => deadline
      end.

(** ** Sending *)

(** Of the states not sent yet, only the newest is kept. *)
Definition keep_newest_unsent (s : t) : t :=
  match find unsent (rev (outbound_states s)) with
  | Some latest =>
      s <| outbound_states := filter (fun st => is_Some (last_sent st) \/ o_new_num st = o_new_num latest)
                                (outbound_states s) |>
  | None => s
  end.

(** What is due at [now]. *)
Record agenda := mkAgenda {
  unsent_index : option nat; unsent_due : bool; retransmit_index : option nat;
  heartbeat_due : bool; ack_due : bool; forced : bool; shutdown_due : bool;
}.

Definition sent_before (now after : Z) (st : OutboundState) : bool :=
  match last_sent st with Some sent => after <=? duration_since now sent | None => false end.

Definition agenda_at (now : Z) (s : t) : agenda :=
  let ack_changed := sent_ack_num s <? t_ack_num s in
  let unsent_index := position unsent (outbound_states s) in
  let unsent_due := bool_decide (is_Some unsent_index) &&
    (negb (pacing_enabled s) || allow_immediate_new_state s ||
     (send_interval s <=? duration_since now (last_send s))) in
  let retransmit_after :=
    if duration_since now (last_remote_state s) <? ACTIVE_RETRY_TIMEOUT
    then rto s + ACK_DELAY else HEARTBEAT_INTERVAL in
  let retransmit_index := rposition (sent_before now retransmit_after) (outbound_states s) in
  let heartbeat_due := no_states s && (HEARTBEAT_INTERVAL <=? duration_since now (last_send s)) in
  let delayed_ack_due := pending_data_ack s &&
    match pending_ack_since s with
    | Some since => ACK_DELAY <=? duration_since now since
    | None => false
    end in
  let periodic_ack_due := ack_changed && (HEARTBEAT_INTERVAL <=? duration_since now (last_send s)) in
  let urgent_shutdown_ack := ack_changed && (t_ack_num s =? u64_max) in
  let shutdown_due := shutdown_in_progress s && negb (shutdown_acknowledged s) &&
    negb (shutdown_timed_out now s) &&
    (force_send s || (send_interval s <=? duration_since now (last_send s))) in
  mkAgenda unsent_index unsent_due retransmit_index heartbeat_due
    (delayed_ack_due || periodic_ack_due || urgent_shutdown_ack) (force_send s) shutdown_due.

Definition tick_due (s : t) (d : agenda) : bool :=
  (unsent_due d || ack_due d || bool_decide (is_Some (retransmit_index d)) ||
   heartbeat_due d || forced d || shutdown_due d) &&
  (negb (shutdown_in_progress s) || shutdown_due d).

(** The numbers and the diff the instruction carries. *)
Definition choose_state (now : Z) (d : agenda) (s : t) : result unit (t * (Z * Z * bytes)) :=
  if shutdown_in_progress s then
    let s := s <| sent_num := u64_max |> <| shutdown_tries := Z.min (shutdown_tries s + 1) 255 |> in
    Ok (s, match last (outbound_states s) with
           | Some st => (o_old_num st, u64_max, o_diff st)
           | None => (acked_by_remote s, u64_max, [])
           end)
  else
    match option_or (if unsent_due d || ack_due d || forced d then unsent_index d else None)
                    (retransmit_index d) with
    | Some index =>
        st ← expect (outbound_states s !! index);
        let s := if unsent st then s <| allow_immediate_new_state := false |> else s in
        let s := s <| outbound_states :=
          <[index := mkOutbound (o_old_num st) (o_new_num st) (o_diff st) (Some now)]> (outbound_states s) |> in
        Ok (s, (o_old_num st, o_new_num st, o_diff st))
    | None =>
        let old := match last (outbound_states s) with
                   | Some st => o_new_num st | None => acked_by_remote s end in
        let s := s <| sent_num := saturating_add_u64 (sent_num s) 1 |> in
        Ok (s, (old, sent_num s, []))
    end.

(** [outbound_states.iter().map(|state| state.old_num).min()] *)
Definition oldest_base (states : list OutboundState) : option Z :=
  match states with
  | [] => None
  | st :: rest => Some (foldl (fun m st => Z.min m (o_old_num st)) (o_old_num st) rest)
  end.
Definition watermark (s : t) : Z :=
  match oldest_base (outbound_states s) with
  | Some oldest => Z.min (local_throwaway s) oldest
  | None => local_throwaway s
  end.

(** [mosh_timestamp_now]: the milliseconds since the process first asked, in
    sixteen bits, with the value for no reply left out. *)
Definition mosh_timestamp_now (epoch now : Z) : Z :=
  let ts := Z.land (duration_since now epoch / ms) 0xffff in
  if ts =? TS_NO_REPLY then 0 else ts.

(** Up to sixteen of the seventeen random bytes; none when the generator fails. *)
Definition chaff_from_random (random : bytes) : bytes :=
  take (Z.to_nat (b2z (nth 0 random (z2b 0)) mod 17)) (drop 1 random).
Definition make_chaff (random : option bytes) : bytes :=
  match random with Some random => chaff_from_random random | None => [] end.

Section Wire.
Context {O : Type} `{Datagrams.Cipher O} (ocb : O).
(** zlib: the compressor, and the successive reads of the decompressor, [None]
    for an error, the list's end for the end of the stream. *)
Context (compress : bytes -> bytes) (zlib_reads : bytes -> list (option bytes)).
(** The instant [mosh_timestamp_now] counts from. *)
Context (epoch : Z).

Definition timestamp_reply (now : Z) (s : t) : Z :=
  match last_ts s with
  | Some timestamp =>
      let held := duration_since now (last_ts_at s) in
      if held <? 1000 * ms then wrap 16 (timestamp + wrap 16 (held / ms)) else TS_NO_REPLY
  | None => TS_NO_REPLY
  end.

Definition encrypt_fragment (now : Z) (f : Fragment.t) (s : t) (seq : Z)
    : result unit (t * Z * option bytes) :=
  let frag_wire := Fragment.encode f in
  let plaintext_blocks := Z.of_nat (div_ceil (4 + length frag_wire) 16) in
  if OCB_BLOCK_LIMIT <=? saturating_add_u64 (encrypted_blocks s) plaintext_blocks
  then Ok (s <| crypto_exhausted := true |>, seq, None)
  else
    let s := s <| encrypted_blocks := encrypted_blocks s + plaintext_blocks |> in
    match checked_add_u64 seq 1 with
    | None => Ok (s, seq, None)
    | Some next =>
        let dir_seq := Z.lor (to_remote s) (Z.land seq Crypto.SEQ_MASK) in
        let ts := mosh_timestamp_now epoch now in
        let ts_reply := timestamp_reply now s in
        let s := s <| last_ts := None |> in
        datagram ← Datagrams.seal_datagram ocb dir_seq (Crypto.pack_timestamps ts ts_reply ++ frag_wire);
        Ok (s, next, Some datagram)
    end.

(** The datagrams of the fragments, or none of them. *)
Fixpoint encrypt_fragments (now : Z) (frags : list Fragment.t) (s : t) (seq : Z)
    : result unit (t * Z * option (list bytes)) :=
  match frags with
  | [] => Ok (s, seq, Some [])
  | f :: rest =>
      '(s, seq, datagram) ← encrypt_fragment now f s seq;
      match datagram with
      | None => Ok (s, seq, None)
      | Some datagram =>
          '(s, seq, datagrams) ← encrypt_fragments now rest s seq;
          Ok (s, seq, option_map (cons datagram) datagrams)
      end
  end.

(** The instruction [tick] sends, and the state after it was built. *)
Definition build_instruction (now : Z) (chaff : bytes) (d : agenda) (s : t)
    : result unit (t * Pb.TransportInstruction.t) :=
  let s := s <| force_send := false |> in
  '(s, (old, new, diff)) ← choose_state now d s;
  let s := s <| pending_data_ack := false |> <| pending_ack_since := None |> in
  let ti := Pb.TransportInstruction.mk PROTOCOL_VERSION old new (t_ack_num s) (watermark s) diff chaff in
  let s := if t_ack_num s =? u64_max then s <| counterparty_shutdown_ack_sent := true |> else s in
  Ok (s <| sent_ack_num := t_ack_num s |>, ti).

Definition too_large (now : Z) (s : t) : t :=
  s <| outbound_instruction_too_large := true |> <| last_send := now |>.

(** Compress, split and seal an instruction. *)
Definition transmit (now : Z) (ti : Pb.TransportInstruction.t) (s : t) (seq : Z)
    : result unit (t * Z * list bytes) :=
  let pb_data := Pb.TransportInstruction.encode ti in
  if Fragment.MAX_INSTRUCTION_BYTES <? zlen pb_data then Ok (too_large now s, seq, [])
  else
    let compressed := compress pb_data in
    let fragment_count := div_ceil (Nat.max (length compressed) 1) (max_fragment_payload s) in
    if (Fragment.MAX_INSTRUCTION_BYTES <? zlen compressed) || (0x8000 <? Z.of_nat fragment_count)
    then Ok (too_large now s, seq, [])
    else
      let s := s <| instruction_id := saturating_add_u64 (instruction_id s) 1 |> in
      let frags := Fragment.fragmentize_with_payload (instruction_id s) compressed (max_fragment_payload s) in
      '(s, seq, datagrams) ← encrypt_fragments now frags s seq;
      let datagrams := default [] datagrams in
      let s := if bool_decide (datagrams <> [])
               then record_sent_state_time (Pb.TransportInstruction.new_num ti) now s else s in
      Ok (s <| last_send := now |>, seq, datagrams).

Definition tick (now : Z) (chaff : bytes) (s : t) (seq : Z) : result unit (t * Z * list bytes) :=
  let s := keep_newest_unsent s in
  let d := agenda_at now s in
  if negb (tick_due s d) then Ok (s, seq, [])
  else
    '(s, ti) ← build_instruction now chaff d s;
    transmit now ti s seq.

(** ** Receiving *)

Definition update_rtt (now ts_reply : Z) (s : t) : t :=
  let now16 := mosh_timestamp_now epoch now in
  let rtt_ms := now16 - ts_reply in
  let rtt_ms := if rtt_ms <? 0 then rtt_ms + 65536 else rtt_ms in
  if 5000 <=? rtt_ms then s
  else
    let rtt := rtt_ms * ms in
    let s :=
      if negb (rtt_init s) then
        s <| srtt := rtt |> <| rttvar := rtt / 2 |> <| rtt_init := true |>
      else
        let delta := Z.abs (srtt s - rtt) in
        s <| rttvar := (rttvar s * 3 + delta) / 4 |> <| srtt := (srtt s * 7 + rtt) / 8 |> in
    s <| rto := Z.min (Z.max (srtt s + rttvar s * 4) MIN_RTO) MAX_RTO |>.

(** Timestamps, round trip and liveness, from an in-order datagram. *)
Definition note_timestamps (now : Z) (congestion : bool) (remote_ts ts_reply : Z) (s : t) : t :=
  let s := s <| last_recv := now |> in
  let s :=
    if negb (remote_ts =? TS_NO_REPLY) then
      s <| last_ts := Some (if congestion then wrap 16 (remote_ts - CONGESTION_TIMESTAMP_PENALTY_MS)
                            else remote_ts) |>
        <| last_ts_at := now |>
    else s in
  if negb (ts_reply =? TS_NO_REPLY) then update_rtt now ts_reply s else s.

(** The decompressor's reads joined, unless one fails or they grow too large. *)
Fixpoint decompress_loop (out : bytes) (reads : list (option bytes)) : option bytes :=
  match reads with
  | [] => Some out
  | None :: _ => None
  | Some [] :: _ => Some out
  | Some chunk :: rest =>
      if Fragment.MAX_INSTRUCTION_BYTES <? zlen out + zlen chunk then None
      else decompress_loop (out ++ chunk) rest
  end.
Definition zlib_decompress (data : bytes) : option bytes := decompress_loop [] (zlib_reads data).

(** Decrypt a datagram whose sequence number is fresh. *)
Definition open (wire : bytes) (s : t) : result unit (t * option (bool * bytes)) :=
  if ((length wire <? Crypto.MIN_DATAGRAM) || (Crypto.RECEIVE_MTU <? length wire))%nat then Ok (s, None)
  else
    let dir_seq := from_be (take 8 wire) in
    if negb (Z.land dir_seq Crypto.DIR_TO_CLIENT =? Z.land (to_local s) Crypto.DIR_TO_CLIENT)
    then Ok (s, None)
    else
      let seq := Z.land dir_seq Crypto.SEQ_MASK in
      if negb (ReplayWindow.accepted (ReplayWindow.check (replay s) seq)) then Ok (s, None)
      else
        plaintext ← Datagrams.decrypt ocb (Crypto.nonce_for dir_seq) (drop 8 wire);
        match plaintext with
        | None => Ok (s, None)
        | Some plaintext =>
            if (length plaintext <? 4)%nat then Ok (s, None)
            else
              let '(window, freshness) := ReplayWindow.commit (replay s) seq in
              Ok (s <| replay := window |>,
                  Some (bool_decide (freshness = ReplayWindow.InOrder), plaintext))
        end.

(** The peer's acknowledgement of a state it was sent. *)
Definition process_ack (ack : Z) (s : t) : t :=
  let '(s, known) := process_roundtrip_ack ack s in
  if known && (acked_by_remote s <? ack) && (ack <=? sent_num s) then
    let s := s <| acked_by_remote := ack |> <| local_throwaway := ack |> in
    let s := s <| outbound_states := filter (fun st => ack < o_new_num st) (outbound_states s) |> in
    let s := if no_states s then s <| allow_immediate_new_state := true |> else s in
    if outbound_overflowed s then
      let before := length (outbound_states s) in
      let s := s <| outbound_states := filter (fun st => ack <= o_old_num st) (outbound_states s) |> in
      s <| rebase_required := (length (outbound_states s) <? before)%nat |>
        <| outbound_overflowed := false |>
    else s
  else s.

(** The quench once the window of received states is full. *)
Definition quench (now : Z) (s : t) : option t :=
  if (RECEIVED_STATE_CAP <? length (received_nums s))%nat then
    match receiver_quench_until s with
    | Some deadline => if now <? deadline then None
                       else Some (s <| receiver_quench_until := Some (now + RECEIVER_QUENCH_INTERVAL) |>)
    | None => Some (s <| receiver_quench_until := Some (now + RECEIVER_QUENCH_INTERVAL) |>)
    end
  else Some s.

Definition acknowledge_later (now : Z) (b : bool) (s : t) : t :=
  if b then s <| pending_ack_since := option_or (pending_ack_since s) (Some now) |>
              <| pending_data_ack := true |>
  else s.

(** Take in the state an instruction carries. *)
Definition accept_state (now : Z) (ti : Pb.TransportInstruction.t) (s : t) : t * option ReceivedStateDiff :=
  let old := Pb.TransportInstruction.old_num ti in
  let new := Pb.TransportInstruction.new_num ti in
  if bool_decide (new ∈ received_nums s) then (s, None)
  else if negb (bool_decide (old ∈ received_nums s)) then (s, None)
  else
    let s :=
      if t_throwaway_num s <? Pb.TransportInstruction.throwaway_num ti then
        let mark := Pb.TransportInstruction.throwaway_num ti in
        s <| t_throwaway_num := mark |>
          <| received_nums := filter (fun n => mark <= n) (received_nums s) |>
      else s in
    match quench now s with
    | None => (s, None)
    | Some s =>
        let advances := t_ack_num s <? new in
        let s := s <| received_nums := received_nums s ++ [new] |> <| received_authenticated := true |> in
        let s := if advances then s <| t_ack_num := new |> <| last_remote_state := now |> else s in
        let s := acknowledge_later now (bool_decide (Pb.TransportInstruction.diff ti <> [])) s in
        let s := acknowledge_later now (new =? u64_max) s in
        (s, Some (mkReceivedStateDiff old new (Pb.TransportInstruction.ack_num ti) (t_throwaway_num s)
                    (Pb.TransportInstruction.diff ti)))
    end.

(** A message the assembler completed. *)
Definition accept_message (now : Z) (msg : bytes) (s : t) : result unit (t * option ReceivedStateDiff) :=
  match zlib_decompress msg with
  | None => Ok (s, None)
  | Some decompressed =>
      match Pb.TransportInstruction.decode decompressed with
      | Err _ => Ok (s, None)
      | Panic => Panic
      | Ok ti =>
          if negb (Pb.TransportInstruction.protocol_version ti =? PROTOCOL_VERSION) then Ok (s, None)
          else Ok (accept_state now ti (process_ack (Pb.TransportInstruction.ack_num ti) s))
      end
  end.

Definition accept_plaintext (now : Z) (congestion in_order : bool) (plaintext : bytes) (s : t)
    : result unit (t * option ReceivedStateDiff) :=
  let remote_ts := from_be (take 2 plaintext) in
  let ts_reply := from_be (take 2 (drop 2 plaintext)) in
  let payload := drop 4 plaintext in
  let s := if in_order then note_timestamps now congestion remote_ts ts_reply s else s in
  if (length payload <? Fragment.FRAGMENT_HEADER_SIZE)%nat then Ok (s, None)
  else
    match Fragment.decode payload with
    | Err _ => Ok (s, None)
    | Panic => Panic
    | Ok frag =>
        let '(a, msg) := Assembler.add (assembler s) frag in
        let s := s <| assembler := a |> in
        match msg with
        | None => Ok (s, None)
        | Some msg => accept_message now msg s
        end
    end.

Definition receive_with_congestion (now : Z) (congestion : bool) (wire : bytes) (s : t)
    : result unit (t * Received) :=
  '(s, opened) ← open wire s;
  match opened with
  | None => Ok (s, mkReceived false false None)
  | Some (in_order, plaintext) =>
      '(s, st) ← accept_plaintext now congestion in_order plaintext s;
      Ok (s, mkReceived true in_order st)
  end.
Definition receive (now : Z) (wire : bytes) (s : t) : result unit (t * Received) :=
  receive_with_congestion now false wire s.

End Wire.

End Transport.

(** ** Positions *)
Section Positions.
Context {A : Type} (p : A -> bool).

Lemma position_lookup l i : position p l = Some i -> exists a, l !! i = Some a /\ p a = true.
Proof.
  revert i; induction l as [|a l IH]; intros i; cbn [position]; [done|].
  destruct (p a) eqn:Hp; [intros [= <-]; by exists a|].
  intros (j & Hj & ->)%fmap_Some. by apply IH.
Qed.
Lemma rposition_lookup l i : rposition p l = Some i -> exists a, l !! i = Some a /\ p a = true.
Proof.
  revert i; induction l as [|a l IH]; intros i; cbn [rposition]; [done|].
  destruct (rposition p l) as [j|] eqn:Hr; [intros [= <-]; by apply IH|].
  destruct (p a) eqn:Hp; [intros [= <-]; by exists a | done].
Qed.
Lemma position_exists l : is_Some (position p l) <-> existsb p l = true.
Proof.
  induction l as [|a l IH]; cbn [position existsb]; [split; [by intros [] | done]|].
  destruct (p a); cbn [orb]; [split; [done | by eexists]|]. rewrite fmap_is_Some. exact IH.
Qed.
Lemma rposition_exists l : is_Some (rposition p l) <-> existsb p l = true.
Proof.
  induction l as [|a l IH]; cbn [rposition existsb]; [split; [by intros [] | done]|].
  destruct (rposition p l) as [j|] eqn:Hr.
  - destruct IH as [IH _]. rewrite IH, orb_true_r by done. split; [done | by eexists].
  - destruct (p a) eqn:Hp; cbn [orb]; [split; [done | by eexists]|]. exact IH.
Qed.
End Positions.

Lemma length_remove_at {A} i (l : list A) : (i < length l)%nat -> length (remove_at i l) = (length l - 1)%nat.
Proof. intros Hi. unfold remove_at. rewrite length_app, length_take, length_drop. lia. Qed.
Lemma Forall_remove_at {A} (P : A -> Prop) i l : Forall P l -> Forall P (remove_at i l).
Proof. intros H. unfold remove_at. apply Forall_app. split; [by apply Forall_take | by apply Forall_drop]. Qed.

(** ** The invariant of a session *)
Section Invariant.
Import Transport.

Record wf (s : t) : Prop := {
  wf_sent : 0 <= sent_num s <= u64_max;
  wf_acked : 0 <= acked_by_remote s <= sent_num s;
  wf_throwaway : local_throwaway s = acked_by_remote s;
  wf_queue : Forall (fun st => acked_by_remote s <= o_new_num st <= sent_num s) (outbound_states s);
  wf_bases : Forall (fun st => 0 <= o_old_num st <= o_new_num st) (outbound_states s);
  wf_queue_len : (length (outbound_states s) <= SENT_STATE_CAP)%nat;
  wf_times_len : (length (sent_state_times s) <= SENT_STATE_CAP)%nat;
  wf_rto : MIN_RTO <= rto s <= MAX_RTO;
  wf_srtt : 0 <= srtt s < 5000 * ms;
  wf_rttvar : 0 <= rttvar s;
  wf_received : Forall (fun n => n <= t_ack_num s) (received_nums s);
  wf_ack : 0 <= t_ack_num s;
  wf_payload : (1 <= max_fragment_payload s)%nat;
}.
End Invariant.

(** Compute the fields of an updated transport. *)
Ltac state_fields :=
  cbn [fst snd set_field Transport.to_remote Transport.to_local Transport.sent_num Transport.acked_by_remote
    Transport.outbound_states Transport.sent_state_times Transport.outbound_instruction_too_large
    Transport.outbound_overflowed Transport.rebase_required Transport.pacing_enabled
    Transport.allow_immediate_new_state Transport.pending_data_ack Transport.pending_ack_since
    Transport.local_throwaway Transport.received_nums Transport.t_ack_num Transport.sent_ack_num
    Transport.t_throwaway_num Transport.instruction_id Transport.max_fragment_payload
    Transport.encrypted_blocks Transport.crypto_exhausted Transport.replay Transport.last_send
    Transport.last_recv Transport.last_remote_state Transport.received_authenticated
    Transport.last_roundtrip_success Transport.last_ts Transport.last_ts_at Transport.srtt
    Transport.rttvar Transport.rto Transport.rtt_init Transport.assembler Transport.force_send
    Transport.shutdown_in_progress Transport.shutdown_started Transport.shutdown_tries
    Transport.counterparty_shutdown_ack_sent Transport.receiver_quench_until] in *.

(** An update that touches no field of the invariant, or the given ones. *)
Ltac keep_wf H := destruct H; constructor; state_fields; auto.

Section Preservation.
Import Transport.

Lemma new_transport_wf now b : wf (new now b).
Proof.
  unfold new. destruct b; constructor; state_fields; unfold u64_max, SENT_STATE_CAP, MIN_RTO, INITIAL_RTO, MAX_RTO, ms;
    simpl; try lia; try done; repeat constructor; try lia.
Qed.

Lemma set_pending_from_wf old d s : wf s -> wf (fst (set_pending_from old d s)).
Proof.
  intros Hwf. unfold set_pending_from. destruct (shutdown_in_progress s); [done|]. cbv zeta.
  set (old' := if _ || _ then old else acked_by_remote s).
  assert (0 <= old' <= sent_num s) as Hold.
  { destruct Hwf. unfold old'. destruct (old =? acked_by_remote s) eqn:E1; cbn [orb]; [lia|].
    destruct (existsb _ _) eqn:E2; [|lia]. apply existsb_exists in E2 as (st & Hin & Heq).
    rewrite Forall_forall in wf_queue0. specialize (wf_queue0 st (proj2 (list_elem_of_In _ _) Hin)). lia. }
  state_fields. set (n1 := saturating_add_u64 (sent_num s) 1).
  assert (Hn1 : sent_num s <= n1 <= u64_max) by (unfold n1, saturating_add_u64; destruct Hwf; lia).
  clearbody n1. set (q := outbound_states s ++ _).
  assert (Hq : Forall (fun st => acked_by_remote s <= o_new_num st <= n1) q /\
               Forall (fun st => 0 <= o_old_num st <= o_new_num st) q /\ (length q <= 33)%nat).
  { destruct Hwf. unfold q. rewrite !Forall_app, !Forall_singleton, length_app. cbn [o_new_num o_old_num length].
    unfold SENT_STATE_CAP in *. split_and!; try lia; [|done].
    apply (Forall_impl _ _ _ wf_queue0). cbv beta. intros st. lia. }
  destruct Hq as (Hq1 & Hq2 & Hq3). clearbody q.
  destruct (Nat.ltb_spec SENT_STATE_CAP (length q)) as [Hl|Hl]; destruct Hwf; constructor; state_fields; try done; try lia;
    try (by apply Forall_remove_at).
  rewrite length_remove_at; unfold SENT_STATE_CAP in *; lia.
Qed.
Lemma set_pending_on_wf old d s : wf s -> wf (fst (set_pending_on old d s)).
Proof.
  intros Hwf. unfold set_pending_on. destruct (_ && _); [|done].
  pose proof (set_pending_from_wf old d s Hwf). by destruct (set_pending_from old d s).
Qed.
Lemma force_next_send_wf s : wf s -> wf (force_next_send s).
Proof. intros H. unfold force_next_send. keep_wf H. Qed.
Lemma start_shutdown_wf now s : wf s -> wf (start_shutdown now s).
Proof. intros H. unfold start_shutdown. destruct (negb _); [|done]. keep_wf H. Qed.
Lemma take_too_large_wf s : wf s -> wf (fst (take_outbound_instruction_too_large s)).
Proof. intros H. unfold take_outbound_instruction_too_large. keep_wf H. Qed.
Lemma take_rebase_wf s : wf s -> wf (fst (take_rebase_required s)).
Proof. intros H. unfold take_rebase_required. keep_wf H. Qed.
Lemma set_max_fragment_payload_wf n s : wf s -> wf (set_max_fragment_payload n s).
Proof.
  intros H. unfold set_max_fragment_payload. keep_wf H; rewrite ?length_fmap, ?Forall_fmap; auto; lia.
Qed.

Lemma Forall_filter {A} (P Q : A -> Prop) `{forall a, Decision (Q a)} l : Forall P l -> Forall P (filter Q l).
Proof. intros Hl. apply Forall_forall. intros a [_ Ha]%list_elem_of_filter. by apply (proj1 (Forall_forall _ _) Hl). Qed.

Lemma keep_newest_unsent_wf s : wf s -> wf (keep_newest_unsent s).
Proof.
  intros H. unfold keep_newest_unsent. destruct (find _ _) as [st|]; [|done].
  keep_wf H; try by apply Forall_filter. etransitivity; [apply length_filter | done].
Qed.

Lemma record_sent_state_time_wf n at_ s : wf s -> wf (record_sent_state_time n at_ s).
Proof.
  intros H. unfold record_sent_state_time.
  destruct (position _ _) as [i|]; [keep_wf H; by rewrite length_insert|]. state_fields.
  destruct (Nat.ltb_spec SENT_STATE_CAP (length (sent_state_times s ++ [(n, at_)]))) as [Hl|Hl]; keep_wf H.
  rewrite length_remove_at; rewrite length_app in *; unfold SENT_STATE_CAP in *; simpl in *; lia.
Qed.

Lemma last_Forall {A} (P : A -> Prop) l a : Forall P l -> last l = Some a -> P a.
Proof. intros Hl Ha. apply (proj1 (Forall_forall _ _) Hl). by apply last_Some_elem_of. Qed.

Lemma choose_state_wf now d s s' x : wf s -> choose_state now d s = Ok (s', x) -> wf s'.
Proof.
  intros H. unfold choose_state. destruct (shutdown_in_progress s).
  { intros [= <- _]. destruct H; constructor; state_fields; auto; try lia.
    apply (Forall_impl _ _ _ wf_queue0). cbv beta. lia. }
  destruct (option_or _ _) as [i|].
  - destruct (outbound_states s !! i) as [st|] eqn:Est; [|done]. simpl expect. cbn [mbind result_bind].
    intros [= <- _].
    assert (forall b, wf (s <| allow_immediate_new_state := b |> <| outbound_states :=
      <[i := mkOutbound (o_old_num st) (o_new_num st) (o_diff st) (Some now)]> (outbound_states s) |>)) as Hb.
    { intros b. keep_wf H; rewrite ?length_insert; auto;
        apply Forall_insert; auto; cbn [o_new_num o_old_num];
        [by eapply (Forall_lookup_1 (fun st => _ <= o_new_num st <= _)) |
         by eapply (Forall_lookup_1 (fun st => 0 <= o_old_num st <= o_new_num st))]. }
    destruct (unsent st); [apply (Hb false)|]. pose proof (Hb (allow_immediate_new_state s)) as Hs.
    by destruct s.
  - intros [= <- _]. assert (sent_num s <= saturating_add_u64 (sent_num s) 1 <= u64_max) as Hn.
    { unfold saturating_add_u64. destruct H. lia. }
    destruct H; constructor; state_fields; auto; try lia.
    apply (Forall_impl _ _ _ wf_queue0). cbv beta. lia.
Qed.

Lemma build_instruction_wf now c d s s' ti : wf s -> build_instruction now c d s = Ok (s', ti) -> wf s'.
Proof.
  intros H. unfold build_instruction. intros Hb. invert_ok Hb; simplify_eq.
  assert (wf (s <| force_send := false |>)) as H0 by keep_wf H.
  apply choose_state_wf in Hx; [|done]. destruct (_ =? _); keep_wf Hx.
Qed.

Section WirePreservation.
Context {O : Type} `{Datagrams.Cipher O} (ocb : O) (compress : bytes -> bytes)
  (zlib_reads : bytes -> list (option bytes)) (epoch : Z).

Lemma encrypt_fragment_wf now f s n s' n' r : wf s ->
  encrypt_fragment ocb epoch now f s n = Ok (s', n', r) -> wf s'.
Proof.
  intros Hwf. unfold encrypt_fragment. destruct (_ <=? _); [intros [= <- _ _]; keep_wf Hwf|].
  destruct (checked_add_u64 n 1); [|intros [= <- _ _]; keep_wf Hwf].
  intros He. invert_ok He. keep_wf Hwf.
Qed.
Lemma encrypt_fragments_wf now fs s n s' n' r : wf s ->
  encrypt_fragments ocb epoch now fs s n = Ok (s', n', r) -> wf s'.
Proof.
  revert s n r; induction fs as [|f fs IH]; intros s n r Hwf; cbn [encrypt_fragments]; [by intros [= <- _ _]|].
  intros He. invert_ok He. simplify_eq. pose proof (encrypt_fragment_wf _ _ _ _ _ _ _ Hwf Hx) as Hw.
  destruct o as [x|]; [|by injection He as <- _ _]. invert_ok He. simplify_eq. by eapply IH.
Qed.

Lemma transmit_wf now ti s n s' n' ds : wf s ->
  transmit ocb compress epoch now ti s n = Ok (s', n', ds) -> wf s'.
Proof.
  intros Hwf. unfold transmit, too_large. destruct (_ <? _); [intros [= <- _ _]; keep_wf Hwf|].
  destruct (_ || _); [intros [= <- _ _]; keep_wf Hwf|]. intros He. invert_ok He. simplify_eq.
  apply encrypt_fragments_wf in Hx; [|keep_wf Hwf].
  destruct (bool_decide _); [|keep_wf Hx].
  pose proof (record_sent_state_time_wf (Pb.TransportInstruction.new_num ti) now _ Hx) as Hr. keep_wf Hr.
Qed.

Lemma tick_wf now c s n s' n' ds : wf s -> tick ocb compress epoch now c s n = Ok (s', n', ds) -> wf s'.
Proof.
  intros Hwf. unfold tick. apply keep_newest_unsent_wf in Hwf.
  destruct (negb _); [by intros [= <- _ _]|]. intros He. invert_ok He. simplify_eq.
  eapply transmit_wf; [|done]. by eapply build_instruction_wf.
Qed.

End WirePreservation.
End Preservation.

Section ReceivePreservation.
Import Transport.

Lemma mosh_timestamp_range epoch now : 0 <= mosh_timestamp_now epoch now < 65536.
Proof.
  unfold mosh_timestamp_now. cbv zeta. destruct (_ =? _); [lia|].
  change 0xffff with (Z.ones 16). rewrite Z.land_ones by lia. apply Z.mod_pos_bound. lia.
Qed.

Lemma update_rtt_wf epoch now r s : 0 <= r < 65536 -> wf s -> wf (update_rtt epoch now r s).
Proof.
  intros Hr Hwf. unfold update_rtt. cbv zeta. pose proof (mosh_timestamp_range epoch now) as Hn.
  set (d := if mosh_timestamp_now epoch now - r <? 0 then mosh_timestamp_now epoch now - r + 65536
            else mosh_timestamp_now epoch now - r).
  assert (0 <= d) as Hd by (unfold d; destruct (Z.ltb_spec (mosh_timestamp_now epoch now - r) 0); lia).
  clearbody d. destruct (Z.leb_spec 5000 d) as [|Hd5]; [done|].
  assert (0 <= d * ms < 5000 * ms) as Hdm by (unfold ms; lia).
  set (x := d * ms) in *. clearbody x.
  destruct (rtt_init s); cbn [negb]; destruct Hwf; constructor; state_fields; auto;
    try (unfold MIN_RTO, MAX_RTO, ms; lia).
  - split; [apply Z.div_pos; lia | apply Z.div_lt_upper_bound; lia].
  - apply Z.div_pos; lia.
  - apply Z.div_pos; lia.
Qed.

Lemma note_timestamps_wf epoch now c a r s : 0 <= r < 65536 -> wf s -> wf (note_timestamps epoch now c a r s).
Proof.
  intros Hr Hwf. unfold note_timestamps. cbv zeta.
  destruct (negb (a =? _)), (negb (r =? _)); try apply update_rtt_wf; try done; keep_wf Hwf.
Qed.

Lemma process_roundtrip_ack_wf a s : wf s -> wf (fst (process_roundtrip_ack a s)).
Proof.
  intros Hwf. unfold process_roundtrip_ack. cbn [fst].
  assert (forall i, wf (s <| sent_state_times := drop i (sent_state_times s) |>)) as Hd.
  { intros i. keep_wf Hwf. rewrite length_drop. lia. }
  set (s1 := match position _ _ with Some i => _ | None => s end).
  assert (wf s1) as H1 by (unfold s1; destruct (position _ _); [apply Hd | done]). clearbody s1.
  destruct (sent_state_times s1) as [|[n x] l]; [done | keep_wf H1].
Qed.

Lemma process_roundtrip_ack_same a s :
  let s' := fst (process_roundtrip_ack a s) in
  acked_by_remote s' = acked_by_remote s /\ sent_num s' = sent_num s /\
  outbound_states s' = outbound_states s /\ received_nums s' = received_nums s /\
  t_ack_num s' = t_ack_num s /\ t_throwaway_num s' = t_throwaway_num s.
Proof.
  cbv zeta. unfold process_roundtrip_ack. cbn [fst].
  destruct (position _ _) as [i|]; state_fields; [destruct (drop i _) as [|[??]?]|destruct (sent_state_times s) as [|[??]?]]; done.
Qed.

Lemma process_ack_wf a s : wf s -> wf (process_ack a s).
Proof.
  intros Hwf. unfold process_ack. pose proof (process_roundtrip_ack_wf a s Hwf) as H1.
  destruct (process_roundtrip_ack a s) as [s1 known]. cbn [fst] in H1.
  destruct (known && _ && _) eqn:Hb; [|done].
  apply andb_true_iff in Hb as [[_ Hgt%Z.ltb_lt]%andb_true_iff Hle%Z.leb_le].
  set (s2 := s1 <| acked_by_remote := a |> <| local_throwaway := a |>
              <| outbound_states := filter (fun st => a < o_new_num st) (outbound_states s1) |>).
  assert (wf s2) as H2.
  { unfold s2. destruct H1; constructor; state_fields; auto; try lia; try by apply Forall_filter.
    - apply Forall_forall. intros st [Ha Hst]%list_elem_of_filter.
      pose proof (proj1 (Forall_forall _ _) wf_queue0 st Hst). simpl in *. lia.
    - etransitivity; [apply length_filter | done]. }
  change (outbound_states (s1 <| acked_by_remote := a |> <| local_throwaway := a |>)) with (outbound_states s1).
  fold s2. clearbody s2. cbv zeta.
  set (s3 := if no_states s2 then _ else s2).
  assert (wf s3) as H3 by (unfold s3; destruct (no_states s2); [keep_wf H2 | done]). clearbody s3.
  destruct (outbound_overflowed s3); [|done].
  keep_wf H3; try by apply Forall_filter. etransitivity; [apply length_filter | done].
Qed.

Lemma process_ack_same a s :
  received_nums (process_ack a s) = received_nums s /\ t_ack_num (process_ack a s) = t_ack_num s /\
  t_throwaway_num (process_ack a s) = t_throwaway_num s /\ sent_num (process_ack a s) = sent_num s /\
  acked_by_remote s <= acked_by_remote (process_ack a s).
Proof.
  unfold process_ack. pose proof (process_roundtrip_ack_same a s) as H. cbv zeta in H.
  destruct (process_roundtrip_ack a s) as [s1 known]. cbn [fst] in H. destruct H as (Ha & Hs & _ & Hr & Hk & Ht).
  destruct (known && _ && _) eqn:Hb; [|rewrite Ha; split_and!; done || lia].
  apply andb_true_iff in Hb as [[_ Hgt%Z.ltb_lt]%andb_true_iff _]. cbv zeta.
  destruct (no_states _); state_fields; destruct (outbound_overflowed s1); state_fields; split_and!; done || lia.
Qed.

Lemma quench_same now s s' : quench now s = Some s' ->
  exists q, s' = s <| receiver_quench_until := q |>.
Proof.
  unfold quench. destruct (_ <? _)%nat; [|intros [= <-]; exists (receiver_quench_until s); by destruct s].
  destruct (receiver_quench_until s); [destruct (_ <? _); [done|]|]; intros [= <-]; by eexists.
Qed.

(** What taking in a state does to the receiver's numbers. *)
Definition pruned (mark : Z) (s : t) : list Z :=
  if t_throwaway_num s <? mark then filter (fun n => mark <= n) (received_nums s) else received_nums s.

Lemma accept_state_spec now ti s s' r : accept_state now ti s = (s', r) ->
  let new := Pb.TransportInstruction.new_num ti in
  let old := Pb.TransportInstruction.old_num ti in
  let mark := Pb.TransportInstruction.throwaway_num ti in
  (r = None /\ t_ack_num s' = t_ack_num s /\
   (received_nums s' = received_nums s \/ received_nums s' = pruned mark s)) \/
  (r = Some (mkReceivedStateDiff old new (Pb.TransportInstruction.ack_num ti)
               (Z.max (t_throwaway_num s) mark) (Pb.TransportInstruction.diff ti)) /\
   (new ∉ received_nums s) /\ (old ∈ received_nums s) /\
   received_nums s' = (pruned mark s ++ [new]) /\
   t_ack_num s' = Z.max (t_ack_num s) new /\ t_throwaway_num s' = Z.max (t_throwaway_num s) mark).
Proof.
  cbv zeta. unfold accept_state. cbv zeta.
  destruct (bool_decide _) eqn:Hnew; [intros [= <- <-]; left; auto|].
  destruct (negb _) eqn:Hold; [intros [= <- <-]; left; auto|].
  apply bool_decide_eq_false in Hnew. apply negb_false_iff, bool_decide_eq_true in Hold.
  set (s1 := if _ <? _ then _ else s).
  assert (received_nums s1 = pruned (Pb.TransportInstruction.throwaway_num ti) s /\
          t_ack_num s1 = t_ack_num s /\
          t_throwaway_num s1 = Z.max (t_throwaway_num s) (Pb.TransportInstruction.throwaway_num ti)) as (Hr1 & Ha1 & Ht1).
  { unfold s1, pruned. destruct (Z.ltb_spec (t_throwaway_num s) (Pb.TransportInstruction.throwaway_num ti));
      state_fields; split_and!; done || lia. }
  clearbody s1. destruct (quench now s1) as [s2|] eqn:Hq; [|intros [= <- <-]; left; auto].
  apply quench_same in Hq as [q ->]. state_fields. intros [= Hs' <-]. right.
  unfold acknowledge_later in *.
  assert (received_nums s' = received_nums s1 ++ [Pb.TransportInstruction.new_num ti] /\
          t_ack_num s' = Z.max (t_ack_num s1) (Pb.TransportInstruction.new_num ti) /\
          t_throwaway_num s' = t_throwaway_num s1) as (Hr & Ha & Ht).
  { subst s'. destruct (Z.ltb_spec (t_ack_num s1) (Pb.TransportInstruction.new_num ti)), (bool_decide _), (_ =? u64_max);
      state_fields; split_and!; done || lia. }
  rewrite Hs', Hr, Ha, Ht, Hr1, Ha1, Ht1. done.
Qed.

Lemma accept_state_wf now ti s : wf s -> wf (fst (accept_state now ti s)).
Proof.
  intros Hwf. unfold accept_state. cbv zeta. destruct (bool_decide _); [done|].
  destruct (negb _); [done|]. set (s1 := if _ <? _ then _ else s).
  assert (wf s1) as H1 by (unfold s1; destruct (_ <? _); [keep_wf Hwf; by apply Forall_filter | done]).
  clearbody s1. destruct (quench now s1) as [s2|] eqn:Hq; [|done].
  apply quench_same in Hq as [q ->]. cbn [fst]. unfold acknowledge_later.
  set (new := Pb.TransportInstruction.new_num ti).
  destruct (Z.ltb_spec (t_ack_num (s1 <| receiver_quench_until := q |>)) new) as [Hlt|Hle]; state_fields;
    destruct (bool_decide _), (new =? u64_max); state_fields;
    destruct H1; constructor; state_fields; auto; try lia;
    apply Forall_app; (split; [|by apply Forall_singleton; lia]); auto;
    apply (Forall_impl _ _ _ wf_received0); cbv beta; lia.
Qed.

End ReceivePreservation.

Section Receiving.
Import Transport.
Context {O : Type} `{Datagrams.Cipher O} (ocb : O) (compress : bytes -> bytes)
  (zlib_reads : bytes -> list (option bytes)) (epoch : Z).

(** The sequence number a datagram names. *)
Definition datagram_seq (wire : bytes) : Z := Z.land (from_be (take 8 wire)) Crypto.SEQ_MASK.

Lemma datagram_seq_fits wire : fits 64 (datagram_seq wire).
Proof using Type.
  unfold datagram_seq, fits. change Crypto.SEQ_MASK with (Z.ones 63). rewrite Z.land_ones by lia.
  pose proof (Z.mod_pos_bound (from_be (take 8 wire)) (2 ^ 63) ltac:(lia)). lia.
Qed.

Lemma open_spec wire s s' o : open ocb wire s = Ok (s', o) ->
  match o with
  | None => s' = s
  | Some (_, plaintext) =>
      ReplayWindow.accepted (ReplayWindow.check (replay s) (datagram_seq wire)) = true /\
      (4 <= length plaintext)%nat /\
      s' = s <| replay := fst (ReplayWindow.commit (replay s) (datagram_seq wire)) |>
  end.
Proof using Type.
  unfold open. cbv zeta. destruct (_ || _); [by intros [= <- <-]|].
  destruct (negb (_ =? _)); [by intros [= <- <-]|].
  destruct (negb (ReplayWindow.accepted _)) eqn:Hc; [by intros [= <- <-]|].
  intros Ho. invert_ok Ho. destruct x as [plaintext|]; [|by injection Ho as <- <-].
  destruct (Nat.ltb_spec (length plaintext) 4); [by injection Ho as <- <-|].
  unfold datagram_seq. destruct (ReplayWindow.commit _ _) as [w f]. injection Ho as <- <-.
  apply negb_false_iff in Hc. done.
Qed.

Lemma wire_u16_range (l : bytes) : 0 <= from_be (take 2 l) < 65536.
Proof using Type.
  pose proof (from_be_range (take 2 l)) as Hr. rewrite length_take in Hr.
  assert (2 ^ (8 * Z.of_nat (Nat.min 2 (length l))) <= 2 ^ 16) by (apply Z.pow_le_mono_r; lia). lia.
Qed.

Lemma accept_message_wf now msg s s' r : wf s -> accept_message zlib_reads now msg s = Ok (s', r) -> wf s'.
Proof using Type.
  intros Hwf. unfold accept_message. destruct (zlib_decompress _ _) as [d|]; [|by intros [= <- _]].
  destruct (Pb.TransportInstruction.decode d) as [ti|e|]; [|by intros [= <- _]|done].
  destruct (negb _); [by intros [= <- _]|]. intros [= Ha].
  pose proof (accept_state_wf now ti _ (process_ack_wf (Pb.TransportInstruction.ack_num ti) s Hwf)) as Hw.
  by rewrite Ha in Hw.
Qed.

Lemma accept_plaintext_wf now c b p s s' r : wf s ->
  accept_plaintext zlib_reads epoch now c b p s = Ok (s', r) -> wf s'.
Proof using Type.
  intros Hwf. unfold accept_plaintext. cbv zeta.
  set (s1 := if b then _ else s).
  assert (wf s1) as H1 by (unfold s1; destruct b; [apply note_timestamps_wf; [apply wire_u16_range | done] | done]).
  clearbody s1. destruct (_ <? _)%nat; [by intros [= <- _]|].
  destruct (Fragment.decode _) as [f|e|]; [|by intros [= <- _]|done].
  destruct (Assembler.add _ _) as [a [msg|]].
  - intros Ha. eapply accept_message_wf; [|done]. keep_wf H1.
  - intros [= <- _]. keep_wf H1.
Qed.

Lemma receive_wf now c w s s' r : wf s ->
  receive_with_congestion ocb zlib_reads epoch now c w s = Ok (s', r) -> wf s'.
Proof using Type.
  intros Hwf. unfold receive_with_congestion. intros Hr. invert_ok Hr. apply open_spec in Hx.
  destruct o as [[b p]|].
  - destruct Hx as (_ & _ & ->). invert_ok Hr. eapply accept_plaintext_wf; [|done]. keep_wf Hwf.
  - injection Hr as <- _. by subst.
Qed.

(** The fields a receiver decides by, the replay window and the assembler apart. *)
Definition receiver (s : t) :=
  (received_nums s, t_ack_num s, t_throwaway_num s, receiver_quench_until s, to_local s).

Lemma note_same now c a r s :
  replay (note_timestamps epoch now c a r s) = replay s /\
  assembler (note_timestamps epoch now c a r s) = assembler s /\
  receiver (note_timestamps epoch now c a r s) = receiver s.
Proof using Type.
  unfold note_timestamps, update_rtt, receiver. cbv zeta.
  destruct (negb (a =? _)), (negb (r =? _)); state_fields; try done;
    destruct (5000 <=? _); state_fields; try done; destruct (rtt_init s); state_fields; done.
Qed.

Lemma process_ack_replay a s : replay (process_ack a s) = replay s.
Proof using Type.
  unfold process_ack, process_roundtrip_ack. cbv zeta.
  assert (forall s0 : t, replay match sent_state_times s0 with (_, x) :: _ => s0 <| last_roundtrip_success := x |> | [] => s0 end
                  = replay s0) as Hr by (intros s0; destruct (sent_state_times s0) as [|[??]?]; done).
  set (s1 := match position _ _ with Some i => _ | None => s end).
  assert (replay s1 = replay s) as <- by (unfold s1; by destruct (position _ _)).
  rewrite <-(Hr s1). generalize (match sent_state_times s1 with (_, x) :: _ => s1 <| last_roundtrip_success := x |> | [] => s1 end).
  intros s2. destruct (_ && _ && _); [|done]. 
  destruct (no_states _); match goal with |- context [outbound_overflowed ?x] => destruct (outbound_overflowed x) end; reflexivity.
Qed.

Lemma accept_state_replay now ti s : replay (fst (accept_state now ti s)) = replay s.
Proof using Type.
  unfold accept_state. cbv zeta. destruct (bool_decide _); [done|]. destruct (negb _); [done|].
  set (s1 := if _ <? _ then _ else s).
  assert (replay s1 = replay s) as <- by (unfold s1; by destruct (_ <? _)).
  destruct (quench now s1) as [s2|] eqn:Hq; [|done]. apply quench_same in Hq as [q ->].
  unfold acknowledge_later. cbn [fst]. repeat match goal with |- context [if ?b then _ else _] => destruct b end; reflexivity.
Qed.

Lemma accept_plaintext_replay now c b p s s' r :
  accept_plaintext zlib_reads epoch now c b p s = Ok (s', r) -> replay s' = replay s.
Proof using Type.
  unfold accept_plaintext. cbv zeta. set (s1 := if b then _ else s).
  assert (replay s1 = replay s) as <- by (unfold s1; destruct b; [apply note_same | done]).
  destruct (_ <? _)%nat; [by intros [= <- _]|].
  destruct (Fragment.decode _) as [f|e|]; [|by intros [= <- _]|done].
  destruct (Assembler.add _ _) as [a [msg|]]; [|by intros [= <- _]].
  unfold accept_message. destruct (zlib_decompress _ _) as [d|]; [|by intros [= <- _]].
  destruct (Pb.TransportInstruction.decode d) as [ti|e|]; [|by intros [= <- _]|done].
  destruct (negb _); [by intros [= <- _]|]. intros [= Ha].
  apply (f_equal (fun p => replay (fst p))) in Ha. cbv beta in Ha.
  rewrite accept_state_replay, process_ack_replay in Ha. cbn [fst] in Ha. by rewrite <-Ha.
Qed.

Lemma receive_replay now c w s s' r :
  receive_with_congestion ocb zlib_reads epoch now c w s = Ok (s', r) ->
  if authenticated r
  then ReplayWindow.accepted (ReplayWindow.check (replay s) (datagram_seq w)) = true /\
       replay s' = fst (ReplayWindow.commit (replay s) (datagram_seq w))
  else s' = s /\ state r = None /\ in_order r = false.
Proof using Type.
  unfold receive_with_congestion. intros Hr. invert_ok Hr. apply open_spec in Hx.
  destruct o as [[b p]|].
  - destruct Hx as (Hc & _ & ->). invert_ok Hr. cbn [authenticated].
    match goal with Hp : accept_plaintext _ _ _ _ _ _ _ = Ok _ |- _ => apply accept_plaintext_replay in Hp as -> end.
    done.
  - injection Hr as <- <-. by subst.
Qed.

(** A session of datagrams, each with its clock reading and congestion mark. *)
Fixpoint receive_all (ws : list (Z * bool * bytes)) (s : t) : result unit (t * list Received) :=
  match ws with
  | [] => Ok (s, [])
  | (now, c, w) :: ws =>
      '(s, r) ← receive_with_congestion ocb zlib_reads epoch now c w s;
      '(s, rs) ← receive_all ws s;
      Ok (s, r :: rs)
  end.

(** The sequence numbers of the datagrams that opened. *)
Definition opened_seqs (ws : list (Z * bool * bytes)) (rs : list Received) : list Z :=
  omap (fun p => if authenticated (snd p) then Some (datagram_seq (snd (fst p))) else None) (zip ws rs).

Lemma receive_all_opened ws s s' rs hist : represents (replay s) hist -> NoDup hist ->
  receive_all ws s = Ok (s', rs) ->
  NoDup (opened_seqs ws rs) /\ Forall (fun q => q ∉ hist) (opened_seqs ws rs).
Proof using Type.
  revert s rs hist; induction ws as [|[[now c] w] ws IH]; intros s rs hist Hrep Hnd; cbn [receive_all].
  { intros [= _ <-]. split; constructor. }
  intros Hr. invert_ok Hr. apply receive_replay in Hx. unfold opened_seqs. cbn [zip zip_with omap list_omap snd fst].
  destruct (authenticated _).
  - destruct Hx as [Hacc Hrp]. set (q := datagram_seq w) in *.
    assert (fits 64 q) as Hq by apply datagram_seq_fits.
    rewrite (check_represents _ hist) in Hacc by done.
    assert (q ∉ hist) as Hnin.
    { intros Hin. unfold Spec.check in Hacc. destruct (Spec.newest hist) as [m|] eqn:Em.
      - pose proof (newest_ge hist m q Em Hin). rewrite (proj2 (Z.ltb_ge _ _)) in Hacc by lia.
        case_bool_decide; [naive_solver | done].
      - destruct hist; [by apply not_elem_of_nil in Hin | done]. }
    pose proof (commit_represents _ hist q Hrep Hq) as Hrep'. rewrite <-Hrp in Hrep'.
    unfold Spec.commit in Hrep'. rewrite Hacc in Hrep'. cbn [fst] in Hrep'.
    match goal with Hx0 : receive_all ws _ = Ok _ |- _ =>
      destruct (IH _ _ (q :: hist) Hrep' ltac:(by constructor) Hx0) as [H1 H2] end.
    split.
    + constructor; [|exact H1]. intros Hin. rewrite Forall_forall in H2. specialize (H2 q Hin). apply H2. by left.
    + constructor; [done|]. apply (Forall_impl _ _ _ H2). intros z Hz Hz'. apply Hz. by right.
  - destruct Hx as (-> & _). by eapply IH.
Qed.

End Receiving.

(** ** The deadline against the tick *)
Section Deadlines.
Import Transport.

(** The deadline is set, and no later than [x]. *)
Definition due_by (deadline : option Z) (x : Z) : Prop := exists d, deadline = Some d /\ d <= x.

Lemma consider_new d a x : a <= x -> due_by (consider d a) x.
Proof. intros Ha. unfold consider. eexists; split; [done|]. destruct d; lia. Qed.
Lemma consider_old d a x : due_by d x -> due_by (consider d a) x.
Proof. intros (e & -> & He). eexists; split; [done|]. lia. Qed.
Lemma consider_if_old b d a x : due_by d x -> due_by (consider_if b d a) x.
Proof. intros Hd. destruct b; [by apply consider_old | done]. Qed.
Lemma consider_if_new (b : bool) d a x : b = true -> a <= x -> due_by (consider_if b d a) x.
Proof. intros -> Ha. by apply consider_new. Qed.

Lemma consider_all_old {A} (f : A -> Z) l d x : due_by d x -> due_by (foldl (fun d a => consider d (f a)) d l) x.
Proof. revert d; induction l as [|a l IH]; intros d Hd; [done|]. by apply IH, consider_old. Qed.
Lemma consider_all_new {A} (f : A -> Z) l d x a : a ∈ l -> f a <= x ->
  due_by (foldl (fun d a => consider d (f a)) d l) x.
Proof.
  intros Ha Hx. revert d; induction Ha as [l|a' b l Ha IH]; intros d; cbn [foldl].
  - by apply consider_all_old, consider_new.
  - by apply IH.
Qed.

Lemma elapsed_due now a b : 0 < b -> b <= duration_since now a -> a + b <= now.
Proof. unfold duration_since. lia. Qed.
Lemma send_interval_pos s : 20 * ms <= send_interval s <= 250 * ms.
Proof. unfold send_interval, ms. cbv zeta. lia. Qed.

(** Discarding superseded states keeps what the agenda looks at. *)
Lemma kept_sent s st : st ∈ outbound_states (keep_newest_unsent s) -> st ∈ outbound_states s.
Proof.
  unfold keep_newest_unsent. destruct (find _ _); [|done]. state_fields.
  by intros [_ ?]%list_elem_of_filter.
Qed.
Lemma kept_nil s : no_states (keep_newest_unsent s) = true -> no_states s = true.
Proof.
  unfold no_states. intros H%bool_decide_eq_true. apply bool_decide_eq_true.
  revert H. unfold keep_newest_unsent. destruct (find unsent _) as [st|] eqn:Hf; [|done].
  apply find_some in Hf as [Hin _]. rewrite <-in_rev in Hin. apply list_elem_of_In in Hin.
  state_fields. intros Hnil. exfalso.
  assert (st ∈ filter (fun s0 => is_Some (last_sent s0) \/ o_new_num s0 = o_new_num st) (outbound_states s)) as Hk
    by (apply list_elem_of_filter; auto).
  rewrite Hnil in Hk. by apply not_elem_of_nil in Hk.
Qed.
Lemma kept_same s :
  let k := keep_newest_unsent s in
  shutdown_in_progress k = shutdown_in_progress s /\ shutdown_started k = shutdown_started s /\
  shutdown_tries k = shutdown_tries s /\ acked_by_remote k = acked_by_remote s /\
  force_send k = force_send s /\ last_send k = last_send s /\ sent_ack_num k = sent_ack_num s /\
  t_ack_num k = t_ack_num s /\ pacing_enabled k = pacing_enabled s /\
  allow_immediate_new_state k = allow_immediate_new_state s /\
  send_interval k = send_interval s /\ rto k = rto s /\ last_remote_state k = last_remote_state s /\
  pending_data_ack k = pending_data_ack s /\ pending_ack_since k = pending_ack_since s.
Proof. cbv zeta. unfold keep_newest_unsent, send_interval. destruct (find _ _); state_fields; split_and!; done. Qed.

Lemma timed_out_later now1 now2 s : now1 <= now2 ->
  shutdown_timed_out now2 s = false -> shutdown_timed_out now1 s = false.
Proof.
  intros Hle. unfold shutdown_timed_out. destruct (shutdown_in_progress s); [|done]. cbn [andb].
  intros [-> H]%orb_false_iff. cbn [orb]. destruct (shutdown_started s) as [x|]; [|done].
  apply Z.leb_gt in H. apply Z.leb_gt. unfold duration_since in *. lia.
Qed.

(** The deadline of a session shutting down. *)
Lemma shutdown_deadline now1 now2 s : now1 <= now2 ->
  shutdown_in_progress s = true -> shutdown_acknowledged s = false -> shutdown_timed_out now1 s = false ->
  (force_send s = true \/ send_interval s <= duration_since now2 (last_send s) \/
   shutdown_timed_out now2 s = true) ->
  due_by (next_deadline now1 s) now2.
Proof.
  intros Hle Hs Ha Ht Hdue. unfold next_deadline. rewrite Hs, Ha, Ht. cbn [orb].
  eexists; split; [done|]. pose proof (send_interval_pos s) as Hsi. unfold ms in Hsi.
  destruct Hdue as [Hf|[Hi|Hto]].
  - rewrite Hf. destruct (shutdown_started s); lia.
  - apply elapsed_due in Hi; [|lia]. destruct (force_send s), (shutdown_started s); lia.
  - unfold shutdown_timed_out in *. rewrite Hs in *. cbn [andb] in *.
    apply orb_false_iff in Ht as [Ht _]. rewrite Ht in Hto. cbn [orb] in Hto.
    destruct (shutdown_started s) as [x|]; [|done]. apply Z.leb_le, elapsed_due in Hto; [|unfold ACTIVE_RETRY_TIMEOUT, ms; lia].
    destruct (force_send s); lia.
Qed.

(** A state that comes due again was expected by then. *)
Lemma retry_due now s sent : 0 <= rto s ->
  (if duration_since now (last_remote_state s) <? ACTIVE_RETRY_TIMEOUT
   then rto s + ACK_DELAY else HEARTBEAT_INTERVAL) <= duration_since now sent ->
  retry_at s sent <= now.
Proof.
  intros Hrto. unfold retry_at. cbv zeta. unfold duration_since, ACTIVE_RETRY_TIMEOUT, HEARTBEAT_INTERVAL, ACK_DELAY, ms.
  destruct (Z.ltb_spec (Z.max 0 (now - last_remote_state s)) (10000 * 1000000));
    destruct (Z.ltb_spec (sent + rto s + 100 * 1000000) (last_remote_state s + 10000 * 1000000)); lia.
Qed.

Lemma deadline_due now1 now2 s : now1 <= now2 -> 0 <= rto s ->
  tick_due (keep_newest_unsent s) (agenda_at now2 (keep_newest_unsent s)) = true ->
  due_by (next_deadline now1 s) now2.
Proof.
  intros Hle Hrto Hdue. set (k := keep_newest_unsent s) in *.
  pose proof (kept_same s) as Hk. cbv zeta in Hk. fold k in Hk.
  destruct Hk as (E1 & E2 & E3 & E4 & E5 & E6 & E7 & E8 & E9 & E10 & E11 & E12 & E13 & E14 & E15).
  unfold tick_due in Hdue. apply andb_true_iff in Hdue as [Hany Hsd].
  assert (shutdown_acknowledged k = shutdown_acknowledged s) as Eack by (unfold shutdown_acknowledged; congruence).
  assert (forall n, shutdown_timed_out n k = shutdown_timed_out n s) as Eto
    by (intros n; unfold shutdown_timed_out; by rewrite E1, E2, E3).
  unfold agenda_at in Hany, Hsd. cbv zeta in Hany, Hsd.
  cbn [unsent_due ack_due retransmit_index heartbeat_due forced shutdown_due] in Hany, Hsd.
  rewrite ?E1, ?E5, ?E6, ?E7, ?E8, ?E9, ?E10, ?E11, ?E12, ?E13, ?E14, ?E15, ?Eack, ?Eto in *.
  destruct (shutdown_in_progress s) eqn:Hs.
  { cbn [negb orb andb] in Hsd. repeat rewrite andb_true_iff in Hsd. rewrite orb_true_iff in Hsd.
    destruct Hsd as [[Hna%negb_true_iff Hnt%negb_true_iff] Hd].
    apply (shutdown_deadline now1 now2); auto; [by apply (timed_out_later now1 now2)|].
    destruct Hd as [Hd|Hd%Z.leb_le]; auto. }
  cbn [andb] in Hany. rewrite orb_false_r in Hany. unfold next_deadline. rewrite Hs.
  destruct (force_send s) eqn:Hf; [cbn [orb]; by exists now1|]. cbn [orb].
  rewrite orb_false_r in Hany.
  destruct ((sent_ack_num s <? t_ack_num s) && (t_ack_num s =? u64_max)) eqn:Hu; [by exists now1|].
  cbv zeta. rewrite orb_false_r in Hany.
  (* what the deadline considers, in its order *)
  assert (forall d, due_by d now2 ->
    due_by match pending_ack_since s with
           | Some since => consider_if (pending_data_ack s) d (since + ACK_DELAY) | None => d end now2) as Hlast.
  { intros d Hd. destruct (pending_ack_since s); [by apply consider_if_old | done]. }
  repeat rewrite orb_true_iff in Hany. destruct Hany as [[[Hun|Hack]|Hre]|Hhb].
  - apply Hlast, consider_if_old, consider_all_old. apply andb_true_iff in Hun as [Hex Hun].
    apply bool_decide_eq_true, position_exists, existsb_exists in Hex as (st & Hin & Hst).
    apply consider_if_new.
    { apply existsb_exists. exists st. split; [|done]. by apply list_elem_of_In, kept_sent, list_elem_of_In. }
    rewrite orb_true_iff in Hun. destruct (negb (pacing_enabled s) || allow_immediate_new_state s); [done|].
    destruct Hun as [|Hun%Z.leb_le]; [done|]. pose proof (send_interval_pos s). unfold ms in *.
    apply elapsed_due; [lia | done].
  - destruct Hack as [Hd|Hp].
    + apply andb_true_iff in Hd as [Hpd Hd]. destruct (pending_ack_since s) as [x|]; [|done].
      apply consider_if_new; [done|]. apply Z.leb_le in Hd. apply elapsed_due; [unfold ACK_DELAY, ms; lia | done].
    + apply Hlast, consider_if_new; apply andb_true_iff in Hp as [Hc Hp]; [by rewrite Hc, orb_true_r|].
      apply Z.leb_le in Hp. apply elapsed_due; [unfold HEARTBEAT_INTERVAL, ms; lia | done].
  - apply Hlast, consider_if_old.
    apply bool_decide_eq_true, rposition_exists, existsb_exists in Hre as (st & Hin & Hst).
    unfold sent_before in Hst. destruct (last_sent st) as [x|] eqn:Hx; [|done]. apply Z.leb_le in Hst.
    apply (consider_all_new _ _ _ _ x); [|by apply retry_due].
    apply list_elem_of_omap. exists st. split; [|done]. by apply kept_sent, list_elem_of_In.
  - apply andb_true_iff in Hhb as [Hn Hp]. apply kept_nil in Hn.
    apply Hlast, consider_if_new; [by rewrite Hn|].
    apply Z.leb_le in Hp. apply elapsed_due; [unfold HEARTBEAT_INTERVAL, ms; lia | done].
Qed.

End Deadlines.

(** ** From one transport to the other *)
Section Instructions.
Import Transport.

Lemma oldest_base_le states m st : oldest_base states = Some m -> st ∈ states -> m <= o_old_num st.
Proof.
  destruct states as [|x l]; [done|]. cbn [oldest_base]. intros [= <-].
  assert (forall l b, foldl (fun m st => Z.min m (o_old_num st)) b l <= b /\
    (forall st, st ∈ l -> foldl (fun m st => Z.min m (o_old_num st)) b l <= o_old_num st)) as Hf.
  { clear. induction l as [|y l IH]; intros b; cbn [foldl]; [split; [lia|]; by intros ? ?%not_elem_of_nil|].
    destruct (IH (Z.min b (o_old_num y))) as [H1 H2]. split; [lia|].
    intros st [->|Hin]%elem_of_cons; [lia | by apply H2]. }
  destruct (Hf l (o_old_num x)) as [H1 H2]. intros [->|Hin]%elem_of_cons; [done | by apply H2].
Qed.
Lemma watermark_le_base s st : st ∈ outbound_states s -> watermark s <= o_old_num st.
Proof.
  intros Hin. unfold watermark. destruct (oldest_base (outbound_states s)) as [m|] eqn:Em.
  - pose proof (oldest_base_le _ _ _ Em Hin). lia.
  - destruct (outbound_states s); [by apply not_elem_of_nil in Hin | done].
Qed.
Lemma watermark_le_throwaway s : watermark s <= local_throwaway s.
Proof. unfold watermark. destruct (oldest_base _); lia. Qed.
Lemma watermark_nonneg s : wf s -> 0 <= watermark s.
Proof.
  intros Hwf. unfold watermark. destruct (oldest_base (outbound_states s)) as [m|] eqn:Em.
  - assert (0 <= m); [|destruct Hwf; lia].
    destruct (outbound_states s) as [|x l] eqn:El; [done|]. cbn [oldest_base] in Em. injection Em as <-.
    destruct Hwf. rewrite El in *. apply Forall_cons in wf_bases0 as [Hx Hl].
    assert (forall l b, 0 <= b -> Forall (fun st => 0 <= o_old_num st <= o_new_num st) l ->
      0 <= foldl (fun m st => Z.min m (o_old_num st)) b l) as Hf; [|by apply Hf; [lia|]].
    clear. induction l as [|y l IH]; intros b Hb Hl; [done|]. apply Forall_cons in Hl as [Hy Hl].
    cbn [foldl]. apply IH; [lia | done].
  - destruct Hwf; lia.
Qed.

(** The numbers of the state an instruction carries. *)
Lemma choose_state_nums now d s s' old new df : wf s -> choose_state now d s = Ok (s', (old, new, df)) ->
  watermark s' <= old /\ 0 <= old <= new /\ new <= u64_max /\ acked_by_remote s' = acked_by_remote s /\
  t_ack_num s' = t_ack_num s /\ (o_old_num <$> outbound_states s') = (o_old_num <$> outbound_states s).
Proof.
  intros Hwf. unfold choose_state. destruct (shutdown_in_progress s).
  { intros [= <- Hx]. state_fields.
    destruct (last (outbound_states s)) as [st|] eqn:El; injection Hx as <- <- <-.
    - apply last_Some_elem_of in El as Hin.
      pose proof (watermark_le_base (s <| sent_num := u64_max |>) st Hin) as Hw.
      pose proof (last_Forall _ _ _ (wf_bases _ Hwf) El) as Hb. cbv beta in Hb.
      pose proof (last_Forall _ _ _ (wf_queue _ Hwf) El) as Hq. cbv beta in Hq.
      destruct Hwf. split_and!; try lia; done.
    - pose proof (watermark_le_throwaway (s <| sent_num := u64_max |>)) as Hw. state_fields.
      destruct Hwf. unfold watermark in *. state_fields. split_and!; try lia; done. }
  destruct (option_or _ _) as [i|].
  - destruct (outbound_states s !! i) as [st|] eqn:Est; [|done]. simpl expect. cbn [mbind result_bind].
    intros [= <- <- <- <-]. set (b := unsent st).
    set (sent := mkOutbound (o_old_num st) (o_new_num st) (o_diff st) (Some now)).
    set (s1 := if b then s <| allow_immediate_new_state := false |> else s).
    assert (outbound_states s1 = outbound_states s /\ acked_by_remote s1 = acked_by_remote s /\
            t_ack_num s1 = t_ack_num s) as (H1 & H2 & H3) by (unfold s1; by destruct b).
    rewrite H1. state_fields. rewrite H2, H3.
    pose proof (watermark_le_base (s1 <| outbound_states := <[i := sent]> (outbound_states s) |>) sent) as Hw.
    state_fields. specialize (Hw ltac:(apply list_elem_of_lookup; exists i; apply list_lookup_insert_eq;
      by eapply lookup_lt_Some)).
    pose proof (Forall_lookup_1 _ _ _ _ (wf_bases _ Hwf) Est) as Hb.
    pose proof (Forall_lookup_1 _ _ _ _ (wf_queue _ Hwf) Est) as Hq. cbv beta in Hb, Hq.
    cbn [sent o_old_num] in Hw. destruct Hwf. split_and!; try lia; try done.
    rewrite list_fmap_insert. apply list_insert_id. rewrite list_lookup_fmap, Est. done.
  - intros [= <- <- <- <-]. state_fields.
    pose proof (watermark_le_throwaway (s <| sent_num := saturating_add_u64 (sent_num s) 1 |>)) as Hw. state_fields.
    assert (sent_num s <= saturating_add_u64 (sent_num s) 1 <= u64_max) as Hn
      by (unfold saturating_add_u64; destruct Hwf; lia).
    destruct (last (outbound_states s)) as [st|] eqn:El.
    + pose proof (last_Forall _ _ _ (wf_queue _ Hwf) El) as Hq. cbv beta in Hq.
      destruct Hwf. split_and!; try lia; done.
    + destruct Hwf. split_and!; try lia; done.
Qed.

Lemma build_instruction_spec now c d s s' ti : wf s -> build_instruction now c d s = Ok (s', ti) ->
  let mark := Pb.TransportInstruction.throwaway_num ti in
  mark <= Pb.TransportInstruction.old_num ti /\ mark <= acked_by_remote s' /\
  Forall (fun st => mark <= o_old_num st) (outbound_states s') /\
  Pb.TransportInstruction.ack_num ti = t_ack_num s /\
  0 <= mark /\ Pb.TransportInstruction.old_num ti <= Pb.TransportInstruction.new_num ti <= u64_max /\
  Pb.TransportInstruction.protocol_version ti = PROTOCOL_VERSION /\ Pb.TransportInstruction.chaff ti = c.
Proof.
  intros Hwf Hb. unfold build_instruction in Hb. invert_ok Hb. simplify_eq. cbv zeta.
  assert (wf (s <| force_send := false |>)) as H0 by keep_wf Hwf.
  destruct (choose_state_nums _ _ _ _ _ _ _ H0 Hx) as (Hw & Ho & Hn & Ha & Hk & Hq).
  pose proof (choose_state_wf _ _ _ _ _ H0 Hx) as H1.
  match goal with |- context [watermark (?x <| pending_data_ack := false |> <| pending_ack_since := None |>)] => set (s1 := x) in * end.
  cbn [Pb.TransportInstruction.throwaway_num Pb.TransportInstruction.old_num Pb.TransportInstruction.new_num
       Pb.TransportInstruction.ack_num Pb.TransportInstruction.protocol_version Pb.TransportInstruction.chaff].
  change (watermark (s1 <| pending_data_ack := false |> <| pending_ack_since := None |>)) with (watermark s1).
  pose proof (watermark_le_throwaway s1). pose proof (watermark_nonneg s1 H1).
  assert (forall b, outbound_states (if (b : bool) then s1 <| pending_data_ack := false |> <| pending_ack_since := None |>
      <| counterparty_shutdown_ack_sent := true |> else s1 <| pending_data_ack := false |> <| pending_ack_since := None |>)
      = outbound_states s1 /\
    acked_by_remote (if b then s1 <| pending_data_ack := false |> <| pending_ack_since := None |>
      <| counterparty_shutdown_ack_sent := true |> else s1 <| pending_data_ack := false |> <| pending_ack_since := None |>)
      = acked_by_remote s1) as Hsame by (by intros []).
  destruct (Hsame (t_ack_num s1 =? u64_max)) as [E1 E2]. state_fields. rewrite E1, E2.
  destruct H1. split_and!; try done; try lia.
  apply Forall_forall. intros st Hst. by apply watermark_le_base.
Qed.

End Instructions.

(** ** End to end *)
Section EndToEnd.
Import Transport.
Context {O : Type} `{Datagrams.Cipher O} (ok : O -> Prop) `{Hlaws : !Datagrams.CipherLaws O ok}.
Context (ocb : O) (Hocb : ok ocb) (compress : bytes -> bytes)
  (zlib_reads : bytes -> list (option bytes)) (epoch : Z).

(** A direction: the top bit of the word, or none. *)
Definition direction (d : Z) : Prop := d = Crypto.DIR_TO_CLIENT \/ d = Crypto.DIR_TO_SERVER.

(** [w] is a datagram that carries the fragment [f] under the number [q]. *)
Definition carries (dir q : Z) (f : Fragment.t) (w : bytes) : Prop :=
  exists ts body, length ts = 4%nat /\
    w = be_bytes 8 (Z.lor dir (Z.land q Crypto.SEQ_MASK)) ++ body /\
    length body = (length ts + length (Fragment.encode f) + Crypto.TAG)%nat /\
    Datagrams.decrypt ocb (Crypto.nonce_for (Z.lor dir (Z.land q Crypto.SEQ_MASK))) body =
      Ok (Some (ts ++ Fragment.encode f)).

Lemma direction_word dir q : direction dir -> 0 <= q < 2 ^ 63 ->
  let word := Z.lor dir (Z.land q Crypto.SEQ_MASK) in
  fits 64 word /\ Z.land word Crypto.SEQ_MASK = q /\ Z.land word Crypto.DIR_TO_CLIENT = Z.land dir Crypto.DIR_TO_CLIENT.
Proof using Type.
  intros Hd Hq. cbv zeta. change Crypto.SEQ_MASK with (Z.ones 63).
  assert (Z.land q (Z.ones 63) = q) as Hqm by (rewrite Z.land_ones by lia; by apply Z.mod_small).
  assert (Z.land q Crypto.DIR_TO_CLIENT = 0) as Hq0.
  { apply Z.bits_inj'. intros n Hn. rewrite Z.land_spec, Z.bits_0. unfold Crypto.DIR_TO_CLIENT.
    rewrite Z.shiftl_spec by done. destruct (Z.eq_dec n 63) as [->|Hne].
    - rewrite <-(Z.mod_small q (2 ^ 63)) by done. by rewrite Z.mod_pow2_bits_high by lia.
    - change 1 with (2 ^ 0). rewrite Z.pow2_bits_false by lia. apply andb_false_r. }
  rewrite Hqm. destruct Hd as [-> | ->].
  - assert (Z.lor Crypto.DIR_TO_CLIENT q = q + 1 * 2 ^ 63) as E
      by (unfold Crypto.DIR_TO_CLIENT; rewrite Z.lor_comm; by apply lor_shiftl_add).
    split_and!.
    + rewrite E. unfold fits. lia.
    + rewrite E, Z.land_ones, Z.mod_add by lia. by apply Z.mod_small.
    + by rewrite Z.land_lor_distr_l, Hq0, Z.lor_0_r.
  - unfold Crypto.DIR_TO_SERVER. rewrite !Z.lor_0_l. split_and!; [unfold fits; lia | done | done].
Qed.

Lemma length_encode f : length (Fragment.encode f) = (10 + length (Fragment.payload f))%nat.
Proof using Type. unfold Fragment.encode. rewrite !length_app, !length_be_bytes. lia. Qed.

Lemma encrypt_fragment_carries now f s q s' q' w :
  direction (to_remote s) -> 0 <= q < 2 ^ 63 -> (length (Fragment.payload f) <= 2010)%nat ->
  encrypt_fragment ocb epoch now f s q = Ok (s', q', Some w) ->
  carries (to_remote s) q f w /\ q' = q + 1 /\ to_remote s' = to_remote s.
Proof using Hlaws Hocb.
  intros Hd Hq Hl. unfold encrypt_fragment. destruct (_ <=? _); [done|].
  unfold checked_add_u64. destruct (_ <=? _); [|done].
  set (word := Z.lor _ _).
  set (ts := Crypto.pack_timestamps _ _). state_fields.
  destruct (direction_word (to_remote s) q Hd Hq) as (Hw & _).
  assert (length ts = 4%nat) as Hts by (unfold ts, Crypto.pack_timestamps; by rewrite length_app, !length_be_bytes).
  destruct (Datagrams.seal_opens (ok:=ok) ocb word (ts ++ Fragment.encode f) Hocb Hw) as (body & Hs & Hb & Hdec).
  { unfold text_ok, zlen. rewrite length_app, Hts, length_encode. lia. }
  rewrite Hs. cbn [mbind result_bind]. intros [= <- <- <-]. state_fields.
  split_and!; [|done|done]. exists ts, body. rewrite length_app in Hb. done.
Qed.

Lemma encrypt_fragments_carries now fs s q s' q' ws :
  direction (to_remote s) -> 0 <= q -> q + Z.of_nat (length fs) <= 2 ^ 63 ->
  Forall (fun f => length (Fragment.payload f) <= 2010)%nat fs ->
  encrypt_fragments ocb epoch now fs s q = Ok (s', q', Some ws) ->
  length ws = length fs /\ q' = q + Z.of_nat (length fs) /\
  forall i f w, fs !! i = Some f -> ws !! i = Some w -> carries (to_remote s) (q + Z.of_nat i) f w.
Proof using Hlaws Hocb.
  revert s q ws. induction fs as [|f fs IH]; intros s q ws Hd Hq Hle Hl; cbn [encrypt_fragments length].
  { intros [= <- <- <-]. split_and!; [done | lia | done]. }
  apply Forall_cons in Hl as [Hf Hl]. cbn [length] in Hle. intros He. invert_ok He. simplify_eq.
  destruct o as [w|]; [|by injection He]. invert_ok He. simplify_eq.
  destruct o as [ws'|]; [|done]. simplify_eq/=.
  apply encrypt_fragment_carries in Hx as (Hc & -> & Hdir); [|done|lia|done].
  edestruct IH as (H1 & H2 & H3); [rewrite Hdir; exact Hd | | | exact Hl | eassumption |]; [lia|lia|].
  split_and!; [by f_equal | lia |].
  intros [|i] f' w' Hfi Hwi; simplify_eq/=.
  - by rewrite Z.add_0_r.
  - rewrite Hdir in H3. replace (q + Z.of_nat (S i)) with (q + 1 + Z.of_nat i) by lia. by eapply H3.
Qed.

(** *** Receiving the datagrams of an instruction *)

Lemma receive_fragment now c w dir q f r :
  direction dir -> 0 <= q < 2 ^ 63 -> carries dir q f w ->
  Z.land (to_local r) Crypto.DIR_TO_CLIENT = Z.land dir Crypto.DIR_TO_CLIENT ->
  (length (Fragment.payload f) <= 2010)%nat -> wf_fragment f ->
  ReplayWindow.accepted (ReplayWindow.check (replay r) q) = true ->
  exists r1 b, replay r1 = fst (ReplayWindow.commit (replay r) q) /\
    assembler r1 = assembler r /\ receiver r1 = receiver r /\
    receive_with_congestion ocb zlib_reads epoch now c w r =
      (let '(a, msg) := Assembler.add (assembler r) f in
       match msg with
       | None => Ok (r1 <| assembler := a |>, mkReceived true b None)
       | Some msg =>
           '(r', st) ← accept_message zlib_reads now msg (r1 <| assembler := a |>);
           Ok (r', mkReceived true b st)
       end).
Proof using Type.
  intros Hd Hq (ts & body & Hts & -> & Hlb & Hdec) Hdir Hlen Hwf Hacc.
  destruct (direction_word dir q Hd Hq) as (Hw & Hseq & Hbit). set (word := Z.lor _ _) in *.
  pose proof (length_encode f) as Hle.
  set (b := bool_decide (snd (ReplayWindow.commit (replay r) q) = ReplayWindow.InOrder)).
  set (r0 := r <| replay := fst (ReplayWindow.commit (replay r) q) |>).
  set (r1 := if b then note_timestamps epoch now c (from_be (take 2 (ts ++ Fragment.encode f)))
                    (from_be (take 2 (drop 2 (ts ++ Fragment.encode f)))) r0 else r0).
  exists r1, b.
  assert (replay r1 = replay r0 /\ assembler r1 = assembler r0 /\ receiver r1 = receiver r0) as (H1 & H2 & H3)
    by (unfold r1; destruct b; [apply note_same | done]).
  split; [exact H1|]. split; [exact H2|]. split; [exact H3|].
  unfold receive_with_congestion, open. unfold Crypto.TAG in Hlb.
  rewrite length_app, length_be_bytes. unfold Crypto.MIN_DATAGRAM, Crypto.RECEIVE_MTU.
  rewrite (proj2 (Nat.ltb_ge _ _)), (proj2 (Nat.ltb_ge _ _)) by lia. cbn [orb]. cbv zeta.
  rewrite take_app_length', drop_app_length' by (by rewrite length_be_bytes).
  rewrite from_be_bytes. rewrite (Z.mod_small word) by exact Hw. rewrite Hbit, Hdir, Z.eqb_refl. cbn [negb].
  rewrite Hseq, Hacc. cbn [negb]. rewrite Hdec. cbn [mbind result_bind].
  rewrite (proj2 (Nat.ltb_ge _ _)) by (rewrite length_app; lia).
  unfold r1, r0, b in *. destruct (ReplayWindow.commit (replay r) q) as [win fr]. cbn [fst snd] in *.
  cbn [mbind result_bind]. unfold accept_plaintext. cbv zeta.
  rewrite (drop_app_length' ts) by (by rewrite Hts).
  match goal with |- context [if bool_decide _ then note_timestamps ?a ?b ?c ?d ?e ?f else ?g] =>
    set (rr := if bool_decide (fr = ReplayWindow.InOrder) then note_timestamps a b c d e f else g) in * end.
  unfold Fragment.FRAGMENT_HEADER_SIZE. rewrite (proj2 (Nat.ltb_ge _ _)) by lia.
  rewrite decode_encode by done. rewrite H2. change (assembler (r <| replay := win |>)) with (assembler r).
  destruct (Assembler.add (assembler r) f) as [a [msg|]]; cbn [mbind result_bind]; [|done].
  destruct (accept_message _ _ _ _) as [[? ?]|?|]; done.
Qed.

(** Numbers not opened yet, close to the newest one, are accepted. *)
Lemma newest_in hist m : Spec.newest hist = Some m -> m ∈ hist.
Proof using Type.
  destruct hist as [|x l]; [done|]. cbn [Spec.newest]. intros [= <-].
  induction l as [|y l IH]; cbn [foldr]; [by left|].
  destruct (Z.max_spec y (foldr Z.max x l)) as [[_ ->]|[_ ->]].
  - apply elem_of_cons in IH as [->|IH]; [by left | by right; right].
  - right. by left.
Qed.
Lemma fresh_accepted w hist top q : represents w hist -> Forall (fun x => x < top) hist ->
  top - ReplayWindow.REPLAY_WINDOW <= q -> fits 64 q -> q ∉ hist ->
  ReplayWindow.accepted (ReplayWindow.check w q) = true.
Proof using Type.
  intros Hrep Htop Hq Hfit Hnin. rewrite (check_represents w hist) by done. unfold Spec.check.
  destruct (Spec.newest hist) as [m|] eqn:Em; [|done].
  apply newest_in in Em. pose proof (proj1 (Forall_forall _ _) Htop m Em) as Hm. cbv beta in Hm.
  destruct (m <? q); [done|]. rewrite bool_decide_eq_true_2; [done|]. split; [lia | done].
Qed.
Lemma commit_accepted w hist q : represents w hist -> fits 64 q ->
  ReplayWindow.accepted (ReplayWindow.check w q) = true ->
  represents (fst (ReplayWindow.commit w q)) (q :: hist).
Proof using Type.
  intros Hrep Hq Hacc. pose proof (commit_represents w hist q Hrep Hq) as Hr.
  unfold Spec.commit in Hr. rewrite <-(check_represents w hist) in Hr by done. by rewrite Hacc in Hr.
Qed.

Section Pieces.
Context (dir q0 id : Z) (ps : list bytes).
Let k : Z := Z.of_nat (length ps).
Let pc (j : nat) : Fragment.t := piece id ps j.
Let num (j : nat) : Z := q0 + Z.of_nat j.
Context (Hd : direction dir) (Hq0 : 0 <= q0) (Htop : q0 + k <= 2 ^ 63) (Hk : k <= 1024) (Hid : fits 64 id).
Context (Hps : Forall (fun p => length p <= 2010)%nat ps).

Lemma piece_ok j : (j < length ps)%nat -> (length (Fragment.payload (pc j)) <= 2010)%nat /\ wf_fragment (pc j).
Proof using Hid Hk Hps.
  clear Hlaws Hocb. intros Hj. destruct (lookup_lt_is_Some_2 ps j Hj) as [p Hp]. unfold pc, piece.
  cbn [Fragment.payload]. rewrite Hp. cbn [default]. split; [by eapply (Forall_lookup_1 _ _ _ _ Hps)|].
  split; [done|]. cbn [Fragment.fragment_num]. unfold fits. lia.
Qed.

(** The session up to but without the datagram that completes the instruction:
    nothing is delivered, and the receiver keeps what it collects. *)
Lemma receive_quiet js arrivals r hist :
  Z.land (to_local r) Crypto.DIR_TO_CLIENT = Z.land dir Crypto.DIR_TO_CLIENT ->
  represents (replay r) hist -> Forall (fun x => x < q0 + k) hist -> NoDup js ->
  Forall (fun j => (j < length ps)%nat /\ num j ∉ hist) js ->
  Forall2 (fun j a => carries dir (num j) (pc j) (snd a)) js arrivals ->
  snd (Assembler.feed (assembler r) (pc <$> js)) = replicate (length js) None ->
  exists r' rs hist', receive_all ocb zlib_reads epoch arrivals r = Ok (r', rs) /\
    length rs = length js /\ Forall (fun x => authenticated x = true /\ state x = None) rs /\
    receiver r' = receiver r /\ assembler r' = fst (Assembler.feed (assembler r) (pc <$> js)) /\
    represents (replay r') hist' /\ Forall (fun x => x < q0 + k) hist' /\
    (forall x, x ∈ hist' -> x ∈ hist \/ x ∈ num <$> js).
Proof using Hd Hq0 Htop Hk Hid Hps.
  intros Hdir Hrep Hlt Hnd Hjs Hcar. revert r hist Hdir Hrep Hlt Hnd Hjs.
  induction Hcar as [|j [[now c] w] js arrivals Hc Hcar IH]; intros r hist Hdir Hrep Hlt Hnd Hjs Hfeed.
  { exists r, [], hist. split_and!; auto. }
  apply NoDup_cons in Hnd as [Hjn Hnd]. apply Forall_cons in Hjs as [[Hj Hjh] Hjs]. cbn [snd] in Hc.
  assert (fits 64 (num j)) as Hfit by (unfold fits, num, k in *; lia).
  assert (ReplayWindow.accepted (ReplayWindow.check (replay r) (num j)) = true) as Hacc.
  { apply (fresh_accepted _ hist (q0 + k)); auto. unfold ReplayWindow.REPLAY_WINDOW, num. lia. }
  destruct (piece_ok j Hj) as [Hpl Hpw].
  destruct (receive_fragment now c w dir (num j) (pc j) r) as (r1 & b & E1 & E2 & E3 & E4); auto.
  { unfold num, k in *. lia. }
  rewrite fmap_cons in Hfeed |- *. cbn [Assembler.feed] in Hfeed |- *.
  destruct (Assembler.add (assembler r) (pc j)) as [a msg] eqn:Ea.
  destruct (Assembler.feed a (pc <$> js)) as [a' os] eqn:Ef. cbn [snd fst length replicate] in Hfeed |- *.
  injection Hfeed as -> Hos.
  destruct (IH (r1 <| assembler := a |>) (num j :: hist)) as (r' & rs & hist' & F1 & F2 & F3 & F4 & F5 & F6 & F7 & F8); auto.
  - assert (to_local r1 = to_local r) as Et by (unfold receiver in E3; congruence).
    state_fields. by rewrite Et.
  - state_fields. rewrite E1. by apply commit_accepted.
  - constructor; [unfold num, k in *; lia | done].
  - apply Forall_forall. intros i Hi. pose proof (proj1 (Forall_forall _ _) Hjs i Hi) as [Hi1 Hi2].
    split; [done|]. intros [Heq|?]%elem_of_cons; [|done]. unfold num in Heq.
    assert (i = j) as -> by lia. done.
  - state_fields. by rewrite Ef.
  - exists r', (mkReceived true b None :: rs), hist'. cbn [receive_all]. rewrite E4. cbn [mbind result_bind].
    rewrite F1. cbn [mbind result_bind]. split_and!; auto.
    + simpl. by rewrite F2.
    + rewrite F4. unfold receiver in *. state_fields. exact E3.
    + rewrite F5. state_fields. by rewrite Ef.
    + intros x [Hx|Hx]%F8; [apply elem_of_cons in Hx as [->|Hx]|]; auto; right; rewrite fmap_cons; [by left | by right].
Qed.

End Pieces.

(** *** What [transmit] puts on the wire *)

Lemma encrypt_fragments_same now fs s q s' q' ws :
  encrypt_fragments ocb epoch now fs s q = Ok (s', q', Some ws) ->
  length ws = length fs /\ instruction_id s' = instruction_id s.
Proof using Type.
  revert s q ws; induction fs as [|f fs IH]; intros s q ws; cbn [encrypt_fragments]; [by intros [= <- _ <-]|].
  intros He. invert_ok He. simplify_eq. destruct o as [w|]; [|by injection He]. invert_ok He. simplify_eq.
  destruct o as [ws'|]; [|done]. simplify_eq/=.
  match goal with H1 : encrypt_fragments _ _ _ _ _ _ = Ok _ |- _ => apply IH in H1 as [-> ->] end.
  split; [done|]. unfold encrypt_fragment in Hx. destruct (_ <=? _); [done|].
  destruct (checked_add_u64 _ _); [|done]. invert_ok Hx. done.
Qed.

Lemma zlen_diff_le ti : zlen (Pb.TransportInstruction.diff ti) <= zlen (Pb.TransportInstruction.encode ti).
Proof using Type.
  unfold Pb.TransportInstruction.encode. set (d := Pb.TransportInstruction.diff ti).
  assert (zlen d <= zlen (if bool_decide (d <> []) then Pb.append_tag_bytes 6 d else [])) as Hd.
  { case_bool_decide as Hne.
    - unfold Pb.append_tag_bytes. rewrite !zlen_app.
      pose proof (zlen_nonneg (Pb.append_tag 6 Pb.WIRE_BYTES)). pose proof (zlen_nonneg (Pb.append_varint (zlen d))). lia.
    - destruct d; [done|]. by destruct Hne. }
  etransitivity; [exact Hd|]. clear Hd.
  assert (forall x y z : bytes, zlen x <= zlen y -> zlen x <= zlen (z ++ y)) as Hr
    by (intros x y z ?; rewrite zlen_app; pose proof (zlen_nonneg z); lia).
  do 5 apply Hr. rewrite zlen_app.
  match goal with |- _ <= _ + ?c => assert (0 <= c) by apply zlen_nonneg; lia end.
Qed.

Lemma transmit_spec now ti s q s' q' ds : direction (to_remote s) -> 0 <= q ->
  (1 <= max_fragment_payload s <= 2010)%nat ->
  transmit ocb compress epoch now ti s q = Ok (s', q', ds) -> ds <> [] ->
  q + zlen ds <= 2 ^ 63 ->
  exists ps, concat ps = compress (Pb.TransportInstruction.encode ti) /\
    zlen (Pb.TransportInstruction.encode ti) <= Fragment.MAX_INSTRUCTION_BYTES /\
    zlen (concat ps) <= Fragment.MAX_INSTRUCTION_BYTES /\
    Forall (fun p => length p <= 2010)%nat ps /\ length ds = length ps /\
    forall i w, ds !! i = Some w -> carries (to_remote s) (q + Z.of_nat i) (piece (instruction_id s') ps i) w.
Proof using Hlaws Hocb.
  intros Hd Hq Hmp. unfold transmit.
  destruct (Z.ltb_spec Fragment.MAX_INSTRUCTION_BYTES (zlen (Pb.TransportInstruction.encode ti))) as [|Hpb];
    [by intros [= _ _ <-]|].
  set (z := compress (Pb.TransportInstruction.encode ti)).
  destruct ((_ <? zlen z) || _) eqn:Hb; [by intros [= _ _ <-]|].
  apply orb_false_iff in Hb as [Hz%Z.ltb_ge _]. intros Ht Hne Htop. invert_ok Ht. simplify_eq.
  destruct o as [ws|]; [|done]. cbn [default] in *. unfold Datatypes.id in *.
  destruct (encrypt_fragments_same _ _ _ _ _ _ _ Hx) as [Hlen Hsid].
  set (id := saturating_add_u64 (instruction_id s) 1) in *.
  state_fields. rewrite fragmentize_pieces in Hx, Hlen. cbv zeta in Hx, Hlen.
  rewrite (Nat.max_l (max_fragment_payload s)) in Hx, Hlen by lia.
  destruct (0x8000 <? _); [by destruct ws|].
  set (ps := chunks z (max_fragment_payload s)) in *.
  assert (length ps = length (pieces id ps)) as Hpl by (unfold pieces; by rewrite length_fmap, length_seq).
  assert (Forall (fun p => length p <= 2010)%nat ps) as Hps.
  { apply Forall_forall. intros p Hp%chunks_bound. lia. }
  exists ps. split_and!; auto.
  - apply concat_chunks. lia.
  - unfold ps. rewrite concat_chunks by lia. exact Hz.
  - congruence.
  - intros i w Hw.
    assert (instruction_id (if bool_decide (ws <> [])
             then record_sent_state_time (Pb.TransportInstruction.new_num ti) now t0 else t0) = id) as ->.
    { destruct (bool_decide _); [|done]. unfold record_sent_state_time.
      destruct (position _ _); [done|]. cbv zeta. by destruct (_ <? _)%nat. }
    apply lookup_lt_Some in Hw as Hi.
    apply encrypt_fragments_carries in Hx as (_ & _ & Hc); [| done | done | |].
    + apply (Hc i); [|done]. unfold pieces. rewrite list_lookup_fmap, lookup_seq_lt by lia. done.
    + unfold zlen in Htop. rewrite <-Hlen. done.
    + apply Forall_forall. intros f (j & -> & Hj)%list_elem_of_fmap.
      apply elem_of_seq in Hj. destruct (lookup_lt_is_Some_2 ps j ltac:(lia)) as [p Hp].
      cbn [piece Fragment.payload]. rewrite Hp. by eapply (Forall_lookup_1 _ _ _ _ Hps).
Qed.

(** *** The completing datagram *)

(** zlib's contract: the compressed stream reads back, in non-empty pieces, to
    what was compressed. *)
Definition zlib_ok : Prop := forall d, exists pieces,
  zlib_reads (compress d) = Some <$> pieces /\ Forall (fun p => p <> []) pieces /\ concat pieces = d.

Lemma decompress_loop_pieces out pieces : Forall (fun p => p <> []) pieces ->
  zlen out + zlen (concat pieces) <= Fragment.MAX_INSTRUCTION_BYTES ->
  decompress_loop out (Some <$> pieces) = Some (out ++ concat pieces).
Proof using Type.
  intros Hp. revert out; induction Hp as [|p pieces Hp _ IH]; intros out Hl; [by rewrite app_nil_r|].
  rewrite fmap_cons. cbn [decompress_loop concat] in *. rewrite zlen_app in Hl.
  pose proof (zlen_nonneg (concat pieces)). destruct p as [|b p]; [done|].
  rewrite (proj2 (Z.ltb_ge _ _)) by lia. rewrite IH by (rewrite zlen_app; lia). by rewrite app_assoc.
Qed.

Lemma zlib_roundtrip d : zlib_ok -> zlen d <= Fragment.MAX_INSTRUCTION_BYTES ->
  zlib_decompress zlib_reads (compress d) = Some d.
Proof using Type.
  intros Hz Hd. destruct (Hz d) as (pieces & Hr & Hp & <-). unfold zlib_decompress. rewrite Hr.
  by rewrite decompress_loop_pieces by done.
Qed.

Lemma accept_state_accepts now ti r :
  Pb.TransportInstruction.new_num ti ∉ received_nums r ->
  Pb.TransportInstruction.old_num ti ∈ received_nums r ->
  (length (received_nums r) <= RECEIVED_STATE_CAP)%nat ->
  snd (accept_state now ti r) =
    Some (mkReceivedStateDiff (Pb.TransportInstruction.old_num ti) (Pb.TransportInstruction.new_num ti)
            (Pb.TransportInstruction.ack_num ti)
            (Z.max (t_throwaway_num r) (Pb.TransportInstruction.throwaway_num ti))
            (Pb.TransportInstruction.diff ti)).
Proof using Type.
  intros Hn Ho Hl. destruct (accept_state now ti r) as [r' o] eqn:Ha.
  destruct (accept_state_spec now ti r r' o Ha) as [(-> & _)|(-> & _)]; [|done]. exfalso.
  unfold accept_state in Ha. cbv zeta in Ha.
  rewrite bool_decide_eq_false_2, bool_decide_eq_true_2 in Ha by done. cbn [negb] in Ha.
  set (r1 := if _ <? _ then _ else r) in *.
  assert (length (received_nums r1) <= RECEIVED_STATE_CAP)%nat as H1.
  { unfold r1. destruct (_ <? _); [|done]. state_fields. etransitivity; [apply length_filter | done]. }
  clearbody r1. unfold quench in Ha. rewrite (proj2 (Nat.ltb_ge _ _)) in Ha by done. done.
Qed.

Lemma accept_message_delivers now ti r : zlib_ok ->
  zlen (Pb.TransportInstruction.encode ti) <= Fragment.MAX_INSTRUCTION_BYTES ->
  wf_instruction ti -> Pb.TransportInstruction.protocol_version ti = PROTOCOL_VERSION ->
  Pb.TransportInstruction.new_num ti ∉ received_nums r ->
  Pb.TransportInstruction.old_num ti ∈ received_nums r ->
  (length (received_nums r) <= RECEIVED_STATE_CAP)%nat ->
  exists r', accept_message zlib_reads now (compress (Pb.TransportInstruction.encode ti)) r =
    Ok (r', Some (mkReceivedStateDiff (Pb.TransportInstruction.old_num ti) (Pb.TransportInstruction.new_num ti)
            (Pb.TransportInstruction.ack_num ti)
            (Z.max (t_throwaway_num r) (Pb.TransportInstruction.throwaway_num ti))
            (Pb.TransportInstruction.diff ti))).
Proof using Type.
  intros Hz Hl Hwf Hv Hn Ho Hlen. unfold accept_message. rewrite zlib_roundtrip, transport_decode_encode by done.
  rewrite Hv. cbn [negb Z.eqb PROTOCOL_VERSION Pos.eqb].
  destruct (process_ack_same (Pb.TransportInstruction.ack_num ti) r) as (E1 & _ & E3 & _).
  set (r1 := process_ack _ r) in *.
  pose proof (accept_state_accepts now ti r1) as Ha. rewrite E1, E3 in Ha. specialize (Ha Hn Ho Hlen).
  destruct (accept_state now ti r1) as [r' o]. cbn [snd] in Ha. subst o. by exists r'.
Qed.

(** The last datagram of the arrivals completes the instruction. *)
Lemma receive_complete dir q0 id ps js last arrivals a r hist msg :
  direction dir -> 0 <= q0 -> q0 + Z.of_nat (length ps) <= 2 ^ 63 -> Z.of_nat (length ps) <= 1024 -> fits 64 id ->
  Forall (fun p => length p <= 2010)%nat ps -> concat ps = msg -> zlen msg <= Fragment.MAX_INSTRUCTION_BYTES ->
  Z.land (to_local r) Crypto.DIR_TO_CLIENT = Z.land dir Crypto.DIR_TO_CLIENT ->
  represents (replay r) hist -> Forall (fun x => x < q0) hist -> fresh_for id (assembler r) ->
  js ++ [last] ≡ₚ seq 0 (length ps) ->
  Forall2 (fun j a => carries dir (q0 + Z.of_nat j) (piece id ps j) (snd a)) (js ++ [last]) (arrivals ++ [a]) ->
  exists r1 rs1 b, receiver r1 = receiver r /\ length rs1 = length js /\
    Forall (fun x => authenticated x = true /\ state x = None) rs1 /\
    receive_all ocb zlib_reads epoch (arrivals ++ [a]) r =
      ('(r', st) ← accept_message zlib_reads (fst (fst a)) msg r1; Ok (r', rs1 ++ [mkReceived true b st])).
Proof using Type.
  intros Hd Hq0 Htop Hk Hid Hps Hcat Hmsg Hdir Hrep Hhist Hfresh Hperm Hcar.
  apply Forall2_app_inv in Hcar as [Hcar Hlast]; [|by apply Forall2_length in Hcar; rewrite !length_app in Hcar; simpl in Hcar; lia].
  apply Forall2_cons in Hlast as [Hlast _].
  assert (NoDup (js ++ [last])) as Hnd by (rewrite Hperm; apply NoDup_seq).
  apply NoDup_app in Hnd as (Hnd & Hnl & _).
  assert (forall j, j ∈ js ++ [last] -> (j < length ps)%nat) as Hlt.
  { intros j. rewrite Hperm, elem_of_seq. lia. }
  assert (last ∉ js) as Hlj by (intros Hin; apply (Hnl _ Hin); by left).
  assert (Hall : snd (Assembler.feed (assembler r) ((piece id ps <$> js) ++ [piece id ps last])) =
                 replicate (length (piece id ps <$> js)) None ++ [Some (concat ps)]).
  { apply (feed_pieces id ps); [done | rewrite <-zlen_concat; by rewrite Hcat | | | |].
    - apply Forall_forall. intros f (j & -> & Hj)%list_elem_of_fmap. apply list_elem_of_fmap_2, elem_of_seq.
      pose proof (Hlt j ltac:(apply elem_of_app; by left)). lia.
    - apply list_elem_of_fmap_2, elem_of_seq. pose proof (Hlt last ltac:(apply elem_of_app; right; by left)). lia.
    - intros (j & Hj & Hin)%list_elem_of_fmap. apply piece_inj in Hj as ->. done.
    - apply Forall_forall. intros f (j & -> & Hj)%list_elem_of_fmap. rewrite <-Hperm, elem_of_app in Hj.
      destruct Hj as [Hj| ->%list_elem_of_singleton]; [left; by apply list_elem_of_fmap_2 | by right]. }
  rewrite feed_app, length_fmap in Hall.
  apply app_inj_2 in Hall as [Hquiet Hdone]; [|simpl; by destruct (Assembler.add _ _)].
  destruct (receive_quiet dir q0 id ps Hd Hq0 Htop Hk Hid Hps js arrivals r hist)
    as (r' & rs & hist' & F1 & F2 & F3 & F4 & F5 & F6 & F7 & F8); auto.
  { apply (Forall_impl _ _ _ Hhist). cbv beta. lia. }
  { apply Forall_forall. intros j Hj. split; [apply Hlt, elem_of_app; by left|].
    intros Hin. pose proof (proj1 (Forall_forall _ _) Hhist _ Hin) as Hb. cbv beta in Hb. lia. }
  pose proof (Hlt last ltac:(apply elem_of_app; right; by left)) as Hll.
  destruct (piece_ok id ps Hk Hid Hps last Hll) as [Hpl Hpw].
  destruct a as [[now c] w]. cbn [fst snd] in *.
  assert (to_local r' = to_local r) as Etl by (unfold receiver in F4; congruence).
  destruct (receive_fragment now c w dir (q0 + Z.of_nat last) (piece id ps last) r') as (r1 & b & E1 & E2 & E3 & E4); auto.
  { lia. }
  { by rewrite Etl. }
  { apply (fresh_accepted _ hist' (q0 + Z.of_nat (length ps))); auto.
    - unfold ReplayWindow.REPLAY_WINDOW. lia.
    - unfold fits. lia.
    - intros [Hin|Hin]%F8.
      + pose proof (proj1 (Forall_forall _ _) Hhist _ Hin) as Hb. cbv beta in Hb. lia.
      + apply list_elem_of_fmap in Hin as (j & Hj & Hin). assert (j = last) as -> by lia. done. }
  exists (r1 <| assembler := fst (Assembler.add (assembler r') (piece id ps last)) |>), rs, b.
  split; [unfold receiver in *; state_fields; congruence|]. split; [done|]. split; [done|].
  assert (forall xs ys s s1 o, receive_all ocb zlib_reads epoch xs s = Ok (s1, o) ->
    receive_all ocb zlib_reads epoch (xs ++ ys) s =
    ('(s2, o2) ← receive_all ocb zlib_reads epoch ys s1; Ok (s2, o ++ o2))) as Happ.
  { clear. induction xs as [|[[n cc] x] xs IH]; intros ys s s1 o; cbn [receive_all app].
    - intros [= <- <-]. destruct (receive_all _ _ _ ys s) as [[??]|?|]; done.
    - intros Hx. invert_ok Hx. rewrite Hx0. cbn [mbind result_bind].
      match goal with Hy : receive_all _ _ _ xs _ = Ok _ |- _ => rewrite (IH ys _ _ _ Hy) end.
      destruct (receive_all _ _ _ ys _) as [[??]|?|]; done. }
  rewrite (Happ _ _ _ _ _ F1). cbn [receive_all]. rewrite E4.
  change ((fun j : nat => piece id ps j) <$> js) with (piece id ps <$> js) in F5. rewrite <-F5 in Hdone. cbn [Assembler.feed] in Hdone.
  destruct (Assembler.add (assembler r') (piece id ps last)) as [aa [m|]]; cbn [snd] in Hdone; [|done].
  injection Hdone as ->. rewrite Hcat. cbn [fst mbind result_bind].
  destruct (accept_message zlib_reads now msg (r1 <| assembler := aa |>)) as [[??]|?|]; done.
Qed.

End EndToEnd.

(** Datagrams that arrive in some order of those sent, the last one apart. *)
Section Arrivals.
Import Transport.

Lemma arrival_order (P : nat -> bytes -> Prop) (ds : list bytes) (arrivals : list (Z * bool * bytes)) :
  (forall i w, ds !! i = Some w -> P i w) -> arrivals <> [] -> snd <$> arrivals ≡ₚ ds ->
  exists js last as_ a, arrivals = as_ ++ [a] /\ js ++ [last] ≡ₚ seq 0 (length ds) /\
    Forall2 (fun j a => P j (snd a)) (js ++ [last]) (as_ ++ [a]).
Proof.
  intros HP Hne Hperm. destruct arrivals as [|a as_ _] using rev_ind; [done|]. clear Hne.
  assert (Forall2 (fun w j => P j w) ds (seq 0 (length ds))) as Hf.
  { apply Forall2_same_length_lookup_2; [by rewrite length_seq|].
    intros i w j Hw Hj. apply lookup_seq in Hj as [-> _]. by apply HP. }
  destruct (Permutation_Forall2 (Permutation_sym Hperm) Hf) as (js & Hjs & Hf2).
  apply Forall2_fmap_l in Hf2. apply Forall2_flip in Hf2.
  destruct js as [|last js _] using rev_ind.
  { apply Forall2_length in Hf2. rewrite length_app in Hf2. simpl in Hf2. lia. }
  exists js, last, as_, a. split; [done|]. split; [done|]. exact Hf2.
Qed.

Lemma make_chaff_small random : 0 <= zlen (make_chaff random) <= 16.
Proof.
  unfold make_chaff, zlen. destruct random as [l|]; [|simpl; lia]. unfold chaff_from_random.
  rewrite length_take. pose proof (Z.mod_pos_bound (b2z (nth 0 l (z2b 0))) 17 ltac:(lia)). lia.
Qed.
End Arrivals.

(** A session with one state in flight, sent a little over a second before the
    peer's silence reaches ten seconds. *)
Section Stale.
Import Transport.
Definition stale_session : t :=
  new 0 false <| sent_num := 1 |>
    <| outbound_states := [mkOutbound 0 1 [] (Some (8850 * ms))] |> <| last_send := 8850 * ms |>.
Lemma stale_session_wf : wf stale_session.
Proof.
  constructor; unfold stale_session; state_fields; try (vm_compute; split; congruence);
    try (vm_compute; lia); repeat constructor; vm_compute; congruence.
Qed.
Lemma stale_session_kept : keep_newest_unsent stale_session = stale_session.
Proof. vm_compute. reflexivity. Qed.
Lemma stale_session_idle : tick_due stale_session (agenda_at (10001 * ms) stale_session) = false.
Proof. vm_compute. reflexivity. Qed.
End Stale.

(** ** Properties *)
Section Properties.
Import Transport.
Context {O : Type} `{Datagrams.Cipher O} (ocb : O) (compress : bytes -> bytes)
  (zlib_reads : bytes -> list (option bytes)) (epoch : Z).

(** The operations a session is made of. *)
Inductive session_step (s : t) : t -> Prop :=
| step_set_pending old d : session_step s (fst (set_pending_from old d s))
| step_set_pending_on old d : session_step s (fst (set_pending_on old d s))
| step_force : session_step s (force_next_send s)
| step_payload n : session_step s (set_max_fragment_payload n s)
| step_take_too_large : session_step s (fst (take_outbound_instruction_too_large s))
| step_take_rebase : session_step s (fst (take_rebase_required s))
| step_shutdown now : session_step s (start_shutdown now s)
| step_tick now chaff q s' q' ds : tick ocb compress epoch now chaff s q = Ok (s', q', ds) -> session_step s s'
| step_receive now c w s' r : receive_with_congestion ocb zlib_reads epoch now c w s = Ok (s', r) ->
    session_step s s'.

Inductive session (s0 : t) : t -> Prop :=
| session_new : session s0 s0
| session_next s s' : session s0 s -> session_step s s' -> session s0 s'.

Lemma session_wf s0 s : wf s0 -> session s0 s -> wf s.
Proof using Type.
  intros H0 Hs. induction Hs as [|s s' _ IH Hst]; [done|]. destruct Hst.
  - by apply set_pending_from_wf.
  - by apply set_pending_on_wf.
  - by apply force_next_send_wf.
  - by apply set_max_fragment_payload_wf.
  - by apply take_too_large_wf.
  - by apply take_rebase_wf.
  - by apply start_shutdown_wf.
  - by eapply tick_wf.
  - by eapply receive_wf.
Qed.

Lemma build_instruction_same now c d s s1 ti : build_instruction now c d s = Ok (s1, ti) ->
  to_remote s1 = to_remote s /\ max_fragment_payload s1 = max_fragment_payload s.
Proof using Type.
  intros Hb. unfold build_instruction in Hb. invert_ok Hb. simplify_eq.
  assert (forall b, to_remote (if (b : bool) then t0 <| pending_data_ack := false |> <| pending_ack_since := None |>
     <| counterparty_shutdown_ack_sent := true |> else t0 <| pending_data_ack := false |> <| pending_ack_since := None |>) = to_remote t0 /\
     max_fragment_payload (if b then t0 <| pending_data_ack := false |> <| pending_ack_since := None |>
     <| counterparty_shutdown_ack_sent := true |> else t0 <| pending_data_ack := false |> <| pending_ack_since := None |>) = max_fragment_payload t0)
    as Hb by (by intros []).
  state_fields. destruct (Hb (t_ack_num t0 =? u64_max)) as [-> ->].
  unfold choose_state in Hx. destruct (shutdown_in_progress _); [by injection Hx as <- _|].
  destruct (option_or _ _) as [i|]; [|by injection Hx as <- _ _ _].
  destruct (outbound_states _ !! i) as [st|]; [|done]. simpl expect in Hx. cbn [mbind result_bind] in Hx.
  injection Hx as <- _ _ _. by destruct (unsent st).
Qed.

(** C21. The invariant of a session.  Whatever the application queues, the clock
    says and the network delivers, at most 32 states are queued and 32 send
    times kept, acknowledgements stay between zero and the newest state sent,
    every queued state lies past the acknowledged one, the retransmission
    timeout lies within 50 ms and 1 s and the frame interval within 20 and
    250 ms. *)
Theorem session_invariant (now0 : Z) (server : bool) (s : t) :
  session (new now0 server) s ->
  (length (outbound_states s) <= 32)%nat /\ (length (sent_state_times s) <= 32)%nat /\
  0 <= acked_by_remote s <= sent_num s /\ sent_num s <= u64_max /\
  Forall (fun st => acked_by_remote s <= o_new_num st <= sent_num s /\ o_old_num st <= o_new_num st)
    (outbound_states s) /\
  50 * ms <= rto s <= 1000 * ms /\ 20 * ms <= send_interval s <= 250 * ms.
Proof using Type.
  intros Hs. apply session_wf in Hs; [|apply new_transport_wf]. pose proof (send_interval_pos s). destruct Hs.
  unfold SENT_STATE_CAP, MIN_RTO, MAX_RTO in *. split_and!; try done; try lia.
  apply Forall_and. split; [done|]. apply (Forall_impl _ _ _ wf_bases0). cbv beta. lia.
Qed.

(** C18. No datagram opens twice.  In any session, from its start, the sequence
    numbers of the datagrams that were authenticated are pairwise different, so
    a captured datagram is never taken in again, however much later. *)
Theorem no_datagram_opens_twice (now0 : Z) (server : bool) (ws : list (Z * bool * bytes))
    (s : t) (rs : list Received) :
  receive_all ocb zlib_reads epoch ws (new now0 server) = Ok (s, rs) -> NoDup (opened_seqs ws rs).
Proof using Type.
  intros Hr. destruct (receive_all_opened ocb zlib_reads epoch ws (new now0 server) s rs []) as [? _]; try done.
  - assert (replay (new now0 server) = ReplayWindow.new) as -> by (unfold new; by destruct server).
    apply represents_new.
  - constructor.
Qed.

(** C39. A datagram that is not authenticated (wrong length, direction, key,
    tampered with, or replayed) changes nothing: not the replay window, not the
    round-trip estimate, not the clock a roaming server trusts. *)
Theorem rejected_datagram_changes_nothing (now : Z) (c : bool) (w : bytes) (s s' : t) (r : Received) :
  receive_with_congestion ocb zlib_reads epoch now c w s = Ok (s', r) ->
  authenticated r = false -> s' = s /\ in_order r = false /\ state r = None.
Proof using Type.
  intros Hr Ha. apply receive_replay in Hr. rewrite Ha in Hr. destruct Hr as (? & ? & ?). auto.
Qed.

(** C22. [tick] is never overdue: if calling it at a later moment does anything
    beyond dropping superseded unsent states, the deadline computed at any
    earlier moment has arrived by then. *)
Theorem deadline_never_late (now1 now2 : Z) (chaff : bytes) (s : t) (q : Z) :
  now1 <= now2 -> 0 <= rto s ->
  tick ocb compress epoch now2 chaff s q <> Ok (keep_newest_unsent s, q, []) ->
  exists d, next_deadline now1 s = Some d /\ d <= now2.
Proof using Type.
  intros Hle Hrto Ht. apply deadline_due; [done | done|]. unfold tick in Ht. cbv zeta in Ht.
  by destruct (tick_due _ _).
Qed.

(** The deadline also covers the shutdown timeout: it arrives no later than
    the moment [shutdown_timed_out] turns true. *)
Theorem deadline_covers_shutdown_timeout (now1 now2 : Z) (s : t) :
  now1 <= now2 -> shutdown_in_progress s = true -> shutdown_acknowledged s = false ->
  shutdown_timed_out now1 s = false -> shutdown_timed_out now2 s = true ->
  exists d, next_deadline now1 s = Some d /\ d <= now2.
Proof using Type. intros. apply shutdown_deadline; auto. Qed.

(** A deadline at or before now does not mean [tick] is due: a state whose
    active retry fell just before the peer's silence reached ten seconds, looked
    at just after, has its deadline in the past and nothing to send. *)
Theorem deadline_past_with_nothing_due :
  exists s now, wf s /\ (exists d, next_deadline now s = Some d /\ d < now) /\
    forall chaff q, tick ocb compress epoch now chaff s q = Ok (s, q, []).
Proof using Type.
  exists stale_session, (10001 * ms). split; [exact stale_session_wf|]. split.
  - exists (9950 * ms). split; vm_compute; reflexivity.
  - intros chaff q. unfold tick. rewrite stale_session_kept. cbv zeta. by rewrite stale_session_idle.
Qed.

(** An instruction never retires its own base: the watermark it announces
    is at most the base of the state it carries, at most the acknowledged state,
    and at most the base of every state still queued; and its state lies at or
    past its base. *)
Theorem instruction_keeps_bases (now : Z) (chaff : bytes) (s s' : t) (ti : Pb.TransportInstruction.t) :
  wf s -> build_instruction now chaff (agenda_at now s) s = Ok (s', ti) ->
  let mark := Pb.TransportInstruction.throwaway_num ti in
  mark <= Pb.TransportInstruction.old_num ti <= Pb.TransportInstruction.new_num ti /\
  mark <= acked_by_remote s' /\ Forall (fun st => mark <= o_old_num st) (outbound_states s') /\
  Pb.TransportInstruction.ack_num ti = t_ack_num s.
Proof using Type.
  intros Hwf Hb. destruct (build_instruction_spec _ _ _ _ _ _ Hwf Hb) as (? & ? & ? & ? & ? & ? & _).
  cbv zeta. split_and!; try done; lia.
Qed.

(** Taking in a state: it is reported only when its base is held and its
    number is new; then the number is held, the acknowledgement becomes the
    greatest number seen and the watermark never falls.  Otherwise the
    acknowledgement stays and no number is added. *)
Theorem accepted_state_contract (now : Z) (ti : Pb.TransportInstruction.t) (s : t) :
  let new := Pb.TransportInstruction.new_num ti in
  let s' := fst (accept_state now ti s) in
  match snd (accept_state now ti s) with
  | Some d =>
      new_num d = new /\ old_num d = Pb.TransportInstruction.old_num ti /\
      diff d = Pb.TransportInstruction.diff ti /\
      (new ∉ received_nums s) /\ (old_num d ∈ received_nums s) /\ (new ∈ received_nums s') /\
      t_ack_num s' = Z.max (t_ack_num s) new /\
      t_throwaway_num s <= t_throwaway_num s' /\ throwaway_num d = t_throwaway_num s'
  | None => t_ack_num s' = t_ack_num s /\ received_nums s' ⊆ received_nums s
  end.
Proof using Type.
  cbv zeta. destruct (accept_state now ti s) as [s' o] eqn:Ha. cbn [fst snd].
  destruct (accept_state_spec now ti s s' o Ha) as [(-> & Hk & Hr)|(-> & Hn & Ho & Hr & Hk & Ht)].
  - split; [done|]. destruct Hr as [-> | ->]; [done|]. unfold pruned. destruct (_ <? _); [|done].
    intros n [_ ?]%list_elem_of_filter. done.
  - cbn [new_num old_num diff throwaway_num]. rewrite Hr, Hk, Ht. split_and!; try done; try lia.
    apply elem_of_app. right. by left.
Qed.

(** C1. End to end.  The datagrams one [tick] sends, delivered in any order to
    a peer whose replay window has not reached them, whose assembler is not on
    the same instruction, and which holds the base and not the state, make the
    peer report exactly one state: the base, number, acknowledgement, watermark
    and diff of the instruction the tick built.  Every datagram authenticates. *)
Theorem tick_reaches_peer (ok : O -> Prop) (s s' r : t) (now : Z) (random : option bytes) (q q' : Z)
    (ds : list bytes) (arrivals : list (Z * bool * bytes)) (hist : list Z) :
  Datagrams.CipherLaws O ok -> ok ocb -> zlib_ok compress zlib_reads ->
  wf s -> direction (to_remote s) -> (max_fragment_payload s <= 2010)%nat ->
  fits 64 (t_ack_num s) -> fits 64 (instruction_id s') ->
  0 <= q -> q + zlen ds <= 2 ^ 63 -> zlen ds <= 1024 ->
  tick ocb compress epoch now (make_chaff random) s q = Ok (s', q', ds) -> ds <> [] ->
  Z.land (to_local r) Crypto.DIR_TO_CLIENT = Z.land (to_remote s) Crypto.DIR_TO_CLIENT ->
  represents (replay r) hist -> Forall (fun x => x < q) hist ->
  fresh_for (instruction_id s') (assembler r) ->
  (length (received_nums r) <= RECEIVED_STATE_CAP)%nat ->
  snd <$> arrivals ≡ₚ ds ->
  exists s1 ti,
    build_instruction now (make_chaff random) (agenda_at now (keep_newest_unsent s)) (keep_newest_unsent s)
      = Ok (s1, ti) /\
    (Pb.TransportInstruction.new_num ti ∉ received_nums r ->
     Pb.TransportInstruction.old_num ti ∈ received_nums r ->
     exists r' rs, receive_all ocb zlib_reads epoch arrivals r = Ok (r', rs) /\
       omap state rs =
         [mkReceivedStateDiff (Pb.TransportInstruction.old_num ti) (Pb.TransportInstruction.new_num ti)
            (Pb.TransportInstruction.ack_num ti)
            (Z.max (t_throwaway_num r) (Pb.TransportInstruction.throwaway_num ti))
            (Pb.TransportInstruction.diff ti)] /\
       Forall (fun x => authenticated x = true) rs).
Proof using Type.
  intros Hlaws Hok Hz Hwf Hd Hmp Hack Hid Hq Htop Hk Ht Hne Hdir Hrep Hhist Hfresh Hcap Hperm.
  unfold tick in Ht. cbv zeta in Ht. destruct (negb _); [by injection Ht as _ _ <-|].
  destruct (build_instruction _ _ _ _) as [[s1 ti]|?|] eqn:Hbi; [|done|done]. cbn [mbind result_bind] in Ht.
  exists s1, ti. split; [done|]. intros Hnew Hold.
  pose proof (keep_newest_unsent_wf s Hwf) as Hkw.
  destruct (build_instruction_spec _ _ _ _ _ _ Hkw Hbi) as (Hm1 & Hm2 & _ & Hak & Hm0 & Hnn & Hv & Hch).
  destruct (build_instruction_same _ _ _ _ _ _ Hbi) as [Et Ep].
  assert (to_remote (keep_newest_unsent s) = to_remote s /\
          max_fragment_payload (keep_newest_unsent s) = max_fragment_payload s /\
          t_ack_num (keep_newest_unsent s) = t_ack_num s) as (Kt & Kp & Ka)
    by (unfold keep_newest_unsent; by destruct (find _ _)).
  rewrite Kt in Et. rewrite Kp in Ep. rewrite Ka in Hak.
  destruct (transmit_spec ok ocb Hok compress epoch now ti s1 q s' q' ds) as (ps & Hcat & Hpb & Hz' & Hps & Hlen & Hcar);
    auto.
  { by rewrite Et. }
  { rewrite Ep. destruct Hwf. lia. }
  rewrite Et in Hcar. unfold zlen in Hk, Htop. rewrite Hlen in *.
  (* the order of arrival is an order of the pieces *)
  destruct (arrival_order (fun j w => carries ocb (to_remote s) (q + Z.of_nat j) (piece (instruction_id s') ps j) w)
              ds arrivals) as (js & last & as_ & a & -> & Hjs & Hf2); auto.
  { intros ->. apply Hne. by apply Permutation_nil_l in Hperm. }
  rewrite Hlen in Hjs.
  destruct (receive_complete ocb zlib_reads epoch (to_remote s) q (instruction_id s') ps js last as_ a r hist
    (compress (Pb.TransportInstruction.encode ti))) as (r1 & rs1 & b & F1 & F2 & F3 & F4); auto.
  { by rewrite <-Hcat. }
  assert (received_nums r1 = received_nums r /\ t_throwaway_num r1 = t_throwaway_num r) as [Er Eth]
    by (unfold receiver in F1; split; congruence).
  destruct (accept_message_delivers compress zlib_reads (fst (fst a)) ti r1) as (r' & Hacc); auto.
  - pose proof (zlen_diff_le ti). unfold Fragment.MAX_INSTRUCTION_BYTES in Hpb. unfold wf_instruction, fits in *.
    rewrite Hv, Hak, Hch. pose proof (make_chaff_small random). unfold u64_max, PROTOCOL_VERSION in *. split_and!; lia.
  - by rewrite Er.
  - by rewrite Er.
  - by rewrite Er.
  - exists r', (rs1 ++ [mkReceived true b (Some (mkReceivedStateDiff (Pb.TransportInstruction.old_num ti)
      (Pb.TransportInstruction.new_num ti) (Pb.TransportInstruction.ack_num ti)
      (Z.max (t_throwaway_num r1) (Pb.TransportInstruction.throwaway_num ti)) (Pb.TransportInstruction.diff ti)))]).
    rewrite F4, Hacc. cbn [mbind result_bind]. split; [done|]. rewrite omap_app. split.
    + assert (omap state rs1 = []) as ->; [|cbn [omap list_omap state app]; by rewrite Eth].
      clear -F3. induction F3 as [|x l [_ Hx] _ IH]; [done|]. cbn [omap list_omap]. by rewrite Hx.
    + apply Forall_app. split; [|by repeat constructor]. apply (Forall_impl _ _ _ F3). by intros x [? _].
Qed.

End Properties.

(** ** Concrete sessions *)
Section Demo.
Import Transport.

(** A cipher that only adds sixteen zero bytes, and no compression. *)
#[local] Instance null_cipher : Datagrams.Cipher unit := {|
  Datagrams.seal_datagram _ d p := Ok (be_bytes 8 d ++ p ++ replicate 16 (z2b 0));
  Datagrams.decrypt _ _ c :=
    Ok (if (length c <? 16)%nat then None else Some (take (length c - 16) c));
|}.
#[local] Instance null_cipher_laws : Datagrams.CipherLaws unit (fun _ => True).
Proof.
  intros o d p _ _ _. exists (p ++ replicate 16 (z2b 0)). cbn [Datagrams.seal_datagram Datagrams.decrypt null_cipher].
  rewrite length_app, length_replicate. split; [done|]. split; [done|].
  rewrite (proj2 (Nat.ltb_ge _ _)) by lia. do 2 f_equal.
  replace (length p + 16 - 16)%nat with (length p) by lia. apply take_app_length.
Qed.
Definition stored (d : bytes) : list (option bytes) := match d with [] => [] | _ => [Some d] end.
Lemma stored_ok : zlib_ok (fun d => d) stored.
Proof.
  intros [|b d]; [by exists []|]. exists [b :: d]. simpl. rewrite app_nil_r.
  split; [done|]. split; [by repeat constructor | done].
Qed.

(** A client with two keys to send, the datagrams of its tick, and a server. *)
Definition demo_client : t := fst (set_pending [z2b 104; z2b 105] (new 0 false)).
Definition demo_server : t := new 0 true.
Definition demo_tick : result unit (t * Z * list bytes) :=
  tick tt (fun d => d) 0 (5 * ms) (make_chaff None) demo_client 7.
Definition demo_after : t := match demo_tick with Ok (s, _, _) => s | _ => demo_client end.
Definition demo_datagrams : list bytes := match demo_tick with Ok (_, _, ds) => ds | _ => [] end.
Lemma demo_tick_ok :
  tick tt (fun d => d) 0 (5 * ms) (make_chaff None) demo_client 7 = Ok (demo_after, 8, demo_datagrams).
Proof. vm_compute. reflexivity. Qed.
Lemma demo_client_wf : wf demo_client.
Proof. apply set_pending_from_wf, new_transport_wf. Qed.

Lemma session_invariant_witness :
  (length (outbound_states (force_next_send demo_client)) <= 32)%nat.
Proof.
  apply (session_invariant tt (fun d => d) stored 0 0 false (force_next_send demo_client)).
  apply session_next with (s := demo_client); [|constructor].
  apply session_next with (s := new 0 false); [constructor|]. apply (step_set_pending tt (fun d => d) stored 0).
Defined.

Lemma no_datagram_opens_twice_witness :
  let ws := (fun w => (6 * ms, false, w)) <$> (demo_datagrams ++ demo_datagrams) in
  exists s rs, receive_all tt stored 0 ws demo_server = Ok (s, rs) /\
    opened_seqs ws rs = [7] /\ NoDup (opened_seqs ws rs).
Proof.
  cbv zeta.
  set (ws := (fun w => (6 * ms, false, w)) <$> (demo_datagrams ++ demo_datagrams)).
  set (res := receive_all tt stored 0 ws demo_server).
  assert (exists s rs, res = Ok (s, rs) /\ opened_seqs ws rs = [7]) as (s & rs & Hr & Ho).
  { exists (match res with Ok (s, _) => s | _ => demo_server end), (match res with Ok (_, rs) => rs | _ => [] end).
    split; vm_compute; reflexivity. }
  exists s, rs. split; [exact Hr|]. split; [exact Ho|].
  apply (no_datagram_opens_twice tt stored 0 0 true ws s rs). exact Hr.
Defined.

Lemma rejected_datagram_changes_nothing_witness :
  exists s' r, receive_with_congestion tt stored 0 0 false [z2b 1] demo_server = Ok (s', r) /\ s' = demo_server.
Proof.
  exists demo_server, (mkReceived false false None). split; [vm_compute; reflexivity|].
  apply (rejected_datagram_changes_nothing tt stored 0 0 false [z2b 1] demo_server demo_server
           (mkReceived false false None)); [vm_compute; reflexivity | reflexivity].
Defined.

Lemma demo_tick_acts :
  tick tt (fun d => d) 0 (5 * ms) (make_chaff None) demo_client 7 <> Ok (keep_newest_unsent demo_client, 7, []).
Proof.
  intros Heq. pose proof demo_tick_ok as Hd. rewrite Heq in Hd.
  assert (forall (s s' : t) (a b : Z) (x y : list bytes), Ok (s, a, x) = @Ok unit _ (s', b, y) -> a = b) as Hinj
    by (intros; congruence).
  apply Hinj in Hd. discriminate Hd.
Qed.

Lemma deadline_never_late_witness :
  exists d, next_deadline 0 demo_client = Some d /\ d <= 5 * ms.
Proof.
  apply (deadline_never_late tt (fun d => d) 0 0 (5 * ms) (make_chaff None) demo_client 7).
  - unfold ms. lia.
  - apply Z.leb_le. vm_compute. reflexivity.
  - exact demo_tick_acts.
Defined.

Lemma deadline_covers_shutdown_timeout_witness :
  exists d, next_deadline 0 (start_shutdown 0 demo_client) = Some d /\ d <= 10000 * ms.
Proof.
  apply deadline_covers_shutdown_timeout; [unfold ms; lia | vm_compute; reflexivity..].
Defined.

Lemma instruction_keeps_bases_witness :
  exists s1 ti, build_instruction (5 * ms) [] (agenda_at (5 * ms) demo_client) demo_client = Ok (s1, ti) /\
    Pb.TransportInstruction.throwaway_num ti <= Pb.TransportInstruction.old_num ti.
Proof.
  set (res := build_instruction (5 * ms) [] (agenda_at (5 * ms) demo_client) demo_client).
  assert (exists s1 ti, res = Ok (s1, ti)) as (s1 & ti & Hr).
  { exists (match res with Ok (s1, _) => s1 | _ => demo_client end),
      (match res with Ok (_, ti) => ti | _ => Pb.TransportInstruction.default_ end).
    vm_compute. reflexivity. }
  exists s1, ti. split; [exact Hr|].
  apply (instruction_keeps_bases (5 * ms) [] demo_client s1 ti demo_client_wf Hr).
Defined.

Lemma tick_reaches_peer_witness :
  exists s1 ti, build_instruction (5 * ms) [] (agenda_at (5 * ms) (keep_newest_unsent demo_client))
      (keep_newest_unsent demo_client) = Ok (s1, ti) /\
    (Pb.TransportInstruction.new_num ti ∉ [0] -> Pb.TransportInstruction.old_num ti ∈ [0] ->
     exists r' rs, receive_all tt stored 0 ((fun w => (6 * ms, false, w)) <$> demo_datagrams) demo_server = Ok (r', rs) /\
       omap state rs = [mkReceivedStateDiff (Pb.TransportInstruction.old_num ti) (Pb.TransportInstruction.new_num ti)
         (Pb.TransportInstruction.ack_num ti) (Z.max 0 (Pb.TransportInstruction.throwaway_num ti))
         (Pb.TransportInstruction.diff ti)] /\ Forall (fun x => authenticated x = true) rs).
Proof.
  apply (tick_reaches_peer tt (fun d => d) stored 0 (fun _ => True) demo_client demo_after demo_server (5 * ms) None 7 8
           demo_datagrams ((fun w => (6 * ms, false, w)) <$> demo_datagrams) []).
  - exact null_cipher_laws.
  - exact I.
  - exact stored_ok.
  - exact demo_client_wf.
  - right. reflexivity.
  - vm_compute. lia.
  - vm_compute. split; congruence.
  - vm_compute. split; congruence.
  - lia.
  - vm_compute. congruence.
  - vm_compute. congruence.
  - exact demo_tick_ok.
  - vm_compute. congruence.
  - vm_compute. reflexivity.
  - apply represents_new.
  - constructor.
  - left. reflexivity.
  - vm_compute. lia.
  - rewrite <-list_fmap_compose. cbn [compose snd]. by rewrite list_fmap_id.
Defined.

End Demo.
