(* ===== verification/Ieee.v ===== *)
(** * IEEE 754 arithmetic

    Rust's [f32] and [f64] as the Standard Library's specification floats, for
    the geometry of the panes: operations round to nearest even, so the
    definitions compute the bits the program computes. *)
From Stdlib Require Import ZArith Lia List Bool SpecFloat.
From stdpp Require Import base numbers list.
From S2P Require Import Prelude.
Open Scope Z_scope.

(** A format: its precision and exponent bound. *)
Class Format := { prec : Z; emax : Z }.

Module Ieee.

Definition f32 : Format := {| prec := 24; emax := 128 |}.
Definition f64 : Format := {| prec := 53; emax := 1024 |}.

Section Ops.
Context `{Format}.

Definition of_int (z : Z) : spec_float := binary_normalize prec emax z 0 false.
Definition add (a b : spec_float) : spec_float := SFadd prec emax a b.
Definition sub (a b : spec_float) : spec_float := SFsub prec emax a b.
Definition mul (a b : spec_float) : spec_float := SFmul prec emax a b.
Definition div (a b : spec_float) : spec_float := SFdiv prec emax a b.

(** The literal [1e-n]: the nearest float, since 1 and 10^n are exact. *)
Definition tenth_power (n : Z) : spec_float := div (of_int 1) (of_int (10 ^ n)).
End Ops.

(** [x.round() as i32]: halves away from zero, saturated; 0 for a NaN. *)
Definition saturate_i32 (z : Z) : Z := Z.max (- 2 ^ 31) (Z.min z (2 ^ 31 - 1)).
Definition round_i32 (x : spec_float) : Z :=
  match x with
  | S754_zero _ => 0
  | S754_nan => 0
  | S754_infinity s => if s then - 2 ^ 31 else 2 ^ 31 - 1
  | S754_finite s m e =>
      let magnitude :=
        if 0 <=? e then Z.pos m * 2 ^ e
        else (Z.pos m + 2 ^ (- e - 1)) / 2 ^ (- e) in
      saturate_i32 (if s then - magnitude else magnitude)
  end.

(** The least integer no less than a finite number. *)
Definition ceil_of (s : bool) (m : positive) (e : Z) : Z :=
  let signed := if s then Z.neg m else Z.pos m in
  if 0 <=? e then signed * 2 ^ e else - ((- signed) / 2 ^ (- e)).
(** [x.ceil()]: the sign of a zero is kept. *)
Definition ceil `{Format} (x : spec_float) : spec_float :=
  match x with
  | S754_finite s m e => let z := ceil_of s m e in if z =? 0 then S754_zero s else of_int z
  | _ => x
  end.

(** [x as u64]: towards zero, saturated; 0 for a NaN. *)
Definition as_u64 (x : spec_float) : Z :=
  match x with
  | S754_zero _ | S754_nan => 0
  | S754_infinity s => if s then 0 else u64_max
  | S754_finite s m e =>
      if s then 0 else Z.min u64_max (if 0 <=? e then Z.pos m * 2 ^ e else Z.pos m / 2 ^ (- e))
  end.

Lemma as_u64_range x : 0 <= as_u64 x <= u64_max.
Proof.
  unfold u64_max. destruct x as [s|[]| |[] m e]; cbn [as_u64]; unfold u64_max; try lia.
  destruct (Z.leb_spec 0 e).
  - pose proof (Z.pow_nonneg 2 e ltac:(lia)). unfold u64_max. nia.
  - assert (0 <= Z.pos m / 2 ^ (- e)) by (apply Z.div_pos; [lia | apply Z.pow_pos_nonneg; lia]). unfold u64_max. lia.
Qed.

(** [f32::total_cmp]: the sign first, then the magnitude; a NaN (there is one
    here) above the rest. *)
Definition total_key (x : spec_float) : Z * Z :=
  match x with
  | S754_nan => (3, 0)
  | S754_infinity s => if s then (-3, 0) else (2, 0)
  | S754_zero s => if s then (-1, 0) else (0, 0)
  | S754_finite s _ _ => if s then (-2, 0) else (1, 0)
  end.
Definition total_lt (a b : spec_float) : bool :=
  let '(ka, kb) := (fst (total_key a), fst (total_key b)) in
  if ka =? kb then SFltb a b else ka <? kb.

(** The total order is the lexicographic one on sign and class, exponent and
    mantissa. *)
Definition order_key (x : spec_float) : Z * Z * Z :=
  match x with
  | S754_finite s m e => if s then (-2, - e, - Z.pos m) else (1, e, Z.pos m)
  | _ => (fst (total_key x), 0, 0)
  end.
Definition key_lt (a b : Z * Z * Z) : Prop :=
  let '(a1, a2, a3) := a in let '(b1, b2, b3) := b in
  a1 < b1 \/ a1 = b1 /\ (a2 < b2 \/ a2 = b2 /\ a3 < b3).

Lemma total_lt_key a b : total_lt a b = true <-> key_lt (order_key a) (order_key b).
Proof.
  unfold total_lt, SFltb, key_lt.
  destruct a as [[]|[]| |[] ma ea], b as [[]|[]| |[] mb eb];
    cbn [total_key fst snd order_key SFcompare]; cbv iota beta zeta;
    try (cbn; (split; intros; (lia || done))).
  all: change (Pos.compare_cont Eq ma mb) with (Pos.compare ma mb);
    rewrite Z.eqb_refl; destruct (Z.compare_spec ea eb); try destruct (Pos.compare_spec ma mb); subst;
    cbn; (split; intros; (lia || done)).
Qed.

Lemma total_le_trans a b c : total_lt b a = false -> total_lt c b = false -> total_lt c a = false.
Proof.
  rewrite <-!not_true_iff_false, !total_lt_key. unfold key_lt.
  destruct (order_key a) as [[]], (order_key b) as [[]], (order_key c) as [[]]. lia.
Qed.
Lemma total_lt_irrefl a : total_lt a a = false.
Proof.
  apply not_true_iff_false. rewrite total_lt_key. unfold key_lt. destruct (order_key a) as [[]]. lia.
Qed.
Lemma total_lt_asym a b : total_lt a b = true -> total_lt b a = false.
Proof.
  rewrite <-not_true_iff_false, !total_lt_key. unfold key_lt.
  destruct (order_key a) as [[]], (order_key b) as [[]]. lia.
Qed.

(** A number less itself is a zero, or a NaN for what is not finite. *)
Lemma sub_self {F : Format} x : (exists s, sub x x = S754_zero s) \/ sub x x = S754_nan.
Proof.
  unfold sub, SFsub. destruct x as [[]|[]| |s m e]; cbn; eauto.
  left. rewrite Z.min_id. destruct (shl_align m e e) as [m' e']. cbn [fst].
  rewrite Z.sub_diag. cbn. eauto.
Qed.

End Ieee.

Example tenth_power_9 : Ieee.tenth_power (H:=Ieee.f64) 9 = S754_finite false 4835703278458517 (-82).
Proof. vm_compute. reflexivity. Qed.
Example round_half_away : Ieee.round_i32 (Ieee.div (H:=Ieee.f32) (Ieee.of_int (H:=Ieee.f32) (-5)) (Ieee.of_int (H:=Ieee.f32) 2)) = -3.
Proof. vm_compute. reflexivity. Qed.
Example half_of_a_round_trip :
  Ieee.as_u64 (Ieee.ceil (H:=Ieee.f64) (Ieee.div (H:=Ieee.f64) (Ieee.of_int (H:=Ieee.f64) 201) (Ieee.of_int (H:=Ieee.f64) 2))) = 101.
Proof. vm_compute. reflexivity. Qed.
