(* ===== verification/ClientStream.v ===== *)
(** * The client's input stream

    Models the client half of [crates/mosh_rs/src/statesync.rs]: the log of what
    the user did, the diff between two of its states as a UserMessage, and its
    reading back.  The messages are encoded by prost, whose wire format is
    protobuf's: the class [Prost] names what is used of it. *)
From Stdlib Require Import ZArith Lia List Bool.
From stdpp Require Import base numbers list countable sets.
From S2P Require Import Prelude Pb UserStream.
Open Scope Z_scope.
Open Scope zetta_scope.

Module ClientStream.

(** ** The messages *)

Record Keystroke := mkKeystroke { keys : option bytes }.
Record ResizeMessage := mkResize { width : option Z; height : option Z }.
Record AgentHelloMessage := mkHello { version : option Z }.
Record AgentResponseMessage := mkResponse {
  connection_id : option Z; request_id : option Z; frame : option bytes; closed : option bool;
}.
Record AgentUserInstruction := mkAgent {
  hello : option AgentHelloMessage; response : option AgentResponseMessage;
}.
Record UserInstruction := mkInstruction {
  keystroke : option Keystroke;
  resize : option ResizeMessage;
  zosh_keepalive_ms : option Z;
  terminal_response : option bytes;
  zosh_scrollback_kib : option Z;
  agent : option AgentUserInstruction;
  clipboard_version : option Z;
}.

(** A UserMessage is the list of its instructions. *)
Abbreviation UserMessage := (list UserInstruction).

Class Prost := {
  encode_to_vec : UserMessage -> bytes;
  decode : bytes -> option UserMessage;
}.

(** ** The stream *)

Inductive UserEvent :=
| Byte (b : byte)
| Resize (width height : Z)
| KeepAlive (interval_ms : Z)
| TerminalResponse (response : bytes)
| ScrollbackRequest (budget_kib : Z)
| ClipboardVersion (version : Z)
| AgentHello (version : Z)
| AgentResponse (connection_id request_id : Z) (frame : bytes) (closed : bool).

#[export] Instance UserEvent_eq_dec : EqDecision UserEvent.
Proof. solve_decision. Defined.

(** A stream is the list of its events. *)
Abbreviation UserStream := (list UserEvent).

Definition push_byte (b : byte) (s : UserStream) : UserStream := s ++ [Byte b].
Definition push_bytes (l : bytes) (s : UserStream) : UserStream := s ++ (Byte <$> l).
Definition push_resize (width height : Z) (s : UserStream) : UserStream := s ++ [Resize width height].
Definition push_keep_alive (interval_ms : Z) (s : UserStream) : UserStream := s ++ [KeepAlive interval_ms].
Definition push_terminal_response (l : bytes) (s : UserStream) : UserStream :=
  if bool_decide (l = []) then s else s ++ [TerminalResponse l].
Definition push_scrollback_request (budget_kib : Z) (s : UserStream) : UserStream := s ++ [ScrollbackRequest budget_kib].
Definition push_clipboard_version (version : Z) (s : UserStream) : UserStream := s ++ [ClipboardVersion version].
Definition push_agent_hello (version : Z) (s : UserStream) : UserStream := s ++ [AgentHello version].
Definition push_agent_response (connection_id request_id : Z) (frame : bytes) (closed : bool) (s : UserStream) : UserStream :=
  s ++ [AgentResponse connection_id request_id frame closed].

(** *** The diff *)

(** [UserInstruction::default()] *)
Definition blank_instruction : UserInstruction := mkInstruction None None None None None None None.

(** The keystroke run in progress: [last_mut().and_then(..keystroke).and_then(..keys)]. *)
Definition run_in_progress (msg : UserMessage) : option (UserInstruction * bytes) :=
  i ← last msg; k ← keystroke i; ks ← keys k; Some (i, ks).

Definition instruction_of (e : UserEvent) : UserInstruction :=
  match e with
  | Byte b => mkInstruction (Some (mkKeystroke (Some [b]))) None None None None None None
  | Resize width height => mkInstruction None (Some (mkResize (Some width) (Some height))) None None None None None
  | KeepAlive interval_ms => mkInstruction None None (Some interval_ms) None None None None
  | TerminalResponse l => mkInstruction None None None (Some l) None None None
  | ScrollbackRequest budget_kib => mkInstruction None None None None (Some budget_kib) None None
  | ClipboardVersion version => mkInstruction None None None None None None (Some version)
  | AgentHello version =>
      mkInstruction None None None None None (Some (mkAgent (Some (mkHello (Some version))) None)) None
  | AgentResponse c r f cl =>
      mkInstruction None None None None None
        (Some (mkAgent None (Some (mkResponse (Some c) (Some r) (Some f) (Some cl))))) None
  end.

(** One turn of the loop. *)
Definition add_event (msg : UserMessage) (e : UserEvent) : UserMessage :=
  match e, run_in_progress msg with
  | Byte b, Some (i, ks) =>
      <[(length msg - 1)%nat :=
          mkInstruction (Some (mkKeystroke (Some (ks ++ [b])))) (resize i) (zosh_keepalive_ms i)
            (terminal_response i) (zosh_scrollback_kib i) (agent i) (clipboard_version i)]> msg
  | _, _ => msg ++ [instruction_of e]
  end.

Section Stream.
Context `{Prost}.

Definition diff_from (s existing : UserStream) : option bytes :=
  if decide (existing `prefix_of` s)
  then Some (encode_to_vec (foldl add_event [] (drop (length existing) s)))
  else None.

Definition init_diff (s : UserStream) : bytes := default [] (diff_from s []).

(** What one instruction appends. *)
Definition apply_instruction (s : UserStream) (i : UserInstruction) : UserStream :=
  let s := match k ← keystroke i; keys k with Some ks => push_bytes ks s | None => s end in
  let s :=
    match r ← resize i; w ← width r; h ← height r; Some (w, h) with
    | Some (w, h) => push_resize w h s
    | None => s
    end in
  let s := match zosh_keepalive_ms i with Some v => push_keep_alive v s | None => s end in
  let s := match terminal_response i with Some l => push_terminal_response l s | None => s end in
  let s := match zosh_scrollback_kib i with Some v => push_scrollback_request v s | None => s end in
  let s := match clipboard_version i with Some v => push_clipboard_version v s | None => s end in
  match agent i with
  | None => s
  | Some a =>
      let s := match h ← hello a; version h with Some v => push_agent_hello v s | None => s end in
      match r ← response a; c ← connection_id r; q ← request_id r; Some (c, q, r) with
      | Some (c, q, r) => push_agent_response c q (default [] (frame r)) (default false (closed r)) s
      | None => s
      end
  end.

Definition apply_string (diff : bytes) (s : UserStream) : result unit UserStream :=
  msg ← ok_or (decode diff) tt; Ok (foldl apply_instruction s msg).

(** The stream and whether it had the prefix. *)
Definition subtract (s prefix : UserStream) : UserStream * bool :=
  if decide (prefix `prefix_of` s) then (drop (length prefix) s, true) else (s, false).

End Stream.

End ClientStream.

(** ** The wire format

    Protobuf's, the fields in the order of their numbers: a varint, or a length
    and that many bytes; an absent field is not written, and a negative int32 is
    sign-extended to 64 bits. *)
Module Protobuf.
Import ClientStream.

Definition optional {A} (write : A -> bytes) (o : option A) : bytes := match o with Some v => write v | None => [] end.
Definition int32 (field v : Z) : bytes := Pb.append_tag_varint field (wrap 64 v).
Definition bool_field (field : Z) (b : bool) : bytes := Pb.append_tag_varint field (if b then 1 else 0).

Definition wire_keystroke (k : Keystroke) : bytes := optional (Pb.append_tag_bytes 4) (keys k).
Definition wire_resize (r : ResizeMessage) : bytes := optional (int32 5) (width r) ++ optional (int32 6) (height r).
Definition wire_hello (h : AgentHelloMessage) : bytes := optional (Pb.append_tag_varint 1) (version h).
Definition wire_response (r : AgentResponseMessage) : bytes :=
  optional (Pb.append_tag_varint 1) (connection_id r) ++ optional (Pb.append_tag_varint 2) (request_id r)
    ++ optional (Pb.append_tag_bytes 3) (frame r) ++ optional (bool_field 4) (closed r).
Definition wire_agent (a : AgentUserInstruction) : bytes :=
  optional (fun h => Pb.append_tag_bytes 1 (wire_hello h)) (hello a)
    ++ optional (fun r => Pb.append_tag_bytes 2 (wire_response r)) (response a).
Definition wire_instruction (i : UserInstruction) : bytes :=
  optional (fun k => Pb.append_tag_bytes 2 (wire_keystroke k)) (keystroke i)
    ++ optional (fun r => Pb.append_tag_bytes 3 (wire_resize r)) (resize i)
    ++ optional (Pb.append_tag_varint 20) (zosh_keepalive_ms i)
    ++ optional (Pb.append_tag_bytes 21) (terminal_response i)
    ++ optional (Pb.append_tag_varint 22) (zosh_scrollback_kib i)
    ++ optional (fun a => Pb.append_tag_bytes 23 (wire_agent a)) (agent i)
    ++ optional (Pb.append_tag_varint 24) (clipboard_version i).
Definition wire_message (msg : UserMessage) : bytes :=
  concat ((fun i => Pb.append_tag_bytes 1 (wire_instruction i)) <$> msg).

End Protobuf.

(** What the sender relies on of prost: the wire format. *)
Class ProstWire `{ClientStream.Prost} : Prop := {
  encode_wire : forall msg, ClientStream.encode_to_vec msg = Protobuf.wire_message msg;
}.
(** What the reading back relies on: a message is read back from its encoding. *)
Class ProstReads `{ClientStream.Prost} : Prop := {
  decode_encoded : forall msg, ClientStream.decode (ClientStream.encode_to_vec msg) = Some msg;
}.

(** ** The messages a diff is made of *)
Section Built.
Import ClientStream.

(** A run of keystrokes. *)
Definition run (ks : bytes) : UserInstruction := mkInstruction (Some (mkKeystroke (Some ks))) None None None None None None.
Definition is_byte (e : UserEvent) : bool := match e with Byte _ => true | _ => false end.

Inductive built : UserInstruction -> Prop :=
| built_run ks : ks <> [] -> built (run ks)
| built_event e : is_byte e = false -> built (instruction_of e).

Lemma event_not_a_run e : is_byte e = false -> keystroke (instruction_of e) = None.
Proof. by destruct e. Qed.

Lemma add_event_cases msg e :
  Forall built msg ->
  (exists init ks b, e = Byte b /\ ks <> [] /\ msg = init ++ [run ks] /\ add_event msg e = init ++ [run (ks ++ [b])]) \/
  add_event msg e = msg ++ [instruction_of e].
Proof.
  intros Hmsg. unfold add_event. destruct e; try by right.
  destruct (run_in_progress msg) as [[i ks]|] eqn:Hrun; [left|by right].
  unfold run_in_progress in Hrun. destruct (last msg) as [i'|] eqn:Hlast; [|done].
  apply last_Some in Hlast as [init ->]. apply Forall_app in Hmsg as [_ Hi%Forall_inv].
  cbn [mbind option_bind] in Hrun. destruct Hi as [ks' Hne|e He].
  - cbn in Hrun. injection Hrun as <- <-. exists init, ks', b. split_and!; [done..|].
    rewrite length_app. cbn [length]. replace (length init + 1 - 1)%nat with (length init + 0)%nat by lia.
    by rewrite insert_app_r.
  - by rewrite event_not_a_run in Hrun.
Qed.

Lemma add_event_built msg e : Forall built msg -> Forall built (add_event msg e).
Proof.
  intros Hmsg. destruct (add_event_cases msg e Hmsg) as [(init & ks & b & -> & Hks & -> & ->) | ->].
  - apply Forall_app in Hmsg as [Hinit _]. apply Forall_app. split; [done|]. repeat constructor. by destruct ks.
  - apply Forall_app. split; [done|]. constructor; [|constructor].
    destruct e; try by apply built_event. by apply (built_run [b]).
Qed.

Lemma message_built es : Forall built (foldl add_event [] es).
Proof.
  assert (forall msg, Forall built msg -> Forall built (foldl add_event msg es)) as H; [|by apply H].
  induction es as [|e es IH]; intros msg Hmsg; [done|]. by apply IH, add_event_built.
Qed.

Lemma message_parts es :
  Forall (fun i => (exists ks, i = run ks /\ ks <> [] /\ (length ks <= length es)%nat) \/
                   (exists e, e ∈ es /\ is_byte e = false /\ i = instruction_of e)) (foldl add_event [] es).
Proof.
  induction es as [|e es IH] using rev_ind; [constructor|]. rewrite foldl_snoc.
  assert (Forall (fun i => (exists ks, i = run ks /\ ks <> [] /\ (length ks <= length es)%nat) \/
                   (exists e', e' ∈ es ++ [e] /\ is_byte e' = false /\ i = instruction_of e')) (foldl add_event [] es)) as IH'.
  { eapply Forall_impl; [exact IH|]. intros i [Hr | (e' & He' & Hb & Hi)]; [by left | right].
    exists e'. split; [|done]. apply elem_of_app. by left. }
  rewrite length_app. cbn [length].
  destruct (add_event_cases (foldl add_event [] es) e (message_built es)) as [(init & ks & b & -> & Hks & Hm & ->) | ->].
  - rewrite Hm in IH'. apply Forall_app in IH' as [Hinit Hlast%Forall_inv].
    apply Forall_app. split; [eapply Forall_impl; [exact Hinit|]; cbn; intros i [(ks' & -> & ? & ?)|?]; [left | by right]|].
    { exists ks'. split_and!; [done | done | lia]. }
    constructor; [|constructor]. left. exists (ks ++ [b]). split; [done|]. split; [by destruct ks|].
    rewrite length_app. cbn [length]. destruct Hlast as [(ks' & Heq & _ & Hl) | (e' & _ & Hb & Heq)].
    + injection Heq as ->. lia.
    + apply (f_equal keystroke) in Heq. by rewrite event_not_a_run in Heq.
  - apply Forall_app. split; [eapply Forall_impl; [exact IH'|]; cbn; intros i [(ks' & -> & ? & ?)|?]; [left | by right]|].
    { exists ks'. split_and!; [done | done | lia]. }
    constructor; [|constructor]. destruct (is_byte e) eqn:Hb.
    + destruct e as [b| | | | | | |]; try done. left. exists [b]. split_and!; [done | done | cbn; lia].
    + right. exists e. split; [|done]. apply elem_of_app. right. by apply list_elem_of_singleton.
Qed.

(** What reads a message instruction by instruction, and takes a run for its
    keystrokes in turn, reads the events the message was made of. *)
Lemma read_message {A} (read : UserInstruction -> list A) (read_event : UserEvent -> list A) es :
  (forall e, is_byte e = false -> e ∈ es -> read (instruction_of e) = read_event e) ->
  (forall ks, ks <> [] -> (length ks <= length es)%nat -> read (run ks) = concat (read_event <$> (Byte <$> ks))) ->
  concat (read <$> foldl add_event [] es) = concat (read_event <$> es).
Proof.
  intros Hevent Hrun. induction es as [|e es IH] using rev_ind; [done|].
  rewrite length_app in Hrun. cbn [length] in Hrun. rewrite foldl_snoc, fmap_app, concat_app.
  rewrite <- IH; [| intros e' ? ?; apply Hevent; [done | set_solver] | intros ks ? ?; apply Hrun; [done | lia]].
  cbn [fmap list_fmap concat]. rewrite app_nil_r.
  destruct (add_event_cases (foldl add_event [] es) e (message_built es)) as [(init & ks & b & -> & Hks & Hm & ->) | ->].
  - assert (length ks <= length es)%nat as Hle.
    { pose proof (message_parts es) as Hp. rewrite Hm in Hp. apply Forall_app in Hp as [_ Hlast%Forall_inv].
      destruct Hlast as [(ks' & Heq & _ & Hl) | (e' & _ & Hb & Heq)]; [by injection Heq as -> |].
      apply (f_equal keystroke) in Heq. by rewrite event_not_a_run in Heq. }
    rewrite Hm, !fmap_app, !concat_app. cbn [fmap list_fmap concat]. rewrite !app_nil_r, <- app_assoc.
    rewrite (Hrun ks) by (done || lia).
    rewrite (Hrun (ks ++ [b])); [| by destruct ks | rewrite length_app; cbn [length]; lia]. f_equal.
    rewrite !fmap_app, concat_app. cbn [fmap list_fmap concat]. by rewrite app_nil_r.
  - rewrite fmap_app, concat_app. cbn [fmap list_fmap concat]. rewrite app_nil_r. f_equal.
    destruct e as [b| | | | | | |]; try (apply Hevent; [done | set_solver]).
    change (instruction_of (Byte b)) with (run [b]). rewrite (Hrun [b]); [|done | cbn; lia]. cbn. by rewrite app_nil_r.
Qed.

End Built.

(** ** The server's reading *)
Section Delivered.
Import ClientStream Protobuf.
#[local] Opaque Pb.append_varint Pb.append_tag.

(** What the server makes of an event. *)
Definition server_event (e : UserEvent) : list UserStream.UserEvent :=
  match e with
  | Byte b => [UserStream.Byte b]
  | Resize width height => if (0 <? width) && (0 <? height) then [UserStream.Resize width height] else []
  | TerminalResponse l => [UserStream.TerminalResponse l]
  | AgentHello version => [UserStream.AgentHello version]
  | AgentResponse c r f cl => [UserStream.AgentResponseEvent c r f cl]
  | KeepAlive _ | ScrollbackRequest _ | ClipboardVersion _ => []
  end.
Definition server_events (es : UserStream) : list UserStream.UserEvent := concat (server_event <$> es).

(** What the client pushes: values of their types, a size the server takes, and
    a frame it accepts. *)
Definition sendable (e : UserEvent) : Prop :=
  match e with
  | Byte _ => True
  | Resize width height => - 2 ^ 31 <= width < 2 ^ 16 /\ - 2 ^ 31 <= height < 2 ^ 16
  | KeepAlive v | ScrollbackRequest v | ClipboardVersion v | AgentHello v => fits 32 v
  | TerminalResponse l => l <> [] /\ zlen l < 2 ^ 62
  | AgentResponse c r f _ => fits 64 c /\ fits 64 r /\ zlen f <= UserStream.MAX_AGENT_FRAME
  end.

Lemma as_i32_wrap64 z : - 2 ^ 31 <= z < 2 ^ 31 -> as_i32 (wrap 64 z) = z.
Proof.
  intros Hz. rewrite <- (as_i32_wrap z Hz) at 2. unfold as_i32, wrap. cbv zeta.
  replace ((z mod 2 ^ 64) mod 2 ^ 32) with ((z mod 2 ^ 32) mod 2 ^ 32); [done|].
  rewrite Z.mod_mod by lia. symmetry. apply Z.mod_mod_divide. by exists (2 ^ 32).
Qed.

Lemma wrap64_fits z : fits 64 (wrap 64 z).
Proof. by apply wrap_fits. Qed.

Lemma read_one {S} (step : bytes -> S -> result UserStream.decode_error (bytes * S)) l s s' :
  consumes step -> l <> [] -> step l s = Ok ([], s') -> while_data step l s = Ok s'.
Proof. intros Hc Hl Hs. by rewrite (while_data_step _ Hc l s [] s' Hl Hs). Qed.

Lemma tag_bytes_end f d : Pb.append_tag_bytes f d <> [].
Proof. rewrite <- (app_nil_r (Pb.append_tag_bytes f d)). apply append_tag_bytes_ne. Qed.
Lemma tag_varint_end f v : Pb.append_tag_varint f v <> [].
Proof. rewrite <- (app_nil_r (Pb.append_tag_varint f v)). apply append_tag_varint_ne. Qed.

(** The last field of a message, read. *)
Lemma strict_bytes_end f d : 0 <= f < 2 ^ 61 -> zlen d < 2 ^ 64 ->
  UserStream.read_tag_strict (Pb.append_tag_bytes f d) = Ok (f, UserStream.WIRE_BYTES, Pb.append_varint (zlen d) ++ d) /\
  UserStream.read_bytes_strict (Pb.append_varint (zlen d) ++ d) = Ok (d, []).
Proof.
  intros Hf Hd. split.
  - rewrite <- (app_nil_r (Pb.append_tag_bytes f d)), strict_tag_bytes by done. by rewrite app_nil_r.
  - pose proof (read_bytes_strict_append d [] Hd) as Hr. by rewrite app_nil_r in Hr.
Qed.
Lemma strict_varint_end f v : 0 <= f < 2 ^ 61 -> fits 64 v ->
  UserStream.read_tag_strict (Pb.append_tag_varint f v) = Ok (f, UserStream.WIRE_VARINT, Pb.append_varint v) /\
  UserStream.read_varint_strict (Pb.append_varint v) = Ok (v, []).
Proof.
  intros Hf Hv. split.
  - rewrite <- (app_nil_r (Pb.append_tag_varint f v)), strict_tag_varint by done. by rewrite app_nil_r.
  - pose proof (read_varint_strict_append v [] Hv) as Hr. by rewrite app_nil_r in Hr.
Qed.

Lemma fits_32_64 v : fits 32 v -> fits 64 v.
Proof. unfold fits. lia. Qed.

(** A varint field the decoder does not use. *)
Lemma varint_ignored f v d :
  f ∈ [20; 22; 24] -> fits 32 v ->
  while_data UserStream.instruction_step (Pb.append_tag_varint f v) d = Ok d.
Proof.
  intros Hf Hv%fits_32_64. apply read_one; [apply instruction_consumes | apply tag_varint_end |].
  assert (0 <= f < 2 ^ 61) as Hr by (repeat (apply elem_of_cons in Hf as [-> | Hf]; [lia|]); by apply not_elem_of_nil in Hf).
  destruct (strict_varint_end f v Hr Hv) as [Ht Hread].
  unfold UserStream.instruction_step. rewrite Ht. cbn [mbind result_bind].
  unfold UserStream.is_field. change (UserStream.WIRE_VARINT =? UserStream.WIRE_BYTES) with false. rewrite !andb_false_r.
  unfold UserStream.skip_field_strict. change (UserStream.WIRE_VARINT =? UserStream.WIRE_VARINT) with true. cbn iota.
  by rewrite Hread.
Qed.

(** An instruction that decodes to [d]. *)
Definition decodes (i : UserInstruction) (d : UserStream.DecodedInstruction) : Prop :=
  UserStream.decode_instruction (wire_instruction i) = Ok d.

(** One field of bytes, whatever is in it. *)
Lemma field_decodes i f data d :
  wire_instruction i = Pb.append_tag_bytes f data -> 0 <= f < 2 ^ 61 ->
  (UserStream.read_tag_strict (Pb.append_tag_bytes f data) = Ok (f, UserStream.WIRE_BYTES, Pb.append_varint (zlen data) ++ data) ->
   UserStream.instruction_step (Pb.append_tag_bytes f data) UserStream.decoded_default = Ok ([], d)) ->
  decodes i d.
Proof.
  intros Hi Hf Hstep. unfold decodes, UserStream.decode_instruction. rewrite Hi.
  apply read_one; [apply instruction_consumes | apply tag_bytes_end | apply Hstep].
  pose proof (strict_tag_bytes f data [] Hf) as Ht. by rewrite !app_nil_r in Ht.
Qed.

Lemma run_decodes ks : ks <> [] -> zlen ks < 2 ^ 62 -> decodes (run ks) (UserStream.mkDecoded ks 0 0 None None None).
Proof.
  intros Hne Hks. unfold decodes, UserStream.decode_instruction.
  pose proof (strict_keys_field ks [] Hks) as Hr. rewrite bool_decide_eq_true_2 in Hr by done. exact Hr.
Qed.

Lemma resize_decodes w h :
  - 2 ^ 31 <= w < 2 ^ 16 -> - 2 ^ 31 <= h < 2 ^ 16 ->
  decodes (instruction_of (Resize w h)) (UserStream.mkDecoded [] w h None None None).
Proof.
  intros Hw Hh. pose proof (wrap64_fits w) as Hfw. pose proof (wrap64_fits h) as Hfh.
  assert (zlen (int32 5 w ++ int32 6 h) < 2 ^ 64) as Hsmall.
  { unfold int32, Pb.append_tag_varint. rewrite !zlen_app.
    pose proof (append_varint_le (wrap 64 w)). pose proof (append_varint_le (wrap 64 h)).
    pose proof (append_tag_le 5 Pb.WIRE_VARINT). pose proof (append_tag_le 6 Pb.WIRE_VARINT). lia. }
  apply (field_decodes _ 3 (int32 5 w ++ int32 6 h)); [by rewrite <- (app_nil_r (Pb.append_tag_bytes 3 _)) | lia |].
  intros Ht. unfold UserStream.instruction_step. rewrite Ht. cbn [mbind result_bind].
  change (UserStream.is_field 3 _ 2 _) with false. change (UserStream.is_field 3 _ 3 _) with true. cbn iota.
  unfold UserStream.decode_resize. rewrite (proj2 (strict_bytes_end 3 _ ltac:(lia) Hsmall)). cbn [mbind result_bind].
  change (UserStream.width UserStream.decoded_default, UserStream.height UserStream.decoded_default) with (0, 0).
  rewrite (while_data_step _ resize_consumes _ (0, 0) (int32 6 h) (w, 0)); [| apply append_tag_varint_ne |].
  - rewrite (read_one _ (int32 6 h) _ (w, h) resize_consumes (tag_varint_end _ _)); [done|].
    unfold UserStream.resize_step, int32.
    destruct (strict_varint_end 6 (wrap 64 h) ltac:(lia) Hfh) as [-> Hr]. cbn [mbind result_bind].
    change (UserStream.is_field 6 _ 5 _) with false. change (UserStream.is_field 6 _ 6 _) with true. cbn iota.
    rewrite Hr. cbn [mbind result_bind]. by rewrite as_i32_wrap64 by lia.
  - unfold UserStream.resize_step, int32. rewrite strict_tag_varint by lia. cbn [mbind result_bind].
    change (UserStream.is_field 5 _ 5 _) with true. cbn iota.
    rewrite read_varint_strict_append by done. cbn [mbind result_bind]. by rewrite as_i32_wrap64 by lia.
Qed.

Lemma response_decodes l : zlen l < 2 ^ 62 ->
  decodes (instruction_of (TerminalResponse l)) (UserStream.mkDecoded [] 0 0 (Some l) None None).
Proof.
  intros Hl. apply (field_decodes _ 21 l); [by cbn; rewrite app_nil_r | lia |].
  intros Ht. unfold UserStream.instruction_step. rewrite Ht. cbn [mbind result_bind].
  change (UserStream.is_field 21 _ 2 _) with false. change (UserStream.is_field 21 _ 3 _) with false.
  change (UserStream.is_field 21 _ UserStream.TERMINAL_RESPONSE_FIELD _) with true. cbn iota.
  by rewrite (proj2 (strict_bytes_end 21 l ltac:(lia) ltac:(lia))).
Qed.

(** The agent's messages. *)
Lemma agent_decodes a hello' response' :
  zlen (wire_agent a) < 2 ^ 64 ->
  UserStream.decode_agent (wire_agent a) = Ok (hello', response') ->
  decodes (mkInstruction None None None None None (Some a) None) (UserStream.mkDecoded [] 0 0 None hello' response').
Proof.
  intros Hl Ha. apply (field_decodes _ 23 (wire_agent a)); [by cbn; rewrite app_nil_r | lia |].
  intros Ht. unfold UserStream.instruction_step. rewrite Ht. cbn [mbind result_bind].
  change (UserStream.is_field 23 _ 2 _) with false. change (UserStream.is_field 23 _ 3 _) with false.
  change (UserStream.is_field 23 _ UserStream.TERMINAL_RESPONSE_FIELD _) with false.
  change (UserStream.is_field 23 _ UserStream.AGENT_FIELD _) with true. cbn iota.
  rewrite (proj2 (strict_bytes_end 23 _ ltac:(lia) Hl)). cbn [mbind result_bind]. by rewrite Ha.
Qed.

Lemma hello_decodes v : fits 32 v ->
  decodes (instruction_of (AgentHello v)) (UserStream.mkDecoded [] 0 0 None (Some v) None).
Proof.
  intros Hv. pose proof (fits_32_64 v Hv) as Hv'.
  assert (zlen (Pb.append_tag_varint 1 v) <= 22) as Hl.
  { unfold Pb.append_tag_varint. rewrite zlen_app. pose proof (append_varint_le v).
    pose proof (append_tag_le 1 Pb.WIRE_VARINT). lia. }
  assert (zlen (Pb.append_tag_bytes 1 (Pb.append_tag_varint 1 v)) <= 44) as Hl'
    by (pose proof (tag_bytes_small 1 (Pb.append_tag_varint 1 v) 22); lia).
  apply agent_decodes.
  - cbn [wire_agent]. unfold wire_agent. cbn [hello response optional]. rewrite app_nil_r.
    change (wire_hello (mkHello (Some v))) with (Pb.append_tag_varint 1 v). lia.
  - unfold UserStream.decode_agent, wire_agent. cbn [hello response optional]. rewrite app_nil_r.
    change (wire_hello (mkHello (Some v))) with (Pb.append_tag_varint 1 v).
    apply read_one; [apply agent_consumes | apply tag_bytes_end |].
    destruct (strict_bytes_end 1 (Pb.append_tag_varint 1 v) ltac:(lia) ltac:(lia)) as [Ht Hr].
    unfold UserStream.agent_step. rewrite Ht. cbn [mbind result_bind].
    change (UserStream.is_field 1 _ 1 _) with true. cbn iota. rewrite Hr. cbn [mbind result_bind].
    rewrite (read_one _ _ _ (Some v) hello_consumes (tag_varint_end _ _)); [done|].
    destruct (strict_varint_end 1 v ltac:(lia) Hv') as [Ht' Hr'].
    unfold UserStream.hello_step. rewrite Ht'. cbn [mbind result_bind].
    change (UserStream.is_field 1 _ 1 _) with true. cbn iota. rewrite Hr'. cbn [mbind result_bind].
    unfold try_u32, u32_max, fits in *. rewrite !(proj2 (Z.leb_le _ _)) by lia. done.
Qed.

Lemma response_fields c r f cl :
  fits 64 c -> fits 64 r -> zlen f <= UserStream.MAX_AGENT_FRAME ->
  UserStream.decode_agent_response (wire_response (mkResponse (Some c) (Some r) (Some f) (Some cl))) =
    Ok (UserStream.mkAgentResponse c r f cl).
Proof.
  intros Hc Hr Hf. assert (zlen f < 2 ^ 64) as Hf' by (unfold UserStream.MAX_AGENT_FRAME in Hf; lia).
  unfold UserStream.decode_agent_response, wire_response. cbn [connection_id request_id frame closed optional].
  assert (forall l s d' s', l <> [] -> UserStream.response_step l s = Ok (d', s') ->
    while_data UserStream.response_step l s = while_data UserStream.response_step d' s') as Hnext
    by (intros; by apply (while_data_step _ response_consumes)).
  erewrite Hnext; [| apply append_tag_varint_ne |].
  2: { unfold UserStream.response_step. rewrite strict_tag_varint by lia. cbn [mbind result_bind].
       change (UserStream.is_field 1 _ 1 _) with true. cbn iota. by rewrite read_varint_strict_append. }
  erewrite Hnext; [| apply append_tag_varint_ne |].
  2: { unfold UserStream.response_step. rewrite strict_tag_varint by lia. cbn [mbind result_bind].
       change (UserStream.is_field 2 _ 1 _) with false. change (UserStream.is_field 2 _ 2 _) with true. cbn iota.
       by rewrite read_varint_strict_append. }
  erewrite Hnext; [| apply append_tag_bytes_ne |].
  2: { unfold UserStream.response_step. rewrite strict_tag_bytes by lia. cbn [mbind result_bind].
       change (UserStream.is_field 3 _ 1 _) with false. change (UserStream.is_field 3 _ 2 _) with false.
       change (UserStream.is_field 3 _ 3 _) with true. cbn iota.
       rewrite read_bytes_strict_append by done. cbn [mbind result_bind].
       by rewrite (proj2 (Z.ltb_ge _ _)) by lia. }
  assert (fits 64 (if cl then 1 else 0)) as Hcl by (unfold fits; destruct cl; lia).
  rewrite (read_one _ (bool_field 4 cl) _ (UserStream.mkPartial (Some c) (Some r) f cl) response_consumes (tag_varint_end _ _)); [done|].
  cbn [UserStream.p_connection_id UserStream.p_request_id UserStream.p_frame UserStream.p_closed]. unfold UserStream.response_step, bool_field. destruct (strict_varint_end 4 _ ltac:(lia) Hcl) as [-> Hread].
  cbn [mbind result_bind]. change (UserStream.is_field 4 _ 1 _) with false. change (UserStream.is_field 4 _ 2 _) with false.
  change (UserStream.is_field 4 _ 3 _) with false. change (UserStream.is_field 4 _ 4 _) with true. cbn iota.
  rewrite Hread. by destruct cl.
Qed.

Lemma wire_response_small c r f cl :
  zlen (wire_response (mkResponse (Some c) (Some r) (Some f) (Some cl))) <= zlen f + 88.
Proof.
  unfold wire_response. cbn [connection_id request_id frame closed optional]. unfold bool_field, Pb.append_tag_varint, Pb.append_tag_bytes.
  rewrite !zlen_app. pose proof (append_varint_le c). pose proof (append_varint_le r). pose proof (append_varint_le (zlen f)).
  pose proof (append_varint_le (if cl then 1 else 0)). pose proof (append_tag_le 1 Pb.WIRE_VARINT).
  pose proof (append_tag_le 2 Pb.WIRE_VARINT). pose proof (append_tag_le 3 Pb.WIRE_BYTES). pose proof (append_tag_le 4 Pb.WIRE_VARINT). lia.
Qed.

Lemma agent_response_decodes c r f cl :
  fits 64 c -> fits 64 r -> zlen f <= UserStream.MAX_AGENT_FRAME ->
  decodes (instruction_of (AgentResponse c r f cl))
    (UserStream.mkDecoded [] 0 0 None None (Some (UserStream.mkAgentResponse c r f cl))).
Proof.
  intros Hc Hr Hf. pose proof (wire_response_small c r f cl) as Hl. unfold UserStream.MAX_AGENT_FRAME in Hf.
  set (data := wire_response _) in Hl. change (zlen data <= zlen f + 88) in Hl.
  assert (zlen (Pb.append_tag_bytes 2 data) < 2 ^ 64) as Hl' by (pose proof (tag_bytes_small 2 data (zlen f + 88)); lia).
  apply agent_decodes; [exact Hl'|]. unfold UserStream.decode_agent.
  change (wire_agent _) with (Pb.append_tag_bytes 2 data).
  apply read_one; [apply agent_consumes | apply tag_bytes_end |].
  destruct (strict_bytes_end 2 data ltac:(lia) ltac:(lia)) as [Ht Hread].
  unfold UserStream.agent_step. rewrite Ht. cbn [mbind result_bind].
  change (UserStream.is_field 2 _ 1 _) with false. change (UserStream.is_field 2 _ 2 _) with true. cbn iota.
  rewrite Hread. cbn [mbind result_bind]. unfold data. by rewrite response_fields.
Qed.

(** What the server makes of an instruction it reads. *)
Definition input_of_decoded (d : UserStream.DecodedInstruction) : result UserStream.decode_error (list UserStream.UserEvent) :=
  input ← UserStream.input_events d;
  Ok (input ++ UserStream.response_events d ++ UserStream.hello_events d ++ UserStream.agent_events d).

Definition reads_as (i : UserInstruction) (evs : list UserStream.UserEvent) : Prop :=
  exists d, decodes i d /\ input_of_decoded d = Ok evs.

Lemma event_reads e : is_byte e = false -> sendable e -> reads_as (instruction_of e) (server_event e).
Proof.
  intros Hb He. destruct e; cbn [sendable] in He; try done.
  - destruct He as [Hw Hh]. eexists. split; [by apply resize_decodes|].
    unfold input_of_decoded, UserStream.input_events. cbn [UserStream.keys UserStream.width UserStream.height server_event].
    rewrite bool_decide_eq_false_2 by (intros H; by apply H).
    destruct (Z.ltb_spec 0 width0), (Z.ltb_spec 0 height0); try done. cbn [andb].
    unfold try_u16, u16_max. rewrite !(proj2 (Z.leb_le _ _)) by lia. done.
  - exists UserStream.decoded_default. split; [|done]. unfold decodes, UserStream.decode_instruction.
    replace (wire_instruction _) with (Pb.append_tag_varint 20 interval_ms) by (cbn; by rewrite app_nil_r).
    by apply varint_ignored; [set_solver|].
  - destruct He as [Hne Hl]. eexists. split; [by apply response_decodes|].
    unfold input_of_decoded. cbn. by rewrite bool_decide_eq_true_2.
  - exists UserStream.decoded_default. split; [|done]. unfold decodes, UserStream.decode_instruction.
    replace (wire_instruction _) with (Pb.append_tag_varint 22 budget_kib) by (cbn; by rewrite app_nil_r).
    by apply varint_ignored; [set_solver|].
  - exists UserStream.decoded_default. split; [|done]. unfold decodes, UserStream.decode_instruction.
    change (wire_instruction _) with (Pb.append_tag_varint 24 version0).
    by apply varint_ignored; [set_solver|].
  - eexists. split; [by apply hello_decodes | done].
  - destruct He as (Hc & Hr & Hf). eexists. split; [by apply agent_response_decodes | done].
Qed.

Lemma run_reads ks : ks <> [] -> zlen ks < 2 ^ 62 -> reads_as (run ks) (server_events (Byte <$> ks)).
Proof.
  intros Hne Hks. eexists. split; [by apply run_decodes|]. unfold input_of_decoded, UserStream.input_events.
  cbn [UserStream.keys]. rewrite bool_decide_eq_true_2 by done. cbn [mbind result_bind mret result_ret].
  do 2 f_equal. rewrite app_nil_r. clear. unfold server_events. induction ks as [|b ks IH]; [done|]. cbn. by rewrite IH.
Qed.

(** *** A whole message *)

Lemma event_wire_small e : is_byte e = false -> sendable e -> zlen (wire_instruction (instruction_of e)) < 2 ^ 63.
Proof.
  intros Hb He.
  assert (forall f v, zlen (Pb.append_tag_varint f v) <= 22) as Hv.
  { intros f v. unfold Pb.append_tag_varint. rewrite zlen_app. pose proof (append_varint_le v).
    pose proof (append_tag_le f Pb.WIRE_VARINT). lia. }
  unfold wire_instruction. destruct e; cbn [sendable] in He; try done;
    cbn [instruction_of keystroke resize zosh_keepalive_ms terminal_response zosh_scrollback_kib agent clipboard_version
      optional app]; rewrite ?app_nil_r.
  - pose proof (tag_bytes_small 3 (wire_resize (mkResize (Some width0) (Some height0))) 44) as Hs.
    assert (zlen (wire_resize (mkResize (Some width0) (Some height0))) <= 44); [|lia].
    unfold wire_resize. cbn [width height optional]. rewrite zlen_app. unfold int32.
    pose proof (Hv 5 (wrap 64 width0)). pose proof (Hv 6 (wrap 64 height0)). lia.
  - pose proof (Hv 20 interval_ms). lia.
  - pose proof (tag_bytes_small 21 response0 (2 ^ 62)). lia.
  - pose proof (Hv 22 budget_kib). lia.
  - pose proof (Hv 24 version0). lia.
  - pose proof (tag_bytes_small 23 (wire_agent (mkAgent (Some (mkHello (Some version0))) None)) 44) as Hs.
    assert (zlen (wire_agent (mkAgent (Some (mkHello (Some version0))) None)) <= 44); [|lia].
    unfold wire_agent. cbn [hello response optional]. rewrite app_nil_r.
    change (wire_hello _) with (Pb.append_tag_varint 1 version0).
    pose proof (tag_bytes_small 1 (Pb.append_tag_varint 1 version0) 22). pose proof (Hv 1 version0). lia.
  - destruct He as (_ & _ & Hf). unfold UserStream.MAX_AGENT_FRAME in Hf.
    pose proof (wire_response_small connection_id0 request_id0 frame0 closed0) as Hl.
    set (data := wire_response _) in Hl. change (zlen data <= zlen frame0 + 88) in Hl.
    change (wire_agent _) with (Pb.append_tag_bytes 2 data).
    pose proof (tag_bytes_small 2 data (zlen frame0 + 88)).
    pose proof (tag_bytes_small 23 (Pb.append_tag_bytes 2 data) (zlen frame0 + 110)). lia.
Qed.

Definition read_of (i : UserInstruction) : list UserStream.UserEvent :=
  match d ← UserStream.decode_instruction (wire_instruction i); input_of_decoded d with Ok evs => evs | _ => [] end.

Lemma reads_as_read i evs : reads_as i evs -> read_of i = evs.
Proof. intros (d & Hd & He). unfold read_of. rewrite Hd. cbn [mbind result_bind]. by rewrite He. Qed.

Lemma message_read msg acc :
  Forall (fun i => (exists evs, reads_as i evs) /\ zlen (wire_instruction i) < 2 ^ 63) msg ->
  while_data UserStream.events_step (wire_message msg) acc = Ok (acc ++ concat (read_of <$> msg)).
Proof.
  intros Hmsg. revert acc. induction Hmsg as [|i msg [[evs Hi] Hl] _ IH]; intros acc.
  { unfold while_data. cbn. by rewrite app_nil_r. }
  unfold wire_message. rewrite !fmap_cons. cbn [concat]. fold (wire_message msg).
  rewrite (while_data_step _ events_consumes _ _ (wire_message msg) (acc ++ evs)); [| apply append_tag_bytes_ne |].
  { rewrite IH, (reads_as_read i evs Hi). by rewrite <- app_assoc. }
  unfold UserStream.events_step. rewrite strict_tag_bytes by lia. cbn [mbind result_bind].
  change (negb (UserStream.is_field 1 _ _ _)) with false. cbn iota.
  rewrite read_bytes_strict_append by lia. cbn [mbind result_bind].
  destruct Hi as (d & Hd & He). unfold decodes in Hd. rewrite Hd. cbn [mbind result_bind].
  unfold input_of_decoded in He. destruct (UserStream.input_events d) as [input|e|]; [|done..].
  cbn [mbind result_bind] in He |- *. injection He as <-. done.
Qed.

Lemma events_read es acc :
  Forall sendable es -> zlen es < 2 ^ 62 ->
  while_data UserStream.events_step (wire_message (foldl add_event [] es)) acc = Ok (acc ++ server_events es).
Proof.
  intros Hes Hl. rewrite message_read.
  - f_equal. f_equal. apply (read_message read_of server_event).
    + intros e Hb He. apply reads_as_read, event_reads; [done|]. rewrite Forall_forall in Hes. by apply Hes.
    + intros ks Hne Hks. apply reads_as_read, run_reads; [done|]. unfold zlen in *. lia.
  - eapply Forall_impl; [apply message_parts|]. cbn. intros i [(ks & -> & Hne & Hks) | (e & He & Hb & ->)].
    + assert (zlen ks < 2 ^ 62) as Hk by (unfold zlen in *; lia). split; [eexists; by apply run_reads|].
      unfold wire_instruction. cbn [run keystroke resize zosh_keepalive_ms terminal_response zosh_scrollback_kib agent
        clipboard_version optional app]. rewrite app_nil_r.
      change (wire_keystroke _) with (Pb.append_tag_bytes 4 ks).
      pose proof (tag_bytes_small 4 ks (2 ^ 62)). pose proof (tag_bytes_small 2 (Pb.append_tag_bytes 4 ks) (2 ^ 62 + 22)). lia.
    + rewrite Forall_forall in Hes. split; [eexists; apply event_reads; [done | by apply Hes] | apply event_wire_small; [done | by apply Hes]].
Qed.

End Delivered.

(** ** Properties *)
Section Properties.
Import ClientStream.
Context `{Prost}.

(** Nothing is in the diff of a stream from itself, and something in any other. *)
Lemma diff_empty `{!ProstWire} s existing d :
  diff_from s existing = Some d -> d = [] <-> s = existing.
Proof.
  unfold diff_from. destruct (decide _) as [[more ->]|]; [|done]. intros [= <-].
  rewrite drop_app_length, encode_wire. split.
  - intros Hw. destruct more as [|e more]; [by rewrite app_nil_r|]. exfalso.
    assert (exists i msg, foldl add_event [] (e :: more) = i :: msg) as (i & msg & Hm).
    { destruct (foldl add_event [] (e :: more)) as [|i msg] eqn:Hf; [|by eauto].
      assert (forall es msg, msg <> [] -> foldl add_event msg es <> []) as Hne.
      { clear. induction es as [|e es IH]; intros msg Hmsg; [done|]. cbn [foldl]. apply IH.
        unfold add_event. destruct e; try (by destruct msg). destruct (run_in_progress msg) as [[]|]; [|by destruct msg].
        intros Hi%(f_equal length). rewrite length_insert in Hi. by destruct msg. }
      cbn [foldl] in Hf. apply Hne in Hf; [done|]. unfold add_event. by destruct e. }
    rewrite Hm in Hw. unfold Protobuf.wire_message in Hw. rewrite fmap_cons in Hw. by apply append_tag_bytes_ne in Hw.
  - intros Hs. assert (more = []) as -> by (apply (f_equal length) in Hs; rewrite length_app in Hs; destruct more; cbn in *; [done|lia]).
    done.
Qed.

(** The server reads a diff as what the client did since. *)
Lemma diff_read_by_server `{!ProstWire} s existing :
  existing `prefix_of` s -> Forall sendable s -> zlen s < 2 ^ 62 ->
  exists d, diff_from s existing = Some d /\
    UserStream.decode_events d = Ok (server_events (drop (length existing) s)).
Proof.
  intros Hp Hs Hl. unfold diff_from. destruct (decide _); [|done]. eexists. split; [done|].
  rewrite encode_wire. unfold UserStream.decode_events. rewrite events_read; [done | by apply Forall_drop |].
  unfold zlen in *. rewrite length_drop. lia.
Qed.

(** What [push_terminal_response] never pushes. *)
Definition pushed (e : UserEvent) : Prop := e <> TerminalResponse [].

Lemma apply_built s i : built i -> apply_instruction s i = s ++ apply_instruction [] i.
Proof.
  intros [ks Hks | e He]; [done|]. destruct e; try done.
  cbn. unfold push_terminal_response. destruct (bool_decide _); [by rewrite app_nil_r | done].
Qed.

(** The diff from a prefix of the stream, applied to the prefix, gives the
    stream: whatever was typed, resized, answered or announced in between comes
    back in order, with the runs of keystrokes taken apart again. *)
Theorem applied_diff_rebuilds_the_stream `{!ProstReads} s existing :
  existing `prefix_of` s -> Forall pushed s ->
  exists d, diff_from s existing = Some d /\ apply_string d existing = Ok s.
Proof.
  intros Hp Hs. unfold diff_from. destruct (decide _); [|done]. eexists. split; [done|].
  unfold apply_string. rewrite decode_encoded. cbn [ok_or mbind result_bind]. f_equal.
  destruct Hp as [es ->]. rewrite drop_app_length. apply Forall_app in Hs as [_ Hs].
  assert (forall msg s, Forall built msg -> foldl apply_instruction s msg = s ++ concat (apply_instruction [] <$> msg)) as Happly.
  { intros msg. induction msg as [|i msg IH]; intros s Hm; [by rewrite app_nil_r|].
    apply Forall_cons in Hm as [Hi Hm]. cbn [foldl]. rewrite IH, (apply_built s i) by done. by rewrite <- app_assoc. }
  rewrite Happly by apply message_built. f_equal.
  rewrite (read_message (apply_instruction []) (fun e => [e])).
  - clear. induction es as [|e es IH]; [done|]. cbn. by rewrite IH.
  - intros e Hb He. rewrite Forall_forall in Hs. specialize (Hs e He). unfold pushed in Hs.
    destruct e; try done. cbn. unfold push_terminal_response. by rewrite bool_decide_eq_false_2 by (intros ->; done).
  - intros ks _ _. change (apply_instruction [] (run ks)) with (Byte <$> ks). clear.
    induction ks as [|b ks IH]; [done|]. cbn. by f_equal.
Qed.

(** [subtract] drops the prefix, and only a prefix. *)
Lemma subtract_prefix s prefix : prefix `prefix_of` s -> prefix ++ (subtract s prefix).1 = s.
Proof.
  intros Hp. unfold subtract. destruct (decide _); [|done]. destruct Hp as [es ->]. cbn. by rewrite drop_app_length.
Qed.

End Properties.

(** ** A serialization that is read back *)

Module Sample.
Import ClientStream.

#[export] Instance byte_countable : Countable byte := inj_countable Byte.to_N Byte.of_N Byte.of_to_N.
#[export] Instance keystroke_eq_dec : EqDecision Keystroke.
Proof. solve_decision. Defined.
#[export] Instance resize_eq_dec : EqDecision ResizeMessage.
Proof. solve_decision. Defined.
#[export] Instance hello_eq_dec : EqDecision AgentHelloMessage.
Proof. solve_decision. Defined.
#[export] Instance response_eq_dec : EqDecision AgentResponseMessage.
Proof. solve_decision. Defined.
#[export] Instance agent_eq_dec : EqDecision AgentUserInstruction.
Proof. solve_decision. Defined.
#[export] Instance instruction_eq_dec : EqDecision UserInstruction.
Proof. solve_decision. Defined.
#[export] Instance keystroke_countable : Countable Keystroke.
Proof. refine (inj_countable' keys mkKeystroke _). by intros []. Defined.
#[export] Instance resize_countable : Countable ResizeMessage.
Proof. refine (inj_countable' (fun m => (width m, height m)) (fun p => mkResize p.1 p.2) _). by intros []. Defined.
#[export] Instance hello_countable : Countable AgentHelloMessage.
Proof. refine (inj_countable' version mkHello _). by intros []. Defined.
#[export] Instance response_countable : Countable AgentResponseMessage.
Proof.
  refine (inj_countable' (fun m => (connection_id m, request_id m, frame m, closed m))
    (fun p => mkResponse p.1.1.1 p.1.1.2 p.1.2 p.2) _). by intros [].
Defined.
#[export] Instance agent_countable : Countable AgentUserInstruction.
Proof. refine (inj_countable' (fun m => (hello m, response m)) (fun p => mkAgent p.1 p.2) _). by intros []. Defined.
#[export] Instance instruction_countable : Countable UserInstruction.
Proof.
  refine (inj_countable' (fun i => (keystroke i, resize i, zosh_keepalive_ms i, terminal_response i, zosh_scrollback_kib i, agent i, clipboard_version i))
    (fun p => mkInstruction p.1.1.1.1.1.1 p.1.1.1.1.1.2 p.1.1.1.1.2 p.1.1.1.2 p.1.1.2 p.1.2 p.2) _). by intros [].
Defined.

Fixpoint positive_bytes (p : positive) : bytes :=
  match p with xH => [] | xO p => z2b 0 :: positive_bytes p | xI p => z2b 1 :: positive_bytes p end.
Definition bytes_positive (l : bytes) : positive := foldr (fun b p => if bool_decide (b = z2b 0) then xO p else xI p) xH l.
Lemma positive_bytes_back p : bytes_positive (positive_bytes p) = p.
Proof. induction p as [p IH | p IH |]; cbn; [by f_equal.. | done]. Qed.

#[export] Instance sample_prost : Prost := {
  encode_to_vec msg := positive_bytes (countable.encode msg);
  decode l := countable.decode (bytes_positive l);
}.
#[export] Instance sample_reads : ProstReads.
Proof. split. intros msg. cbn. by rewrite positive_bytes_back, decode_encode. Qed.

Definition typed : UserStream := [Byte (z2b 108); Byte (z2b 115); Resize 80 24; KeepAlive 500; TerminalResponse [z2b 27]; Byte (z2b 10)].

Lemma applied_diff_rebuilds_the_stream_witness :
  take 1 typed `prefix_of` typed /\ exists d, diff_from typed (take 1 typed) = Some d /\ apply_string d (take 1 typed) = Ok typed.
Proof.
  assert (take 1 typed `prefix_of` typed) as Hp by (exists (drop 1 typed); reflexivity).
  assert (Forall pushed typed) as Hs by (repeat (constructor; [discriminate|]); constructor).
  split; [exact Hp | exact (applied_diff_rebuilds_the_stream typed (take 1 typed) Hp Hs)].
Defined.
End Sample.
