(* ===== verification/Instruction.v ===== *)
(** * The client's transport instructions

    Models [crates/mosh_rs/src/transport.rs]: the instruction, its fragments, the
    fragmenter that numbers them and the assembly that puts them together.  The
    serialization (prost) and the compression (zlib) are what the class
    [InstructionCodec] names. *)
From Stdlib Require Import ZArith Lia List Bool.
From stdpp Require Import base numbers list.
From S2P Require Import Prelude.
Open Scope Z_scope.
Open Scope zetta_scope.

Module Instruction.

Definition MOSH_PROTOCOL_VERSION : Z := 2.
Definition SHUTDOWN_NUM : Z := u64_max.
Definition MAX_INSTRUCTION_BYTES : Z := 2048 * 2048.
Definition FRAGMENT_HEADER_LEN : Z := 10.

Record Instruction := mkInstruction {
  protocol_version : option Z;
  old_num : option Z;
  new_num : option Z;
  ack_num : option Z;
  throwaway_num : option Z;
  diff : option bytes;
  chaff : option bytes;
}.

Definition new (old_num new_num ack_num throwaway_num : Z) (diff chaff : bytes) : Instruction :=
  mkInstruction (Some MOSH_PROTOCOL_VERSION) (Some old_num) (Some new_num) (Some ack_num) (Some throwaway_num)
    (Some diff) (Some chaff).

Inductive MoshError :=
| CiphertextTooShort | IntegrityCheck | KeyExhausted | PlaintextTooLong | PayloadTooShort | WrongDirection
| ShortFragment | BadInstruction | ProtocolVersion | BadAddress | SendBeforeConnect.

Class InstructionCodec := {
  encode_to_vec : Instruction -> bytes;
  decode : bytes -> option Instruction;
  compress : bytes -> option bytes;
  decompress_at_most : Z -> bytes -> option bytes;
}.

Definition check_version (i : Instruction) : result MoshError unit :=
  if decide (protocol_version i = Some MOSH_PROTOCOL_VERSION) then Ok tt else Err ProtocolVersion.

Section Codec.
Context `{InstructionCodec}.

Definition to_compressed (i : Instruction) : result MoshError bytes := ok_or (compress (encode_to_vec i)) BadInstruction.
Definition from_compressed (l : bytes) : result MoshError Instruction :=
  raw ← ok_or (decompress_at_most (MAX_INSTRUCTION_BYTES + 1) l) BadInstruction;
  if MAX_INSTRUCTION_BYTES <? zlen raw then Err BadInstruction else ok_or (decode raw) BadInstruction.
End Codec.

(** ** Fragments *)

Record Fragment := mkFragment { id : Z; num : Z; final_fragment : bool; contents : bytes }.

Definition to_bytes (f : Fragment) : bytes :=
  let combined := Z.lor (Z.shiftl (if final_fragment f then 1 else 0) 15) (Z.land (num f) 0x7fff) in
  be_bytes 8 (id f) ++ be_bytes 2 combined ++ contents f.

Definition from_bytes (l : bytes) : result MoshError Fragment :=
  if zlen l <? FRAGMENT_HEADER_LEN then Err ShortFragment
  else
    let combined := from_be (take 2 (drop 8 l)) in
    Ok (mkFragment (from_be (take 8 l)) (Z.land combined 0x7fff) (negb (Z.land combined 0x8000 =? 0)) (drop 10 l)).

Record Fragmenter := mkFragmenter { next_id : Z; last_instruction : option Instruction; last_mtu : option Z }.
Definition default_fragmenter : Fragmenter := mkFragmenter 0 None None.

(** The headers agree; the diff and the padding are not compared. *)
Definition same_header (last inst : Instruction) : bool :=
  bool_decide (protocol_version last = protocol_version inst) && bool_decide (old_num last = old_num inst)
  && bool_decide (new_num last = new_num inst) && bool_decide (ack_num last = ack_num inst)
  && bool_decide (throwaway_num last = throwaway_num inst).

(** [payload.chunks(n)]: the pieces, at most the payload's length of them. *)
Fixpoint chunks (fuel n : nat) (l : bytes) : list bytes :=
  match fuel, l with
  | S fuel, _ :: _ => take n l :: chunks fuel n (drop n l)
  | _, _ => []
  end.

Section Fragments.
Context `{InstructionCodec}.

Definition fragment (inst : Instruction) (mtu : Z) (f : Fragmenter) : Fragmenter * result MoshError (list Fragment) :=
  let body_mtu := Z.to_nat (Z.max (mtu - FRAGMENT_HEADER_LEN) 1) in
  let same :=
    match last_instruction f with Some last => same_header last inst | None => false end
    && bool_decide (last_mtu f = Some mtu) in
  let id := if same then next_id f else wrap 64 (next_id f + 1) in
  let f := mkFragmenter id (Some inst) (Some mtu) in
  (f,
   payload ← to_compressed inst;
   let total := div_ceil (length payload) body_mtu in
   Ok (imap (fun i chunk => mkFragment id (wrap 16 (Z.of_nat i)) (Nat.eqb (i + 1) total) chunk)
         (chunks (length payload) body_mtu payload))).

(** ** The assembly *)

Record FragmentAssembly := mkAssembly {
  current_id : option Z;
  fragments : list (option bytes);
  arrived : Z;
  total : option Z;
  stored : Z;
  discarded : bool;
}.
Definition default_assembly : FragmentAssembly := mkAssembly None [] 0 None 0 false.

Definition reset (a : FragmentAssembly) : FragmentAssembly := mkAssembly (current_id a) [] 0 None 0 false.

(** [usize] subtraction. *)
Definition sub_usize (a b : Z) : result MoshError Z := if b <=? a then Ok (a - b) else Panic.

(** [self.fragments.drain(idx + 1..).flatten()], counting what goes. *)
Fixpoint drain (frags : list (option bytes)) (counts : Z * Z) : result MoshError (Z * Z) :=
  match frags with
  | [] => Ok counts
  | None :: rest => drain rest counts
  | Some dropped :: rest =>
      arrived ← sub_usize counts.1 1;
      stored ← sub_usize counts.2 (zlen dropped);
      drain rest (arrived, stored)
  end.

(** [self.fragments.resize(idx + 1, None)] when it is shorter. *)
Definition grow (idx : nat) (frags : list (option bytes)) : list (option bytes) :=
  if (length frags <=? idx)%nat then frags ++ replicate (S idx - length frags) None else frags.

Definition add (frag : Fragment) (a : FragmentAssembly) : result MoshError (FragmentAssembly * bool) :=
  let other := negb (bool_decide (current_id a = Some (id frag))) in
  let a := if other then reset (mkAssembly (Some (id frag)) (fragments a) (arrived a) (total a) (stored a) (discarded a)) else a in
  if negb other && discarded a then Ok (a, false)
  else
    let idx := Z.to_nat (num frag) in
    let frags := grow idx (fragments a) in
    slot ← expect (frags !! idx);
    let replaced := zlen <$> slot in
    let arrived' := match replaced with None => arrived a + 1 | Some _ => arrived a end in
    rest ← sub_usize (stored a) (default 0 replaced);
    let stored' := rest + zlen (contents frag) in
    let frags := <[idx := Some (contents frag)]> frags in
    '(frags, total', (arrived', stored')) ←
      (if final_fragment frag then
         counts ← drain (drop (idx + 1) frags) (arrived', stored');
         Ok (take (idx + 1) frags, Some (Z.of_nat idx + 1), counts)
       else Ok (frags, total a, (arrived', stored')));
    if MAX_INSTRUCTION_BYTES <? stored' then
      Ok (mkAssembly (current_id a) [] 0 None 0 true, false)
    else
      Ok (mkAssembly (current_id a) frags arrived' total' stored' (discarded a),
          bool_decide (total' = Some arrived')).

(** The pieces in order, or [None] while one is missing. *)
Fixpoint concatenated (frags : list (option bytes)) : option bytes :=
  match frags with
  | [] => Some []
  | None :: _ => None
  | Some l :: rest => more ← concatenated rest; Some (l ++ more)
  end.

Definition take_instruction (a : FragmentAssembly) : FragmentAssembly * result MoshError (option Instruction) :=
  if negb (bool_decide (total a = Some (arrived a))) then (a, Ok None)
  else match concatenated (fragments a) with
       | None => (a, Ok None)
       | Some encoded => (reset a, Some <$> from_compressed encoded)
       end.

End Fragments.
End Instruction.
