(* ===== verification/Assembly.v ===== *)
(** * The client's assembly of fragments

    The accounts [FragmentAssembly] keeps are those of what it holds, which stays
    under the cap whatever arrives, and the fragments of an instruction give the
    instruction back in whatever order they come. *)
From Stdlib Require Import ZArith Lia List Bool.
From stdpp Require Import base numbers list.
From S2P Require Import Prelude Instruction.
Open Scope Z_scope.
Open Scope zetta_scope.

Module Assembly.
Import Instruction.

(** ** What is held *)

Definition count_some (frags : list (option bytes)) : Z := zlen (omap (fun o => o) frags).
Fixpoint held (frags : list (option bytes)) : Z :=
  match frags with [] => 0 | Some l :: rest => zlen l + held rest | None :: rest => held rest end.

Lemma count_some_cons o frags : count_some (o :: frags) = (match o with Some _ => 1 | None => 0 end) + count_some frags.
Proof. unfold count_some, zlen. destruct o; cbn [omap list_omap length]; lia. Qed.
Lemma count_some_app a b : count_some (a ++ b) = count_some a + count_some b.
Proof. unfold count_some. by rewrite omap_app, zlen_app. Qed.
Lemma held_app a b : held (a ++ b) = held a + held b.
Proof. induction a as [|[l|] a IH]; cbn; lia. Qed.
Lemma count_some_nonneg frags : 0 <= count_some frags.
Proof. apply zlen_nonneg. Qed.
Lemma held_nonneg frags : 0 <= held frags.
Proof. induction frags as [|[l|] frags IH]; cbn; [lia | pose proof (zlen_nonneg l); lia | done]. Qed.
Lemma nothing_held n : count_some (replicate n None) = 0 /\ held (replicate n None) = 0.
Proof. induction n as [|n [IHc IHh]]; [done|]. cbn [replicate held]. by rewrite count_some_cons, IHc. Qed.

(** A slot's part of the accounts. *)
Definition slot_count (o : option bytes) : Z := match o with Some _ => 1 | None => 0 end.
Definition slot_size (o : option bytes) : Z := default 0 (zlen <$> o).

Lemma split_slot frags i o :
  frags !! i = Some o ->
  count_some frags = count_some (take i frags) + slot_count o + count_some (drop (S i) frags) /\
  held frags = held (take i frags) + slot_size o + held (drop (S i) frags).
Proof.
  intros Ho. rewrite <- (take_drop_middle frags i o Ho) at 1 4.
  rewrite count_some_app, held_app, count_some_cons. cbn [held]. unfold slot_count, slot_size. destruct o; cbn; lia.
Qed.

Lemma insert_slot frags i o l :
  frags !! i = Some o ->
  count_some (<[i := Some l]> frags) = count_some frags - slot_count o + 1 /\
  held (<[i := Some l]> frags) = held frags - slot_size o + zlen l.
Proof.
  intros Ho. pose proof (lookup_lt_Some _ _ _ Ho) as Hlt.
  destruct (split_slot frags i o Ho) as [-> ->].
  destruct (split_slot (<[i := Some l]> frags) i (Some l) (list_lookup_insert_eq _ _ _ Hlt)) as [-> ->].
  rewrite take_insert_ge, drop_insert_lt by lia. unfold slot_count, slot_size. cbn. lia.
Qed.

Lemma drain_counts frags x y :
  count_some frags <= x -> held frags <= y -> drain frags (x, y) = Ok (x - count_some frags, y - held frags).
Proof.
  revert x y. induction frags as [|[l|] frags IH]; intros x y Hx Hy; cbn [drain held] in *.
  - change (count_some []) with 0. by rewrite !Z.sub_0_r.
  - rewrite count_some_cons in *. pose proof (count_some_nonneg frags). pose proof (held_nonneg frags).
    pose proof (zlen_nonneg l). cbn [fst snd]. unfold sub_usize. rewrite !(proj2 (Z.leb_le _ _)) by lia.
    cbn [mbind result_bind]. rewrite IH by lia. do 2 f_equal; lia.
  - rewrite count_some_cons in *. by apply IH.
Qed.

Lemma grow_spec i frags :
  count_some (grow i frags) = count_some frags /\ held (grow i frags) = held frags /\
  length (grow i frags) = Nat.max (length frags) (S i) /\
  (forall j, grow i frags !! j = match frags !! j with Some o => Some o | None => if (j <? Nat.max (length frags) (S i))%nat then Some None else None end).
Proof.
  unfold grow. destruct (Nat.leb_spec (length frags) i) as [Hle|Hlt].
  - rewrite count_some_app, held_app, length_app, length_replicate.
    destruct (nothing_held (S i - length frags)) as [-> ->]. split_and!; [lia | lia | lia |].
    intros j. destruct (frags !! j) as [o|] eqn:Hj.
    + rewrite lookup_app_l; [done|]. by apply lookup_lt_Some in Hj.
    + apply lookup_ge_None in Hj. rewrite lookup_app_r by done.
      destruct (Nat.ltb_spec j (Nat.max (length frags) (S i))).
      * apply lookup_replicate_2. lia.
      * apply lookup_ge_None. rewrite length_replicate. lia.
  - split_and!; [done | done | lia |]. intros j. destruct (frags !! j) eqn:Hj; [done|].
    apply lookup_ge_None in Hj. by rewrite (proj2 (Nat.ltb_ge _ _)) by lia.
Qed.

(** ** The accounts *)

Record accounts (a : FragmentAssembly) : Prop := {
  acc_arrived : arrived a = count_some (fragments a);
  acc_stored : stored a = held (fragments a);
  acc_bounded : stored a <= MAX_INSTRUCTION_BYTES;
}.

Lemma default_accounts : accounts default_assembly.
Proof. by split. Qed.
Lemma reset_accounts a : accounts (reset a).
Proof. by split. Qed.

(** The assembly a fragment is added to. *)
Definition entered (frag : Fragment) (a : FragmentAssembly) : FragmentAssembly :=
  if bool_decide (current_id a = Some (id frag)) then a
  else mkAssembly (Some (id frag)) [] 0 None 0 false.

Lemma entered_accounts frag a : accounts a -> accounts (entered frag a).
Proof. intros Ha. unfold entered. destruct (bool_decide _); [done | by split]. Qed.

(** The pieces after a fragment, and the number of the last once it is known. *)
Definition placed (frag : Fragment) (a : FragmentAssembly) : list (option bytes) * option Z :=
  let idx := Z.to_nat (num frag) in
  let frags := <[idx := Some (contents frag)]> (grow idx (fragments a)) in
  if final_fragment frag then (take (idx + 1) frags, Some (Z.of_nat idx + 1)) else (frags, total a).

Lemma add_spec frag a :
  accounts a ->
  add frag a =
    let a' := entered frag a in
    let '(frags, total') := placed frag a' in
    Ok (if discarded a' && bool_decide (current_id a = Some (id frag)) then (a', false)
        else if MAX_INSTRUCTION_BYTES <? held frags then (mkAssembly (Some (id frag)) [] 0 None 0 true, false)
        else (mkAssembly (Some (id frag)) frags (count_some frags) total' (held frags) (discarded a'),
              bool_decide (total' = Some (count_some frags)))).
Proof.
  intros Ha. pose proof (entered_accounts frag a Ha) as He. unfold add. cbv zeta.
  set (a1 := if negb (bool_decide (current_id a = Some (id frag))) then _ else _).
  assert (a1 = entered frag a) as ->.
  { unfold a1, entered. by destruct (bool_decide _). }
  rewrite negb_involutive. set (a' := entered frag a) in *.
  assert (current_id a' = Some (id frag)) as Hid.
  { unfold a', entered. by destruct (bool_decide_reflect (current_id a = Some (id frag))). }
  rewrite andb_comm. destruct (discarded a' && _) eqn:Hdis; [by destruct (placed frag a')|].
  unfold placed. cbv zeta. set (idx := Z.to_nat (num frag)).
  destruct (grow_spec idx (fragments a')) as (Hgc & Hgh & Hgl & Hglook).
  assert (exists slot, grow idx (fragments a') !! idx = Some slot) as [slot Hslot].
  { apply lookup_lt_is_Some_2. rewrite Hgl. lia. }
  rewrite Hslot. cbn [expect mbind result_bind].
  destruct (insert_slot _ _ _ (contents frag) Hslot) as [Hic Hih].
  set (frags := <[idx := Some (contents frag)]> (grow idx (fragments a'))) in *.
  destruct He as [Harr Hst Hb]. destruct (split_slot _ _ _ Hslot) as [Hsc Hsh].
  pose proof (held_nonneg (take idx (grow idx (fragments a')))). pose proof (held_nonneg (drop (S idx) (grow idx (fragments a')))).
  fold (slot_size slot). unfold sub_usize at 1. rewrite (proj2 (Z.leb_le _ _)) by lia. cbn [mbind result_bind].
  assert ((match zlen <$> slot with None => arrived a' + 1 | Some _ => arrived a' end) = count_some frags) as ->.
  { rewrite Hic, Harr, <- Hgc. unfold slot_count. destruct slot; cbn; lia. }
  replace (stored a' - slot_size slot + zlen (contents frag)) with (held frags) by lia.
  rewrite Hid. destruct (final_fragment frag).
  - pose proof (held_app (take (idx + 1) frags) (drop (idx + 1) frags)) as Hh.
    pose proof (count_some_app (take (idx + 1) frags) (drop (idx + 1) frags)) as Hc. rewrite take_drop in Hh, Hc.
    pose proof (held_nonneg (take (idx + 1) frags)). pose proof (count_some_nonneg (take (idx + 1) frags)).
    rewrite drain_counts by lia. cbn [mbind result_bind].
    replace (held frags - held (drop (idx + 1) frags)) with (held (take (idx + 1) frags)) by lia.
    replace (count_some frags - count_some (drop (idx + 1) frags)) with (count_some (take (idx + 1) frags)) by lia.
    by destruct (_ <? _).
  - cbn [mbind result_bind]. by destruct (_ <? _).
Qed.

Lemma add_accounts frag a a' done :
  accounts a -> add frag a = Ok (a', done) -> accounts a'.
Proof.
  intros Ha. rewrite add_spec by exact Ha. cbv zeta. destruct (placed frag (entered frag a)) as [frags total'].
  destruct (_ && _); [intros [= <- _]; by apply entered_accounts|].
  destruct (Z.ltb_spec MAX_INSTRUCTION_BYTES (held frags)); intros [= <- _]; by split.
Qed.

Fixpoint add_all (frags : list Fragment) (a : FragmentAssembly) : result MoshError FragmentAssembly :=
  match frags with
  | [] => Ok a
  | f :: rest => '(a, _) ← add f a; add_all rest a
  end.

(** C38. Whatever fragments arrive: none makes the assembly panic, its counts are
    those of the pieces it holds, and the pieces are never more than an
    instruction may be. *)
Theorem assembly_is_bounded frags :
  exists a, add_all frags default_assembly = Ok a /\
    arrived a = count_some (fragments a) /\ stored a = held (fragments a) /\
    held (fragments a) <= MAX_INSTRUCTION_BYTES.
Proof.
  assert (forall a, accounts a -> exists a', add_all frags a = Ok a' /\ accounts a') as H.
  { induction frags as [|f frags IH]; intros a Ha; [by exists a|]. cbn [add_all].
    destruct (add f a) as [[a' done]| |] eqn:Hadd.
    - apply IH. by eapply add_accounts.
    - rewrite add_spec in Hadd by done. cbv zeta in Hadd. by destruct (placed _ _).
    - rewrite add_spec in Hadd by done. cbv zeta in Hadd. by destruct (placed _ _). }
  destruct (H _ default_accounts) as (a & Ha & []). exists a. split_and!; [done..|]. lia.
Qed.

(** ** Any order *)
Section Order.
Context (key : Z) (ps : list bytes).
Hypothesis Hsize : held (Some <$> ps) <= MAX_INSTRUCTION_BYTES.

(** The [i]th fragment of an instruction. *)
Definition piece (i : nat) : Fragment :=
  mkFragment key (Z.of_nat i) (Nat.eqb (i + 1) (length ps)) (default [] (ps !! i)).

Definition slot (seen : list nat) (i : nat) : option bytes := if decide (i ∈ seen) then ps !! i else None.

(** The pieces seen are in their places. *)
Record collected (seen : list nat) (a : FragmentAssembly) : Prop := {
  col_accounts : accounts a;
  col_id : current_id a = Some key;
  col_kept : discarded a = false;
  col_short : (length (fragments a) <= length ps)%nat;
  col_slots : forall i, (i < length (fragments a))%nat -> fragments a !! i = Some (slot seen i);
  col_inside : forall i, i ∈ seen -> (i < length (fragments a))%nat;
  col_total : total a = if decide ((length ps - 1)%nat ∈ seen) then Some (Z.of_nat (length ps)) else None;
}.

Lemma slots_held frags seen k :
  (k + length frags <= length ps)%nat ->
  (forall i, (i < length frags)%nat -> frags !! i = Some (slot seen (k + i))) ->
  held frags <= held (Some <$> drop k ps).
Proof using Type.
  revert k. induction frags as [|o frags IH]; intros k Hk Hslots; [apply held_nonneg|].
  cbn [length] in Hk. destruct (lookup_lt_is_Some_2 ps k ltac:(lia)) as [p Hp].
  rewrite (drop_S _ _ _ Hp), fmap_cons. cbn [held].
  assert (held frags <= held (Some <$> drop (S k) ps)) as Hrest.
  { apply IH; [lia|]. intros i Hi. specialize (Hslots (S i) ltac:(cbn; lia)). cbn in Hslots.
    by replace (S k + i)%nat with (k + S i)%nat by lia. }
  specialize (Hslots O ltac:(cbn; lia)). cbn in Hslots. injection Hslots as ->. rewrite Nat.add_0_r. unfold slot.
  destruct (decide _); [rewrite Hp|]; [lia | pose proof (zlen_nonneg p); lia].
Qed.

Lemma fresh_collected : collected [] (mkAssembly (Some key) [] 0 None 0 false).
Proof using Type.
  split; try done; cbn; [lia | intros i Hi; lia | by intros i Hi%elem_of_nil].
Qed.

Lemma piece_added seen a i :
  collected seen a -> (i < length ps)%nat ->
  exists a' done, add (piece i) a = Ok (a', done) /\ collected (i :: seen) a'.
Proof using Hsize.
  intros [Hacc Hid Hkept Hshort Hslots Hinside Htotal] Hi. rewrite add_spec by done.
  assert (entered (piece i) a = a) as ->.
  { unfold entered. by rewrite bool_decide_eq_true_2. }
  cbv zeta. rewrite Hkept. cbn [andb]. unfold placed, piece. cbn [num contents final_fragment Instruction.id]. rewrite Nat2Z.id.
  destruct (grow_spec i (fragments a)) as (_ & _ & Hgl & Hglook).
  destruct (lookup_lt_is_Some_2 ps i Hi) as [p Hp]. rewrite Hp. change (default [] (Some p)) with p.
  set (grown := grow i (fragments a)) in *. set (frags := <[i := Some p]> grown).
  assert (length frags = Nat.max (length (fragments a)) (S i)) as Hlen by (unfold frags; by rewrite length_insert).
  assert (forall j, (j < length frags)%nat -> frags !! j = Some (slot (i :: seen) j)) as Hnew.
  { intros j Hj. unfold frags. destruct (decide (j = i)) as [->|Hne].
    - rewrite list_lookup_insert_eq by lia. unfold slot. by rewrite decide_True, Hp by (by left).
    - rewrite list_lookup_insert_ne, Hglook by done. unfold slot.
      destruct (fragments a !! j) as [o|] eqn:Hf.
      + pose proof (lookup_lt_Some _ _ _ Hf) as Hlt. rewrite Hslots in Hf by done. injection Hf as <-. unfold slot.
        destruct (decide (j ∈ seen)) as [Hin|Hin]; [by rewrite decide_True by (by right)|].
        rewrite decide_False; [done|]. by intros [->|?]%elem_of_cons.
      + rewrite (proj2 (Nat.ltb_lt _ _)) by lia. apply lookup_ge_None in Hf. rewrite decide_False; [done|].
        intros [->|Hin]%elem_of_cons; [done|]. apply Hinside in Hin. lia. }
  assert (held frags <= MAX_INSTRUCTION_BYTES) as Hheld.
  { pose proof (slots_held frags (i :: seen) 0 ltac:(lia) Hnew) as H. rewrite drop_0 in H. lia. }
  assert (take (i + 1) frags = frags \/ (i + 1 < length ps)%nat) as Htake.
  { destruct (decide (i + 1 = length ps)%nat); [left; apply take_ge; lia | right; lia]. }
  set (final := Nat.eqb (i + 1) (length ps)).
  assert ((if final then (take (i + 1) frags, Some (Z.of_nat i + 1)) else (frags, total a)) =
    (frags, if final then Some (Z.of_nat (length ps)) else total a)) as ->.
  { unfold final. destruct (Nat.eqb_spec (i + 1) (length ps)) as [He|He]; [|done].
    destruct Htake as [->|]; [|lia]. do 2 f_equal. lia. }
  rewrite (proj2 (Z.ltb_ge _ _)) by done. do 2 eexists. split; [done|].
  split; cbn; try done; [lia | | ].
  - intros j [->|Hj]%elem_of_cons; [lia|]. apply Hinside in Hj. lia.
  - rewrite Htotal. unfold final. destruct (Nat.eqb_spec (i + 1) (length ps)) as [He|He].
    + rewrite decide_True; [done|]. apply elem_of_cons. left. lia.
    + destruct (decide (_ ∈ seen)) as [Hin|Hin]; [by rewrite decide_True by (by right)|].
      rewrite decide_False; [done|]. intros [?|?]%elem_of_cons; [lia | done].
Qed.

Lemma pieces_added is_ seen a :
  collected seen a -> Forall (fun i => (i < length ps)%nat) is_ ->
  exists a', add_all (piece <$> is_) a = Ok a' /\ collected (rev is_ ++ seen) a'.
Proof using Hsize.
  intros Ha His. revert seen a Ha. induction His as [|i is_ Hi _ IH]; intros seen a Ha; [by exists a|].
  destruct (piece_added seen a i Ha Hi) as (a1 & done & Hadd & Ha1). cbn [fmap list_fmap add_all]. rewrite Hadd.
  cbn [mbind result_bind]. destruct (IH _ _ Ha1) as (a2 & Hall & Ha2). exists a2. split; [done|].
  cbn [rev]. by rewrite <- app_assoc.
Qed.

(** An assembly that was on something else starts afresh. *)
Lemma add_entering a i :
  accounts a -> current_id a <> Some key -> add (piece i) a = add (piece i) (mkAssembly (Some key) [] 0 None 0 false).
Proof using Type.
  intros Ha Hid. rewrite !add_spec by (done || by split). unfold entered. cbn [Instruction.id piece current_id].
  rewrite (bool_decide_eq_false_2 (current_id a = Some key)), bool_decide_eq_true_2 by done. done.
Qed.

Lemma concatenated_all : concatenated (Some <$> ps) = Some (concat ps).
Proof using Type.
  clear. induction ps as [|p l IH]; [done|]. change (concatenated (Some <$> p :: l)) with (concatenated (Some p :: (Some <$> l))).
  cbn. by rewrite IH.
Qed.

Lemma count_all : count_some (Some <$> ps) = Z.of_nat (length ps).
Proof using Type. clear. induction ps as [|p l IH]; [done|]. rewrite fmap_cons, count_some_cons, IH. cbn [length]. lia. Qed.

(** With every piece seen, they are all in place. *)
Lemma all_collected seen a :
  ps <> [] -> collected seen a -> (forall i, (i < length ps)%nat -> i ∈ seen) ->
  fragments a = Some <$> ps /\ total a = Some (arrived a).
Proof using Type.
  clear Hsize. intros Hne [[Harr _ _] Hid Hkept Hshort Hslots Hinside Htotal] Hall.
  assert (length (fragments a) = length ps) as Hlen.
  { assert (0 < length ps)%nat by (destruct ps; [done | cbn; lia]).
    pose proof (Hinside (length ps - 1)%nat (Hall (length ps - 1)%nat ltac:(lia))). lia. }
  assert (fragments a = Some <$> ps) as Hf.
  { apply list_eq. intros i. rewrite list_lookup_fmap. destruct (decide (i < length ps)%nat) as [Hi|Hi].
    - rewrite Hslots by lia. unfold slot. rewrite decide_True by (by apply Hall).
      by destruct (lookup_lt_is_Some_2 ps i Hi) as [p ->].
    - rewrite !lookup_ge_None_2 by lia. done. }
  split; [done|]. rewrite Htotal, decide_True, Harr, Hf, count_all; [done|].
  apply Hall. destruct ps; [done | cbn; lia].
Qed.

End Order.

(** ** A fragmented instruction *)
Section RoundTrip.
Context `{InstructionCodec}.

Lemma chunks_concat fuel n l : (1 <= n)%nat -> (length l <= fuel)%nat -> concat (chunks fuel n l) = l.
Proof.
  intros Hn. revert l. induction fuel as [|fuel IH]; intros l Hl; [by destruct l; [|cbn in Hl; lia]|].
  cbn [chunks]. destruct l as [|b l]; [done|]. cbn [concat]. rewrite IH; [apply take_drop|]. rewrite length_drop. cbn in *. lia.
Qed.

Lemma chunks_length fuel n l :
  (1 <= n)%nat -> (length l <= fuel)%nat -> length (chunks fuel n l) = div_ceil (length l) n.
Proof.
  intros Hn. revert l. induction fuel as [|fuel IH]; intros l Hl.
  { destruct l; [|cbn in Hl; lia]. cbn [chunks length]. unfold div_ceil. symmetry. apply Nat.div_small. lia. }
  cbn [chunks]. destruct l as [|b l]; [unfold div_ceil; symmetry; apply Nat.div_small; cbn; lia|].
  cbn [length]. rewrite IH by (rewrite length_drop; cbn in *; lia). rewrite length_drop. cbn [length]. unfold div_ceil.
  destruct (Nat.le_gt_cases (S (length l)) n) as [Hle|Hgt].
  - replace (S (length l) - n + n - 1)%nat with (n - 1)%nat by lia. rewrite (Nat.div_small (n - 1) n) by lia.
    replace (S (length l) + n - 1)%nat with (length l + 1 * n)%nat by lia.
    rewrite Nat.div_add, Nat.div_small by lia. done.
  - replace (S (length l) + n - 1)%nat with ((S (length l) - n + n - 1) + 1 * n)%nat by lia.
    rewrite Nat.div_add by lia. lia.
Qed.

Lemma held_concat ps : held (Some <$> ps) = zlen (concat ps).
Proof. induction ps as [|p ps IH]; [done|]. rewrite fmap_cons. cbn [held concat]. rewrite zlen_app, IH. done. Qed.

(** What the peer makes of the compressed bytes. *)
Definition reads_back (inst : Instruction) : Prop :=
  forall payload, to_compressed inst = Ok payload ->
    payload <> [] /\ zlen payload <= MAX_INSTRUCTION_BYTES /\ from_compressed payload = Ok inst.

(** C37. The fragments of an instruction, delivered in any order and any number of
    times to an assembly that was on another instruction or on none, give the
    instruction back. *)
Theorem reassembled_in_any_order inst mtu f f' frags arrivals a :
  reads_back inst -> fragment inst mtu f = (f', Ok frags) -> Z.of_nat (length frags) <= 2 ^ 15 ->
  accounts a -> current_id a <> Some (next_id f') ->
  Forall (fun g => g ∈ frags) arrivals -> Forall (fun g => g ∈ arrivals) frags ->
  exists a', add_all arrivals a = Ok a' /\ (take_instruction a').2 = Ok (Some inst).
Proof.
  intros Hreads Hfrag Hcount Ha Hid Harr Hall. unfold fragment in Hfrag. cbv zeta in Hfrag.
  set (id := if _ && _ then next_id f else _) in Hfrag. injection Hfrag as <- Hfrag. cbn [next_id] in Hid.
  apply bind_ok_inv in Hfrag as (payload & Hp & Hfrag). injection Hfrag as <-.
  destruct (Hreads payload Hp) as (Hne & Hsize & Hback).
  set (n := Z.to_nat (Z.max (mtu - FRAGMENT_HEADER_LEN) 1)) in *.
  set (ps := chunks (length payload) n payload) in *.
  assert (1 <= n)%nat as Hn by (unfold n; lia).
  assert (concat ps = payload) as Hconcat by (by apply chunks_concat).
  assert (length ps = div_ceil (length payload) n) as Hlen by (by apply chunks_length).
  assert (Z.of_nat (length ps) <= 2 ^ 15) as Hcount' by (by rewrite length_imap in Hcount).
  assert (imap (fun i chunk => mkFragment id (wrap 16 (Z.of_nat i)) (Nat.eqb (i + 1) (div_ceil (length payload) n)) chunk) ps
    = piece id ps <$> seq 0 (length ps)) as Himap.
  { apply list_eq. intros i. rewrite list_lookup_imap, list_lookup_fmap.
    destruct (ps !! i) as [p|] eqn:Hi.
    - pose proof (lookup_lt_Some _ _ _ Hi) as Hlt. rewrite lookup_seq_lt by done. cbn. unfold piece. rewrite Hi, Hlen.
      rewrite wrap_small; [done|]. unfold fits. change (2 ^ 16) with 65536. change (2 ^ 15) with 32768 in Hcount'. lia.
    - apply lookup_ge_None in Hi. by rewrite lookup_seq_ge. }
  rewrite Himap in *.
  assert (exists is_, arrivals = piece id ps <$> is_ /\ Forall (fun i => (i < length ps)%nat) is_) as (is_ & -> & His).
  { clear -Harr. induction Harr as [|g arrivals Hg _ (is_ & -> & His)]; [by exists []|].
    apply list_elem_of_fmap in Hg as (i & -> & Hi). apply elem_of_seq in Hi. exists (i :: is_). split; [done|].
    constructor; [lia | done]. }
  assert (held (Some <$> ps) <= MAX_INSTRUCTION_BYTES) as Hheld by (by rewrite held_concat, Hconcat).
  assert (ps <> []) as Hps by (intros E; rewrite E in Hconcat; by rewrite <- Hconcat in Hne).
  assert (exists a1, add_all (piece id ps <$> is_) a = Ok a1 /\ collected id ps (rev is_) a1) as (a1 & Hadd & Hcol).
  { destruct is_ as [|i is_].
    { exfalso. destruct ps as [|p ps']; [done|]. apply Forall_inv in Hall. by apply elem_of_nil in Hall. }
    destruct (pieces_added id ps Hheld (i :: is_) [] _ (fresh_collected id ps) His) as (a1 & Hadd & Hcol).
    rewrite app_nil_r in Hcol. exists a1. split; [|done]. cbn [fmap list_fmap add_all] in *.
    by rewrite add_entering. }
  exists a1. split; [done|].
  destruct (all_collected id ps (rev is_) a1 Hps Hcol) as [Hf Ht].
  { intros i Hi. rewrite Forall_forall in Hall. specialize (Hall (piece id ps i)).
    assert (piece id ps i ∈ piece id ps <$> is_) as Hin.
    { apply Hall, list_elem_of_fmap_2, elem_of_seq. lia. }
    apply list_elem_of_fmap in Hin as (j & Heq & Hj). apply (f_equal num) in Heq. cbn in Heq.
    apply Nat2Z.inj in Heq as ->. by rewrite elem_of_reverse || (apply list_elem_of_In, in_rev; rewrite rev_involutive; by apply list_elem_of_In). }
  unfold take_instruction. rewrite Ht, bool_decide_eq_true_2, Hf, concatenated_all, Hconcat by done. cbn [negb snd]. by rewrite Hback.
Qed.
End RoundTrip.

End Assembly.

(** ** A codec to try it on *)

Module SampleCodec.
Import Instruction Assembly.

(** An instruction's diff is all it is written as, and compression does nothing. *)
#[export] Instance sample_codec : InstructionCodec := {
  encode_to_vec i := default [] (diff i);
  decode l := Some (new 1 2 3 0 l []);
  compress l := Some l;
  decompress_at_most n l := Some (take (Z.to_nat n) l);
}.

Definition hello : Instruction := new 1 2 3 0 (be_bytes 8 0x68656c6c6f212121 ++ be_bytes 8 0x68656c6c6f212121) [].
Definition pieces : list Fragment :=
  match (fragment hello 16 default_fragmenter).2 with Ok frags => frags | _ => [] end.

Lemma hello_reads_back : reads_back hello.
Proof. intros payload [= <-]. split_and!; [discriminate | by vm_compute | vm_compute; reflexivity]. Qed.

Lemma reassembled_in_any_order_witness :
  length pieces = 3%nat /\ exists a', add_all (rev pieces ++ pieces) default_assembly = Ok a' /\ (take_instruction a').2 = Ok (Some hello).
Proof.
  split; [vm_compute; reflexivity|].
  refine (reassembled_in_any_order hello 16 default_fragmenter (fragment hello 16 default_fragmenter).1 pieces (rev pieces ++ pieces) default_assembly
    hello_reads_back _ _ default_accounts _ _ _).
  - vm_compute. reflexivity.
  - vm_compute. discriminate.
  - discriminate.
  - apply Forall_app. split; apply Forall_forall; intros g; [by rewrite list_elem_of_In, <- in_rev, <- list_elem_of_In | done].
  - apply Forall_forall. intros g Hg. apply elem_of_app. by right.
Defined.
End SampleCodec.
