(* ===== verification/Sender.v ===== *)
(** * The client's sender

    Models [TransportSender] of [crates/mosh_rs/src/sender.rs]: the states sent
    and not yet known held, the state the peer is assumed to hold, the timers, and
    the instruction a tick builds.  Times are u64 milliseconds, whose additions
    wrap as the release build's do; the smoothed round trip and the timeout are
    f64.  What is proved of it is in [SenderRuns]. *)
From Stdlib Require Import ZArith Lia List Bool SpecFloat.
From stdpp Require Import base numbers list.
From S2P Require Import Prelude Ieee ClientStream Instruction.
Open Scope Z_scope.
Open Scope zetta_scope.

Module Sender.
Import ClientStream.

Definition SEND_INTERVAL_MIN_MS : Z := 20.
Definition SEND_INTERVAL_MAX_MS : Z := 250.
Definition ACK_INTERVAL_MS : Z := 3000.
Definition KEEP_ALIVE_DEFAULT_MS : Z := 500.
Definition ACK_DELAY_MS : Z := 100.
Definition SEND_MINDELAY_MS : Z := 8.
Definition ACTIVE_RETRY_TIMEOUT_MS : Z := 10000.
Definition SHUTDOWN_RETRIES : Z := 16.
Definition PROSPECTIVE_RESEND_MAX : Z := 1000.
Definition PROSPECTIVE_RESEND_SLACK : Z := 100.

Record SentState := mkSent { timestamp : Z; num : Z; state : UserStream }.

Record TransportSender := mkSender {
  sent_states : list SentState;
  current_state : UserStream;
  assumed_receiver : nat;
  ack_num : Z;
  pending_data_ack : bool;
  next_ack_time : Z;
  next_send_time : option Z;
  next_keep_alive : option Z;
  mindelay_clock : option Z;
  last_heard : Z;
  shutting_down : bool;
  shutdown_tries : Z;
  shutdown_start : option Z;
  keep_alive_ms : option Z;
}.
#[export] Instance sender_eta : Eta TransportSender := fun s =>
  mkSender (sent_states s) (current_state s) (assumed_receiver s) (ack_num s) (pending_data_ack s)
    (next_ack_time s) (next_send_time s) (next_keep_alive s) (mindelay_clock s) (last_heard s)
    (shutting_down s) (shutdown_tries s) (shutdown_start s) (keep_alive_ms s).

Definition new : TransportSender :=
  mkSender [mkSent 0 0 []] [] 0 0 false 0 None None None 0 false 0 None None.

(** [state_mut]: what is pushed goes into the live state. *)
Definition with_state (f : UserStream -> UserStream) (s : TransportSender) : TransportSender :=
  s <| current_state := f (current_state s) |>.

Definition set_keep_alive (interval_ms : option Z) (s : TransportSender) : TransportSender :=
  s <| keep_alive_ms := (interval ← interval_ms; if 0 <? interval then Some interval else None) |>.

Definition process_acknowledgement (n : Z) (s : TransportSender) : TransportSender :=
  if negb (existsb (fun st => num st =? n) (sent_states s)) then s
  else
    let keep_from := default O (position (fun st => n <=? num st) (sent_states s)) in
    s <| sent_states := drop keep_from (sent_states s) |>
      <| assumed_receiver := (assumed_receiver s - keep_from)%nat |>.

Definition set_ack_num (n : Z) (has_data : bool) (now : Z) (s : TransportSender) : TransportSender :=
  let s := s <| ack_num := n |> <| last_heard := now |> in
  if has_data then s <| pending_data_ack := true |> else s.

Definition interval (srtt_ms : spec_float) : Z :=
  let half := Ieee.div (H:=Ieee.f64) srtt_ms (Ieee.of_int (H:=Ieee.f64) 2) in
  Z.min (Z.max (Ieee.as_u64 (Ieee.ceil (H:=Ieee.f64) half)) SEND_INTERVAL_MIN_MS) SEND_INTERVAL_MAX_MS.

Definition sent_state_last {E} (s : TransportSender) : result E Z :=
  last_state ← expect (last (sent_states s)); Ok (num last_state).
Definition sent_state_acked_timestamp {E} (s : TransportSender) : result E Z :=
  first ← expect (head (sent_states s)); Ok (timestamp first).

(** [a.saturating_sub(b)] and [a + b] on u64 *)
Definition saturating_sub (a b : Z) : Z := Z.max 0 (a - b).
Definition plus (a b : Z) : Z := wrap 64 (a + b).

(** The loop over the states from [idx] on: the last of those sent within the
    window, and before it stops. *)
Fixpoint assumed_from (now window : Z) (idx : nat) (states : list SentState) (assumed : nat) : nat :=
  match states with
  | [] => assumed
  | st :: states =>
      if saturating_sub now (timestamp st) <? window then assumed_from now window (S idx) states idx
      else assumed
  end.
Definition update_assumed_receiver_state (now : Z) (rto_ms : spec_float) (s : TransportSender) : TransportSender :=
  let window := plus (Ieee.as_u64 rto_ms) ACK_DELAY_MS in
  s <| assumed_receiver := assumed_from now window 1 (drop 1 (sent_states s)) 0 |>.

Definition rationalize_states {E} (s : TransportSender) : result E TransportSender :=
  first ← expect (head (sent_states s));
  let known := state first in
  Ok (s <| current_state := (subtract (current_state s) known).1 |>
        <| sent_states := (fun st => mkSent (timestamp st) (num st) (subtract (state st) known).1) <$> sent_states s |>).

(** When the data is next due: input not sent yet, a state not believed held, or
    one not acknowledged. The clock of the collect delay starts with the first of them. *)
Definition schedule_send (now interval rto : Z) (active : bool) (last_sent assumed first : SentState)
    (s : TransportSender) : TransportSender :=
  if negb (bool_decide (current_state s = state last_sent)) then
    let mindelay := default now (mindelay_clock s) in
    s <| mindelay_clock := Some mindelay |>
      <| next_send_time := Some (Z.max (plus mindelay SEND_MINDELAY_MS) (plus (timestamp last_sent) interval)) |>
  else if negb (bool_decide (current_state s = state assumed)) && active then
    let t := plus (timestamp last_sent) interval in
    let t := match mindelay_clock s with Some mindelay => Z.max t (plus mindelay SEND_MINDELAY_MS) | None => t end in
    s <| next_send_time := Some t |>
  else if negb (bool_decide (current_state s = state first)) && active then
    s <| next_send_time := Some (plus (plus (timestamp last_sent) rto) ACK_DELAY_MS) |>
  else s <| next_send_time := None |>.

(** The deadlines, once the states are in order. *)
Definition set_timers (now : Z) (srtt_ms rto_ms : spec_float) (last_sent assumed first : SentState)
    (s : TransportSender) : TransportSender :=
  let s :=
    if pending_data_ack s && (plus now ACK_DELAY_MS <? next_ack_time s)
    then s <| next_ack_time := plus now ACK_DELAY_MS |> else s in
  let interval := interval srtt_ms in
  let active := now <? plus (last_heard s) ACTIVE_RETRY_TIMEOUT_MS in
  let s := schedule_send now interval (Ieee.as_u64 rto_ms) active last_sent assumed first s in
  let s := s <| next_keep_alive :=
    (keep_alive ← keep_alive_ms s;
     if active && negb (shutting_down s) then Some (plus (timestamp last_sent) keep_alive) else None) |> in
  if shutting_down s || (ack_num s =? Instruction.SHUTDOWN_NUM)
  then s <| next_ack_time := plus (timestamp last_sent) interval |> else s.

Definition calculate_timers {E} (now : Z) (srtt_ms rto_ms : spec_float) (s : TransportSender) : result E TransportSender :=
  s ← rationalize_states (update_assumed_receiver_state now rto_ms s);
  last_sent ← expect (last (sent_states s));
  assumed ← expect (sent_states s !! assumed_receiver s);
  first ← expect (sent_states s !! O);
  Ok (set_timers now srtt_ms rto_ms last_sent assumed first s).

Definition next_due (s : TransportSender) : option Z :=
  let due := next_ack_time s in
  let due := match next_send_time s with Some send => Z.min due send | None => due end in
  let due := match next_keep_alive s with Some keep_alive => Z.min due keep_alive | None => due end in
  Some due.

Definition wait_time {E} (now : Z) (srtt_ms rto_ms : spec_float) (s : TransportSender) : result E (TransportSender * Z) :=
  s ← calculate_timers now srtt_ms rto_ms s;
  Ok (s, match next_due s with None => u64_max | Some due => saturating_sub due now end).

(** Whether a time has come. *)
Definition reached (due : option Z) (now : Z) : bool := match due with Some t => t <=? now | None => false end.

Section Ticks.
Context `{Prost} {E : Type}.

(** The keep-alive minted when one is due. *)
Definition mint_keep_alive (now : Z) (srtt_ms rto_ms : spec_float) (s : TransportSender) : result E (TransportSender * bool) :=
  let keep_alive_due := reached (next_keep_alive s) now in
  if keep_alive_due then
    let interval := default KEEP_ALIVE_DEFAULT_MS (keep_alive_ms s) in
    let s := with_state (push_keep_alive (default u32_max (try_u32 interval))) s in
    s ← calculate_timers now srtt_ms rto_ms s;
    Ok (s, true)
  else Ok (s, false).

(** The state a diff is computed from: the oldest, where a diff from it is hardly bigger. *)
Definition choose_base (diff : bytes) (first : SentState) (s : TransportSender) : TransportSender * bytes :=
  if Nat.eqb (assumed_receiver s) 0 then (s, diff)
  else match diff_from (current_state s) (state first) with
       | None => (s, diff)
       | Some resend =>
           if (zlen resend <=? zlen diff)
              || ((zlen resend <? PROSPECTIVE_RESEND_MAX)
                  && (saturating_sub (zlen resend) (zlen diff) <? PROSPECTIVE_RESEND_SLACK))
           then (s <| assumed_receiver := O |>, resend)
           else (s, diff)
       end.

(** The history with the state being sent in it: the newest one's time again, or
    a new one, the seventeenth from the front dropped when that makes too many. *)
Definition record_sent (now new_num : Z) (last_state : SentState) (s : TransportSender) : TransportSender :=
  if new_num =? num last_state then
    s <| sent_states := <[(length (sent_states s) - 1)%nat := mkSent now (num last_state) (state last_state)]> (sent_states s) |>
  else
    let states := sent_states s ++ [mkSent now new_num (current_state s)] in
    s <| sent_states := if (32 <? length states)%nat then remove_at (length states - 16) states else states |>.

(** The instruction for a diff, and the books of its sending. *)
Definition send_diff (now : Z) (chaff diff : bytes) (s : TransportSender) : result E (TransportSender * option Instruction.Instruction) :=
  assumed ← expect (sent_states s !! assumed_receiver s);
  let empty := bool_decide (diff = []) in
  let old_num := num assumed in
  last_state ← expect (last (sent_states s));
  let new_num :=
    if shutting_down s then Instruction.SHUTDOWN_NUM
    else if empty then plus (num last_state) 1
    else if bool_decide (current_state s = state last_state) then num last_state
    else plus (num last_state) 1 in
  let s := record_sent now new_num last_state s in
  let s := if negb empty then s <| assumed_receiver := (length (sent_states s) - 1)%nat |> else s in
  let s := if new_num =? Instruction.SHUTDOWN_NUM
           then s <| shutdown_tries := wrap 32 (shutdown_tries s + 1) |> else s in
  let s := s <| next_ack_time := plus now ACK_INTERVAL_MS |> <| next_send_time := None |>
             <| next_keep_alive := None |> <| mindelay_clock := None |> <| pending_data_ack := false |> in
  first ← expect (sent_states s !! O);
  Ok (s, Some (Instruction.new old_num new_num (ack_num s) (num first) diff chaff)).

(** The rest of a tick, once the timers stand. *)
Definition send_when_due (now : Z) (chaff : bytes) (keep_alive_due : bool) (s : TransportSender)
    : result E (TransportSender * option Instruction.Instruction) :=
  let ack_due := next_ack_time s <=? now in
  let send_due := keep_alive_due || reached (next_send_time s) now in
  if negb ack_due && negb send_due then Ok (s, None)
  else
    assumed ← expect (sent_states s !! assumed_receiver s);
    match diff_from (current_state s) (state assumed) with
    | None => Ok (s, None)
    | Some diff =>
        first ← expect (sent_states s !! O);
        let '(s, diff) := choose_base diff first s in
        if bool_decide (diff = []) && negb ack_due
        then Ok (s <| next_send_time := None |> <| mindelay_clock := None |>, None)
        else send_diff now chaff diff s
    end.

Definition tick (now : Z) (srtt_ms rto_ms : spec_float) (chaff : bytes) (s : TransportSender)
    : result E (TransportSender * option Instruction.Instruction) :=
  s ← calculate_timers now srtt_ms rto_ms s;
  '(s, keep_alive_due) ← mint_keep_alive now srtt_ms rto_ms s;
  send_when_due now chaff keep_alive_due s.

End Ticks.

Definition start_shutdown (now : Z) (s : TransportSender) : TransportSender :=
  if negb (shutting_down s) then s <| shutting_down := true |> <| shutdown_start := Some now |> else s.

Definition shutdown_timed_out (now : Z) (s : TransportSender) : bool :=
  match shutdown_start s with
  | None => false
  | Some start => (SHUTDOWN_RETRIES <=? shutdown_tries s) || (ACTIVE_RETRY_TIMEOUT_MS <=? saturating_sub now start)
  end.

Definition shutdown_acknowledged {E} (s : TransportSender) : result E bool :=
  first ← expect (sent_states s !! O); Ok (num first =? Instruction.SHUTDOWN_NUM).

End Sender.
