(* ===== verification/SenderRuns.v ===== *)
(** * Runs of the client's sender

    The sender of [Sender] against the input stream of [ClientStream] and the
    server's [UserStream]: every state it keeps is a stretch of what was typed, and
    every instruction it builds is one the server reads as such a stretch. *)
From Stdlib Require Import ZArith Lia List Bool SpecFloat Sorted.
From stdpp Require Import base numbers list gmap sets sorting.
From S2P Require Import Prelude Ieee Pb UserStream ClientStream Instruction Sender.
Open Scope Z_scope.
Open Scope zetta_scope.

(** ** Stretches of a list *)
Section Stretches.
Context {A : Type}.
Implicit Types (l : list A) (a b c : nat).

Definition stretch l a b : list A := drop a (take b l).

Lemma stretch_app l a b c : (a <= b <= c)%nat -> stretch l a b ++ stretch l b c = stretch l a c.
Proof.
  intros Habc. unfold stretch. rewrite <- (take_drop b (take c l)) at 2. rewrite take_take, Nat.min_l by lia.
  rewrite skipn_app. f_equal. rewrite length_take.
  destruct (Nat.le_gt_cases b (length l)); [by replace (a - b `min` length l)%nat with O by lia|].
  rewrite (drop_ge (take c l) b) by (rewrite length_take; lia). by rewrite drop_nil.
Qed.
Lemma stretch_full l a : stretch l a (length l) = drop a l.
Proof. unfold stretch. by rewrite take_ge. Qed.
Lemma stretch_nil l a : stretch l a a = [].
Proof. unfold stretch. apply drop_ge. rewrite length_take. lia. Qed.
Lemma stretch_length l a b : (a <= b <= length l)%nat -> length (stretch l a b) = (b - a)%nat.
Proof. intros. unfold stretch. rewrite length_drop, length_take. lia. Qed.
Lemma stretch_extend l more a b : (b <= length l)%nat -> stretch (l ++ more) a b = stretch l a b.
Proof. intros. unfold stretch. by rewrite take_app_le. Qed.
Lemma stretch_prefix l a b c : (a <= b <= c)%nat -> stretch l a b `prefix_of` stretch l a c.
Proof. intros. eexists. symmetry. by apply stretch_app. Qed.
Lemma take_stretch l a b : (a <= b)%nat -> take b l = take a l ++ stretch l a b.
Proof. intros Hab. change (take a l) with (stretch l 0 a). rewrite stretch_app by lia. done. Qed.
Lemma in_remove_at i l x : x ∈ remove_at i l -> x ∈ l.
Proof.
  unfold remove_at. intros [Hx|Hx]%elem_of_app.
  - rewrite <- (take_drop i l). by apply elem_of_app; left.
  - rewrite <- (take_drop (S i) l). by apply elem_of_app; right.
Qed.
Lemma drop_stretch l a b c : (a <= b <= c)%nat -> (b <= length l)%nat ->
  drop (length (stretch l a b)) (stretch l a c) = stretch l b c.
Proof. intros. rewrite <- (stretch_app l a b c) by done. apply drop_app_length. Qed.
Lemma stretch_same l a b c : (a <= b <= length l)%nat -> (a <= c <= length l)%nat ->
  stretch l a b = stretch l a c -> b = c.
Proof. intros Hb Hc H%(f_equal length). rewrite !stretch_length in H by done. lia. Qed.
End Stretches.

(** ** The invariant

    [typed] is all that was pushed, [minted] the length of it each state number
    stands for, [base] how much of it has been subtracted. *)
Section Follows.
Import ClientStream Sender.

Definition stands_for (typed : UserStream) (minted : list nat) (base : nat) (st : SentState) : Prop :=
  0 <= num st /\ exists len, minted !! Z.to_nat (num st) = Some len /\ (base <= len)%nat /\ state st = stretch typed base len.

Record minting (typed : UserStream) (minted : list nat) : Prop := {
  m_first : minted !! O = Some O;
  m_sorted : forall i j a b, (i <= j)%nat -> minted !! i = Some a -> minted !! j = Some b -> (a <= b)%nat;
  m_within : forall i a, minted !! i = Some a -> (a <= length typed)%nat;
}.

Record follows (typed : UserStream) (minted : list nat) (base : nat) (s : TransportSender) : Prop := {
  f_minting : minting typed minted;
  f_base : (base <= length typed)%nat;
  f_current : current_state s = stretch typed base (length typed);
  f_sent : Forall (stands_for typed minted base) (sent_states s);
  f_ascending : StronglySorted Z.lt (num <$> sent_states s);
  f_last : exists init st, sent_states s = init ++ [st] /\ num st = Z.of_nat (length minted) - 1;
  f_assumed : (assumed_receiver s < length (sent_states s))%nat;
}.

Lemma new_follows : follows [] [O] 0 new.
Proof.
  split; cbn; try done; [split| | | |].
  - done.
  - intros i j a b _ Hi Hj. apply list_lookup_singleton_Some in Hi as [_ <-], Hj as [_ <-]. lia.
  - intros i a Hi. apply list_lookup_singleton_Some in Hi as [_ <-]. cbn. lia.
  - constructor; [|constructor]. split; [done|]. by exists O.
  - repeat constructor.
  - by exists [], (mkSent 0 0 []).
  - lia.
Qed.

Lemma minting_typed typed minted more : minting typed minted -> minting (typed ++ more) minted.
Proof.
  intros [Hf Hs Hw]. split; [done..|]. intros i a Ha. rewrite length_app. specialize (Hw i a Ha). lia.
Qed.

Lemma follows_typed typed minted base s more :
  follows typed minted base s -> follows (typed ++ more) minted base (with_state (fun st => st ++ more) s).
Proof.
  intros [Hm Hb Hc Hs Ha Hl Has]. split; try done.
  - by apply minting_typed.
  - rewrite length_app. lia.
  - cbn. rewrite Hc, !stretch_full. by rewrite drop_app_le.
  - eapply Forall_impl; [exact Hs|]. intros st (Hn & len & Hlen & Hle & Hst). split; [done|]. exists len. split_and!; [done..|].
    rewrite Hst, stretch_extend; [done|]. by eapply m_within.
Qed.

(** What an acknowledgement drops. *)
Lemma ascending_drop k l : StronglySorted Z.lt (num <$> l) -> StronglySorted Z.lt (num <$> drop k l).
Proof.
  revert l. induction k as [|k IH]; intros l Hl; [done|]. destruct l as [|st l]; [done|]. cbn in *.
  apply IH. by apply StronglySorted_inv in Hl as [].
Qed.

Lemma entry_position_spec {A} (p : A -> bool) l k : position p l = Some k -> exists a, l !! k = Some a /\ p a = true.
Proof.
  revert k. induction l as [|a l IH]; intros k; [done|]. cbn. destruct (p a) eqn:Hp.
  - intros [= <-]. by exists a.
  - destruct (position p l) as [j|]; [|done]. intros [= <-]. by apply IH.
Qed.

Lemma follows_ack typed minted base s n :
  follows typed minted base s -> follows typed minted base (process_acknowledgement n s).
Proof.
  intros [Hm Hb Hc Hs Ha Hl Has]. unfold process_acknowledgement.
  destruct (negb _); [by split|]. destruct Hl as (init & st & Hl & Hn).
  set (k := default O (position _ _)).
  assert (k < length (sent_states s))%nat as Hk.
  { unfold k. destruct (position _ _) eqn:Hp; cbn; [|rewrite Hl, length_app; cbn; lia].
    apply entry_position_spec in Hp as (a & Hp & _). by apply lookup_lt_Some in Hp. }
  split; cbn; try done.
  - by apply Forall_drop.
  - by apply ascending_drop.
  - exists (drop k init), st. rewrite Hl in *. rewrite length_app in Hk. cbn in Hk. by rewrite drop_app_le by lia.
  - rewrite length_drop. lia.
Qed.

(** *** What the timers change *)

(** The two agree on everything but the states, their timers and the
    acknowledgement that is owed. *)
Record same_session (s s' : TransportSender) : Prop := {
  ss_nums : num <$> sent_states s' = num <$> sent_states s;
  ss_times : timestamp <$> sent_states s' = timestamp <$> sent_states s;
  ss_ack : ack_num s' = ack_num s;
  ss_heard : last_heard s' = last_heard s;
  ss_shutting : shutting_down s' = shutting_down s;
  ss_keep : keep_alive_ms s' = keep_alive_ms s;
}.
#[export] Instance same_session_preorder : PreOrder same_session.
Proof. split; [by split | intros ? ? ? [] []; split; congruence]. Qed.

Lemma assumed_from_in now window idx states assumed :
  (assumed < idx + length states)%nat -> (assumed_from now window idx states assumed < idx + length states)%nat.
Proof.
  revert idx assumed. induction states as [|st states IH]; intros idx assumed Ha; [done|]. cbn [assumed_from length] in *.
  destruct (_ <? _); [|done]. specialize (IH (S idx) idx ltac:(lia)). lia.
Qed.

Lemma follows_update typed minted base now rto s :
  follows typed minted base s -> follows typed minted base (update_assumed_receiver_state now rto s).
Proof.
  intros [Hm Hb Hc Hs Ha Hl Has]. split; try done. cbn.
  eapply Nat.lt_le_trans; [apply assumed_from_in; lia|]. rewrite length_drop. lia.
Qed.

(** The first state's stretch goes from the front of every state. *)
Lemma rationalize_spec {Er} typed minted base s :
  follows typed minted base s ->
  exists base' s' first, @rationalize_states Er s = Ok s' /\ head (sent_states s') = Some first /\
    minted !! Z.to_nat (num first) = Some base' /\ (base <= base')%nat /\
    follows typed minted base' s' /\ same_session s s' /\ assumed_receiver s' = assumed_receiver s /\
    pending_data_ack s' = pending_data_ack s /\ next_ack_time s' = next_ack_time s /\ mindelay_clock s' = mindelay_clock s.
Proof.
  intros [Hm Hb Hc Hs Ha Hl Has]. destruct (sent_states s) as [|first rest] eqn:Hstates; [cbn in Has; lia|].
  assert (head (sent_states s) = Some first) as Hhead by (by rewrite Hstates).
  assert (exists len0, minted !! Z.to_nat (num first) = Some len0 /\ (base <= len0)%nat /\ state first = stretch typed base len0)
    as (len0 & Hlen0 & Hle0 & Hst0).
  { apply Forall_inv in Hs as (_ & len0 & ? & ? & ?). by exists len0. }
  assert (forall len, (len0 <= len)%nat -> (subtract (stretch typed base len) (state first)).1 = stretch typed len0 len) as Hsub.
  { intros len Hlen. unfold subtract. rewrite Hst0.
    destruct (decide _) as [_|Hn]; [|by destruct Hn; apply stretch_prefix]. cbn. apply drop_stretch; [done|]. by eapply m_within. }
  assert (forall st, st ∈ first :: rest -> num first <= num st) as Hmin.
  { intros st [->|Hst]%elem_of_cons; [done|]. rewrite fmap_cons in Ha. apply StronglySorted_inv in Ha as [_ Ha].
    rewrite Forall_forall in Ha. specialize (Ha (num st) (list_elem_of_fmap_2 num rest st Hst)). lia. }
  rewrite <- Hstates in *. clear Hstates rest.
  set (less := fun st => mkSent (timestamp st) (num st) (subtract (state st) (state first)).1).
  assert (@rationalize_states Er s = Ok (s <| current_state := (subtract (current_state s) (state first)).1 |>
    <| sent_states := less <$> sent_states s |>)) as Hr by (unfold rationalize_states; by rewrite Hhead).
  exists len0. eexists. exists (less first). split; [exact Hr|]. split; [cbn; destruct (sent_states s); [done|]; by injection Hhead as ->|].
  split; [done|]. split; [done|]. split; [|split; [|done]].
  2: { split; try done; cbn; by rewrite <- list_fmap_compose. }
  split; try done; cbn.
  - by eapply m_within.
  - rewrite Hc. apply Hsub. by eapply m_within.
  - apply Forall_fmap, Forall_forall. intros st Hin. rewrite Forall_forall in Hs.
    destruct (Hs st Hin) as (Hn & len & Hlen & Hle & Hst). split; [done|]. exists len.
    assert (len0 <= len)%nat as Hll.
    { eapply (m_sorted _ _ Hm); [|exact Hlen0 | exact Hlen]. specialize (Hmin st Hin). lia. }
    split_and!; [done..|]. cbn. rewrite Hst. by apply Hsub.
  - by rewrite <- list_fmap_compose.
  - destruct Hl as (init & st & -> & Hn). exists (less <$> init), (less st). by rewrite fmap_app.
  - by rewrite length_fmap.
Qed.

(** The timers leave the states alone. *)
Lemma set_timers_keeps now srtt rto last_sent assumed first s :
  let s' := set_timers now srtt rto last_sent assumed first s in
  sent_states s' = sent_states s /\ current_state s' = current_state s /\ assumed_receiver s' = assumed_receiver s /\
  same_session s s'.
Proof.
  cbv zeta. unfold set_timers, schedule_send. cbv zeta.
  destruct (pending_data_ack s && _), (negb (bool_decide _)); cbn;
    destruct (_ || _); repeat case_match; (split_and!; [done..|by split]).
Qed.

(** Nothing is later than the clock. *)
Definition clocked (t : Z) (s : TransportSender) : Prop :=
  Forall (fun ts => 0 <= ts <= t) (timestamp <$> sent_states s) /\ (forall m, mindelay_clock s = Some m -> 0 <= m <= t).

Lemma set_timers_clock now srtt rto last_sent assumed first s :
  mindelay_clock (set_timers now srtt rto last_sent assumed first s) =
    if bool_decide (current_state s = state last_sent) then mindelay_clock s else Some (default now (mindelay_clock s)).
Proof.
  unfold set_timers, schedule_send. cbv zeta.
  destruct (pending_data_ack s && _); cbn; destruct (bool_decide _); cbn; destruct (_ || _); cbn; repeat case_match; done.
Qed.

(** Timers at work on a sender. *)
Record timed (typed : UserStream) (minted : list nat) (now : Z) (srtt rto : spec_float) (s s' : TransportSender) : Prop := {
  t_rational : exists base r first last_sent assumed, follows typed minted base r /\
    s' = set_timers now srtt rto last_sent assumed first r /\ same_session s r /\
    head (sent_states r) = Some first /\ minted !! Z.to_nat (num first) = Some base /\
    last (sent_states r) = Some last_sent /\ sent_states r !! assumed_receiver r = Some assumed /\
    assumed_receiver r = assumed_receiver (update_assumed_receiver_state now rto s) /\
    pending_data_ack r = pending_data_ack s /\ next_ack_time r = next_ack_time s /\ mindelay_clock r = mindelay_clock s;
}.

Lemma timers_run {Er} typed minted base now srtt rto s :
  follows typed minted base s -> exists s', @calculate_timers Er now srtt rto s = Ok s' /\ timed typed minted now srtt rto s s'.
Proof.
  intros Hf. apply (follows_update _ _ _ now rto) in Hf.
  destruct (rationalize_spec (Er:=Er) _ _ _ _ Hf) as (base' & r & first & Hr & Hhead & Hbase & _ & Hf' & Hss & Has & Hp & Hack & Hmin).
  unfold calculate_timers. rewrite Hr. cbn [mbind result_bind].
  destruct (f_last _ _ _ _ Hf') as (init & last_sent & Hlast & _).
  assert (last (sent_states r) = Some last_sent) as Hl by (by rewrite Hlast, last_snoc).
  destruct (lookup_lt_is_Some_2 (sent_states r) _ (f_assumed _ _ _ _ Hf')) as [assumed Hassumed].
  assert (sent_states r !! O = Some first) as H0 by (destruct (sent_states r); [done | exact Hhead]).
  rewrite Hl, Hassumed, H0. cbn [expect mbind result_bind]. eexists. split; [reflexivity|].
  split. exists base', r, first, last_sent, assumed. split_and!; try done. by destruct Hss.
Qed.

Lemma timed_follows typed minted now srtt rto s s' :
  timed typed minted now srtt rto s s' ->
  same_session s s' /\ exists base first, follows typed minted base s' /\ head (sent_states s') = Some first /\
    minted !! Z.to_nat (num first) = Some base.
Proof.
  intros [(base & r & first & last_sent & assumed & Hf & -> & Hss & Hhead & Hbase & _)].
  destruct (set_timers_keeps now srtt rto last_sent assumed first r) as (Hs & Hc & Ha & Hk). split; [by transitivity r|].
  exists base, first. rewrite Hs. split_and!; try done.
  destruct Hf. split; rewrite ?Hs, ?Hc, ?Ha; done.
Qed.
End Follows.

Abbreviation nums s := (Sender.num <$> Sender.sent_states s).

Section Clock.
Import ClientStream Sender.

Lemma timers_clocked typed minted now srtt rto s s' t :
  timed typed minted now srtt rto s s' -> 0 <= now <= t -> clocked t s -> clocked t s'.
Proof.
  intros [(base & r & first & last_sent & assumed & Hf & -> & Hss & _ & _ & _ & _ & _ & _ & _ & Hm)] Hnow [Hts Hmin].
  destruct (set_timers_keeps now srtt rto last_sent assumed first r) as (Hs & _). split.
  - rewrite Hs. by destruct Hss as [_ -> _ _ _ _].
  - rewrite set_timers_clock, Hm. intros m. destruct (bool_decide _); [apply Hmin|].
    intros [= <-]. destruct (mindelay_clock s) as [m|]; [by apply Hmin | done].
Qed.

Lemma record_sent_clocked now new_num last_state s t :
  last_state ∈ sent_states s -> 0 <= now <= t -> clocked t s ->
  Forall (fun ts => 0 <= ts <= t) (timestamp <$> sent_states (record_sent now new_num last_state s)).
Proof.
  intros Hin Hnow [Hts _]. rewrite Forall_fmap in *. unfold record_sent. destruct (_ =? _); cbn.
  - by apply Forall_insert.
  - assert (Forall ((fun ts => 0 <= ts <= t) ∘ timestamp) (sent_states s ++ [mkSent now new_num (current_state s)])) as Hall.
    { apply Forall_app. split; [done|]. constructor; [exact Hnow | done]. }
    case_match; [|done]. rewrite Forall_forall in Hall |- *. intros x Hx%in_remove_at. by apply Hall.
Qed.
End Clock.

(** ** A tick *)
Section Tick.
Import ClientStream Sender.
Context `{Prost} {Er : Type}.

(** An instruction for the stretch between two states, the newer of them all
    that was typed. *)
Definition sends (typed : UserStream) (minted : list nat) (inst : Instruction.Instruction) : Prop :=
  exists old new' ack throwaway chaff a b,
    0 <= throwaway <= old /\ old <= new' /\
    minted !! Z.to_nat old = Some a /\ minted !! Z.to_nat new' = Some b /\
    inst = Instruction.new old new' ack throwaway (encode_to_vec (foldl add_event [] (stretch typed a b))) chaff.

Lemma minting_minted typed minted : minting typed minted -> minting typed (minted ++ [length typed]).
Proof using Type.
  intros [Hf Hs Hw]. assert (0 < length minted)%nat by (by apply lookup_lt_Some in Hf). split.
  - by rewrite lookup_app_l.
  - intros i j a b Hij Hi Hj. destruct (decide (j < length minted)%nat).
    + rewrite lookup_app_l in Hi, Hj by lia. by apply (Hs i j).
    + pose proof (lookup_lt_Some _ _ _ Hj) as Hlt. rewrite length_app in Hlt. cbn in Hlt.
      replace j with (length minted) in * by lia. rewrite list_lookup_middle in Hj by done. injection Hj as <-.
      destruct (decide (i < length minted)%nat) as [Hlt'|Hge].
      * rewrite lookup_app_l in Hi by done. by eapply Hw.
      * replace i with (length minted) in Hi by lia. rewrite list_lookup_middle in Hi by done. injection Hi as <-. lia.
  - intros i a Hi. apply lookup_app_Some in Hi as [Hi | [_ Hi]]; [by eapply Hw|].
    apply list_lookup_singleton_Some in Hi as [_ <-]. lia.
Qed.

Lemma ascending_snoc l n : StronglySorted Z.lt l -> Forall (fun x => x < n) l -> StronglySorted Z.lt (l ++ [n]).
Proof using Type.
  intros Hl Hn. apply StronglySorted_app_2; [|done | repeat constructor]. intros x y Hx ->%list_elem_of_singleton.
  rewrite Forall_forall in Hn. by apply Hn.
Qed.

Lemma ascending_below l n : StronglySorted Z.lt (l ++ [n]) -> Forall (fun x => x < n) l.
Proof using Type.
  intros Hl. apply Forall_forall. intros x Hx. eapply StronglySorted_app_1_elem_of; [exact Hl | done | by left].
Qed.

Lemma ascending_remove i l : StronglySorted Z.lt (num <$> l) -> StronglySorted Z.lt (num <$> remove_at i l).
Proof using Type.
  revert i. induction l as [|st l IH]; intros i Hl; [by destruct i|].
  rewrite fmap_cons in Hl. apply StronglySorted_inv in Hl as [Hl Hx]. destruct i as [|i]; [done|].
  change (remove_at (S i) (st :: l)) with (st :: remove_at i l). rewrite fmap_cons. constructor; [by apply IH|].
  rewrite Forall_forall in Hx. apply Forall_forall. intros n (x & -> & Hn%in_remove_at)%list_elem_of_fmap.
  by apply Hx, list_elem_of_fmap_2.
Qed.

Lemma last_sent_state typed minted base s :
  follows typed minted base s ->
  exists init st, sent_states s = init ++ [st] /\ num st = Z.of_nat (length minted) - 1 /\
    stands_for typed minted base st /\ (0 < length minted)%nat.
Proof using Type.
  intros Hf. destruct (f_last _ _ _ _ Hf) as (init & st & Hl & Hn). exists init, st. split_and!; try done.
  - pose proof (f_sent _ _ _ _ Hf) as Hs. rewrite Hl in Hs. by apply Forall_app in Hs as [_ Hs%Forall_inv].
  - destruct (f_minting _ _ _ _ Hf) as [Hm _ _]. by apply lookup_lt_Some in Hm.
Qed.

(** The newest state again, when nothing was typed since. *)
Lemma resent_follows typed minted base s now init st :
  follows typed minted base s -> sent_states s = init ++ [st] -> 
  let s' := record_sent now (num st) st s in
  follows typed minted base s' /\ num <$> sent_states s' = num <$> sent_states s.
Proof using Type.
  intros [Hm Hb Hc Hs Ha Hl Has] Hst. cbv zeta. unfold record_sent. rewrite Z.eqb_refl.
  set (st' := mkSent now (num st) (state st)).
  assert (<[(length (sent_states s) - 1)%nat := st']> (sent_states s) = init ++ [st']) as Hins.
  { rewrite Hst, length_app. cbn [length]. replace (length init + 1 - 1)%nat with (length init + 0)%nat by lia. by rewrite insert_app_r. }
  assert (num <$> init ++ [st'] = num <$> sent_states s) as Hn by (by rewrite Hst, !fmap_app).
  cbn. rewrite Hins. split; [|done]. rewrite Hst in Hs, Hl. apply Forall_app in Hs as [Hs1 Hs2%Forall_inv].
  split; try done; cbn; rewrite ?Hins; try done.
  - apply Forall_app. split; [done|]. by constructor.
  - by rewrite Hn.
  - exists init, st'. split; [done|]. destruct Hl as (init' & st2 & [-> ->]%app_inj_tail & Hl). exact Hl.
  - rewrite length_app. rewrite Hst, length_app in Has. done.
Qed.

(** A new state for all that was typed. *)
Lemma minted_follows typed minted base s now init st :
  follows typed minted base s -> sent_states s = init ++ [st] ->
  let s' := record_sent now (num st + 1) st s in
  follows typed (minted ++ [length typed]) base s' /\
  head (num <$> sent_states s') = head (num <$> sent_states s) /\
  (forall n, n ∈ num <$> sent_states s' -> n = num st + 1 \/ n ∈ num <$> sent_states s).
Proof using Type.
  intros Hf Hst. destruct (last_sent_state _ _ _ _ Hf) as (init' & st2 & Hst2 & Hn & Hsf & Hlen).
  rewrite Hst in Hst2. apply app_inj_tail in Hst2 as [<- <-]. destruct Hf as [Hm Hb Hc Hs Ha Hl Has].
  cbv zeta. unfold record_sent. rewrite (proj2 (Z.eqb_neq _ _)) by lia.
  set (fresh := mkSent now (num st + 1) (current_state s)). set (states := sent_states s ++ [fresh]).
  assert (Forall (stands_for typed (minted ++ [length typed]) base) states) as Hall.
  { apply Forall_app. split.
    - eapply Forall_impl; [exact Hs|]. intros st2 (? & len & Hlook & ? & ?). split; [done|]. exists len. split_and!; try done.
      by apply lookup_app_l_Some.
    - constructor; [|constructor]. split; [cbn; lia|]. exists (length typed). split_and!; [|done|done].
      cbn. rewrite Hn. apply list_lookup_middle. lia. }
  assert (StronglySorted Z.lt (num <$> states)) as Hasc.
  { unfold states. rewrite fmap_app. apply ascending_snoc; [done|]. rewrite Hst, fmap_app in Ha |- *.
    apply ascending_below in Ha. apply Forall_app. split; [|constructor; [cbn; lia | constructor]].
    eapply Forall_impl; [exact Ha|]. cbn. lia. }
  assert (length states = length (sent_states s) + 1)%nat as Hlens by (unfold states; by rewrite length_app).
  set (kept := if (32 <? length states)%nat then remove_at (length states - 16) states else states).
  assert (exists front, kept = front ++ [fresh] /\ (length (sent_states s) <= length kept)%nat /\
    head (num <$> kept) = head (num <$> sent_states s) /\ (forall x, x ∈ kept -> x ∈ states)) as (front & Hk & Hkl & Hkh & Hkin).
  { unfold kept. destruct (Nat.ltb_spec 32 (length states)) as [Hlt|Hge].
    - exists (take (length states - 16) states ++ drop (S (length states - 16)) (sent_states s)).
      assert (remove_at (length states - 16) states = (take (length states - 16) states ++ drop (S (length states - 16)) (sent_states s)) ++ [fresh]) as Hk.
      { rewrite <- app_assoc, <- drop_app_le by lia. done. }
      split; [done|]. rewrite Hk at 1 2. split_and!.
      + rewrite !length_app, length_take, length_drop. cbn [length]. lia.
      + rewrite Hlens. unfold states. rewrite take_app_le by lia. destruct (sent_states s) as [|x rest]; [cbn in *; lia|].
        cbn [length] in *. by replace (S (length rest) + 1 - 16)%nat with (S (length rest - 15)) by lia.
      + intros x Hx. by apply (in_remove_at (length states - 16)).
    - exists (sent_states s). split_and!; [done | lia | | done]. unfold states. rewrite Hst. by destruct init. }
  change (sent_states (s <| sent_states := kept |>)) with kept.
  split; [|split; [done|]].
  - split; try done; cbn.
    + by apply minting_minted.
    + fold kept. apply Forall_forall. intros x Hx. rewrite Forall_forall in Hall. by apply Hall, Hkin.
    + fold kept. unfold kept. destruct (_ <? _)%nat; [by apply ascending_remove | done].
    + fold kept. exists front, fresh. split; [done|]. cbn. rewrite length_app. cbn. lia.
    + fold kept. lia.
  - intros n Hin. apply list_elem_of_fmap in Hin as (x & -> & Hx%Hkin). unfold states in Hx.
    apply elem_of_app in Hx as [Hx | ->%list_elem_of_singleton]; [right; by apply list_elem_of_fmap_2 | by left].
Qed.

(** The diff from a state that is kept. *)
Lemma diff_from_kept typed minted base s st :
  follows typed minted base s -> st ∈ sent_states s ->
  exists len, minted !! Z.to_nat (num st) = Some len /\ 0 <= num st /\ (len <= length typed)%nat /\
    diff_from (current_state s) (state st) = Some (encode_to_vec (foldl add_event [] (stretch typed len (length typed)))).
Proof using Type.
  intros Hf Hst. pose proof (f_sent _ _ _ _ Hf) as Hs. rewrite Forall_forall in Hs.
  destruct (Hs st Hst) as (Hn & len & Hlen & Hle & Heq). exists len.
  assert (len <= length typed)%nat as Hin by (eapply m_within; [exact (f_minting _ _ _ _ Hf) | exact Hlen]).
  split_and!; [done..|]. unfold diff_from. rewrite (f_current _ _ _ _ Hf), Heq.
  destruct (decide _) as [_|Hn']; [|by destruct Hn'; apply stretch_prefix]. by rewrite drop_stretch.
Qed.

Lemma chosen_base typed minted base s d first :
  follows typed minted base s -> first ∈ sent_states s -> head (sent_states s) = Some first ->
  (exists assumed, sent_states s !! assumed_receiver s = Some assumed /\ diff_from (current_state s) (state assumed) = Some d) ->
  let '(s', d') := choose_base d first s in
  follows typed minted base s' /\ sent_states s' = sent_states s /\ shutting_down s' = shutting_down s /\
  current_state s' = current_state s /\ mindelay_clock s' = mindelay_clock s /\
  (assumed_receiver s = O -> assumed_receiver s' = O) /\
  exists assumed, sent_states s' !! assumed_receiver s' = Some assumed /\ diff_from (current_state s') (state assumed) = Some d'.
Proof using Type.
  intros Hf Hin Hhead Hd. unfold choose_base. destruct (Nat.eqb _ _); [done|].
  destruct (diff_from (current_state s) (state first)) as [resend|] eqn:Hr; [|done]. destruct (_ || _); [|done].
  assert (sent_states s !! O = Some first) as H0 by (destruct (sent_states s); [done | exact Hhead]).
  split_and!; try done.
  - destruct Hf. split; try done. cbn. by apply lookup_lt_Some in H0.
  - by exists first.
Qed.

Definition announced (inst : Instruction.Instruction) (old new' throwaway : Z) : Prop :=
  Instruction.old_num inst = Some old /\ Instruction.new_num inst = Some new' /\ Instruction.throwaway_num inst = Some throwaway.

(** What a tick that sends says, [s] being the sender before and [s'] after. *)
Record sent (typed : UserStream) (minted : list nat) (s s' : TransportSender) (inst : Instruction.Instruction) : Prop := {
  sent_sends : sends typed minted inst;
  sent_numbers : exists old new' throwaway, announced inst old new' throwaway /\
    old ∈ nums s /\ head (nums s) = Some throwaway /\ throwaway <= old /\
    minted !! Z.to_nat new' = Some (length typed) /\ new' = Z.of_nat (length minted) - 1 /\
    forall n, n ∈ nums s' -> n = new' \/ n ∈ nums s;
}.

Lemma oldest_least typed minted base s first st :
  follows typed minted base s -> head (sent_states s) = Some first -> st ∈ sent_states s -> num first <= num st.
Proof using Type.
  intros Hf Hhead Hst. pose proof (f_ascending _ _ _ _ Hf) as Ha. destruct (sent_states s) as [|x rest]; [done|].
  injection Hhead as ->. apply elem_of_cons in Hst as [->|Hst]; [done|]. rewrite fmap_cons in Ha.
  apply StronglySorted_inv in Ha as [_ Ha]. rewrite Forall_forall in Ha.
  specialize (Ha (num st) (list_elem_of_fmap_2 num rest st Hst)). lia.
Qed.

Lemma newest_greatest typed minted base s init last_state st :
  follows typed minted base s -> sent_states s = init ++ [last_state] -> st ∈ sent_states s -> num st <= num last_state.
Proof using Type.
  intros Hf Hl Hst. pose proof (f_ascending _ _ _ _ Hf) as Ha. rewrite Hl in *. rewrite fmap_app in Ha.
  apply elem_of_app in Hst as [Hst | ->%list_elem_of_singleton]; [|done].
  apply ascending_below in Ha. rewrite Forall_forall in Ha. specialize (Ha (num st) (list_elem_of_fmap_2 num init st Hst)). lia.
Qed.

(** The books after a sending leave the states as they are. *)
Lemma send_diff_runs typed minted base s now chaff d :
  follows typed minted base s -> shutting_down s = false -> Z.of_nat (length minted) < u64_max ->
  (exists assumed, sent_states s !! assumed_receiver s = Some assumed /\ diff_from (current_state s) (state assumed) = Some d) ->
  exists s' inst minted', @send_diff Er now chaff d s = Ok (s', Some inst) /\
    (minted' = minted \/ minted' = minted ++ [length typed]) /\
    follows typed minted' base s' /\ shutting_down s' = false /\ keep_alive_ms s' = keep_alive_ms s /\
    head (nums s') = head (nums s) /\ sent typed minted' s s' inst /\
    Instruction.old_num inst = num <$> sent_states s !! assumed_receiver s /\
    (forall t, 0 <= now <= t -> clocked t s -> clocked t s').
Proof using Type.
  intros Hf Hshut Hcount (assumed & Has & Hd). unfold send_diff. rewrite Has. cbn [expect mbind result_bind].
  assert (assumed ∈ sent_states s) as Hasin by (by eapply list_elem_of_lookup_2).
  destruct (diff_from_kept _ _ _ _ _ Hf Hasin) as (a & Ha & Han & Hale & Hd'). rewrite Hd in Hd'. injection Hd' as Hd'.
  destruct (last_sent_state _ _ _ _ Hf) as (init & st & Hl & Hn & (Hn0 & len & Hlen & Hle & Hst) & Hpos).
  assert (last (sent_states s) = Some st) as -> by (by rewrite Hl, last_snoc). cbn [expect mbind result_bind]. rewrite Hshut.
  assert (plus (num st) 1 = num st + 1) as Hplus.
  { unfold plus. apply wrap_small. unfold fits. unfold u64_max in Hcount. lia. }
  set (new_num := if bool_decide (d = []) then _ else _).
  assert (new_num = num st /\ current_state s = state st \/ new_num = num st + 1) as Hnew.
  { unfold new_num. rewrite Hplus. destruct (bool_decide (d = [])); [by right|].
    destruct (bool_decide_reflect (current_state s = state st)); [by left | by right]. }
  assert ((new_num =? Instruction.SHUTDOWN_NUM) = false) as ->.
  { apply Z.eqb_neq. unfold Instruction.SHUTDOWN_NUM. destruct Hnew as [[-> _] | ->]; lia. }
  assert (exists minted', (minted' = minted \/ minted' = minted ++ [length typed]) /\
    follows typed minted' base (record_sent now new_num st s) /\
    head (nums (record_sent now new_num st s)) = head (nums s) /\
    (forall n, n ∈ nums (record_sent now new_num st s) -> n = new_num \/ n ∈ nums s) /\
    minted' !! Z.to_nat (num assumed) = Some a /\ minted' !! Z.to_nat new_num = Some (length typed) /\
    num assumed <= new_num /\ new_num = Z.of_nat (length minted') - 1) as (minted' & Hminted & Hf' & Hhead & Hnums & Ha' & Hb' & Hle' & Htop).
  { pose proof (newest_greatest _ _ _ _ _ _ _ Hf Hl Hasin) as Hng. destruct Hnew as [[-> Heq] | ->].
    - exists minted. destruct (resent_follows _ _ _ _ now _ _ Hf Hl) as [Hf' Hnums]. split_and!; try done; try lia.
      + by left.
      + by rewrite Hnums.
      + intros n. rewrite Hnums. by right.
      + rewrite Hlen. f_equal. rewrite (f_current _ _ _ _ Hf), Hst in Heq. pose proof (f_base _ _ _ _ Hf).
        apply stretch_same in Heq; [done | lia |]. split; [done|]. eapply m_within; [exact (f_minting _ _ _ _ Hf) | exact Hlen].
    - exists (minted ++ [length typed]). destruct (minted_follows _ _ _ _ now _ _ Hf Hl) as (Hf' & Hhead & Hnums).
      split_and!; try done; try lia.
      + by right.
      + by apply lookup_app_l_Some.
      + rewrite Hn. apply list_lookup_middle. lia.
      + rewrite length_app. cbn. lia. }
  set (sr := record_sent now new_num st s) in *.
  assert (shutting_down sr = false /\ ack_num sr = ack_num s /\ keep_alive_ms sr = keep_alive_ms s) as (Hsr & Hack & Hkeep).
  { unfold sr, record_sent. by destruct (_ =? _). }
  set (s2 := if negb _ then _ else _).
  assert (sent_states s2 = sent_states sr /\ follows typed minted' base s2 /\ shutting_down s2 = false /\ ack_num s2 = ack_num s
    /\ keep_alive_ms s2 = keep_alive_ms s) as (Hs2 & Hf2 & Hsh2 & Hack2 & Hkeep2).
  { unfold s2. destruct (negb _); [|done]. split_and!; try done. destruct Hf'. split; try done. cbn. lia. }
  assert (forall t, 0 <= now <= t -> clocked t s -> Forall (fun ts => 0 <= ts <= t) (timestamp <$> sent_states s2)) as Hclock.
  { intros t Hnow Hcl. rewrite Hs2. apply record_sent_clocked; [rewrite Hl; apply elem_of_app; right; by left | done..]. }
  destruct (sent_states s) as [|first rest] eqn:Hstates; [by destruct init|].
  destruct (sent_states sr) as [|first' rest'] eqn:Hsrs; [done|]. cbn in Hhead. injection Hhead as Hhead.
  match goal with |- context [set_field (field:=pending_data_ack) ?f ?r] => set (s3 := set_field (field:=pending_data_ack) f r) end.
  assert (sent_states s3 = first' :: rest') as Hs3 by exact Hs2.
  rewrite Hs3. cbn [lookup list_lookup expect mbind result_bind].
  assert (forall t, 0 <= now <= t -> clocked t s -> clocked t s3) as Hcl3.
  { intros t Hnow Hcl. split; [|done]. exact (Hclock t Hnow Hcl). }
  exists s3. eexists _, minted'. split; [reflexivity|]. split; [done|]. split.
  { destruct Hf2. split; try done. }
  rewrite Hs3. split_and!; try done.
  - cbn. by rewrite Hhead.
  - assert (num first <= num assumed) as Hleast.
    { eapply oldest_least; [exact Hf | by rewrite Hstates | by rewrite Hstates]. }
    assert (0 <= num first) as Hfirst.
    { pose proof (f_sent _ _ _ _ Hf) as Hs. rewrite Hstates in Hs. by apply Forall_inv in Hs as [? _]. }
    split.
    + exists (num assumed), new_num, (ack_num s2), (num first'), chaff, a, (length typed).
      split_and!; try done; try lia. by rewrite Hd'.
    + exists (num assumed), new_num, (num first'). split; [done|]. rewrite Hstates. split_and!; try done; try lia.
      * by apply list_elem_of_fmap_2.
      * cbn. by rewrite Hhead.
      * rewrite Hs3. exact Hnums.
Qed.

(** What the session is apart from its states. *)
Lemma same_nums s s' : same_session s s' -> nums s' = nums s.
Proof using Type. by intros []. Qed.

Lemma keep_alive_fits k : fits 32 (default u32_max (try_u32 k)).
Proof using Type.
  unfold try_u32, fits. destruct (Z.leb_spec 0 k), (Z.leb_spec k u32_max); cbn; unfold u32_max in *; lia.
Qed.

(** The event of a keep-alive, if one is minted. *)
Definition alive_events (alive : UserStream) : Prop := alive = [] \/ exists v, fits 32 v /\ alive = [KeepAlive v].

(** What a tick says. *)
Definition says (typed : UserStream) (minted minted' : list nat) (s s' : TransportSender)
    (out : option Instruction.Instruction) : Prop :=
  match out with
  | None => minted' = minted /\ nums s' = nums s
  | Some inst => (minted' = minted \/ minted' = minted ++ [length typed]) /\ sent typed minted' s s' inst
  end.

Lemma send_when_due_runs typed minted base now chaff due s :
  follows typed minted base s -> shutting_down s = false -> Z.of_nat (length minted) < u64_max ->
  exists s' out minted', @send_when_due _ Er now chaff due s = Ok (s', out) /\
    follows typed minted' base s' /\ shutting_down s' = false /\ head (nums s') = head (nums s) /\
    says typed minted minted' s s' out /\
    (assumed_receiver s = O -> forall inst, out = Some inst -> Instruction.old_num inst = head (nums s)) /\
    (due || reached (next_send_time s) now = true ->
     (forall st d, st ∈ sent_states s -> diff_from (current_state s) (state st) = Some d -> d <> []) -> is_Some out) /\
    (forall t, 0 <= now <= t -> clocked t s -> clocked t s').
Proof using Type.
  intros Hf Hshut Hcount. unfold send_when_due. destruct (_ && negb (due || _)) eqn:Hquiet.
  { exists s, None, minted. split_and!; try done. intros Hdue _. rewrite Hdue in Hquiet. by rewrite andb_false_r in Hquiet. }
  destruct (lookup_lt_is_Some_2 (sent_states s) _ (f_assumed _ _ _ _ Hf)) as [assumed Hassumed].
  rewrite Hassumed. cbn [expect mbind result_bind].
  assert (assumed ∈ sent_states s) as Hin by (by eapply list_elem_of_lookup_2).
  destruct (diff_from_kept _ _ _ _ _ Hf Hin) as (a & Ha & Han & Hale & Hd). rewrite Hd.
  destruct (head (sent_states s)) as [first|] eqn:Hhead; [|by destruct (sent_states s)].
  assert (sent_states s !! O = Some first) as H0 by (destruct (sent_states s); [done | exact Hhead]).
  rewrite H0. cbn [expect mbind result_bind].
  pose proof (chosen_base _ _ _ _ _ first Hf ltac:(by eapply list_elem_of_lookup_2) Hhead ltac:(by exists assumed)) as Hchosen.
  destruct (choose_base _ first s) as [s3 d3]. destruct Hchosen as (Hf3 & Hst3 & Hsh3 & Hcur3 & Hmin3 & Hz3 & Hd3).
  destruct (bool_decide_reflect (d3 = [])) as [He|He]; cbn [andb]; [destruct (negb _)|].
  { eexists _, None, minted. split; [reflexivity|]. split; [by destruct Hf3|]. split; [by rewrite <- Hshut, <- Hsh3|].
    split; [by rewrite <- Hst3|]. split; [split; [done|]; by rewrite <- Hst3|]. split; [done|].
    split; [|intros t Hnow [Hts _]; split; [by rewrite <- Hst3 in Hts | done]].
    intros _ Hne. destruct Hd3 as (st & Hst & Hdst). rewrite Hst3 in Hst. rewrite Hcur3 in Hdst.
    destruct (Hne st d3); [by eapply list_elem_of_lookup_2 | done | done]. }
  all: destruct (send_diff_runs _ _ _ _ now chaff d3 Hf3 ltac:(congruence) Hcount Hd3)
    as (s4 & inst & minted' & Hs4 & Hm' & Hf4 & Hsh4 & Hk4 & Hh4 & [Hsends (o & n & t & Han' & Hsent)] & Hold & Hcl);
    exists s4, (Some inst), minted'; rewrite Hst3 in *; split_and!; try done;
    [split; [done|]; split; [done|]; by exists o, n, t
    | intros Hz inst' [= <-]; rewrite Hold, Hz3 by done; destruct (sent_states s); [done | by injection H0 as ->]
    | intros t' Hnow [Hts Hmin]; apply Hcl; [done|]; split; [by rewrite Hst3 | by rewrite Hmin3]].
Qed.

(** The peer's acknowledgement of what came after the oldest state is overdue. *)
Definition overdue (now : Z) (rto : spec_float) (s : TransportSender) : Prop :=
  forall ts, head (drop 1 (timestamp <$> sent_states s)) = Some ts ->
    plus (Ieee.as_u64 rto) ACK_DELAY_MS <= saturating_sub now ts.

Lemma overdue_update now rto s : overdue now rto s -> assumed_receiver (update_assumed_receiver_state now rto s) = O.
Proof using Type.
  intros Hlate. cbn. unfold overdue in Hlate. destruct (sent_states s) as [|first [|st rest]]; [done..|].
  cbn [drop skipn]. cbn [assumed_from]. rewrite (proj2 (Z.ltb_ge _ _)); [done|]. by apply Hlate.
Qed.

Lemma timed_overdue typed minted now srtt rto s s' :
  timed typed minted now srtt rto s s' -> overdue now rto s -> assumed_receiver s' = O /\ overdue now rto s'.
Proof using Type.
  intros [(base & r & first & last_sent & assumed & Hf & -> & Hss & _ & _ & _ & _ & Has & _)] Hlate.
  destruct (set_timers_keeps now srtt rto last_sent assumed first r) as (Hs & _ & Ha & _). rewrite Ha, Has.
  split; [by apply overdue_update|]. unfold overdue in *. rewrite Hs. destruct Hss as [_ -> _ _ _ _]. done.
Qed.

Lemma mint_runs typed minted now srtt rto s0 s :
  timed typed minted now srtt rto s0 s ->
  exists s' due alive base, @mint_keep_alive Er now srtt rto s = Ok (s', due) /\ alive_events alive /\
    follows (typed ++ alive) minted base s' /\ same_session s s' /\
    (due = false -> s' = s /\ alive = []) /\ (due = true -> alive <> []) /\
    (overdue now rto s0 -> assumed_receiver s' = O) /\ (forall t, 0 <= now <= t -> clocked t s -> clocked t s').
Proof using Type.
  intros Ht. destruct (timed_follows _ _ _ _ _ _ _ Ht) as (Hss & base & first & Hf & _).
  unfold mint_keep_alive. destruct (reached _ now).
  - set (v := default u32_max _).
    destruct (timers_run (Er:=Er) _ _ _ now srtt rto _ (follows_typed _ _ _ _ [KeepAlive v] Hf)) as (s' & Hs' & Ht').
    change (with_state (push_keep_alive v) s) with (with_state (fun st => st ++ [KeepAlive v]) s). rewrite Hs'.
    destruct (timed_follows _ _ _ _ _ _ _ Ht') as (Hss' & base' & first' & Hf' & _).
    exists s', true, [KeepAlive v], base'. split_and!; try done; [right; exists v; split; [apply keep_alive_fits | done] | by destruct Hss' | |].
    + intros Hlate. apply (timed_overdue _ _ _ _ _ _ _ Ht) in Hlate as [_ Hlate]. by eapply timed_overdue.
    + intros t Hnow Hcl. by eapply timers_clocked.
  - exists s, false, [], base. rewrite app_nil_r. split_and!; try done; [by left|].
    intros Hlate. by eapply timed_overdue.
Qed.

Lemma tick_runs typed minted base now srtt rto chaff s :
  follows typed minted base s -> shutting_down s = false -> Z.of_nat (length minted) < u64_max ->
  exists s' out alive minted' base', @tick _ Er now srtt rto chaff s = Ok (s', out) /\ alive_events alive /\
    follows (typed ++ alive) minted' base' s' /\ shutting_down s' = false /\ head (nums s') = head (nums s) /\
    says (typed ++ alive) minted minted' s s' out /\
    (overdue now rto s -> forall inst, out = Some inst -> Instruction.old_num inst = head (nums s)) /\
    (forall t, 0 <= now <= t -> clocked t s -> clocked t s').
Proof using Type.
  intros Hf Hshut Hcount. destruct (timers_run (Er:=Er) _ _ _ now srtt rto _ Hf) as (s1 & Hs1 & Ht).
  destruct (mint_runs _ _ _ _ _ _ _ Ht) as (s2 & due & alive & base2 & Hs2 & Halive & Hf2 & Hss2 & _ & _ & Hlate & Hcl2).
  assert (same_session s s2) as Hss by (transitivity s1; [by eapply timed_follows | done]).
  pose proof (same_nums _ _ Hss) as Hn2. assert (shutting_down s2 = false) as Hshut2 by (destruct Hss; congruence).
  destruct (send_when_due_runs _ _ _ now chaff due _ Hf2 Hshut2 Hcount) as (s3 & out & minted' & Hs3 & Hf3 & Hsh3 & Hh3 & Hsays & Hold & _ & Hcl3).
  exists s3, out, alive, minted', base2. unfold tick. rewrite Hs1. cbn [mbind result_bind]. rewrite Hs2. cbn [mbind result_bind].
  rewrite Hn2 in *. split_and!; try done.
  - destruct out as [inst|]; cbn [says] in *; [|by rewrite <- Hn2].
    destruct Hsays as [Hm [Hsends Hsent]]. split; [done|]. split; [done|]. by rewrite <- Hn2.
  - intros Ho. apply Hold. by apply Hlate.
  - intros t Hnow Hcl. apply Hcl3, Hcl2; [done..|]. by eapply timers_clocked.
Qed.
End Tick.

(** ** A session's run *)
Section Run.
Import ClientStream Sender.
Context `{Prost} {Er : Type}.

(** What drives the sender: input, the peer's acknowledgements, what was heard of
    it, and the clock. *)
Inductive action :=
| Push (es : UserStream)
| Acknowledged (n : Z)
| Heard (n : Z) (has_data : bool) (now : Z)
| KeepAliveEvery (interval_ms : option Z)
| Tick (now : Z) (srtt rto : spec_float) (chaff : bytes)
| Wait (now : Z) (srtt rto : spec_float).

Definition act (a : action) (s : TransportSender) : result Er (TransportSender * option Instruction.Instruction) :=
  match a with
  | Push es => Ok (with_state (fun st => st ++ es) s, None)
  | Acknowledged n => Ok (process_acknowledgement n s, None)
  | Heard n has_data now => Ok (set_ack_num n has_data now s, None)
  | KeepAliveEvery i => Ok (set_keep_alive i s, None)
  | Tick now srtt rto chaff => tick now srtt rto chaff s
  | Wait now srtt rto => '(s, _) ← wait_time now srtt rto s; Ok (s, None)
  end.

Fixpoint run_session (acts : list action) (s : TransportSender) : result Er (TransportSender * list Instruction.Instruction) :=
  match acts with
  | [] => Ok (s, [])
  | a :: acts =>
      '(s, out) ← act a s; '(s, more) ← run_session acts s; Ok (s, option_list out ++ more)
  end.

Definition pushed_by (a : action) : UserStream := match a with Push es => es | _ => [] end.
Definition typed_by (acts : list action) : UserStream := concat (pushed_by <$> acts).

(** The clock has not read more than [t]. *)
Definition within (t : Z) (a : action) : Prop :=
  match a with Tick now _ _ _ | Wait now _ _ => 0 <= now <= t | _ => True end.

(** What the server takes of an instruction. *)
Definition received (i : Instruction.Instruction) : UserStream.ReceivedState :=
  UserStream.mkReceivedState (default 0 (Instruction.old_num i)) (default 0 (Instruction.new_num i))
    (default 0 (Instruction.ack_num i)) (default 0 (Instruction.throwaway_num i)) (default [] (Instruction.diff i)).

(** A step of the session. *)
Record stepped (a : action) (typed typed' : UserStream) (minted minted' : list nat) (s s' : TransportSender)
    (out : option Instruction.Instruction) : Prop := {
  st_typed : exists alive, alive_events alive /\ typed' = typed ++ pushed_by a ++ alive;
  st_follows : exists base, follows typed' minted' base s';
  st_shutting : shutting_down s' = false;
  st_minted : minted' = minted \/ minted' = minted ++ [length typed'];
  st_out : match out with
    | None => minted' = minted /\ (forall n, n ∈ nums s' -> n ∈ nums s) /\
        (forall t t', head (nums s) = Some t -> head (nums s') = Some t' -> t <= t')
    | Some inst => head (nums s') = head (nums s) /\ sent typed' minted' s s' inst
    end;
  st_clock : forall t, within t a -> clocked t s -> clocked t s';
}.

Lemma ack_nums typed minted base s n :
  follows typed minted base s ->
  (forall m, m ∈ nums (process_acknowledgement n s) -> m ∈ nums s) /\
  (forall t t', head (nums s) = Some t -> head (nums (process_acknowledgement n s)) = Some t' -> t <= t').
Proof using Type.
  intros Hf.
  assert (forall k, (forall m, m ∈ num <$> drop k (sent_states s) -> m ∈ nums s) /\
    (forall t t', head (nums s) = Some t -> head (num <$> drop k (sent_states s)) = Some t' -> t <= t')) as Hdrop.
  { intros k. assert (forall x, x ∈ drop k (sent_states s) -> x ∈ sent_states s) as Hin.
    { intros x Hx. rewrite <- (take_drop k (sent_states s)). by apply elem_of_app; right. }
    split.
    - intros m (x & -> & Hx%Hin)%list_elem_of_fmap. by apply list_elem_of_fmap_2.
    - intros t t' Ht Ht'. destruct (sent_states s) as [|first rest] eqn:Hs; [done|]. cbn in Ht. injection Ht as <-.
      destruct (drop k (first :: rest)) as [|x l] eqn:Hd; [done|]. cbn in Ht'. injection Ht' as <-.
      eapply oldest_least; [exact Hf | by rewrite Hs |]. rewrite Hs. apply Hin. by left. }
  unfold process_acknowledgement. destruct (negb _); [apply (Hdrop O) | apply Hdrop].
Qed.

Lemma act_steps a typed minted base s :
  follows typed minted base s -> shutting_down s = false -> Z.of_nat (length minted) < u64_max ->
  exists s' out typed' minted', act a s = Ok (s', out) /\ stepped a typed typed' minted minted' s s' out.
Proof using Type.
  intros Hf Hshut Hcount.
  assert (forall s', (forall n, n ∈ nums s' -> n ∈ nums s) -> 
    (forall t t', head (nums s) = Some t -> head (nums s') = Some t' -> t <= t') ->
    shutting_down s' = false -> (exists base', follows typed minted base' s') ->
    (forall t, within t a -> clocked t s -> clocked t s') -> pushed_by a = [] ->
    stepped a typed typed minted minted s s' None) as Hquiet.
  { intros s' Hn Hh Hs' Hf' Hcl Hp. split; try done; [exists []; rewrite Hp, !app_nil_r; split; [by left | done] | by left]. }
  assert (forall t t', head (nums s) = Some t -> head (nums s) = Some t' -> t <= t') as Hsame by (intros t t' -> [= ->]; lia).
  destruct a as [es|n|n has_data now|i|now srtt rto chaff|now srtt rto]; cbn [act].
  - eexists _, None, (typed ++ es), minted. split; [reflexivity|]. split; try done.
    + exists []. rewrite app_nil_r. split; [by left | done].
    + exists base. by apply follows_typed.
    + by left.
  - eexists _, None, typed, minted. split; [reflexivity|]. destruct (ack_nums _ _ _ _ n Hf) as [Hn Hh].
    apply Hquiet; try done; [| by exists base; apply follows_ack |].
    + unfold process_acknowledgement. by destruct (negb _).
    + intros t _ [Hts Hmin]. unfold process_acknowledgement. destruct (negb _); [done|]. split; [|done].
      cbn. rewrite fmap_drop. by apply Forall_drop.
  - eexists _, None, typed, minted. split; [reflexivity|]. unfold set_ack_num.
    destruct has_data; apply Hquiet; try done; exists base; by destruct Hf.
  - eexists _, None, typed, minted. split; [reflexivity|]. apply Hquiet; try done. exists base. by destruct Hf.
  - destruct (tick_runs (Er:=Er) _ _ _ now srtt rto chaff _ Hf Hshut Hcount) as (s' & out & alive & minted' & base' & -> & Ha & Hf' & Hs' & Hh & Hout & _ & Hcl).
    exists s', out, (typed ++ alive), minted'. split; [done|]. split; try done.
    + by exists alive.
    + by exists base'.
    + destruct out; [by destruct Hout | left; by destruct Hout].
    + destruct out as [inst|]; cbn [says] in Hout.
      * destruct Hout as [_ Hout]. by split.
      * destruct Hout as [-> Hn]. rewrite Hn. by split_and!.
  - destruct (timers_run (Er:=Er) _ _ _ now srtt rto _ Hf) as (s' & Hs' & Ht). unfold wait_time. rewrite Hs'.
    cbn [mbind result_bind]. destruct (timed_follows _ _ _ _ _ _ _ Ht) as (Hss & base' & first & Hf' & _).
    pose proof (same_nums _ _ Hss) as Hn.
    eexists _, None, typed, minted. split; [reflexivity|]. apply Hquiet; rewrite ?Hn; try done; [by destruct Hss; congruence | by exists base' |].
    intros t Hnow. by eapply timers_clocked.
Qed.
End Run.

(** ** What the server makes of it *)
Section Served.
Import ClientStream Sender.
Context `{ProstWire}.

Definition upto (typed : UserStream) (minted : list nat) (n : Z) : nat :=
  length (server_events (take (default (length typed) (minted !! Z.to_nat n)) typed)).

Lemma server_events_app a b : server_events (a ++ b) = server_events a ++ server_events b.
Proof using Type. unfold server_events. by rewrite fmap_app, concat_app. Qed.

Lemma server_events_short es : (length (server_events es) <= length es)%nat.
Proof using Type.
  induction es as [|e es IH]; [done|]. change (e :: es) with ([e] ++ es). rewrite server_events_app, !length_app.
  enough (length (server_events [e]) <= 1)%nat by (cbn [length]; lia). destruct e; cbn; try lia. destruct (_ && _); cbn; lia.
Qed.

Lemma server_events_alive alive : alive_events alive -> server_events alive = [].
Proof using Type. by intros [-> | (v & _ & ->)]. Qed.

Lemma server_events_take typed a b : (a <= b)%nat ->
  (length (server_events (take a typed)) <= length (server_events (take b typed)))%nat.
Proof using Type.
  intros Hab. rewrite (take_stretch typed a b Hab), server_events_app, length_app. lia.
Qed.

(** A stretch of what was typed is a stretch of what the server reads. *)
Lemma served_stretch typed a b : (a <= b <= length typed)%nat ->
  server_events (stretch typed a b) =
  UserStream.segment (server_events typed) (length (server_events (take a typed))) (length (server_events (take b typed))).
Proof using Type.
  intros Hab. unfold UserStream.segment. rewrite firstn_skipn_comm.
  replace (length (server_events (take a typed)) + (length (server_events (take b typed)) - length (server_events (take a typed))))%nat
    with (length (server_events (take b typed))) by (pose proof (server_events_take typed a b ltac:(lia)); lia).
  pose proof (server_events_app (take b typed) (drop b typed)) as Hall. rewrite take_drop in Hall.
  rewrite Hall, take_app_length.
  by rewrite (take_stretch typed a b), server_events_app, drop_app_length by lia.
Qed.

Lemma upto_stream typed minted :
  minting typed minted -> zlen typed < 2 ^ 62 -> client_stream (server_events typed) (upto typed minted).
Proof using Type.
  intros [Hf Hs Hw] Hlen. unfold client_stream, upto. split_and!.
  - change (Z.to_nat 0) with O. by rewrite Hf.
  - intros n m Hnm. apply server_events_take.
    destruct (minted !! Z.to_nat n) as [a|] eqn:Hn, (minted !! Z.to_nat m) as [b|] eqn:Hm; cbn.
    + eapply Hs; [|exact Hn | exact Hm]. lia.
    + by eapply Hw.
    + apply lookup_ge_None in Hn. apply lookup_lt_Some in Hm. lia.
    + done.
  - intros n. set (k := default _ _). pose proof (server_events_app (take k typed) (drop k typed)) as Hall.
    rewrite take_drop in Hall. rewrite Hall, length_app. lia.
  - pose proof (server_events_short typed). unfold zlen, u64_max in *. lia.
Qed.

Lemma sends_coherent typed minted i :
  minting typed minted -> Forall sendable typed -> zlen typed < 2 ^ 62 -> Z.of_nat (length minted) <= u64_max ->
  sends typed minted i -> coherent (server_events typed) (upto typed minted) (received i).
Proof.
  intros Hm Hs Hlen Hcount (old & new' & ack & t & chaff & a & b & Ht & Hon & Ha & Hb & ->).
  assert (a <= b)%nat as Hab by (eapply (m_sorted _ _ Hm); [|exact Ha | exact Hb]; lia).
  assert (b <= length typed)%nat as Hbl by (by eapply m_within).
  pose proof (lookup_lt_Some _ _ _ Hb). split; cbn; [lia|]. unfold upto. rewrite Ha, Hb. cbn [default].
  unfold UserStream.decode_events. rewrite encode_wire, events_read.
  - change (Ok ([] ++ ?l)) with (Ok (E:=UserStream.decode_error) l). by rewrite served_stretch by lia.
  - unfold stretch. by apply Forall_drop, Forall_take.
  - unfold zlen in *. pose proof (stretch_length typed a b ltac:(lia)). lia.
Qed.

Lemma sends_extend typed more minted minted' i :
  minting typed minted -> minted `prefix_of` minted' -> sends typed minted i -> sends (typed ++ more) minted' i.
Proof using Type.
  intros Hm [k ->] (old & new' & ack & t & chaff & a & b & Ht & Hon & Ha & Hb & ->).
  exists old, new', ack, t, chaff, a, b. split_and!; try lia; try (by apply lookup_app_l_Some).
  rewrite stretch_extend; [done|]. by eapply m_within.
Qed.

Context {Er : Type}.

Record told (typed typed' : UserStream) (minted minted' : list nat) (acts : list action) (s s' : TransportSender)
    (known : list Z) (mark : Z) (insts : list Instruction.Instruction) : Prop := {
  td_typed : exists more, typed' = typed ++ more /\ server_events more = server_events (typed_by acts) /\
    (length more <= length (typed_by acts) + length acts)%nat /\ (Forall sendable (typed_by acts) -> Forall sendable more);
  td_minted : minted `prefix_of` minted' /\ (length minted' <= length minted + length acts)%nat;
  td_follows : (exists base, follows typed' minted' base s') /\ shutting_down s' = false;
  td_sends : Forall (sends typed' minted') insts;
  td_disciplined : disciplined known mark (received <$> insts);
  td_oldest : forall t', head (nums s') = Some t' ->
    (forall t, head (nums s) = Some t -> t <= t') /\ Forall (fun i => UserStream.throwaway_num (received i) <= t') insts;
  td_clock : forall t, Forall (within t) acts -> clocked t s -> clocked t s';
  td_newest : foldl Z.max (Z.of_nat (length minted) - 1) (UserStream.new_num <$> (received <$> insts)) = Z.of_nat (length minted') - 1;
}.

Lemma alive_sendable alive : alive_events alive -> Forall sendable alive /\ (length alive <= 1)%nat.
Proof using Type. intros [-> | (v & Hv & ->)]; [by split; [constructor | cbn; lia] | by split; [repeat constructor; apply Hv | cbn; lia]]. Qed.

Lemma stepped_minting a typed typed' minted minted' s s' out :
  stepped a typed typed' minted minted' s s' out -> minting typed' minted'.
Proof using Type. intros [_ [base Hf] _ _ _ _]. by apply f_minting in Hf. Qed.

Lemma run_tells acts typed minted base s known mark :
  follows typed minted base s -> shutting_down s = false -> Z.of_nat (length minted) + zlen acts < u64_max ->
  (forall n, n ∈ nums s -> n ∈ known) -> (forall t, head (nums s) = Some t -> mark <= t) ->
  exists s' insts typed' minted', @run_session _ Er acts s = Ok (s', insts) /\
    told typed typed' minted minted' acts s s' known mark insts.
Proof using Type.
  revert typed minted base s known mark. induction acts as [|a acts IH]; intros typed minted base s known mark Hf Hshut Hcount Hknown Hmark.
  { exists s, [], typed, minted. split; [done|]. split; try done.
    - exists []. rewrite app_nil_r. split_and!; (done || lia).
    - cbn. split; [done | lia].
    - split; [by exists base | done].
    - intros t' Ht'. split; [|constructor]. intros t. rewrite Ht'. intros [= ->]. lia. }
  unfold zlen in Hcount. cbn [length] in Hcount.
  destruct (act_steps (Er:=Er) a _ _ _ _ Hf Hshut ltac:(lia)) as (s1 & out & typed1 & minted1 & Hact & Hstep).
  destruct (st_follows _ _ _ _ _ _ _ _ Hstep) as [base1 Hf1].
  destruct (st_typed _ _ _ _ _ _ _ _ Hstep) as (alive & Halive & Htyped1).
  assert (length minted1 <= S (length minted))%nat as Hlen1.
  { destruct (st_minted _ _ _ _ _ _ _ _ Hstep) as [-> | ->]; [lia | rewrite length_app; cbn; lia]. }
  assert (minted `prefix_of` minted1) as Hpre1.
  { destruct (st_minted _ _ _ _ _ _ _ _ Hstep) as [-> | ->]; [done | by eexists]. }
  set (known1 := match out with Some i => UserStream.new_num (received i) :: known | None => known end).
  set (mark1 := match out with Some i => Z.max mark (UserStream.throwaway_num (received i)) | None => mark end).
  pose proof (st_out _ _ _ _ _ _ _ _ Hstep) as Hout.
  destruct (f_last _ _ _ _ Hf) as (init & st & Hst & _).
  destruct (IH typed1 minted1 base1 s1 known1 mark1 Hf1 (st_shutting _ _ _ _ _ _ _ _ Hstep)) as (s' & insts & typed' & minted' & Hrun & Htold).
  { unfold zlen. lia. }
  { intros n Hn. unfold known1. destruct out as [i|].
    - destruct Hout as (_ & _ & (o & n' & t & (Ho & Hn' & Ht) & _ & _ & _ & _ & _ & Hin)). cbn. rewrite Hn'. cbn.
      apply Hin in Hn as [->|Hn]; [by left | right; by apply Hknown].
    - destruct Hout as (_ & Hin & _). by apply Hknown, Hin. }
  { intros t' Ht'. unfold mark1. destruct out as [i|].
    - destruct Hout as (Hh & _ & (o & n' & t & (Ho & Hn' & Ht) & _ & Htt & _)). cbn. rewrite Ht. cbn.
      rewrite Hh, Htt in Ht'. injection Ht' as <-. specialize (Hmark t Htt). lia.
    - destruct Hout as (_ & _ & Hh). destruct (sent_states s) as [|first rest]; [by destruct init|].
      specialize (Hmark _ eq_refl). specialize (Hh _ _ eq_refl Ht'). lia. }
  destruct Htold as [(more & Hmore & Hserved & Hlmore & Hsmore) [Hpre Hlen] Hfol Hsends Hdis Hold Hclock Hnew].
  destruct (alive_sendable _ Halive) as [Hasend Halen].
  exists s', (option_list out ++ insts), typed', minted'. split.
  { cbn [run_session]. rewrite Hact. cbn [mbind result_bind]. by rewrite Hrun. }
  assert (typed_by (a :: acts) = pushed_by a ++ typed_by acts) as Hby by done.
  split.
  - exists (pushed_by a ++ alive ++ more). rewrite Hby, !server_events_app, Hserved, (server_events_alive alive), !length_app by done.
    split_and!; [by rewrite Hmore, Htyped1, <- !app_assoc | done | cbn [length]; lia |].
    intros [Hp Ht]%Forall_app. rewrite !Forall_app. by split_and!; [| | apply Hsmore].
  - cbn [length]. split; [by etransitivity | lia].
  - done.
  - apply Forall_app. split; [|done]. destruct out as [i|]; [|constructor]. destruct Hout as (_ & Hi & _).
    cbn. constructor; [|constructor]. rewrite Hmore. eapply sends_extend; [by eapply stepped_minting | done | done].
  - rewrite fmap_app. destruct out as [i|]; [|exact Hdis].
    destruct Hout as (_ & _ & (o & n' & t & (Ho & Hn' & Ht) & Hin & Htt & Hle & _)).
    change (default 0 (Instruction.old_num i) ∈ known /\ mark <= default 0 (Instruction.old_num i) /\
      disciplined known1 mark1 (received <$> insts)). rewrite Ho.
    change (default 0 (Some o)) with o. split; [by apply Hknown|].
    split; [specialize (Hmark t Htt); lia | exact Hdis].
  - intros t' Ht'. destruct (Hold t' Ht') as [Hmono Hthrow].
    destruct (f_last _ _ _ _ Hf1) as (init1 & st1 & Hst1 & _).
    assert (exists t1, head (nums s1) = Some t1) as [t1 Ht1] by (rewrite Hst1; destruct init1; eexists; reflexivity).
    specialize (Hmono t1 Ht1). assert (forall t, head (nums s) = Some t -> t <= t1) as Hle1.
    { intros t Ht. destruct out as [i|].
      - destruct Hout as [Hh _]. rewrite Hh, Ht in Ht1. injection Ht1 as ->. lia.
      - destruct Hout as (_ & _ & Hh). by apply Hh. }
    split; [intros t Ht; specialize (Hle1 t Ht); lia|]. apply Forall_app. split; [|done].
    destruct out as [i|]; [|constructor]. constructor; [|constructor].
    destruct Hout as (_ & _ & (o & n' & t & (Ho & Hn' & Ht) & _ & Htt & _)). specialize (Hle1 t Htt).
    change (default 0 (Instruction.throwaway_num i) <= t'). rewrite Ht. change (default 0 (Some t)) with t. lia.
  - intros t [Ha Hacts]%Forall_cons Hcl. by apply Hclock, (st_clock _ _ _ _ _ _ _ _ Hstep).
  - rewrite !fmap_app, foldl_app. rewrite <- Hnew. f_equal. destruct out as [i|].
    + destruct Hout as (_ & _ & (o & n' & t & (Ho & Hn' & Ht) & _ & _ & _ & _ & Htop & _)). cbn. rewrite Hn'. cbn.
      destruct Hpre1 as [k ->]. rewrite length_app in *. lia.
    + destruct Hout as (-> & _). done.
Qed.

End Served.

(** ** What the server holds *)
Section Held.
Import UserStream.
Context (E : list UserEvent) (upto : Z -> nat) (Hclient : client_stream E upto).

Lemma accept_all_app t a b :
  accept_all t (a ++ b) = ((accept_all (accept_all t a).1 b).1, (accept_all t a).2 ++ (accept_all (accept_all t a).1 b).2).
Proof using Type.
  revert t. induction a as [|s a IH]; intros t; cbn [app]; [apply surjective_pairing|].
  rewrite !accept_all_cons, IH. done.
Qed.

Lemma accept_holds t s n :
  tracks E upto t -> coherent E upto s -> throwaway_num s <= n ->
  is_Some (states t !! n) \/ (new_num s = n /\ exists i, (accept t s).2 = Ok i) ->
  is_Some (states (accept t s).1 !! n).
Proof using Hclient.
  intros Ht Hs Hthrow Hheld. destruct (states t !! old_num s) as [base|] eqn:Hbase.
  - destruct (accept_coherent E upto Hclient t s base Ht Hs Hbase) as (_ & _ & Hst & _). rewrite Hst.
    set (metas := filter _ (<[new_num s := _]> (states t))).
    assert (is_Some (metas !! n)) as Hm.
    { unfold metas. destruct (decide (n = new_num s)) as [->|Hne].
      - eexists. apply map_lookup_filter_Some_2; [by rewrite lookup_insert_eq | by right].
      - destruct Hheld as [[m Hm] | [Hn _]]; [|congruence].
        exists m. apply map_lookup_filter_Some_2; [by rewrite lookup_insert_ne | by left]. }
    destruct (decide _); [done|]. rewrite lookup_fmap. by apply fmap_is_Some.
  - pose proof Hs as [Hn _]. rewrite accept_unknown in * by (done || lia). by destruct Hheld as [Hheld | [_ [i Hi]]].
Qed.

Lemma accept_tracks t s : tracks E upto t -> coherent E upto s -> tracks E upto (accept t s).1.
Proof using Hclient.
  intros Ht Hs. destruct (states t !! old_num s) as [base|] eqn:Hbase.
  - by destruct (accept_coherent E upto Hclient t s base Ht Hs Hbase).
  - pose proof Hs as [Hn _]. by rewrite accept_unknown by (done || lia).
Qed.

Lemma run_holds t ss n :
  tracks E upto t -> Forall (coherent E upto) ss -> Forall (fun s => throwaway_num s <= n) ss ->
  is_Some (states t !! n) -> is_Some (states (accept_all t ss).1 !! n).
Proof using Hclient.
  intros Ht Hss. revert t Ht. induction Hss as [|s ss Hs _ IH]; intros t Ht Hthrow Hn; [done|].
  apply Forall_cons in Hthrow as [Hth Hthrow]. rewrite accept_all_cons. cbn [fst].
  apply IH; [by apply accept_tracks | done | apply accept_holds; [done..| by left]].
Qed.

(** The server has accepted state [n] among the arrivals. *)
Definition has_accepted (ss : list ReceivedState) (n : Z) : Prop :=
  n = 0 \/ exists before s after i, ss = before ++ s :: after /\ new_num s = n /\ (accept (accept_all new before).1 s).2 = Ok i.

Lemma accepted_holds ss n :
  Forall (coherent E upto) ss -> Forall (fun s => throwaway_num s <= n) ss -> has_accepted ss n ->
  is_Some (states (accept_all new ss).1 !! n).
Proof using Hclient.
  intros Hss Hth [-> | (before & s & after & i & -> & Hn & Hi)].
  - apply run_holds; [by apply new_tracks | done..|]. eexists. apply lookup_singleton_eq.
  - apply Forall_app in Hss as [Hb [Hs Ha]%Forall_cons], Hth as [_ [Hth Htha]%Forall_cons].
    destruct (run_coherent E upto Hclient new before (new_tracks E upto Hclient) Hb) as (Ht & _).
    rewrite accept_all_app, accept_all_cons. cbn [fst].
    apply run_holds; [by apply accept_tracks | done..|]. apply accept_holds; [done..|]. right. by eauto.
Qed.
End Held.

(** ** Input that waits *)
Section Unsent.
Import ClientStream Sender.
Context `{ProstWire} {Er : Type}.

(** Something was typed since the newest state. *)
Definition unsent (s : TransportSender) : Prop :=
  exists st, last (sent_states s) = Some st /\ current_state s <> state st.

Definition behind (typed : UserStream) (minted : list nat) : Prop :=
  forall i a, minted !! i = Some a -> (a < length typed)%nat.

Lemma newest_stretch typed minted base s :
  follows typed minted base s -> exists st len, last (sent_states s) = Some st /\ minted !! (length minted - 1)%nat = Some len /\
    (base <= len <= length typed)%nat /\ state st = stretch typed base len.
Proof using Type.
  intros Hf. destruct (last_sent_state _ _ _ _ Hf) as (init & st & Hl & Hn & (Hn0 & len & Hlen & Hle & Hst) & Hpos).
  exists st, len. rewrite Hl, last_snoc. replace (Z.to_nat (num st)) with (length minted - 1)%nat in Hlen by lia.
  split_and!; try done. eapply m_within; [exact (f_minting _ _ _ _ Hf) | exact Hlen].
Qed.

Lemma unsent_behind typed minted base s : follows typed minted base s -> unsent s <-> behind typed minted.
Proof using Type.
  intros Hf. destruct (newest_stretch _ _ _ _ Hf) as (st & len & Hl & Hlen & Hle & Hst).
  pose proof (f_current _ _ _ _ Hf) as Hc. split.
  - intros (st' & Hl' & Hne). rewrite Hl in Hl'. injection Hl' as <-. intros i a Ha.
    assert (len <> length typed) by (intros ->; apply Hne; by rewrite Hc, Hst).
    assert (a <= len)%nat; [|lia]. eapply (m_sorted _ _ (f_minting _ _ _ _ Hf)); [|exact Ha | exact Hlen].
    apply lookup_lt_Some in Ha. lia.
  - intros Hb. exists st. split; [done|]. rewrite Hc, Hst. intros Heq. apply stretch_same in Heq; [|lia..].
    specialize (Hb _ _ Hlen). lia.
Qed.

Lemma behind_diffs typed minted base s st d :
  follows typed minted base s -> behind typed minted -> st ∈ sent_states s ->
  diff_from (current_state s) (state st) = Some d -> d <> [].
Proof.
  intros Hf Hb Hst Hd He. apply (diff_empty _ _ _ Hd) in He. pose proof (f_sent _ _ _ _ Hf) as Hs.
  rewrite Forall_forall in Hs. destruct (Hs st Hst) as (_ & len & Hlen & Hle & Heq).
  rewrite (f_current _ _ _ _ Hf), Heq in He. specialize (Hb _ _ Hlen). pose proof (f_base _ _ _ _ Hf).
  apply stretch_same in He; lia.
Qed.

Lemma behind_alive typed minted alive : minting typed minted -> alive <> [] -> behind (typed ++ alive) minted.
Proof using Type.
  intros Hm Ha i a Hi. rewrite length_app. pose proof (m_within _ _ Hm _ _ Hi). destruct alive; [done | cbn; lia].
Qed.

Lemma interval_range srtt : SEND_INTERVAL_MIN_MS <= interval srtt <= SEND_INTERVAL_MAX_MS.
Proof using Type. unfold interval, SEND_INTERVAL_MIN_MS, SEND_INTERVAL_MAX_MS. lia. Qed.

Lemma plus_small a b : 0 <= a -> 0 <= b -> a + b < 2 ^ 64 -> plus a b = a + b.
Proof using Type. intros. unfold plus. apply wrap_small. unfold fits. lia. Qed.

(** What is unsent is due soon. *)
Lemma timed_due typed minted now srtt rto s s' t :
  timed typed minted now srtt rto s s' -> behind typed minted -> clocked t s -> 0 <= now -> t + 250 < 2 ^ 64 ->
  exists m due, mindelay_clock s' = Some m /\ m = default now (mindelay_clock s) /\ next_send_time s' = Some due /\
    due <= Z.max (m + SEND_MINDELAY_MS) (t + SEND_INTERVAL_MAX_MS).
Proof using Type.
  intros [(base & r & first & last_sent & assumed & Hf & -> & Hss & _ & _ & Hlast & _ & _ & _ & _ & Hm)] Hb [Hts Hmin] Hnow Ht.
  apply (unsent_behind _ _ _ _ Hf) in Hb as (st & Hl & Hne). rewrite Hlast in Hl. injection Hl as <-.
  pose proof (interval_range srtt) as Hi. unfold SEND_INTERVAL_MIN_MS, SEND_INTERVAL_MAX_MS in *.
  assert (0 <= timestamp last_sent <= t) as Hlt.
  { destruct Hss as [_ Hss _ _ _ _]. rewrite <- Hss in Hts. rewrite Forall_fmap, Forall_forall in Hts.
    apply Hts. apply last_Some in Hlast as [init ->]. apply elem_of_app. right. by left. }
  assert (next_send_time (set_timers now srtt rto last_sent assumed first r) =
    Some (Z.max (plus (default now (mindelay_clock r)) SEND_MINDELAY_MS) (plus (timestamp last_sent) (interval srtt)))) as Hsend.
  { unfold set_timers, schedule_send. cbv zeta.
    destruct (pending_data_ack r && _); cbn; rewrite bool_decide_eq_false_2 by done; cbn; by destruct (_ || _). }
  exists (default now (mindelay_clock s)). eexists. rewrite set_timers_clock, bool_decide_eq_false_2, Hm by done.
  split_and!; [done | done | exact Hsend |]. rewrite Hm. rewrite (plus_small (timestamp last_sent)) by lia.
  assert (0 <= default now (mindelay_clock s)) as Hd0.
  { destruct (mindelay_clock s) as [m|]; [cbn; by apply Hmin | done]. }
  unfold plus at 1, wrap. unfold SEND_MINDELAY_MS.
  pose proof (Z.mod_le (default now (mindelay_clock s) + 8) (2 ^ 64) ltac:(lia) ltac:(lia)). lia.
Qed.

(** A tick after that sends it. *)
Lemma overdue_tick typed minted base now srtt rto chaff s m t :
  follows typed minted base s -> shutting_down s = false -> Z.of_nat (length minted) < u64_max ->
  behind typed minted -> clocked t s -> 0 <= now -> t + 250 < 2 ^ 64 ->
  mindelay_clock s = Some m -> m + SEND_MINDELAY_MS <= now -> t + SEND_INTERVAL_MAX_MS <= now ->
  exists s' inst, @tick _ Er now srtt rto chaff s = Ok (s', Some inst) /\ ~ unsent s'.
Proof.
  intros Hf Hshut Hcount Hb Hcl Hnow Ht Hm Hm8 Hlast.
  destruct (timers_run (Er:=Er) _ _ _ now srtt rto _ Hf) as (s1 & Hs1 & Htimed).
  destruct (timed_due _ _ _ _ _ _ _ _ Htimed Hb Hcl Hnow Ht) as (m' & due & _ & Hm' & Hsend & Hdue).
  rewrite Hm in Hm'. change (default now (Some m)) with m in Hm'. subst m'.
  destruct (timed_follows _ _ _ _ _ _ _ Htimed) as (Hss & base1 & first & Hf1 & _).
  destruct (mint_runs (Er:=Er) _ _ _ _ _ _ _ Htimed) as (s2 & due2 & alive & base2 & Hs2 & Halive & Hf2 & Hss2 & Hfalse & Htrue & _).
  assert (behind (typed ++ alive) minted) as Hb2.
  { destruct alive; [by rewrite app_nil_r|]. apply behind_alive; [by eapply f_minting | done]. }
  assert (due2 || reached (next_send_time s2) now = true) as Hgo.
  { destruct due2; [done|]. destruct (Hfalse eq_refl) as [-> _]. cbn [orb]. rewrite Hsend. cbn. apply Z.leb_le. lia. }
  assert (shutting_down s2 = false) as Hshut2 by (destruct Hss, Hss2; congruence).
  destruct (send_when_due_runs (Er:=Er) _ _ _ now chaff due2 _ Hf2 Hshut2 Hcount) as (s3 & out & minted' & Hs3 & Hf3 & _ & _ & Hsays & _ & Hsome & _).
  destruct (Hsome Hgo (fun st d => behind_diffs _ _ _ _ st d Hf2 Hb2)) as [inst ->].
  exists s3, inst. unfold tick. rewrite Hs1. cbn [mbind result_bind]. rewrite Hs2. cbn [mbind result_bind]. split; [done|].
  destruct Hsays as [_ [_ (o & n & t' & _ & _ & _ & _ & Hall & Htop & _)]]. intros Hun.
  apply (unsent_behind _ _ _ _ Hf3) in Hun. specialize (Hun _ _ Hall). lia.
Qed.
End Unsent.

(** ** Properties *)
Section Properties.
Import ClientStream Sender.
Context `{ProstWire} {Er : Type}.

(** A session that types less than an address space holds. *)
Definition modest (acts : list action) : Prop :=
  Forall sendable (typed_by acts) /\ zlen (typed_by acts) + zlen acts < 2 ^ 62 - 1.

Record session (acts : list action) (s : TransportSender) (insts : list Instruction.Instruction)
    (typed : UserStream) (minted : list nat) : Prop := {
  se_told : told [] typed [O] minted acts new s [0] 0 insts;
  se_minting : minting typed minted;
  se_sendable : Forall sendable typed;
  se_short : zlen typed < 2 ^ 62 - 1;
  se_count : Z.of_nat (length minted) < u64_max;
  se_served : server_events typed = server_events (typed_by acts);
}.

Lemma session_runs acts : modest acts ->
  exists s insts typed minted, @run_session _ Er acts new = Ok (s, insts) /\ session acts s insts typed minted.
Proof using Type.
  intros [Hs Hl]. pose proof (zlen_nonneg (typed_by acts)).
  destruct (run_tells (Er:=Er) acts [] [O] O new [0] 0 new_follows eq_refl) as (s & insts & typed & minted & Hrun & Htold).
  - unfold zlen, u64_max in *. cbn [length]. lia.
  - intros n Hn. exact Hn.
  - intros t [= <-]. lia.
  - exists s, insts, typed, minted. split; [done|]. pose proof Htold as [(more & Hm & Hserved & Hlen & Hsend) [_ Hcount] [[base Hf] _] _ _ _ _ _].
    cbn in Hm. subst more. split; try done; [exact (f_minting _ _ _ _ Hf) | by apply Hsend | |]; unfold zlen, u64_max in *; cbn in *; lia.
Qed.

Lemma session_coherent acts s insts typed minted more minted' :
  session acts s insts typed minted -> minted `prefix_of` minted' -> minting (typed ++ more) minted' ->
  Forall sendable more -> zlen more <= 1 -> Z.of_nat (length minted') <= u64_max ->
  client_stream (server_events (typed ++ more)) (upto (typed ++ more) minted') /\
  forall arrivals, Forall (.∈ insts) arrivals ->
    Forall (coherent (server_events (typed ++ more)) (upto (typed ++ more) minted')) (received <$> arrivals).
Proof.
  intros [Htold Hm Hs Hl _ _] Hpre Hm' Hmore Hml Hcount. split; [apply upto_stream; [done|]; rewrite zlen_app; lia|].
  intros arrivals Ha. apply Forall_fmap. rewrite Forall_forall in Ha |- *. intros i Hi%Ha.
  apply sends_coherent; [done | by apply Forall_app | rewrite zlen_app; lia | done |].
  eapply sends_extend; [exact Hm | done |]. pose proof (td_sends _ _ _ _ _ _ _ _ _ _ Htold) as Hsends.
  rewrite Forall_forall in Hsends. by apply Hsends.
Qed.

Lemma session_served acts s insts typed minted :
  session acts s insts typed minted ->
  client_stream (server_events typed) (upto typed minted) /\
  forall arrivals, Forall (.∈ insts) arrivals -> Forall (coherent (server_events typed) (upto typed minted)) (received <$> arrivals).
Proof.
  intros Hs. pose proof (session_coherent _ _ _ _ _ [] minted Hs ltac:(done)) as Hc. rewrite app_nil_r in Hc.
  apply Hc; [by apply (se_minting _ _ _ _ _ Hs) | done | done |]. pose proof (se_count _ _ _ _ _ Hs). lia.
Qed.

(** C3. From the keyboard to the PTY: whatever of the sender's instructions arrive, in
    whatever order and however often, the server hands on exactly a beginning of
    what was typed; and when all of them have arrived in the order they were sent,
    however often what had arrived came again in between, and nothing is unsent, all of it. *)
Theorem typed_input_reaches_the_server acts :
  modest acts ->
  exists s insts, @run_session _ Er acts new = Ok (s, insts) /\
    (forall arrivals, Forall (.∈ insts) arrivals ->
       UserStream.delivered (UserStream.accept_all UserStream.new (received <$> arrivals)).2
         `prefix_of` server_events (typed_by acts) /\
       Forall ok_or_unknown (UserStream.accept_all UserStream.new (received <$> arrivals)).2) /\
    (~ unsent s -> forall arrivals, repeated [] insts arrivals ->
       UserStream.delivered (UserStream.accept_all UserStream.new (received <$> arrivals)).2 = server_events (typed_by acts)).
Proof.
  intros Hmodest. destruct (session_runs acts Hmodest) as (s & insts & typed & minted & Hrun & Hs).
  exists s, insts. split; [done|]. destruct (session_served _ _ _ _ _ Hs) as [Hclient Hcoh].
  rewrite <- (se_served _ _ _ _ _ Hs). pose proof (new_tracks _ _ Hclient) as Ht.
  assert (upto typed minted 0 = O) as Hzero by apply Hclient. split.
  - intros arrivals Ha. destruct (run_coherent _ _ Hclient _ _ Ht (Hcoh _ Ha)) as (_ & _ & -> & Hok). split; [|done].
    cbn [UserStream.latest_state UserStream.new]. rewrite Hzero, segment_0. apply prefix_take.
  - intros Hun arrivals Hrep. pose proof (se_told _ _ _ _ _ Hs) as Htold. assert (Forall (.∈ insts) insts) as Hall by by apply Forall_forall.
    assert (Forall (.∈ insts) arrivals) as Harr by (by eapply repeated_sent).
    destruct (run_coherent _ _ Hclient _ _ Ht (Hcoh _ Harr)) as (_ & _ & -> & _).
    assert (keeps UserStream.new [0] 0) as Hk.
    { intros n Hn%list_elem_of_singleton _. subst. eexists. apply lookup_singleton_eq. }
    pose proof (run_repeated _ _ Hclient _ _ _ _ _ _ (repeated_fmap received _ _ _ Hrep) Ht (List.Forall_nil _) (Hcoh _ Hall) Hk
      (td_disciplined _ _ _ _ _ _ _ _ _ _ Htold) (List.Forall_nil _)) as Hlatest.
    rewrite Hlatest. change (UserStream.latest_state UserStream.new) with (Z.of_nat (length [O]) - 1).
    rewrite (td_newest _ _ _ _ _ _ _ _ _ _ Htold).
    change (Z.of_nat (length [O]) - 1) with 0. rewrite Hzero, segment_0.
    destruct (td_follows _ _ _ _ _ _ _ _ _ _ Htold) as [[base Hf] _].
    destruct (newest_stretch _ _ _ _ Hf) as (st & len & Hlast & Hlen & Hle & Hst).
    assert (len = length typed) as ->.
    { destruct (decide (len = length typed)) as [|Hne]; [done|]. destruct Hun. exists st. split; [done|].
      rewrite (f_current _ _ _ _ Hf), Hst. intros He. apply stretch_same in He; lia. }
    unfold upto. replace (Z.to_nat (Z.of_nat (length minted) - 1)) with (length minted - 1)%nat by lia. rewrite Hlen. cbn [default].
    rewrite (take_ge typed) by done. by rewrite take_ge.
Qed.

(** C14. Loss is repaired: once what followed the oldest state kept has gone
    unacknowledged for the timeout, whatever of it was lost, the next instruction
    brings a server that acknowledged that oldest state all that was typed. *)
Theorem lost_input_is_rebuilt acts arrivals now srtt rto chaff :
  modest acts ->
  exists s insts, @run_session _ Er acts new = Ok (s, insts) /\
    (forall n, head (nums s) = Some n -> Forall (.∈ insts) arrivals -> has_accepted (received <$> arrivals) n ->
     overdue now rto s ->
     exists s' out, @tick _ Er now srtt rto chaff s = Ok (s', out) /\
       forall inst, out = Some inst ->
         UserStream.delivered (UserStream.accept_all UserStream.new (received <$> arrivals ++ [inst])).2
           = server_events (typed_by acts)).
Proof.
  intros Hmodest. destruct (session_runs acts Hmodest) as (s & insts & typed & minted & Hrun & Hs).
  exists s, insts. split; [done|]. intros n Hn Harr Hacc Hlate. pose proof (se_told _ _ _ _ _ Hs) as Htold.
  destruct (td_follows _ _ _ _ _ _ _ _ _ _ Htold) as [[base Hf] Hshut].
  destruct (tick_runs (Er:=Er) _ _ _ now srtt rto chaff _ Hf Hshut (se_count _ _ _ _ _ Hs))
    as (s' & out & alive & minted' & base' & Htick & Halive & Hf' & _ & _ & Hsays & Hold & _).
  exists s', out. split; [done|]. intros inst ->. specialize (Hold Hlate _ eq_refl).
  destruct Hsays as [Hminted [Hsends (o & new' & t & (Ho & Hnew & Hthrow) & _ & Ht & Hto & Hall & Htop & _)]].
  pose proof (f_minting _ _ _ _ Hf') as Hm'. destruct (alive_sendable _ Halive) as [Hasend Halen].
  assert (Z.of_nat (length minted') <= u64_max) as Hcount'.
  { pose proof (se_count _ _ _ _ _ Hs). destruct Hminted as [-> | ->]; [lia | rewrite length_app; cbn; lia]. }
  assert (minted `prefix_of` minted') as Hpre by (destruct Hminted as [-> | ->]; [done | by eexists]).
  destruct (session_coherent _ _ _ _ _ alive minted' Hs Hpre Hm' Hasend ltac:(unfold zlen; lia) Hcount') as [Hclient Hcoh].
  specialize (Hcoh _ Harr). set (E := server_events (typed ++ alive)) in *. set (u := upto (typed ++ alive) minted') in *.
  assert (coherent E u (received inst)) as Hinst.
  { apply sends_coherent; try done.
    - apply Forall_app. split; [exact (se_sendable _ _ _ _ _ Hs) | done].
    - rewrite zlen_app. pose proof (se_short _ _ _ _ _ Hs). unfold zlen in *. lia. }
  assert (Forall (fun r => UserStream.throwaway_num r <= n) (received <$> arrivals)) as Hthrows.
  { apply Forall_fmap. destruct (td_oldest _ _ _ _ _ _ _ _ _ _ Htold n Hn) as [_ Hle].
    rewrite Forall_forall in Hle, Harr |- *. intros i Hi. by apply Hle, Harr. }
  pose proof (accepted_holds E u Hclient _ n Hcoh Hthrows Hacc) as [meta Hheld].
  rewrite fmap_app, accept_all_app. cbn [snd fmap list_fmap]. rewrite accept_all_cons. cbn [fst snd].
  destruct (run_coherent E u Hclient _ _ (new_tracks _ _ Hclient) Hcoh) as (Htr & _ & Hdel & _).
  assert (UserStream.old_num (received inst) = n) as Holdn by (cbn; by rewrite Hold, Hn).
  assert (UserStream.new_num (received inst) = new') as Hnewn by (cbn; by rewrite Hnew).
  destruct (accept_coherent E u Hclient _ (received inst) meta Htr Hinst ltac:(by rewrite Holdn)) as (_ & _ & _ & i & Hi & Hev).
  unfold UserStream.delivered. rewrite fmap_app, concat_app. fold (UserStream.delivered (UserStream.accept_all UserStream.new (received <$> arrivals)).2).
  rewrite Hdel. cbn [fmap list_fmap concat]. rewrite Hi, app_nil_r, Hev.
  destruct Hclient as (Hzero & Hmono & Hlen & _). set (t1 := (UserStream.accept_all UserStream.new (received <$> arrivals)).1) in *.
  assert (u new' = length E) as Hfull.
  { unfold u, upto. rewrite Hall. cbn [default]. by rewrite take_ge. }
  assert (u (latest_after t1 (received inst)) = length E) as ->.
  { unfold latest_after. rewrite Hnewn. pose proof (Hmono new' (Z.max (UserStream.latest_state t1) new') ltac:(lia)).
    pose proof (Hlen (Z.max (UserStream.latest_state t1) new')). lia. }
  change (UserStream.latest_state UserStream.new) with 0. rewrite Hzero, segment_app; [|split; [lia | apply Hlen] | done].
  rewrite segment_0, take_ge by done. unfold E. rewrite server_events_app, (server_events_alive alive), app_nil_r by done.
  exact (se_served _ _ _ _ _ Hs).
Qed.

(** C23. Typing never waits long: when something is unsent, the time to wait is at most
    the longest interval, and a tick from then on, unless the clock is at the end
    of its range, sends all of it. *)
Theorem typed_input_is_sent_in_time acts now srtt rto :
  modest acts -> 0 <= now -> now + 250 < 2 ^ 64 -> Forall (within now) acts ->
  exists s insts s1 w, @run_session _ Er acts new = Ok (s, insts) /\ @wait_time Er now srtt rto s = Ok (s1, w) /\
    (unsent s -> w <= SEND_INTERVAL_MAX_MS /\
       forall later srtt' rto' chaff, now + SEND_INTERVAL_MAX_MS <= later ->
         exists s' inst, @tick _ Er later srtt' rto' chaff s1 = Ok (s', Some inst) /\ ~ unsent s').
Proof.
  intros Hmodest Hnow Hend Hacts. destruct (session_runs acts Hmodest) as (s & insts & typed & minted & Hrun & Hs).
  pose proof (se_told _ _ _ _ _ Hs) as Htold. destruct (td_follows _ _ _ _ _ _ _ _ _ _ Htold) as [[base Hf] Hshut].
  assert (clocked now s) as Hcl.
  { eapply (td_clock _ _ _ _ _ _ _ _ _ _ Htold); [exact Hacts|]. split; [|done]. by repeat constructor. }
  destruct (timers_run (Er:=Er) _ _ _ now srtt rto _ Hf) as (s1 & Hs1 & Htimed).
  exists s, insts, s1. eexists. split; [done|]. split; [unfold wait_time; by rewrite Hs1|].
  intros Hun. apply (unsent_behind _ _ _ _ Hf) in Hun.
  destruct (timed_due _ _ _ _ _ _ _ _ Htimed Hun Hcl Hnow Hend) as (m & due & Hm & Hmdef & Hsend & Hdue).
  assert (0 <= m <= now) as Hmr.
  { destruct (mindelay_clock s) as [m'|] eqn:Hms; [apply Hcl; by rewrite Hmdef | cbn in Hmdef; lia]. }
  unfold SEND_INTERVAL_MAX_MS, SEND_MINDELAY_MS in *. split.
  - unfold next_due. rewrite Hsend. unfold saturating_sub. destruct (next_keep_alive s1); lia.
  - intros later srtt' rto' chaff Hlater. destruct (timed_follows _ _ _ _ _ _ _ Htimed) as (Hss & base1 & first & Hf1 & _).
    eapply (overdue_tick typed minted base1 later srtt' rto' chaff s1 m now); try done.
    + destruct Hss; congruence.
    + exact (se_count _ _ _ _ _ Hs).
    + eapply timers_clocked; [exact Htimed | lia | exact Hcl].
    + lia.
    + unfold SEND_MINDELAY_MS. lia.
Qed.
End Properties.

(** ** Samples *)
Section Samples.
Import ClientStream Sender.

Definition sample_prost : Prost := {| encode_to_vec := Protobuf.wire_message; decode := fun _ => None |}.
#[local] Existing Instance sample_prost.
#[local] Instance sample_wire : ProstWire.
Proof. by split. Qed.

Definition ms (n : Z) : spec_float := Ieee.of_int (H:=Ieee.f64) n.

(** Two keys and a resize, the first instruction acknowledged before the second. *)
Definition sample_acts : list action :=
  [Push [Byte (z2b 104); Byte (z2b 105)]; Tick 1 (ms 100) (ms 300) []; Acknowledged 1;
   Push [Resize 80 24]; Wait 60 (ms 100) (ms 300); Tick 1000 (ms 100) (ms 300) []].

(** Keys and sizes in range. *)
Definition plain (e : UserEvent) : bool :=
  match e with
  | Byte _ => true
  | Resize w h => (0 <=? w) && (w <? 2 ^ 16) && ((0 <=? h) && (h <? 2 ^ 16))
  | _ => false
  end.

Lemma plain_modest acts :
  forallb plain (typed_by acts) = true -> (zlen (typed_by acts) + zlen acts <? 100) = true -> modest acts.
Proof.
  intros Hs Hl. split; [|lia]. rewrite forallb_forall in Hs. apply Forall_forall. intros e He%list_elem_of_In%Hs.
  destruct e; cbn in *; try done. lia.
Qed.

Lemma typed_input_reaches_the_server_witness :
  exists s one two, @run_session _ Empty_set sample_acts new = Ok (s, [one; two]) /\
    UserStream.delivered (UserStream.accept_all UserStream.new (received <$> [one; one; two; one])).2
      = [UserStream.Byte (z2b 104); UserStream.Byte (z2b 105); UserStream.Resize 80 24].
Proof.
  destruct (typed_input_reaches_the_server (Er:=Empty_set) sample_acts) as (s & insts & Hrun & _ & Hall).
  - apply plain_modest; vm_compute; reflexivity.
  - assert (exists one two, insts = [one; two]) as (one & two & ->) by (vm_compute in Hrun; injection Hrun as <- <-; by eexists _, _).
    exists s, one, two. split; [exact Hrun|]. rewrite Hall.
    + vm_compute. reflexivity.
    + intros (st & Hst & Hne). vm_compute in Hrun. injection Hrun as <- <- <-. injection Hst as <-. by apply Hne.
    + apply repeated_next, repeated_again; [constructor|]. apply repeated_next, repeated_again; [constructor; constructor|]. apply repeated_end.
Defined.

(** The instruction that said "hi" is lost; a second later the next one says it again. *)
Lemma lost_input_is_rebuilt_witness :
  let acts := [Push [Byte (z2b 104); Byte (z2b 105)]; Tick 1 (ms 100) (ms 300) [];
    Push [Byte (z2b 33)]; Wait 900 (ms 100) (ms 300)] in
  exists s insts s' inst, @run_session _ Empty_set acts new = Ok (s, insts) /\
    @tick _ Empty_set 1000 (ms 100) (ms 300) [] s = Ok (s', Some inst) /\
    UserStream.delivered (UserStream.accept_all UserStream.new [received inst]).2
      = [UserStream.Byte (z2b 104); UserStream.Byte (z2b 105); UserStream.Byte (z2b 33)].
Proof.
  cbv zeta. match goal with |- context [run_session ?l] => set (acts := l) end.
  destruct (lost_input_is_rebuilt (Er:=Empty_set) acts [] 1000 (ms 100) (ms 300) []) as (s & insts & Hrun & Hlost).
  - apply plain_modest; vm_compute; reflexivity.
  - destruct (Hlost 0) as (s' & out & Htick & Hout).
    + vm_compute in Hrun. injection Hrun as <- <-. reflexivity.
    + constructor.
    + by left.
    + vm_compute in Hrun. injection Hrun as <- <-. intros ts Hts. injection Hts as <-. by vm_compute.
    + exists s, insts, s'. destruct out as [inst|].
      * exists inst. split; [done|]. split; [done|]. exact (Hout inst eq_refl).
      * exfalso. vm_compute in Hrun. injection Hrun as <- <-. vm_compute in Htick. discriminate Htick.
Defined.

Lemma typed_input_is_sent_in_time_witness :
  let acts := [Tick 1 (ms 100) (ms 300) []; Push [Byte (z2b 104)]] in
  exists s insts s1 w, @run_session _ Empty_set acts new = Ok (s, insts) /\
    @wait_time Empty_set 5 (ms 100) (ms 300) s = Ok (s1, w) /\ w = 46 /\
    exists s' inst, @tick _ Empty_set 255 (ms 900) (ms 300) [] s1 = Ok (s', Some inst) /\ ~ unsent s'.
Proof.
  cbv zeta. match goal with |- context [run_session ?l] => set (acts := l) end.
  destruct (typed_input_is_sent_in_time (Er:=Empty_set) acts 5 (ms 100) (ms 300)) as (s & insts & s1 & w & Hrun & Hwait & Hsend).
  - apply plain_modest; vm_compute; reflexivity.
  - lia.
  - lia.
  - repeat constructor; lia.
  - exists s, insts, s1, w. split; [exact Hrun|]. split; [exact Hwait|].
    destruct Hsend as [_ Hsend].
    + vm_compute in Hrun. injection Hrun as <- <-. eexists. split; [reflexivity | discriminate].
    + split; [|apply Hsend; unfold SEND_INTERVAL_MAX_MS; lia].
      vm_compute in Hrun. injection Hrun as <- <-. vm_compute in Hwait. by injection Hwait as _ <-.
Defined.
End Samples.
