(* ===== verification/Receiver.v ===== *)
(** * The client's receiver

    Models [TransportReceiver] of [crates/mosh_rs/src/sender.rs]: the numbers of the
    peer's states held, and what an instruction turns out to be. *)
From Stdlib Require Import ZArith Lia List Bool.
From stdpp Require Import base numbers list sets sorting.
From S2P Require Import Prelude Instruction.
Open Scope Z_scope.
Open Scope zetta_scope.

Module Receiver.

Definition MAX_RECEIVED_STATES : Z := 1024.
Definition RECEIVER_QUENCH_MS : Z := 15000.

Record TransportReceiver := mkReceiver { received : list Z; quench_until : Z }.

Inductive Received :=
| Apply (num : Z) (diff : bytes)
| ApplyOutOfOrder (num : Z) (diff : bytes)
| Duplicate
| Unresolvable.

Definition new : TransportReceiver := mkReceiver [0] 0.

Definition latest {E} (r : TransportReceiver) : result E Z := expect (last (received r)).

(** [l.partition_point(p)], the list having what satisfies [p] in front. *)
Fixpoint partition_point (p : Z -> bool) (l : list Z) : nat :=
  match l with
  | n :: l => if p n then S (partition_point p l) else O
  | [] => O
  end.
(** [l.insert(i, v)] *)
Definition insert_at (i : nat) (v : Z) (l : list Z) : list Z := take i l ++ v :: drop i l.

(** The states a peer still diffs from, and the one this diff is from when there are none. *)
Definition discard (throwaway : option Z) (old_num : Z) (l : list Z) : list Z :=
  match throwaway with
  | None => l
  | Some t => let kept := filter (fun n => t <= n) l in if bool_decide (kept = []) then [old_num] else kept
  end.

Definition process {E} (inst : Instruction.Instruction) (now : Z) (r : TransportReceiver)
    : result E (TransportReceiver * Received) :=
  match Instruction.old_num inst, Instruction.new_num inst with
  | Some old_num, Some new_num =>
      if bool_decide (new_num ∈ received r) then Ok (r, Duplicate)
      else if negb (bool_decide (old_num ∈ received r)) then Ok (r, Unresolvable)
      else
        let r := mkReceiver (discard (Instruction.throwaway_num inst) old_num (received r)) (quench_until r) in
        let over := MAX_RECEIVED_STATES <? zlen (received r) in
        if over && (now <? quench_until r) then Ok (r, Unresolvable)
        else
          let r := if over then mkReceiver (received r) (wrap 64 (now + RECEIVER_QUENCH_MS)) else r in
          newest ← latest r;
          let in_order := newest <? new_num in
          let idx := partition_point (fun n => n <? new_num) (received r) in
          let r := mkReceiver (insert_at idx new_num (received r)) (quench_until r) in
          let diff := default [] (Instruction.diff inst) in
          Ok (r, if in_order then Apply new_num diff else ApplyOutOfOrder new_num diff)
  | _, _ => Ok (r, Unresolvable)
  end.

End Receiver.

(** ** What is held *)
Section Held.
Import Receiver.
Context {E : Type}.

Definition ascending (l : list Z) : Prop := StronglySorted Z.lt l.

Record receiver_wf (r : TransportReceiver) : Prop := {
  rw_ascending : ascending (received r);
  rw_nonempty : received r <> [];
}.

Lemma new_receiver_wf : receiver_wf new.
Proof using Type. split; [repeat constructor | done]. Qed.

Lemma filter_ascending t l : ascending l -> ascending (filter (fun n => t <= n) l).
Proof using Type.
  unfold ascending. induction 1 as [|n l Hl IH Hn]; [constructor|]. rewrite filter_cons. case_decide; [|done].
  constructor; [done|]. rewrite Forall_forall in *. intros m [_ Hm]%list_elem_of_filter. by apply Hn.
Qed.

Lemma discard_wf t old l : ascending l -> l <> [] -> ascending (discard t old l) /\ discard t old l <> [].
Proof using Type.
  intros Hl Hne. unfold discard. destruct t as [t|]; [|done]. case_bool_decide as Hk; [by repeat constructor|].
  split; [by apply filter_ascending | done].
Qed.

Lemma insert_at_in i v l x : x ∈ insert_at i v l <-> x = v \/ x ∈ l.
Proof using Type.
  unfold insert_at. rewrite elem_of_app, elem_of_cons. rewrite <- (take_drop i l) at 3. rewrite elem_of_app. tauto.
Qed.

Lemma insert_ascending v l :
  ascending l -> v ∉ l -> ascending (insert_at (partition_point (fun n => n <? v) l) v l).
Proof using Type.
  unfold ascending, insert_at. induction 1 as [|n l Hl IH Hn]; intros Hv; [repeat constructor|].
  apply not_elem_of_cons in Hv as [Hne Hv]. cbn [partition_point]. destruct (Z.ltb_spec n v).
  - cbn [take drop app]. constructor; [by apply IH|]. rewrite Forall_forall in *. intros m Hm.
    apply (insert_at_in (partition_point _ l) v l) in Hm as [->|Hm]; [done | by apply Hn].
  - cbn [take drop app]. constructor; [by constructor|]. constructor; [lia|].
    eapply Forall_impl; [exact Hn|]. cbn. lia.
Qed.

Lemma insert_length i v l : length (insert_at i v l) = S (length l).
Proof using Type. unfold insert_at. rewrite length_app. cbn [length]. rewrite length_take, length_drop. lia. Qed.

(** An instruction never makes the receiver panic, and leaves the numbers held in
    order; what it says of it. *)
Lemma process_spec inst now r :
  receiver_wf r ->
  exists r' what, @process E inst now r = Ok (r', what) /\ receiver_wf r' /\
    match what with
    | Apply num diff | ApplyOutOfOrder num diff =>
        exists old, Instruction.old_num inst = Some old /\ Instruction.new_num inst = Some num /\
          diff = default [] (Instruction.diff inst) /\ old ∈ received r /\ num ∉ received r /\
          (forall n, n ∈ received r' <-> n = num \/ n ∈ discard (Instruction.throwaway_num inst) old (received r))
    | Duplicate => r' = r
    | Unresolvable => forall n, n ∈ received r' -> n ∈ received r
    end.
Proof using Type.
  intros [Ha Hne]. unfold process.
  destruct (Instruction.old_num inst) as [old|]; [|by exists r, Unresolvable].
  destruct (Instruction.new_num inst) as [num|]; [|by exists r, Unresolvable].
  case_bool_decide as Hnew; [by exists r, Duplicate|]. case_bool_decide as Hold; [|by exists r, Unresolvable]. cbn [negb].
  destruct (discard_wf (Instruction.throwaway_num inst) old (received r) Ha Hne) as [Hd Hdne].
  set (kept := discard _ _ _) in *. cbn [received quench_until].
  assert (num ∉ kept) as Hnk.
  { unfold kept, discard. destruct (Instruction.throwaway_num inst) as [t|]; [|done]. case_bool_decide.
    - intros ->%list_elem_of_singleton. done.
    - intros [_ ?]%list_elem_of_filter. done. }
  assert (forall n, n ∈ kept -> n ∈ received r) as Hin.
  { unfold kept, discard. destruct (Instruction.throwaway_num inst) as [t|]; [|done]. case_bool_decide.
    - by intros n ->%list_elem_of_singleton.
    - by intros n [_ ?]%list_elem_of_filter. }
  destruct (_ && _); [by exists (mkReceiver kept (quench_until r)), Unresolvable|].
  set (r2 := if _ <? _ then _ else _). assert (received r2 = kept) as Hr2 by (unfold r2; by destruct (_ <? _)).
  unfold latest. rewrite Hr2. destruct (last kept) as [newest|] eqn:Hlast; [|by apply last_None in Hlast].
  cbn [expect mbind result_bind]. eexists _, _. split; [reflexivity|].
  split; [split; cbn; [by apply insert_ascending | intros Hempty%(f_equal length); by rewrite insert_length in Hempty]|].
  assert (exists old0, Some old = Some old0 /\ Some num = Some num /\
    default [] (Instruction.diff inst) = default [] (Instruction.diff inst) /\ old0 ∈ received r /\ num ∉ received r /\
    (forall n, n ∈ insert_at (partition_point (fun n => n <? num) kept) num kept <-> n = num \/ n ∈ discard (Instruction.throwaway_num inst) old0 (received r)))
    as Hspec by (exists old; split_and!; try done; intros n; apply insert_at_in).
  by destruct (newest <? num).
Qed.

(** ** The bound *)

Fixpoint process_all (arrivals : list (Instruction.Instruction * Z)) (r : TransportReceiver) : result E TransportReceiver :=
  match arrivals with
  | [] => Ok r
  | (inst, now) :: rest => '(r, _) ← process inst now r; process_all rest r
  end.

Lemma discard_shorter t old l : l <> [] -> zlen (discard t old l) <= zlen l.
Proof using Type.
  intros Hl. unfold discard, zlen. destruct t as [t|]; [|done]. case_bool_decide.
  - destruct l; [done | cbn; lia].
  - pose proof (length_filter (fun n => t <= n) l). lia.
Qed.

(** Within the quench after a moment past the limit, at most one more is taken. *)
Lemma process_bounded inst now r t m r' what :
  receiver_wf r -> t <= now < t + RECEIVER_QUENCH_MS -> 0 <= t -> t + 2 * RECEIVER_QUENCH_MS < 2 ^ 64 ->
  MAX_RECEIVED_STATES + 1 <= m ->
  zlen (received r) <= m \/ (zlen (received r) <= m + 1 /\ t + RECEIVER_QUENCH_MS <= quench_until r) ->
  @process E inst now r = Ok (r', what) ->
  zlen (received r') <= m \/ (zlen (received r') <= m + 1 /\ t + RECEIVER_QUENCH_MS <= quench_until r').
Proof using Type.
  intros [Ha Hne] Hnow Ht Hend Hm Hb. unfold process, MAX_RECEIVED_STATES, RECEIVER_QUENCH_MS in *.
  destruct (Instruction.old_num inst) as [old|]; [|by intros [= <- <-]].
  destruct (Instruction.new_num inst) as [num|]; [|by intros [= <- <-]].
  case_bool_decide; [by intros [= <- <-]|]. case_bool_decide; [|by intros [= <- <-]]. cbn [negb received quench_until].
  pose proof (discard_shorter (Instruction.throwaway_num inst) old (received r) Hne) as Hshort.
  set (kept := discard _ _ _) in *. unfold wrap.
  destruct (Z.ltb_spec 1024 (zlen kept)) as [Hover|Hunder]; cbn [andb].
  - destruct (Z.ltb_spec now (quench_until r)); [intros [= <- <-]; cbn; lia|].
    unfold latest. cbn [received quench_until]. destruct (last kept); [|done]. cbn [expect mbind result_bind].
    intros [= <- _]. cbn [received quench_until]. unfold zlen in *. rewrite insert_length. right.
    rewrite Z.mod_small by lia. lia.
  - unfold latest. cbn [received quench_until]. destruct (last kept); [|done]. cbn [expect mbind result_bind].
    intros [= <- _]. cbn [received quench_until]. unfold zlen in *. rewrite insert_length. lia.
Qed.

End Held.

(** ** Properties *)
Section Properties.
Import Receiver.

(** However fast states arrive, a receiver past the limit takes at most one more in
    any fifteen seconds. *)
Theorem receiver_growth_is_quenched (arrivals : list (Instruction.Instruction * Z)) r t :
  receiver_wf r -> 0 <= t -> t + 2 * RECEIVER_QUENCH_MS < 2 ^ 64 ->
  Forall (fun a => t <= a.2 < t + RECEIVER_QUENCH_MS) arrivals ->
  exists r', @process_all Empty_set arrivals r = Ok r' /\ receiver_wf r' /\
    zlen (received r') <= Z.max (zlen (received r)) (MAX_RECEIVED_STATES + 1) + 1.
Proof.
  intros Hr Ht Hend Harr. set (m := Z.max _ _).
  assert (forall r0, receiver_wf r0 ->
    zlen (received r0) <= m \/ (zlen (received r0) <= m + 1 /\ t + RECEIVER_QUENCH_MS <= quench_until r0) ->
    exists r', @process_all Empty_set arrivals r0 = Ok r' /\ receiver_wf r' /\ zlen (received r') <= m + 1) as H.
  { induction Harr as [|[inst now] arrivals Hnow _ IH]; intros r0 Hr0 Hb; [exists r0; split_and!; [done..|lia]|].
    cbn [process_all]. destruct (process_spec (E:=Empty_set) inst now r0 Hr0) as (r1 & what & Hp & Hr1 & _). rewrite Hp.
    cbn [mbind result_bind]. apply IH; [done|]. eapply process_bounded; [exact Hr0 | exact Hnow | done | done | | exact Hb | exact Hp].
    unfold m. lia. }
  apply H; [done|]. left. unfold m. lia.
Qed.

Lemma receiver_growth_is_quenched_witness :
  let inst n := Instruction.new 0 n 0 0 [] [] in
  exists r', @process_all Empty_set [(inst 2, 10); (inst 1, 11); (inst 2, 12)] new = Ok r' /\ received r' = [0; 1; 2].
Proof.
  cbv zeta. destruct (receiver_growth_is_quenched
    [(Instruction.new 0 2 0 0 [] [], 10); (Instruction.new 0 1 0 0 [] [], 11); (Instruction.new 0 2 0 0 [] [], 12)] new 0)
    as (r' & Hr & _ & _).
  - apply new_receiver_wf.
  - lia.
  - reflexivity.
  - repeat constructor; cbn; unfold RECEIVER_QUENCH_MS; lia.
  - exists r'. split; [exact Hr|]. vm_compute in Hr. by injection Hr as <-.
Defined.
End Properties.
