(* ===== verification/ClientScreen.v ===== *)
(** * The screens of the Mosh client

    Models [crates/mosh_rs/src/screen.rs]: what a cell is and how it is drawn, the
    trait a screen implements (the class [Screen], whose emulator is not under
    verification here), the painting of an overlay as escapes, and the trait that
    turns a screen into bytes for a terminal. *)
From Stdlib Require Import ZArith Lia List Bool.
From stdpp Require Import base numbers list strings.
From S2P Require Import Prelude Text.
Import Decimal.
Open Scope Z_scope.
Open Scope zetta_scope.

Module ClientScreen.

Inductive Color := Default | Indexed (i : Z) | Rgb (r g b : Z).
#[export] Instance Color_eq_dec : EqDecision Color.
Proof. solve_decision. Defined.

Record Rendition := mkRendition {
  fg : Color; bg : Color; bold : bool; dim : bool; italic : bool; underline : bool; inverse : bool;
}.
#[export] Instance Rendition_eq_dec : EqDecision Rendition.
Proof. solve_decision. Defined.
Definition default_rendition : Rendition := mkRendition Default Default false false false false false.

(** One colour's parameters, [base] being 30 or 40. *)
Definition sgr_color (color : Color) (base : Z) : bytes :=
  match color with
  | Default => []
  | Indexed i =>
      if i <? 8 then text ";" ++ decimal (base + i)
      else if i <? 16 then text ";" ++ decimal (base + 60 + (i - 8))
      else text ";" ++ decimal (base + 8) ++ text ";5;" ++ decimal i
  | Rgb r g b => text ";" ++ decimal (base + 8) ++ text ";2;" ++ decimal r ++ text ";" ++ decimal g ++ text ";" ++ decimal b
  end.

Definition sgr (force_underline : bool) (r : Rendition) : bytes :=
  let flag (b : bool) (s : bytes) := if b then s else [] in
  z2b 0x1b :: text "[0" ++ flag (bold r) (text ";1") ++ flag (dim r) (text ";2") ++ flag (italic r) (text ";3")
    ++ flag (underline r || force_underline) (text ";4") ++ flag (inverse r) (text ";7")
    ++ sgr_color (fg r) 30 ++ sgr_color (bg r) 40 ++ text "m".

(** The grapheme as its UTF-8 bytes. *)
Record Cell := mkCell { contents : bytes; rendition : Rendition }.
#[export] Instance Cell_eq_dec : EqDecision Cell.
Proof. solve_decision. Defined.
Definition default_cell : Cell := mkCell [] default_rendition.

Definition is_blank (c : Cell) : bool :=
  bool_decide (contents c = []) || bool_decide (contents c = text " ") || bool_decide (contents c = [z2b 0xc2; z2b 0xa0]).
Definition contents_match (c other : Cell) : bool :=
  (is_blank c && is_blank other) || bool_decide (contents c = contents other).
Definition glyph (c : Cell) : bytes := if bool_decide (contents c = []) then text " " else contents c.

Inductive OverlayCursor := Unchanged | At (row col : Z) | Hidden.
#[export] Instance OverlayCursor_eq_dec : EqDecision OverlayCursor.
Proof. solve_decision. Defined.

Record OverlayCell := mkOverlay { row : Z; col : Z; cell : Cell; marked : bool }.
#[export] Instance OverlayCell_eq_dec : EqDecision OverlayCell.
Proof. solve_decision. Defined.

Definition push_cup (row col : Z) : bytes :=
  z2b 0x1b :: text "[" ++ decimal (wrap 16 (row + 1)) ++ text ";" ++ decimal (wrap 16 (col + 1)) ++ text "H".

(** A screen as the client uses one. *)
Class Screen (S : Type) := {
  feed : bytes -> S -> S;
  resize : Z -> Z -> S -> S;
  rows : S -> Z;
  cols : S -> Z;
  cursor : S -> Z * Z;
  cell_at : S -> Z -> Z -> Cell;
  screen_text : S -> bytes;
  title : S -> option bytes;
  draw_overlay : list OverlayCell -> OverlayCursor -> S -> S;
}.

(** What the trait asks of an implementation: feeding nothing changes nothing. *)
Class ScreenLaws S `{Screen S} : Prop := {
  feed_nothing : forall s, feed [] s = s;
}.

Section Painting.
Context {S : Type} `{Screen S}.

(** The bytes [draw_overlay] feeds by default, nothing in the last column. *)
Definition overlay_bytes (cells : list OverlayCell) (cur : OverlayCursor) (s : S) : bytes :=
  let out := concat ((fun painted =>
    if cols s <=? wrap 16 (col painted + 1) then []
    else push_cup (row painted) (col painted) ++ sgr (marked painted) (rendition (cell painted)) ++ glyph (cell painted)) <$> cells) in
  let out := if bool_decide (out = []) then out else out ++ z2b 0x1b :: text "[m" in
  match cur with
  | Unchanged => out
  | At r c => out ++ push_cup r c
  | Hidden => out ++ z2b 0x1b :: text "[?25l"
  end.

Definition draw_overlay_default (cells : list OverlayCell) (cur : OverlayCursor) (s : S) : S :=
  let out := overlay_bytes cells cur s in
  if bool_decide (out = []) then s else feed out s.
End Painting.

(** Turning a screen into bytes for a terminal. *)
Class DiffScreen (S : Type) `{Screen S} := {
  diff_from : S -> S -> bytes;
  repaint : S -> bytes;
}.

Example sgr_named : sgr true (mkRendition (Indexed 1) (Rgb 10 20 30) true false false false false)
  = z2b 0x1b :: text "[0;1;4;31;48;2;10;20;30m".
Proof. vm_compute. reflexivity. Qed.
Example sgr_plain : sgr false default_rendition = z2b 0x1b :: text "[0m".
Proof. vm_compute. reflexivity. Qed.

End ClientScreen.
