(* ===== verification/ClientTerminal.v ===== *)
(** * The client's terminal

    Models [ClientTerminal] of [crates/mosh_rs/src/terminal.rs]: the screens of the
    states the client can reconstruct, what is displayed, and the bytes that bring
    a terminal up to date.  Screens are behind [Arc]: a reference has an address,
    which [Arc::ptr_eq] compares, and is counted, which decides what
    [Arc::make_mut] does; a screen changes only where one reference has it, so a
    reference carries its value. *)
From Stdlib Require Import ZArith Lia List Bool.
From stdpp Require Import base numbers list gmap sets strings.
From S2P Require Import Prelude Text ClientScreen.
Open Scope Z_scope.
Open Scope zetta_scope.

(** What is used of the runtime: the allocator gives an address nothing alive has,
    and a map is walked in some order of its keys. *)
Class Runtime := {
  allocate : list positive -> positive;
  walk_order : gset Z -> list Z;
}.
Class RuntimeLaws `{Runtime} : Prop := {
  allocate_fresh : forall live, allocate live ∉ live;
  walk_each : forall keys, NoDup (walk_order keys);
  walk_all : forall keys n, n ∈ walk_order keys <-> n ∈ keys;
}.

Module ClientTerminal.
Import ClientScreen.

Section Terminal.
Context {S : Type} `{Screen S} `{Runtime}.

Record Arc := mkArc { ptr : positive; screen : S }.

Record Shown := mkShown { confirmed_by : Arc; overlay : list OverlayCell; overlay_cursor : OverlayCursor }.

Record ClientTerminal := mkTerminal {
  states : gmap Z Arc;
  displayed : Arc;
  shown : option Shown;
  latest : Z;
  title_prefix : bytes;
}.

(** Every reference there is. *)
Definition references (t : ClientTerminal) : list Arc :=
  (map_to_list (states t)).*2 ++ displayed t :: option_list (confirmed_by <$> shown t).

Definition arc_new (t : ClientTerminal) (s : S) : Arc := mkArc (allocate (ptr <$> references t)) s.
Definition strong_count (t : ClientTerminal) (a : Arc) : nat := length (filter (fun p => p = ptr a) (ptr <$> references t)).
(** [f(Arc::make_mut(&mut a))] *)
Definition make_mut (t : ClientTerminal) (f : S -> S) (a : Arc) : Arc :=
  if Nat.eqb (strong_count t a) 1 then mkArc (ptr a) (f (screen a)) else arc_new t (f (screen a)).

Definition matches (confirmed : Arc) (cells : list OverlayCell) (cur : OverlayCursor) (sh : Shown) : bool :=
  bool_decide (ptr (confirmed_by sh) = ptr confirmed) && bool_decide (overlay_cursor sh = cur)
    && bool_decide (overlay sh = cells).

Definition new (blank : S) : ClientTerminal :=
  let blank := mkArc (allocate []) blank in
  mkTerminal {[0 := blank]} blank None 0 [].

Definition set_states (m : gmap Z Arc) (t : ClientTerminal) : ClientTerminal :=
  mkTerminal m (displayed t) (shown t) (latest t) (title_prefix t).
Definition show (next : Arc) (sh : option Shown) (t : ClientTerminal) : ClientTerminal :=
  mkTerminal (states t) next sh (latest t) (title_prefix t).

Definition apply_diff (old_num new_num : Z) (l : bytes) (t : ClientTerminal) : ClientTerminal * bool :=
  match states t !! old_num with
  | None => (t, false)
  | Some base =>
      let next := if bool_decide (l = []) then base else arc_new t (feed l (screen base)) in
      let t := set_states (<[new_num := next]> (states t)) t in
      (if (latest t <? new_num) || (latest t =? u64_max)
       then mkTerminal (states t) (displayed t) (shown t) new_num (title_prefix t) else t, true)
  end.

Definition resize_state (rows cols : Z) (t : ClientTerminal) (num : Z) : ClientTerminal :=
  match states t !! num with
  | Some a => set_states (<[num := make_mut t (resize rows cols) a]> (states t)) t
  | None => t
  end.
Definition resize_all (rows cols : Z) (t : ClientTerminal) : ClientTerminal :=
  let t := foldl (resize_state rows cols) t (walk_order (dom (states t))) in
  let t := show (make_mut t (resize rows cols) (displayed t)) (shown t) t in
  show (displayed t) None t.

Definition forget_before (throwaway : Z) (t : ClientTerminal) : ClientTerminal :=
  set_states (filter (fun p => throwaway <= p.1 \/ p.1 = latest t) (states t)) t.

Definition confirmed (t : ClientTerminal) : option S := screen <$> states t !! latest t.
Definition held_text (t : ClientTerminal) : bytes := default [] (screen_text <$> confirmed t).
Definition set_title_prefix (prefix : bytes) (t : ClientTerminal) : ClientTerminal :=
  mkTerminal (states t) (displayed t) (shown t) (latest t) prefix.
Definition window_title (t : ClientTerminal) : option bytes := s ← confirmed t; title s.
Definition held_states (t : ClientTerminal) : nat := size (states t).

Definition next_display (cells : list OverlayCell) (cur : OverlayCursor) (t : ClientTerminal) : option (Arc * Shown) :=
  confirmed ← states t !! latest t;
  if match shown t with Some sh => matches confirmed cells cur sh | None => false end then None
  else
    let next :=
      if bool_decide (cells = []) && bool_decide (cur = Unchanged) then confirmed
      else arc_new t (draw_overlay cells cur (screen confirmed)) in
    Some (next, mkShown confirmed cells cur).

Definition advance (cells : list OverlayCell) (cur : OverlayCursor) (t : ClientTerminal) : ClientTerminal :=
  match next_display cells cur t with Some (next, sh) => show next (Some sh) t | None => t end.

(** [Some(&title) != shown.as_ref()] *)
Definition title_escape (next previous : option bytes) (t : ClientTerminal) : bytes :=
  match next with
  | Some title =>
      if bool_decide (previous = Some title) then []
      else z2b 0x1b :: text "]0;" ++ title_prefix t ++ title ++ [z2b 0x07]
  | None => []
  end.

Context `{!DiffScreen S}.

Definition render (cells : list OverlayCell) (cur : OverlayCursor) (t : ClientTerminal) : ClientTerminal * bytes :=
  match next_display cells cur t with
  | None => (t, [])
  | Some (next, sh) =>
      (show next (Some sh) t,
       diff_from (screen next) (screen (displayed t)) ++ title_escape (title (screen next)) (title (screen (displayed t))) t)
  end.

Definition repaint_all (t : ClientTerminal) : ClientTerminal * bytes :=
  match states t !! latest t with
  | None => (t, [])
  | Some newest =>
      let t' := show newest (shown t) t in
      (show newest (Some (mkShown newest [] Unchanged)) t',
       repaint (screen newest) ++ title_escape (title (screen newest)) None t')
  end.
End Terminal.
Arguments Arc : clear implicits.
Arguments Shown : clear implicits.
Arguments ClientTerminal : clear implicits.

End ClientTerminal.

(** ** What is displayed *)
Section Displayed.
Import ClientScreen ClientTerminal.
Context {S : Type} `{Screen S} `{RuntimeLaws}.
Implicit Types t : ClientTerminal S.

(** One address, one screen. *)
Definition shared (t : ClientTerminal S) : Prop :=
  forall a b, a ∈ references t -> b ∈ references t -> ptr a = ptr b -> a = b.

(** A screen with an overlay on it. *)
Definition painted (cells : list OverlayCell) (cur : OverlayCursor) (s : S) : S :=
  if bool_decide (cells = []) && bool_decide (cur = Unchanged) then s else draw_overlay cells cur s.

Record terminal_ok (t : ClientTerminal S) : Prop := {
  to_shared : shared t;
  to_latest : is_Some (states t !! latest t);
  to_shown : forall sh, shown t = Some sh ->
    screen (displayed t) = painted (overlay sh) (overlay_cursor sh) (screen (confirmed_by sh));
}.

Lemma states_referenced t num a : states t !! num = Some a -> a ∈ references t.
Proof using Type.
  intros Ha. unfold references. apply elem_of_app. left. apply list_elem_of_fmap. exists (num, a). split; [done|].
  by apply elem_of_map_to_list.
Qed.
Lemma in_states t a : a ∈ (map_to_list (states t)).*2 <-> exists num, states t !! num = Some a.
Proof using Type.
  rewrite list_elem_of_fmap. split.
  - intros ([num b] & -> & Hb%elem_of_map_to_list). by exists num.
  - intros [num Hnum]. exists (num, a). split; [done|]. by apply elem_of_map_to_list.
Qed.
Lemma in_references t a :
  a ∈ references t <-> (exists num, states t !! num = Some a) \/ a = displayed t \/ (exists sh, shown t = Some sh /\ a = confirmed_by sh).
Proof using Type.
  unfold references. rewrite elem_of_app, elem_of_cons, in_states. destruct (shown t) as [sh|]; cbn.
  - rewrite list_elem_of_singleton. split.
    + intros [?|[?| ->]]; [by left | by right; left | right; right; by exists sh].
    + intros [?|[?|(x & [= <-] & ->)]]; [by left | by right; left | by right; right].
  - split; [intros [?|[?|[]%elem_of_nil]]; [by left | by right; left] | intros [?|[?|(x & [=] & _)]]; [by left | by right; left]].
Qed.

(** A reference that was there, or one to a fresh screen. *)
Lemma new_address t s a : a ∈ references t -> ptr a <> ptr (arc_new t s).
Proof using Type*.
  intros Ha Heq. apply (allocate_fresh (ptr <$> references t)). change (ptr (arc_new t s) ∈ ptr <$> references t).
  rewrite <- Heq. by apply list_elem_of_fmap_2.
Qed.

Lemma shared_with t t' fresh :
  shared t -> (forall a, a ∈ references t' -> a ∈ references t \/ a = fresh) ->
  (forall a, a ∈ references t -> ptr a = ptr fresh -> a = fresh) -> shared t'.
Proof using Type.
  intros Hs Hin Hfresh a b Ha%Hin Hb%Hin Heq. destruct Ha as [Ha| ->], Hb as [Hb| ->]; [by apply Hs | by apply Hfresh | symmetry; by apply Hfresh | done].
Qed.

Lemma new_terminal_ok blank : terminal_ok (new blank).
Proof using Type.
  split; cbn; [| by eexists; apply lookup_singleton_eq | done].
  intros a b. rewrite !in_references. cbn. intros [[n Hn]|[->|(sh1 & [=] & _)]] [[m Hm]|[->|(sh2 & [=] & _)]] _;
    repeat match goal with Hl : {[0 := _]} !! _ = Some _ |- _ => apply lookup_singleton_Some in Hl as [_ <-] end; done.
Qed.

Lemma apply_diff_ok old new_num l t : terminal_ok t -> terminal_ok (apply_diff old new_num l t).1.
Proof using Type*.
  intros [Hs Hl Hsh]. unfold apply_diff. destruct (states t !! old) as [base|] eqn:Hbase; [|by split].
  set (next := if bool_decide (l = []) then base else _).
  assert (forall a, a ∈ references t -> ptr a = ptr next -> a = next) as Hfresh.
  { intros a Ha Heq. unfold next in *. destruct (bool_decide _); [apply Hs; [done | by eapply states_referenced | done]|].
    by destruct (new_address _ _ _ Ha Heq). }
  assert (forall n pre, terminal_ok (mkTerminal (<[new_num := next]> (states t)) (displayed t) (shown t) n pre) <->
    is_Some (<[new_num := next]> (states t) !! n)) as Hok.
  { intros n pre. split; [by intros []|]. intros Hn. split; [|done|done]. eapply shared_with; [exact Hs | | exact Hfresh].
    intros a. rewrite !in_references. cbn. intros [[m Hm]|Ha]; [|by left; right].
    apply lookup_insert_Some in Hm as [[_ <-] | [_ Hm]]; [by right | left; left; by exists m]. }
  cbn [latest set_states states displayed shown title_prefix]. destruct (_ || _); cbn [fst]; apply Hok.
  - by rewrite lookup_insert_eq.
  - destruct (decide (new_num = latest t)) as [->|Hne]; [by rewrite lookup_insert_eq | by rewrite lookup_insert_ne].
Qed.

Lemma forget_ok n t : terminal_ok t -> terminal_ok (forget_before n t).
Proof using Type.
  intros [Hs [a Ha] Hsh]. unfold forget_before. split; [| |done].
  - intros b c. rewrite !in_references. cbn. intros Hb Hc. apply Hs; apply in_references.
    + destruct Hb as [[m [Hm _]%map_lookup_filter_Some] | Hb]; [left; by exists m | by right].
    + destruct Hc as [[m [Hm _]%map_lookup_filter_Some] | Hc]; [left; by exists m | by right].
  - exists a. cbn. apply map_lookup_filter_Some_2; [done | by right].
Qed.

(** *** Resizing *)

(** Where a reference is. *)
Inductive slot := InState (num : Z) | InDisplayed | InShown.
#[local] Instance slot_eq_dec : EqDecision slot.
Proof using Type. solve_decision. Defined.
Definition ref_at t (p : slot) : option (Arc S) :=
  match p with InState num => states t !! num | InDisplayed => Some (displayed t) | InShown => confirmed_by <$> shown t end.

Lemma referenced_at t a : a ∈ references t <-> exists p, ref_at t p = Some a.
Proof using Type.
  rewrite in_references. split.
  - intros [[n Hn]|[->|(sh & Hsh & ->)]]; [by exists (InState n) | by exists InDisplayed | exists InShown; cbn; by rewrite Hsh].
  - intros [[n| |] Hp]; cbn in Hp; [left; by exists n | right; left; congruence | right; right].
    destruct (shown t) as [sh|]; cbn in Hp; [|done]. exists sh. split; [done | congruence].
Qed.

(** A place has an index of its own among the references. *)
Lemma slot_index t p a : ref_at t p = Some a ->
  exists i, references t !! i = Some a /\
    match p with
    | InState num => map_to_list (states t) !! i = Some (num, a)
    | InDisplayed => i = length (map_to_list (states t))
    | InShown => i = Datatypes.S (length (map_to_list (states t)))
    end.
Proof using Type.
  intros Hp. unfold references. destruct p as [num| |]; cbn in Hp.
  - apply elem_of_map_to_list, list_elem_of_lookup in Hp as [i Hi]. exists i. split; [|done].
    apply lookup_app_l_Some. by rewrite list_lookup_fmap, Hi.
  - exists (length (map_to_list (states t))). split; [|done]. rewrite list_lookup_middle; [done | by rewrite length_fmap].
  - exists (Datatypes.S (length (map_to_list (states t)))). split; [|done]. rewrite lookup_app_r by (rewrite length_fmap; lia).
    rewrite length_fmap. replace (_ - _)%nat with 1%nat by lia. cbn. by destruct (shown t).
Qed.

Lemma filter_one (x : positive) l i j :
  length (filter (fun y => y = x) l) = 1%nat -> l !! i = Some x -> l !! j = Some x -> i = j.
Proof using Type.
  revert i j. induction l as [|y l IH]; intros i j Hl Hi Hj; [done|]. rewrite filter_cons in Hl.
  destruct (decide (y = x)) as [->|Hne].
  - cbn in Hl. injection Hl as Hl. apply nil_length_inv in Hl.
    assert (forall k, l !! k <> Some x) as Hno.
    { intros k Hk%list_elem_of_lookup_2. assert (x ∈ filter (fun y => y = x) l) as Hin by (by apply list_elem_of_filter).
      rewrite Hl in Hin. by apply elem_of_nil in Hin. }
    destruct i, j; cbn in Hi, Hj; [done | by destruct (Hno j) | by destruct (Hno i) | by destruct (Hno i)].
  - destruct i, j; cbn in Hi, Hj; [congruence..|]. f_equal. by apply IH.
Qed.

(** A reference counted once is in one place. *)
Lemma counted_once t a p q b c :
  strong_count t a = 1%nat -> ref_at t p = Some b -> ref_at t q = Some c -> ptr b = ptr a -> ptr c = ptr a -> p = q.
Proof using Type.
  intros Hone Hp Hq Hb Hc. destruct (slot_index t p b Hp) as (i & Hi & Hpi), (slot_index t q c Hq) as (j & Hj & Hqj).
  assert (i = j) as <-.
  { apply (filter_one (ptr a) (ptr <$> references t)); [done | |]; rewrite list_lookup_fmap; [by rewrite Hi; cbn; f_equal | by rewrite Hj; cbn; f_equal]. }
  destruct p as [n| |], q as [m| |]; try done.
  - rewrite Hpi in Hqj. by injection Hqj as ->.
  - apply lookup_lt_Some in Hpi. lia.
  - apply lookup_lt_Some in Hpi. lia.
  - apply lookup_lt_Some in Hqj. lia.
  - lia.
  - apply lookup_lt_Some in Hqj. lia.
  - lia.
Qed.

(** A screen changed in one place, by a reference to it alone or to a fresh one. *)
Lemma shared_update t t' p a f :
  shared t -> ref_at t p = Some a ->
  (forall q, ref_at t' q = if decide (q = p) then Some (make_mut t f a) else ref_at t q) -> shared t'.
Proof using Type*.
  intros Hs Hp Hat. unfold make_mut in Hat. destruct (Nat.eqb_spec (strong_count t a) 1) as [Hone|_].
  - intros b c [q Hq]%referenced_at [r Hr]%referenced_at Heq. rewrite Hat in Hq, Hr.
    destruct (decide (q = p)) as [->|Hqp], (decide (r = p)) as [->|Hrp].
    + congruence.
    + injection Hq as <-. cbn in Heq. destruct Hrp. by apply (counted_once t a r p c a).
    + injection Hr as <-. cbn in Heq. destruct Hqp. by apply (counted_once t a q p b a).
    + apply Hs; [apply referenced_at; by exists q | apply referenced_at; by exists r | done].
  - apply (shared_with t t' (arc_new t (f (screen a)))); [done | |].
    + intros b [q Hq]%referenced_at. rewrite Hat in Hq. destruct (decide (q = p)); [right; congruence|].
      left. apply referenced_at. by exists q.
    + intros b Hb Heq. by destruct (new_address _ _ _ Hb Heq).
Qed.

Lemma make_mut_screen t f a : screen (make_mut t f a) = f (screen a).
Proof using Type. unfold make_mut. by destruct (Nat.eqb _ _). Qed.

(** Every held screen takes the new shape, the displayed one too. *)
Lemma resize_states_spec rows cols keys t :
  NoDup keys -> shared t ->
  let t' := foldl (resize_state rows cols) t keys in
  shared t' /\ displayed t' = displayed t /\ shown t' = shown t /\ latest t' = latest t /\
  (forall n, screen <$> states t' !! n = (if decide (n ∈ keys) then resize rows cols else Datatypes.id) <$> (screen <$> states t !! n)).
Proof using Type*.
  cbv zeta. revert t. induction keys as [|k keys IH]; intros t Hnd Hs.
  { cbn [foldl]. split_and!; try done. intros n. rewrite decide_False by apply not_elem_of_nil. by destruct (states t !! n). }
  apply NoDup_cons in Hnd as [Hk Hnd]. cbn [foldl]. unfold resize_state at 2 4 6 8 10.
  destruct (states t !! k) as [a|] eqn:Ha.
  - set (t1 := set_states _ t). assert (shared t1) as Hs1.
    { apply (shared_update t t1 (InState k) a (resize rows cols) Hs Ha). intros [n| |]; cbn; [|done..].
      destruct (decide (InState n = InState k)) as [[= ->]|Hne]; [by rewrite lookup_insert_eq|].
      rewrite lookup_insert_ne; [done|]. intros ->. by apply Hne. }
    destruct (IH t1 Hnd Hs1) as (Hr1 & Hr2 & Hr3 & Hr4 & Hr5). split_and!; try done. intros n. rewrite Hr5. cbn [states t1 set_states].
    destruct (decide (n = k)) as [->|Hne].
    + rewrite lookup_insert_eq, Ha, (decide_False (P := k ∈ keys)), decide_True by (done || by left). cbn. by rewrite make_mut_screen.
    + rewrite lookup_insert_ne by done. destruct (decide (n ∈ keys)) as [Hn|Hn].
      * by rewrite decide_True by (by right).
      * rewrite decide_False; [done|]. by intros [->|?]%elem_of_cons.
  - destruct (IH t Hnd Hs) as (Hr1 & Hr2 & Hr3 & Hr4 & Hr5). split_and!; try done. intros n. rewrite Hr5.
    destruct (decide (n = k)) as [->|Hne]; [by rewrite Ha|]. destruct (decide (n ∈ keys)) as [Hn|Hn].
    + by rewrite decide_True by (by right).
    + rewrite decide_False; [done|]. by intros [->|?]%elem_of_cons.
Qed.

Lemma resize_all_spec rows cols t :
  terminal_ok t ->
  terminal_ok (resize_all rows cols t) /\
  (forall n, screen <$> states (resize_all rows cols t) !! n = resize rows cols <$> (screen <$> states t !! n)) /\
  screen (displayed (resize_all rows cols t)) = resize rows cols (screen (displayed t)) /\
  latest (resize_all rows cols t) = latest t.
Proof using Type*.
  intros [Hs [a Ha] Hsh]. unfold resize_all.
  destruct (resize_states_spec rows cols (walk_order (dom (states t))) t (walk_each _) Hs) as (Hr1 & Hr2 & Hr3 & Hr4 & Hr5).
  set (t1 := foldl _ t _) in *.
  assert (forall n, screen <$> states t1 !! n = resize rows cols <$> (screen <$> states t !! n)) as Hall.
  { intros n. rewrite Hr5. destruct (decide _) as [_|Hn]; [done|]. rewrite walk_all in Hn.
    apply not_elem_of_dom in Hn. by rewrite Hn. }
  set (t2 := show (make_mut t1 _ _) _ t1).
  assert (shared t2) as Hs2.
  { apply (shared_update t1 t2 InDisplayed (displayed t1) (resize rows cols) Hr1 eq_refl). intros [n| |]; done. }
  split; [split|]; cbn.
  - apply (shared_with t2 _ (displayed t2)); [done | |].
    + intros b. rewrite !in_references. cbn. intros [?|[?|(? & [=] & _)]]; left; [by left | by right; left].
    + intros b Hb. apply Hs2; [done|]. apply in_references. by right; left.
  - rewrite Hr4. specialize (Hall (latest t)). rewrite Ha in Hall. cbn in Hall. destruct (states t1 !! latest t); [by eexists | done].
  - done.
  - split; [exact Hall|]. split; [by rewrite make_mut_screen, Hr2 | exact Hr4].
Qed.

(** *** Bringing the display up to date *)

Lemma matched_screen t sh a cells cur :
  shared t -> shown t = Some sh -> a ∈ references t -> matches a cells cur sh = true ->
  confirmed_by sh = a /\ overlay sh = cells /\ overlay_cursor sh = cur.
Proof using Type.
  intros Hs Hsh Ha Hm. unfold matches in Hm. repeat (apply andb_true_iff in Hm as [Hm ?Hx]).
  apply bool_decide_eq_true in Hm, Hx, Hx0. split; [|done].
  apply Hs; [|done|done]. apply in_references. right. right. by exists sh.
Qed.

Lemma shown_next t cells cur :
  terminal_ok t ->
  exists newest, states t !! latest t = Some newest /\
    match next_display cells cur t with
    | None => screen (displayed t) = painted cells cur (screen newest)
    | Some (next, sh) =>
        screen next = painted cells cur (screen newest) /\ terminal_ok (show next (Some sh) t) /\
        sh = mkShown newest cells cur
    end.
Proof using Type*.
  intros [Hs [newest Hn] Hsh]. exists newest. split; [done|]. unfold next_display. rewrite Hn. cbn [mbind option_bind].
  destruct (match shown t with Some sh => _ | None => false end) eqn:Hm.
  - destruct (shown t) as [sh|] eqn:Hst; [|done].
    destruct (matched_screen t sh newest cells cur Hs Hst (states_referenced _ _ _ Hn) Hm) as (<- & <- & <-). by apply Hsh.
  - set (next := if _ && _ then newest else _).
    assert (screen next = painted cells cur (screen newest)) as Hnext by (unfold next, painted; by destruct (_ && _)).
    split; [done|]. split; [|done]. split; [| by exists newest | by intros sh [= <-]].
    apply (shared_with t _ next Hs).
    + intros a. rewrite !in_references. cbn. intros [?|[->|(sh & [= <-] & ->)]]; [left; by left | by right | left; left; by exists (latest t)].
    + intros a Ha Heq. unfold next in *. destruct (_ && _); [apply Hs; [done | by eapply states_referenced | done]|].
      by destruct (new_address _ _ _ Ha Heq).
Qed.
End Displayed.

(** ** A terminal the bytes are written to *)

(** Bytes of a title: none a control. *)
Definition plain_title (l : bytes) : Prop := Forall (fun b => 0x20 <= b2z b) l.
Definition title_command (l : bytes) : bytes := z2b 0x1b :: text "]0;" ++ l ++ [z2b 0x07].

Class Tty (T S : Type) := {
  tty_feed : bytes -> T -> T;
  displays : T -> S -> Prop;
}.
(** What [DiffScreen] promises of the bytes it makes, and a terminal of the title
    command: a diff turns a terminal showing one screen into one showing the other, a
    repaint is for a terminal whose state cannot be known, and a title is no part
    of the display.  Of a terminal that was resized nothing is promised: some lay what
    they show out again and others cut it. *)
Class TtyLaws (T S : Type) `{ClientScreen.DiffScreen S} `{Tty T S} : Prop := {
  tty_feed_nil : forall t, tty_feed (T:=T) (S:=S) [] t = t;
  tty_feed_app : forall a b t, tty_feed (T:=T) (S:=S) (a ++ b) t = tty_feed (S:=S) b (tty_feed (S:=S) a t);
  diff_displays : forall t (a b : S), displays (T:=T) t a -> displays (tty_feed (S:=S) (ClientScreen.diff_from b a) t) b;
  repaint_displays : forall t (a : S), displays (T:=T) (tty_feed (S:=S) (ClientScreen.repaint a) t) a;
  title_keeps : forall t l (a : S), plain_title l -> displays (T:=T) t a -> displays (tty_feed (S:=S) (title_command l) t) a;
}.

Section Written.
Import ClientScreen ClientTerminal.
Context {T S : Type} `{TtyLaws T S} `{RuntimeLaws}.
Implicit Types (t : ClientTerminal S) (tty : T).
Hypothesis plain_titles : forall (s : S) l, title s = Some l -> plain_title l.

Inductive operation :=
| ApplyDiff (old_num new_num : Z) (l : bytes)
| ResizeTo (rows cols : Z)
| Disturbed (after : T)   (* the user's terminal was resized, or another program wrote to it *)
| ForgetBefore (n : Z)
| TitlePrefix (prefix : bytes)
| Render (cells : list OverlayCell) (cur : OverlayCursor)
| Repaint.

Definition operate (op : operation) (t : ClientTerminal S) (tty : T) : ClientTerminal S * T :=
  match op with
  | ApplyDiff old new' l => ((apply_diff old new' l t).1, tty)
  | ResizeTo r c => (resize_all r c t, tty)
  | Disturbed after => (t, after)
  | ForgetBefore n => (forget_before n t, tty)
  | TitlePrefix p => (set_title_prefix p t, tty)
  | Render cells cur => let '(t, out) := render cells cur t in (t, tty_feed (S:=S) out tty)
  | Repaint => let '(t, out) := repaint_all t in (t, tty_feed (S:=S) out tty)
  end.
Definition operations (ops : list operation) (t : ClientTerminal S) (tty : T) : ClientTerminal S * T :=
  foldl (fun p op => operate op p.1 p.2) (t, tty) ops.

(** Whether what the terminal shows is known: not after a resize or a disturbance, until a repaint. *)
Definition knows (known : bool) (op : operation) : bool :=
  match op with ResizeTo _ _ | Disturbed _ => false | Repaint => true | _ => known end.
Definition known (ops : list operation) : bool := foldl knows true ops.
Definition plain_prefix (op : operation) : Prop := match op with TitlePrefix p => plain_title p | _ => True end.

Record written (k : bool) (t : ClientTerminal S) (tty : T) : Prop := {
  wr_ok : terminal_ok t;
  wr_prefix : plain_title (title_prefix t);
  wr_displays : k = true -> displays tty (screen (displayed t));
}.

Lemma title_escape_displays next previous t tty (a : S) :
  plain_title (title_prefix t) -> (forall l, next = Some l -> plain_title l) -> displays tty a ->
  displays (tty_feed (S:=S) (title_escape next previous t) tty) a.
Proof using Type*.
  intros Hp Hn Ha. unfold title_escape. destruct next as [l|]; [|by rewrite tty_feed_nil].
  case_bool_decide; [by rewrite tty_feed_nil|].
  assert (z2b 0x1b :: text "]0;" ++ title_prefix t ++ l ++ [z2b 0x07] = title_command (title_prefix t ++ l)) as ->.
  { unfold title_command. by rewrite <- !app_assoc. }
  apply title_keeps; [|done]. apply Forall_app. split; [done | by apply Hn].
Qed.

Lemma render_written k cells cur t tty :
  written k t tty ->
  exists newest, states t !! latest t = Some newest /\
    written k (render cells cur t).1 (tty_feed (S:=S) (render cells cur t).2 tty) /\
    screen (displayed (render cells cur t).1) = painted cells cur (screen newest) /\
    states (render cells cur t).1 = states t /\ latest (render cells cur t).1 = latest t.
Proof using Type*.
  intros [Hok Hp Hd]. destruct (shown_next t cells cur Hok) as (newest & Hn & Hnext). exists newest. split; [done|].
  unfold render. destruct (next_display cells cur t) as [[next sh]|]; cbn [fst snd].
  - destruct Hnext as (Hscr & Hok' & _). split; [|done]. split; [done | done |]. cbn. intros Hk. rewrite tty_feed_app.
    apply title_escape_displays; [done | by apply plain_titles |]. apply diff_displays. auto.
  - split; [|done]. split; [done | done |]. by rewrite tty_feed_nil.
Qed.

Lemma repaint_written k t tty : written k t tty -> written true (repaint_all t).1 (tty_feed (S:=S) (repaint_all t).2 tty).
Proof using Type*.
  intros [Hok Hp Hd]. pose proof (to_latest _ Hok) as [newest Hn]. unfold repaint_all. rewrite Hn. cbn [fst snd]. split; [| done |].
  - destruct Hok as [Hs Hl _]. split; [| by exists newest | by intros sh [= <-]].
    apply (shared_with t _ newest Hs).
    + intros a. rewrite !in_references. cbn. intros [?|[->|(sh & [= <-] & ->)]]; [left; by left | by right | by right].
    + intros a Ha. apply Hs; [done|]. by eapply states_referenced.
  - intros _. rewrite tty_feed_app. apply title_escape_displays; [done | by apply plain_titles |]. apply repaint_displays.
Qed.

Lemma operate_written k op t tty : plain_prefix op -> written k t tty -> written (knows k op) (operate op t tty).1 (operate op t tty).2.
Proof using Type*.
  intros Hop Hw. pose proof Hw as [Hok Hp Hd]. destruct op as [old new' l|r c|after|n|p|cells cur|]; cbn [operate knows].
  - split; [by apply apply_diff_ok | |]; unfold apply_diff; destruct (states t !! old); [|done| |done];
      cbn [fst snd]; by destruct (_ || _).
  - destruct (resize_all_spec r c t Hok) as (Hok' & _). split; [done | | done].
    cbn. assert (forall keys t0, title_prefix (foldl (resize_state r c) t0 keys) = title_prefix t0) as Hpre.
    { intros keys. induction keys as [|n keys IH]; intros t0; [done|]. cbn [foldl]. rewrite IH. unfold resize_state. by destruct (states t0 !! n). }
    by rewrite Hpre.
  - by split.
  - split; [by apply forget_ok | done | done].
  - split; [by destruct Hok | exact Hop | done].
  - destruct (render_written k cells cur t tty Hw) as (_ & _ & Hr & _). by destruct (render cells cur t).
  - pose proof (repaint_written k t tty Hw) as Hr. by destruct (repaint_all t).
Qed.

Lemma operations_written k ops t tty :
  Forall plain_prefix ops -> written k t tty -> written (foldl knows k ops) (operations ops t tty).1 (operations ops t tty).2.
Proof using Type*.
  unfold operations. intros Hops. revert k t tty. induction Hops as [|op ops Hop _ IH]; intros k t tty Hw; [done|].
  cbn [foldl]. pose proof (operate_written k op t tty Hop Hw) as Hw'.
  assert (forall p, foldl (fun p op => operate op p.1 p.2) p ops = foldl (fun p op => operate op p.1 p.2) (p.1, p.2) ops) as Hpair by (by intros []).
  cbn [fst snd]. rewrite Hpair. by apply IH.
Qed.

(** C9. Whatever diffs arrived, were forgotten, rendered and resized and whatever became of
    the user's terminal meanwhile, a render after a repaint that followed the last of its
    changes leaves it showing the newest state with the overlay on it, also when the render wrote
    nothing; and rendering the same again writes nothing, repainted or not. *)
Theorem rendered_terminal_shows_the_newest ops blank tty cells cur :
  Forall plain_prefix ops -> displays tty blank ->
  let '(t, tty) := operations ops (new blank) tty in
  exists newest, confirmed t = Some newest /\
    (known ops = true -> displays (tty_feed (S:=S) (render cells cur t).2 tty) (painted cells cur newest)) /\
    confirmed (render cells cur t).1 = Some newest /\
    (render cells cur (render cells cur t).1).2 = [].
Proof using Type*.
  intros Hops Hb. assert (written true (new blank) tty) as Hw by (split; [apply new_terminal_ok | constructor | done]).
  pose proof (operations_written true ops _ _ Hops Hw) as Hw'. destruct (operations ops (new blank) tty) as [t tty']. cbn [fst snd] in Hw'.
  destruct (render_written _ cells cur t tty' Hw') as (newest & Hn & Hr & Hscr & Hst & Hlat). exists (screen newest).
  unfold confirmed. rewrite Hst, Hlat, Hn. split; [done|]. split; [intros Hk; rewrite <- Hscr; by apply Hr|]. split; [done|].
  destruct (shown_next t cells cur (wr_ok _ _ _ Hw')) as (newest' & Hn' & Hnext). rewrite Hn in Hn'. injection Hn' as <-.
  assert (exists sh, shown (render cells cur t).1 = Some sh /\ matches newest cells cur sh = true) as (sh & Hsh & Hm).
  { unfold render. destruct (next_display cells cur t) as [[next sh]|] eqn:Hnd; cbn [fst].
    - destruct Hnext as (_ & _ & ->). eexists. split; [done|]. unfold matches. cbn. by rewrite !bool_decide_eq_true_2.
    - unfold next_display in Hnd. rewrite Hn in Hnd. cbn [mbind option_bind] in Hnd.
      destruct (shown t) as [sh|]; [|done]. exists sh. split; [done|]. by destruct (matches newest cells cur sh). }
  unfold render at 1, next_display. rewrite Hst, Hlat, Hn. cbn [mbind option_bind]. by rewrite Hsh, Hm.
Qed.
End Written.

(** ** A sample terminal

    A screen that keeps its size and the bytes fed to it, and a terminal that
    clears on a zero byte, leaves a title out, and keeps every other byte that is
    no control. *)
Module Sample.
Import ClientScreen ClientTerminal.

Definition text_screen : Type := (Z * Z) * bytes.
#[export] Instance text_screen_ops : Screen text_screen := {|
  feed l s := (s.1, s.2 ++ l);
  resize r c s := ((r, c), s.2);
  rows s := s.1.1;
  cols s := s.1.2;
  cursor s := (0, zlen s.2);
  cell_at s r c := mkCell (option_list (s.2 !! Z.to_nat c)) default_rendition;
  screen_text s := s.2;
  title s := None;
  draw_overlay cells cur s := (s.1, s.2 ++ concat ((fun c => glyph (cell c)) <$> cells));
|}.
Definition no_control (l : bytes) : bytes := filter (fun b => 0x20 <= b2z b) l.
#[export] Instance text_screen_diff : DiffScreen text_screen := {|
  diff_from b _ := z2b 0 :: no_control b.2;
  repaint b := z2b 0x07 :: z2b 0 :: no_control b.2;
|}.

(** Whether a title is being read, and what is shown. *)
Definition tty_step (t : bool * bytes) (b : byte) : bool * bytes :=
  if t.1 then (negb (b2z b =? 0x07), t.2)
  else if b2z b =? 0x1b then (true, t.2)
  else if b2z b =? 0 then (false, [])
  else if 0x20 <=? b2z b then (false, t.2 ++ [b]) else t.
#[export] Instance text_tty : Tty (bool * bytes) text_screen := {|
  tty_feed l t := foldl tty_step t l;
  displays t a := t = (false, no_control a.2);
|}.
#[export] Instance sample_runtime : Runtime := {|
  allocate live := fresh (list_to_set live : gset positive);
  walk_order keys := elements keys;
|}.
#[export] Instance sample_runtime_laws : RuntimeLaws.
Proof.
  split; cbn.
  - intros live. rewrite <- (elem_of_list_to_set (C := gset positive)). apply is_fresh.
  - apply NoDup_elements.
  - intros. apply elem_of_elements.
Qed.

Lemma shown_plainly l t : Forall (fun b => 0x20 <= b2z b) l -> foldl tty_step (false, t) l = (false, t ++ l).
Proof.
  intros Hl. revert t. induction Hl as [|b l Hb _ IH]; intros t; [by rewrite app_nil_r|]. cbn [foldl]. unfold tty_step at 2. cbn [fst snd].
  rewrite (proj2 (Z.eqb_neq (b2z b) 0x1b)), (proj2 (Z.eqb_neq (b2z b) 0)) by lia. rewrite (proj2 (Z.leb_le _ _)) by lia.
  rewrite IH. by rewrite <- app_assoc.
Qed.
Lemma no_control_plain l : Forall (fun b => 0x20 <= b2z b) (no_control l).
Proof. apply Forall_forall. by intros b [? _]%list_elem_of_filter. Qed.
Lemma title_skipped l t : plain_title l -> foldl tty_step (true, t) (l ++ [z2b 0x07]) = (false, t).
Proof.
  intros Hl. induction Hl as [|b l Hb _ IH]; [done|]. cbn [app foldl]. unfold tty_step at 2. cbn [fst snd].
  rewrite (proj2 (Z.eqb_neq _ _)) by lia. exact IH.
Qed.

#[export] Instance text_tty_laws : TtyLaws (bool * bytes) text_screen.
Proof.
  split; cbn.
  - done.
  - intros a b t. by rewrite foldl_app.
  - intros t a b ->. change (foldl tty_step (false, []) (no_control b.2) = (false, no_control b.2)).
    by rewrite shown_plainly by apply no_control_plain.
  - intros [[] shown] a; change (foldl tty_step (false, []) (no_control a.2) = (false, no_control a.2));
      by rewrite shown_plainly by apply no_control_plain.
  - intros t l a Hl ->. change (foldl tty_step (true, no_control a.2) (text "]0;" ++ l ++ [z2b 0x07]) = (false, no_control a.2)).
    change (text "]0;" ++ l ++ [z2b 0x07]) with ((text "]0;" ++ l) ++ [z2b 0x07]). apply title_skipped.
    apply Forall_app. split; [|done]. repeat constructor; vm_compute; discriminate.
Qed.

(** Two diffs from the blank screen, the older one late, a resize of the terminal that leaves it
    showing something else, a repaint, and an overlay. *)
Lemma rendered_terminal_shows_the_newest_witness :
  let ops := [ApplyDiff 0 2 (text "hello"); Render [] Unchanged; ApplyDiff 0 1 (text "hell"); TitlePrefix (text "[zosh] ");
    ResizeTo 24 40; Disturbed (false, text "el"); ApplyDiff 2 3 []; Repaint; ForgetBefore 2] in
  let '(t, tty) := operations ops (new (((24, 80), []) : text_screen)) (false, []) in
  let out := (render [mkOverlay 0 5 (mkCell (text "!") default_rendition) false] Unchanged t).2 in
  tty_feed (S:=text_screen) out tty = (false, text "hello!").
Proof.
  cbv zeta. match goal with |- context [operations ?l] => set (ops := l) end.
  assert (forall (s : text_screen) l, title s = Some l -> plain_title l) as Hplain by (intros s l [=]).
  pose proof (rendered_terminal_shows_the_newest (T:=bool * bytes) (S:=text_screen) Hplain ops ((24, 80), []) (false, [])
    [mkOverlay 0 5 (mkCell (text "!") default_rendition) false] Unchanged) as Hshow.
  destruct (operations ops _ _) as [t tty] eqn:Hops.
  destruct Hshow as (newest & Hn & Hd & _).
  - repeat constructor; vm_compute; discriminate.
  - done.
  - specialize (Hd eq_refl). cbn [displays text_tty] in Hd. rewrite Hd. vm_compute in Hops. injection Hops as <- <-. vm_compute in Hn. injection Hn as <-. reflexivity.
Defined.
End Sample.
