(* ===== verification/ClientPacket.v ===== *)
(** * The client's packets

    Models [crates/mosh_rs/src/packet.rs] and [crypto.rs]: the plaintext of a
    datagram, the round-trip estimate, what a connection remembers of its packets,
    and the sealing of a datagram under a sequence number.  AES-128-OCB3 is the
    [ocb3] crate's: the class [Aead] names what is used of it. *)
From Stdlib Require Import ZArith Lia List Bool SpecFloat.
From stdpp Require Import base numbers list sets.
From S2P Require Import Prelude Ieee Instruction.
Open Scope Z_scope.
Open Scope zetta_scope.

Module ClientPacket.
Import Instruction.

Definition TIMESTAMP_NONE : Z := u16_max.
Definition SAVED_TIMESTAMP_FRESHNESS_MS : Z := 1000.
Definition CONGESTION_TIMESTAMP_PENALTY_MS : Z := 500.

Record Packet := mkPacket { timestamp : Z; timestamp_reply : Z; payload : bytes }.

Definition to_plaintext (p : Packet) : bytes := be_bytes 2 (timestamp p) ++ be_bytes 2 (timestamp_reply p) ++ payload p.
Definition from_plaintext (l : bytes) : result MoshError Packet :=
  if zlen l <? 4 then Err PayloadTooShort
  else Ok (mkPacket (from_be (take 2 l)) (from_be (take 2 (drop 2 l))) (drop 4 l)).

Definition timestamp16 (now_ms : Z) : Z := let ts := now_ms mod 65536 in if ts =? TIMESTAMP_NONE then 0 else ts.
Definition timestamp_diff (newer older : Z) : Z := wrap 16 (newer - older).

(** ** The round trip *)
#[local] Abbreviation f64 := Ieee.f64.
Definition number (n : Z) : spec_float := Ieee.of_int (H:=f64) n.
Definition add64 := Ieee.add (H:=f64).
Definition sub64 := Ieee.sub (H:=f64).
Definition mul64 := Ieee.mul (H:=f64).
Definition div64 := Ieee.div (H:=f64).
Definition RTT_OUTLIER_MS : spec_float := number 5000.
Definition MIN_RTO_MS : spec_float := number 50.
Definition MAX_RTO_MS : spec_float := number 1000.

Record RttEstimator := mkRtt { srtt : spec_float; rttvar : spec_float; hit : bool }.
Definition default_rtt : RttEstimator := mkRtt (number 1000) (number 500) false.

Definition sample (rtt_ms : spec_float) (r : RttEstimator) : RttEstimator :=
  if SFleb RTT_OUTLIER_MS rtt_ms then r
  else if negb (hit r) then mkRtt rtt_ms (div64 rtt_ms (number 2)) true
  else
    let ALPHA := div64 (number 1) (number 8) in
    let BETA := div64 (number 1) (number 4) in
    let rttvar' := add64 (mul64 (sub64 (number 1) BETA) (rttvar r)) (mul64 BETA (SFabs (sub64 (srtt r) rtt_ms))) in
    mkRtt (add64 (mul64 (sub64 (number 1) ALPHA) (srtt r)) (mul64 ALPHA rtt_ms)) rttvar' true.

(** [x.clamp(lo, hi)] *)
Definition clamp64 (x lo hi : spec_float) : spec_float :=
  let x := if SFltb x lo then lo else x in if SFltb hi x then hi else x.
Definition rto (r : RttEstimator) : spec_float :=
  clamp64 (Ieee.ceil (H:=f64) (add64 (srtt r) (mul64 (number 4) (rttvar r)))) MIN_RTO_MS MAX_RTO_MS.

(** ** The connection's books *)
Record PacketState := mkPackets {
  next_seq : Z;
  saved_timestamp : option Z;
  saved_timestamp_received_at : Z;
  expected_receiver_seq : Z;
  rtt : RttEstimator;
}.
Definition default_packets : PacketState := mkPackets 0 None 0 0 default_rtt.

Definition new_packet (now_ms : Z) (payload : bytes) (s : PacketState) : PacketState * (Z * Packet) :=
  let reply :=
    match saved_timestamp s with
    | Some saved =>
        if Z.max 0 (now_ms - saved_timestamp_received_at s) <? SAVED_TIMESTAMP_FRESHNESS_MS
        then wrap 16 (saved + wrap 16 (wrap 64 (now_ms - saved_timestamp_received_at s)))
        else TIMESTAMP_NONE
    | None => TIMESTAMP_NONE
    end in
  (mkPackets (wrap 64 (next_seq s + 1)) None 0 (expected_receiver_seq s) (rtt s),
   (next_seq s, mkPacket (timestamp16 now_ms) reply payload)).

Definition accept (now_ms seq : Z) (packet : Packet) (congestion_experienced : bool) (s : PacketState) : PacketState * bool :=
  if seq <? expected_receiver_seq s then (s, false)
  else
    let '(saved, at_ms) :=
      if timestamp packet =? TIMESTAMP_NONE then (saved_timestamp s, saved_timestamp_received_at s)
      else (Some (if congestion_experienced then wrap 16 (timestamp packet - CONGESTION_TIMESTAMP_PENALTY_MS) else timestamp packet), now_ms) in
    let rtt' :=
      if timestamp_reply packet =? TIMESTAMP_NONE then rtt s
      else sample (number (timestamp_diff (timestamp16 now_ms) (timestamp_reply packet))) (rtt s) in
    (mkPackets (next_seq s) saved at_ms (wrap 64 (seq + 1)) rtt', true).

(** ** The datagram *)
Definition RECEIVE_MTU : Z := 2048.
Definition DIRECTION_MASK : Z := 2 ^ 63.
Definition SEQUENCE_MASK : Z := 2 ^ 63 - 1.

Inductive Direction := ToServer | ToClient.
#[export] Instance Direction_eq_dec : EqDecision Direction.
Proof. solve_decision. Defined.
Definition direction_bit (d : Direction) : Z := match d with ToServer => 0 | ToClient => 1 end.

Definition ocb_nonce (direction_seq : Z) : bytes := replicate 4 (z2b 0) ++ be_bytes 8 direction_seq.

Record Incoming := mkIncoming { seq : Z; direction : Direction; plaintext : bytes }.

(** What is used of the cipher under a session's key: the ciphertext with its tag,
    and the plaintext where the tag is its own. *)
Class Aead := {
  seal : bytes -> bytes -> option (bytes * bytes);
  open : bytes -> bytes -> bytes -> option bytes;
}.

Section Crypto.
Context `{Aead}.

(** [self.blocks_encrypted] is all that changes of a session. *)
Definition encrypt (seq : Z) (d : Direction) (plain : bytes) (blocks_encrypted : Z) : Z * result MoshError bytes :=
  if RECEIVE_MTU <? zlen plain then (blocks_encrypted, Err PlaintextTooLong)
  else
    let blocks := wrap 64 (blocks_encrypted + (zlen plain + 15) / 16) in
    (blocks,
     if negb (Z.shiftr blocks 47 =? 0) then Err KeyExhausted
     else
       let direction_seq := Z.lor (Z.shiftl (direction_bit d) 63) (Z.land seq SEQUENCE_MASK) in
       '(ct, tag) ← ok_or (seal (ocb_nonce direction_seq) plain) IntegrityCheck;
       Ok (be_bytes 8 direction_seq ++ ct ++ tag)).

Definition decrypt (datagram : bytes) : result MoshError Incoming :=
  if zlen datagram <? 24 then Err CiphertextTooShort
  else
    let direction_seq := from_be (take 8 datagram) in
    let nonce := ocb_nonce direction_seq in
    let ct_and_tag := drop 8 datagram in
    let at_ := (length ct_and_tag - 16)%nat in
    plain ← ok_or (open nonce (take at_ ct_and_tag) (drop at_ ct_and_tag)) IntegrityCheck;
    Ok (mkIncoming (Z.land direction_seq SEQUENCE_MASK)
          (if negb (Z.land direction_seq DIRECTION_MASK =? 0) then ToClient else ToServer) plain).

(** A packet and its datagram, as the session sends one. *)
Definition send_packet (now : Z) (fragment : bytes) (s : PacketState) (blocks : Z)
    : PacketState * Z * result MoshError bytes :=
  let '(s, (seq, packet)) := new_packet now fragment s in
  let '(blocks, datagram) := encrypt seq ToServer (to_plaintext packet) blocks in
  (s, blocks, datagram).

Fixpoint send_all (sends : list (Z * bytes)) (s : PacketState) (blocks : Z)
    : PacketState * Z * list (result MoshError bytes) :=
  match sends with
  | [] => (s, blocks, [])
  | (now, fragment) :: rest =>
      let '(s, blocks, datagram) := send_packet now fragment s blocks in
      let '(s, blocks, more) := send_all rest s blocks in
      (s, blocks, datagram :: more)
  end.
End Crypto.

End ClientPacket.

(** What is relied on of the cipher: it opens what it sealed, and the tag is 16
    bytes after a ciphertext as long as the plaintext. *)
Class AeadLaws `{ClientPacket.Aead} : Prop := {
  sealed : forall n p, zlen p <= ClientPacket.RECEIVE_MTU -> is_Some (ClientPacket.seal n p);
  opened : forall n p ct tag, ClientPacket.seal n p = Some (ct, tag) ->
    ClientPacket.open n ct tag = Some p /\ length ct = length p /\ length tag = 16%nat;
}.

(** ** Nonces *)
Section Nonces.
Import Instruction ClientPacket.
Context `{Aead}.

Definition nonce_of (r : result MoshError bytes) : option bytes := match r with Ok d => Some (take 8 d) | _ => None end.

Lemma client_nonce seq : 0 <= seq < 2 ^ 63 ->
  Z.lor (Z.shiftl (direction_bit ToServer) 63) (Z.land seq SEQUENCE_MASK) = seq.
Proof using Type.
  intros Hs. cbn [direction_bit]. rewrite Z.shiftl_0_l, Z.lor_0_l. unfold SEQUENCE_MASK.
  replace (2 ^ 63 - 1) with (Z.ones 63) by reflexivity. rewrite Z.land_ones by lia. apply Z.mod_small. lia.
Qed.

Lemma be_bytes_inj a b : 0 <= a < 2 ^ 64 -> 0 <= b < 2 ^ 64 -> be_bytes 8 a = be_bytes 8 b -> a = b.
Proof using Type.
  intros Ha Hb He%(f_equal from_be). rewrite !from_be_bytes in He. change (8 * Z.of_nat 8) with 64 in He.
  by rewrite !Z.mod_small in He.
Qed.

Lemma plaintext_blocks p : 1 <= (zlen (to_plaintext p) + 15) / 16.
Proof using Type.
  assert (4 <= zlen (to_plaintext p)).
  { unfold to_plaintext, zlen. rewrite !length_app, !length_be_bytes. lia. }
  apply Z.div_le_lower_bound; lia.
Qed.

Lemma encrypt_spec seq plain blocks :
  0 <= seq < 2 ^ 63 -> 0 <= blocks < 2 ^ 62 ->
  let '(blocks', r) := encrypt seq ToServer plain blocks in
  blocks <= blocks' <= blocks + 128 /\
  (forall d, r = Ok d -> take 8 d = be_bytes 8 seq /\ blocks' < 2 ^ 47 /\ blocks + (zlen plain + 15) / 16 = blocks').
Proof using Type.
  intros Hs Hb. unfold encrypt, RECEIVE_MTU. destruct (Z.ltb_spec 2048 (zlen plain)) as [Hl|Hl]; [by split; [lia|]|].
  pose proof (zlen_nonneg plain).
  assert (0 <= (zlen plain + 15) / 16 <= 128) as Hk by (split; [apply Z.div_pos; lia | apply Z.lt_succ_r, Z.div_lt_upper_bound; lia]).
  unfold wrap. rewrite Z.mod_small by lia. split; [lia|]. intros d Hd.
  destruct (Z.eqb_spec (Z.shiftr (blocks + (zlen plain + 15) / 16) 47) 0) as [Hz|Hz]; [|done]. cbn [negb] in Hd.
  rewrite client_nonce in Hd by done. apply bind_ok_inv in Hd as ([ct tag] & _ & Hd). cbv beta iota in Hd.
  assert (d = be_bytes 8 seq ++ ct ++ tag) as -> by congruence.
  rewrite take_app_le by (by rewrite length_be_bytes). rewrite take_ge by (by rewrite length_be_bytes). split; [done|].
  split; [|done]. rewrite Z.shiftr_div_pow2 in Hz by lia. apply Z.div_small_iff in Hz; lia.
Qed.

(** The nonces of what is sent from here on: those of later numbers, and no more
    than the key's blocks allow. *)
Lemma send_all_nonces sends s blocks :
  next_seq s + zlen sends < 2 ^ 63 -> 0 <= next_seq s -> 0 <= blocks -> blocks + 128 * zlen sends < 2 ^ 62 ->
  let '(s', blocks', out) := send_all sends s blocks in
  NoDup (omap nonce_of out) /\
  (forall n, n ∈ omap nonce_of out -> exists q, next_seq s <= q < next_seq s + zlen sends /\ n = be_bytes 8 q) /\
  (omap nonce_of out <> [] -> blocks + zlen (omap nonce_of out) < 2 ^ 47).
Proof using Type.
  revert s blocks. induction sends as [|[now fragment] sends IH]; intros s blocks Hq Hq0 Hb Hk.
  { split; [constructor|]. split; [by intros n ?%elem_of_nil | done]. }
  unfold zlen in Hq, Hk. cbn [length] in Hq, Hk. cbn [send_all]. unfold send_packet, new_packet.
  set (packet := mkPacket _ _ fragment). set (s1 := mkPackets _ None 0 _ _).
  pose proof (encrypt_spec (next_seq s) (to_plaintext packet) blocks ltac:(lia) ltac:(lia)) as He.
  destruct (encrypt (next_seq s) ToServer (to_plaintext packet) blocks) as [blocks1 r]. destruct He as [Hb1 Hr].
  assert (next_seq s1 = next_seq s + 1) as Hs1 by (cbn; unfold wrap; apply Z.mod_small; lia).
  specialize (IH s1 blocks1 ltac:(unfold zlen; lia) ltac:(lia) ltac:(lia) ltac:(unfold zlen; lia)).
  destruct (send_all sends s1 blocks1) as [[s' blocks'] out]. destruct IH as (Hnd & Hin & Hkey).
  assert (forall n, n ∈ omap nonce_of out -> exists q, next_seq s <= q < next_seq s + zlen ((now, fragment) :: sends) /\ n = be_bytes 8 q) as Hin'.
  { intros n (q & Hq' & ->)%Hin. exists q. split; [|done]. unfold zlen in *. cbn [length]. lia. }
  destruct r as [d|e|]; cbn [omap list_omap nonce_of].
  - destruct (Hr d eq_refl) as (Hd & Hlt & Hsum). pose proof (plaintext_blocks packet). split; [|split].
    + constructor; [|done]. intros (q & Hq' & He)%Hin. rewrite Hd in He. unfold zlen in Hq'. apply be_bytes_inj in He; lia.
    + intros n [->|Hn]%elem_of_cons; [|by apply Hin']. exists (next_seq s). split; [|done]. unfold zlen. cbn [length]. lia.
    + intros _. unfold zlen in *. cbn [length]. destruct (omap nonce_of out) as [|x l]; [cbn [length]; lia|].
      specialize (Hkey ltac:(done)). lia.
  - split; [done|]. split; [exact Hin'|]. intros Hne. specialize (Hkey Hne). lia.
  - split; [done|]. split; [exact Hin'|]. intros Hne. specialize (Hkey Hne). lia.
Qed.

(** C19. No two datagrams of a session go out under the same nonce, and fewer than
    2^47 go out at all: the key is spent before the numbers are. *)
Theorem no_nonce_repeats (sends : list (Z * bytes)) :
  zlen sends < 2 ^ 54 ->
  let out := (send_all sends default_packets 0).2 in
  NoDup (omap nonce_of out) /\ zlen (omap nonce_of out) < 2 ^ 47.
Proof using Type.
  intros Hl. pose proof (zlen_nonneg sends).
  pose proof (send_all_nonces sends default_packets 0 ltac:(cbn; lia) ltac:(cbn; lia) ltac:(lia) ltac:(lia)) as Hs.
  destruct (send_all sends default_packets 0) as [[s' blocks'] out]. destruct Hs as (Hnd & _ & Hkey). cbn [snd].
  split; [done|]. destruct (omap nonce_of out) as [|x l]; [done|]. specialize (Hkey ltac:(done)). lia.
Qed.

(** A datagram opens to what was sealed. *)
Lemma open_of_sealed `{!AeadLaws} seq d plain blocks blocks' datagram :
  0 <= seq < 2 ^ 63 -> encrypt seq d plain blocks = (blocks', Ok datagram) ->
  decrypt datagram = Ok (mkIncoming seq d plain).
Proof using Type.
  intros Hs He. unfold encrypt in He. destruct (_ <? _); [done|]. apply (f_equal snd) in He. cbn [snd] in He.
  destruct (negb _); [done|]. apply bind_ok_inv in He as ([ct tag] & Hseal & He). cbv beta iota in He.
  destruct (seal (ocb_nonce _) plain) as [p|] eqn:Hs'; [|done]. cbn in Hseal. injection Hseal as ->. rename Hs' into Hseal. destruct (opened _ _ _ _ Hseal) as (Hopen & Hct & Htag).
  assert (Z.land seq SEQUENCE_MASK = seq) as Hmask.
  { unfold SEQUENCE_MASK. replace (2 ^ 63 - 1) with (Z.ones 63) by reflexivity. rewrite Z.land_ones by lia. apply Z.mod_small. lia. }
  rewrite Hmask in *. set (ds := Z.lor (Z.shiftl (direction_bit d) 63) seq) in *.
  assert (datagram = be_bytes 8 ds ++ ct ++ tag) as -> by congruence.
  assert (ds = seq + direction_bit d * 2 ^ 63) as Hds.
  { unfold ds. rewrite Z.lor_comm. apply lor_shiftl_add; lia. }
  assert (0 <= ds < 2 ^ 64) as Hrange by (rewrite Hds; destruct d; cbn; lia).
  unfold decrypt. rewrite (proj2 (Z.ltb_ge _ _)).
  2: { rewrite !zlen_app. unfold zlen. rewrite length_be_bytes, Htag. lia. }
  rewrite take_app_length' by (symmetry; apply length_be_bytes).
  rewrite from_be_bytes. change (8 * Z.of_nat 8) with 64. rewrite Z.mod_small by exact Hrange. rewrite drop_app_length' by (symmetry; apply length_be_bytes).
  rewrite length_app, Htag. replace (length ct + 16 - 16)%nat with (length ct) by lia.
  rewrite take_app_length, drop_app_length, Hopen. cbn [ok_or mbind result_bind]. do 2 f_equal.
  - rewrite Hds. unfold SEQUENCE_MASK. replace (2 ^ 63 - 1) with (Z.ones 63) by reflexivity. rewrite Z.land_ones by lia.
    rewrite Z.mod_add by lia. apply Z.mod_small. lia.
  - rewrite Hds. destruct d; cbn [direction_bit].
    + rewrite Z.mul_0_l, Z.add_0_r. replace (Z.land seq DIRECTION_MASK) with 0; [done|]. symmetry.
      apply Z.bits_inj'. intros n Hn. rewrite Z.land_spec, Z.bits_0. unfold DIRECTION_MASK. rewrite Z.pow2_bits_eqb by lia.
      destruct (Z.eqb_spec 63 n) as [<-|]; [|apply andb_false_r]. rewrite andb_true_r. apply Z.testbit_false; [lia|].
      by rewrite Z.div_small by lia.
    + destruct (Z.eqb_spec (Z.land (seq + 1 * 2 ^ 63) DIRECTION_MASK) 0) as [Hz|]; [|done]. exfalso.
      apply (f_equal (fun z => Z.testbit z 63)) in Hz. rewrite Z.land_spec, Z.bits_0 in Hz. unfold DIRECTION_MASK in Hz.
      rewrite Z.pow2_bits_true, andb_true_r in Hz by lia. apply Z.testbit_false in Hz; [|lia].
      rewrite Z.div_add, Z.div_small in Hz by lia. done.
Qed.
End Nonces.

(** ** A sample cipher, its tag sixteen zeros *)
Section SampleCipher.
Import ClientPacket.

Definition plain_aead : Aead := {|
  seal _ p := Some (p, replicate 16 (z2b 0));
  open _ ct tag := if bool_decide (tag = replicate 16 (z2b 0)) then Some ct else None;
|}.
#[local] Existing Instance plain_aead.
#[local] Instance plain_aead_laws : AeadLaws.
Proof.
  split.
  - intros n p _. by eexists.
  - intros n p ct tag Hs. apply (inj Some) in Hs. apply (inj2 pair) in Hs as [<- <-]. split; [|done].
    unfold open, plain_aead. by rewrite bool_decide_eq_true_2.
Qed.

Lemma no_nonce_repeats_witness :
  let out := (send_all [(5, [z2b 1]); (6, []); (7, replicate 3000 (z2b 9)); (8, [z2b 1])] default_packets 0).2 in
  NoDup (omap nonce_of out) /\ omap nonce_of out = [be_bytes 8 0; be_bytes 8 1; be_bytes 8 3].
Proof.
  cbv zeta. match goal with |- context [send_all ?l] => set (sends := l) end.
  destruct (no_nonce_repeats sends) as [Hnd _]; [vm_compute; reflexivity|]. split; [exact Hnd | vm_compute; reflexivity].
Defined.

Example opens_what_was_sealed : (decrypt <$> (encrypt 7 ToClient [z2b 1; z2b 2] 0).2) = Ok (Ok (mkIncoming 7 ToClient [z2b 1; z2b 2])).
Proof. vm_compute. reflexivity. Qed.
End SampleCipher.
