(* ===== verification/Prediction.v ===== *)
(** * Predictive local echo

    Models [crates/mosh_rs/src/prediction]: what a keystroke is guessed to do to
    the screen, when a guess may be shown, and how it is judged against the screen
    the server sends.  The parser of the user's bytes (vte) and the width of a
    character are what the class [Parser] names. *)
From Stdlib Require Import ZArith Lia List Bool.
From stdpp Require Import base numbers list strings.
From S2P Require Import Prelude Text Utf8 ClientScreen.
Open Scope Z_scope.
Open Scope zetta_scope.

(** What a byte of input makes the parser call. *)
Inductive callback := Print (ch : Z) | Execute (byte : Z) | CsiDispatch (action : Z) | EscDispatch | OscDispatch | Unhook.
Class Parser := {
  parser : Type;
  fresh_parser : parser;
  parse : parser -> Z -> parser * list callback;
  char_width : Z -> option Z;
}.

Module Prediction.
Import ClientScreen.

Definition SRTT_TRIGGER_LOW : Z := 20.
Definition SRTT_TRIGGER_HIGH : Z := 30.
Definition FLAG_TRIGGER_LOW : Z := 50.
Definition FLAG_TRIGGER_HIGH : Z := 80.
Definition GLITCH_THRESHOLD : Z := 250.
Definition GLITCH_REPAIR_COUNT : Z := 10.
Definition GLITCH_REPAIR_MININTERVAL : Z := 150.
Definition GLITCH_FLAG_THRESHOLD : Z := 5000.
Definition NEVER : Z := u64_max.

(** ** One prediction *)

Inductive Validity := Pending | Correct | CorrectNoCredit | IncorrectOrExpired | Inactive.
#[export] Instance Validity_eq_dec : EqDecision Validity.
Proof. solve_decision. Defined.

Record Conditional := mkConditional {
  expiration_frame : Z; active : bool; tentative_until_epoch : Z; prediction_time : Z;
}.
#[export] Instance conditional_eta : Eta Conditional := fun c =>
  mkConditional (expiration_frame c) (active c) (tentative_until_epoch c) (prediction_time c).

Definition new_conditional (expiration tentative_until : Z) : Conditional :=
  mkConditional expiration false tentative_until NEVER.
Definition tentative (confirmed_epoch : Z) (c : Conditional) : bool := confirmed_epoch <? tentative_until_epoch c.
Definition expire (expiration now : Z) (c : Conditional) : Conditional :=
  c <| expiration_frame := expiration |> <| prediction_time := now |>.
Definition reset_conditional (c : Conditional) : Conditional :=
  c <| expiration_frame := NEVER |> <| tentative_until_epoch := NEVER |> <| active := false |>.
Definition outstanding (now : Z) (c : Conditional) : Z :=
  if prediction_time c =? NEVER then u64_max else Z.max 0 (now - prediction_time c).

Record CellPrediction := mkCellPrediction {
  base : Conditional; pcol : Z; replacement : Cell; unknown : bool; original_contents : list Cell;
}.
#[export] Instance cell_prediction_eta : Eta CellPrediction := fun c =>
  mkCellPrediction (base c) (pcol c) (replacement c) (unknown c) (original_contents c).
Definition new_cell (expiration col tentative_until : Z) : CellPrediction :=
  mkCellPrediction (new_conditional expiration tentative_until) col default_cell false [].

Definition reset_cell (c : CellPrediction) : CellPrediction :=
  mkCellPrediction (reset_conditional (base c)) (pcol c) (replacement c) false [].
Definition reset_with_orig (c : CellPrediction) : CellPrediction :=
  if negb (active (base c)) || unknown c then reset_cell c
  else c <| original_contents := original_contents c ++ [replacement c] |> <| base := reset_conditional (base c) |>.

Record OverlayRow := mkRow { row_num : Z; cells : list CellPrediction }.
Record CursorMove := mkMove { cbase : Conditional; crow : Z; ccol : Z }.
#[export] Instance cursor_move_eta : Eta CursorMove := fun c => mkMove (cbase c) (crow c) (ccol c).
Definition new_move (expiration row col tentative_until : Z) : CursorMove :=
  mkMove (new_conditional expiration tentative_until) row col.

Section Judging.
Context {S : Type} `{Screen S}.

Definition cell_validity (screen : S) (row late_ack : Z) (c : CellPrediction) : Validity :=
  if negb (active (base c)) then Inactive
  else if (rows screen <=? row) || (cols screen <=? pcol c) then IncorrectOrExpired
  else if late_ack <? expiration_frame (base c) then Pending
  else if unknown c then CorrectNoCredit
  else if is_blank (replacement c) then CorrectNoCredit
  else if contents_match (cell_at screen row (pcol c)) (replacement c) then
    if existsb (fun orig => contents_match orig (replacement c)) (original_contents c) then CorrectNoCredit else Correct
  else IncorrectOrExpired.

Definition cursor_validity (screen : S) (late_ack : Z) (c : CursorMove) : Validity :=
  if negb (active (cbase c)) then Inactive
  else if (rows screen <=? crow c) || (cols screen <=? ccol c) then IncorrectOrExpired
  else if expiration_frame (cbase c) <=? late_ack then
    if bool_decide (cursor screen = (crow c, ccol c)) then Correct else IncorrectOrExpired
  else Pending.
End Judging.

(** ** The engine *)

Inductive DisplayPreference := Always | Never | Adaptive | Experimental.
#[export] Instance DisplayPreference_eq_dec : EqDecision DisplayPreference.
Proof. solve_decision. Defined.

Definition parse_preference (value : bytes) : option DisplayPreference :=
  if bool_decide (value = text "always") then Some Always
  else if bool_decide (value = text "never") then Some Never
  else if bool_decide (value = text "adaptive") then Some Adaptive
  else if bool_decide (value = text "experimental") then Some Experimental
  else None.

Section Engine.
Context {S : Type} `{Screen S} `{Parser} {E : Type}.

Record PredictionEngine := mkEngine {
  display_preference : DisplayPreference;
  predict_overwrite : bool;
  overlays : list OverlayRow;
  cursors : list CursorMove;
  local_frame_sent : Z;
  local_frame_acked : Z;
  local_frame_late_acked : Z;
  prediction_epoch : Z;
  confirmed_epoch : Z;
  flagging : bool;
  srtt_trigger : bool;
  glitch_trigger : Z;
  last_quick_confirmation : Z;
  send_interval : Z;
  last_height : Z;
  last_width : Z;
  input_parser : option parser;
  last_byte : Z;
  in_escape : bool;
}.
#[export] Instance engine_eta : Eta PredictionEngine := fun e =>
  mkEngine (display_preference e) (predict_overwrite e) (overlays e) (cursors e) (local_frame_sent e)
    (local_frame_acked e) (local_frame_late_acked e) (prediction_epoch e) (confirmed_epoch e) (flagging e)
    (srtt_trigger e) (glitch_trigger e) (last_quick_confirmation e) (send_interval e) (last_height e) (last_width e)
    (input_parser e) (last_byte e) (in_escape e).

Definition new : PredictionEngine :=
  mkEngine Adaptive false [] [] 0 0 0 1 0 false false 0 0 250 0 0 (Some fresh_parser) 0 false.

Definition set_display_preference (p : DisplayPreference) (e : PredictionEngine) : PredictionEngine := e <| display_preference := p |>.
Definition set_predict_overwrite (b : bool) (e : PredictionEngine) : PredictionEngine := e <| predict_overwrite := b |>.
Definition set_local_frame_sent (n : Z) (e : PredictionEngine) : PredictionEngine := e <| local_frame_sent := n |>.
Definition set_local_frame_acked (n : Z) (e : PredictionEngine) : PredictionEngine := e <| local_frame_acked := n |>.
Definition set_local_frame_late_acked (n : Z) (e : PredictionEngine) : PredictionEngine := e <| local_frame_late_acked := n |>.
Definition set_send_interval (n : Z) (e : PredictionEngine) : PredictionEngine := e <| send_interval := n |>.

Definition any_active (e : PredictionEngine) : bool :=
  negb (bool_decide (length (cursors e) = O)) || existsb (fun r => existsb (fun c => active (base c)) (cells r)) (overlays e).
Definition wait_time_ms (e : PredictionEngine) : option Z :=
  if negb ((0 <? glitch_trigger e) && flagging e) && any_active e then Some 50 else None.

Definition become_tentative (e : PredictionEngine) : PredictionEngine :=
  if bool_decide (display_preference e = Experimental) then e
  else e <| prediction_epoch := wrap 64 (prediction_epoch e + 1) |>.
Definition reset (e : PredictionEngine) : PredictionEngine :=
  become_tentative (e <| cursors := [] |> <| overlays := [] |>).

(** The number of the state the next keystroke travels in. *)
Definition next_frame (e : PredictionEngine) : Z := wrap 64 (local_frame_sent e + 1).

(** [cursor()]; [cursor_mut()] changes the last of them. *)
Definition the_cursor (e : PredictionEngine) : result E CursorMove := expect (last (cursors e)).
Definition with_cursor (f : CursorMove -> CursorMove) (e : PredictionEngine) : result E PredictionEngine :=
  c ← expect (last (cursors e));
  Ok (e <| cursors := <[(length (cursors e) - 1)%nat := f c]> (cursors e) |>).

Definition push_move (row col : Z) (e : PredictionEngine) : PredictionEngine :=
  let c := new_move (next_frame e) row col (prediction_epoch e) in
  e <| cursors := cursors e ++ [c <| cbase := cbase c <| active := true |> |>] |>.

Definition init_cursor (screen : S) (e : PredictionEngine) : PredictionEngine :=
  match last (cursors e) with
  | None => let '(row, col) := cursor screen in push_move row col e
  | Some c => if tentative_until_epoch (cbase c) =? prediction_epoch e then e else push_move (crow c) (ccol c) e
  end.

Definition get_or_make_row (row num_cols : Z) (e : PredictionEngine) : PredictionEngine * nat :=
  match position (fun r => row_num r =? row) (overlays e) with
  | Some idx => (e, idx)
  | None =>
      let cs := (fun col => new_cell 0 col (prediction_epoch e)) <$> seqZ 0 num_cols in
      (e <| overlays := overlays e ++ [mkRow row cs] |>, length (overlays e))
  end.

(** [self.overlays[ridx].cells[i]], read and changed. *)
Definition cell_of (ridx : nat) (i : Z) (e : PredictionEngine) : result E CellPrediction :=
  r ← expect (overlays e !! ridx); expect (cells r !! Z.to_nat i).
Definition with_cell (ridx : nat) (i : Z) (f : CellPrediction -> CellPrediction) (e : PredictionEngine) : result E PredictionEngine :=
  r ← expect (overlays e !! ridx);
  c ← expect (cells r !! Z.to_nat i);
  Ok (e <| overlays := <[ridx := mkRow (row_num r) (<[Z.to_nat i := f c]> (cells r))]> (overlays e) |>).

Definition kill_epoch (epoch : Z) (screen : S) (e : PredictionEngine) : PredictionEngine :=
  let cutoff := Z.max 0 (epoch - 1) in
  let e := e <| cursors := filter (fun c => tentative cutoff (cbase c) = false) (cursors e) |> in
  let '(row, col) := cursor screen in
  let e := push_move row col e in
  let e := e <| overlays :=
    (fun r => mkRow (row_num r) ((fun c => if tentative cutoff (base c) then reset_cell c else c) <$> cells r)) <$> overlays e |> in
  become_tentative e.

(** ** Typing *)

(** A cell predicted anew: an original remembered, and what it becomes. *)
Definition predict_cell (epoch expiration now : Z) (original : Cell) (c : CellPrediction) : CellPrediction :=
  let c := reset_with_orig c in
  c <| base := expire expiration now (base c <| active := true |> <| tentative_until_epoch := epoch |>) |>
    <| original_contents := original_contents c ++ [original] |>.
Definition become (source : option Cell) (c : CellPrediction) : CellPrediction :=
  match source with
  | Some replaced => c <| unknown := false |> <| replacement := replaced |>
  | None => c <| unknown := true |>
  end.

(** What a neighbour is believed to hold. *)
Definition believed (screen : S) (row col : Z) (neighbour : CellPrediction) : option Cell :=
  if active (base neighbour) then if unknown neighbour then None else Some (replacement neighbour)
  else Some (cell_at screen row col).

Definition shift_left (screen : S) (now : Z) (ridx : nat) (row width : Z) (e : PredictionEngine) (i : Z) : result E PredictionEngine :=
  source ← (if i + 2 <? width then neighbour ← cell_of ridx (i + 1) e; Ok (believed screen row (i + 1) neighbour) else Ok None);
  with_cell ridx i (fun c => become source (predict_cell (prediction_epoch e) (next_frame e) now (cell_at screen row i) c)) e.

Fixpoint each (f : PredictionEngine -> Z -> result E PredictionEngine) (l : list Z) (e : PredictionEngine) : result E PredictionEngine :=
  match l with [] => Ok e | i :: l => e ← f e i; each f l e end.

Definition backspace (screen : S) (now : Z) (e : PredictionEngine) : result E PredictionEngine :=
  let '(height, width) := (rows screen, cols screen) in
  c ← the_cursor e;
  let row := crow c in
  if (height <=? row) || (width =? 0) then Ok (become_tentative e)
  else
    let '(e, ridx) := get_or_make_row row width e in
    if ccol c =? 0 then Ok e
    else
      let col := ccol c - 1 in
      e ← with_cursor (fun c => c <| ccol := col |> <| cbase := expire (next_frame e) now (cbase c) |>) e;
      if predict_overwrite e then
        let original := cell_at screen row col in
        with_cell ridx col (fun c =>
          predict_cell (prediction_epoch e) (next_frame e) now original c
            <| replacement := mkCell (text " ") (rendition original) |>) e
      else each (shift_left screen now ridx row width) (seqZ col (width - col)) e.

Definition newline_carriage_return (screen : S) (now : Z) (e : PredictionEngine) : result E PredictionEngine :=
  let '(height, width) := (rows screen, cols screen) in
  let e := init_cursor screen e in
  e ← with_cursor (fun c => c <| ccol := 0 |>) e;
  c ← the_cursor e;
  if (height =? 0) || (wrap 16 (crow c + 1) <? height)
  then with_cursor (fun c => c <| crow := wrap 16 (crow c + 1) |>) e
  else
    let row := crow c in
    let '(e, ridx) := get_or_make_row row width e in
    r ← expect (overlays e !! ridx);
    let blank := fun c : CellPrediction =>
      c <| base := expire (next_frame e) now (base c <| active := true |> <| tentative_until_epoch := prediction_epoch e |>) |>
        <| replacement := mkCell [] (rendition (replacement c)) |> in
    Ok (e <| overlays := <[ridx := mkRow (row_num r) (blank <$> cells r)]> (overlays e) |>).

Definition shift_right (screen : S) (now : Z) (ridx : nat) (row width expiration epoch : Z) (e : PredictionEngine) (i : Z)
    : result E PredictionEngine :=
  source ← (if i =? width - 1 then Ok None else neighbour ← cell_of ridx (i - 1) e; Ok (believed screen row (i - 1) neighbour));
  with_cell ridx i (fun c => become source (predict_cell epoch expiration now (cell_at screen row i) c)) e.

Definition insert_char (ch : Z) (screen : S) (now : Z) (e : PredictionEngine) : result E PredictionEngine :=
  let '(height, width) := (rows screen, cols screen) in
  c ← the_cursor e;
  let '(row, col) := (crow c, ccol c) in
  if (height <=? row) || (width <=? col) then Ok (become_tentative e)
  else
    let '(e, ridx) := get_or_make_row row width e in
    let e := if width <=? col + 1 then become_tentative e else e in
    let expiration := next_frame e in
    let epoch := prediction_epoch e in
    let rightmost := if predict_overwrite e then col else width - 1 in
    e ← each (shift_right screen now ridx row width expiration epoch) (rev (seqZ (col + 1) (rightmost - col))) e;
    look ← (if 0 <? col then
              neighbour ← cell_of ridx (col - 1) e;
              Ok (if active (base neighbour) && negb (unknown neighbour)
                  then rendition (replacement neighbour) else rendition (cell_at screen row (col - 1)))
            else Ok (rendition (cell_at screen row col)));
    e ← with_cell ridx col (fun c =>
          predict_cell epoch expiration now (cell_at screen row col) c <| replacement := mkCell (Utf8.encode_utf8 ch) look |>) e;
    e ← with_cursor (fun c => c <| cbase := expire expiration now (cbase c) |>) e;
    if col <? width - 1 then with_cursor (fun c => c <| ccol := ccol c + 1 |>) e
    else newline_carriage_return screen now (become_tentative e).

Definition print_char (ch : Z) (screen : S) (now : Z) (e : PredictionEngine) : result E PredictionEngine :=
  let e := init_cursor screen e in
  if ch =? 0x7f then backspace screen now e
  else if (ch <? 0x20) || negb (bool_decide (char_width ch = Some 1)) then Ok (become_tentative e)
  else insert_char ch screen now e.

(** ** Judging *)

Definition update_triggers (e : PredictionEngine) : PredictionEngine :=
  let e :=
    if SRTT_TRIGGER_HIGH <? send_interval e then e <| srtt_trigger := true |>
    else if srtt_trigger e && (send_interval e <=? SRTT_TRIGGER_LOW) && negb (any_active e) then e <| srtt_trigger := false |>
    else e in
  let e :=
    if FLAG_TRIGGER_HIGH <? send_interval e then e <| flagging := true |>
    else if send_interval e <=? FLAG_TRIGGER_LOW then e <| flagging := false |>
    else e in
  if GLITCH_REPAIR_COUNT <? glitch_trigger e then e <| flagging := true |> else e.

(** A prediction that came true confirms its epoch and works off a glitch. *)
Definition take_credit (now : Z) (c : CellPrediction) (e : PredictionEngine) : PredictionEngine :=
  let epoch := tentative_until_epoch (base c) in
  let e := if confirmed_epoch e <? epoch then e <| confirmed_epoch := epoch |> else e in
  if (outstanding now (base c) <? GLITCH_THRESHOLD) && (0 <? glitch_trigger e)
     && (last_quick_confirmation e <=? Z.max 0 (now - GLITCH_REPAIR_MININTERVAL))
  then e <| glitch_trigger := glitch_trigger e - 1 |> <| last_quick_confirmation := now |>
  else e.

Definition notice_glitch (now : Z) (c : CellPrediction) (e : PredictionEngine) : PredictionEngine :=
  let waited := outstanding now (base c) in
  if GLITCH_FLAG_THRESHOLD <=? waited then e <| glitch_trigger := GLITCH_REPAIR_COUNT * 2 |>
  else if (GLITCH_THRESHOLD <=? waited) && (glitch_trigger e <? GLITCH_REPAIR_COUNT)
  then e <| glitch_trigger := GLITCH_REPAIR_COUNT |>
  else e.

(** One cell judged; whether the judging ends with it. *)
Definition judge_cell (screen : S) (now : Z) (ri ci : nat) (e : PredictionEngine) : result E (PredictionEngine * bool) :=
  r ← expect (overlays e !! ri);
  c ← expect (cells r !! ci);
  match cell_validity screen (row_num r) (local_frame_late_acked e) c with
  | IncorrectOrExpired =>
      if bool_decide (display_preference e = Experimental) then e ← with_cell ri (Z.of_nat ci) reset_cell e; Ok (e, false)
      else if tentative (confirmed_epoch e) (base c) then Ok (kill_epoch (tentative_until_epoch (base c)) screen e, false)
      else Ok (reset e, true)
  | Correct =>
      let e := take_credit now c e in
      let actual := rendition (cell_at screen (row_num r) (pcol c)) in
      let recolour := fun c : CellPrediction => c <| replacement := mkCell (contents (replacement c)) actual |> in
      let e := e <| overlays := <[ri := mkRow (row_num r) (take ci (cells r) ++ (recolour <$> drop ci (cells r)))]> (overlays e) |> in
      e ← with_cell ri (Z.of_nat ci) reset_cell e;
      Ok (e, false)
  | CorrectNoCredit => e ← with_cell ri (Z.of_nat ci) reset_cell e; Ok (e, false)
  | Pending => Ok (notice_glitch now c e, false)
  | Inactive => Ok (e, false)
  end.

Fixpoint judge_row (fuel : nat) (screen : S) (now : Z) (ri ci : nat) (e : PredictionEngine) : result E (PredictionEngine * bool) :=
  match fuel with
  | O => Panic
  | Datatypes.S fuel =>
      r ← expect (overlays e !! ri);
      if (ci <? length (cells r))%nat then
        '(e, stop) ← judge_cell screen now ri ci e;
        if (stop : bool) then Ok (e, true) else judge_row fuel screen now ri (Datatypes.S ci) e
      else Ok (e, false)
  end.

Fixpoint judge_rows (fuel : nat) (screen : S) (now : Z) (ri : nat) (e : PredictionEngine) : result E (PredictionEngine * bool) :=
  match fuel with
  | O => Panic
  | Datatypes.S fuel =>
      if (ri <? length (overlays e))%nat then
        r ← expect (overlays e !! ri);
        if rows screen <=? row_num r then judge_rows fuel screen now ri (e <| overlays := remove_at ri (overlays e) |>)
        else
          '(e, stop) ← judge_row (Datatypes.S (length (cells r))) screen now ri O e;
          if (stop : bool) then Ok (e, true) else judge_rows fuel screen now (Datatypes.S ri) e
      else Ok (e, false)
  end.

Definition judge_cursor (screen : S) (e : PredictionEngine) : PredictionEngine :=
  let pending e := e <| cursors := filter (fun c => cursor_validity screen (local_frame_late_acked e) c = Pending) (cursors e) |> in
  match last (cursors e) with
  | Some c =>
      if bool_decide (cursor_validity screen (local_frame_late_acked e) c = IncorrectOrExpired) then
        if bool_decide (display_preference e = Experimental) then pending (e <| cursors := [] |>) else reset e
      else pending e
  | None => pending e
  end.

Definition cull (screen : S) (now : Z) (e : PredictionEngine) : result E PredictionEngine :=
  if bool_decide (display_preference e = Never) then Ok e
  else
    let '(height, width) := (rows screen, cols screen) in
    let e :=
      if negb (last_height e =? height) || negb (last_width e =? width)
      then reset (e <| last_height := height |> <| last_width := width |>) else e in
    let e := update_triggers e in
    '(e, stop) ← judge_rows (Datatypes.S (length (overlays e))) screen now O e;
    Ok (if (stop : bool) then e else judge_cursor screen e).

(** ** The keys *)

Definition on_callback (screen : S) (now : Z) (e : PredictionEngine) (cb : callback) : result E PredictionEngine :=
  match cb with
  | Print ch => print_char ch screen now (e <| in_escape := false |>)
  | Execute byte =>
      let e := become_tentative e in
      if byte =? 0x0d then newline_carriage_return screen now e else Ok e
  | CsiDispatch action =>
      let e := e <| in_escape := false |> in
      if action =? 0x43 then
        let e := init_cursor screen e in
        c ← the_cursor e;
        if wrap 16 (ccol c + 1) <? cols screen
        then with_cursor (fun c => c <| ccol := wrap 16 (ccol c + 1) |> <| cbase := expire (next_frame e) now (cbase c) |>) e
        else Ok e
      else if action =? 0x44 then
        let e := init_cursor screen e in
        c ← the_cursor e;
        if 0 <? ccol c
        then with_cursor (fun c => c <| ccol := ccol c - 1 |> <| cbase := expire (next_frame e) now (cbase c) |>) e
        else Ok e
      else Ok (become_tentative e)
  | EscDispatch | OscDispatch | Unhook => Ok (become_tentative (e <| in_escape := false |>))
  end.

Fixpoint on_callbacks (screen : S) (now : Z) (cbs : list callback) (e : PredictionEngine) : result E PredictionEngine :=
  match cbs with [] => Ok e | cb :: cbs => e ← on_callback screen now e cb; on_callbacks screen now cbs e end.

Definition new_user_byte (byte : Z) (screen : S) (now : Z) (e : PredictionEngine) : result E PredictionEngine :=
  if bool_decide (display_preference e = Never) then Ok e
  else
    let e := if bool_decide (display_preference e = Experimental) then e <| prediction_epoch := confirmed_epoch e |> else e in
    e ← cull screen now e;
    let byte := if (last_byte e =? 0x1b) && (byte =? 0x4f) then 0x5b else byte in
    let e := e <| last_byte := byte |> in
    if (byte =? 0x7f) && negb (in_escape e) then print_char 0x7f screen now e
    else
      let e := if byte =? 0x1b then e <| in_escape := true |> else e in
      let '(p, cbs) := parse (default fresh_parser (input_parser e)) byte in
      e ← on_callbacks screen now cbs (e <| input_parser := None |>);
      Ok (e <| input_parser := Some p |>).

Fixpoint new_user_bytes (l : bytes) (screen : S) (now : Z) (e : PredictionEngine) : result E PredictionEngine :=
  match l with [] => Ok e | b :: l => e ← new_user_byte (b2z b) screen now e; new_user_bytes l screen now e end.

(** ** Drawing *)

Definition showing (e : PredictionEngine) : bool :=
  match display_preference e with
  | Never => false
  | Always | Experimental => true
  | Adaptive => srtt_trigger e || (0 <? glitch_trigger e)
  end.
Definition drawing_now (e : PredictionEngine) : bool := showing e && (prediction_epoch e <=? confirmed_epoch e).

(** What one cell asks to be painted. *)
Definition draw_cell (screen : S) (e : PredictionEngine) (row : Z) (c : CellPrediction) : list OverlayCell :=
  if negb (active (base c)) || (cols screen <=? pcol c) || tentative (confirmed_epoch e) (base c) then []
  else
    let actual := cell_at screen row (pcol c) in
    let flag := flagging e && negb (is_blank (replacement c) && is_blank actual) in
    if unknown c then if flag && (wrap 16 (pcol c + 1) <? cols screen) then [mkOverlay row (pcol c) actual true] else []
    else if bool_decide (actual = replacement c) then [] else [mkOverlay row (pcol c) (replacement c) flag].

Definition overlay (screen : S) (e : PredictionEngine) : list OverlayCell * option (Z * Z) :=
  if negb (showing e) then ([], None)
  else if (rows screen =? 0) || (cols screen =? 0) then ([], None)
  else
    let out := concat ((fun r => if rows screen <=? row_num r then [] else concat (draw_cell screen e (row_num r) <$> cells r)) <$> overlays e) in
    let newest := List.find (fun c => active (cbase c) && negb (tentative (confirmed_epoch e) (cbase c))) (rev (cursors e)) in
    (out, c ← newest; if (crow c <? rows screen) && (ccol c <? cols screen) then Some (crow c, ccol c) else None).

End Engine.
Arguments PredictionEngine {_}.
End Prediction.
