(* ===== verification/PredictionRuns.v ===== *)
(** * What the predictions may do

    The engine of [Prediction] never panics on a screen within its bounds, what it
    draws is inside the screen and of a confirmed epoch, and a guess does not
    outlive its answer. *)
From Stdlib Require Import ZArith Lia List Bool.
From stdpp Require Import base numbers list list_numbers strings.
From S2P Require Import Prelude Text Utf8 ClientScreen Prediction.
Open Scope Z_scope.
Open Scope zetta_scope.

(** A screen's sizes are u16, and its cursor is on it or just past a row's end. *)
Class ScreenBounds S `{ClientScreen.Screen S} : Prop := {
  rows_u16 : forall s : S, 0 <= ClientScreen.rows s < 2 ^ 16;
  cols_u16 : forall s : S, 0 <= ClientScreen.cols s < 2 ^ 16;
  cursor_inside : forall s : S, 0 <= (ClientScreen.cursor s).1 /\
    (0 < ClientScreen.rows s -> (ClientScreen.cursor s).1 < ClientScreen.rows s) /\ 0 <= (ClientScreen.cursor s).2 <= ClientScreen.cols s;
}.

Section Shape.
Import ClientScreen Prediction.
Context {S : Type} `{ScreenBounds S} {P : Parser} {E : Type}.
Implicit Types e : PredictionEngine.
#[local] Existing Instance engine_eta.

Record row_ok (h w : Z) (r : OverlayRow) : Prop := {
  ro_row : 0 <= row_num r < h;
  ro_length : length (cells r) = Z.to_nat w;
  ro_cols : forall i c, cells r !! i = Some c -> pcol c = Z.of_nat i;
}.
Definition move_ok (h w : Z) (c : CursorMove) : Prop := 0 <= crow c /\ (0 < h -> crow c < h) /\ 0 <= ccol c <= w.

(** Every row is on the screen and as wide as it, every cursor in one of its rows, at most just past
    the row's end; a screen without rows bounds no cursor's row. *)
Record shaped (h w : Z) e : Prop := {
  sh_rows : Forall (row_ok h w) (overlays e);
  sh_cursors : Forall (move_ok h w) (cursors e);
}.

(** What typing leaves alone. *)
Record same_settings (e e' : PredictionEngine) : Prop := {
  se_preference : display_preference e' = display_preference e;
  se_width : last_width e' = last_width e;
  se_height : last_height e' = last_height e;
  se_sent : local_frame_sent e' = local_frame_sent e;
  se_late : local_frame_late_acked e' = local_frame_late_acked e;
  se_confirmed : confirmed_epoch e <= confirmed_epoch e';
}.
#[local] Instance same_settings_preorder : PreOrder same_settings.
Proof using Type. split; [by split | intros ? ? ? [] []; split; [congruence.. | lia]]. Qed.

(** A computation that keeps the shape. *)
Definition keeps_shape (h w : Z) e (r : result E PredictionEngine) : Prop :=
  exists e', r = Ok e' /\ shaped h w e' /\ same_settings e e'.

Lemma keeps_ok {h} w e e' : shaped h w e' -> same_settings e e' -> keeps_shape h w e (Ok e').
Proof using Type. intros. by exists e'. Qed.
Lemma keeps_from {h} w e e1 r : same_settings e e1 -> keeps_shape h w e1 r -> keeps_shape h w e r.
Proof using Type. intros Hs (e' & -> & Hsh & Hs'). exists e'. split_and!; [done..|]. by transitivity e1. Qed.

Lemma become_tentative_shaped {h} w e : shaped h w e -> shaped h w (become_tentative e) /\ same_settings e (become_tentative e).
Proof using Type. intros []. unfold become_tentative. by case_bool_decide. Qed.

Lemma push_move_shaped {h} w row col e :
  shaped h w e -> 0 <= row -> (0 < h -> row < h) -> 0 <= col <= w -> shaped h w (push_move row col e) /\ same_settings e (push_move row col e) /\ cursors (push_move row col e) <> [].
Proof using Type.
  intros [Hr Hc] Hrow Hbelow Hcol. split; [|split; [done | cbn; by destruct (cursors e)]]. split; [done|]. cbn. apply Forall_app. split; [done|]. constructor; [by split; [|split] | constructor].
Qed.

Lemma last_move {h} w e c : shaped h w e -> last (cursors e) = Some c -> move_ok h w c.
Proof using Type. intros [_ Hc] Hl. rewrite Forall_forall in Hc. apply Hc. apply last_Some in Hl as [init ->]. apply elem_of_app. right. by left. Qed.

Lemma init_cursor_shaped screen e :
  shaped (rows screen) (cols screen) e ->
  shaped (rows screen) (cols screen) (init_cursor screen e) /\ same_settings e (init_cursor screen e) /\ cursors (init_cursor screen e) <> [].
Proof using Type*.
  intros Hs. unfold init_cursor. destruct (last (cursors e)) as [c|] eqn:Hl.
  - destruct (last_move _ _ _ Hs Hl) as (? & ? & ?). destruct (_ =? _); [|by apply push_move_shaped].
    split_and!; [done | done |]. intros Hn. by rewrite Hn in Hl.
  - destruct (cursor_inside screen) as (Hr & Hb & Hc). destruct (cursor screen) as [row col]. by apply push_move_shaped.
Qed.

Lemma with_cursor_shaped {h} w f e :
  shaped h w e -> cursors e <> [] -> (forall c, last (cursors e) = Some c -> move_ok h w c -> move_ok h w (f c)) ->
  exists e', @with_cursor _ E f e = Ok e' /\ shaped h w e' /\ same_settings e e' /\ overlays e' = overlays e /\
    last (cursors e') = f <$> last (cursors e) /\ cursors e' <> [] /\ predict_overwrite e' = predict_overwrite e.
Proof using Type.
  intros Hs Hne Hf. unfold with_cursor. destruct (last (cursors e)) as [c|] eqn:Hl; [|by apply last_None in Hl].
  cbn [expect mbind result_bind]. eexists. split; [reflexivity|]. pose proof (last_move _ _ _ Hs Hl) as Hm.
  pose proof Hs as [Hr Hc]. pose proof Hl as [init Hinit]%last_Some.
  assert (<[(length (cursors e) - 1)%nat := f c]> (cursors e) = init ++ [f c]) as Hins.
  { rewrite Hinit, length_app. cbn [length]. replace (length init + 1 - 1)%nat with (length init + 0)%nat by lia. by rewrite insert_app_r. }
  split_and!; try done.
  - split; [done|]. cbn. by apply Forall_insert; [|apply Hf].
  - cbn. by rewrite Hins, last_snoc.
  - cbn. rewrite Hins. by destruct init.
Qed.

Lemma the_cursor_some e : cursors e <> [] -> exists c, @the_cursor _ E e = Ok c /\ last (cursors e) = Some c.
Proof using Type.
  intros Hne. unfold the_cursor. destruct (last (cursors e)) as [c|] eqn:Hl; [|by apply last_None in Hl]. by exists c.
Qed.

Lemma fresh_row_ok {h} w row epoch : 0 <= row < h -> 0 <= w -> row_ok h w (mkRow row ((fun col => new_cell 0 col epoch) <$> seqZ 0 w)).
Proof using Type.
  intros Hr Hw. split; [done | cbn [cells]; by rewrite length_fmap, length_seqZ |].
  intros i c Hi. cbn in Hi. rewrite list_lookup_fmap in Hi. destruct (seqZ 0 w !! i) as [z|] eqn:Hz; [|done].
  apply lookup_seqZ in Hz as [-> _]. cbn in Hi. injection Hi as <-. cbn. lia.
Qed.

Lemma get_or_make_row_shaped row {h} w e :
  shaped h w e -> 0 <= row < h -> 0 <= w ->
  let '(e', idx) := get_or_make_row row w e in
  shaped h w e' /\ same_settings e e' /\ (idx < length (overlays e'))%nat /\ cursors e' = cursors e /\
  predict_overwrite e' = predict_overwrite e /\ prediction_epoch e' = prediction_epoch e.
Proof using Type.
  intros [Hr Hc] Hrow Hw. unfold get_or_make_row. destruct (position _ (overlays e)) as [idx|] eqn:Hp.
  - split_and!; try done. by eapply position_lt.
  - split_and!; try done.
    + split; [|done]. apply Forall_app. split; [done|]. constructor; [by apply fresh_row_ok | done].
    + cbn. rewrite length_app. cbn. lia.
Qed.

Lemma cell_in_row {h} w e ridx i : shaped h w e -> (ridx < length (overlays e))%nat -> 0 <= i < w ->
  exists r c, overlays e !! ridx = Some r /\ row_ok h w r /\ cells r !! Z.to_nat i = Some c.
Proof using Type.
  intros [Hr _] Hridx Hi. destruct (lookup_lt_is_Some_2 _ _ Hridx) as [r Hr'].
  rewrite Forall_forall in Hr. pose proof (Hr r (list_elem_of_lookup_2 _ _ _ Hr')) as Hok.
  destruct (lookup_lt_is_Some_2 (cells r) (Z.to_nat i)) as [c Hc]; [rewrite (ro_length _ _ _ Hok); lia|]. by exists r, c.
Qed.

Lemma cell_of_shaped {h} w e ridx i : shaped h w e -> (ridx < length (overlays e))%nat -> 0 <= i < w ->
  exists c, @cell_of _ E ridx i e = Ok c.
Proof using Type.
  intros Hs Hridx Hi. destruct (cell_in_row _ _ _ _ Hs Hridx Hi) as (r & c & Hr & _ & Hc). exists c.
  unfold cell_of. rewrite Hr. cbn [expect mbind result_bind]. by rewrite Hc.
Qed.

Lemma with_cell_shaped {h} w e ridx i f :
  shaped h w e -> (ridx < length (overlays e))%nat -> 0 <= i < w -> (forall c, pcol (f c) = pcol c) ->
  exists e', @with_cell _ E ridx i f e = Ok e' /\ shaped h w e' /\ same_settings e e' /\
    length (overlays e') = length (overlays e) /\ cursors e' = cursors e.
Proof using Type.
  intros Hs Hridx Hi Hf. destruct (cell_in_row _ _ _ _ Hs Hridx Hi) as (r & c & Hr & [Hrow Hlen Hcols] & Hc).
  unfold with_cell. rewrite Hr. cbn [expect mbind result_bind]. rewrite Hc. cbn [expect mbind result_bind].
  eexists. split; [reflexivity|]. split_and!; try done; [|cbn; by rewrite length_insert].
  destruct Hs as [Hrs Hcs]. split; [|done]. cbn. apply Forall_insert; [done|]. split; [done | by rewrite <- Hlen; apply length_insert |].
  intros j c' Hj. cbn in Hj. apply list_lookup_insert_Some in Hj as [(<- & <- & _) | [_ Hj]]; [|by apply Hcols].
  rewrite Hf. by apply Hcols.
Qed.

(** Typing in a row: the shape, the row still there, a cursor still there. *)
Definition in_row (h w : Z) (ridx : nat) (cs : list CursorMove) e : Prop :=
  shaped h w e /\ (ridx < length (overlays e))%nat /\ cursors e = cs /\ cs <> [].

Lemma each_keeps (I : PredictionEngine -> Prop) f l e :
  (forall e i, I e -> i ∈ l -> exists e', f e i = Ok e' /\ I e' /\ same_settings e e') -> I e ->
  exists e', @each _ E f l e = Ok e' /\ I e' /\ same_settings e e'.
Proof using Type.
  revert e. induction l as [|i l IH]; intros e Hf He; [by exists e|]. cbn [each].
  destruct (Hf e i He ltac:(by left)) as (e1 & -> & He1 & Hs1). cbn [mbind result_bind].
  destruct (IH e1 (fun e j Hj Hin => Hf e j Hj ltac:(by right)) He1) as (e2 & -> & He2 & Hs2).
  exists e2. split_and!; [done..|]. by transitivity e1.
Qed.

Lemma pcol_predict epoch expiration now original c : pcol (predict_cell epoch expiration now original c) = pcol c.
Proof using Type. unfold predict_cell, reset_with_orig. by destruct (_ || _). Qed.
Lemma pcol_become source c : pcol (become source c) = pcol c.
Proof using Type. by destruct source. Qed.

Lemma with_cell_in_row {h} w ridx cs e i f :
  in_row h w ridx cs e -> 0 <= i < w -> (forall c, pcol (f c) = pcol c) ->
  exists e', @with_cell _ E ridx i f e = Ok e' /\ in_row h w ridx cs e' /\ same_settings e e'.
Proof using Type.
  intros (Hs & Hr & Hcs & Hc) Hi Hf. destruct (with_cell_shaped w e ridx i f Hs Hr Hi Hf) as (e' & He' & Hs' & Hse & Hlen & Hcur).
  exists e'. split_and!; [done | split_and!; [done | by rewrite Hlen | by rewrite Hcur | done] | done].
Qed.

Lemma shift_left_row cs screen now ridx row e i :
  in_row (rows screen) (cols screen) ridx cs e -> 0 <= i < cols screen ->
  exists e', @shift_left _ _ _ E screen now ridx row (cols screen) e i = Ok e' /\ in_row (rows screen) (cols screen) ridx cs e' /\ same_settings e e'.
Proof using Type.
  intros Hin Hi. unfold shift_left.
  assert (forall source, exists e', @with_cell _ E ridx i (fun c => become source (predict_cell (prediction_epoch e) (next_frame e) now (cell_at screen row i) c)) e = Ok e' /\
    in_row (rows screen) (cols screen) ridx cs e' /\ same_settings e e') as Hw.
  { intros source. apply with_cell_in_row; [done | done |]. intros c. by rewrite pcol_become, pcol_predict. }
  destruct (Z.ltb_spec (i + 2) (cols screen)); [|apply Hw]. pose proof Hin as (Hs & Hr & _).
  destruct (cell_of_shaped _ _ _ (i + 1) Hs Hr ltac:(lia)) as [c ->]. apply Hw.
Qed.

Lemma shift_right_row cs screen now ridx row expiration epoch e i :
  in_row (rows screen) (cols screen) ridx cs e -> 0 < i < cols screen ->
  exists e', @shift_right _ _ _ E screen now ridx row (cols screen) expiration epoch e i = Ok e' /\ in_row (rows screen) (cols screen) ridx cs e' /\ same_settings e e'.
Proof using Type.
  intros Hin Hi. unfold shift_right.
  assert (forall source, exists e', @with_cell _ E ridx i (fun c => become source (predict_cell epoch expiration now (cell_at screen row i) c)) e = Ok e' /\
    in_row (rows screen) (cols screen) ridx cs e' /\ same_settings e e') as Hw.
  { intros source. apply with_cell_in_row; [done | lia |]. intros c. by rewrite pcol_become, pcol_predict. }
  destruct (Z.eqb_spec i (cols screen - 1)); [apply Hw|]. pose proof Hin as (Hs & Hr & _).
  destruct (cell_of_shaped _ _ _ (i - 1) Hs Hr ltac:(lia)) as [c ->]. apply Hw.
Qed.

(** What the keys of a computation establish, threaded through [mbind]. *)
Lemma keeps_bind {h} w e (m : result E PredictionEngine) (k : PredictionEngine -> result E PredictionEngine) (I : PredictionEngine -> Prop) :
  (exists e1, m = Ok e1 /\ I e1 /\ same_settings e e1) -> (forall e1, I e1 -> keeps_shape h w e1 (k e1)) ->
  keeps_shape h w e (e1 ← m; k e1).
Proof using Type. intros (e1 & -> & He1 & Hs) Hk. cbn [mbind result_bind]. eapply keeps_from; [exact Hs | by apply Hk]. Qed.

Lemma keeps_tentative {h} w e : shaped h w e -> keeps_shape h w e (Ok (become_tentative e)).
Proof using Type. intros Hs. destruct (become_tentative_shaped w e Hs). by apply keeps_ok. Qed.

(** The cursor moved to [f]'s place. *)
Definition with_cursor_at (h w : Z) e : Prop := shaped h w e /\ cursors e <> [].
Lemma with_cursor_keeps {h} w f e :
  with_cursor_at h w e -> (forall c, last (cursors e) = Some c -> move_ok h w c -> move_ok h w (f c)) ->
  exists e', @with_cursor _ E f e = Ok e' /\ with_cursor_at h w e' /\ same_settings e e'.
Proof using Type.
  intros [Hs Hc] Hf. destruct (with_cursor_shaped w f e Hs Hc Hf) as (e2 & He' & Hs' & Hse & _ & _ & Hc' & _).
  by exists e2.
Qed.
Lemma with_cursor_end {h} w f e :
  with_cursor_at h w e -> (forall c, last (cursors e) = Some c -> move_ok h w c -> move_ok h w (f c)) -> keeps_shape h w e (with_cursor f e).
Proof using Type. intros Hc Hf. destruct (with_cursor_keeps w f e Hc Hf) as (e' & -> & [Hs _] & Hse). by apply keeps_ok. Qed.

Lemma with_cursor_in_row {h} w ridx cs f e :
  in_row h w ridx cs e -> (forall c, last cs = Some c -> move_ok h w c -> move_ok h w (f c)) ->
  exists e', @with_cursor _ E f e = Ok e' /\ (exists cs', in_row h w ridx cs' e' /\ last cs' = f <$> last cs) /\ same_settings e e'.
Proof using Type.
  intros (Hs & Hr & Hcs & Hc) Hf. subst cs. destruct (with_cursor_shaped w f e Hs Hc Hf) as (e' & He' & Hs' & Hse & Hov & Hl & Hc' & _).
  exists e'. split_and!; [done | | done]. exists (cursors e'). split; [|done]. split_and!; [done | by rewrite Hov | done | done].
Qed.

Lemma in_row_keeps {h} w ridx cs e m :
  (exists e', m = Ok e' /\ in_row h w ridx cs e' /\ same_settings e e') -> keeps_shape h w e m.
Proof using Type. intros (e' & -> & (Hs & _) & Hse). by apply keeps_ok. Qed.

Lemma make_row_in_row row {h} w e :
  with_cursor_at h w e -> 0 <= row < h -> 0 <= w ->
  let '(e', ridx) := get_or_make_row row w e in in_row h w ridx (cursors e) e' /\ same_settings e e'.
Proof using Type.
  intros [Hs Hc] Hrow Hw. pose proof (get_or_make_row_shaped row w e Hs Hrow Hw) as Hg.
  destruct (get_or_make_row row w e) as [e' ridx]. destruct Hg as (Hs' & Hse & Hr & Hcs & _).
  by split_and!.
Qed.

Lemma the_cursor_at {h} w e : with_cursor_at h w e -> exists c, @the_cursor _ E e = Ok c /\ last (cursors e) = Some c /\ move_ok h w c.
Proof using Type. intros [Hs Hc]. destruct (the_cursor_some e Hc) as (c & Hc' & Hl). exists c. split_and!; [done..|]. by eapply last_move. Qed.

Lemma backspace_keeps screen now e : with_cursor_at (rows screen) (cols screen) e -> keeps_shape (rows screen) (cols screen) e (backspace screen now e).
Proof using Type*.
  intros He. pose proof (cols_u16 screen) as Hw. destruct (the_cursor_at _ _ He) as (c & Hcur & Hl & Hrow & Hbelow & Hcol). pose proof He as [Hs Hne].
  unfold backspace. rewrite Hcur. cbn [mbind result_bind].
  destruct (Z.leb_spec (rows screen) (crow c)); cbn [orb]; [by apply keeps_tentative|]. destruct (_ =? 0); [by apply keeps_tentative|].
  pose proof (make_row_in_row (crow c) (cols screen) e He ltac:(lia) ltac:(lia)) as Hg.
  destruct (get_or_make_row (crow c) (cols screen) e) as [e1 ridx]. destruct Hg as (Hin & Hse).
  apply keeps_from with e1; [done|]. destruct (Z.eqb_spec (ccol c) 0); [apply keeps_ok; [apply Hin | reflexivity]|].
  eapply keeps_bind.
  { eapply with_cursor_in_row; [exact Hin|]. intros c' Hc' (Hr' & Hb' & _). split_and!; cbn; [done | done | lia..]. }
  intros e2 (cs & Hin2 & _). apply (in_row_keeps (h := rows screen) (cols screen) ridx cs). destruct (predict_overwrite e2).
  - apply with_cell_in_row; [done | lia |]. intros c'. exact (pcol_predict _ _ now _ c').
  - apply each_keeps; [|done]. intros e3 i Hin3 Hi%elem_of_seqZ. apply shift_left_row; [done | lia].
Qed.

Lemma newline_keeps screen now e : shaped (rows screen) (cols screen) e -> keeps_shape (rows screen) (cols screen) e (newline_carriage_return screen now e).
Proof using Type*.
  intros He. pose proof (cols_u16 screen) as Hw. pose proof (rows_u16 screen) as Hh. unfold newline_carriage_return.
  destruct (init_cursor_shaped screen e He) as (Hs & Hse & Hne). apply keeps_from with (init_cursor screen e); [done|].
  eapply keeps_bind with (I := with_cursor_at (rows screen) (cols screen)).
  { apply with_cursor_keeps; [done|]. intros c _ (Hr & Hb & Hc). split_and!; cbn; [done | done | lia..]. }
  intros e1 He1. destruct (the_cursor_at _ _ He1) as (c & -> & Hl & Hrow & Hbelow & Hcol). cbn [mbind result_bind].
  destruct (Z.eqb_spec (rows screen) 0) as [Hz|Hz]; cbn [orb].
  2: assert (wrap 16 (crow c + 1) = crow c + 1) as Hnext by (unfold wrap; rewrite Z.mod_small; lia); rewrite Hnext;
    destruct (Z.ltb_spec (crow c + 1) (rows screen)) as [Hlt|Hge].
  1,2: apply with_cursor_end; [done|]; intros c' Hl' (Hr' & Hb' & Hc'); rewrite Hl in Hl'; injection Hl' as <-; unfold move_ok; cbn;
    pose proof (Z.mod_pos_bound (crow c + 1) (2 ^ 16) ltac:(lia)); split_and!; [unfold wrap; lia | | lia..].
  + lia.
  + intros _. unfold wrap. rewrite Z.mod_small; lia.
  + pose proof (make_row_in_row (crow c) (cols screen) e1 He1 ltac:(lia) ltac:(lia)) as Hg.
    destruct (get_or_make_row (crow c) (cols screen) e1) as [e2 ridx]. destruct Hg as (([Hrs Hcs] & Hr & Hc') & Hse2).
    destruct (lookup_lt_is_Some_2 _ _ Hr) as [r Hr']. rewrite Hr'. cbn [expect mbind result_bind].
    apply keeps_ok; [|by etransitivity; [exact Hse2 | split]]. split; [|done]. cbn. apply Forall_insert; [done|].
    rewrite Forall_forall in Hrs. destruct (Hrs r (list_elem_of_lookup_2 _ _ _ Hr')) as [Hr1 Hr2 Hr3].
    split; cbn; [done | by rewrite length_fmap |]. intros i c1 Hi. rewrite list_lookup_fmap in Hi.
    destruct (cells r !! i) as [c0|] eqn:Hc0; [|done]. cbn in Hi. injection Hi as <-. exact (Hr3 i c0 Hc0).
Qed.

Lemma in_row_tentative {h} w ridx cs (b : bool) e :
  in_row h w ridx cs e -> in_row h w ridx cs (if b then become_tentative e else e) /\ same_settings e (if b then become_tentative e else e).
Proof using Type. intros (Hs & Hr & Hc). destruct b; [|done]. destruct (become_tentative_shaped w e Hs) as [Hs' Hse]. split; [split; [done|] | done]. unfold become_tentative. by case_bool_decide. Qed.

(** What is printed over a cell keeps its column. *)
Lemma printed_col epoch expiration now original look ch c :
  pcol (predict_cell epoch expiration now original c <| replacement := mkCell (Utf8.encode_utf8 ch) look |>) = pcol c.
Proof using Type. exact (pcol_predict epoch expiration now original c). Qed.

Lemma insert_char_keeps ch screen now e : with_cursor_at (rows screen) (cols screen) e -> keeps_shape (rows screen) (cols screen) e (insert_char ch screen now e).
Proof using Type*.
  intros He. pose proof (cols_u16 screen) as Hw. destruct (the_cursor_at _ _ He) as (c & Hcur & Hl & Hrow & Hbelow & Hcol).
  unfold insert_char. rewrite Hcur. cbn [mbind result_bind]. destruct (Z.leb_spec (rows screen) (crow c)); [by apply keeps_tentative, He|].
  destruct (Z.leb_spec (cols screen) (ccol c)); cbn [orb]; [by apply keeps_tentative, He|].
  pose proof (make_row_in_row (crow c) (cols screen) e He ltac:(lia) ltac:(lia)) as Hg.
  destruct (get_or_make_row (crow c) (cols screen) e) as [e1 ridx]. destruct Hg as (Hin1 & Hse1).
  apply keeps_from with e1; [done|]. destruct (in_row_tentative _ _ _ (cols screen <=? ccol c + 1) _ Hin1) as [Hin2 Hse2].
  set (e2 := if cols screen <=? ccol c + 1 then become_tentative e1 else e1) in *. apply keeps_from with e2; [done|].
  cbv zeta. eapply keeps_bind with (I := in_row (rows screen) (cols screen) ridx (cursors e)).
  { apply each_keeps; [|done]. intros e3 i Hin3 Hi%list_elem_of_In%in_rev%list_elem_of_In%elem_of_seqZ.
    apply shift_right_row; [done|]. destruct (predict_overwrite e2); lia. }
  intros e3 Hin3.
  assert (exists look, (if 0 <? ccol c then neighbour ← cell_of ridx (ccol c - 1) e3;
      Ok (if active (base neighbour) && negb (unknown neighbour) then rendition (replacement neighbour) else rendition (cell_at screen (crow c) (ccol c - 1)))
    else Ok (rendition (cell_at screen (crow c) (ccol c)))) = @Ok E _ look) as [look ->].
  { destruct (Z.ltb_spec 0 (ccol c)); [|by eexists]. pose proof Hin3 as (Hs3 & Hr3 & _).
    destruct (cell_of_shaped _ _ _ (ccol c - 1) Hs3 Hr3 ltac:(lia)) as [n ->]. by eexists. }
  cbn [mbind result_bind]. eapply keeps_bind with (I := in_row (rows screen) (cols screen) ridx (cursors e)).
  { apply with_cell_in_row; [done | lia |]. intros. apply printed_col. }
  intros e4 Hin4. eapply keeps_bind.
  { eapply with_cursor_in_row; [exact Hin4|]. done. }
  intros e5 (cs & (Hs5 & _ & <- & Hc5) & Hl5). rewrite Hl in Hl5. destruct (Z.ltb_spec (ccol c) (cols screen - 1)).
  - apply with_cursor_end; [done|]. intros c' Hc'' (Hr' & Hb' & _). rewrite Hl5 in Hc''. injection Hc'' as <-. split_and!; cbn; [done | done | lia..].
  - destruct (become_tentative_shaped _ _ Hs5) as [Hs6 Hse6]. apply keeps_from with (become_tentative e5); [done|]. by apply newline_keeps.
Qed.

Lemma print_char_keeps ch screen now e : shaped (rows screen) (cols screen) e -> keeps_shape (rows screen) (cols screen) e (print_char ch screen now e).
Proof using Type*.
  intros He. destruct (init_cursor_shaped screen e He) as (Hs & Hse & Hne). unfold print_char.
  apply keeps_from with (init_cursor screen e); [done|]. destruct (_ =? _); [by apply backspace_keeps|].
  destruct (_ || _); [by apply keeps_tentative | by apply insert_char_keeps].
Qed.

Lemma on_callback_keeps screen now e cb : shaped (rows screen) (cols screen) e -> keeps_shape (rows screen) (cols screen) e (on_callback screen now e cb).
Proof using Type*.
  intros He. pose proof (cols_u16 screen) as Hw. assert (shaped (rows screen) (cols screen) (e <| @in_escape P := false |>)) as He1 by by destruct He.
  assert (same_settings e (e <| @in_escape P := false |>)) as Hse1 by by split.
  destruct cb as [ch | byte | action | | |]; unfold on_callback.
  - eapply keeps_from; [exact Hse1 | by apply print_char_keeps].
  - destruct (become_tentative_shaped _ _ He) as [Hs Hse]. cbv zeta. apply keeps_from with (become_tentative e); [done|].
    destruct (_ =? _); [by apply newline_keeps | by apply keeps_ok].
  - cbv zeta. eapply keeps_from; [exact Hse1|]. destruct (init_cursor_shaped screen _ He1) as (Hs & Hse & Hne). assert (with_cursor_at (rows screen) (cols screen) (init_cursor screen (e <| @in_escape P := false |>))) as Hat by done.
    destruct (the_cursor_at _ _ Hat) as (c & Hcur & Hl & Hrow & Hbelow & Hcol). destruct (action =? 0x43).
    + apply keeps_from with (init_cursor screen (e <| @in_escape P := false |>)); [done|]. rewrite Hcur. cbn [mbind result_bind].
      destruct (Z.ltb_spec (wrap 16 (ccol c + 1)) (cols screen)); [|by apply keeps_ok].
      apply with_cursor_end; [done|]. intros c' Hc' _. rewrite Hl in Hc'. injection Hc' as <-. split; cbn; [done|]. split; [done|].
      pose proof (Z.mod_pos_bound (ccol c + 1) (2 ^ 16) ltac:(lia)). unfold wrap in *. lia.
    + destruct (action =? 0x44); [|by apply keeps_tentative].
      apply keeps_from with (init_cursor screen (e <| @in_escape P := false |>)); [done|]. rewrite Hcur. cbn [mbind result_bind].
      destruct (Z.ltb_spec 0 (ccol c)); [|by apply keeps_ok].
      apply with_cursor_end; [done|]. intros c' Hc' _. rewrite Hl in Hc'. injection Hc' as <-. split_and!; cbn; [done | done | lia..].
  - eapply keeps_from; [exact Hse1 | by apply keeps_tentative].
  - eapply keeps_from; [exact Hse1 | by apply keeps_tentative].
  - eapply keeps_from; [exact Hse1 | by apply keeps_tentative].
Qed.

Lemma on_callbacks_keep screen now cbs e : shaped (rows screen) (cols screen) e -> keeps_shape (rows screen) (cols screen) e (on_callbacks screen now cbs e).
Proof using Type*.
  revert e. induction cbs as [|cb cbs IH]; intros e He; [by apply keeps_ok|]. cbn [on_callbacks].
  eapply keeps_bind with (I := shaped (rows screen) (cols screen)); [by apply on_callback_keeps | exact IH].
Qed.
End Shape.

(** ** Judging *)

Section Judged.
Import ClientScreen Prediction.
Context {S : Type} `{ScreenBounds S} {P : Parser} {E : Type}.
Implicit Types e : PredictionEngine.
#[local] Existing Instance engine_eta.
#[local] Existing Instance same_settings_preorder.

(** What judging does to a cell: it stays where it is, with its base or inactive. *)
Definition cell_after (c c' : CellPrediction) : Prop := pcol c' = pcol c /\ (base c' = base c \/ active (base c') = false).
#[local] Instance cell_after_preorder : PreOrder cell_after.
Proof using Type.
  split; [by split; [|left]|]. intros c1 c2 c3 [H12 B12] [H23 B23]. split; [congruence|].
  destruct B23 as [-> | ?]; [|by right]. destruct B12 as [-> | ?]; [by left | by right].
Qed.
Definition row_after (r r' : OverlayRow) : Prop := row_num r' = row_num r /\ Forall2 cell_after (cells r) (cells r').
#[local] Instance row_after_preorder : PreOrder row_after.
Proof using Type.
  split; [by split|]. intros r1 r2 r3 [H12 C12] [H23 C23]. split; [congruence|]. by transitivity (cells r2).
Qed.

Lemma row_after_ok {h} w r r' : row_after r r' -> row_ok h w r -> row_ok h w r'.
Proof using Type.
  intros [Hn Hc] [Hr Hl Hcols]. split; [by rewrite Hn | by rewrite <- (Forall2_length _ _ _ Hc)|].
  intros i c Hi. destruct (Forall2_lookup_r _ _ _ _ _ Hc Hi) as (c0 & Hc0 & -> & _). by apply Hcols.
Qed.

(** Waiting for its answer, or no guess at all. *)
Definition settled (screen : S) (late : Z) (row : Z) (c : CellPrediction) : Prop :=
  active (base c) = true -> row < rows screen /\ pcol c < cols screen /\ late < expiration_frame (base c).
Lemma settled_after screen late row c c' : cell_after c c' -> settled screen late row c -> settled screen late row c'.
Proof using Type. intros [Hp [Hb | Hb]] Hs Ha; [rewrite Hp, Hb in *; by apply Hs | congruence]. Qed.

Lemma Forall2_insert_one {A} (R : A -> A -> Prop) `{!Reflexive R} l i x y :
  l !! i = Some x -> R x y -> Forall2 R l (<[i := y]> l).
Proof using Type. intros Hi Hxy. rewrite <- (list_insert_id l i x Hi) at 1. apply Forall2_insert; [reflexivity | done]. Qed.

Lemma Forall2_map_self {A} (R : A -> A -> Prop) f l : (forall x, R x (f x)) -> Forall2 R l (f <$> l).
Proof using Type. intros Hf. induction l; constructor; auto. Qed.

Record judged (h w : Z) e e' : Prop := {
  jd_rows : Forall2 row_after (overlays e) (overlays e');
  jd_cursors : Forall (move_ok h w) (cursors e');
  jd_settings : same_settings e e';
}.

Lemma judged_refl {h} w e : shaped h w e -> judged h w e e.
Proof using Type. intros [Hr Hc]. by split. Qed.
Lemma judged_trans {h} w e1 e2 e3 : judged h w e1 e2 -> judged h w e2 e3 -> judged h w e1 e3.
Proof using Type. intros [R12 C12 S12] [R23 C23 S23]. split; [by transitivity (overlays e2) | done | by transitivity e2]. Qed.
Lemma judged_shaped {h} w e e' : judged h w e e' -> shaped h w e -> shaped h w e'.
Proof using Type.
  intros [Hr Hc _] [Hrs _]. split; [|done]. rewrite !Forall_lookup in *. intros i r' Hi.
  destruct (Forall2_lookup_r _ _ _ _ _ Hr Hi) as (r & Hr0 & Hafter). by eapply row_after_ok, Hrs.
Qed.

Lemma reset_after c : cell_after c (reset_cell c) /\ active (base (reset_cell c)) = false.
Proof using Type. split; [split; [done | by right] | done]. Qed.

(** A cell changed in place. *)
Lemma with_cell_judged {h} w e ri ci r c f :
  shaped h w e -> overlays e !! ri = Some r -> cells r !! ci = Some c -> cell_after c (f c) ->
  exists e', @with_cell _ E ri (Z.of_nat ci) f e = Ok e' /\ judged h w e e' /\
    overlays e' !! ri = Some (mkRow (row_num r) (<[ci := f c]> (cells r))).
Proof using Type.
  intros [_ Hcs] Hr Hc Hf. unfold with_cell. rewrite Hr. cbn [expect mbind result_bind]. rewrite Nat2Z.id, Hc. cbn [expect mbind result_bind].
  eexists. split; [reflexivity|]. split; [split; [cbn | done | by split]|].
  - eapply Forall2_insert_one; [exact _ | exact Hr |]. split; [done|]. cbn. by eapply Forall2_insert_one; [exact _ | exact Hc |].
  - cbn. apply list_lookup_insert_eq. by eapply lookup_lt_Some.
Qed.

Lemma take_credit_judged {h} w now c e : shaped h w e -> judged h w e (take_credit now c e) /\ overlays (take_credit now c e) = overlays e.
Proof using Type.
  intros [Hr Hc]. unfold take_credit. split; [|by repeat case_match].
  destruct (Z.ltb_spec (confirmed_epoch e) (tentative_until_epoch (base c))); case_match; (split; [done | done | split; [done.. | cbn; lia]]).
Qed.
Lemma notice_glitch_judged {h} w now c e : shaped h w e -> judged h w e (notice_glitch now c e) /\ overlays (notice_glitch now c e) = overlays e.
Proof using Type.
  intros [Hr Hc]. unfold notice_glitch. split; [|by repeat case_match].
  repeat case_match; (split; [done | done | by split]).
Qed.

Lemma recolour_judged {h} w e ri ci r f :
  shaped h w e -> overlays e !! ri = Some r -> (forall c, cell_after c (f c)) ->
  judged h w e (e <| @overlays P := <[ri := mkRow (row_num r) (take ci (cells r) ++ (f <$> drop ci (cells r)))]> (overlays e) |>).
Proof using Type.
  intros [_ Hc] Hr Hf. split; [cbn | done | by split]. eapply Forall2_insert_one; [exact _ | exact Hr |]. split; [done|]. cbn.
  rewrite <- (take_drop ci (cells r)) at 1. apply Forall2_app; [done|]. by apply Forall2_map_self.
Qed.

Lemma kill_epoch_judged epoch screen e : shaped (rows screen) (cols screen) e -> judged (rows screen) (cols screen) e (kill_epoch epoch screen e).
Proof using Type*.
  intros [Hr Hc]. unfold kill_epoch. destruct (cursor screen) as [row col] eqn:Hcur.
  destruct (cursor_inside screen) as [Hrow Hcol]. rewrite Hcur in Hrow, Hcol. cbn in Hrow, Hcol.
  assert (Forall2 row_after (overlays e) ((fun r => mkRow (row_num r) ((fun c => if tentative (Z.max 0 (epoch - 1)) (base c) then reset_cell c else c) <$> cells r)) <$> overlays e)) as Hafter.
  { apply Forall2_map_self. intros r. split; [done|]. cbn. apply Forall2_map_self. intros c.
    destruct (tentative _ _); [apply reset_after | reflexivity]. }
  assert (Forall (move_ok (rows screen) (cols screen)) (filter (fun c => tentative (Z.max 0 (epoch - 1)) (cbase c) = false) (cursors e) ++
     [new_move (next_frame e) row col (prediction_epoch e) <| cbase := cbase (new_move (next_frame e) row col (prediction_epoch e)) <| active := true |> |>])) as Hmoves.
  { apply Forall_app. split; [rewrite Forall_forall in Hc |- *; intros c [_ Hin]%list_elem_of_filter; by apply Hc|]. constructor; [done | constructor]. }
  unfold become_tentative. case_bool_decide; (split; [exact Hafter | exact Hmoves | by split]).
Qed.

Lemma reset_empty e : overlays (reset e) = [] /\ cursors (reset e) = [] /\ same_settings e (reset e).
Proof using Type. unfold reset, become_tentative. by case_bool_decide. Qed.

Definition settled_row screen late (r : OverlayRow) : Prop := row_num r < rows screen /\ Forall (settled screen late (row_num r)) (cells r).
Lemma settled_row_after screen late r r' : row_after r r' -> settled_row screen late r -> settled_row screen late r'.
Proof using Type.
  intros [Hn Hc] [Hr Hs]. rewrite <- Hn in Hr. split; [done|]. rewrite !Forall_lookup in *. intros i c' Hi.
  destruct (Forall2_lookup_r _ _ _ _ _ Hc Hi) as (c & Hci & Ha). rewrite Hn. eapply settled_after, Hs; done.
Qed.

Lemma validity_settled screen row late c :
  cell_validity screen row late c = Pending \/ cell_validity screen row late c = Inactive -> settled screen late row c.
Proof using Type.
  unfold cell_validity, settled. intros Hv Ha. rewrite Ha in Hv. cbn [negb] in Hv.
  destruct (Z.leb_spec (rows screen) row); [by destruct Hv|]. destruct (Z.leb_spec (cols screen) (pcol c)); [by destruct Hv|]. cbn [orb] in Hv.
  destruct (Z.ltb_spec late (expiration_frame (base c))); [done|]. exfalso. destruct Hv as [Hv | Hv]; by repeat case_match.
Qed.

Definition recoloured (actual : Rendition) (ri ci : nat) (r : OverlayRow) e : PredictionEngine :=
  e <| @overlays P := <[ri := mkRow (row_num r) (take ci (cells r) ++
    ((fun c : CellPrediction => c <| replacement := mkCell (contents (replacement c)) actual |>) <$> drop ci (cells r)))]>
    (overlays e) |>.

Lemma killed_row epoch screen e ri r :
  overlays e !! ri = Some r ->
  overlays (kill_epoch epoch screen e) !! ri =
    Some (mkRow (row_num r) ((fun c => if tentative (Z.max 0 (epoch - 1)) (base c) then reset_cell c else c) <$> cells r)).
Proof using Type.
  intros Hr. unfold kill_epoch. destruct (cursor screen) as [row col]. unfold become_tentative.
  case_bool_decide; cbn; by rewrite list_lookup_fmap, Hr.
Qed.

(** Judging one cell settles it, or throws every guess away. *)
Lemma judge_cell_spec screen now ri ci e r c :
  shaped (rows screen) (cols screen) e -> 0 <= confirmed_epoch e -> overlays e !! ri = Some r -> cells r !! ci = Some c ->
  exists e' (stop : bool), @judge_cell _ _ _ E screen now ri ci e = Ok (e', stop) /\ same_settings e e' /\
    if stop then overlays e' = [] /\ cursors e' = []
    else judged (rows screen) (cols screen) e e' /\
      exists r' c', overlays e' !! ri = Some r' /\ cells r' !! ci = Some c' /\ settled screen (local_frame_late_acked e) (row_num r) c'.
Proof using Type*.
  intros He Hconf Hr Hc. unfold judge_cell. rewrite Hr. cbn [expect mbind result_bind]. rewrite Hc. cbn [expect mbind result_bind].
  assert (forall e1 r1 c1, judged (rows screen) (cols screen) e e1 -> overlays e1 !! ri = Some r1 -> cells r1 !! ci = Some c1 ->
    exists e', @with_cell _ E ri (Z.of_nat ci) reset_cell e1 = Ok e' /\ judged (rows screen) (cols screen) e e' /\
      exists r' c', overlays e' !! ri = Some r' /\ cells r' !! ci = Some c' /\ settled screen (local_frame_late_acked e) (row_num r) c') as Hreset.
  { intros e1 r1 c1 Hj Hr1 Hc1. destruct (with_cell_judged (h:=rows screen) (cols screen) e1 ri ci r1 c1 reset_cell) as (e' & He' & Hj' & Hr');
      [by eapply judged_shaped | done | done | apply reset_after |].
    exists e'. split_and!; [done | by eapply judged_trans|]. eexists _, (reset_cell c1). split; [exact Hr'|]. cbn.
    split; [by apply list_lookup_insert_eq; eapply lookup_lt_Some | done]. }
  pose proof (judged_refl _ _ He) as Hrefl.
  destruct (cell_validity screen (row_num r) (local_frame_late_acked e) c) eqn:Hv.
  - destruct (notice_glitch_judged (h:=rows screen) (cols screen) now c e He) as [Hj Ho]. exists (notice_glitch now c e), false.
    split_and!; [done | apply Hj | done |]. exists r, c. rewrite Ho. split_and!; [done | done |]. apply validity_settled. by left.
  - destruct (take_credit_judged (h:=rows screen) (cols screen) now c e He) as [Hj1 Ho1]. cbv zeta. set (e1 := take_credit now c e) in *.
    assert (shaped (rows screen) (cols screen) e1) as He1 by by eapply judged_shaped. rewrite <- Ho1 in Hr.
    edestruct (Hreset (recoloured (rendition (cell_at screen (row_num r) (pcol c))) ri ci r e1)) as (e' & He' & Hj & Hs).
    + eapply judged_trans; [exact Hj1 | apply recolour_judged; [done | done | by intros c1; split; [|left]]].
    + cbn. by apply list_lookup_insert_eq, lookup_lt_Some with r.
    + cbn. rewrite lookup_app_r, length_take, Nat.min_l by (rewrite ?length_take; apply lookup_lt_Some in Hc; lia).
      rewrite Nat.sub_diag, list_lookup_fmap, lookup_drop, Nat.add_0_r, Hc. done.
    + unfold recoloured in He'. rewrite He'. exists e', false. split_and!; [done | apply Hj | done | done].
  - destruct (Hreset e r c Hrefl Hr Hc) as (e' & -> & Hj & Hs). exists e', false. split_and!; [done | apply Hj | done | done].
  - case_bool_decide.
    + destruct (Hreset e r c Hrefl Hr Hc) as (e' & -> & Hj & Hs). exists e', false. split_and!; [done | apply Hj | done | done].
    + destruct (tentative _ _) eqn:Ht.
      * exists (kill_epoch (tentative_until_epoch (base c)) screen e), false. pose proof (kill_epoch_judged (tentative_until_epoch (base c)) screen e He) as Hj.
        split_and!; [done | apply Hj | done |].
        eexists _, (reset_cell c). split; [by apply killed_row|]. split; [|done]. cbn. rewrite list_lookup_fmap, Hc. cbn.
        unfold tentative in *. apply Z.ltb_lt in Ht. by destruct (Z.ltb_spec (Z.max 0 (tentative_until_epoch (base c) - 1)) (tentative_until_epoch (base c))); [|lia].
      * exists (reset e), true. destruct (reset_empty e) as (? & ? & ?). done.
  - exists e, false. split_and!; [done | done | done |]. exists r, c. split_and!; [done | done |]. apply validity_settled. by right.
Qed.

Lemma judge_row_spec fuel screen now ri ci e r :
  shaped (rows screen) (cols screen) e -> 0 <= confirmed_epoch e -> overlays e !! ri = Some r -> (ci <= length (cells r) < fuel + ci)%nat ->
  Forall (settled screen (local_frame_late_acked e) (row_num r)) (take ci (cells r)) ->
  exists e' (stop : bool), @judge_row _ _ _ E fuel screen now ri ci e = Ok (e', stop) /\ same_settings e e' /\
    if stop then overlays e' = [] /\ cursors e' = []
    else judged (rows screen) (cols screen) e e' /\
      exists r', overlays e' !! ri = Some r' /\ row_num r' = row_num r /\ Forall (settled screen (local_frame_late_acked e) (row_num r)) (cells r').
Proof using Type*.
  revert ci e r. induction fuel as [|fuel IH]; intros ci e r He Hconf Hr Hfuel Hsettled.
  { lia. }
  cbn [judge_row]. rewrite Hr. cbn [expect mbind result_bind]. destruct (Nat.ltb_spec ci (length (cells r))) as [Hlt | Hge].
  - destruct (lookup_lt_is_Some_2 _ _ Hlt) as [c Hc]. destruct (judge_cell_spec screen now ri ci e r c He Hconf Hr Hc) as (e1 & stop & -> & Hse & Hstop).
    cbn [mbind result_bind]. destruct stop; [by exists e1, true|]. destruct Hstop as (Hj & r1 & c1 & Hr1 & Hc1 & Hset).
    destruct (Forall2_lookup_l _ _ _ _ _ (jd_rows _ _ _ _ Hj) Hr) as (r1' & Hr1' & Hn & Hcs).
    assert (r1' = r1) as -> by congruence. rewrite <- (se_late _ _ Hse), <- Hn in *.
    destruct (IH (Datatypes.S ci) e1 r1) as (e2 & stop & Heq & Hse2 & Hstop2).
    + by eapply judged_shaped.
    + etransitivity; [exact Hconf | apply Hse].
    + done.
    + rewrite <- (Forall2_length _ _ _ Hcs). lia.
    + rewrite (take_S_r _ _ c1) by done. apply Forall_app. split; [|by constructor].
      rewrite !Forall_lookup in *. intros i c2 Hi. apply lookup_take_Some in Hi as [Hi Hlti].
      destruct (Forall2_lookup_r _ _ _ _ _ Hcs Hi) as (c0 & Hc0 & Ha). eapply settled_after, Hsettled; [exact Ha|]. by rewrite lookup_take_lt.
    + exists e2, stop. split_and!; [done | by transitivity e1 |]. destruct stop; [done|]. destruct Hstop2 as (Hj2 & Hr2).
      split; [by eapply judged_trans | done].
  - exists e, false. split_and!; [done | done | by apply judged_refl |]. exists r. rewrite take_ge in Hsettled by done. done.
Qed.

(** Every guess left waits for its answer. *)
Definition all_settled screen e : Prop := Forall (settled_row screen (local_frame_late_acked e)) (overlays e).

Lemma judge_rows_spec fuel screen now ri e :
  shaped (rows screen) (cols screen) e -> 0 <= confirmed_epoch e -> (ri <= length (overlays e) < fuel + ri)%nat ->
  Forall (settled_row screen (local_frame_late_acked e)) (take ri (overlays e)) ->
  exists e' (stop : bool), @judge_rows _ _ _ E fuel screen now ri e = Ok (e', stop) /\ same_settings e e' /\
    if stop then overlays e' = [] /\ cursors e' = [] else shaped (rows screen) (cols screen) e' /\ all_settled screen e'.
Proof using Type*.
  revert ri e. induction fuel as [|fuel IH]; intros ri e He Hconf Hfuel Hsettled; [lia|].
  cbn [judge_rows]. destruct (Nat.ltb_spec ri (length (overlays e))) as [Hlt | Hge].
  2: { exists e, false. split_and!; [done | done | done |]. unfold all_settled. by rewrite take_ge in Hsettled by done. }
  destruct (lookup_lt_is_Some_2 _ _ Hlt) as [r Hr]. rewrite Hr. cbn [expect mbind result_bind]. destruct (Z.leb_spec (rows screen) (row_num r)) as [Hout | Hin].
  - set (e1 := e <| @overlays P := remove_at ri (overlays e) |>).
    assert (length (overlays e1) = length (overlays e) - 1)%nat as Hlen.
    { cbn. unfold remove_at. rewrite length_app, length_take, length_drop. lia. }
    destruct (IH ri e1) as (e2 & stop & -> & Hse & Hstop).
    + destruct He as [Hrs Hcs]. split; [|done]. cbn. unfold remove_at. apply Forall_app. split; [by apply Forall_take | by apply Forall_drop].
    + done.
    + rewrite Hlen. lia.
    + cbn. unfold remove_at. rewrite take_app_le by (rewrite length_take; lia). by rewrite take_take, Nat.min_id.
    + exists e2, stop. split_and!; [done | | done]. transitivity e1; [by split | done].
  - destruct (judge_row_spec (Datatypes.S (length (cells r))) screen now ri 0 e r He Hconf Hr ltac:(lia) ltac:(constructor)) as (e1 & stop & -> & Hse & Hstop).
    cbn [mbind result_bind]. destruct stop; [by exists e1, true|]. destruct Hstop as (Hj & r1 & Hr1 & Hn1 & Hs1).
    destruct (IH (Datatypes.S ri) e1) as (e2 & stop & -> & Hse2 & Hstop2).
    + by eapply judged_shaped.
    + etransitivity; [exact Hconf | apply Hse].
    + rewrite <- (Forall2_length _ _ _ (jd_rows _ _ _ _ Hj)). lia.
    + rewrite (take_S_r _ _ r1) by done. rewrite (se_late _ _ Hse). apply Forall_app. split; [|constructor; [|done]; split; [lia | by rewrite Hn1]].
      rewrite !Forall_lookup in *. intros i r2 Hi. apply lookup_take_Some in Hi as [Hi Hlti].
      destruct (Forall2_lookup_r _ _ _ _ _ (jd_rows _ _ _ _ Hj) Hi) as (r0 & Hr0 & Ha). eapply settled_row_after; [exact Ha|].
      apply (Hsettled i). by rewrite lookup_take_lt.
    + exists e2, stop. split_and!; [done | by transitivity e1 | done].
Qed.

Definition engine_ok e : Prop := shaped (last_height e) (last_width e) e /\ 0 <= confirmed_epoch e.

(** An engine judged against [screen]: as wide, and every guess left waits for its answer. *)
Record judged_by (screen : S) e : Prop := {
  jb_ok : engine_ok e;
  jb_size : last_height e = rows screen /\ last_width e = cols screen;
  jb_rows : all_settled screen e;
  jb_cursors : Forall (fun c => cursor_validity screen (local_frame_late_acked e) c = Pending) (cursors e);
}.

Lemma triggers_same e :
  same_settings e (update_triggers e) /\ overlays (update_triggers e) = overlays e /\ cursors (update_triggers e) = cursors e.
Proof using Type. unfold update_triggers. cbv zeta. repeat case_match; split_and!; by try split. Qed.

Lemma judge_cursor_spec screen e :
  shaped (rows screen) (cols screen) e -> 0 <= confirmed_epoch e -> last_height e = rows screen /\ last_width e = cols screen -> all_settled screen e ->
  judged_by screen (judge_cursor screen e) /\ same_settings e (judge_cursor screen e).
Proof using Type.
  intros [Hrs Hcs] Hconf [Hh Hw] Hsettled.
  assert (forall cs, Forall (move_ok (rows screen) (cols screen)) cs ->
    let e' := e <| @cursors P := filter (fun c => cursor_validity screen (local_frame_late_acked e) c = Pending) cs |> in
    judged_by screen e' /\ same_settings e e') as Hpending.
  { intros cs Hok e'. split; [|by split]. split; [split; [split; cbn; [by rewrite Hh, Hw|] | done] | done | done |].
    - rewrite Hh, Hw, Forall_forall in *. intros c [_ Hin]%list_elem_of_filter. by apply Hok.
    - rewrite Forall_forall. by intros c [Hp _]%list_elem_of_filter. }
  assert (judged_by screen (reset e) /\ same_settings e (reset e)) as Hreset.
  { destruct (reset_empty e) as (Ho & Hc & Hse). split; [|done]. split; [split|..].
    - split; rewrite ?Ho, ?Hc; constructor.
    - etransitivity; [exact Hconf | apply Hse].
    - by rewrite (se_height _ _ Hse), (se_width _ _ Hse).
    - unfold all_settled. by rewrite Ho.
    - by rewrite Hc. }
  unfold judge_cursor. destruct (last (cursors e)) as [c|]; [|by apply Hpending].
  case_bool_decide; [|by apply Hpending]. case_bool_decide; [|done]. by apply (Hpending []).
Qed.

(** Judging ends, and leaves nothing the screen has answered. *)
Lemma cull_spec screen now e :
  engine_ok e -> display_preference e <> Never ->
  exists e', @cull _ _ _ E screen now e = Ok e' /\ judged_by screen e' /\ display_preference e' = display_preference e /\
    local_frame_late_acked e' = local_frame_late_acked e /\ local_frame_sent e' = local_frame_sent e.
Proof using Type*.
  intros [Hs Hconf] Hn. unfold cull. rewrite bool_decide_eq_false_2 by done. cbv zeta.
  set (e1 := if negb (last_height e =? rows screen) || negb (last_width e =? cols screen) then _ else e).
  assert (shaped (rows screen) (cols screen) e1 /\ (last_height e1 = rows screen /\ last_width e1 = cols screen) /\ 0 <= confirmed_epoch e1 /\ display_preference e1 = display_preference e /\
    local_frame_late_acked e1 = local_frame_late_acked e /\ local_frame_sent e1 = local_frame_sent e) as (Hs1 & Hw1 & Hconf1 & Hp1 & Hl1 & Hf1).
  { subst e1. destruct (Z.eqb_spec (last_height e) (rows screen)) as [Hh|], (Z.eqb_spec (last_width e) (cols screen)) as [Hw|]; cbn [negb orb].
    1: by rewrite <- Hh, <- Hw.
    all: destruct (reset_empty (e <| @last_height P := rows screen |> <| @last_width P := cols screen |>)) as (Ho & Hc & [Sp Sw Sh Ss Sl Sc]); cbn in *;
      split_and!; [split; rewrite ?Ho, ?Hc; constructor | done | done | lia | done | done | done]. }
  destruct (triggers_same e1) as (Hse2 & Ho2 & Hc2). set (e2 := update_triggers e1) in *.
  assert (shaped (rows screen) (cols screen) e2) as Hs2 by (destruct Hs1; split; by rewrite ?Ho2, ?Hc2).
  destruct (judge_rows_spec (Datatypes.S (length (overlays e2))) screen now 0 e2) as (e3 & stop & -> & Hse3 & Hstop); [done | | lia | constructor |].
  { etransitivity; [exact Hconf1 | apply Hse2]. }
  cbn [mbind result_bind]. assert (same_settings e1 e3) as Hse by by transitivity e2.
  assert (0 <= confirmed_epoch e3) as Hconf3 by (etransitivity; [exact Hconf1 | apply Hse]).
  assert (last_height e3 = rows screen /\ last_width e3 = cols screen) as Hw3 by by rewrite (se_height _ _ Hse), (se_width _ _ Hse).
  assert (exists e4, (if stop then e3 else judge_cursor screen e3) = e4 /\ judged_by screen e4 /\ same_settings e3 e4) as (e4 & -> & Hj4 & Hse4).
  { destruct stop.
    - destruct Hstop as [Ho Hc]. exists e3. split_and!; [done | | done]. split; [split; [split; rewrite ?Ho, ?Hc; constructor | done] | done | |].
      + unfold all_settled. by rewrite Ho.
      + by rewrite Hc.
    - destruct Hstop. eexists. split; [done|]. by apply judge_cursor_spec. }
  exists e4. destruct Hse, Hse4. split_and!; [done | done | congruence | congruence | congruence].
Qed.

Lemma new_user_byte_spec b screen now e : engine_ok e -> exists e', @new_user_byte _ _ _ E b screen now e = Ok e' /\ engine_ok e'.
Proof using Type*.
  intros He. unfold new_user_byte. case_bool_decide as Hn; [by exists e|].
  set (e0 := if bool_decide _ then _ else e).
  assert (engine_ok e0 /\ display_preference e0 = display_preference e) as [He0 Hp0].
  { subst e0. case_bool_decide; [|done]. split; [|done]. destruct He as [[] ?]. by split. }
  destruct (cull_spec screen now e0 He0) as (e1 & -> & [He1 Hw1 _ _] & _); [congruence|]. cbn [mbind result_bind].
  cbv zeta. set (b' := if _ && _ then 0x5b else b). clearbody b'.
  assert (forall e2 (m : result E PredictionEngine), engine_ok e2 -> last_height e2 = rows screen /\ last_width e2 = cols screen -> keeps_shape (rows screen) (cols screen) e2 m -> exists e', m = Ok e' /\ engine_ok e') as Hend.
  { intros e2 m [_ Hconf] [Hh Hw] (e' & -> & Hs & Hse). exists e'. split; [done|]. split; [by rewrite (se_height _ _ Hse), (se_width _ _ Hse), Hh, Hw | etransitivity; [exact Hconf | apply Hse]]. }
  assert (engine_ok (e1 <| @last_byte P := b' |>)) as He2 by (destruct He1 as [[] ?]; by split).
  destruct (_ && _).
  - eapply Hend; [exact He2 | done |]. apply print_char_keeps. rewrite <- (proj1 Hw1), <- (proj2 Hw1). apply He2.
  - set (e3 := if b' =? 0x1b then _ else _).
    assert (engine_ok e3 /\ (last_height e3 = rows screen /\ last_width e3 = cols screen)) as [He3 Hw3].
    { subst e3. destruct (_ =? _); [|done]. destruct He2 as [[] ?]. by split. }
    destruct (parse _ _) as [p cbs].
    assert (engine_ok (e3 <| @input_parser P := None |>)) as He4 by (destruct He3 as [[] ?]; by split).
    destruct (Hend _ (on_callbacks screen now cbs (e3 <| @input_parser P := None |>)) He4 Hw3) as (e5 & -> & He5).
    { apply on_callbacks_keep. rewrite <- (proj1 Hw3), <- (proj2 Hw3). apply He4. }
    cbn [mbind result_bind]. eexists. split; [done|]. destruct He5 as [[] ?]. by split.
Qed.

Lemma new_user_bytes_spec l screen now e : engine_ok e -> exists e', @new_user_bytes _ _ _ E l screen now e = Ok e' /\ engine_ok e'.
Proof using Type*.
  revert e. induction l as [|b l IH]; intros e He; [by exists e|]. cbn [new_user_bytes].
  destruct (new_user_byte_spec (b2z b) screen now e He) as (e1 & -> & He1). by apply IH.
Qed.

(** What the session does with its engine. *)
Inductive event :=
  | Typed (l : bytes) (screen : S) (now : Z) | Culled (screen : S) (now : Z) | Forgotten
  | Preferred (p : DisplayPreference) | Overwriting (b : bool)
  | Sent (n : Z) | Acked (n : Z) | LateAcked (n : Z) | Paced (n : Z).
Definition happen (ev : event) e : result E PredictionEngine :=
  match ev with
  | Typed l screen now => new_user_bytes l screen now e
  | Culled screen now => cull screen now e
  | Forgotten => Ok (reset e)
  | Preferred p => Ok (set_display_preference p e)
  | Overwriting b => Ok (set_predict_overwrite b e)
  | Sent n => Ok (set_local_frame_sent n e)
  | Acked n => Ok (set_local_frame_acked n e)
  | LateAcked n => Ok (set_local_frame_late_acked n e)
  | Paced n => Ok (set_send_interval n e)
  end.
Fixpoint history (evs : list event) e : result E PredictionEngine :=
  match evs with [] => Ok e | ev :: evs => e ← happen ev e; history evs e end.

Lemma happen_spec ev e : engine_ok e -> exists e', happen ev e = Ok e' /\ engine_ok e'.
Proof using Type*.
  intros He. destruct ev; cbn [happen]; try (eexists; split; [reflexivity|]; destruct He as [[] ?]; by split).
  - by apply new_user_bytes_spec.
  - destruct (decide (display_preference e = Never)) as [Hn | Hn].
    + exists e. unfold cull. by rewrite bool_decide_eq_true_2.
    + destruct (cull_spec screen now e He Hn) as (e' & -> & [Hok _ _ _] & _). by exists e'.
  - exists (reset e). split; [done|]. destruct (reset_empty e) as (Ho & Hc & Hse). destruct He as [_ Hconf].
    split; [split; rewrite ?Ho, ?Hc; constructor | etransitivity; [exact Hconf | apply Hse]].
Qed.
Lemma history_spec evs e : engine_ok e -> exists e', history evs e = Ok e' /\ engine_ok e'.
Proof using Type*.
  revert e. induction evs as [|ev evs IH]; intros e He; [by exists e|]. cbn [history].
  destruct (happen_spec ev e He) as (e1 & -> & He1). by apply IH.
Qed.
Lemma new_engine_ok : engine_ok new.
Proof using Type. by split; [split; constructor|]. Qed.

Lemma elem_of_concat_map {A B} (f : A -> list B) l x : x ∈ concat (f <$> l) <-> exists a, a ∈ l /\ x ∈ f a.
Proof using Type.
  rewrite list_elem_of_In, in_concat. split.
  - intros (l' & Hl%list_elem_of_In & Hx%list_elem_of_In). apply list_elem_of_fmap in Hl as (a & -> & Ha). by exists a.
  - intros (a & Ha & Hx). exists (f a). rewrite <- !list_elem_of_In. split; [|done]. by apply list_elem_of_fmap_2.
Qed.

Definition in_screen (screen : S) (p : Z * Z) : Prop := 0 <= p.1 < rows screen /\ 0 <= p.2 < cols screen.
(** A guess whose epoch the server has confirmed and whose answer is still out. *)
Definition confirmed_unanswered e (c : Conditional) : Prop :=
  active c = true /\ tentative_until_epoch c <= confirmed_epoch e /\ local_frame_late_acked e < expiration_frame c.

(** What [draw_cell] paints. *)
Lemma drawn_cell screen e row0 c o :
  o ∈ draw_cell screen e row0 c ->
  row o = row0 /\ col o = pcol c /\ pcol c < cols screen /\ active (base c) = true /\ tentative_until_epoch (base c) <= confirmed_epoch e /\
  (cell o <> cell_at screen row0 (pcol c) \/ marked o = true).
Proof using Type.
  unfold draw_cell. destruct (active (base c)); [|by intros ?%elem_of_nil].
  destruct (Z.leb_spec (cols screen) (pcol c)); [by intros ?%elem_of_nil|].
  destruct (tentative (confirmed_epoch e) (base c)) eqn:Ht; [by intros ?%elem_of_nil|]. cbn [negb orb]. cbv zeta.
  unfold tentative in Ht. apply Z.ltb_ge in Ht. destruct (unknown c).
  - destruct (_ && _); [|by intros ?%elem_of_nil]. intros ->%list_elem_of_singleton. cbn. split_and!; [done..|]. by right.
  - case_bool_decide; [by intros ?%elem_of_nil|]. intros ->%list_elem_of_singleton. cbn. split_and!; [done..|]. left. congruence.
Qed.

Lemma overlay_cells screen e o :
  o ∈ (overlay screen e).1 ->
  exists r c, r ∈ overlays e /\ c ∈ cells r /\ row_num r < rows screen /\ o ∈ draw_cell screen e (row_num r) c.
Proof using Type.
  unfold overlay. destruct (showing e); cbn [negb]; [|by intros ?%elem_of_nil]. destruct (_ || _); [by intros ?%elem_of_nil|]. cbn [fst].
  intros (r & Hr & Ho)%elem_of_concat_map. destruct (Z.leb_spec (rows screen) (row_num r)); [by apply elem_of_nil in Ho|].
  apply elem_of_concat_map in Ho as (c & Hc & Ho). by exists r, c.
Qed.

Lemma overlay_cursor screen e p :
  (overlay screen e).2 = Some p ->
  exists c, c ∈ cursors e /\ p = (crow c, ccol c) /\ tentative_until_epoch (cbase c) <= confirmed_epoch e.
Proof using Type.
  unfold overlay. destruct (showing e); cbn [negb]; [|done]. destruct (_ || _); [done|]. cbn [snd].
  destruct (List.find _ _) as [c|] eqn:Hf; [|done]. cbn [mbind option_bind]. apply find_some in Hf as [Hin Hc].
  case_match; [|done]. intros [= <-]. exists c. rewrite list_elem_of_In, in_rev. split_and!; [done | done |].
  apply andb_true_iff in Hc as [_ Ht]. unfold tentative in Ht. apply negb_true_iff, Z.ltb_ge in Ht. done.
Qed.

(** After judging, what is shown is on the screen, of a confirmed epoch and unanswered. *)
Lemma shown_after_judging screen e :
  judged_by screen e ->
  (forall o, o ∈ (overlay screen e).1 ->
    in_screen screen (row o, col o) /\ (cell o <> cell_at screen (row o) (col o) \/ marked o = true) /\
    exists r c, r ∈ overlays e /\ c ∈ cells r /\ row_num r = row o /\ pcol c = col o /\ confirmed_unanswered e (base c)) /\
  (forall p, (overlay screen e).2 = Some p ->
    in_screen screen p /\ exists c, c ∈ cursors e /\ p = (crow c, ccol c) /\ confirmed_unanswered e (cbase c)).
Proof using Type.
  intros [[[Hrs Hcs] _] [Hh Hw] Hsettled Hpending]. rewrite Hh, Hw in *. unfold all_settled in Hsettled. rewrite Forall_forall in Hrs. rewrite Forall_forall in Hcs. rewrite Forall_forall in Hsettled. rewrite Forall_forall in Hpending. split.
  - intros o (r & c & Hr & Hc & Hlt & Hd)%overlay_cells. apply drawn_cell in Hd as (Hro & Hco & Hcol & Ha & Ht & Hdiff).
    pose proof (Hrs r Hr) as [Hr0 _ Hcols]. destruct (Hsettled r Hr) as [_ Hset]. rewrite Forall_forall in Hset.
    destruct (Hset c Hc Ha) as (_ & _ & Hexp). pose proof Hc as [i Hi]%list_elem_of_lookup. specialize (Hcols i c Hi).
    rewrite Hro, Hco. split_and!; [split; cbn; lia | done |]. exists r, c. by split_and!.
  - intros p (c & Hc & -> & Ht)%overlay_cursor. destruct (Hcs c Hc) as (Hr0 & _ & Hc0). specialize (Hpending c Hc).
    unfold cursor_validity in Hpending. destruct (active (cbase c)) eqn:Ha; cbn [negb] in Hpending; [|done].
    destruct (Z.leb_spec (rows screen) (crow c)); [done|]. destruct (Z.leb_spec (cols screen) (ccol c)); [done|]. cbn [orb] in Hpending.
    destruct (Z.leb_spec (expiration_frame (cbase c)) (local_frame_late_acked e)); [by case_bool_decide|].
    split; [split; cbn; lia|]. by exists c.
Qed.

(** C24. Whatever is typed, whatever screens arrive and however the engine is
    set, it never panics: every row of guesses is a row of the screen the engine last
    judged against and as wide as it, every cursor is in one of its rows, on a cell or
    just past the last, and the judging loops end. *)
Theorem predictions_never_panic (evs : list event) : exists e, history evs new = Ok e /\ shaped (last_height e) (last_width e) e.
Proof using Type*. destruct (history_spec evs new new_engine_ok) as (e & He & Hs & _). by exists e. Qed.

(** C15. Once the guesses are judged against the screen, whatever came before, each
    cell and cursor the overlay paints lies on the screen, changes it or underlines it,
    belongs to an epoch the server has confirmed, and is one the server has not answered:
    a guess does not outlive its answer. *)
Theorem shown_guesses_are_unanswered (evs : list event) (screen : S) (now : Z) e :
  history evs new = Ok e -> display_preference e <> Never ->
  exists e', @cull _ _ _ E screen now e = Ok e' /\ local_frame_late_acked e' = local_frame_late_acked e /\
    (forall o, o ∈ (overlay screen e').1 ->
      in_screen screen (row o, col o) /\ (cell o <> cell_at screen (row o) (col o) \/ marked o = true) /\
      exists r c, r ∈ overlays e' /\ c ∈ cells r /\ row_num r = row o /\ pcol c = col o /\ confirmed_unanswered e' (base c)) /\
    (forall p, (overlay screen e').2 = Some p ->
      in_screen screen p /\ exists c, c ∈ cursors e' /\ p = (crow c, ccol c) /\ confirmed_unanswered e' (cbase c)).
Proof using Type*.
  intros He Hp. destruct (history_spec evs new new_engine_ok) as (e0 & He0 & Hok). assert (e0 = e) as -> by congruence.
  destruct (cull_spec screen now e Hok Hp) as (e' & Hcull & Hj & _ & Hl & _). exists e'.
  destruct (shown_after_judging screen e' Hj). done.
Qed.
End Judged.

(** ** A one-line terminal to try it on *)

Module Line.
Import ClientScreen Prediction.

(** Eighty columns of what has been fed, the cursor after it. *)
Record line := mkLine { typed : bytes }.
Definition line_cell (s : line) (r c : Z) : Cell :=
  match typed s !! Z.to_nat c with Some b => mkCell [b] default_rendition | None => default_cell end.
#[export] Instance line_screen : Screen line := {
  feed b s := mkLine (typed s ++ b);
  resize _ _ s := s;
  rows _ := 24;
  cols _ := 80;
  cursor s := (0, Z.min 80 (zlen (typed s)));
  cell_at := line_cell;
  screen_text := typed;
  title _ := None;
  draw_overlay _ _ s := s;
}.
#[export] Instance line_bounds : ScreenBounds line.
Proof.
  split; intros s; cbn; [lia | lia |]. pose proof (Nat2Z.is_nonneg (length (typed s))). unfold zlen. lia.
Qed.
(** A parser of plain text: what is printable is printed. *)
#[export] Instance plain_parser : Parser := {
  parser := unit;
  fresh_parser := tt;
  parse _ b := (tt, if (0x20 <=? b) && (b <? 0x7f) then [Print b] else [Execute b]);
  char_width ch := if (0x20 <=? ch) && (ch <? 0x7f) then Some 1 else None;
}.

(** "l" typed, echoed and answered; then "s" is shown before its echo. *)
Definition echoed : list (@event line) :=
  [Preferred Always; Paced 20; Sent 0; Typed (text "l") (mkLine []) 0; LateAcked 1; Culled (mkLine (text "l")) 40; Sent 1].
Definition ahead : list (@event line) := echoed ++ [Typed (text "s") (mkLine (text "l")) 50].

Definition shown (evs : list (@event line)) (s : line) : option (list OverlayCell * option (Z * Z)) :=
  match history (E:=unit) evs new with Ok e => Some (overlay s e) | _ => None end.
Example nothing_before_the_first_echo : shown [Preferred Always; Sent 0; Typed (text "l") (mkLine []) 0] (mkLine []) = Some ([], None).
Proof. vm_compute. reflexivity. Qed.
Example typing_runs_ahead :
  shown ahead (mkLine (text "l")) = Some ([mkOverlay 0 1 (mkCell (text "s") default_rendition) false], Some (0, 2)).
Proof. vm_compute. reflexivity. Qed.
(** The server says nothing of the kind: the guess is dropped. *)
Example wrong_guess_is_dropped :
  shown (ahead ++ [LateAcked 2; Culled (mkLine (text "l")) 90]) (mkLine (text "l")) = Some ([], None).
Proof. vm_compute. reflexivity. Qed.

Lemma predictions_never_panic_witness : exists e, history (E:=unit) ahead new = Ok e /\ shaped (last_height e) (last_width e) e.
Proof. exact (predictions_never_panic ahead). Defined.

Definition ahead_engine : PredictionEngine :=
  match history (E:=unit) ahead new with Ok e => e | _ => new end.
Lemma shown_guesses_are_unanswered_witness :
  history (E:=unit) ahead new = Ok ahead_engine /\ display_preference ahead_engine <> Never /\
  exists e', @cull _ _ _ unit (mkLine (text "l")) 60 ahead_engine = Ok e' /\ local_frame_late_acked e' = local_frame_late_acked ahead_engine.
Proof.
  assert (history (E:=unit) ahead new = Ok ahead_engine) as He by (vm_compute; reflexivity).
  assert (display_preference ahead_engine <> Never) as Hp by (vm_compute; discriminate).
  split; [exact He|]. split; [exact Hp|].
  destruct (shown_guesses_are_unanswered ahead (mkLine (text "l")) 60 ahead_engine He Hp) as (e' & Hc & Hl & _).
  exact (ex_intro _ e' (conj Hc Hl)).
Defined.
End Line.
