(* ===== verification/ClientSession.v ===== *)
(** * The client session

    Models [crates/mosh_rs/src/session.rs], which puts the layers of the client
    together, and the host half of [statesync.rs], which says what a server's diff
    asks for.  A UDP socket is what can still be read from it and what was sent on
    it; the clock, the padding, the ports the system binds and what it answers to a
    send are arguments. *)
From Stdlib Require Import ZArith Lia List Bool.
From stdpp Require Import base numbers list gmap strings.
From S2P Require Import Prelude Text Ieee ClientStream Instruction Sender Receiver ClientScreen ClientTerminal ClientPacket Prediction.
Open Scope Z_scope.
Open Scope zetta_scope.

Module HostStream.

(** ** The messages *)

Record HostBytes := mkHostBytes { hoststring : option bytes }.
Record EchoAck := mkEchoAck { echo_ack_num : option Z }.
Record TerminalQuery := mkQuery { query_id : option Z; query_bytes : option bytes }.
Record AgentReadyMessage := mkReady { supported : option bool; ready_error : option bytes }.
Record AgentRequestMessage := mkRequest { request_id : option Z; request_connection : option Z; request_frame : option bytes }.
Record AgentCloseMessage := mkClose { close_id : option Z; close_connection : option Z; close_error : option bytes }.
Record AgentHostInstruction := mkAgentHost {
  ready : option AgentReadyMessage; request : option AgentRequestMessage; close : option AgentCloseMessage;
}.
Record HostInstruction := mkHost {
  hostbytes : option HostBytes;
  host_resize : option ClientStream.ResizeMessage;
  echoack : option EchoAck;
  terminal_query : option TerminalQuery;
  host_agent : option AgentHostInstruction;
}.

(** [HostMessage::decode], by prost *)
Class HostProst := { decode_host : bytes -> option (list HostInstruction) }.

Inductive HostEvent :=
| Bytes (l : bytes)
| Resize (width height : Z)
| EchoAcked (num : Z)
| Query (id : Z) (l : bytes)
| AgentReady (supported : bool) (error : option bytes)
| AgentRequest (id connection_id : Z) (frame : bytes)
| AgentClose (id connection_id : Z) (error : option bytes).

Definition agent_events (agent : AgentHostInstruction) : list HostEvent :=
  match ready agent with Some r => [AgentReady (default false (supported r)) (ready_error r)] | None => [] end
  ++ match request agent with
     | Some (mkRequest (Some id) (Some connection_id) (Some frame)) => [AgentRequest id connection_id frame]
     | _ => []
     end
  ++ match close agent with
     | Some (mkClose (Some id) (Some connection_id) error) => [AgentClose id connection_id error]
     | _ => []
     end.

Definition events_of (inst : HostInstruction) : list HostEvent :=
  match echoack inst with Some (mkEchoAck (Some num)) => [EchoAcked num] | _ => [] end
  ++ match host_resize inst with Some (ClientStream.mkResize (Some width) (Some height)) => [Resize width height] | _ => [] end
  ++ match hostbytes inst with
     | Some (mkHostBytes (Some l)) => if bool_decide (l = []) then [] else [Bytes l]
     | _ => []
     end
  ++ match terminal_query inst with
     | Some (mkQuery (Some id) (Some l)) => if bool_decide (l = []) then [] else [Query id l]
     | _ => []
     end
  ++ match host_agent inst with Some agent => agent_events agent | None => [] end.

Definition parse_host_diff `{HostProst} (diff : bytes) : result Instruction.MoshError (list HostEvent) :=
  msg ← ok_or (decode_host diff) Instruction.BadInstruction;
  Ok (concat (events_of <$> msg)).

End HostStream.

Module ClientSession.
Import Instruction HostStream.
#[local] Existing Instance ClientPacket.Direction_eq_dec.

Definition CONNECTION_ADDED_BYTES : Z := 8 + 4.
Definition CRYPTO_ADDED_BYTES : Z := 16.
Definition DEFAULT_LINK_MTU : Z := 1280.
Definition IPV4_HEADER_LEN : Z := 20 + 8.
Definition IPV6_HEADER_LEN : Z := 40 + 16 + 8.
Definition FALLBACK_MTU : Z := 500.
Definition BULK_INPUT_BYTES : Z := 100.
Definition MAX_DATAGRAMS_PER_PUMP : nat := 64.
Definition PORT_HOP_INTERVAL_MS : Z := 10000.
Definition MAX_PORTS_OPEN : Z := 10.
Definition MAX_OLD_SOCKET_AGE_MS : Z := 60000.

Section Session.
Context {S Addr : Type} `{ClientScreen.Screen S} `{Runtime} {P : Parser} `{EqDecision Addr}.

(** What a datagram is read with: its sender, and the clock when it is handled. *)
Record Arrival := mkArrival { datagram : bytes; from : Addr; read_at : Z }.
Record Socket := mkSocket { inbox : list Arrival; outbox : list bytes }.

Record MoshSession := mkSession {
  sockets : list Socket;
  last_port_choice : Z;
  server : Addr;
  blocks_encrypted : Z;
  packets : ClientPacket.PacketState;
  sender : Sender.TransportSender;
  receiver : Receiver.TransportReceiver;
  fragmenter : Fragmenter;
  assembly : FragmentAssembly;
  terminal : ClientTerminal.ClientTerminal S;
  prediction : Prediction.PredictionEngine;
  mtu : Z;
  last_roundtrip_success : Z;
  peer_shut_down : bool;
  heard_from_server : bool;
  seen_terminal_queries : gset Z;
  seen_agent_records : gset Z;
}.
#[export] Instance session_eta : Eta MoshSession := fun s =>
  mkSession (sockets s) (last_port_choice s) (server s) (blocks_encrypted s) (packets s) (sender s) (receiver s)
    (fragmenter s) (assembly s) (terminal s) (prediction s) (mtu s) (last_roundtrip_success s) (peer_shut_down s)
    (heard_from_server s) (seen_terminal_queries s) (seen_agent_records s).

(** [connect_with_screen], on the socket the system bound *)
Definition connect_with_screen (bound : Socket) (server : Addr) (is_ipv6 : bool) (blank : S) : MoshSession :=
  mkSession [bound] 0 server 0 ClientPacket.default_packets Sender.new Receiver.new default_fragmenter default_assembly
    (ClientTerminal.new blank) Prediction.new (DEFAULT_LINK_MTU - if is_ipv6 then IPV6_HEADER_LEN else IPV4_HEADER_LEN)
    0 false false ∅ ∅.

(** A call on the session: what it changes stays, also when it fails. *)
Definition M (A : Type) : Type := MoshSession -> MoshSession * result MoshError A.
#[export] Instance M_ret : MRet M := fun _ a s => (s, Ok a).
#[export] Instance M_bind : MBind M := fun _ _ k m s =>
  match m s with
  | (s, Ok a) => k a s
  | (s, Err e) => (s, Err e)
  | (s, Panic) => (s, Panic)
  end.
Definition lift {A} (r : result MoshError A) : M A := fun s => (s, r).
Definition gets {A} (f : MoshSession -> A) : M A := fun s => (s, Ok (f s)).
Definition modify (f : MoshSession -> MoshSession) : M unit := fun s => (f s, Ok tt).
Definition when (b : bool) (m : M unit) : M unit := if b then m else mret tt.

Context `{!InstructionCodec} `{!ClientPacket.Aead} `{!ClientStream.Prost} `{!HostProst}.
Implicit Types s : MoshSession.

(** ** What arrives *)

Definition query_new (ev : HostEvent) s : MoshSession * bool :=
  match ev with
  | Query id _ => (s <| seen_terminal_queries := {[id]} ∪ seen_terminal_queries s |>, bool_decide (id ∉ seen_terminal_queries s))
  | _ => (s, true)
  end.
Definition record_new (ev : HostEvent) s : MoshSession * bool :=
  match ev with
  | AgentRequest id _ _ | AgentClose id _ _ =>
      (s <| seen_agent_records := {[id]} ∪ seen_agent_records s |>, bool_decide (id ∉ seen_agent_records s))
  | _ => (s, true)
  end.
(** [events.retain(..)], the predicate changing the session *)
Fixpoint retain (keep : HostEvent -> MoshSession -> MoshSession * bool) (events : list HostEvent) : M (list HostEvent) :=
  match events with
  | [] => mret []
  | ev :: events => fun s =>
      let '(s, kept) := keep ev s in
      (rest ← retain keep events; mret (if kept then ev :: rest else rest) : M _) s
  end.
Definition deduplicate_terminal_queries : list HostEvent -> M (list HostEvent) := retain query_new.
Definition deduplicate_agent_records : list HostEvent -> M (list HostEvent) := retain record_new.

(** What one event does to the screens and the predictions; the bytes to paint. *)
Definition apply_event (painted : bytes) (ev : HostEvent) : M bytes :=
  match ev with
  | Resize width height =>
      _ ← modify (fun s => s <| terminal := ClientTerminal.resize_all (wrap 16 height) (wrap 16 width) (terminal s) |>);
      mret painted
  | Bytes l => mret l
  | EchoAcked num =>
      _ ← modify (fun s => s <| prediction := Prediction.set_local_frame_late_acked num (prediction s) |>);
      mret painted
  | Query _ _ | AgentReady _ _ | AgentRequest _ _ _ | AgentClose _ _ _ => mret painted
  end.
Fixpoint apply_events (painted : bytes) (events : list HostEvent) : M bytes :=
  match events with
  | [] => mret painted
  | ev :: events => painted ← apply_event painted ev; apply_events painted events
  end.

Definition acknowledge (has_data : bool) (now : Z) : M unit :=
  r ← gets receiver;
  newest ← lift (Receiver.latest r);
  modify (fun s => s <| sender := Sender.set_ack_num newest has_data now (sender s) |>).

(** The events of a diff, those handed over before left out, and the bytes to paint. *)
Definition take_events (diff : bytes) : M (bytes * list HostEvent) :=
  events ← (if bool_decide (diff = []) then mret [] else lift (parse_host_diff diff));
  events ← deduplicate_terminal_queries events;
  events ← deduplicate_agent_records events;
  painted ← apply_events [] events;
  mret (painted, events).

(** A state the receiver took. *)
Definition accept_state (inst : Instruction) (num now : Z) (diff : bytes) (in_order : bool) : M (list HostEvent) :=
  let has_data := negb (bool_decide (diff = [])) in
  _ ← when in_order (acknowledge has_data now);
  '(painted, events) ← take_events diff;
  _ ← modify (fun s => s <| terminal := (ClientTerminal.apply_diff (default 0 (old_num inst)) num painted (terminal s)).1 |>);
  _ ← match throwaway_num inst with
      | Some throwaway => modify (fun s => s <| terminal := ClientTerminal.forget_before throwaway (terminal s) |>)
      | None => mret tt
      end;
  mret events.

Definition receive (inst : Instruction) (now : Z) : M Receiver.Received := fun s =>
  match Receiver.process inst now (receiver s) with
  | Ok (r, got) => (s <| receiver := r |>, Ok got)
  | Err e => (s, Err e)
  | Panic => (s, Panic)
  end.

(** An instruction put together. *)
Definition handle_instruction (inst : Instruction) (now : Z) : M (list HostEvent) :=
  _ ← lift (check_version inst);
  _ ← match ack_num inst with
      | Some ack => modify (fun s => s <| sender := Sender.process_acknowledgement ack (sender s) |>
                                       <| prediction := Prediction.set_local_frame_acked ack (prediction s) |>)
      | None => mret tt
      end;
  _ ← when (bool_decide (new_num inst = Some SHUTDOWN_NUM)) (modify (fun s => s <| peer_shut_down := true |>));
  snd ← gets sender;
  answered ← lift (Sender.sent_state_acked_timestamp snd);
  _ ← modify (fun s => s <| last_roundtrip_success := answered |>);
  got ← receive inst now;
  match got with
  | Receiver.Apply num diff => accept_state inst num now diff true
  | Receiver.ApplyOutOfOrder num diff => accept_state inst num now diff false
  | Receiver.Duplicate => _ ← acknowledge false now; mret []
  | Receiver.Unresolvable => mret []
  end.

(** [self.assembly.add(frag)] and [self.assembly.take()] *)
Definition assemble (frag : Fragment) : M bool := fun s =>
  match add frag (assembly s) with
  | Ok (a, complete) => (s <| assembly := a |>, Ok complete)
  | Err e => (s, Err e)
  | Panic => (s, Panic)
  end.
Definition assembled : M (option Instruction) := fun s =>
  let '(a, taken) := take_instruction (assembly s) in (s <| assembly := a |>, taken).

Definition handle_datagram (l : bytes) (now : Z) : M (list HostEvent) :=
  incoming ← lift (ClientPacket.decrypt l);
  if negb (bool_decide (ClientPacket.direction incoming = ClientPacket.ToClient)) then lift (Err WrongDirection)
  else
    _ ← modify (fun s => s <| heard_from_server := true |>);
    packet ← lift (ClientPacket.from_plaintext (ClientPacket.plaintext incoming));
    _ ← modify (fun s => s <| packets := (ClientPacket.accept now (ClientPacket.seq incoming) packet false (packets s)).1 |>);
    if bool_decide (ClientPacket.payload packet = []) then mret []
    else
      frag ← lift (from_bytes (ClientPacket.payload packet));
      complete ← assemble frag;
      if negb complete then mret []
      else
        taken ← assembled;
        match taken with
        | None => mret []
        | Some inst => handle_instruction inst now
        end.

(** ** The sockets *)

Definition prune_sockets (now : Z) (s : MoshSession) : MoshSession :=
  if (length (sockets s) <=? 1)%nat then s
  else if MAX_OLD_SOCKET_AGE_MS <? Z.max 0 (now - last_port_choice s) then
    s <| sockets := drop (length (sockets s) - 1) (sockets s) |>
  else if MAX_PORTS_OPEN <? zlen (sockets s) then
    s <| sockets := drop (length (sockets s) - Z.to_nat MAX_PORTS_OPEN) (sockets s) |>
  else s.

(** [bind] is the socket the system gave, if it gave one. *)
Definition hop_port (bind : option Socket) (now : Z) (s : MoshSession) : MoshSession :=
  match bind with
  | None => s
  | Some socket => prune_sockets now (s <| last_port_choice := now |> <| sockets := sockets s ++ [socket] |>)
  end.
Definition maybe_hop_port (bind : option Socket) (now : Z) (s : MoshSession) : MoshSession :=
  if Z.max 0 (now - last_port_choice s) <=? PORT_HOP_INTERVAL_MS then s
  else if Z.max 0 (now - last_roundtrip_success s) <=? PORT_HOP_INTERVAL_MS then s
  else hop_port bind now s.

(** One socket read until it is dry or [taken] is enough: what is left in it, how
    many were taken, whether any came from the server, and the events. *)
Fixpoint drain_socket (inbox : list Arrival) (taken : nat) (received : bool) (events : list HostEvent)
    : M (list Arrival * nat * bool * list HostEvent) :=
  match inbox with
  | [] => mret ([], taken, received, events)
  | a :: inbox => fun s =>
      let taken := Datatypes.S taken in
      let '(s, received, events) :=
        if decide (from a = server s) then
          match handle_datagram (datagram a) (read_at a) s with
          | (s, Ok got) => (s, true, Ok (events ++ got))
          | (s, Err _) => (s, true, Ok events)
          | (s, Panic) => (s, true, Panic)
          end
        else (s, received, Ok events) in
      match events with
      | Ok events =>
          if (MAX_DATAGRAMS_PER_PUMP <=? taken)%nat then (s, Ok (inbox, taken, received, events))
          else drain_socket inbox taken received events s
      | Err e => (s, Err e)
      | Panic => (s, Panic)
      end
  end.
Fixpoint drain_sockets (socks : list Socket) (taken : nat) (received : bool) (events : list HostEvent)
    : M (list Socket * bool * list HostEvent) :=
  match socks with
  | [] => mret ([], received, events)
  | sock :: socks =>
      if (taken <? MAX_DATAGRAMS_PER_PUMP)%nat then
        '(rest, taken, received, events) ← drain_socket (inbox sock) taken received events;
        '(socks, received, events) ← drain_sockets socks taken received events;
        mret (mkSocket rest (outbox sock) :: socks, received, events)
      else mret (sock :: socks, received, events)
  end.

(** ** Sending *)

(** What the system may answer to a send that failed. *)
Inductive SendError := TooLarge | Unroutable | Transient.
(** A send asked for too large a datagram, or could not be routed before the first contact. *)
Definition send_error_requires_mtu_fallback (error : SendError) (s : MoshSession) : result MoshError bool :=
  match error with
  | TooLarge => Ok true
  | Unroutable => if heard_from_server s then Ok false else Err SendBeforeConnect
  | Transient => Ok false
  end.

Definition write_newest (l : bytes) (s : MoshSession) : MoshSession :=
  s <| sockets := alter (fun sock => mkSocket (inbox sock) (outbox sock ++ [l])) (length (sockets s) - 1)%nat (sockets s) |>.

(** One fragment sealed and sent; whether it was too large. *)
Definition send_fragment (network : bytes -> option SendError) (now : Z) (frag : Fragment) : M bool := fun s =>
  let '(pkts, spent, sealed) := ClientPacket.send_packet now (to_bytes frag) (packets s) (blocks_encrypted s) in
  let s := s <| packets := pkts |> <| blocks_encrypted := spent |> in
  (datagram ← lift sealed;
   _ ← lift (expect (last (sockets s)));
   match network datagram with
   | None => _ ← modify (write_newest datagram); mret false
   | Some error => fun s => (s, send_error_requires_mtu_fallback error s)
   end : M bool) s.
Fixpoint send_fragments (network : bytes -> option SendError) (now : Z) (frags : list Fragment) (too_large : bool) : M bool :=
  match frags with
  | [] => mret too_large
  | frag :: frags => refused ← send_fragment network now frag; send_fragments network now frags (too_large || refused)
  end.

Definition fragment_instruction (inst : Instruction) (budget : Z) : M (list Fragment) := fun s =>
  let '(f, frags) := fragment inst budget (fragmenter s) in (s <| fragmenter := f |>, frags).
Definition tick (now : Z) (chaff : bytes) : M (option Instruction) := fun s =>
  let rtt := ClientPacket.rtt (packets s) in
  match Sender.tick now (ClientPacket.srtt rtt) (ClientPacket.rto rtt) chaff (sender s) with
  | Ok (snd, inst) => (s <| sender := snd |>, Ok inst)
  | Err e => (s, Err e)
  | Panic => (s, Panic)
  end.

Definition send_due (now : Z) (chaff : bytes) (network : bytes -> option SendError) (bind : option Socket) : M unit :=
  inst ← tick now chaff;
  match inst with
  | None => mret tt
  | Some inst =>
      size ← gets mtu;
      frags ← fragment_instruction inst (size - CONNECTION_ADDED_BYTES - CRYPTO_ADDED_BYTES);
      too_large ← send_fragments network now frags false;
      _ ← when too_large (modify (fun s => s <| mtu := FALLBACK_MTU |>));
      modify (maybe_hop_port bind now)
  end.

Definition note_frame_sent : M unit := fun s =>
  match Sender.sent_state_last (sender s) with
  | Ok num => (s <| prediction := Prediction.set_local_frame_sent num (prediction s) |>, Ok tt)
  | Err e => (s, Err e)
  | Panic => (s, Panic)
  end.

(** One turn: what has arrived is read, what is due is sent. *)
Definition cycle (now : Z) (chaff : bytes) (network : bytes -> option SendError) (bind : option Socket) : M (list HostEvent) :=
  socks ← gets sockets;
  '(socks, received, events) ← drain_sockets socks O false [];
  _ ← modify (fun s => s <| sockets := socks |>);
  _ ← when received (modify (prune_sockets now));
  _ ← modify (fun s => s <| prediction :=
         Prediction.set_send_interval (Sender.interval (ClientPacket.srtt (ClientPacket.rtt (packets s)))) (prediction s) |>);
  _ ← send_due now chaff network bind;
  _ ← note_frame_sent;
  mret events.

(** ** The caller's side *)

Definition push (f : ClientStream.UserStream -> ClientStream.UserStream) (s : MoshSession) : MoshSession :=
  s <| sender := Sender.with_state f (sender s) |>.

(** A paste is not guessed at. *)
Definition predict_input (l : bytes) (now : Z) : M unit := fun s =>
  if BULK_INPUT_BYTES <? zlen l then (s <| prediction := Prediction.reset (prediction s) |>, Ok tt)
  else match ClientTerminal.confirmed (terminal s) with
       | None => (s, Ok tt)
       | Some screen =>
           match Prediction.new_user_bytes l screen now (prediction s) with
           | Ok e => (s <| prediction := e |>, Ok tt)
           | Err e => (s, Err e)
           | Panic => (s, Panic)
           end
       end.
Definition send_input (l : bytes) (now : Z) : M unit :=
  _ ← note_frame_sent;
  _ ← predict_input l now;
  modify (push (ClientStream.push_bytes l)).
Definition send_terminal_response (l : bytes) : M unit := modify (push (ClientStream.push_terminal_response l)).
Definition request_agent_forwarding (version : Z) : M unit := modify (push (ClientStream.push_agent_hello version)).
Definition send_agent_response (connection_id request_id : Z) (frame : bytes) (closed : bool) : M unit :=
  modify (push (ClientStream.push_agent_response connection_id request_id frame closed)).
Definition request_scrollback (budget_kib : Z) : M unit := modify (push (ClientStream.push_scrollback_request budget_kib)).
Definition request_clipboard_relay : M unit := modify (push (ClientStream.push_clipboard_version 1)).
Definition send_resize (width height : Z) : M unit := modify (push (ClientStream.push_resize width height)).
Definition set_title_prefix (prefix : bytes) : M unit :=
  modify (fun s => s <| terminal := ClientTerminal.set_title_prefix prefix (terminal s) |>).
Definition set_keep_alive (interval_ms : option Z) : M unit :=
  modify (fun s => s <| sender := Sender.set_keep_alive interval_ms (sender s) |>).
Definition shutdown (now : Z) : M unit := modify (fun s => s <| sender := Sender.start_shutdown now (sender s) |>).
Definition roam_now (bind : option Socket) (now : Z) : M unit := modify (hop_port bind now).

Definition finished (now : Z) : M bool :=
  s ← gets (fun s => s);
  if peer_shut_down s then mret true
  else
    acknowledged ← lift (Sender.shutdown_acknowledged (sender s));
    mret (acknowledged || Sender.shutdown_timed_out now (sender s)).
Definition wait_time_ms (now : Z) : M Z := fun s =>
  let rtt := ClientPacket.rtt (packets s) in
  match Sender.wait_time now (ClientPacket.srtt rtt) (ClientPacket.rto rtt) (sender s) with
  | Ok (snd, wait) => (s <| sender := snd |>, Ok wait)
  | Err e => (s, Err e)
  | Panic => (s, Panic)
  end.
Definition next_wake_ms (now : Z) : M Z :=
  wait ← wait_time_ms now;
  guesses ← gets (fun s => Prediction.wait_time_ms (prediction s));
  mret (match guesses with Some p => Z.min wait p | None => wait end).

(** ** The display *)

Definition overlay (now : Z) : M (list ClientScreen.OverlayCell * option (Z * Z)) := fun s =>
  match ClientTerminal.confirmed (terminal s) with
  | None => (s, Ok ([], None))
  | Some screen =>
      match Prediction.cull screen now (prediction s) with
      | Ok e => (s <| prediction := e |>, Ok (Prediction.overlay screen e))
      | Err e => (s, Err e)
      | Panic => (s, Panic)
      end
  end.

Definition compose (extra : list ClientScreen.OverlayCell) (now : Z) : M (list ClientScreen.OverlayCell * ClientScreen.OverlayCursor) :=
  '(cells, predicted) ← overlay now;
  t ← gets terminal;
  let effective := match predicted with Some p => Some p | None => ClientScreen.cursor <$> ClientTerminal.confirmed t end in
  let cursor :=
    match effective with
    | Some (row, col) =>
        if existsb (fun c => (ClientScreen.row c =? row) && (ClientScreen.col c =? col)) extra then ClientScreen.Hidden
        else if bool_decide (is_Some predicted) then ClientScreen.At row col
        else ClientScreen.Unchanged
    | None => ClientScreen.Unchanged
    end in
  mret (cells ++ extra, cursor).

Definition advance_with (extra : list ClientScreen.OverlayCell) (now : Z) : M unit :=
  '(cells, cursor) ← compose extra now;
  modify (fun s => s <| terminal := ClientTerminal.advance cells cursor (terminal s) |>).

Context `{!ClientScreen.DiffScreen S}.
(** Bytes the terminal gives, and how it changes. *)
Definition paint (f : ClientTerminal.ClientTerminal S -> ClientTerminal.ClientTerminal S * bytes) : M bytes := fun s =>
  let '(t, l) := f (terminal s) in (s <| terminal := t |>, Ok l).
Definition render_with (extra : list ClientScreen.OverlayCell) (now : Z) : M bytes :=
  '(cells, cursor) ← compose extra now; paint (ClientTerminal.render cells cursor).
Definition repaint : M bytes := paint ClientTerminal.repaint_all.
End Session.
Arguments Arrival : clear implicits.
Arguments Socket : clear implicits.
Arguments MoshSession : clear implicits.
End ClientSession.
