(* ===== verification/SessionRuns.v ===== *)
(** * What a client session comes to

    How the calls of [ClientSession] are reasoned about, and what they come to: whatever
    datagrams of a server that keeps its size reach the client, in any order and however
    often, the screens it holds are the server's and what it acknowledges is what it shows. *)
From Stdlib Require Import ZArith Lia List Bool.
From stdpp Require Import base numbers list gmap strings sorting.
From S2P Require Import Prelude Text Ieee ClientStream Instruction Assembly Sender Receiver ClientScreen ClientTerminal ClientPacket Prediction PredictionRuns ClientSession.
Open Scope Z_scope.
Open Scope zetta_scope.

(** ** Reasoning on the calls *)
Section Calls.
Import ClientSession.
Context {S Addr : Type} `{ClientScreen.Screen S} {P : Parser}.
Abbreviation session := (MoshSession S Addr P).
Implicit Types s : session.

(** [m] succeeds from [s], with [Q] of what it makes of it. *)
Definition succeeds {A} (m : M (S:=S) (Addr:=Addr) (P:=P) A) s (Q : session -> A -> Prop) : Prop := exists s' a, m s = (s', Ok a) /\ Q s' a.

Lemma succeeds_ret {A} (a : A) s (Q : session -> A -> Prop) : Q s a -> succeeds (mret a) s Q.
Proof using Type. intros. by exists s, a. Qed.
Lemma succeeds_bind {A B} (m : M A) (k : A -> M B) s Q R :
  succeeds m s R -> (forall s' a, R s' a -> succeeds (k a) s' Q) -> succeeds (m ≫= k) s Q.
Proof using Type.
  intros (s' & a & Hm & HR) Hk. destruct (Hk s' a HR) as (s2 & b & Hb & HQ). exists s2, b. split; [|done].
  unfold mbind, M_bind. by rewrite Hm.
Qed.
Lemma succeeds_modify f s (Q : session -> unit -> Prop) : Q (f s) tt -> succeeds (modify f) s Q.
Proof using Type. intros. by eexists _, tt. Qed.
Lemma succeeds_gets {A} (f : session -> A) s (Q : session -> A -> Prop) : Q s (f s) -> succeeds (gets f) s Q.
Proof using Type. intros. by eexists _, _. Qed.
Lemma succeeds_lift {A} (a : A) s (Q : session -> A -> Prop) : Q s a -> succeeds (lift (Ok a)) s Q.
Proof using Type. intros. by eexists _, _. Qed.

Lemma bind_ok {A B} (m : M A) (k : A -> M B) s s' a : m s = (s', Ok a) -> (m ≫= k) s = k a s'.
Proof using Type. intros Hm. unfold mbind, M_bind. by rewrite Hm. Qed.

(** However [m] ends, [R] relates the session before and after. *)
Definition moves {A} (R : session -> session -> Prop) (m : M (S:=S) (Addr:=Addr) (P:=P) A) : Prop := forall s, R s (m s).1.
Section Moves.
Context (R : session -> session -> Prop) `{!PreOrder R}.
Lemma moves_bind {A B} (m : M A) (k : A -> M B) : moves R m -> (forall a, moves R (k a)) -> moves R (m ≫= k).
Proof using Type*.
  intros Hm Hk s. unfold mbind, M_bind. specialize (Hm s). destruct (m s) as [s' [a|e|]]; cbn in *; [|done|done]. etransitivity; [exact Hm | apply Hk].
Qed.
Lemma moves_ret {A} (a : A) : moves R (mret a).
Proof using Type*. by intros s. Qed.
Lemma moves_lift {A} (r : result Instruction.MoshError A) : moves R (lift r).
Proof using Type*. by intros s. Qed.
Lemma moves_gets {A} (g : session -> A) : moves R (gets g).
Proof using Type*. by intros s. Qed.
Lemma moves_modify g : (forall s, R s (g s)) -> moves R (modify g).
Proof using Type*. intros Hg s. apply Hg. Qed.
Lemma moves_when b m : moves R m -> moves R (when b m).
Proof using Type*. intros Hm. destruct b; [done | apply moves_ret]. Qed.
Lemma moves_if {A} (b : bool) (m m' : M A) : moves R m -> moves R m' -> moves R (if b then m else m').
Proof using Type*. by destruct b. Qed.
End Moves.

(** [f] of the session is left alone. *)
Definition same {B} (f : session -> B) : session -> session -> Prop := fun s s' => f s' = f s.
#[export] Instance same_preorder {B} (f : session -> B) : PreOrder (same f).
Proof using Type. split; [done|]. unfold same. intros ? ? ? ? ?. congruence. Qed.
(** [I] stays true. *)
Definition holding (I : session -> Prop) : session -> session -> Prop := fun s s' => I s -> I s'.
#[export] Instance holding_preorder (I : session -> Prop) : PreOrder (holding I).
Proof using Type. split; unfold holding; repeat intro; auto. Qed.
End Calls.
(** [moves R m] by the shape of [m]: what is left are the steps that change the session. *)
Ltac moves_by R :=
  repeat match goal with
  | |- moves _ (_ ≫= _) => apply (moves_bind R); [|intros]
  | |- moves _ (mret _) => apply (moves_ret R)
  | |- moves _ (ClientSession.lift _) => apply (moves_lift R)
  | |- moves _ (ClientSession.gets _) => apply (moves_gets R)
  | |- moves _ (ClientSession.when _ _) => apply (moves_when R)
  | |- moves _ (ClientSession.modify _) => apply (moves_modify R)
  | |- moves _ (if ?b then _ else _) => apply (moves_if R)
  | |- moves _ (match ?x with _ => _ end) => destruct x
  | |- PreOrder _ => exact _
  end.

(** ** What the sender's clocks leave alone *)

Lemma ok_inj {E A} (a b : A) : @Ok E A a = Ok b -> a = b.
Proof. congruence. Qed.

Section SenderKept.
Import Sender.
Context `{ClientStream.Prost} {E : Type}.
Implicit Types s : TransportSender.

Definition kept s s' : Prop := ack_num s' = ack_num s /\ (sent_states s <> [] -> sent_states s' <> []).
#[export] Instance kept_preorder : PreOrder kept.
Proof using Type. split; [by split | intros ? ? ? [? ?] [? ?]; split; [congruence | auto]]. Qed.

Lemma calculate_timers_kept now srtt rto s s' : @calculate_timers E now srtt rto s = Ok s' -> kept s s'.
Proof using Type.
  unfold calculate_timers. intros (s1 & Hs1 & Hs')%bind_ok_inv. apply bind_ok_inv in Hs' as (last_sent & _ & Hs').
  apply bind_ok_inv in Hs' as (assumed & _ & Hs'). apply bind_ok_inv in Hs' as (first & _ & Hs').
  assert (kept s s1) as H1.
  { unfold rationalize_states in Hs1. apply bind_ok_inv in Hs1 as (f & _ & Hs1).
    apply ok_inj in Hs1 as <-. split; [done|]. cbn. by destruct (sent_states s). }
  transitivity s1; [done|]. apply ok_inj in Hs' as <-.
  unfold set_timers, schedule_send. cbv zeta. clear. repeat case_match; split; by cbn.
Qed.

Lemma record_sent_kept now n last_state s : kept s (record_sent now n last_state s).
Proof using Type.
  unfold record_sent. destruct (_ =? _).
  - split; [done|]. cbn. intros Hne Hn%(f_equal length). rewrite length_insert in Hn. by destruct (sent_states s).
  - set (states := _ ++ _). assert (length states <> 0)%nat as Hne by (unfold states; rewrite length_app; cbn; lia).
    destruct (Nat.ltb_spec 32 (length states)); (split; [done|]; intros _; cbn [sent_states]); intros Hn%(f_equal length).
    + unfold remove_at in Hn. cbn in Hn. rewrite length_app, length_take, length_drop in Hn. lia.
    + by cbn in Hn.
Qed.

Lemma tick_kept now srtt rto chaff s s' out : @tick _ E now srtt rto chaff s = Ok (s', out) -> kept s s'.
Proof using Type.
  unfold tick. intros (s1 & Hs1 & Hs')%bind_ok_inv. apply calculate_timers_kept in Hs1. apply bind_ok_inv in Hs' as ([s2 due] & Hs2 & Hs').
  transitivity s1; [done|]. transitivity s2.
  { unfold mint_keep_alive in Hs2. destruct (reached _ _); [|by injection Hs2 as <- _]. apply bind_ok_inv in Hs2 as (s3 & Hs3 & Hs2).
    assert (s2 = s3) as -> by congruence. apply calculate_timers_kept in Hs3. done. }
  unfold send_when_due in Hs'. cbv zeta in Hs'. destruct (negb _ && negb _); [by injection Hs' as <- _|].
  apply bind_ok_inv in Hs' as (assumed & _ & Hs'). destruct (ClientStream.diff_from _ _) as [d|]; [|by injection Hs' as <- _].
  apply bind_ok_inv in Hs' as (first & _ & Hs').
  destruct (choose_base d first s2) as [s3 d3] eqn:Hc.
  assert (kept s2 s3) as H3.
  { unfold choose_base in Hc. destruct (Nat.eqb _ _); [by injection Hc as <- _|]. destruct (ClientStream.diff_from _ _); [|by injection Hc as <- _].
    destruct (_ || _); by injection Hc as <- _. }
  transitivity s3; [done|]. destruct (bool_decide _ && _); [by injection Hs' as <- _|].
  unfold send_diff in Hs'. apply bind_ok_inv in Hs' as (a3 & _ & Hs'). apply bind_ok_inv in Hs' as (l3 & _ & Hs'). cbv zeta in Hs'.
  set (n := if shutting_down s3 then _ else _) in Hs'. pose proof (record_sent_kept now n l3 s3) as H4. set (s4 := record_sent now n l3 s3) in *.
  apply bind_ok_inv in Hs' as (f4 & _ & Hs'). transitivity s4; [done|].
  apply ok_inj, (f_equal fst) in Hs'. cbn [fst] in Hs'. subst s'. clear. repeat case_match; split; by cbn.
Qed.

Lemma wait_time_kept now srtt rto s s' w : @wait_time E now srtt rto s = Ok (s', w) -> kept s s'.
Proof using Type. unfold wait_time. intros (s1 & Hs1 & Hs')%bind_ok_inv. injection Hs' as <- _. by eapply calculate_timers_kept. Qed.
End SenderKept.

(** ** The calls on a session *)
Section Api.
Import ClientSession.
Context {S Addr : Type} `{HS : ClientScreen.Screen S} `{HR : Runtime} {P : Parser} `{EqDecision Addr}.
Context {HC : Instruction.InstructionCodec} {HA : ClientPacket.Aead} {HU : ClientStream.Prost} {HP : HostStream.HostProst}
  {HD : ClientScreen.DiffScreen S}.
Abbreviation session := (MoshSession S Addr P).

(** What the application does, and what reaches one of the sockets. *)
Inductive call :=
  | Arrives (socket : nat) (a : Arrival Addr)
  | Turn (now : Z) (chaff : bytes) (network : bytes -> option SendError) (bind : option (Socket Addr))
  | TypeIn (l : bytes) (now : Z) | RespondTo (l : bytes) | RequestAgents (version : Z)
  | AgentResponse (connection_id request_id : Z) (frame : bytes) (closed : bool)
  | RequestScrollback (budget_kib : Z) | RequestClipboard | ResizeTo (width height : Z) | PrefixTitle (l : bytes)
  | KeepAlive (interval_ms : option Z) | ShutDown (now : Z) | Roam (bind : option (Socket Addr)) (now : Z) | Wait (now : Z)
  | Advance (extra : list ClientScreen.OverlayCell) (now : Z) | Render (extra : list ClientScreen.OverlayCell) (now : Z) | Repaint.

Definition arrive (socket : nat) (a : Arrival Addr) (s : session) : session :=
  s <| sockets := alter (fun sock => mkSocket (inbox sock ++ [a]) (outbox sock)) socket (sockets s) |>.

Definition quiet {A} (m : M (S:=S) (Addr:=Addr) (P:=P) A) : M (S:=S) (Addr:=Addr) (P:=P) (list HostStream.HostEvent) := _ ← m; mret [].
Definition perform (c : call) : M (S:=S) (Addr:=Addr) (P:=P) (list HostStream.HostEvent) :=
  match c with
  | Arrives socket a => quiet (modify (arrive socket a))
  | Turn now chaff network bind => cycle now chaff network bind
  | TypeIn l now => quiet (send_input l now)
  | RespondTo l => quiet (send_terminal_response l)
  | RequestAgents version => quiet (request_agent_forwarding version)
  | AgentResponse connection_id request_id frame closed => quiet (send_agent_response connection_id request_id frame closed)
  | RequestScrollback budget_kib => quiet (request_scrollback budget_kib)
  | RequestClipboard => quiet request_clipboard_relay
  | ResizeTo width height => quiet (send_resize width height)
  | PrefixTitle l => quiet (set_title_prefix l)
  | KeepAlive interval_ms => quiet (set_keep_alive interval_ms)
  | ShutDown now => quiet (shutdown now)
  | Roam bind now => quiet (roam_now bind now)
  | Wait now => quiet (next_wake_ms now)
  | Advance extra now => quiet (advance_with extra now)
  | Render extra now => quiet (render_with extra now)
  | Repaint => quiet repaint
  end.

(** The calls of an application, which carries on after an error; the events it was given. *)
Fixpoint run (calls : list call) (s : session) : session * list HostStream.HostEvent :=
  match calls with
  | [] => (s, [])
  | c :: calls =>
      let '(s, r) := perform c s in
      let '(s, more) := run calls s in
      (s, match r with Ok events => events ++ more | _ => more end)
  end.

Lemma run_safe (I : session -> Prop) (allowed : call -> Prop) calls s :
  (forall c, allowed c -> moves (holding I) (perform c)) -> Forall allowed calls -> I s -> I (run calls s).1.
Proof using Type.
  intros Hsafe Hcalls. revert s. induction Hcalls as [|c calls Hc _ IH]; intros s Hs; [done|]. cbn [run].
  pose proof (Hsafe c Hc s Hs) as H1. destruct (perform c s) as [s1 r]. specialize (IH s1 H1). by destruct (run calls s1).
Qed.
End Api.

(** ** What a datagram leaves alone *)
Section Ports.
Import Instruction HostStream ClientSession.
Context {S Addr : Type} `{HS : ClientScreen.Screen S} `{HR : Runtime} {P : Parser}.
Context {HC : InstructionCodec} {HA : ClientPacket.Aead} {HP : HostProst}.
Abbreviation session := (MoshSession S Addr P).
Implicit Types s : session.

Definition ports s := (sockets s, last_port_choice s).

Section Events.
Context (R : session -> session -> Prop) `{!PreOrder R}.
Lemma retain_moves keep evs : (forall ev s, R s (keep ev s).1) -> moves R (retain keep evs).
Proof using Type*.
  intros Hkeep. induction evs as [|ev evs IH]; [by apply moves_ret|]. intros s. cbn [retain]. specialize (Hkeep ev s).
  destruct (keep ev s) as [s1 kept1]. etransitivity; [exact Hkeep|]. apply (moves_bind R); [exact IH|]. intros. by apply moves_ret.
Qed.
Lemma apply_events_moves painted evs : (forall p ev, moves R (apply_event p ev)) -> moves R (apply_events painted evs).
Proof using Type*.
  intros Hf. revert painted. induction evs as [|ev evs IH]; intros painted; [by apply moves_ret|]. cbn [apply_events]. by apply (moves_bind R).
Qed.
Lemma take_events_moves diff :
  (forall ev s, R s (query_new ev s).1) -> (forall ev s, R s (record_new ev s).1) -> (forall p ev, moves R (apply_event p ev)) ->
  moves R (take_events diff).
Proof using Type*.
  intros Hq Hr Ha. unfold take_events, deduplicate_terminal_queries, deduplicate_agent_records. moves_by R;
    [by apply retain_moves | by apply retain_moves | by apply apply_events_moves].
Qed.
End Events.

Lemma handle_datagram_sockets l now : moves (same ports) (handle_datagram l now).
Proof using Type.
  assert (forall p ev, moves (same ports) (apply_event p ev)) as Hev.
  { intros p ev. destruct ev; cbn [apply_event]; by moves_by (same ports). }
  assert (forall has now, moves (same ports) (acknowledge has now)) as Hack by (intros; unfold acknowledge; by moves_by (same ports)).
  assert (forall inst num diff in_order, moves (same ports) (accept_state inst num now diff in_order)) as Hacc.
  { intros. unfold accept_state. moves_by (same ports); try done. apply take_events_moves; [exact _ | by intros [] | by intros [] | done]. }
  unfold handle_datagram, handle_instruction. moves_by (same ports); try done.
  - intros s. unfold assemble. by destruct (add _ _) as [[]| |].
  - intros s. unfold assembled. by destruct (take_instruction _).
  - intros s. unfold receive. by destruct (Receiver.process _ _ _) as [[]| |].
Qed.
End Ports.

(** ** The receiver on an honest instruction *)
Section Received.
Import Receiver.
Context {E : Type}.

Lemma newest_received l m : ascending l -> last l = Some m -> m ∈ l /\ forall x, x ∈ l -> x <= m.
Proof using Type.
  intros Ha [init ->]%last_Some. split; [apply elem_of_app; right; by left|]. intros x [Hx|Hx]%elem_of_app.
  - apply Z.lt_le_incl. unfold ascending in Ha. eapply StronglySorted_app_1_elem_of; [exact Ha | done | by left].
  - apply list_elem_of_singleton in Hx. lia.
Qed.
Lemma newest_unique l m : ascending l -> m ∈ l -> (forall x, x ∈ l -> x <= m) -> last l = Some m.
Proof using Type.
  intros Ha Hm Hmax. destruct (last l) as [k|] eqn:Hl; [|by apply last_None in Hl as ->; apply elem_of_nil in Hm].
  destruct (newest_received _ _ Ha Hl) as [Hk Hkm]. specialize (Hmax k Hk). specialize (Hkm m Hm). f_equal. lia.
Qed.

Lemma discard_below th o l x : th <= o -> o ∈ l -> x ∈ discard (Some th) o l <-> x ∈ l /\ th <= x.
Proof using Type.
  intros Hth Ho. unfold discard. case_bool_decide as He.
  - exfalso. assert (o ∈ filter (fun n => th <= n) l) as Hin by (by apply list_elem_of_filter). rewrite He in Hin. by apply elem_of_nil in Hin.
  - rewrite list_elem_of_filter. tauto.
Qed.

(** What the receiver makes of an instruction that throws away only what is older than its base. *)
Lemma process_honest inst now r o n th :
  receiver_wf r -> Instruction.old_num inst = Some o -> Instruction.new_num inst = Some n ->
  Instruction.throwaway_num inst = Some th -> th <= o ->
  exists r' what, @process E inst now r = Ok (r', what) /\ receiver_wf r' /\
    match what with
    | Apply num diff | ApplyOutOfOrder num diff =>
        num = n /\ diff = default [] (Instruction.diff inst) /\ o ∈ received r /\
        (forall m, m ∈ received r' <-> m = n \/ (m ∈ received r /\ th <= m)) /\
        ((forall m, m ∈ received r -> m < n) <-> what = Apply num diff)
    | Duplicate => r' = r
    | Unresolvable => r' = r \/ (o ∈ received r /\ forall m, m ∈ received r' <-> m ∈ received r /\ th <= m)
    end.
Proof using Type.
  intros Hwf Ho Hn Hth Hle. destruct (process_spec (E:=E) inst now r Hwf) as (r' & what & Hp & Hwf' & Hw). exists r', what.
  split; [done|]. split; [done|]. pose proof Hp as Heq. unfold process in Heq. rewrite Ho, Hn in Heq.
  destruct (bool_decide (n ∈ received r)) eqn:Hdup; [injection Heq as <- <-; done|].
  apply bool_decide_eq_false in Hdup. case_bool_decide as Hold; cbn [negb] in Heq; [|injection Heq as <- <-; by left].
  rewrite Hth in Heq. cbn [received quench_until] in Heq. destruct Hwf as [Hasc Hne].
  destruct (discard_wf (Some th) o (received r) Hasc Hne) as [Hd Hdne].
  destruct (_ && _); [injection Heq as <- <-; right; split; [done|]; intros m; by apply discard_below|].
  set (r2 := if _ <? _ then _ else _) in Heq.
  assert (received r2 = discard (Some th) o (received r)) as Hr2 by (unfold r2; by destruct (_ <? _)).
  unfold latest in Heq. rewrite Hr2 in Heq. destruct (last (discard _ _ _)) as [newest|] eqn:Hlast; [|by apply last_None in Hlast].
  cbn [expect mbind result_bind] in Heq. destruct (newest_received _ _ Hd Hlast) as [Hnin Hmax].
  assert (newest < n <-> forall m, m ∈ received r -> m < n) as Horder.
  { split; [|intros Hall; apply Hall; by apply discard_below in Hnin as [? _]].
    intros Hlt m Hm. destruct (Z.le_gt_cases th m); [|apply discard_below in Hnin as [_ ?]; [lia | done | done]].
    specialize (Hmax m ltac:(by apply discard_below)). lia. }
  destruct (Z.ltb_spec newest n); injection Heq as <- <-; destruct Hw as (old & Ho' & Hn' & _ & _ & _ & Hin);
    (split_and!; [done | done | done | |]).
  1,3: intros m; rewrite Hin, Hth; assert (old = o) as -> by congruence; by rewrite discard_below.
  - split; [done|]. intros _. by apply Horder.
  - split; [|done]. intros Hall%Horder. lia.
Qed.
End Received.

(** ** The assembly on the server's fragments *)
Section Assembled.
Import Instruction Assembly.
Context `{InstructionCodec}.

(** What the server sent under one fragment number. *)
Record Transmission := mkTransmission { carries : Instruction; pieces : list bytes }.
Record transmitted (tr : Transmission) : Prop := {
  tr_pieces : pieces tr <> [];
  tr_size : held (Some <$> pieces tr) <= MAX_INSTRUCTION_BYTES;
  tr_reads : from_compressed (concat (pieces tr)) = Ok (carries tr);
}.

Context (outgoing : Z -> option Transmission).
Hypothesis Hout : forall key tr, outgoing key = Some tr -> transmitted tr.

(** One of the server's fragments. *)
Definition from_server (frag : Fragment) : Prop :=
  exists tr i, outgoing (id frag) = Some tr /\ (i < length (pieces tr))%nat /\ frag = piece (id frag) (pieces tr) i.

(** The assembly holds fragments of one transmission, or nothing. *)
Definition assembling (a : FragmentAssembly) : Prop :=
  accounts a /\ forall key, current_id a = Some key -> exists tr seen, outgoing key = Some tr /\ collected key (pieces tr) seen a.

Lemma default_assembling : assembling default_assembly.
Proof using Type. split; [apply default_accounts | done]. Qed.

Lemma fragment_added frag a :
  assembling a -> from_server frag -> exists a' complete, add frag a = Ok (a', complete) /\ assembling a' /\ is_Some (current_id a') /\
    (complete = true -> total a' = Some (arrived a')).
Proof using Hout.
  intros [Hacc Hcur] (tr & i & Htr & Hi & Hfrag). rewrite Hfrag. destruct (Hout _ _ Htr) as [Hne Hsize _].
  assert (exists seen a0, collected (id frag) (pieces tr) seen a0 /\ add (piece (id frag) (pieces tr) i) a = add (piece (id frag) (pieces tr) i) a0)
    as (seen & a0 & Hcol & Heq).
  { destruct (decide (current_id a = Some (id frag))) as [Hid|Hid].
    - destruct (Hcur _ Hid) as (tr' & seen & Htr' & Hcol). assert (tr' = tr) as -> by congruence. by exists seen, a.
    - eexists [], _. split; [apply fresh_collected | by apply add_entering]. }
  destruct (piece_added _ _ Hsize seen a0 i Hcol Hi) as (a' & complete & Hadd & Hcol'). exists a', complete.
  rewrite Heq. split; [done|]. pose proof Hcol' as [Hacc' Hid' _ _ _ _ _]. split_and!.
  - split; [done|]. rewrite Hid'. intros key [= <-]. by exists tr, (i :: seen).
  - by rewrite Hid'.
  - intros ->. rewrite add_spec in Hadd by apply Hcol. cbv zeta in Hadd. destruct (placed _ _) as [frags total'].
    destruct (_ && _); [by injection Hadd|]. destruct (_ <? _); [by injection Hadd|].
    assert (bool_decide (total' = Some (count_some frags)) = true /\ a' = mkAssembly (Some (id (piece (id frag) (pieces tr) i))) frags (count_some frags) total' (held frags)
      (discarded (entered (piece (id frag) (pieces tr) i) a0))) as [Ht ->] by (split; congruence). by apply bool_decide_eq_true in Ht.
Qed.

Lemma count_some_full l : Z.of_nat (length l) <= count_some l -> forall i, (i < length l)%nat -> is_Some (mjoin (l !! i)).
Proof using Type.
  induction l as [|o l IH]; intros Hl i Hi; [cbn in Hi; lia|]. rewrite count_some_cons in Hl.
  assert (count_some l <= Z.of_nat (length l)) as Hle.
  { clear. induction l as [|o l IH]; [done|]. rewrite count_some_cons. unfold slot_count. cbn [length]. destruct o; lia. }
  unfold slot_count in Hl. cbn [length] in Hl. destruct o as [p|]; [|lia]. destruct i as [|i]; [by exists p|]. cbn. apply IH; [lia | cbn in Hi; lia].
Qed.

Lemma assembled_spec a :
  assembling a -> is_Some (current_id a) -> total a = Some (arrived a) ->
  exists key tr, outgoing key = Some tr /\ take_instruction a = (reset a, Ok (Some (carries tr))) /\ assembling (reset a).
Proof using Hout.
  intros [Hacc Hcur] [key Hkey] Htotal. destruct (Hcur key Hkey) as (tr & seen & Htr & Hcol). exists key, tr. split; [done|].
  destruct (Hout _ _ Htr) as [Hne Hsize Hreads]. pose proof Hcol as [_ Hid Hkept Hshort Hslots Hinside Ht].
  rewrite Htotal in Ht. destruct (decide _) as [Hlast|] in Ht; [|done]. injection Ht as Harr.
  pose proof (acc_arrived _ Hacc) as Hcount. rewrite Harr in Hcount.
  assert (length (pieces tr) <> 0)%nat by (by destruct (pieces tr)).
  assert (length (fragments a) = length (pieces tr)) as Hlen by (pose proof (Hinside _ Hlast); lia).
  destruct (all_collected key (pieces tr) seen a Hne Hcol) as [Hf _].
  { intros i Hi. pose proof (count_some_full (fragments a) ltac:(lia) i ltac:(lia)) as Hsome. rewrite Hslots in Hsome by lia. cbn in Hsome.
    unfold slot in Hsome. destruct (decide (i ∈ seen)); [done|]. by destruct Hsome. }
  split.
  - unfold take_instruction. rewrite Htotal, bool_decide_eq_true_2 by done. cbn [negb]. rewrite Hf, concatenated_all, Hreads. done.
  - split; [apply reset_accounts|]. intros key' Hkey'. cbn in Hkey'. exists tr, []. assert (key' = key) as -> by congruence. split; [done|].
    unfold reset. rewrite Hkey. apply fresh_collected.
Qed.
End Assembled.

(** ** What the client's own calls leave alone *)
Section Steady.
Import Instruction HostStream ClientSession.
Context {S Addr : Type} `{HS : ClientScreen.Screen S} `{HR : Runtime} {P : Parser} `{HE : EqDecision Addr}.
Context {HC : InstructionCodec} {HA : ClientPacket.Aead} {HU : ClientStream.Prost} {HP : HostProst} {HD : ClientScreen.DiffScreen S}.
Abbreviation session := (MoshSession S Addr P).
Implicit Types s : session.

(** What is known of what waits in a socket. *)
Context (Q : Socket Addr -> Prop).
Hypothesis Qinbox : forall sock sent, Q sock -> Q (mkSocket (inbox sock) sent).

(** One port at least, and no more than are kept open. *)
Definition few_ports s : Prop := (1 <= length (sockets s) <= Z.to_nat MAX_PORTS_OPEN)%nat.

(** The states held and received and what was handed over stay, the sender keeps its
    promises, and [Q] of the sockets, which stay few. *)
Record steady s s' : Prop := {
  st_states : ClientTerminal.states (terminal s') = ClientTerminal.states (terminal s);
  st_latest : ClientTerminal.latest (terminal s') = ClientTerminal.latest (terminal s);
  st_receiver : receiver s' = receiver s;
  st_assembly : assembly s' = assembly s;
  st_queries : seen_terminal_queries s' = seen_terminal_queries s;
  st_records : seen_agent_records s' = seen_agent_records s;
  st_sender : kept (sender s) (sender s');
  st_sockets : Forall Q (sockets s) -> Forall Q (sockets s');
  st_few : few_ports s -> few_ports s';
}.
#[export] Instance steady_preorder : PreOrder steady.
Proof using Type.
  split; [intros s; by split|]. intros s1 s2 s3 [] []. split; try congruence; [by etransitivity | auto | auto].
Qed.

Lemma prune_few now s : (1 <= length (sockets s))%nat -> (Z.of_nat (length (sockets s)) <= MAX_PORTS_OPEN + 1) -> few_ports (prune_sockets now s).
Proof using Type.
  intros H1 H2. unfold few_ports, prune_sockets, zlen, MAX_PORTS_OPEN in *. destruct (Nat.leb_spec (length (sockets s)) 1); [lia|].
  destruct (_ <? _); [cbn -[Nat.sub drop]; rewrite length_drop; lia|].
  destruct (Z.ltb_spec 10 (Z.of_nat (length (sockets s)))); [cbn -[Nat.sub drop]; rewrite length_drop; lia | lia].
Qed.
Lemma prune_steady now s : steady s (prune_sockets now s).
Proof using Type.
  assert (few_ports s -> few_ports (prune_sockets now s)) as Hf by (intros Hf; apply prune_few; unfold few_ports, MAX_PORTS_OPEN in *; lia).
  revert Hf. unfold prune_sockets. repeat case_match; (split; try done; cbn; intros; by apply Forall_drop).
Qed.
Lemma hop_steady bind now s : from_option Q True bind -> steady s (hop_port bind now s).
Proof using Type.
  intros Hb. destruct bind as [sock|]; [|done]. cbn [hop_port]. set (s1 := s <| last_port_choice := now |> <| sockets := _ |>).
  assert (few_ports s -> few_ports (prune_sockets now s1)) as Hf.
  { unfold few_ports at 1. intros Hf. apply prune_few; unfold s1; cbn -[Nat.sub Z.to_nat]; rewrite length_app; cbn [length]; unfold MAX_PORTS_OPEN in *; lia. }
  destruct (prune_steady now s1). split; try done. intros Hq. apply st_sockets0. unfold s1. cbn. apply Forall_app. split; [done | by constructor].
Qed.
Lemma maybe_hop_steady bind now s : from_option Q True bind -> steady s (maybe_hop_port bind now s).
Proof using Type. intros. unfold maybe_hop_port. repeat case_match; [done | done | by apply hop_steady]. Qed.
Lemma write_steady l s : steady s (write_newest l s).
Proof using Qinbox.
  split; try done; [|unfold few_ports; cbn; by rewrite length_alter]. cbn. intros Hall. apply Forall_alter; [done|]. intros sock _ Hs. by apply Qinbox.
Qed.
Lemma push_steady f s : steady s (push f s).
Proof using Type. by split. Qed.
Lemma compose_steady extra now : moves steady (compose (S:=S) (Addr:=Addr) extra now).
Proof using Type.
  unfold compose. moves_by steady. intros s. unfold overlay. destruct (ClientTerminal.confirmed _); [|done].
  by destruct (Prediction.cull _ _ _).
Qed.
Lemma note_steady : moves steady note_frame_sent.
Proof using Type. intros s. unfold note_frame_sent. by destruct (Sender.sent_state_last _). Qed.

Lemma send_fragments_steady network now frags b : moves steady (send_fragments network now frags b).
Proof using Qinbox HS.
  revert b. induction frags as [|frag frags IH]; intros b; cbn [send_fragments]; [by apply (moves_ret steady)|].
  apply (moves_bind steady); [|intros; apply IH]. intros s. unfold send_fragment.
  destruct (ClientPacket.send_packet _ _ _ _) as [[pkts spent] sealed].
  set (s1 := s <| packets := pkts |> <| blocks_encrypted := spent |>). assert (steady s s1) as H1 by done. etransitivity; [exact H1|].
  clearbody s1. apply (moves_bind steady); [by apply (moves_lift steady)|]. intros d. apply (moves_bind steady); [by apply (moves_lift steady)|].
  intros _. destruct (network d) as [err|]; [by intros s2|]. moves_by steady. intros. apply write_steady.
Qed.

Lemma send_due_steady now chaff network bind : from_option Q True bind -> moves steady (send_due now chaff network bind).
Proof using Qinbox HS.
  intros Hb. unfold send_due. apply (moves_bind steady).
  { intros s. unfold tick. destruct (Sender.tick _ _ _ _ _) as [[snd inst]|err|] eqn:Ht; [|done|done]. split; try done. by eapply tick_kept. }
  intros [inst|]; moves_by steady; try done.
  - by apply send_fragments_steady.
  - intros s. by apply maybe_hop_steady.
Qed.

(** What a turn does once it has read. *)
Definition after_reading now chaff network bind (received : bool) (events : list HostEvent) : M (S:=S) (Addr:=Addr) (P:=P) (list HostEvent) :=
  _ ← when received (modify (prune_sockets now));
  _ ← modify (fun s => s <| prediction :=
         Prediction.set_send_interval (Sender.interval (ClientPacket.srtt (ClientPacket.rtt (packets s)))) (prediction s) |>);
  _ ← send_due now chaff network bind; _ ← note_frame_sent; mret events.
Lemma cycle_after_reading now chaff network bind s s1 socks received events :
  drain_sockets (sockets s) O false [] s = (s1, Ok (socks, received, events)) ->
  cycle now chaff network bind s = after_reading now chaff network bind received events (s1 <| sockets := socks |>).
Proof using Type.
  intros Hd. unfold cycle. rewrite (bind_ok (gets sockets) _ s s (sockets s) eq_refl). by rewrite (bind_ok _ _ _ _ _ Hd).
Qed.
Lemma after_reading_steady now chaff network bind received events :
  from_option Q True bind -> moves steady (after_reading now chaff network bind received events).
Proof using Qinbox HS.
  intros Hb. unfold after_reading. moves_by steady; [intros; apply prune_steady | by split | by apply send_due_steady | apply note_steady].
Qed.

(** Every call but the two that bring a datagram in. *)
Definition ordinary (c : call (Addr:=Addr)) : Prop :=
  match c with Arrives _ _ | Turn _ _ _ _ => False | Roam bind _ => from_option Q True bind | _ => True end.
Lemma advance_states cells cur (t : ClientTerminal.ClientTerminal S) :
  ClientTerminal.states (ClientTerminal.advance cells cur t) = ClientTerminal.states t /\
  ClientTerminal.latest (ClientTerminal.advance cells cur t) = ClientTerminal.latest t.
Proof using Type. unfold ClientTerminal.advance. by destruct (ClientTerminal.next_display _ _ _) as [[]|]. Qed.
Lemma paint_steady f :
  (forall t, ClientTerminal.states (f t).1 = ClientTerminal.states t /\ ClientTerminal.latest (f t).1 = ClientTerminal.latest t) ->
  moves steady (paint (S:=S) (Addr:=Addr) f).
Proof using Type. intros Hf s. unfold paint. specialize (Hf (terminal s)). destruct (f (terminal s)). by destruct Hf. Qed.

Lemma ordinary_steady c : ordinary c -> moves steady (perform c).
Proof using Qinbox HS.
  intros Hc. destruct c; cbn [ordinary] in Hc; try done; cbn [perform]; unfold quiet; apply (moves_bind steady); try (intros; by apply (moves_ret steady));
    try (apply (moves_modify steady); intros; by apply push_steady).
  - unfold send_input. moves_by steady; [apply note_steady | | intros; apply push_steady].
    intros s. unfold predict_input. destruct (_ <? _); [done|]. destruct (ClientTerminal.confirmed _); [|done]. by destruct (Prediction.new_user_bytes _ _ _ _).
  - apply (moves_modify steady). intros s. split; try done. cbn. unfold Sender.start_shutdown. by destruct (negb _).
  - apply (moves_modify steady). intros s. by apply hop_steady.
  - unfold next_wake_ms. moves_by steady. intros s. unfold wait_time_ms. destruct (Sender.wait_time _ _ _ _) as [[snd w]|err|] eqn:Hw; [|done|done].
    split; try done. by eapply wait_time_kept.
  - unfold advance_with. apply (moves_bind steady); [apply compose_steady|]. intros [cells cur]. apply (moves_modify steady). intros s.
    destruct (advance_states cells cur (terminal s)). by split.
  - unfold render_with. apply (moves_bind steady); [apply compose_steady|]. intros [cells cur]. apply paint_steady. intros t.
    unfold ClientTerminal.render. by destruct (ClientTerminal.next_display _ _ _) as [[]|].
  - apply paint_steady. intros t. unfold ClientTerminal.repaint_all. by destruct (_ !! _).
Qed.
End Steady.

(** ** The screens held are the server's *)
Section Synced.
Import Instruction HostStream ClientSession.
Context {S Addr : Type} `{HS : ClientScreen.Screen S} {HL : ClientScreen.ScreenLaws S} `{HR : Runtime} {P : Parser} `{EqDecision Addr}.
Context {HC : InstructionCodec} {HA : ClientPacket.Aead} {HP : HostProst}.
Abbreviation session := (MoshSession S Addr P).
Implicit Types s : session.

(** The bytes to paint of a list of events: the last there are. *)
Definition paint_event (painted : bytes) (ev : HostEvent) : bytes := match ev with Bytes l => l | _ => painted end.
Definition no_resize (ev : HostEvent) : Prop := match ev with Resize _ _ => False | _ => True end.

(** What the screens depend on. *)
Definition core s := (terminal s, receiver s, sender s, assembly s).

Lemma apply_events_core evs p s :
  Forall no_resize evs -> succeeds (apply_events p evs) s (fun s' p' => core s' = core s /\ p' = foldl paint_event p evs).
Proof using Type.
  revert p s. induction evs as [|ev evs IH]; intros p s Hevs; [by apply succeeds_ret|].
  apply Forall_cons in Hevs as [Hev Hevs]. cbn [apply_events foldl].
  eapply succeeds_bind with (R := fun s' p' => core s' = core s /\ p' = paint_event p ev).
  - destruct ev; try done; cbn [apply_event paint_event]; eexists _, _; (split; [reflexivity | by split]).
  - intros s' p' [Hs' ->]. destruct (IH (paint_event p ev) s' Hevs) as (s2 & p2 & Hr & Hc & Hp). exists s2, p2. split; [done|]. split; [congruence | done].
Qed.

(** Suppressing repeated events takes no bytes away. *)
Lemma retain_core keep evs s :
  (forall ev s, core (keep ev s).1 = core s /\ ((keep ev s).2 = false -> forall p, paint_event p ev = p)) ->
  succeeds (retain keep evs) s (fun s' evs' => core s' = core s /\ (forall p, foldl paint_event p evs' = foldl paint_event p evs) /\
    (Forall no_resize evs -> Forall no_resize evs')).
Proof using Type.
  intros Hkeep. revert s. induction evs as [|ev evs IH]; intros s; [by apply succeeds_ret|].
  destruct (Hkeep ev s) as [Hc Hp]. destruct (keep ev s) as [s1 kept] eqn:Hk. cbn [fst snd] in *.
  destruct (IH s1) as (s2 & evs2 & Hr & Hc2 & Hp2 & Hn2). exists s2, (if kept then ev :: evs2 else evs2).
  split; [cbn [retain]; rewrite Hk; unfold mbind, M_bind; by rewrite Hr|].
  split; [congruence|]. destruct kept; (split; [intros p; cbn [foldl] | intros [Hev Hevs]%Forall_cons]).
  - apply Hp2.
  - constructor; [done | by apply Hn2].
  - rewrite Hp2. by rewrite Hp.
  - by apply Hn2.
Qed.
Lemma query_new_core ev s : core (query_new ev s).1 = core s /\ ((query_new ev s).2 = false -> forall p, paint_event p ev = p).
Proof using Type. by destruct ev. Qed.
Lemma record_new_core ev s : core (record_new ev s).1 = core s /\ ((record_new ev s).2 = false -> forall p, paint_event p ev = p).
Proof using Type. by destruct ev. Qed.

Lemma acknowledged_kept n (snd : Sender.TransportSender) :
  Sender.sent_states snd <> [] ->
  Sender.ack_num (Sender.process_acknowledgement n snd) = Sender.ack_num snd /\ Sender.sent_states (Sender.process_acknowledgement n snd) <> [].
Proof using Type.
  intros Hne. unfold Sender.process_acknowledgement. destruct (existsb _ _) eqn:Hex; cbn [negb]; [|done]. split; [done|]. cbn.
  apply existsb_exists in Hex as (st & Hin & Heq). apply Z.eqb_eq in Heq.
  destruct (position (fun st0 => n <=? Sender.num st0) (Sender.sent_states snd)) as [k|] eqn:Hp; [|by rewrite drop_0].
  apply position_lt in Hp. cbn [default]. intros Hd%(f_equal length). rewrite length_drop in Hd. cbn in Hd. lia.
Qed.

Context (scr : Z -> S) (outgoing : Z -> option Transmission).

(** An instruction of a server whose screens are [scr]: from state [o], which it
    still keeps, to the later [n], with the bytes that make the one screen of the
    other, and no change of size. *)
Record honest (inst : Instruction) (o n th : Z) : Prop := {
  ho_version : protocol_version inst = Some MOSH_PROTOCOL_VERSION;
  ho_base : old_num inst = Some o;
  ho_num : new_num inst = Some n;
  ho_throwaway : throwaway_num inst = Some th;
  ho_order : th <= o < n /\ n < SHUTDOWN_NUM;
  ho_paints : exists evs,
    (if bool_decide (default [] (diff inst) = []) then Ok [] else parse_host_diff (default [] (diff inst))) = Ok evs /\
    Forall no_resize evs /\ scr n = ClientScreen.feed (foldl paint_event [] evs) (scr o);
}.

(** The screens held are the server's, every state the receiver diffs from has one,
    and the newest is what is shown and what is acknowledged. *)
Record synced s : Prop := {
  sy_receiver : receiver_wf (receiver s);
  sy_assembling : assembling outgoing (assembly s);
  sy_held : forall n a, ClientTerminal.states (terminal s) !! n = Some a -> ClientTerminal.screen a = scr n;
  sy_known : forall n, n ∈ Receiver.received (receiver s) -> is_Some (ClientTerminal.states (terminal s) !! n);
  sy_latest : ClientTerminal.latest (terminal s) ∈ Receiver.received (receiver s);
  sy_newest : forall n, n ∈ Receiver.received (receiver s) -> n <= ClientTerminal.latest (terminal s);
  sy_bounded : ClientTerminal.latest (terminal s) < SHUTDOWN_NUM;
  sy_ack : Sender.ack_num (sender s) = ClientTerminal.latest (terminal s);
  sy_sent : Sender.sent_states (sender s) <> [];
}.

Lemma synced_core s s' : core s' = core s -> synced s -> synced s'.
Proof using Type.
  intros Hc [Y1 Y2 Y3 Y4 Y5 Y6 Y7 Y8 Y9]. unfold core in Hc. injection Hc as Ht Hr Hs Ha. by split; rewrite ?Ht, ?Hr, ?Hs, ?Ha.
Qed.

Lemma connected_synced bound server is_ipv6 : synced (connect_with_screen bound server is_ipv6 (scr 0)).
Proof using Type.
  split; cbn; try done.
  - apply new_receiver_wf.
  - intros n a [<- <-]%lookup_singleton_Some. done.
  - intros n ->%list_elem_of_singleton. by rewrite lookup_singleton_eq.
  - by left.
  - by intros n ->%list_elem_of_singleton.
Qed.

(** The terminal on an honest diff. *)
Lemma terminal_follows (t : ClientTerminal.ClientTerminal S) o n th l :
  (forall m a, ClientTerminal.states t !! m = Some a -> ClientTerminal.screen a = scr m) -> is_Some (ClientTerminal.states t !! o) ->
  ClientTerminal.latest t < SHUTDOWN_NUM -> scr n = ClientScreen.feed l (scr o) ->
  let t' := ClientTerminal.forget_before th (ClientTerminal.apply_diff o n l t).1 in
  ClientTerminal.latest t' = Z.max (ClientTerminal.latest t) n /\
  (forall m a, ClientTerminal.states t' !! m = Some a -> ClientTerminal.screen a = scr m) /\
  (forall m, m = n \/ is_Some (ClientTerminal.states t !! m) -> th <= m \/ m = ClientTerminal.latest t' -> is_Some (ClientTerminal.states t' !! m)).
Proof using HL.
  intros Hheld [base Hbase] Hlt Hscr. unfold ClientTerminal.apply_diff. rewrite Hbase.
  set (next := if bool_decide (l = []) then base else _).
  assert (ClientTerminal.screen next = scr n) as Hnext.
  { unfold next. rewrite Hscr. case_bool_decide as Hl; [subst l; rewrite ClientScreen.feed_nothing; by apply Hheld|].
    cbn. by rewrite (Hheld o base). }
  set (t1 := if _ || _ then _ else _).
  assert (ClientTerminal.latest t1 = Z.max (ClientTerminal.latest t) n /\ ClientTerminal.states t1 = <[n := next]> (ClientTerminal.states t)) as [Hl1 Hs1].
  { subst t1. cbn [ClientTerminal.latest ClientTerminal.set_states]. destruct (Z.ltb_spec (ClientTerminal.latest t) n); cbn [orb]; [by split; [cbn; lia|]|].
    destruct (Z.eqb_spec (ClientTerminal.latest t) u64_max) as [He|]; [unfold SHUTDOWN_NUM in Hlt; lia|]. split; [cbn; lia | done]. }
  cbn [fst]. cbv zeta. split_and!.
  - done.
  - intros m a [Hm _]%map_lookup_filter_Some. rewrite Hs1 in Hm. apply lookup_insert_Some in Hm as [[<- <-] | [_ Hm]]; [done | by apply Hheld].
  - intros m Hm Hkept.
    assert (exists a, ClientTerminal.states t1 !! m = Some a) as [a Ha].
    { rewrite Hs1. destruct (decide (m = n)) as [->|Hne]; [by rewrite lookup_insert_eq; exists next|].
      rewrite lookup_insert_ne by done. destruct Hm as [|[a Ha]]; [done | by exists a]. }
    exists a. apply map_lookup_filter_Some_2; [done | exact Hkept].
Qed.

Lemma acknowledge_newest s L has_data now :
  Receiver.latest (E:=MoshError) (receiver s) = Ok L ->
  succeeds (acknowledge has_data now) s (fun s' _ =>
    terminal s' = terminal s /\ receiver s' = receiver s /\ assembly s' = assembly s /\
    Sender.ack_num (sender s') = L /\ Sender.sent_states (sender s') = Sender.sent_states (sender s)).
Proof using Type.
  intros HLatest. unfold acknowledge. eapply succeeds_bind; [apply succeeds_gets with (Q := fun s' r => s' = s /\ r = receiver s); done|].
  intros ? ? [-> ->]. eapply succeeds_bind with (R := fun s' l => s' = s /\ l = L); [rewrite HLatest; by apply succeeds_lift|].
  intros ? ? [-> ->]. apply succeeds_modify. unfold Sender.set_ack_num. by destruct has_data.
Qed.

(** The events of an honest diff, suppressed and applied: the bytes to paint. *)
Lemma events_applied inst o n th s :
  honest inst o n th ->
  exists evs, scr n = ClientScreen.feed (foldl paint_event [] evs) (scr o) /\
  succeeds (take_events (default [] (diff inst))) s
    (fun s' p => core s' = core s /\ p.1 = foldl paint_event [] evs).
Proof using Type.
  intros [_ _ _ _ _ (evs & Hevs & Hno & Hscr)]. exists evs. split; [done|].
  eapply succeeds_bind with (R := fun s' evs' => s' = s /\ evs' = evs).
  { destruct (bool_decide _); [injection Hevs as <-; by apply succeeds_ret | rewrite Hevs; by apply succeeds_lift]. }
  intros ? ? [-> ->]. eapply succeeds_bind; [apply retain_core, query_new_core|]. intros s1 evs1 (Hc1 & Hp1 & Hn1).
  eapply succeeds_bind; [apply retain_core, record_new_core|]. intros s2 evs2 (Hc2 & Hp2 & Hn2).
  eapply succeeds_bind; [apply apply_events_core; auto|]. intros s3 p3 [Hc3 ->]. apply succeeds_ret. cbn [fst].
  split; [congruence|]. by rewrite Hp2, Hp1.
Qed.

Lemma accept_state_synced s s1 inst o n th now in_order :
  synced s -> honest inst o n th ->
  terminal s1 = terminal s -> sender s1 = sender s -> assembly s1 = assembly s ->
  receiver_wf (receiver s1) -> o ∈ Receiver.received (receiver s) ->
  (forall m, m ∈ Receiver.received (receiver s1) <-> m = n \/ (m ∈ Receiver.received (receiver s) /\ th <= m)) ->
  ((forall m, m ∈ Receiver.received (receiver s) -> m < n) <-> in_order = true) ->
  succeeds (accept_state inst n now (default [] (diff inst)) in_order) s1 (fun s' _ => synced s').
Proof using HL.
  intros Hs Hi Ht1 Hs1 Ha1 Hwf Ho Hin Horder. pose proof Hs as [_ Hasm Hheld Hknown Hlat Hmax Hbound Hack Hsent].
  pose proof Hi as [_ Hold _ Hthrow [Hth Hn] _]. set (L := Z.max (ClientTerminal.latest (terminal s)) n).
  pose proof (Hmax o Ho) as Hmo.
  assert (last (Receiver.received (receiver s1)) = Some L) as Hlast.
  { apply newest_unique; [apply Hwf | |].
    - apply Hin. unfold L. destruct (Z.max_spec (ClientTerminal.latest (terminal s)) n) as [[? ->]|[? ->]]; [by left | right; split; [done | lia]].
    - unfold L. intros x [->|[Hx _]]%Hin; [lia|]. specialize (Hmax x Hx). lia. }
  unfold accept_state. cbv zeta.
  eapply succeeds_bind with (R := fun s2 _ => terminal s2 = terminal s /\ receiver s2 = receiver s1 /\ assembly s2 = assembly s /\
    Sender.ack_num (sender s2) = L /\ Sender.sent_states (sender s2) = Sender.sent_states (sender s)).
  { destruct in_order; cbn [when].
    - destruct (acknowledge_newest s1 L (negb (bool_decide (default [] (diff inst) = []))) now) as (s2 & u & Hr & Ht2 & Hr2 & Ha2 & Hk & Hss).
      { unfold Receiver.latest. by rewrite Hlast. }
      exists s2, u. split; [done|]. rewrite Ht2, Hr2, Ha2, Hss, <- Ht1, <- Ha1, <- Hs1. done.
    - apply succeeds_ret. split_and!; [done | done | done | | by rewrite Hs1]. rewrite Hs1, Hack. unfold L.
      destruct (Z.lt_ge_cases (ClientTerminal.latest (terminal s)) n) as [Hlt|]; [|lia]. exfalso.
      assert (false = true) as [=]. apply Horder. intros m Hm%Hmax. lia. }
  intros s2 _ (Ht2 & Hr2 & Ha2 & Hk2 & Hss2).
  destruct (events_applied inst o n th s2 Hi) as (evs & Hscr & Htake).
  eapply succeeds_bind; [exact Htake|]. intros s3 [painted evs3] [Hc3 Hp3]. cbn [fst] in Hp3. subst painted.
  unfold core in Hc3. injection Hc3 as Ht3 Hr3 Hs3 Ha3. rewrite Hold, Hthrow. cbn [default].
  destruct (terminal_follows (terminal s) o n th _ Hheld (Hknown o Ho) Hbound Hscr) as (Hl4 & Hheld4 & Hknown4). fold L in Hl4.
  eapply succeeds_bind with (R := fun s4 _ => terminal s4 = (ClientTerminal.apply_diff o n (foldl paint_event [] evs) (terminal s)).1 /\
    receiver s4 = receiver s3 /\ sender s4 = sender s3 /\ assembly s4 = assembly s3); [apply succeeds_modify; by rewrite <- Ht2, <- Ht3|].
  intros s4 _ (Ht4 & Hr4 & Hs4 & Ha4). rewrite <- Ht4 in Hl4, Hheld4, Hknown4.
  eapply succeeds_bind with (R := fun s5 _ => terminal s5 = ClientTerminal.forget_before th (terminal s4) /\
    receiver s5 = receiver s4 /\ sender s5 = sender s4 /\ assembly s5 = assembly s4); [by apply succeeds_modify|].
  intros s5 _ (Ht5 & Hr5 & Hs5 & Ha5). apply succeeds_ret. rewrite <- Ht5 in Hl4, Hheld4, Hknown4.
  assert (receiver s5 = receiver s1) as Hr by congruence. assert (sender s5 = sender s2) as Hsnd by congruence.
  split; rewrite ?Hr, ?Hsnd, ?Hl4.
  - done.
  - rewrite Ha5, Ha4, Ha3, Ha2. done.
  - exact Hheld4.
  - intros m Hm%Hin. apply Hknown4; [destruct Hm as [->|[Hm _]]; [by left | right; by apply Hknown] | left; destruct Hm as [->|[_ ?]]; lia].
  - by apply newest_received in Hlast as [? _]; [|apply Hwf].
  - by apply newest_received in Hlast as [_ ?]; [|apply Hwf].
  - unfold L. unfold SHUTDOWN_NUM in *. lia.
  - done.
  - by rewrite Hss2.
Qed.

(** One honest instruction, whatever came before it. *)
Lemma handle_instruction_synced inst o n th now s :
  synced s -> honest inst o n th -> succeeds (handle_instruction inst now) s (fun s' _ => synced s').
Proof using HL.
  intros Hs Hi. pose proof Hi as [Hver Hold Hnum Hthrow [Hth Hn] _]. unfold handle_instruction.
  eapply succeeds_bind with (R := fun s1 _ => s1 = s).
  { unfold check_version. rewrite decide_True by done. by apply succeeds_lift. }
  intros ? _ ->. eapply succeeds_bind with (R := fun s1 _ => synced s1).
  { destruct (ack_num inst) as [ack|]; [|by apply succeeds_ret]. apply succeeds_modify. destruct Hs.
    destruct (acknowledged_kept ack (sender s) ltac:(done)) as [Hk Hne]. split; try done. cbn. by rewrite Hk. }
  clear s Hs. intros s _ Hs. eapply succeeds_bind with (R := fun s1 _ => synced s1).
  { rewrite bool_decide_eq_false_2; [by apply succeeds_ret|]. rewrite Hnum. intros [= ->]. lia. }
  clear s Hs. intros s _ Hs. eapply succeeds_bind with (R := fun s1 snd => s1 = s /\ snd = sender s); [by apply succeeds_gets|].
  intros ? ? [-> ->]. eapply succeeds_bind with (R := fun s1 _ => s1 = s).
  { unfold Sender.sent_state_acked_timestamp. destruct (Sender.sent_states (sender s)) as [|first rest] eqn:Hss; [by destruct (sy_sent _ Hs)|].
    by apply succeeds_lift. }
  intros ? answered ->. eapply succeeds_bind with (R := fun s1 _ => synced s1); [by apply succeeds_modify; destruct Hs|].
  clear s Hs. intros s _ Hs. pose proof Hs as [Hwf Hasm Hheld Hknown Hlat Hmax Hbound Hack Hsent].
  destruct (process_honest (E:=MoshError) inst now (receiver s) o n th Hwf Hold Hnum Hthrow (proj1 Hth)) as (r' & what & Hp & Hwf' & Hwhat).
  eapply succeeds_bind with (R := fun s1 got => got = what /\ receiver s1 = r' /\ terminal s1 = terminal s /\ sender s1 = sender s /\ assembly s1 = assembly s).
  { unfold receive. eexists _, _. rewrite Hp. split; [reflexivity|]. done. }
  intros s1 got (-> & Hr1 & Ht1 & Hs1 & Ha1). destruct what as [num d | num d | |].
  - destruct Hwhat as (-> & -> & Ho & Hin & Horder). apply (accept_state_synced s s1 inst o n th); rewrite ?Hr1; try done. split; [done | intros _; by apply Horder].
  - destruct Hwhat as (-> & -> & Ho & Hin & Horder). apply (accept_state_synced s s1 inst o n th); rewrite ?Hr1; try done. split; [by intros ?%Horder | done].
  - subst r'. assert (core s1 = core s) as Hc by (unfold core; congruence). pose proof (synced_core _ _ Hc Hs) as Hsy.
    eapply succeeds_bind with (R := fun s2 _ => synced s2); [|intros; by apply succeeds_ret].
    destruct (acknowledge_newest s1 (ClientTerminal.latest (terminal s1)) false now) as (s2 & u & Hrun & Ht2 & Hr2 & Ha2 & Hk2 & Hss2).
    { unfold Receiver.latest. destruct Hsy as [[Hasc _] _ _ _ Hl Hm _ _ _]. by rewrite (newest_unique _ _ Hasc Hl Hm). }
    exists s2, u. split; [done|]. destruct Hsy. split; rewrite ?Ht2, ?Hr2, ?Ha2, ?Hss2; done.
  - apply succeeds_ret. destruct Hwhat as [-> | [Ho Hin]].
    + eapply synced_core; [|exact Hs]. unfold core. congruence.
    + split; rewrite ?Ht1, ?Hr1, ?Hs1, ?Ha1; try done.
      * intros m [Hm _]%Hin. by apply Hknown.
      * apply Hin. split; [done|]. specialize (Hmax o Ho). lia.
      * intros m [Hm _]%Hin. by apply Hmax.
Qed.

(** Whatever authenticates as the server's carries one of its fragments. *)
Definition genuine (l : bytes) : Prop := forall incoming packet frag,
  ClientPacket.decrypt l = Ok incoming -> ClientPacket.direction incoming = ClientPacket.ToClient ->
  ClientPacket.from_plaintext (ClientPacket.plaintext incoming) = Ok packet -> ClientPacket.payload packet <> [] ->
  from_bytes (ClientPacket.payload packet) = Ok frag -> from_server outgoing frag.

(** What the server sends is well formed and honest. *)
Hypothesis Hout : forall key tr, outgoing key = Some tr -> transmitted tr.
Hypothesis Hhonest : forall key tr, outgoing key = Some tr -> exists o n th, honest (carries tr) o n th.

Lemma decrypt_returns l : ClientPacket.decrypt l <> Panic.
Proof using Type. unfold ClientPacket.decrypt. case_match; [done|]. cbv zeta. by destruct (ClientPacket.open _ _ _). Qed.

Lemma synced_assembly a s : synced s -> assembling outgoing a -> synced (s <| assembly := a |>).
Proof using Type. intros [] Ha. by split. Qed.

(** In step, and no panic. *)
Definition fine {A} (p : session * result MoshError A) : Prop := synced p.1 /\ p.2 <> Panic.

(** One datagram, whatever it is: the session stays in step and does not panic. *)
Lemma handle_datagram_synced l now s : genuine l -> synced s -> fine (handle_datagram l now s).
Proof using HL Hout Hhonest.
  intros Hg Hs. unfold handle_datagram, mret, M_ret, mbind, M_bind, lift, modify. pose proof (decrypt_returns l).
  destruct (ClientPacket.decrypt l) as [inc|e|] eqn:Hdec; [|done|done].
  case_bool_decide as Hdir; cbn [negb]; [|done].
  assert (synced (s <| heard_from_server := true |>)) as Hs1 by (by destruct Hs).
  set (s1 := s <| heard_from_server := true |>) in *. clearbody s1.
  destruct (ClientPacket.from_plaintext (ClientPacket.plaintext inc)) as [packet|e|] eqn:Hpl; [|done|].
  2: { unfold ClientPacket.from_plaintext in Hpl. by case_match. }
  assert (synced (s1 <| packets := (ClientPacket.accept now (ClientPacket.seq inc) packet false (packets s1)).1 |>)) as Hs2 by (by destruct Hs1).
  set (s2 := s1 <| packets := _ |>) in *. clearbody s2. clear s1 Hs1.
  case_bool_decide as Hempty; [done|]. destruct (from_bytes (ClientPacket.payload packet)) as [frag|e|] eqn:Hfrag; [|done|].
  2: { unfold from_bytes in Hfrag. by case_match. }
  destruct (fragment_added outgoing Hout frag (assembly s2) (sy_assembling _ Hs2) (Hg _ _ _ Hdec Hdir Hpl Hempty Hfrag))
    as (a & complete & Hadd & Hasm & Hcur & Htotal).
  unfold assemble. rewrite Hadd. pose proof (synced_assembly a _ Hs2 Hasm) as Hs3. set (s3 := s2 <| assembly := a |>) in *.
  destruct complete; cbn [negb]; [|done].
  destruct (assembled_spec outgoing Hout a Hasm Hcur (Htotal eq_refl)) as (key & tr & Htr & Htake & Hreset).
  unfold assembled. change (assembly s3) with a. rewrite Htake. pose proof (synced_assembly (reset a) _ Hs3 Hreset) as Hs4.
  destruct (Hhonest key tr Htr) as (o & n & th & Hi).
  destruct (handle_instruction_synced (carries tr) o n th now _ Hs4 Hi) as (s5 & evs & Hrun & Hs5). by rewrite Hrun.
Qed.

(** In step, with nothing forged as the server's waiting in a socket. *)
Definition waiting (sock : Socket Addr) : Prop := Forall (fun a => genuine (datagram a)) (inbox sock).
Definition in_step s : Prop := synced s /\ Forall waiting (sockets s).

Lemma drain_socket_fine inbox taken received events s :
  Forall (fun a => genuine (datagram a)) inbox -> synced s ->
  succeeds (drain_socket inbox taken received events) s (fun s' r => synced s' /\ sockets s' = sockets s /\ Forall (fun a => genuine (datagram a)) r.1.1.1).
Proof using HL Hout Hhonest.
  intros Hin. revert taken received events s. induction Hin as [|a inbox Ha Hin IH]; intros taken received events s Hs; [by apply succeeds_ret|].
  assert (forall s1 received1 events1, synced s1 -> sockets s1 = sockets s ->
    exists s' r, (if (MAX_DATAGRAMS_PER_PUMP <=? Datatypes.S taken)%nat then (s1, Ok (inbox, Datatypes.S taken, received1, events1))
      else drain_socket inbox (Datatypes.S taken) received1 events1 s1) = (s', Ok r) /\ synced s' /\ sockets s' = sockets s /\ Forall (fun a => genuine (datagram a)) r.1.1.1) as Hrest.
  { intros s1 received1 events1 Hs1 Hsock. destruct (_ <=? _)%nat; [by eexists _, _|].
    destruct (IH (Datatypes.S taken) received1 events1 s1 Hs1) as (s' & r & Hr & Hsy & Hso & Hf). exists s', r. split_and!; [done | done | congruence | done]. }
  unfold succeeds. cbn [drain_socket]. cbv zeta. destruct (decide (from a = server s)); [|by apply Hrest].
  pose proof (handle_datagram_synced (datagram a) (read_at a) s Ha Hs) as [Hs1 Hnp].
  pose proof (f_equal fst (handle_datagram_sockets (datagram a) (read_at a) s)) as Hsock. cbn [ports fst] in Hsock.
  destruct (handle_datagram (datagram a) (read_at a) s) as [s1 [got|err|]]; cbn [fst snd] in *; [by apply Hrest | by apply Hrest | done].
Qed.

Lemma drain_sockets_fine socks taken received events s :
  Forall waiting socks -> synced s ->
  succeeds (drain_sockets socks taken received events) s (fun s' r => synced s' /\ Forall waiting r.1.1).
Proof using HL Hout Hhonest.
  intros Hin. revert taken received events s. induction Hin as [|sock socks Hsock Hin IH]; intros taken received events s Hs; [by apply succeeds_ret|].
  cbn [drain_sockets]. destruct (taken <? _)%nat; [|apply succeeds_ret; split; [done | by constructor]].
  eapply succeeds_bind; [by apply drain_socket_fine|]. intros s1 [[[left1 taken1] received1] events1] (Hs1 & _ & Hleft).
  eapply succeeds_bind; [by apply IH|]. intros s2 [[socks2 received2] events2] [Hs2 Hsocks]. apply succeeds_ret. split; [done|]. by constructor.
Qed.

Context {HU : ClientStream.Prost} {HD : ClientScreen.DiffScreen S}.
Lemma steady_in_step s s' : steady waiting s s' -> in_step s -> in_step s'.
Proof using Type.
  intros [Hst Hl Hr Ha _ _ [Hk1 Hk2] Hq _] [[] Hw]. split; [|auto]. split; rewrite ?Hst, ?Hl, ?Hr, ?Ha, ?Hk1; auto.
Qed.

Lemma cycle_in_step now chaff network bind :
  from_option waiting True bind -> moves (holding in_step) (cycle now chaff network bind).
Proof using HL Hout Hhonest.
  intros Hb s [Hs Hw]. destruct (drain_sockets_fine (sockets s) 0 false [] s Hw Hs) as (s1 & [[socks received] events] & Hd & Hs1 & Hw1).
  rewrite (cycle_after_reading now chaff network bind _ _ _ _ _ Hd).
  eapply steady_in_step; [apply after_reading_steady; [intros sock sent Hq; exact Hq | exact Hb]|]. split; [by destruct Hs1 | exact Hw1].
Qed.

(** What may reach the client, and the sockets it is given. *)
Definition allowed (c : call (Addr:=Addr)) : Prop :=
  match c with
  | Arrives _ a => genuine (datagram a)
  | Turn _ _ _ bind | Roam bind _ => from_option waiting True bind
  | _ => True
  end.
Lemma arrive_in_step socket a s : genuine (datagram a) -> in_step s -> in_step (arrive socket a s).
Proof using Type.
  intros Ha [Hs Hw]. split; [by destruct Hs|]. cbn. apply Forall_alter; [done|]. intros sock _ Hsock. apply Forall_app. split; [done | by constructor].
Qed.
Lemma perform_in_step c : allowed c -> moves (holding in_step) (perform c).
Proof using HL Hout Hhonest.
  intros Hc. destruct c as [socket a|now chaff network bind| | | | | | | | | | | | | | |].
  1: cbn [perform]; unfold quiet; moves_by (holding in_step); intros s Hs; by apply arrive_in_step.
  1: by apply cycle_in_step.
  all: intros s Hs; (eapply steady_in_step; [|exact Hs]); by apply ordinary_steady.
Qed.

(** C4. With a server whose messages decode, that changes no size and has not shut down, whatever reaches
    the client, in any order and however often, none that authenticates being forged: every screen it holds is the
    server's of that number, every state it received has one, what it shows is the newest, and that
    is the state it acknowledges. *)
Theorem held_screens_are_the_servers bound server is_ipv6 calls :
  waiting bound -> Forall allowed calls ->
  let s := (run calls (connect_with_screen bound server is_ipv6 (scr 0))).1 in
  (forall n a, ClientTerminal.states (terminal s) !! n = Some a -> ClientTerminal.screen a = scr n) /\
  (forall n, n ∈ Receiver.received (receiver s) -> is_Some (ClientTerminal.states (terminal s) !! n)) /\
  ClientTerminal.confirmed (terminal s) = Some (scr (ClientTerminal.latest (terminal s))) /\
  last (Receiver.received (receiver s)) = Some (ClientTerminal.latest (terminal s)) /\
  Sender.ack_num (sender s) = ClientTerminal.latest (terminal s).
Proof using HL Hout Hhonest.
  intros Hb Hc s. assert (in_step s) as [[[Hasc _] _ Hheld Hknown Hlat Hmax _ Hack _] _].
  { unfold s. eapply run_safe; [apply perform_in_step | exact Hc |]. split; [apply connected_synced | by constructor]. }
  split_and!; [done | done | | by apply newest_unique | done].
  destruct (Hknown _ Hlat) as [a Ha]. unfold ClientTerminal.confirmed. rewrite Ha. cbn. f_equal. by apply Hheld.
Qed.
End Synced.


(** ** A server that sends three states *)
Module SampleServer.
Import ClientScreen ClientTerminal.Sample Instruction Assembly HostStream ClientSession.
#[local] Existing Instance ClientPacket.Direction_eq_dec.
#[export] Existing Instance ClientPacket.plain_aead.
#[export] Existing Instance PredictionRuns.Line.plain_parser.
#[export] Existing Instance ClientStream.Sample.sample_prost.
#[export] Instance text_laws : ScreenLaws text_screen.
Proof. split. intros [size l]. cbn. by rewrite app_nil_r. Qed.

(** The base, the number and what is thrown away, a byte each, then the diff. *)
#[export] Instance byte_codec : InstructionCodec := {
  encode_to_vec i := z2b (default 0 (old_num i)) :: z2b (default 0 (new_num i)) :: z2b (default 0 (throwaway_num i)) :: default [] (diff i);
  decode l := match l with o :: n :: th :: d => Some (new (b2z o) (b2z n) 0 (b2z th) d []) | _ => None end;
  compress l := Some l;
  decompress_at_most n l := Some (take (Z.to_nat n) l);
}.
(** A query where the diff starts with a question mark, another width where it starts
    with an R, and no message at all where it starts with an X. *)
Definition painting (l : bytes) : HostInstruction := mkHost (Some (mkHostBytes (Some l))) None None None None.
#[export] Instance byte_host : HostProst := {
  decode_host l := match l with
    | q :: x :: rest =>
        if b2z q =? 0x3f then Some [mkHost None None None (Some (mkQuery (Some (b2z x)) (Some [q]))) None; painting rest]
        else if b2z q =? 0x52 then Some [mkHost None (Some (ClientStream.mkResize (Some (b2z x)) (Some 24))) None None None; painting rest]
        else if b2z q =? 0x58 then None
        else Some [painting l]
    | _ => Some [painting l]
    end;
}.

Definition screens (n : Z) : text_screen := ((24, 80), take (Z.to_nat n) (text "abc")).
Definition steps (key : Z) : option (Z * Z * bytes) :=
  if key =? 1 then Some (0, 1, text "a") else if key =? 2 then Some (1, 2, text "b") else if key =? 3 then Some (0, 3, text "?!abc") else None.
Definition sent (key : Z) : option Transmission :=
  '(o, n, d) ← steps key;
  let inst := new o n 0 0 d [] in
  let l := encode_to_vec inst in
  Some (mkTransmission inst [take 3 l; drop 3 l]).
Definition sealed (key : Z) (frag : Fragment) : list bytes :=
  match (ClientPacket.encrypt key ClientPacket.ToClient (ClientPacket.to_plaintext (ClientPacket.mkPacket 1 2 (to_bytes frag))) 0).2 with
  | Ok l => [l]
  | _ => []
  end.
Definition datagrams (key : Z) : list bytes :=
  match sent key with
  | Some tr => concat ((fun i => sealed key (piece key (pieces tr) i)) <$> [0; 1]%nat)
  | None => []
  end.
Definition arrivals : list (call (Addr:=nat)) :=
  (fun l => Arrives 0 (mkArrival l 0%nat 5)) <$> concat (datagrams <$> [2; 3; 1; 1; 3; 2]).
Definition turn (now : Z) : call (Addr:=nat) := Turn now [] (fun _ => None) None.
Example three_states : (length arrivals = 12)%nat. Proof. vm_compute. reflexivity. Qed.
Definition after := (run (TypeIn (text "x") 5 :: arrivals ++ [turn 10; Repaint; turn 400]) (connect_with_screen (mkSocket [] []) 0%nat false (screens 0))).

Lemma sent_keys key tr : sent key = Some tr -> key = 1 \/ key = 2 \/ key = 3.
Proof.
  unfold sent, steps. destruct (Z.eqb_spec key 1); [by left|]. destruct (Z.eqb_spec key 2); [by right; left|].
  destruct (Z.eqb_spec key 3); [by right; right | done].
Qed.
Lemma sent_transmitted key tr : sent key = Some tr -> transmitted tr.
Proof. intros Hs. destruct (sent_keys key tr Hs) as [->|[->| ->]]; injection Hs as <-; (split; [done | by vm_compute | by vm_compute]). Qed.
Lemma sent_honest key tr : sent key = Some tr -> exists o n th, honest screens (carries tr) o n th.
Proof.
  intros Hs. destruct (sent_keys key tr Hs) as [->|[->| ->]]; injection Hs as <-.
  - exists 0, 1, 0. split; try done. eexists. split; [reflexivity|]. split; [by repeat constructor | done].
  - exists 1, 2, 0. split; try done. eexists. split; [reflexivity|]. split; [by repeat constructor | done].
  - exists 0, 3, 0. split; try done. eexists. split; [reflexivity|]. split; [by repeat constructor | done].
Qed.
Definition fragment_of (l : bytes) : result MoshError Fragment :=
  incoming ← ClientPacket.decrypt l; packet ← ClientPacket.from_plaintext (ClientPacket.plaintext incoming); from_bytes (ClientPacket.payload packet).
#[local] Instance Fragment_eq_dec : EqDecision Fragment.
Proof. solve_decision. Defined.
Definition is_sent (l : bytes) : bool :=
  match fragment_of l with
  | Ok frag => existsb (fun i => match sent (id frag) with Some tr => bool_decide ((i < length (pieces tr))%nat /\ frag = piece (id frag) (pieces tr) i) | None => false end) [0; 1]%nat
  | _ => false
  end.
Lemma sent_genuine l : is_sent l = true -> genuine sent l.
Proof.
  unfold is_sent. intros Hl inc packet frag Hinc _ Hpl _ Hfrag. unfold fragment_of in Hl. rewrite Hinc in Hl. cbn [mbind result_bind] in Hl.
  rewrite Hpl in Hl. cbn [mbind result_bind] in Hl. rewrite Hfrag in Hl.
  apply existsb_exists in Hl as (i & _ & Hi). destruct (sent (id frag)) as [tr|] eqn:Htr; [|done]. apply bool_decide_eq_true in Hi as [Hi Heq].
  by exists tr, i.
Qed.
Lemma arrivals_sent : Forall (allowed sent) arrivals.
Proof.
  unfold arrivals. apply Forall_fmap, Forall_forall. intros l Hl. apply sent_genuine.
  assert (forallb is_sent (concat (datagrams <$> [2; 3; 1; 1; 3; 2])) = true) as Hall by (vm_compute; reflexivity).
  rewrite forallb_forall in Hall. by apply Hall, list_elem_of_In.
Qed.

(** The second state before its base, the third, the first late, and all three again. *)
Definition a_run : list (call (Addr:=nat)) := TypeIn (text "x") 5 :: arrivals ++ [turn 10; Repaint; turn 400].
Definition after_run : MoshSession text_screen nat PredictionRuns.Line.plain_parser * list HostEvent :=
  run a_run (connect_with_screen (mkSocket [] []) 0%nat false (screens 0)).
Lemma held_screens_are_the_servers_witness :
  ClientTerminal.confirmed (terminal after_run.1) = Some (screens 3) /\ after_run.2 = [Query 33 (text "?"); Bytes (text "abc"); Bytes (text "a"); Bytes (text "b")].
Proof.
  assert (ClientTerminal.latest (terminal after_run.1) = 3) as Hl by (vm_compute; reflexivity).
  split; [|vm_compute; reflexivity].
  destruct (held_screens_are_the_servers (S:=text_screen) screens sent sent_transmitted sent_honest (mkSocket [] []) 0%nat false a_run) as (_ & _ & Hc & _).
  - exact (List.Forall_nil _).
  - apply Forall_cons. split; [exact I|]. apply Forall_app. split; [exact arrivals_sent|]. repeat constructor.
  - change (ClientTerminal.confirmed (terminal after_run.1) = Some (screens (ClientTerminal.latest (terminal after_run.1)))) in Hc.
    rewrite Hl in Hc. exact Hc.
Defined.
End SampleServer.
