(* ===== verification/SessionTurns.v ===== *)
(** * A turn of the client session

    What a turn reads and what it leaves, that a request is handed over once, and that the ports stay
    few: what holds of [ClientSession] whatever reaches it, forged or not. *)
From Stdlib Require Import ZArith Lia List Bool.
From stdpp Require Import base numbers list gmap strings.
From S2P Require Import Prelude Text ClientStream Instruction Sender Receiver ClientScreen ClientTerminal ClientPacket Prediction ClientSession SessionRuns.
Open Scope Z_scope.
Open Scope zetta_scope.

(** ** What a turn reads *)
Section Drain.
Import Instruction HostStream ClientSession.
Context {S Addr : Type} `{HS : ClientScreen.Screen S} `{HR : Runtime} {P : Parser} `{HE : EqDecision Addr}.
Context {HC : InstructionCodec} {HA : ClientPacket.Aead} {HP : HostProst}.
Abbreviation session := (MoshSession S Addr P).
Implicit Types s : session.

(** The datagrams one after another: whether one was the server's, and the events. An
    error loses the datagram and nothing else. *)
Fixpoint handle_each (l : list (Arrival Addr)) (received : bool) (events : list HostEvent) : M (S:=S) (Addr:=Addr) (P:=P) (bool * list HostEvent) :=
  match l with
  | [] => mret (received, events)
  | a :: l => fun s =>
      if decide (from a = server s) then
        match handle_datagram (datagram a) (read_at a) s with
        | (s, Ok got) => handle_each l true (events ++ got) s
        | (s, Err _) => handle_each l true events s
        | (s, Panic) => (s, Panic)
        end
      else handle_each l received events s
  end.

Lemma handle_each_app l l' received events s :
  handle_each (l ++ l') received events s = ('(received, events) ← handle_each l received events; handle_each l' received events) s.
Proof using Type.
  revert received events s. induction l as [|a l IH]; intros received events s; [done|]. cbn [app handle_each]. unfold mbind, M_bind.
  destruct (decide _); [|apply IH]. destruct (handle_datagram _ _ _) as [s1 [got|err|]]; [apply IH | apply IH | done].
Qed.

Lemma drain_socket_handles l taken received events s :
  (taken < MAX_DATAGRAMS_PER_PUMP)%nat ->
  let left := (MAX_DATAGRAMS_PER_PUMP - taken)%nat in
  drain_socket l taken received events s =
  ('(received, events) ← handle_each (take left l) received events; mret (drop left l, (taken + length (take left l))%nat, received, events)) s.
Proof using Type.
  intros Hlt left. unfold left. clear left. revert taken received events s Hlt. induction l as [|a l IH]; intros taken received events s Hlt.
  { rewrite take_nil, drop_nil. cbn. by rewrite Nat.add_0_r. }
  assert (MAX_DATAGRAMS_PER_PUMP - taken = Datatypes.S (MAX_DATAGRAMS_PER_PUMP - Datatypes.S taken))%nat as -> by lia.
  cbn [take drop length drain_socket]. cbv zeta. unfold mbind, M_bind. cbn [handle_each].
  assert (forall s received events, (if (MAX_DATAGRAMS_PER_PUMP <=? Datatypes.S taken)%nat then (s, Ok (l, Datatypes.S taken, received, events))
    else drain_socket l (Datatypes.S taken) received events s) =
    ('(received, events) ← handle_each (take (MAX_DATAGRAMS_PER_PUMP - Datatypes.S taken) l) received events;
     mret (drop (MAX_DATAGRAMS_PER_PUMP - Datatypes.S taken) l,
       (taken + Datatypes.S (length (take (MAX_DATAGRAMS_PER_PUMP - Datatypes.S taken) l)))%nat, received, events)) s) as Hrest.
  { intros s1 received1 events1. destruct (Nat.leb_spec MAX_DATAGRAMS_PER_PUMP (Datatypes.S taken)).
    - replace (MAX_DATAGRAMS_PER_PUMP - Datatypes.S taken)%nat with 0%nat by lia. cbn. by rewrite Nat.add_1_r.
    - rewrite IH by lia. by rewrite Nat.add_succ_r. }
  destruct (decide _); [|apply Hrest]. destruct (handle_datagram _ _ _) as [s1 [got|err|]]; [apply Hrest | apply Hrest | done].
Qed.

Definition waiting_all (socks : list (Socket Addr)) : list (Arrival Addr) := concat (inbox <$> socks).
(** The ports with the first [n] of what waits taken from them, each port's own from its front. *)
Fixpoint unread (n : nat) (socks : list (Socket Addr)) : list (Socket Addr) :=
  match socks with
  | [] => []
  | sock :: socks => mkSocket (drop n (inbox sock)) (outbox sock) :: unread (n - length (inbox sock)) socks
  end.
Lemma unread_outbox n socks : outbox <$> unread n socks = outbox <$> socks.
Proof using Type. revert n. induction socks as [|sock socks IH]; intros n; [done|]. cbn. by rewrite <- (IH (n - length (inbox sock))%nat). Qed.
Lemma unread_none socks : unread 0 socks = socks.
Proof using Type. induction socks as [|[? ?] socks IH]; [done|]. cbn [unread]. by rewrite Nat.sub_0_l, drop_0, IH. Qed.

Lemma drain_sockets_handles socks taken received events s :
  (taken <= MAX_DATAGRAMS_PER_PUMP)%nat ->
  let left := (MAX_DATAGRAMS_PER_PUMP - taken)%nat in
  drain_sockets socks taken received events s =
  ('(received, events) ← handle_each (take left (waiting_all socks)) received events; mret (unread left socks, received, events)) s.
Proof using Type.
  intros Hle left. unfold left. clear left. revert taken received events s Hle. induction socks as [|sock socks IH]; intros taken received events s Hle.
  { cbn. by rewrite take_nil. }
  cbn [drain_sockets unread]. unfold waiting_all. cbn [fmap list_fmap concat]. fold (waiting_all socks).
  destruct (Nat.ltb_spec taken MAX_DATAGRAMS_PER_PUMP) as [Hlt|Hge].
  2: { replace (MAX_DATAGRAMS_PER_PUMP - taken)%nat with 0%nat by lia. rewrite Nat.sub_0_l, unread_none, take_0, drop_0. by destruct sock. }
  set (left := (MAX_DATAGRAMS_PER_PUMP - taken)%nat). set (taken1 := (taken + length (take left (inbox sock)))%nat).
  assert (length (take left (inbox sock)) = left `min` length (inbox sock))%nat as Hlen by apply length_take.
  assert (MAX_DATAGRAMS_PER_PUMP - taken1 = left - length (inbox sock))%nat as Hleft by lia.
  pose proof (drain_socket_handles (inbox sock) taken received events s Hlt) as Hsock. cbv zeta in Hsock. fold left taken1 in Hsock.
  unfold mbind, M_bind in Hsock |- *. rewrite Hsock, take_app, handle_each_app. unfold mbind, M_bind.
  destruct (handle_each (take left (inbox sock)) received events s) as [s1 [[received1 events1]|err|]]; [|done|done]. cbn [mret M_ret].
  rewrite (IH taken1) by lia. rewrite Hleft. unfold mbind, M_bind. by destruct (handle_each _ _ _ s1) as [s2 [[received2 events2]|err|]].
Qed.

(** C10. The reading of a turn takes at most sixty-four datagrams, in the order of the ports and then of
    their arrival, whoever sent them: it does what handling those of the server one after another does,
    an error costing its own datagram only; and each port is left what it held that was not read, in order.
    (The turn then closes ports that are too many or too old, with what is left in them:
    [Losses.unread_datagrams_are_dropped].) *)
Theorem a_turn_reads_in_order socks s :
  drain_sockets socks 0 false [] s =
  ('(received, events) ← handle_each (take 64 (waiting_all socks)) false []; mret (unread 64 socks, received, events)) s.
Proof using Type. apply (drain_sockets_handles socks 0). unfold MAX_DATAGRAMS_PER_PUMP. lia. Qed.
End Drain.

(** ** The ports *)
Section Ports.
Import Instruction HostStream ClientSession.
Context {S Addr : Type} `{HS : ClientScreen.Screen S} `{HR : Runtime} {P : Parser} `{HE : EqDecision Addr}.
Context {HC : InstructionCodec} {HA : ClientPacket.Aead} {HU : ClientStream.Prost} {HP : HostProst} {HD : ClientScreen.DiffScreen S}.
Abbreviation session := (MoshSession S Addr P).
Implicit Types s : session.
Abbreviation anything := (fun _ : Socket Addr => True).

Lemma handle_each_same {B} (f : session -> B) l received events :
  (forall l now, moves (same f) (handle_datagram l now)) -> moves (same f) (handle_each (S:=S) (P:=P) l received events).
Proof using Type.
  intros Hf. revert received events. induction l as [|a l IH]; intros received events s; [done|]. cbn [handle_each].
  destruct (decide _); [|apply IH]. pose proof (Hf (datagram a) (read_at a) s) as H1. unfold same in *.
  destruct (handle_datagram _ _ s) as [s1 [got|err|]]; cbn [fst] in H1; [|..|done]; rewrite <- H1; apply IH.
Qed.

(** A turn: the reading, and then what leaves the states held and handed over alone. *)
Lemma cycle_reads now chaff network bind s :
  exists socks', outbox <$> socks' = outbox <$> sockets s /\
  match handle_each (take 64 (waiting_all (sockets s))) false [] s with
  | (s1, Ok (received, events)) => cycle now chaff network bind s = after_reading now chaff network bind received events (s1 <| sockets := socks' |>)
  | (s1, Err e) => cycle now chaff network bind s = (s1, Err e)
  | (s1, Panic) => cycle now chaff network bind s = (s1, Panic)
  end.
Proof using Type.
  pose proof (drain_sockets_handles (sockets s) 0 false [] s ltac:(unfold MAX_DATAGRAMS_PER_PUMP; lia)) as Hd. cbv zeta in Hd.
  exists (unread 64 (sockets s)). split; [apply unread_outbox|]. change (MAX_DATAGRAMS_PER_PUMP - 0)%nat with 64%nat in Hd.
  unfold mbind, M_bind in Hd. destruct (handle_each _ _ _ s) as [s1 [[received events]|err|]].
  - by apply cycle_after_reading.
  - unfold cycle. rewrite (bind_ok (gets sockets) _ s s (sockets s) eq_refl). unfold mbind at 1, M_bind at 1. by rewrite Hd.
  - unfold cycle. rewrite (bind_ok (gets sockets) _ s s (sockets s) eq_refl). unfold mbind at 1, M_bind at 1. by rewrite Hd.
Qed.

Lemma perform_few (c : call (Addr:=Addr)) : moves (holding (few_ports (S:=S) (P:=P))) (perform c).
Proof using Type.
  intros s Hs. assert (forall bind, from_option anything True bind) as Hb by (by intros []).
  destruct c as [socket a|now chaff network bind| | | | | | | | | | | | | | |];
    [| | eapply st_few; [apply (ordinary_steady anything); [done | first [done | apply Hb]] | exact Hs]..].
  - cbn [perform]. change (quiet _ s).1 with (arrive socket a s). unfold few_ports in *. cbn. by rewrite length_alter.
  - cbn [perform]. destruct (cycle_reads now chaff network bind s) as (socks' & Hout & Hcycle).
    pose proof (handle_each_same ports (take 64 (waiting_all (sockets s))) false [] handle_datagram_sockets s) as Hsame.
    apply (f_equal (fst (B:=Z))) in Hsame. cbn [ports fst] in Hsame. unfold few_ports in Hs |- *.
    destruct (handle_each _ _ _ s) as [s1 [[received events]|err|]]; cbn [fst] in Hsame; rewrite Hcycle; [|by cbn; rewrite Hsame ..].
    eapply st_few; [apply (after_reading_steady anything); [done | apply Hb]|]. apply (f_equal length) in Hout. rewrite !length_fmap in Hout. unfold few_ports. cbn. by rewrite Hout.
Qed.

(** Whatever an application does and whatever reaches it, a session always has a port to send
    on, and no more than ten are open. *)
Theorem ports_stay_few (bound : Socket Addr) server is_ipv6 blank calls :
  let s := (run calls (connect_with_screen (S:=S) (P:=P) bound server is_ipv6 blank)).1 in
  is_Some (last (sockets s)) /\ zlen (sockets s) <= MAX_PORTS_OPEN.
Proof using Type.
  intros s. assert (few_ports s) as Hf.
  { unfold s. apply (run_safe _ (fun _ => True)); [intros; apply perform_few | by apply Forall_forall | unfold few_ports, MAX_PORTS_OPEN; cbn; lia]. }
  unfold few_ports in Hf. split; [apply last_is_Some; intros Hnil; rewrite Hnil in Hf; cbn in Hf; lia | unfold zlen, MAX_PORTS_OPEN in *; lia].
Qed.
End Ports.

(** ** What is handed over *)
Section Requests.
Import Instruction HostStream ClientSession.
Context {S Addr : Type} `{HS : ClientScreen.Screen S} `{HR : Runtime} {P : Parser} `{HE : EqDecision Addr}.
Context {HC : InstructionCodec} {HA : ClientPacket.Aead} {HU : ClientStream.Prost} {HP : HostProst} {HD : ClientScreen.DiffScreen S}.
Abbreviation session := (MoshSession S Addr P).
Implicit Types s : session.

(** The identifier of a query, or of what the agent is asked. *)
Inductive channel := Queries | Records.
Definition id_on (ch : channel) (ev : HostEvent) : option Z :=
  match ch, ev with
  | Queries, Query id _ | Records, AgentRequest id _ _ | Records, AgentClose id _ _ => Some id
  | _, _ => None
  end.
Definition seen_on (ch : channel) s : gset Z := match ch with Queries => seen_terminal_queries s | Records => seen_agent_records s end.
Context (ch : channel).
Abbreviation ids := (omap (id_on ch)).

(** [evs] are new between [s] and [s'], and not new after. *)
Record hands_over s s' (evs : list HostEvent) : Prop := {
  ho_grows : seen_on ch s ⊆ seen_on ch s';
  ho_once : NoDup (ids evs);
  ho_new : forall i, i ∈ ids evs -> i ∈ seen_on ch s' /\ i ∉ seen_on ch s;
}.
Lemma hands_nothing s s' : seen_on ch s' = seen_on ch s -> hands_over s s' [].
Proof using Type. intros He. split; [by rewrite He | constructor | by intros i ?%elem_of_nil]. Qed.
Lemma hands_app s s1 s' evs evs' : hands_over s s1 evs -> hands_over s1 s' evs' -> hands_over s s' (evs ++ evs').
Proof using Type.
  intros [G1 N1 F1] [G2 N2 F2]. split; [set_solver | |].
  - rewrite omap_app. apply NoDup_app. split_and!; [done | | done]. intros i Hi Hi'. destruct (F1 i Hi), (F2 i Hi'). set_solver.
  - intros i. rewrite omap_app. intros [Hi|Hi]%elem_of_app; [destruct (F1 i Hi); set_solver | destruct (F2 i Hi); set_solver].
Qed.
Lemma hands_fewer s s' evs evs' : sublist evs' evs -> hands_over s s' evs -> hands_over s s' evs'.
Proof using Type.
  intros Hsub [G N F]. assert (sublist (ids evs') (ids evs)) as Hids.
  { clear -Hsub. induction Hsub as [|ev evs evs' _ IH|ev evs evs' _ IH]; cbn; [done | |]; destruct (id_on ch ev); [by constructor | done | by constructor | done]. }
  split; [done | by eapply sublist_NoDup | intros i Hi; apply F; by eapply elem_of_sublist].
Qed.
Lemma hands_same s s1 s' evs : seen_on ch s' = seen_on ch s1 -> hands_over s s1 evs -> hands_over s s' evs.
Proof using Type. intros He [G N F]. split; rewrite ?He; done. Qed.

(** Suppression: the events left are a part of what was there, *)
Lemma retain_some keep evs s : exists s' evs', retain keep evs s = (s', Ok evs') /\ sublist evs' evs.
Proof using Type.
  revert s. induction evs as [|ev evs IH]; intros s; [by eexists _, _|]. cbn [retain]. destruct (keep ev s) as [s1 kept1].
  destruct (IH s1) as (s2 & evs2 & Hr & Hsub). exists s2, (if kept1 then ev :: evs2 else evs2). unfold mbind, M_bind. rewrite Hr.
  split; [done|]. destruct kept1; by constructor.
Qed.
(** and those with an identifier are new. *)
Definition own (keep : HostEvent -> session -> session * bool) : Prop := forall ev s,
  seen_on ch (keep ev s).1 = match id_on ch ev with Some i => {[i]} ∪ seen_on ch s | None => seen_on ch s end /\
  forall i, id_on ch ev = Some i -> (keep ev s).2 = bool_decide (i ∉ seen_on ch s).
Definition indifferent (keep : HostEvent -> session -> session * bool) : Prop := forall ev s, seen_on ch (keep ev s).1 = seen_on ch s.
Lemma retain_hands keep evs s :
  own keep ->
  exists s' evs', retain keep evs s = (s', Ok evs') /\ hands_over s s' evs'.
Proof using Type.
  intros Hkeep. revert s. induction evs as [|ev evs IH]; intros s; [by eexists _, _; split; [done | apply hands_nothing]|].
  cbn [retain]. destruct (Hkeep ev s) as [Hseen Hkept]. destruct (keep ev s) as [s1 kept1]. cbn [fst snd] in *.
  destruct (IH s1) as (s2 & evs2 & Hr & Hh). exists s2, (if kept1 then ev :: evs2 else evs2). unfold mbind, M_bind. rewrite Hr. split; [done|].
  cut (hands_over s s1 (if kept1 then [ev] else [])); [intros Hone; pose proof (hands_app _ _ _ _ _ Hone Hh); by destruct kept1|].
  destruct (id_on ch ev) as [i|] eqn:Hid.
  - rewrite (Hkept i eq_refl). case_bool_decide as Hi; (split; [set_solver | |]); cbn; rewrite ?Hid; cbn;
      [apply NoDup_singleton | intros j ->%list_elem_of_singleton; set_solver | constructor | by intros j ?%elem_of_nil].
  - split; [by rewrite Hseen | |]; destruct kept1; cbn; rewrite ?Hid; cbn; first [apply NoDup_nil_2 | by intros j ?%elem_of_nil].
Qed.

(** [m] hands over what is new; where it fails, nothing. *)
Definition gives {A} (f : A -> list HostEvent) (m : M (S:=S) (Addr:=Addr) (P:=P) A) : Prop :=
  forall s, match m s with (s', Ok a) => hands_over s s' (f a) | (s', _) => seen_on ch s ⊆ seen_on ch s' end.
Lemma gives_after {A B} (f : B -> list HostEvent) (m : M A) (k : A -> M B) :
  moves (same (seen_on ch)) m -> (forall a, gives f (k a)) -> gives f (m ≫= k).
Proof using Type.
  intros Hm Hk s. unfold mbind, M_bind. specialize (Hm s). unfold same in Hm. destruct (m s) as [s1 [a|err|]]; cbn [fst] in Hm; [|by rewrite Hm ..].
  specialize (Hk a s1). destruct (k a s1) as [s2 [b|err|]]; [|by rewrite <- Hm ..]. destruct Hk as [G N F]. split; rewrite <- ?Hm; done.
Qed.
Lemma gives_before {A B} (f : A -> list HostEvent) (g : B -> list HostEvent) (m : M A) (k : A -> M B) :
  gives f m -> (forall a, moves (same (seen_on ch)) (k a)) -> (forall a s b, (k a s).2 = Ok b -> g b = f a) -> gives g (m ≫= k).
Proof using Type.
  intros Hm Hk Hg s. unfold mbind, M_bind. specialize (Hm s). destruct (m s) as [s1 [a|err|]]; [|done|done].
  specialize (Hk a s1). specialize (Hg a s1). unfold same in Hk. destruct (k a s1) as [s2 [b|err|]]; cbn [fst snd] in *;
    [rewrite (Hg b eq_refl); by eapply hands_same | rewrite Hk; by destruct Hm ..].
Qed.
Lemma gives_nothing {A} (f : A -> list HostEvent) (m : M A) :
  moves (same (seen_on ch)) m -> (forall s a, (m s).2 = Ok a -> f a = []) -> gives f m.
Proof using Type.
  intros Hm Hf s. specialize (Hm s). specialize (Hf s). unfold same in Hm. destruct (m s) as [s1 [a|err|]]; cbn [fst snd] in *;
    [rewrite (Hf a eq_refl); by apply hands_nothing | by rewrite Hm ..].
Qed.

Lemma suppressions : own query_new /\ indifferent record_new \/ indifferent query_new /\ own record_new.
Proof using Type.
  unfold own, indifferent. destruct ch; [left | right]; (split; intros [] s); try done; (split; [done|]); intros i Hi; by injection Hi as <-.
Qed.
Lemma suppressed_hands keep1 keep2 evs s :
  own keep1 /\ indifferent keep2 \/ indifferent keep1 /\ own keep2 ->
  exists s' evs', (evs1 ← retain keep1 evs; retain keep2 evs1) s = (s', Ok evs') /\ hands_over s s' evs'.
Proof using HS.
  assert (forall keep evs s, indifferent keep -> seen_on ch (retain keep evs s).1 = seen_on ch s) as Hsame.
  { intros keep l s1 Hk. by apply (retain_moves (same (seen_on ch))). }
  intros [[Hown Hother]|[Hother Hown]].
  - destruct (retain_hands keep1 evs s Hown) as (s1 & evs1 & Hr1 & Hh). destruct (retain_some keep2 evs1 s1) as (s2 & evs2 & Hr2 & Hsub).
    exists s2, evs2. rewrite (bind_ok _ _ _ _ _ Hr1). split; [done|]. eapply hands_fewer; [exact Hsub|]. eapply hands_same; [|exact Hh].
    specialize (Hsame keep2 evs1 s1 Hother). by rewrite Hr2 in Hsame.
  - destruct (retain_some keep1 evs s) as (s1 & evs1 & Hr1 & _). destruct (retain_hands keep2 evs1 s1 Hown) as (s2 & evs2 & Hr2 & Hh).
    exists s2, evs2. rewrite (bind_ok _ _ _ _ _ Hr1). split; [done|]. specialize (Hsame keep1 evs s Hother). rewrite Hr1 in Hsame. cbn [fst] in Hsame.
    destruct Hh as [G N F]. split; rewrite <- ?Hsame; done.
Qed.

Lemma apply_events_keeps painted evs : moves (same (seen_on ch)) (apply_events (S:=S) (Addr:=Addr) (P:=P) painted evs).
Proof using Type.
  apply apply_events_moves; [exact _|]. intros p ev. destruct ev; cbn [apply_event]; moves_by (same (seen_on ch)); by destruct ch.
Qed.
Lemma take_events_gives diff : gives snd (take_events diff).
Proof using Type.
  unfold take_events, deduplicate_terminal_queries, deduplicate_agent_records.
  apply gives_after; [destruct (bool_decide _); [by apply (moves_ret (same (seen_on ch))) | by apply (moves_lift (same (seen_on ch)))]|].
  intros evs s. destruct (suppressed_hands query_new record_new evs s suppressions) as (s' & evs' & Hr & Hh).
  unfold mbind, M_bind in Hr |- *. destruct (retain query_new evs s) as [s1 [evs1|err|]]; [|done|done]. rewrite Hr.
  pose proof (apply_events_keeps [] evs' s') as Hk. unfold same in Hk. destruct (apply_events [] evs' s') as [s2 [p|err|]]; cbn [fst] in Hk;
    [by eapply hands_same | rewrite Hk; by destruct Hh ..].
Qed.

Lemma acknowledge_keeps has_data now : moves (same (seen_on ch)) (acknowledge (S:=S) (Addr:=Addr) (P:=P) has_data now).
Proof using HS. unfold acknowledge. moves_by (same (seen_on ch)). by destruct ch. Qed.
Lemma accept_state_gives inst num now diff in_order : gives (fun evs => evs) (accept_state inst num now diff in_order).
Proof using HS.
  unfold accept_state. apply gives_after; [moves_by (same (seen_on ch)); apply acknowledge_keeps|]. intros _.
  apply gives_before with (f := snd); [apply take_events_gives | |].
  - intros [p evs]. moves_by (same (seen_on ch)); by destruct ch.
  - intros [p evs] s b. destruct (throwaway_num inst); cbn; by intros ->%ok_inj.
Qed.
Lemma handle_datagram_gives l now : gives (fun evs => evs) (handle_datagram l now).
Proof using HS.
  unfold handle_datagram, handle_instruction.
  repeat match goal with
  | |- gives _ (_ ≫= _) => apply gives_after; [moves_by (same (seen_on ch)); try by destruct ch | intros]
  | |- gives _ (accept_state _ _ _ _ _) => apply accept_state_gives
  | |- gives _ (if ?b then _ else _) => destruct b
  | |- gives _ (match ?x with _ => _ end) => destruct x
  | |- gives _ (mret _) => apply gives_nothing; [by apply (moves_ret (same (seen_on ch))) | by intros ? ? ->%ok_inj]
  | |- gives _ (lift _) => apply gives_nothing; [by apply (moves_lift (same (seen_on ch))) | done]
  end.
  - intros s. unfold assemble. destruct (add _ _) as [[]| |]; by destruct ch.
  - intros s. unfold assembled. destruct (take_instruction _); by destruct ch.
  - intros s. unfold receive. destruct (Receiver.process _ _ _) as [[]| |]; by destruct ch.
  - apply acknowledge_keeps.
Qed.

Lemma handle_each_gives l received events s :
  match handle_each l received events s with
  | (s', Ok r) => exists new, r.2 = events ++ new /\ hands_over s s' new
  | (s', _) => seen_on ch s ⊆ seen_on ch s'
  end.
Proof using HS.
  revert received events s. induction l as [|a l IH]; intros received events s.
  { exists []. split; [by rewrite app_nil_r | by apply hands_nothing]. }
  cbn [handle_each]. destruct (decide _); [|apply IH]. pose proof (handle_datagram_gives (datagram a) (read_at a) s) as Hd.
  destruct (handle_datagram _ _ s) as [s1 [got|err|]]; [| |done].
  - specialize (IH true (events ++ got) s1). destruct (handle_each _ _ _ s1) as [s2 [r|err|]].
    + destruct IH as (new & -> & Hh). exists (got ++ new). split; [by rewrite app_assoc | by eapply hands_app].
    + destruct Hd. by etransitivity.
    + destruct Hd. by etransitivity.
  - specialize (IH true events s1). destruct (handle_each _ _ _ s1) as [s2 [r|e2|]]; [|by etransitivity ..].
    destruct IH as (new & Hr & Hh). exists new. split; [done|]. pose proof (hands_app s s1 s2 [] new) as Happ. apply Happ; [|done].
    split; [done | constructor | by intros i ?%elem_of_nil].
Qed.

Lemma steady_seen Q s s' : steady Q s s' -> seen_on ch s' = seen_on ch s.
Proof using Type. intros []. by destruct ch. Qed.
Lemma after_reading_returns now chaff network bind received events s evs :
  (after_reading now chaff network bind received events s).2 = Ok evs -> evs = events.
Proof using Type.
  assert (forall A (m : M A) (k : A -> M (list HostEvent)) s, (forall a s, (k a s).2 = Ok evs -> evs = events) -> ((m ≫= k) s).2 = Ok evs -> evs = events) as Hbind.
  { intros A m k s1 Hk. unfold mbind, M_bind. destruct (m s1) as [s2 [a|err|]]; [apply Hk | done | done]. }
  unfold after_reading. repeat (apply Hbind; clear s; intros _ s). by intros ->%ok_inj.
Qed.
Lemma cycle_gives now chaff network bind : gives (fun evs => evs) (cycle now chaff network bind).
Proof using HS.
  intros s. destruct (cycle_reads now chaff network bind s) as (socks' & _ & Hcycle).
  pose proof (handle_each_gives (take 64 (waiting_all (sockets s))) false [] s) as Hh.
  destruct (handle_each _ _ _ s) as [s1 [[received events]|err|]]; [|by rewrite Hcycle ..].
  destruct Hh as (new & Heq & Hh). cbn in Heq. subst new. rewrite Hcycle.
  assert (seen_on ch (after_reading now chaff network bind received events (s1 <| sockets := socks' |>)).1 = seen_on ch s1) as Hsame.
  { etransitivity; [eapply steady_seen, (after_reading_steady (fun _ => True)); [done | by destruct bind] | by destruct ch]. }
  pose proof (after_reading_returns now chaff network bind received events (s1 <| sockets := socks' |>)) as Hret.
  destruct (after_reading _ _ _ _ _ _ _) as [s2 [evs|err|]]; cbn [fst snd] in *; [rewrite (Hret evs eq_refl); by eapply hands_same | rewrite Hsame; by destruct Hh ..].
Qed.

Lemma quiet_nothing {A} (m : M (S:=S) (Addr:=Addr) (P:=P) A) s evs : (quiet m s).2 = Ok evs -> evs = [].
Proof using Type. unfold quiet, mbind, M_bind. destruct (m s) as [s1 [a|err|]]; [by intros ->%ok_inj | done | done]. Qed.
Lemma perform_gives (c : call (Addr:=Addr)) : gives (fun evs => evs) (perform c).
Proof using HS.
  assert (forall bind, from_option (fun _ : Socket Addr => True) True bind) as Hb by (by intros []).
  destruct c as [socket a|now chaff network bind| | | | | | | | | | | | | | |]; [| apply cycle_gives |..];
    (apply gives_nothing; [|intros s evs; apply quiet_nothing]);
    [|intros s; eapply steady_seen, (ordinary_steady (fun _ => True)); [done | first [done | apply Hb]]..].
  cbn [perform]. unfold quiet. moves_by (same (seen_on ch)). by destruct ch.
Qed.

Lemma run_hands_over (calls : list (call (Addr:=Addr))) s : hands_over s (run calls s).1 (run calls s).2.
Proof using HS.
  revert s. induction calls as [|c calls IH]; intros s; [by apply hands_nothing|]. cbn [run]. pose proof (perform_gives c s) as Hc.
  destruct (perform c s) as [s1 r]. specialize (IH s1). destruct (run calls s1) as [s2 more]. cbn [fst snd] in *.
  destruct r as [evs|err|]; [by eapply hands_app | |]; apply (hands_app s s1 s2 [] more); try done;
    (split; [done | constructor | by intros i ?%elem_of_nil]).
Qed.

(** C16. Whatever reaches the client and however often the server repeats it, a terminal query, and
    likewise a request to the agent or the closing of one, is handed to the application at most once
    in the life of a session; and what is remembered as handed over is never forgotten. *)
Theorem a_request_is_handed_over_once (bound : Socket Addr) server is_ipv6 blank before after :
  let s0 := connect_with_screen (S:=S) (P:=P) bound server is_ipv6 blank in
  let '(s, events) := run before s0 in
  let '(s', more) := run after s in
  NoDup (ids (events ++ more)) /\ (forall i, i ∈ ids (events ++ more) -> i ∈ seen_on ch s') /\ seen_on ch s ⊆ seen_on ch s'.
Proof using HS.
  cbv zeta. pose proof (run_hands_over before (connect_with_screen bound server is_ipv6 blank)) as H1. destruct (run before _) as [s events].
  pose proof (run_hands_over after s) as H2. destruct (run after s) as [s' more]. cbn [fst snd] in *.
  destruct (hands_app _ _ _ _ _ H1 H2) as [_ Hnd Hnew]. split_and!; [done | intros i Hi; by apply Hnew | by destruct H2].
Qed.
End Requests.

(** ** What a turn can lose *)
Module Losses.
Import ClientScreen ClientTerminal.Sample Instruction HostStream ClientSession SampleServer.
Abbreviation client := (MoshSession text_screen nat PredictionRuns.Line.plain_parser).

(** The datagram of one whole instruction. *)
Definition whole (key o n : Z) (d : bytes) : list bytes := sealed key (mkFragment key 0 true (encode_to_vec (new o n 0 0 d []))).
Definition reaches (l : list bytes) : list (call (Addr:=nat)) := (fun l => Arrives 0 (mkArrival l 0%nat 5)) <$> l.
Definition connected : client := connect_with_screen (mkSocket [] []) 0%nat false (screens 0).

(** State 2 is as wide as state 0; state 1, whose diff widens the screen, comes late,
    and what is shown takes its width. *)
Lemma late_resize_reshapes_the_newest :
  let s := (run (reaches (whole 1 0 2 (text "ab") ++ whole 2 0 1 (text "Rda")) ++ [SampleServer.turn 10]) connected).1 in
  ClientTerminal.latest (terminal s) = 2 /\ ClientTerminal.confirmed (terminal s) = Some ((24, 100), text "ab") /\
  feed (text "ab") (screens 0) = ((24, 80), text "ab").
Proof. vm_compute. repeat split. Qed.

(** A message that does not decode: its state is received and acknowledged, and no
    screen is held for it. *)
Lemma undecoded_state_is_acknowledged :
  let s := (run (reaches (whole 1 0 1 (text "X!")) ++ [SampleServer.turn 10]) connected).1 in
  Sender.ack_num (sender s) = 1 /\ last (Receiver.received (receiver s)) = Some 1 /\
  ClientTerminal.latest (terminal s) = 0 /\ ClientTerminal.states (terminal s) !! 1 = None.
Proof. vm_compute. repeat split. Qed.

(** More than a turn reads waits on an old port, which the same turn closes. *)
Lemma unread_datagrams_are_dropped :
  let s := (run (Roam (Some (mkSocket [] [])) 0 :: reaches (concat (replicate 65 (whole 1 0 1 (text "a")))) ++ [SampleServer.turn 70000]) connected).1 in
  length (sockets s) = 1%nat /\ waiting_all (sockets s) = [] /\
  length (waiting_all (sockets (run (reaches (concat (replicate 65 (whole 1 0 1 (text "a")))) ++ [SampleServer.turn 70000]) connected).1)) = 1%nat.
Proof. vm_compute. repeat split. Qed.
End Losses.
