(* ===== verification/Layout.v ===== *)
(** * The pane layout tree

    Models [src/pane/layout.rs]: the binary tree of splits that divides a tab,
    and every operation that reshapes it.  Ratios are the [u16]s of the code;
    areas and regions are IEEE floats ([Ieee]). *)
From Stdlib Require Import ZArith Lia List Bool SpecFloat.
From stdpp Require Import base numbers list gmap.
From S2P Require Import Prelude Ieee.
Open Scope Z_scope.

Module Layout.

Inductive SplitAxis := Horizontal | Vertical.
Inductive SplitPosition := Before | After.
Inductive PaneDirection := Left | Right | Up | Down.
Inductive PaneRotationDirection := Clockwise | CounterClockwise.

#[global] Instance SplitAxis_eq_dec : EqDecision SplitAxis.
Proof. solve_decision. Defined.

Definition PANE_SPLIT_RATIO_SCALE : Z := 1000.
Definition DEFAULT_PANE_SPLIT_RATIO : Z := PANE_SPLIT_RATIO_SCALE / 2.
Definition MAX_PANES_PER_TAB : Z := 64.
Definition PANE_ROTATION_AREA_EPSILON : spec_float := Ieee.tenth_power (H:=Ieee.f64) 9.
Definition ADJACENT_PANE_TIE_EPSILON : spec_float := Ieee.tenth_power (H:=Ieee.f32) 4.

Record PaneRegion := mkRegion {
  region_id : Z; left : spec_float; right : spec_float; top : spec_float; bottom : spec_float;
}.

Record PaneResizeBoundary := mkBoundary {
  parent_fraction : spec_float; active_is_first : bool; sibling_panes : list Z;
}.

Inductive PaneLayout :=
| Pane (id : Z)
| Split (axis : SplitAxis) (first_ratio : Z) (first second : PaneLayout).

(** [current.checked_add(additional).is_some_and(|total| total <= MAX_PANES_PER_TAB)] *)
Definition can_add_panes (current additional : Z) : bool :=
  match checked_add_u64 current additional with
  | Some total => total <=? MAX_PANES_PER_TAB
  | None => false
  end.

(** [PANE_SPLIT_RATIO_SCALE - ratio] on u16. *)
Definition inverse_ratio (ratio : Z) : Z := wrap 16 (PANE_SPLIT_RATIO_SCALE - ratio).

(** ** Panes *)

Fixpoint contains_pane (pane_id : Z) (l : PaneLayout) : bool :=
  match l with
  | Pane id => id =? pane_id
  | Split _ _ first second => contains_pane pane_id first || contains_pane pane_id second
  end.

Fixpoint collect_pane_ids (l : PaneLayout) (ids : list Z) : list Z :=
  match l with
  | Pane id => ids ++ [id]
  | Split _ _ first second => collect_pane_ids second (collect_pane_ids first ids)
  end.
Definition pane_ids (l : PaneLayout) : list Z := collect_pane_ids l [].

Fixpoint first_pane (l : PaneLayout) : Z :=
  match l with Pane id => id | Split _ _ first _ => first_pane first end.

(** ** Rotation *)

Definition f64_of (z : Z) : spec_float := Ieee.of_int (H:=Ieee.f64) z.
(** [area * f64::from(first_ratio) / f64::from(PANE_SPLIT_RATIO_SCALE)] *)
Definition first_area (area : spec_float) (first_ratio : Z) : spec_float :=
  Ieee.div (H:=Ieee.f64) (Ieee.mul (H:=Ieee.f64) area (f64_of first_ratio)) (f64_of PANE_SPLIT_RATIO_SCALE).

Fixpoint pane_area (pane_id : Z) (area : spec_float) (l : PaneLayout) : option spec_float :=
  match l with
  | Pane id => if id =? pane_id then Some area else None
  | Split _ first_ratio first second =>
      let first_area := first_area area first_ratio in
      match pane_area pane_id first_area first with
      | Some a => Some a
      | None => pane_area pane_id (Ieee.sub (H:=Ieee.f64) area first_area) second
      end
  end.

Fixpoint collect_leaf_areas (area : spec_float) (l : PaneLayout) (areas : list spec_float) : list spec_float :=
  match l with
  | Pane _ => areas ++ [area]
  | Split _ first_ratio first second =>
      let first_area := first_area area first_ratio in
      collect_leaf_areas (Ieee.sub (H:=Ieee.f64) area first_area) second
        (collect_leaf_areas first_area first areas)
  end.

Definition has_four_equal_panes (area : spec_float) (l : PaneLayout) : bool :=
  let areas := collect_leaf_areas area l [] in
  (length areas =? 4)%nat &&
  forallb (fun candidate =>
    SFleb (SFabs (Ieee.sub (H:=Ieee.f64) candidate (nth 0 areas S754_nan))) PANE_ROTATION_AREA_EPSILON) areas.

Definition is_two_pane_split (l : PaneLayout) : bool :=
  match l with Split _ _ (Pane _) (Pane _) => true | _ => false end.

Fixpoint rotation_target (active_pane : Z) (active_area area : spec_float) (l : PaneLayout) : option (list bool) :=
  if has_four_equal_panes area l || is_two_pane_split l then Some []
  else
    match l with
    | Pane _ => None
    | Split _ first_ratio first second =>
        let first_area := first_area area first_ratio in
        let rest := Ieee.sub (H:=Ieee.f64) area first_area in
        let local sibling_area :=
          if SFleb sibling_area (Ieee.add (H:=Ieee.f64) active_area PANE_ROTATION_AREA_EPSILON)
          then Some [] else None in
        if contains_pane active_pane first then
          match rotation_target active_pane active_area first_area first with
          | Some path => Some (true :: path)
          | None => local rest
          end
        else if contains_pane active_pane second then
          match rotation_target active_pane active_area rest second with
          | Some path => Some (false :: path)
          | None => local first_area
          end
        else None
    end.

Definition other_axis (a : SplitAxis) : SplitAxis :=
  match a with Horizontal => Vertical | Vertical => Horizontal end.
Definition reverse_children (d : PaneRotationDirection) (a : SplitAxis) : bool :=
  match d, a with Clockwise, Horizontal | CounterClockwise, Vertical => true | _, _ => false end.

Fixpoint rotate_geometry (d : PaneRotationDirection) (l : PaneLayout) : PaneLayout :=
  match l with
  | Pane id => Pane id
  | Split axis first_ratio first second =>
      let first := rotate_geometry d first in
      let second := rotate_geometry d second in
      if reverse_children d axis
      then Split (other_axis axis) (inverse_ratio first_ratio) second first
      else Split (other_axis axis) first_ratio first second
  end.

Fixpoint rotate_at_path (path : list bool) (d : PaneRotationDirection) (l : PaneLayout) : PaneLayout :=
  match path with
  | [] => rotate_geometry d l
  | b :: path =>
      match l with
      | Split axis r first second =>
          if b then Split axis r (rotate_at_path path d first) second
          else Split axis r first (rotate_at_path path d second)
      | Pane id => Pane id
      end
  end.

Definition rotate_pane (active_pane : Z) (d : PaneRotationDirection) (l : PaneLayout) : PaneLayout * bool :=
  let one := f64_of 1 in
  match pane_area active_pane one l with
  | None => (l, false)
  | Some active_area =>
      match rotation_target active_pane active_area one l with
      | None => (l, false)
      | Some path => (rotate_at_path path d l, true)
      end
  end.

(** ** Building and reshaping *)

(** [pane_ids[pane_id]] panics when the identifier is not mapped. *)
Fixpoint remap_pane_ids {E} (ids : gmap Z Z) (l : PaneLayout) : result E PaneLayout :=
  match l with
  | Pane id => id ← expect (ids !! id); mret (Pane id)
  | Split axis r first second =>
      first ← remap_pane_ids ids first;
      second ← remap_pane_ids ids second;
      mret (Split axis r first second)
  end.

(** The splits halve the list, so its length is fuel enough ([tiled_ids]). *)
Fixpoint build (fuel : nat) (ids : list Z) (axis : SplitAxis) : result unit PaneLayout :=
  match fuel, ids with
  | _, [id] => Ok (Pane id)
  | S fuel, _ =>
      let midpoint := if (length ids =? 3)%nat then 1%nat else div_ceil (length ids) 2 in
      first ← build fuel (take midpoint ids) (other_axis axis);
      second ← build fuel (drop midpoint ids) (other_axis axis);
      Ok (Split axis DEFAULT_PANE_SPLIT_RATIO first second)
  | O, _ => Panic
  end.
Definition tiled (ids : list Z) : option (result unit PaneLayout) :=
  match ids with [] => None | _ => Some (build (length ids) ids Vertical) end.

Fixpoint split (target : Z) (axis : SplitAxis) (new_pane : Z) (position : SplitPosition) (l : PaneLayout)
    : PaneLayout * bool :=
  match l with
  | Pane id =>
      if id =? target then
        let '(first, second) := match position with Before => (new_pane, target) | After => (target, new_pane) end in
        (Split axis DEFAULT_PANE_SPLIT_RATIO (Pane first) (Pane second), true)
      else (l, false)
  | Split a r first second =>
      let '(first, done) := split target axis new_pane position first in
      if done then (Split a r first second, true)
      else let '(second, done) := split target axis new_pane position second in
           (Split a r first second, done)
  end.

(** The replacement is taken by the first pane that matches; taking it twice
    would panic. *)
Fixpoint replace_inner (target : Z) (replacement : option PaneLayout) (l : PaneLayout)
    : result unit (PaneLayout * option PaneLayout * bool) :=
  match l with
  | Pane id =>
      if id =? target then layout ← expect replacement; mret (layout, None, true)
      else mret (l, replacement, false)
  | Split a r first second =>
      '(first, replacement, done) ← replace_inner target replacement first;
      if (done : bool) then mret (Split a r first second, replacement, true)
      else
        '(second, replacement, done) ← replace_inner target replacement second;
        mret (Split a r first second, replacement, done)
  end.
Definition replace (target : Z) (replacement : PaneLayout) (l : PaneLayout) : result unit (PaneLayout * bool) :=
  '(l, _, done) ← replace_inner target (Some replacement) l; mret (l, done).

(** A template's splits; what its panes hold is the configuration's. *)
Inductive PaneSplitTemplate :=
| TemplatePane
| TemplateSplit (axis : SplitAxis) (first second : PaneSplitTemplate).

Fixpoint from_template (template : PaneSplitTemplate) (ids : list Z) : result unit (PaneLayout * list Z) :=
  match template with
  | TemplatePane => match ids with id :: ids => Ok (Pane id, ids) | [] => Panic end
  | TemplateSplit axis first second =>
      '(first, ids) ← from_template first ids;
      '(second, ids) ← from_template second ids;
      mret (Split axis DEFAULT_PANE_SPLIT_RATIO first second, ids)
  end.

(** [(first.without(..), second.without(..))] joined. *)
Definition join (axis : SplitAxis) (r : Z) (first second : option PaneLayout) : option PaneLayout :=
  match first, second with
  | Some first, Some second => Some (Split axis r first second)
  | Some layout, None | None, Some layout => Some layout
  | None, None => None
  end.

Fixpoint without (target : Z) (l : PaneLayout) : option PaneLayout :=
  match l with
  | Pane id => if negb (id =? target) then Some (Pane id) else None
  | Split axis r first second => join axis r (without target first) (without target second)
  end.

Fixpoint without_all (targets : gset Z) (l : PaneLayout) : option PaneLayout :=
  match l with
  | Pane id => if bool_decide (id ∉ targets) then Some (Pane id) else None
  | Split axis r first second => join axis r (without_all targets first) (without_all targets second)
  end.

(** ** Regions *)

Definition f32_of (z : Z) : spec_float := Ieee.of_int (H:=Ieee.f32) z.
Definition ratio_fraction (first_ratio : Z) : spec_float :=
  Ieee.div (H:=Ieee.f32) (f32_of first_ratio) (f32_of PANE_SPLIT_RATIO_SCALE).

Definition add32 := Ieee.add (H:=Ieee.f32).
Definition sub32 := Ieee.sub (H:=Ieee.f32).
Definition mul32 := Ieee.mul (H:=Ieee.f32).

Fixpoint collect_regions (left top width height : spec_float) (l : PaneLayout) (regions : list PaneRegion)
    : list PaneRegion :=
  match l with
  | Pane id => regions ++ [mkRegion id left (add32 left width) top (add32 top height)]
  | Split Horizontal r first second =>
      let first_height := mul32 height (ratio_fraction r) in
      collect_regions left (add32 top first_height) width (sub32 height first_height) second
        (collect_regions left top width first_height first regions)
  | Split Vertical r first second =>
      let first_width := mul32 width (ratio_fraction r) in
      collect_regions (add32 left first_width) top (sub32 width first_width) height second
        (collect_regions left top first_width height first regions)
  end.
Definition regions (l : PaneLayout) : list PaneRegion :=
  collect_regions (f32_of 0) (f32_of 0) (f32_of 1) (f32_of 1) l [].

(** ** Resizing *)

Fixpoint resize_boundary_inner (pane_id : Z) (axis : SplitAxis) (parent_fraction : spec_float) (l : PaneLayout)
    : option PaneResizeBoundary :=
  match l with
  | Pane _ => None
  | Split split_axis r first second =>
      let first_fraction := ratio_fraction r in
      if contains_pane pane_id first then
        match resize_boundary_inner pane_id axis (mul32 parent_fraction first_fraction) first with
        | Some b => Some b
        | None =>
            if bool_decide (split_axis = axis)
            then Some (mkBoundary parent_fraction true (pane_ids second)) else None
        end
      else if contains_pane pane_id second then
        match resize_boundary_inner pane_id axis
                (mul32 parent_fraction (sub32 (f32_of 1) first_fraction)) second with
        | Some b => Some b
        | None =>
            if bool_decide (split_axis = axis)
            then Some (mkBoundary parent_fraction false (pane_ids first)) else None
        end
      else None
  end.
Definition resize_boundary (pane_id : Z) (axis : SplitAxis) (l : PaneLayout) : option PaneResizeBoundary :=
  resize_boundary_inner pane_id axis (f32_of 1) l.

Definition adjust_first_ratio (first_ratio : Z) (delta : spec_float) : Z * bool :=
  let delta := Ieee.round_i32 (mul32 delta (f32_of PANE_SPLIT_RATIO_SCALE)) in
  if delta =? 0 then (first_ratio, false)
  else
    let clamped := Z.min (Z.max (as_i32 (first_ratio + delta)) 1) (PANE_SPLIT_RATIO_SCALE - 1) in
    if clamped =? first_ratio then (first_ratio, false) else (clamped, true).

Fixpoint adjust_resize_boundary_inner (pane_id : Z) (axis : SplitAxis) (delta : spec_float) (l : PaneLayout)
    : PaneLayout * option bool :=
  match l with
  | Pane _ => (l, None)
  | Split split_axis r first second =>
      if contains_pane pane_id first then
        match adjust_resize_boundary_inner pane_id axis delta first with
        | (first, Some result) => (Split split_axis r first second, Some result)
        | (first, None) =>
            if bool_decide (split_axis = axis) then
              let '(r, changed) := adjust_first_ratio r delta in
              (Split split_axis r first second, Some changed)
            else (Split split_axis r first second, None)
        end
      else if contains_pane pane_id second then
        match adjust_resize_boundary_inner pane_id axis delta second with
        | (second, Some result) => (Split split_axis r first second, Some result)
        | (second, None) =>
            if bool_decide (split_axis = axis) then
              let '(r, changed) := adjust_first_ratio r (SFopp delta) in
              (Split split_axis r first second, Some changed)
            else (Split split_axis r first second, None)
        end
      else (l, None)
  end.
Definition adjust_resize_boundary (pane_id : Z) (axis : SplitAxis) (delta : spec_float) (l : PaneLayout)
    : PaneLayout * bool :=
  let '(l, changed) := adjust_resize_boundary_inner pane_id axis delta l in (l, default false changed).

(** The split with the given first panes on the axis. *)
Definition is_split (a b : Z) (axis split_axis : SplitAxis) (first second : PaneLayout) : bool :=
  bool_decide (split_axis = axis) && (first_pane first =? a) && (first_pane second =? b).

Fixpoint split_panes (a b : Z) (axis : SplitAxis) (l : PaneLayout) : option (list Z * list Z) :=
  match l with
  | Pane _ => None
  | Split split_axis _ first second =>
      if is_split a b axis split_axis first second then Some (pane_ids first, pane_ids second)
      else option_or (split_panes a b axis first) (split_panes a b axis second)
  end.

Fixpoint split_ratio (a b : Z) (axis : SplitAxis) (l : PaneLayout) : option spec_float :=
  match l with
  | Pane _ => None
  | Split split_axis r first second =>
      if is_split a b axis split_axis first second then Some (ratio_fraction r)
      else option_or (split_ratio a b axis first) (split_ratio a b axis second)
  end.

Fixpoint adjust_split_ratio (a b : Z) (axis : SplitAxis) (delta : spec_float) (l : PaneLayout) : PaneLayout * bool :=
  match l with
  | Pane _ => (l, false)
  | Split split_axis r first second =>
      if is_split a b axis split_axis first second then
        let '(r, changed) := adjust_first_ratio r delta in (Split split_axis r first second, changed)
      else
        let '(first, changed) := adjust_split_ratio a b axis delta first in
        if changed then (Split split_axis r first second, true)
        else let '(second, changed) := adjust_split_ratio a b axis delta second in
             (Split split_axis r first second, changed)
  end.

(** ** Moving and swapping *)

Definition exchange (axis : SplitAxis) (r : Z) (first second : PaneLayout) : PaneLayout :=
  Split axis (inverse_ratio r) second first.

Fixpoint move_pane_inner (pane_id : Z) (axis : SplitAxis) (toward_first : bool) (l : PaneLayout)
    : PaneLayout * option bool :=
  match l with
  | Pane _ => (l, None)
  | Split split_axis r first second =>
      if contains_pane pane_id first then
        match move_pane_inner pane_id axis toward_first first with
        | (first, Some handled) => (Split split_axis r first second, Some handled)
        | (first, None) =>
            if bool_decide (split_axis = axis) && negb toward_first
            then (exchange split_axis r first second, Some true)
            else (Split split_axis r first second, None)
        end
      else if contains_pane pane_id second then
        match move_pane_inner pane_id axis toward_first second with
        | (second, Some handled) => (Split split_axis r first second, Some handled)
        | (second, None) =>
            if bool_decide (split_axis = axis) && toward_first
            then (exchange split_axis r first second, Some true)
            else (Split split_axis r first second, None)
        end
      else (l, None)
  end.
Definition direction_axis (d : PaneDirection) : SplitAxis * bool :=
  match d with
  | Left => (Vertical, true) | Right => (Vertical, false)
  | Up => (Horizontal, true) | Down => (Horizontal, false)
  end.
Definition move_pane (active_pane : Z) (d : PaneDirection) (l : PaneLayout) : PaneLayout * bool :=
  let '(axis, toward_first) := direction_axis d in
  let '(l, handled) := move_pane_inner active_pane axis toward_first l in (l, default false handled).

Fixpoint swap_panes_inner (first second : Z) (l : PaneLayout) : PaneLayout :=
  match l with
  | Pane id => if id =? first then Pane second else if id =? second then Pane first else Pane id
  | Split axis r a b => Split axis r (swap_panes_inner first second a) (swap_panes_inner first second b)
  end.
Definition swap_panes (first second : Z) (l : PaneLayout) : PaneLayout * bool :=
  if (first =? second) || negb (contains_pane first l) || negb (contains_pane second l) then (l, false)
  else (swap_panes_inner first second l, true).

(** ** Directional focus *)

Definition center (a b : spec_float) : spec_float := Ieee.div (H:=Ieee.f32) (add32 a b) (f32_of 2).
Definition distance (a b : spec_float) : spec_float := SFabs (sub32 a b).

(** The primary and perpendicular distances of a candidate that lies that way. *)
Definition toward (d : PaneDirection) (sx sy cx cy : spec_float) : option (spec_float * spec_float) :=
  match d with
  | Left => if SFltb cx sx then Some (sub32 sx cx, distance sy cy) else None
  | Right => if SFltb sx cx then Some (sub32 cx sx, distance sy cy) else None
  | Up => if SFltb cy sy then Some (sub32 sy cy, distance sx cx) else None
  | Down => if SFltb sy cy then Some (sub32 cy sy, distance sx cx) else None
  end.

Definition candidate (d : PaneDirection) (source : PaneRegion) (active : Z) (c : PaneRegion)
    : option (spec_float * Z) :=
  if negb (negb (region_id c =? active)) then None
  else
    '(primary, perpendicular) ←
      toward d (center (left source) (right source)) (center (top source) (bottom source))
        (center (left c) (right c)) (center (top c) (bottom c));
    Some (add32 primary (mul32 perpendicular (f32_of 2)), region_id c).

(** [iter().min_by(f32::total_cmp)]: the first of the least. *)
Definition min_score (scores : list spec_float) : option spec_float :=
  match scores with
  | [] => None
  | s :: rest => Some (foldl (fun best s => if Ieee.total_lt s best then s else best) s rest)
  end.

(** [recent.iter().rposition(..).map_or(-1, |position| position as isize)] *)
Definition recency (recent : list Z) (id : Z) : Z :=
  match rposition (fun r => r =? id) recent with Some i => Z.of_nat i | None => -1 end.

Definition pick (recent : list Z) (best_score : spec_float) (best : option (Z * Z)) (c : spec_float * Z)
    : option (Z * Z) :=
  if SFltb ADJACENT_PANE_TIE_EPSILON (SFabs (sub32 (fst c) best_score)) then best
  else
    let r := recency recent (snd c) in
    match best with
    | Some (best_recency, _) => if best_recency <? r then Some (r, snd c) else best
    | None => Some (r, snd c)
    end.

Definition adjacent_pane (active : Z) (d : PaneDirection) (recent : list Z) (l : PaneLayout) : option Z :=
  let regions := regions l in
  source ← find (fun region => region_id region =? active) regions;
  let candidates := omap (candidate d source active) regions in
  best_score ← min_score (fst <$> candidates);
  snd <$> foldl (pick recent best_score) None candidates.

(** * Correctness *)

(** ** The panes of a layout *)

(** The panes, left to right; [pane_ids] accumulates them. *)
Fixpoint leaves (l : PaneLayout) : list Z :=
  match l with Pane id => [id] | Split _ _ first second => leaves first ++ leaves second end.

Lemma collect_pane_ids_leaves l ids : collect_pane_ids l ids = ids ++ leaves l.
Proof.
  revert ids; induction l as [id|a r f IHf s IHs]; intros ids; cbn [collect_pane_ids leaves]; [done|].
  by rewrite IHf, IHs, app_assoc.
Qed.
Lemma pane_ids_leaves l : pane_ids l = leaves l.
Proof. apply collect_pane_ids_leaves. Qed.

Lemma contains_pane_iff p l : contains_pane p l = true <-> p ∈ leaves l.
Proof.
  induction l as [id|a r f IHf s IHs]; cbn [contains_pane leaves].
  - rewrite Z.eqb_eq, list_elem_of_singleton. naive_solver.
  - by rewrite orb_true_iff, elem_of_app, IHf, IHs.
Qed.
Lemma contains_pane_false p l : contains_pane p l = false <-> p ∉ leaves l.
Proof. rewrite <-contains_pane_iff. by destruct (contains_pane p l). Qed.

Lemma first_pane_leaves l : first_pane l ∈ leaves l.
Proof. induction l; cbn [first_pane leaves]; set_solver. Qed.
Lemma leaves_ne l : leaves l <> [].
Proof. pose proof (first_pane_leaves l). by destruct (leaves l); [set_solver|]. Qed.

(** Every ratio leaves both children a share. *)
Fixpoint ratios_ok (l : PaneLayout) : Prop :=
  match l with
  | Pane _ => True
  | Split _ r first second => 0 < r < PANE_SPLIT_RATIO_SCALE /\ ratios_ok first /\ ratios_ok second
  end.
#[export] Instance ratios_ok_dec l : Decision (ratios_ok l).
Proof. induction l; cbn [ratios_ok]; apply _. Defined.

Lemma inverse_ratio_ok r : 0 < r < 1000 -> inverse_ratio r = 1000 - r.
Proof. intros H. apply wrap_small. unfold fits, PANE_SPLIT_RATIO_SCALE. lia. Qed.
Lemma inverse_ratio_invol r : 0 < r < 1000 -> inverse_ratio (inverse_ratio r) = r.
Proof. intros H. rewrite (inverse_ratio_ok r H), inverse_ratio_ok by lia. lia. Qed.

(** The part of the layout a path of children leads to, and the layout with
    that part mapped. *)
Fixpoint at_path (path : list bool) (l : PaneLayout) : option PaneLayout :=
  match path, l with
  | [], _ => Some l
  | b :: path, Split _ _ first second => at_path path (if b then first else second)
  | _, Pane _ => None
  end.
Fixpoint map_at (path : list bool) (g : PaneLayout -> PaneLayout) (l : PaneLayout) : PaneLayout :=
  match path, l with
  | [], _ => g l
  | b :: path, Split a r first second =>
      if b then Split a r (map_at path g first) second else Split a r first (map_at path g second)
  | _, Pane _ => l
  end.
Definition set_ratio (r : Z) (l : PaneLayout) : PaneLayout :=
  match l with Split a _ first second => Split a r first second | Pane _ => l end.

Lemma rotate_at_path_map path d l : rotate_at_path path d l = map_at path (rotate_geometry d) l.
Proof. revert l; induction path as [|b path IH]; intros [id|a r f s]; cbn; try done. destruct b; by rewrite IH. Qed.

Lemma map_at_compose path g h l : map_at path g (map_at path h l) = map_at path (fun l => g (h l)) l.
Proof. revert l; induction path as [|b path IH]; intros [id|a r f s]; cbn; try done. destruct b; cbn; by rewrite IH. Qed.
Lemma map_at_id path g l : ratios_ok l -> (forall l, ratios_ok l -> g l = l) -> map_at path g l = l.
Proof.
  intros Hl Hg. revert l Hl; induction path as [|b path IH]; intros [id|a r f s] Hl; cbn; auto.
  destruct Hl as (_ & Hf & Hs). destruct b; by rewrite IH.
Qed.
Lemma map_at_leaves_eq path g l : (forall l, leaves (g l) = leaves l) -> leaves (map_at path g l) = leaves l.
Proof. intros Hg. revert l; induction path as [|b path IH]; intros [id|a r f s]; cbn; auto. destruct b; cbn; by rewrite IH. Qed.
Lemma map_at_ext path g h l k : at_path path l = Some k -> g k = h k -> map_at path g l = map_at path h l.
Proof.
  revert l; induction path as [|b path IH]; intros [id|a r f s]; cbn; try (by intros [= <-]); try done.
  intros Hp Hg. by destruct b; rewrite (IH _ Hp Hg).
Qed.
Lemma map_at_ratios path g l : (forall l, ratios_ok l -> ratios_ok (g l)) -> ratios_ok l -> ratios_ok (map_at path g l).
Proof. intros Hg. revert l; induction path as [|b path IH]; intros [id|a r f s]; cbn; auto. destruct b; cbn; naive_solver. Qed.
Lemma map_at_leaves path g l : (forall l, leaves (g l) ≡ₚ leaves l) -> leaves (map_at path g l) ≡ₚ leaves l.
Proof. intros Hg. revert l; induction path as [|b path IH]; intros [id|a r f s]; cbn; auto. destruct b; cbn; by rewrite IH. Qed.

(** ** Rotation *)

Definition opposite (d : PaneRotationDirection) : PaneRotationDirection :=
  match d with Clockwise => CounterClockwise | CounterClockwise => Clockwise end.

Lemma rotate_geometry_leaves d l : leaves (rotate_geometry d l) ≡ₚ leaves l.
Proof.
  induction l as [id|a r f IHf s IHs]; cbn [rotate_geometry leaves]; [done|].
  destruct (reverse_children d a); cbn [leaves]; rewrite IHf, IHs; [apply Permutation_app_comm|done].
Qed.
Lemma rotate_geometry_ratios d l : ratios_ok l -> ratios_ok (rotate_geometry d l).
Proof.
  induction l as [id|a r f IHf s IHs]; cbn [rotate_geometry ratios_ok]; [done|]. intros (Hr & Hf & Hs).
  destruct (reverse_children d a); cbn [ratios_ok]; [|naive_solver].
  unfold PANE_SPLIT_RATIO_SCALE in *. rewrite inverse_ratio_ok by done. split; [lia|naive_solver].
Qed.
Lemma rotate_geometry_opposite d l : ratios_ok l -> rotate_geometry (opposite d) (rotate_geometry d l) = l.
Proof.
  induction l as [id|a r f IHf s IHs]; cbn [rotate_geometry ratios_ok]; [done|]. intros (Hr & Hf & Hs).
  destruct d, a; cbn [reverse_children other_axis rotate_geometry opposite];
    cbn [opposite] in IHf, IHs; by rewrite ?IHf, ?IHs, ?inverse_ratio_invol.
Qed.

(** Two quarter turns mirror every split, whichever way they go. *)
Fixpoint mirror (l : PaneLayout) : PaneLayout :=
  match l with
  | Pane id => Pane id
  | Split a r first second => Split a (inverse_ratio r) (mirror second) (mirror first)
  end.
Lemma rotate_geometry_twice d l : rotate_geometry d (rotate_geometry d l) = mirror l.
Proof.
  induction l as [id|a r f IHf s IHs]; cbn [rotate_geometry mirror]; [done|].
  destruct d, a; cbn [reverse_children other_axis rotate_geometry]; by rewrite IHf, IHs.
Qed.
Lemma mirror_invol l : ratios_ok l -> mirror (mirror l) = l.
Proof.
  induction l as [id|a r f IHf s IHs]; cbn [mirror ratios_ok]; [done|]. intros (Hr & Hf & Hs).
  by rewrite IHf, IHs, inverse_ratio_invol.
Qed.

Lemma pane_area_contains p area l a : pane_area p area l = Some a -> p ∈ leaves l.
Proof.
  revert area; induction l as [id|ax r f IHf s IHs]; intros area; cbn [pane_area leaves].
  - destruct (Z.eqb_spec id p); [set_solver|done].
  - cbv zeta. rewrite elem_of_app. destruct (pane_area p _ f) eqn:E; [naive_solver|]. naive_solver.
Qed.

Lemma rotation_target_at active aa area l path : active ∈ leaves l ->
  rotation_target active aa area l = Some path ->
  exists a r f s, at_path path l = Some (Split a r f s) /\ active ∈ leaves (Split a r f s).
Proof.
  revert area path; induction l as [id|ax r f IHf s IHs]; intros area path Hin; cbn [rotation_target].
  - destruct (_ || _) eqn:E; [|done]. exfalso. revert E.
    unfold has_four_equal_panes. by cbn.
  - assert (Hhere : exists a r' f' s', at_path [] (Split ax r f s) = Some (Split a r' f' s') /\
      active ∈ leaves (Split a r' f' s')) by (by exists ax, r, f, s).
    destruct (_ || _); [by intros [= <-]|]. cbv zeta.
    destruct (contains_pane active f) eqn:Ef; [|destruct (contains_pane active s) eqn:Es; [|done]].
    + apply contains_pane_iff in Ef. destruct (rotation_target active aa _ f) as [pf|] eqn:E.
      * intros [= <-]. exact (IHf _ _ Ef E).
      * destruct (SFleb _ _); [by intros [= <-]|done].
    + apply contains_pane_iff in Es. destruct (rotation_target active aa _ s) as [ps|] eqn:E.
      * intros [= <-]. exact (IHs _ _ Es E).
      * destruct (SFleb _ _); [by intros [= <-]|done].
Qed.

Lemma rotate_pane_panes p d l :
  pane_ids (fst (rotate_pane p d l)) ≡ₚ pane_ids l /\ (ratios_ok l -> ratios_ok (fst (rotate_pane p d l))).
Proof.
  unfold rotate_pane. destruct (pane_area _ _ _); [|done]. destruct (rotation_target _ _ _ _) as [path|]; [|done].
  cbn [fst]. rewrite !pane_ids_leaves, rotate_at_path_map.
  split; [apply map_at_leaves, rotate_geometry_leaves|]. by apply map_at_ratios, rotate_geometry_ratios.
Qed.

(** Rotating a pane turns exactly one split that holds it and leaves the
    rest of the layout alone: the tab keeps the same panes and its ratios stay
    between 1 and 999; turning the same split back the other way restores the
    layout, and so do four turns the same way.  When the pane has no split to
    turn, nothing changes. *)
Theorem rotation_is_a_quarter_turn (active : Z) (d : PaneRotationDirection) (l : PaneLayout) :
  ratios_ok l ->
  match rotate_pane active d l with
  | (l', false) => l' = l
  | (l', true) =>
      exists path a r first second,
        at_path path l = Some (Split a r first second) /\ active ∈ pane_ids (Split a r first second) /\
        l' = map_at path (rotate_geometry d) l /\
        pane_ids l' ≡ₚ pane_ids l /\ ratios_ok l' /\
        rotate_at_path path (opposite d) l' = l /\
        rotate_at_path path d (rotate_at_path path d (rotate_at_path path d l')) = l
  end.
Proof.
  intros Hl. unfold rotate_pane. destruct (pane_area _ _ _) eqn:Ea; [|done].
  destruct (rotation_target _ _ _ _) as [path|] eqn:Et; [|done].
  apply pane_area_contains in Ea. destruct (rotation_target_at _ _ _ _ _ Ea Et) as (a & r & f & s' & Hp & Hin).
  exists path, a, r, f, s'. rewrite !pane_ids_leaves, !rotate_at_path_map, !map_at_compose.
  split_and!; [done | done | done | | | |].
  - apply map_at_leaves, rotate_geometry_leaves.
  - apply map_at_ratios; [apply rotate_geometry_ratios|done].
  - apply map_at_id; [done|]. apply rotate_geometry_opposite.
  - apply map_at_id; [done|]. intros k Hk. by rewrite !rotate_geometry_twice, mirror_invol.
Qed.
(** Three panes: the focused small pane turns its local split. *)
Definition demo_layout : PaneLayout := Split Vertical 600 (Pane 1) (Split Horizontal 300 (Pane 2) (Pane 3)).
Lemma rotation_is_a_quarter_turn_witness :
  ratios_ok demo_layout /\
  rotate_pane 2 Clockwise demo_layout =
    (Split Vertical 600 (Pane 1) (Split Vertical 700 (Pane 3) (Pane 2)), true) /\
  exists path, rotate_at_path path CounterClockwise (fst (rotate_pane 2 Clockwise demo_layout)) = demo_layout.
Proof.
  assert (H : ratios_ok demo_layout) by (vm_compute; tauto).
  split; [done|]. split; [by vm_compute|].
  pose proof (rotation_is_a_quarter_turn 2 Clockwise demo_layout H) as Hr.
  assert (Hb : snd (rotate_pane 2 Clockwise demo_layout) = true) by (by vm_compute).
  destruct (rotate_pane 2 Clockwise demo_layout) as [l' b]. cbn [snd] in Hb. subst b.
  destruct Hr as (path & _ & _ & _ & _ & _ & _ & _ & _ & _ & Hu & _). by exists path.
Defined.

(** ** Opening and closing panes *)

Lemma split_absent target axis new position l : target ∉ leaves l -> split target axis new position l = (l, false).
Proof.
  induction l as [id|a r f IHf s IHs]; cbn [split leaves]; intros Hn.
  - destruct (Z.eqb_spec id target); [set_solver|done].
  - by rewrite IHf, IHs by set_solver.
Qed.
Lemma without_absent target l : target ∉ leaves l -> without target l = Some l.
Proof.
  induction l as [id|a r f IHf s IHs]; cbn [without leaves]; intros Hn.
  - destruct (Z.eqb_spec id target); [set_solver|done].
  - by rewrite IHf, IHs by set_solver.
Qed.

(** What splitting leaves in place of the target. *)
Definition opened (target new : Z) (position : SplitPosition) : list Z :=
  match position with Before => [new; target] | After => [target; new] end.

(** Splitting a pane puts the new pane next to it, on the side asked for,
    and moves no other pane; closing the new pane again restores the layout
    exactly.  Splitting a pane that is not there changes nothing. *)
Theorem split_then_close (target new : Z) (axis : SplitAxis) (position : SplitPosition) (l : PaneLayout) :
  new ∉ pane_ids l ->
  match split target axis new position l with
  | (l', false) => l' = l /\ (target ∉ pane_ids l)
  | (l', true) =>
      (exists before after, pane_ids l = before ++ target :: after /\ (target ∉ before) /\
         pane_ids l' = before ++ opened target new position ++ after) /\
      without new l' = Some l /\ (ratios_ok l -> ratios_ok l')
  end.
Proof.
  intros Hnew. rewrite pane_ids_leaves in *. induction l as [id|a r f IHf s' IHs]; cbn [split leaves] in *.
  - destruct (Z.eqb_spec id target) as [->|Hne]; [|set_solver].
    assert (Hnt : target =? new = false) by (apply Z.eqb_neq; set_solver).
    destruct position; cbn [without negb]; rewrite Z.eqb_refl, Hnt; (split; [|split; [done|by vm_compute]]).
    all: exists [], []; split_and!; [done|set_solver|done].
  - destruct (split target axis new position f) as [f' [|]] eqn:Ef.
    + destruct IHf as ((before & after & Hl & Hb & Hl') & Hw & Hr); [set_solver|]. split_and!.
      * exists before, (after ++ leaves s'). rewrite pane_ids_leaves in *. cbn [leaves].
        by rewrite Hl, Hl', <-!app_assoc.
      * cbn [without]. by rewrite Hw, without_absent by set_solver.
      * cbn [ratios_ok]. naive_solver.
    + destruct IHf as (-> & Hf); [set_solver|]. destruct (split target axis new position s') as [s'' [|]] eqn:Es.
      * destruct IHs as ((before & after & Hl & Hb & Hl') & Hw & Hr); [set_solver|]. split_and!.
        -- exists (leaves f ++ before), after. rewrite pane_ids_leaves in *. cbn [leaves].
           rewrite Hl, Hl', <-!app_assoc. set_solver.
        -- cbn [without]. by rewrite Hw, without_absent by set_solver.
        -- cbn [ratios_ok]. naive_solver.
      * destruct IHs as (-> & Hs); [set_solver|]. set_solver.
Qed.
Lemma split_then_close_witness :
  (4 ∉ pane_ids demo_layout) /\
  split 2 Vertical 4 Before demo_layout =
    (Split Vertical 600 (Pane 1) (Split Horizontal 300 (Split Vertical 500 (Pane 4) (Pane 2)) (Pane 3)), true) /\
  without 4 (fst (split 2 Vertical 4 Before demo_layout)) = Some demo_layout.
Proof.
  assert (H : 4 ∉ pane_ids demo_layout) by (vm_compute; set_solver).
  split; [done|]. split; [by vm_compute|].
  exact (proj1 (proj2 (split_then_close 2 4 Vertical Before demo_layout H))).
Defined.

Lemma without_singleton target l : without target l = without_all {[target]} l.
Proof.
  induction l as [id|a r f IHf s IHs]; cbn [without without_all]; [|by rewrite IHf, IHs].
  destruct (Z.eqb_spec id target); case_bool_decide; set_solver.
Qed.

Lemma without_all_panes (targets : gset Z) l :
  match without_all targets l with
  | Some l' => pane_ids l' = filter (fun id => id ∉ targets) (pane_ids l) /\ (ratios_ok l -> ratios_ok l')
  | None => filter (fun id => id ∉ targets) (pane_ids l) = []
  end.
Proof.
  rewrite pane_ids_leaves. induction l as [id|a r f IHf s IHs]; cbn [without_all leaves].
  - rewrite filter_cons. case_bool_decide; case_decide; try done.
  - rewrite filter_app. destruct (without_all targets f) as [f'|], (without_all targets s) as [s'|];
        cbn [join]; rewrite ?pane_ids_leaves in *; cbn [leaves ratios_ok].
    + destruct IHf as [-> Hf], IHs as [-> Hs]. split; [done|naive_solver].
    + destruct IHf as [-> Hf]. rewrite IHs, app_nil_r. naive_solver.
    + destruct IHs as [-> Hs]. rewrite IHf. naive_solver.
    + by rewrite IHf, IHs.
Qed.

(** Closing panes removes exactly those panes: what is left keeps its order
    and its ratios stay between 1 and 999; there is nothing left exactly when
    every pane was closed; closing two sets of panes in turn is closing both
    at once, and closing one pane is closing the set of it. *)
Theorem closing_filters_panes (targets more : gset Z) (l : PaneLayout) :
  match without_all targets l with
  | Some l' => pane_ids l' = filter (fun id => id ∉ targets) (pane_ids l) /\ (ratios_ok l -> ratios_ok l')
  | None => filter (fun id => id ∉ targets) (pane_ids l) = []
  end /\
  without_all (targets ∪ more) l = without_all targets l ≫= without_all more /\
  (forall target, without target l = without_all {[target]} l).
Proof.
  split_and!; [apply without_all_panes| |intros target; apply without_singleton].
  - induction l as [id|a r f IHf s IHs]; cbn [without_all].
    + case_bool_decide; case_bool_decide; cbn [mbind option_bind without_all];
        try case_bool_decide; set_solver.
    + rewrite IHf, IHs. destruct (without_all targets f) as [f'|], (without_all targets s) as [s'|];
        cbn [join mbind option_bind without_all]; try done.
      * by destruct (without_all more f').
      * by destruct (without_all more s').
Qed.

(** ** The nearest split

    Moving and resizing look for the split closest to the pane that [choose]s
    the pane's side of it. *)
Lemma at_path_leaves path l k : at_path path l = Some k -> leaves k ⊆ leaves l.
Proof.
  revert l; induction path as [|b path IH]; intros [id|a r f s]; cbn; try (by intros [= <-]); try done.
  intros H. apply IH in H. destruct b; set_solver.
Qed.

Section Nearest.
Context (p : Z) (choose : SplitAxis -> bool -> bool).

Definition stop (a : SplitAxis) (is_first : bool) : option (list bool * bool) :=
  if choose a is_first then Some ([], is_first) else None.
Definition below (is_first : bool) (found : list bool * bool) : list bool * bool :=
  (is_first :: fst found, snd found).

Fixpoint nearest (l : PaneLayout) : option (list bool * bool) :=
  match l with
  | Pane _ => None
  | Split a _ first second =>
      if contains_pane p first then option_or (below true <$> nearest first) (stop a true)
      else if contains_pane p second then option_or (below false <$> nearest second) (stop a false)
      else None
  end.

Definition child (is_first : bool) (first second : PaneLayout) : PaneLayout := if is_first then first else second.

(** No split of the layout that holds the pane is chosen. *)
Definition none_chosen (l : PaneLayout) : Prop := forall path a r first second is_first,
  at_path path l = Some (Split a r first second) ->
  p ∈ leaves (child is_first first second) -> choose a is_first = false.

Lemma none_chosen_absent l : p ∉ leaves l -> none_chosen l.
Proof using Type.
  intros Hn path a r f s b Hp Hin. destruct Hn. apply (at_path_leaves _ _ _ Hp). cbn [leaves].
  destruct b; set_solver.
Qed.
Lemma none_chosen_split a r f s :
  (p ∈ leaves f -> choose a true = false) -> (p ∈ leaves s -> choose a false = false) ->
  none_chosen f -> none_chosen s -> none_chosen (Split a r f s).
Proof using Type.
  intros Hf Hs Hnf Hns [|[] path] a' r' f' s' b; cbn [at_path]; intros Hp Hin.
  - injection Hp as <- <- <- <-. destruct b; auto.
  - exact (Hnf _ _ _ _ _ _ Hp Hin).
  - exact (Hns _ _ _ _ _ _ Hp Hin).
Qed.

Lemma nearest_none l : NoDup (leaves l) -> nearest l = None -> none_chosen l.
Proof using Type.
  induction l as [id|a r f IHf s IHs]; cbn [nearest leaves]; intros Hnd Hn.
  - by intros [|?] ? ? ? ? ? Hp.
  - apply NoDup_app in Hnd as (Hf & Hfs & Hs).
    destruct (contains_pane p f) eqn:Ef.
    { apply contains_pane_iff in Ef. destruct (nearest f); [done|]. cbn [option_or fmap option_fmap option_map] in Hn.
      unfold stop in Hn. destruct (choose a true) eqn:Ec; [done|].
      apply none_chosen_split; [done | | auto |]; [intros ?; by destruct (Hfs p)|].
      apply none_chosen_absent, Hfs, Ef. }
    apply contains_pane_false in Ef. destruct (contains_pane p s) eqn:Es.
    + apply contains_pane_iff in Es. destruct (nearest s); [done|]. cbn [option_or fmap option_fmap option_map] in Hn.
      unfold stop in Hn. destruct (choose a false) eqn:Ec; [done|].
      apply none_chosen_split; [done | done | | auto]. by apply none_chosen_absent.
    + apply contains_pane_false in Es. apply none_chosen_absent. set_solver.
Qed.

Lemma nearest_some l path is_first : NoDup (leaves l) -> nearest l = Some (path, is_first) ->
  exists a r first second, at_path path l = Some (Split a r first second) /\
    choose a is_first = true /\ p ∈ leaves (child is_first first second) /\
    none_chosen (child is_first first second).
Proof using Type.
  revert path; induction l as [id|a r f IHf s IHs]; cbn [nearest leaves]; intros path Hnd Hn; [done|].
  apply NoDup_app in Hnd as (Hf & Hfs & Hs).
  destruct (contains_pane p f) eqn:Ef; [|destruct (contains_pane p s) eqn:Es; [|done]].
  - apply contains_pane_iff in Ef. destruct (nearest f) as [[path' b]|] eqn:E; cbn in Hn.
    + injection Hn as <- <-. by apply IHf.
    + unfold stop in Hn. destruct (choose a true) eqn:Ec; [|done]. injection Hn as <- <-.
      exists a, r, f, s. split_and!; [done..|]. by apply nearest_none.
  - apply contains_pane_iff in Es. destruct (nearest s) as [[path' b]|] eqn:E; cbn in Hn.
    + injection Hn as <- <-. by apply IHs.
    + unfold stop in Hn. destruct (choose a false) eqn:Ec; [|done]. injection Hn as <- <-.
      exists a, r, f, s. split_and!; [done..|]. by apply nearest_none.
Qed.

End Nearest.

(** ** Moving and swapping *)

Definition exchange_at (l : PaneLayout) : PaneLayout :=
  match l with Split a r first second => exchange a r first second | Pane _ => l end.

(** Moving toward the first child leaves the second one. *)
Definition leaving (axis : SplitAxis) (toward_first : bool) (a : SplitAxis) (is_first : bool) : bool :=
  bool_decide (a = axis) && Bool.eqb toward_first (negb is_first).

Lemma move_pane_inner_nearest p axis tf l :
  move_pane_inner p axis tf l =
  match nearest p (leaving axis tf) l with
  | Some (path, _) => (map_at path exchange_at l, Some true)
  | None => (l, None)
  end.
Proof.
  induction l as [id|a r f IHf s IHs]; cbn [move_pane_inner nearest]; [done|]. rewrite IHf, IHs.
  destruct (contains_pane p f); [|destruct (contains_pane p s); [|done]].
  - destruct (nearest p _ f) as [[path b]|]; [done|]. unfold stop, leaving.
    destruct (bool_decide (a = axis)), tf; done.
  - destruct (nearest p _ s) as [[path b]|]; [done|]. unfold stop, leaving.
    destruct (bool_decide (a = axis)), tf; done.
Qed.

Lemma exchange_at_leaves l : leaves (exchange_at l) ≡ₚ leaves l.
Proof. destruct l; cbn; [done|]. apply Permutation_app_comm. Qed.
Lemma exchange_at_ratios l : ratios_ok l -> ratios_ok (exchange_at l).
Proof.
  destruct l as [|a r f s]; cbn; [done|]. unfold PANE_SPLIT_RATIO_SCALE. intros (Hr & Hf & Hs).
  rewrite inverse_ratio_ok by done. split; [lia|done].
Qed.

Lemma move_pane_panes p d l :
  pane_ids (fst (move_pane p d l)) ≡ₚ pane_ids l /\ (ratios_ok l -> ratios_ok (fst (move_pane p d l))).
Proof.
  unfold move_pane. destruct (direction_axis d) as [axis tf]. rewrite move_pane_inner_nearest.
  destruct (nearest p (leaving axis tf) l) as [[path b]|]; cbn [fst]; [|done]. rewrite !pane_ids_leaves.
  split; [apply map_at_leaves, exchange_at_leaves|]. intros Hl. by apply map_at_ratios; [apply exchange_at_ratios|].
Qed.

(** Moving a pane exchanges the two sides of the nearest split, on the axis
    of the direction, whose far side it can move into; the split's ratio goes
    with them, the tab keeps its panes and its ratios stay between 1 and 999.
    The move fails, and changes nothing, exactly when the pane is already at
    that edge: no split of that axis has it on the near side. *)
Theorem move_pane_exchanges_nearest (active : Z) (d : PaneDirection) (l : PaneLayout) :
  NoDup (pane_ids l) ->
  let '(axis, toward_first) := direction_axis d in
  match move_pane active d l with
  | (l', false) => l' = l /\ none_chosen active (leaving axis toward_first) l
  | (l', true) =>
      pane_ids l' ≡ₚ pane_ids l /\ (ratios_ok l -> ratios_ok l') /\
      exists path r first second,
        at_path path l = Some (Split axis r first second) /\
        l' = map_at path (fun _ => Split axis (inverse_ratio r) second first) l /\
        let near := if toward_first then second else first in
        active ∈ pane_ids near /\ none_chosen active (leaving axis toward_first) near
  end.
Proof.
  rewrite pane_ids_leaves. intros Hnd. unfold move_pane.
  destruct (direction_axis d) as [axis tf]. rewrite move_pane_inner_nearest.
  destruct (nearest active (leaving axis tf) l) as [[path b]|] eqn:En; cbn [default].
  - destruct (nearest_some _ _ _ _ _ Hnd En) as (a & r & f & s & Hp & Hc & Hin & Hnone).
    unfold leaving in Hc. apply andb_true_iff in Hc as [->%bool_decide_eq_true Hb].
    apply Bool.eqb_prop in Hb. split_and!.
    + rewrite !pane_ids_leaves. apply map_at_leaves, exchange_at_leaves.
    + intros Hl. by apply map_at_ratios; [apply exchange_at_ratios|].
    + exists path, r, f, s. split; [done|]. split; [by eapply map_at_ext|].
      rewrite pane_ids_leaves. subst tf. by destruct b.
  - split; [done|]. by apply nearest_none.
Qed.
Lemma move_pane_exchanges_nearest_witness :
  NoDup (pane_ids demo_layout) /\
  move_pane 2 Left demo_layout = (Split Vertical 400 (Split Horizontal 300 (Pane 2) (Pane 3)) (Pane 1), true) /\
  none_chosen 1 (leaving Vertical true) demo_layout.
Proof.
  assert (H : NoDup (pane_ids demo_layout)) by (apply (bool_decide_unpack _); vm_compute; exact I).
  split; [exact H|]. split; [by vm_compute|].
  exact (proj2 (move_pane_exchanges_nearest 1 Left demo_layout H)).
Defined.

(** [first] and [second] in each other's place. *)
Definition transpose (first second id : Z) : Z :=
  if id =? first then second else if id =? second then first else id.

Lemma transpose_invol a b id : transpose a b (transpose a b id) = id.
Proof.
  unfold transpose. destruct (Z.eqb_spec id a), (Z.eqb_spec id b).
  all: repeat match goal with |- context [?x =? ?y] => destruct (Z.eqb_spec x y) end; congruence.
Qed.
Lemma transpose_elem a b (ids : list Z) : a ∈ ids -> b ∈ ids ->
  a ∈ transpose a b <$> ids /\ b ∈ transpose a b <$> ids.
Proof.
  intros Ha Hb. split; apply list_elem_of_fmap; [exists b|exists a]; (split; [|done]); unfold transpose.
  - rewrite Z.eqb_refl. by destruct (Z.eqb_spec b a).
  - by rewrite Z.eqb_refl.
Qed.
Lemma swap_panes_inner_ratios a b l : ratios_ok (swap_panes_inner a b l) <-> ratios_ok l.
Proof.
  induction l as [id|ax r f IHf s IHs]; cbn [swap_panes_inner ratios_ok]; [|naive_solver].
  by destruct (id =? a), (id =? b).
Qed.
Lemma swap_panes_inner_leaves a b l : leaves (swap_panes_inner a b l) = transpose a b <$> leaves l.
Proof.
  induction l as [id|ax r f IHf s IHs]; cbn [swap_panes_inner leaves].
  - change (transpose a b <$> [id]) with [transpose a b id]. unfold transpose. by destruct (id =? a), (id =? b).
  - by rewrite fmap_app, IHf, IHs.
Qed.
Lemma swap_panes_inner_invol a b l : swap_panes_inner a b (swap_panes_inner a b l) = l.
Proof.
  assert (Hp : forall id, swap_panes_inner a b (Pane id) = Pane (transpose a b id)).
  { intros id. cbn. unfold transpose. by destruct (id =? a), (id =? b). }
  induction l as [id|ax r f IHf s IHs]; [by rewrite !Hp, transpose_invol|].
  cbn [swap_panes_inner]. by rewrite IHf, IHs.
Qed.

Lemma swap_panes_panes a b l : NoDup (pane_ids l) ->
  pane_ids (fst (swap_panes a b l)) ≡ₚ pane_ids l /\ (ratios_ok l -> ratios_ok (fst (swap_panes a b l))).
Proof.
  rewrite pane_ids_leaves. intros Hnd. unfold swap_panes.
  destruct ((a =? b) || _ || _) eqn:E; cbn [fst]; [by rewrite pane_ids_leaves|].
  apply orb_false_iff in E as [[_ Ha]%orb_false_iff Hb]. apply negb_false_iff, contains_pane_iff in Ha, Hb.
  rewrite pane_ids_leaves. split; [|by apply swap_panes_inner_ratios]. rewrite swap_panes_inner_leaves.
  assert (Hin : forall x, x ∈ leaves l -> transpose a b x ∈ leaves l).
  { intros x Hx. unfold transpose. by destruct (x =? a), (x =? b). }
  apply NoDup_Permutation; [|done|].
  - apply NoDup_fmap_2; [|done]. intros x y Hxy. by rewrite <-(transpose_invol a b x), Hxy, transpose_invol.
  - intros x. rewrite list_elem_of_fmap. split; [intros (y & -> & Hy); auto|].
    intros Hx. exists (transpose a b x). by rewrite transpose_invol; auto.
Qed.

(** Swapping two panes of a layout puts each in the other's place, moves no
    other pane, and is undone by swapping them again; it fails, and changes
    nothing, exactly when they are one pane or one is not in the layout. *)
Theorem swap_panes_exchanges (a b : Z) (l : PaneLayout) :
  match swap_panes a b l with
  | (l', false) => l' = l /\ (a = b \/ (a ∉ pane_ids l) \/ (b ∉ pane_ids l))
  | (l', true) =>
      pane_ids l' = transpose a b <$> pane_ids l /\ swap_panes a b l' = (l, true) /\
      (ratios_ok l' <-> ratios_ok l)
  end.
Proof.
  rewrite pane_ids_leaves. unfold swap_panes.
  destruct (Z.eqb_spec a b) as [|Hne]; cbn [orb]; [split; [done|by left]|].
  destruct (contains_pane a l) eqn:Ea; cbn [orb negb];
    [|split; [done|]; right; left; by apply contains_pane_false].
  destruct (contains_pane b l) eqn:Eb; cbn [orb negb];
    [|split; [done|]; right; right; by apply contains_pane_false].
  apply contains_pane_iff in Ea, Eb. rewrite pane_ids_leaves, swap_panes_inner_leaves.
  split; [done|]. split; [|apply swap_panes_inner_ratios].
  destruct (transpose_elem a b _ Ea Eb) as [Ha' Hb']. rewrite <-swap_panes_inner_leaves in Ha', Hb'.
  apply contains_pane_iff in Ha', Hb'. by rewrite Ha', Hb', swap_panes_inner_invol.
Qed.

(** ** Resizing *)

Definition resized (delta : spec_float) (is_first : bool) (l : PaneLayout) : PaneLayout * bool :=
  match l with
  | Split a r first second =>
      let '(r', changed) := adjust_first_ratio r (if is_first then delta else SFopp delta) in
      (Split a r' first second, changed)
  | Pane _ => (l, false)
  end.

Lemma adjust_first_ratio_spec r delta :
  match adjust_first_ratio r delta with
  | (r', true) => r' <> r /\ 0 < r' < PANE_SPLIT_RATIO_SCALE
  | (r', false) => r' = r
  end.
Proof.
  unfold adjust_first_ratio, PANE_SPLIT_RATIO_SCALE. cbv zeta. destruct (_ =? 0); [done|].
  destruct (Z.eqb_spec (Z.min (Z.max (as_i32 (r + Ieee.round_i32 (mul32 delta (f32_of 1000)))) 1) (1000 - 1)) r);
    lia.
Qed.
Lemma resized_false delta b l : snd (resized delta b l) = false -> fst (resized delta b l) = l.
Proof.
  destruct l as [id|a r f s]; cbn; [done|].
  pose proof (adjust_first_ratio_spec r (if b then delta else SFopp delta)) as Hr.
  destruct (adjust_first_ratio _ _) as [r' [|]]; cbn; [done|by subst].
Qed.
Lemma resized_leaves delta b l : leaves (fst (resized delta b l)) = leaves l.
Proof. destruct l as [id|a r f s]; cbn; [done|]. by destruct (adjust_first_ratio _ _). Qed.
Lemma resized_ratios delta b l : ratios_ok l -> ratios_ok (fst (resized delta b l)).
Proof.
  destruct l as [id|a r f s]; cbn; [done|].
  pose proof (adjust_first_ratio_spec r (if b then delta else SFopp delta)) as Hr.
  destruct (adjust_first_ratio _ _) as [r' [|]]; cbn; [|by subst]. naive_solver.
Qed.

Definition on_axis (axis a : SplitAxis) (_ : bool) : bool := bool_decide (a = axis).

(** The share of the layout the split at a path divides. *)
Fixpoint fraction_at (path : list bool) (fraction : spec_float) (l : PaneLayout) : spec_float :=
  match path, l with
  | b :: path, Split _ r first second =>
      if b then fraction_at path (mul32 fraction (ratio_fraction r)) first
      else fraction_at path (mul32 fraction (sub32 (f32_of 1) (ratio_fraction r))) second
  | _, _ => fraction
  end.
Definition boundary_at (fraction : spec_float) (path : list bool) (is_first : bool) (l : PaneLayout)
    : option PaneResizeBoundary :=
  match at_path path l with
  | Some (Split _ _ first second) =>
      Some (mkBoundary (fraction_at path fraction l) is_first (pane_ids (child (negb is_first) first second)))
  | _ => None
  end.

Lemma nearest_at p choose l path is_first : nearest p choose l = Some (path, is_first) ->
  exists a r f s, at_path path l = Some (Split a r f s).
Proof.
  revert path; induction l as [id|a r f IHf s IHs]; cbn [nearest]; intros path; [done|].
  destruct (contains_pane p f); [|destruct (contains_pane p s); [|done]].
  - destruct (nearest p choose f) as [[q b]|]; cbn; [intros [= <- <-]; by apply IHf|].
    unfold stop. destruct (choose a true); [intros [= <- <-]|done]. by exists a, r, f, s.
  - destruct (nearest p choose s) as [[q b]|]; cbn; [intros [= <- <-]; by apply IHs|].
    unfold stop. destruct (choose a false); [intros [= <- <-]|done]. by exists a, r, f, s.
Qed.

Lemma resize_boundary_nearest p axis fraction l :
  resize_boundary_inner p axis fraction l =
  '(path, is_first) ← nearest p (on_axis axis) l; boundary_at fraction path is_first l.
Proof.
  revert fraction; induction l as [id|a r f IHf s IHs]; intros fraction; cbn [resize_boundary_inner nearest]; [done|].
  rewrite IHf, IHs. destruct (contains_pane p f); [|destruct (contains_pane p s); [|done]].
  - destruct (nearest p _ f) as [[path b]|] eqn:En; cbn.
    + destruct (nearest_at _ _ _ _ _ En) as (a' & r' & f' & s' & Hp). unfold boundary_at. by rewrite Hp; cbn; rewrite Hp.
    + unfold stop, on_axis. by destruct (bool_decide _).
  - destruct (nearest p _ s) as [[path b]|] eqn:En; cbn.
    + destruct (nearest_at _ _ _ _ _ En) as (a' & r' & f' & s' & Hp). unfold boundary_at. by rewrite Hp; cbn; rewrite Hp.
    + unfold stop, on_axis. by destruct (bool_decide _).
Qed.

Lemma adjust_resize_nearest p axis delta l :
  adjust_resize_boundary_inner p axis delta l =
  match nearest p (on_axis axis) l with
  | Some (path, is_first) =>
      (map_at path (fun k => fst (resized delta is_first k)) l, (fun k => snd (resized delta is_first k)) <$> at_path path l)
  | None => (l, None)
  end.
Proof.
  induction l as [id|a r f IHf s IHs]; cbn [adjust_resize_boundary_inner nearest]; [done|].
  rewrite IHf, IHs. destruct (contains_pane p f); [|destruct (contains_pane p s); [|done]].
  - destruct (nearest p _ f) as [[path b]|] eqn:En; cbn.
    + destruct (nearest_at _ _ _ _ _ En) as (a' & r' & f' & s' & Hp). by rewrite Hp.
    + unfold stop, on_axis. destruct (bool_decide _); [|done]. cbn. by destruct (adjust_first_ratio _ _).
  - destruct (nearest p _ s) as [[path b]|] eqn:En; cbn.
    + destruct (nearest_at _ _ _ _ _ En) as (a' & r' & f' & s' & Hp). by rewrite Hp.
    + unfold stop, on_axis. destruct (bool_decide _); [|done]. cbn. by destruct (adjust_first_ratio _ _).
Qed.

(** A resize moves the boundary that [resize_boundary] reports and nothing
    else: the nearest split of the axis that holds the pane, whose other side
    holds the reported siblings, has its ratio changed by the delta seen from
    the pane's side and clamped to 1..999; the result says whether it changed.
    With no boundary to report nothing changes.  For any delta at all, the
    panes stay where they are and the ratios between 1 and 999. *)
Theorem resize_moves_reported_boundary (p : Z) (axis : SplitAxis) (delta : spec_float) (l : PaneLayout) :
  NoDup (pane_ids l) -> ratios_ok l ->
  let '(l', changed) := adjust_resize_boundary p axis delta l in
  pane_ids l' = pane_ids l /\ ratios_ok l' /\ (changed = false -> l' = l) /\
  match resize_boundary p axis l with
  | None => l' = l /\ changed = false /\ none_chosen p (on_axis axis) l
  | Some b =>
      exists path r first second,
        at_path path l = Some (Split axis r first second) /\
        p ∈ pane_ids (child (active_is_first b) first second) /\
        sibling_panes b = pane_ids (child (negb (active_is_first b)) first second) /\
        none_chosen p (on_axis axis) (child (active_is_first b) first second) /\
        let adjusted := adjust_first_ratio r (if active_is_first b then delta else SFopp delta) in
        l' = map_at path (set_ratio (fst adjusted)) l /\ changed = snd adjusted
  end.
Proof.
  rewrite pane_ids_leaves. intros Hnd Hl. unfold adjust_resize_boundary, resize_boundary.
  rewrite adjust_resize_nearest, resize_boundary_nearest.
  destruct (nearest p (on_axis axis) l) as [[path b]|] eqn:En; cbn [mbind option_bind default].
  - destruct (nearest_some _ _ _ _ _ Hnd En) as (a & r & f & s' & Hp & Hc & Hin & Hnone).
    apply bool_decide_eq_true in Hc as ->. unfold boundary_at. rewrite Hp. cbn [fmap option_fmap option_map default].
    rewrite pane_ids_leaves. split_and!.
    + apply map_at_leaves_eq. intros k. apply resized_leaves.
    + apply map_at_ratios; [|done]. intros k. apply resized_ratios.
    + intros Hch. apply resized_false in Hch. rewrite (map_at_ext _ _ (fun k => k) _ _ Hp Hch).
      by apply map_at_id.
    + exists path, r, f, s'. cbn [active_is_first sibling_panes]. rewrite !pane_ids_leaves.
      split_and!; try done.
      * eapply map_at_ext; [done|]. cbn. by destruct (adjust_first_ratio _ _).
      * cbn. by destruct (adjust_first_ratio _ _).
  - rewrite pane_ids_leaves. split_and!; try done. by apply nearest_none.
Qed.
Lemma resize_moves_reported_boundary_witness :
  NoDup (pane_ids demo_layout) /\ ratios_ok demo_layout /\
  (* a tenth of the layout's width, from the right pane's side *)
  adjust_resize_boundary 3 Vertical (Ieee.tenth_power (H:=Ieee.f32) 1) demo_layout =
    (Split Vertical 500 (Pane 1) (Split Horizontal 300 (Pane 2) (Pane 3)), true) /\
  pane_ids (fst (adjust_resize_boundary 3 Vertical S754_nan demo_layout)) = pane_ids demo_layout.
Proof.
  assert (H : NoDup (pane_ids demo_layout)) by (apply (bool_decide_unpack _); vm_compute; exact I).
  assert (Hr : ratios_ok demo_layout) by (vm_compute; tauto).
  split; [exact H|]. split; [exact Hr|]. split; [by vm_compute|].
  pose proof (resize_moves_reported_boundary 3 Vertical S754_nan demo_layout H Hr) as Hx.
  destruct (adjust_resize_boundary 3 Vertical S754_nan demo_layout) as [l' c]. exact (proj1 Hx).
Defined.

(** ** Splits named by their first panes *)

Fixpoint find_split (a b : Z) (axis : SplitAxis) (l : PaneLayout) : option (list bool) :=
  match l with
  | Pane _ => None
  | Split ax _ first second =>
      if is_split a b axis ax first second then Some []
      else option_or (cons true <$> find_split a b axis first) (cons false <$> find_split a b axis second)
  end.

Lemma is_split_true a b axis ax f s : is_split a b axis ax f s = true <->
  ax = axis /\ first_pane f = a /\ first_pane s = b.
Proof. unfold is_split. rewrite !andb_true_iff, bool_decide_eq_true, !Z.eqb_eq. tauto. Qed.

Lemma find_split_some a b axis l path : find_split a b axis l = Some path ->
  exists r f s, at_path path l = Some (Split axis r f s) /\ first_pane f = a /\ first_pane s = b.
Proof.
  revert path; induction l as [id|ax r f IHf s IHs]; cbn [find_split]; intros path; [done|].
  destruct (is_split a b axis ax f s) eqn:E.
  - intros [= <-]. apply is_split_true in E as (-> & <- & <-). by exists r, f, s.
  - destruct (find_split a b axis f) as [q|]; cbn; [intros [= <-]; by apply IHf|].
    destruct (find_split a b axis s) as [q|]; cbn; [intros [= <-]; by apply IHs|done].
Qed.
Lemma find_split_leaves a b axis l path : find_split a b axis l = Some path -> a ∈ leaves l.
Proof.
  intros H. destruct (find_split_some _ _ _ _ _ H) as (r & f & s & Hp & <- & _).
  apply (at_path_leaves _ _ _ Hp). cbn [leaves]. pose proof (first_pane_leaves f). set_solver.
Qed.

Lemma split_panes_find a b axis l :
  split_panes a b axis l =
  path ← find_split a b axis l;
  match at_path path l with Some (Split _ _ f s) => Some (pane_ids f, pane_ids s) | _ => None end.
Proof.
  induction l as [id|ax r f IHf s IHs]; cbn [split_panes find_split]; [done|].
  destruct (is_split a b axis ax f s); [done|]. rewrite IHf, IHs.
  destruct (find_split a b axis f) as [q|] eqn:Ef; cbn.
  - destruct (find_split_some _ _ _ _ _ Ef) as (r' & f' & s' & Hp & _). by rewrite Hp.
  - by destruct (find_split a b axis s).
Qed.
Lemma split_ratio_find a b axis l :
  split_ratio a b axis l =
  path ← find_split a b axis l;
  match at_path path l with Some (Split _ r _ _) => Some (ratio_fraction r) | _ => None end.
Proof.
  induction l as [id|ax r f IHf s IHs]; cbn [split_ratio find_split]; [done|].
  destruct (is_split a b axis ax f s); [done|]. rewrite IHf, IHs.
  destruct (find_split a b axis f) as [q|] eqn:Ef; cbn.
  - destruct (find_split_some _ _ _ _ _ Ef) as (r' & f' & s' & Hp & _). by rewrite Hp.
  - by destruct (find_split a b axis s).
Qed.

Lemma adjust_split_ratio_find a b axis delta l : NoDup (leaves l) ->
  adjust_split_ratio a b axis delta l =
  match find_split a b axis l with
  | Some path => (map_at path (fun k => fst (resized delta true k)) l,
      default false ((fun k => snd (resized delta true k)) <$> at_path path l))
  | None => (l, false)
  end.
Proof.
  induction l as [id|ax r f IHf s IHs]; cbn [adjust_split_ratio find_split leaves]; [done|].
  intros (Hf & Hfs & Hs)%NoDup_app. rewrite IHf, IHs by done. clear IHf IHs.
  destruct (is_split a b axis ax f s); [cbn; by destruct (adjust_first_ratio _ _)|].
  destruct (find_split a b axis f) as [q|] eqn:Ef; cbn.
  - destruct (find_split a b axis s) as [q'|] eqn:Es; cbn.
    { destruct (Hfs a); eapply find_split_leaves; eassumption. }
    by destruct (default false _).
  - by destruct (find_split a b axis s).
Qed.

Lemma first_panes_unique path path' l a r f s a' r' f' s' : NoDup (leaves l) ->
  at_path path l = Some (Split a r f s) -> at_path path' l = Some (Split a' r' f' s') ->
  first_pane f' = first_pane f -> first_pane s' = first_pane s -> path' = path.
Proof.
  pose proof (first_pane_leaves f) as Hf. pose proof (first_pane_leaves s) as Hs.
  pose proof (first_pane_leaves f') as Hf'. pose proof (first_pane_leaves s') as Hs'.
  intros Hnd Hp Hp' Ef Es. rewrite Ef in Hf'. rewrite Es in Hs'.
  revert path' l Hnd Hp Hp'. induction path as [|b path IH]; intros path' [id|ax rx fx sx] Hnd Hp Hp'; try done;
    cbn [leaves] in Hnd; apply NoDup_app in Hnd as (Hndf & Hfs & Hnds).
  - injection Hp as -> -> -> ->. destruct path' as [|[] path']; [done| |]; exfalso; cbn [at_path] in Hp';
      apply at_path_leaves in Hp'; cbn [leaves] in Hp'; set_solver.
  - destruct path' as [|b' path']; cbn [at_path] in Hp, Hp'.
    { injection Hp' as -> -> -> ->. exfalso. apply at_path_leaves in Hp. cbn [leaves] in Hp. destruct b; set_solver. }
    destruct b, b'; [f_equal; by apply (IH _ fx) | | |f_equal; by apply (IH _ sx)]; exfalso;
      apply at_path_leaves in Hp, Hp'; cbn [leaves] in Hp, Hp'; set_solver.
Qed.

(** The first panes of its two sides name one split of a layout: no other
    split has the same pair.  [split_panes] reports the panes of its two sides,
    [split_ratio] its ratio, and [adjust_split_ratio] changes that ratio alone;
    a pair that names no split is reported as such and adjusts nothing. *)
Theorem first_panes_name_split (a b : Z) (axis : SplitAxis) (delta : spec_float) (l : PaneLayout) :
  NoDup (pane_ids l) ->
  match split_panes a b axis l with
  | Some (xs, ys) =>
      exists path r first second,
        at_path path l = Some (Split axis r first second) /\
        first_pane first = a /\ first_pane second = b /\ pane_ids first = xs /\ pane_ids second = ys /\
        split_ratio a b axis l = Some (ratio_fraction r) /\
        (let adjusted := adjust_first_ratio r delta in
         adjust_split_ratio a b axis delta l = (map_at path (set_ratio (fst adjusted)) l, snd adjusted)) /\
        forall path' axis' r' first' second', at_path path' l = Some (Split axis' r' first' second') ->
          first_pane first' = a -> first_pane second' = b -> path' = path
  | None => split_ratio a b axis l = None /\ adjust_split_ratio a b axis delta l = (l, false)
  end.
Proof.
  rewrite pane_ids_leaves. intros Hnd.
  rewrite split_panes_find, split_ratio_find, (adjust_split_ratio_find _ _ _ _ _ Hnd).
  destruct (find_split a b axis l) as [path|] eqn:E; cbn [mbind option_bind]; [|done].
  destruct (find_split_some _ _ _ _ _ E) as (r & f & s & Hp & Hf & Hs). rewrite Hp.
  exists path, r, f, s. split_and!; try done.
  - cbn. destruct (adjust_first_ratio r delta) as [r' c] eqn:Er. cbn. f_equal.
    eapply map_at_ext; [done|]. cbn. by rewrite Er.
  - intros path' a' r' f' s' Hp' Hf' Hs'. subst a b. by apply (first_panes_unique path path' l axis r f s a' r' f' s').
Qed.
Lemma first_panes_name_split_witness :
  NoDup (pane_ids demo_layout) /\ split_panes 2 3 Horizontal demo_layout = Some ([2], [3]) /\
  (exists path r f g, at_path path demo_layout = Some (Split Horizontal r f g) /\
     adjust_split_ratio 2 3 Horizontal S754_nan demo_layout =
       (map_at path (set_ratio (fst (adjust_first_ratio r S754_nan))) demo_layout, false)) /\
  adjust_split_ratio 1 3 Horizontal S754_nan demo_layout = (demo_layout, false).
Proof.
  assert (H : NoDup (pane_ids demo_layout)) by (apply (bool_decide_unpack _); vm_compute; exact I).
  split; [exact H|]. split; [done|]. split.
  { destruct (first_panes_name_split 2 3 Horizontal S754_nan demo_layout H)
      as (path & r & f & g & Hp & _ & _ & _ & _ & _ & Ha & _).
    exists path, r, f, g. split; [exact Hp|]. exact Ha. }
  exact (proj2 (first_panes_name_split 1 3 Horizontal S754_nan demo_layout H)).
Defined.

(** ** Directional focus *)

Lemma regions_ids l : region_id <$> regions l = pane_ids l.
Proof.
  rewrite pane_ids_leaves. unfold regions.
  assert (H : forall x y w h regions, region_id <$> collect_regions x y w h l regions = (region_id <$> regions) ++ leaves l);
    [|by rewrite H].
  induction l as [id|[] r f IHf s IHs]; intros x y w h rs; cbn [collect_regions leaves].
  1: by rewrite fmap_app.
  all: cbv zeta; by rewrite IHs, IHf, app_assoc.
Qed.

Lemma min_score_spec scores best : min_score scores = Some best ->
  best ∈ scores /\ forall s, s ∈ scores -> Ieee.total_lt s best = false.
Proof.
  destruct scores as [|s0 rest]; [done|]. cbn [min_score]. intros [= <-].
  induction rest as [|s rest IH] using rev_ind.
  - cbn. split; [set_solver|]. intros s ->%list_elem_of_singleton. apply Ieee.total_lt_irrefl.
  - rewrite foldl_app. cbn [foldl]. destruct IH as [Hin Hle].
    set (b := foldl _ s0 rest) in *. rewrite app_comm_cons.
    destruct (Ieee.total_lt s b) eqn:E.
    + split; [set_solver|]. intros t [Ht| ->%list_elem_of_singleton]%elem_of_app; [|apply Ieee.total_lt_irrefl].
      apply (Ieee.total_le_trans s b t); [by apply Ieee.total_lt_asym|by apply Hle].
    + split; [set_solver|]. intros t [Ht| ->%list_elem_of_singleton]%elem_of_app; [by apply Hle|done].
Qed.

(** [(score - best_score).abs() > ADJACENT_PANE_TIE_EPSILON] is false. *)
Definition ties (best_score score : spec_float) : bool :=
  negb (SFltb ADJACENT_PANE_TIE_EPSILON (SFabs (sub32 score best_score))).

Lemma ties_self s : ties s s = true.
Proof. unfold ties. destruct (Ieee.sub_self (F:=Ieee.f32) s) as [[b Hs]|Hs]; unfold sub32; rewrite Hs; by vm_compute. Qed.

Definition picked (recent : list Z) (best_score : spec_float) (seen : list (spec_float * Z)) (best : option (Z * Z)) : Prop :=
  match best with
  | None => forall c, c ∈ seen -> ties best_score (fst c) = false
  | Some (r, id) => exists score, (score, id) ∈ seen /\ ties best_score score = true /\ r = recency recent id /\
      forall c, c ∈ seen -> ties best_score (fst c) = true -> recency recent (snd c) <= r
  end.
Lemma pick_picked recent best_score seen best c :
  picked recent best_score seen best -> picked recent best_score (seen ++ [c]) (pick recent best_score best c).
Proof.
  unfold pick. destruct c as [score id]. cbn [fst snd].
  destruct (SFltb _ _) eqn:E; cbv zeta.
  - assert (Ht : ties best_score score = false) by (unfold ties; by rewrite E).
    destruct best as [[r i]|]; cbn [picked].
    + intros (sc & Hin & Hb & Hr & Hmax). exists sc. split_and!; [set_solver|done..|].
      intros c [Hc| ->%list_elem_of_singleton]%elem_of_app; [by auto|]. cbn. by rewrite Ht.
    + intros Hn c [Hc| ->%list_elem_of_singleton]%elem_of_app; [by auto|done].
  - assert (Ht : ties best_score score = true) by (unfold ties; by rewrite E).
    destruct best as [[r i]|]; cbn [picked].
    + intros (sc & Hin & Hb & Hr & Hmax). destruct (Z.ltb_spec r (recency recent id)).
      * exists score. split_and!; [set_solver|done..|].
        intros c [Hc| ->%list_elem_of_singleton]%elem_of_app Hct; [|cbn; lia]. specialize (Hmax c Hc Hct). lia.
      * exists sc. split_and!; [set_solver|done..|].
        intros c [Hc| ->%list_elem_of_singleton]%elem_of_app Hct; [by auto|cbn; lia].
    + intros Hn. exists score. split_and!; [set_solver|done..|].
      intros c [Hc| ->%list_elem_of_singleton]%elem_of_app Hct; [by rewrite Hn in Hct|cbn; lia].
Qed.
Lemma picked_foldl recent best_score cs : picked recent best_score cs (foldl (pick recent best_score) None cs).
Proof.
  induction cs as [|c cs IH] using rev_ind; [by intros c ?%elem_of_nil|].
  rewrite foldl_app. by apply pick_picked.
Qed.

Lemma adjacent_pane_elem active d recent l id : adjacent_pane active d recent l = Some id -> id ∈ pane_ids l.
Proof.
  unfold adjacent_pane. destruct (find _ _) as [source|]; [|done]. cbn [mbind option_bind].
  destruct (min_score _) as [best|]; [|done]. cbn [mbind option_bind].
  pose proof (picked_foldl recent best (omap (candidate d source active) (regions l))) as Hp.
  destruct (foldl _ _ _) as [[r i]|]; [|done]. cbn [fmap option_fmap option_map snd]. intros [= ->].
  destruct Hp as (score & Hin & _). apply list_elem_of_omap in Hin as (c & Hc & Hcand).
  rewrite <-regions_ids. apply list_elem_of_fmap. exists c. split; [|done]. unfold candidate in Hcand.
  destruct (negb _); [done|]. destruct (toward _ _ _ _ _) as [[]|]; cbn in Hcand; [|done]. by injection Hcand.
Qed.

(** Focus moves from a pane to another pane of the layout that lies that
    way and is as near as any (within the tie the code allows), and among those
    to the one focused most recently; it stays exactly when no pane lies that
    way. *)
Theorem adjacent_pane_is_nearest_most_recent (active : Z) (d : PaneDirection) (recent : list Z) (l : PaneLayout) :
  active ∈ pane_ids l ->
  exists source, source ∈ regions l /\ region_id source = active /\
  match adjacent_pane active d recent l with
  | Some id =>
      exists c score best_score, c ∈ regions l /\ region_id c = id /\ id ∈ pane_ids l /\ id <> active /\
        candidate d source active c = Some (score, id) /\ ties best_score score = true /\
        forall c' score' id', c' ∈ regions l -> candidate d source active c' = Some (score', id') ->
          Ieee.total_lt score' best_score = false /\
          (ties best_score score' = true -> recency recent id' <= recency recent id)
  | None => forall c, c ∈ regions l -> candidate d source active c = None
  end.
Proof.
  intros Hin. rewrite <-regions_ids in Hin. apply list_elem_of_fmap in Hin as (src & Hsrc & Hin).
  unfold adjacent_pane. destruct (find _ (regions l)) as [source|] eqn:Ef.
  2: { apply list_elem_of_In in Hin. pose proof (find_none _ _ Ef src Hin) as Hx. cbn in Hx.
       by rewrite <-Hsrc, Z.eqb_refl in Hx. }
  apply find_some in Ef as [Hs Hsid]. apply list_elem_of_In in Hs. apply Z.eqb_eq in Hsid.
  exists source. split; [done|]. split; [done|]. cbn [mbind option_bind].
  set (cs := omap (candidate d source active) (regions l)).
  assert (Hcs : forall c sc id, c ∈ regions l -> candidate d source active c = Some (sc, id) -> (sc, id) ∈ cs).
  { intros c sc id Hc Hcand. apply list_elem_of_omap. by exists c. }
  destruct (min_score (fst <$> cs)) as [best|] eqn:Em; cbn [mbind option_bind].
  2: { destruct cs as [|x cs'] eqn:Ecs; [|done]. intros c Hc.
       destruct (candidate d source active c) as [[sc id]|] eqn:Ec; [|done].
       by apply (Hcs c) in Ec; [apply elem_of_nil in Ec|]. }
  destruct (min_score_spec _ _ Em) as [Hbest Hmin].
  apply list_elem_of_fmap in Hbest as ([bs bid] & Hb & Hbin). cbn in Hb. subst bs.
  pose proof (picked_foldl recent best cs) as Hp.
  destruct (foldl (pick recent best) None cs) as [[r id]|]; cbn [fmap option_fmap option_map snd picked] in *.
  2: { specialize (Hp _ Hbin). cbn in Hp. by rewrite ties_self in Hp. }
  destruct Hp as (score & Hsc & Ht & -> & Hmax). apply list_elem_of_omap in Hsc as (c & Hc & Hcand).
  assert (Hid : region_id c = id /\ id <> active).
  { unfold candidate in Hcand. destruct (Z.eqb_spec (region_id c) active); [done|]. cbn [negb] in Hcand.
    destruct (toward _ _ _ _ _) as [[p q]|]; cbn in Hcand; [|done]. by injection Hcand as <- <-. }
  exists c, score, best. split_and!; try done; [by apply Hid| |by apply Hid|].
  - rewrite <-regions_ids. apply list_elem_of_fmap. exists c. split; [by symmetry; apply Hid|done].
  - intros c' sc' id' Hc' Hcand'. specialize (Hcs _ _ _ Hc' Hcand'). split.
    + apply Hmin, list_elem_of_fmap. by exists (sc', id').
    + by apply (Hmax (sc', id')).
Qed.
(** Right out of a tall pane into two equal ones: the one focused last. *)
Lemma adjacent_pane_is_nearest_most_recent_witness :
  let l := Split Vertical 500 (Pane 1) (Split Horizontal 500 (Pane 2) (Pane 3)) in
  1 ∈ pane_ids l /\ adjacent_pane 1 Right [3; 2; 1] l = Some 2 /\ adjacent_pane 1 Right [2; 3; 1] l = Some 3 /\
  (exists source, source ∈ regions l /\ forall c, c ∈ regions l -> candidate Left source 1 c = None).
Proof.
  intros l. assert (H : 1 ∈ pane_ids l) by (apply (bool_decide_unpack _); vm_compute; exact I).
  split; [exact H|]. split; [by vm_compute|]. split; [by vm_compute|].
  destruct (adjacent_pane_is_nearest_most_recent 1 Left [] l H) as (source & Hs & _ & Hm).
  exists source. split; [exact Hs|]. exact Hm.
Defined.

(** ** Building layouts *)

Fixpoint depth (l : PaneLayout) : nat :=
  match l with Pane _ => O | Split _ _ first second => S (Nat.max (depth first) (depth second)) end.

Definition midpoint (n : nat) : nat := if (n =? 3)%nat then 1%nat else div_ceil n 2.
Lemma midpoint_bounds n k : (2 <= n <= 2 * k)%nat -> (2 <= k \/ n = 2)%nat ->
  (1 <= midpoint n < n /\ midpoint n <= k /\ n - midpoint n <= k)%nat.
Proof.
  unfold midpoint, div_ceil. intros Hn Hk. destruct (Nat.eqb_spec n 3); [lia|].
  pose proof (Nat.div_mod_eq (n + 2 - 1) 2). pose proof (Nat.mod_upper_bound (n + 2 - 1) 2 ltac:(lia)). lia.
Qed.

Lemma build_spec fuel k ids axis : (1 <= length ids <= fuel)%nat -> (length ids <= 2 ^ k)%nat ->
  exists l, build fuel ids axis = Ok l /\ leaves l = ids /\ ratios_ok l /\ (depth l <= k)%nat.
Proof.
  revert k ids axis; induction fuel as [|fuel IH]; intros k ids axis Hf Hk; [lia|].
  destruct ids as [|i [|j ids]]; [cbn in Hf; lia|by exists (Pane i); cbn; split_and!; try done; lia|].
  destruct k as [|k]; [cbn in Hk; lia|]. cbn [build].
  set (all := i :: j :: ids) in *. fold (midpoint (length all)).
  assert (Hn : (2 <= length all)%nat) by (subst all; cbn; lia). rewrite Nat.pow_succ_r' in Hk.
  destruct (midpoint_bounds (length all) (2 ^ k)) as (Hm & Hm1 & Hm2); [lia| |].
  { destruct k; [cbn in Hk |- *; lia|]. left. rewrite Nat.pow_succ_r'. pose proof (Nat.pow_nonzero 2 k). lia. }
  destruct (IH k (take (midpoint (length all)) all) (other_axis axis)) as (f & -> & Hlf & Hrf & Hdf);
    [rewrite length_take; lia|rewrite length_take; lia|].
  destruct (IH k (drop (midpoint (length all)) all) (other_axis axis)) as (s & -> & Hls & Hrs & Hds);
    [rewrite length_drop; lia|rewrite length_drop; lia|].
  exists (Split axis DEFAULT_PANE_SPLIT_RATIO f s). split; [done|]. cbn [leaves ratios_ok depth].
  rewrite Hlf, Hls, take_drop. split_and!; try done. lia.
Qed.

(** C40. Tiling places every pane of the list once, in order, without failing,
    in a layout no deeper than halving the list needs: [n] panes nest at most
    [k] splits whenever [n <= 2^k], so a full tab of 64 panes at most 6. *)
Theorem tiled_places_every_pane (ids : list Z) (k : nat) :
  (length ids <= 2 ^ k)%nat ->
  match tiled ids with
  | None => ids = []
  | Some built => exists l, built = Ok l /\ pane_ids l = ids /\ ratios_ok l /\ (depth l <= k)%nat
  end.
Proof.
  intros Hk. destruct ids as [|i ids]; [done|]. unfold tiled.
  destruct (build_spec (length (i :: ids)) k (i :: ids) Vertical) as (l & Hb & Hl & Hr & Hd); [cbn; lia|done|].
  exists l. by rewrite pane_ids_leaves.
Qed.
Lemma tiled_places_every_pane_witness :
  tiled [1; 2; 3; 4; 5] = Some (Ok (Split Vertical 500
     (Split Horizontal 500 (Pane 1) (Split Vertical 500 (Pane 2) (Pane 3)))
     (Split Horizontal 500 (Pane 4) (Pane 5)))) /\
  exists l, tiled [1; 2; 3; 4; 5] = Some (Ok l) /\ (depth l <= 3)%nat.
Proof.
  split; [by vm_compute|].
  destruct (tiled_places_every_pane [1; 2; 3; 4; 5] 3 ltac:(cbn; lia)) as (l & Hb & _ & _ & Hd).
  exists l. split; [exact (f_equal Some Hb)|exact Hd].
Defined.

Lemma replace_inner_spec target replacement l :
  exists l' rest done, replace_inner target (Some replacement) l = Ok (l', rest, done) /\
  (if done : bool
   then rest = None /\ exists before after, leaves l = before ++ target :: after /\ (target ∉ before) /\
          leaves l' = before ++ leaves replacement ++ after
   else rest = Some replacement /\ l' = l /\ (target ∉ leaves l)) /\
  (ratios_ok l -> ratios_ok replacement -> ratios_ok l').
Proof.
  induction l as [id|a r f IHf s IHs]; cbn [replace_inner leaves].
  - destruct (Z.eqb_spec id target) as [->|Hne].
    + exists replacement, None, true. split; [done|]. split; [|done]. split; [done|].
      exists [], []. rewrite app_nil_r. set_solver.
    + exists (Pane id), (Some replacement), false. set_solver.
  - destruct IHf as (f' & rest & [|] & -> & Hf & Hrf); cbn.
    + destruct Hf as (-> & before & after & -> & Hb & Hf). exists (Split a r f' s), None, true.
      split; [done|]. split; [|naive_solver]. split; [done|]. exists before, (after ++ leaves s).
      cbn [leaves]. by rewrite Hf, <-!app_assoc.
    + destruct Hf as (-> & -> & Hf). destruct IHs as (s' & rest & [|] & -> & Hs & Hrs); cbn.
      * destruct Hs as (-> & before & after & -> & Hb & Hs). exists (Split a r f s'), None, true.
        split; [done|]. split; [|naive_solver]. split; [done|]. exists (leaves f ++ before), after.
        cbn [leaves]. rewrite Hs, <-!app_assoc. set_solver.
      * destruct Hs as (-> & -> & Hs). exists (Split a r f s), (Some replacement), false.
        split; [done|]. split; [|naive_solver]. set_solver.
Qed.

(** Replacing a pane by a layout never takes the replacement twice: its
    panes stand, in order, where the first pane of that name stood, the others
    keep their places, and the ratios stay between 1 and 999; when there is no
    such pane nothing changes. *)
Theorem replace_puts_layout_in_place (target : Z) (replacement l : PaneLayout) :
  exists l' done, replace target replacement l = Ok (l', done) /\
  (if done : bool
   then exists before after, pane_ids l = before ++ target :: after /\ (target ∉ before) /\
          pane_ids l' = before ++ pane_ids replacement ++ after
   else l' = l /\ (target ∉ pane_ids l)) /\
  (ratios_ok l -> ratios_ok replacement -> ratios_ok l').
Proof.
  unfold replace. destruct (replace_inner_spec target replacement l) as (l' & rest & ok & -> & H & Hr).
  exists l', ok. rewrite !pane_ids_leaves. split; [done|]. split; [|done]. by destruct ok; destruct H as [_ H].
Qed.

Fixpoint template_panes (t : PaneSplitTemplate) : nat :=
  match t with TemplatePane => 1%nat | TemplateSplit _ f s => (template_panes f + template_panes s)%nat end.

(** A template takes one identifier per pane, in order, and leaves the rest; it
    panics exactly when they run out. *)
Lemma from_template_spec t ids :
  match from_template t ids with
  | Ok (l, rest) => ids = pane_ids l ++ rest /\ length (pane_ids l) = template_panes t /\ ratios_ok l
  | Err _ => False
  | Panic => (length ids < template_panes t)%nat
  end.
Proof.
  revert ids; induction t as [|axis f IHf s IHs]; intros ids; cbn [from_template template_panes].
  - destruct ids; cbn; [lia|by split_and!].
  - specialize (IHf ids). destruct (from_template f ids) as [[lf r]|[]|]; cbn [mbind result_bind]; [|done|cbn; lia].
    destruct IHf as (-> & Hlf & Hrf). specialize (IHs r). rewrite pane_ids_leaves in *.
    destruct (from_template s r) as [[ls r']|[]|]; cbn [mbind result_bind mret result_ret]; [|done|].
    + destruct IHs as (-> & Hls & Hrs). rewrite !pane_ids_leaves in *. cbn [leaves ratios_ok].
      rewrite <-app_assoc, length_app. split_and!; try done; lia.
    + rewrite length_app. lia.
Qed.

(** Renaming maps every pane; it panics exactly when a pane has no new name. *)
Lemma remap_pane_ids_spec (ids : gmap Z Z) l :
  match remap_pane_ids (E:=unit) ids l with
  | Ok l' => (fun id => ids !! id) <$> pane_ids l = Some <$> pane_ids l' /\ (ratios_ok l -> ratios_ok l')
  | Err _ => False
  | Panic => exists id, id ∈ pane_ids l /\ ids !! id = None
  end.
Proof.
  rewrite pane_ids_leaves. induction l as [id|a r f IHf s IHs]; cbn [remap_pane_ids leaves].
  - destruct (ids !! id) eqn:E; cbn; [by rewrite E|]. exists id. set_solver.
  - destruct (remap_pane_ids ids f) as [f'|[]|]; cbn [mbind result_bind]; [|done|set_solver].
    destruct (remap_pane_ids ids s) as [s'|[]|]; cbn [mbind result_bind]; [|done|set_solver].
    cbn [mret result_ret]. rewrite !pane_ids_leaves in *. cbn [leaves]. rewrite !fmap_app.
    destruct IHf as [-> Hf], IHs as [-> Hs]. naive_solver.
Qed.

End Layout.
