(* ===== verification/Stack.v ===== *)
(** * A pane's stack of command terminals

    Models [src/pane/stack.rs]: the entries that share a pane's region and the
    selection among them.  Terminals, views, profiles and paths are what the
    toolkit and the rest of the program make of them: the stack only carries
    them. *)
From Stdlib Require Import ZArith Lia List Bool.
From stdpp Require Import base numbers list sets strings.
From S2P Require Import Prelude Layout.
Open Scope Z_scope.
Open Scope zetta_scope.

Module Stack.

Inductive PaneStackSelection := Base | Stacked (id : Z).
#[global] Instance PaneStackSelection_eq_dec : EqDecision PaneStackSelection.
Proof. solve_decision. Defined.

Inductive StackedPaneState := Starting | Running | Completed | Failed.

Section Stack.
Context {Profile Terminal View PathBuf : Type}.

Record StackedPane := mkStackedPane {
  entry_id : Z; routing_id : Z; command : string; profile : Profile; theme_override : option string;
  terminal : option Terminal; view : option View; state : StackedPaneState; exit_code : option Z;
  error : option string; working_directory : option PathBuf; wsl_directory : option string;
}.

Record PaneStack := mkStack { entries : list StackedPane; selected : PaneStackSelection }.
#[local] Instance PaneStack_eta : Eta PaneStack := fun s => mkStack (entries s) (selected s).
#[local] Instance StackedPane_eta : Eta StackedPane := fun e =>
  mkStackedPane (entry_id e) (routing_id e) (command e) (profile e) (theme_override e) (terminal e) (view e)
    (state e) (exit_code e) (error e) (working_directory e) (wsl_directory e).

Definition default_stack : PaneStack := mkStack [] Base.

Definition new_entry (id : Z) (command : string) (profile : Profile) (working_directory : option PathBuf)
    (wsl_directory : option string) : StackedPane :=
  mkStackedPane id id command profile None None None Starting None None working_directory wsl_directory.

Definition is_empty (s : PaneStack) : bool := match entries s with [] => true | _ => false end.
Definition selected_is_base (s : PaneStack) : bool := bool_decide (selected s = Base).
(** [entries.iter().any(|entry| entry.id == id)] *)
Definition has_entry (id : Z) (s : PaneStack) : bool := existsb (fun e => entry_id e =? id) (entries s).
Definition entry_position (id : Z) (s : PaneStack) : option nat := position (fun e => entry_id e =? id) (entries s).

Definition select_after_base_exit (s : PaneStack) : PaneStack :=
  let selected_is_valid := match selected s with Base => false | Stacked id => has_entry id s end in
  if selected_is_valid then s
  else s <| selected := match head (entries s) with Some e => Stacked (entry_id e) | None => Base end |>.

Definition selected_entry (s : PaneStack) : option StackedPane :=
  match selected s with
  | Base => None
  | Stacked id => find (fun e => entry_id e =? id) (entries s)
  end.

Definition selected_view (base : option View) (s : PaneStack) : option View :=
  option_or (selected_entry s ≫= view) (if selected_is_base s then base else None).
Definition selected_terminal (base : option Terminal) (s : PaneStack) : option Terminal :=
  option_or (selected_entry s ≫= terminal) (if selected_is_base s then base else None).

Definition select (selection : PaneStackSelection) (s : PaneStack) : PaneStack * bool :=
  let valid := match selection with Base => true | Stacked id => has_entry id s end in
  (if valid then s <| selected := selection |> else s, valid).

(** [self.entries[i].id]: the indices below are in range. *)
Definition nth_selection (s : PaneStack) (i : nat) : option PaneStackSelection :=
  (fun e => Stacked (entry_id e)) <$> entries s !! i.

Definition cycle (forward : bool) (s : PaneStack) : result unit (PaneStack * option PaneStackSelection) :=
  if is_empty s then Ok (s <| selected := Base |>, None)
  else
    let current := match selected s with
      | Base => 0%nat
      | Stacked id => match entry_position id s with Some index => S index | None => 0%nat end
      end in
    let count := S (length (entries s)) in
    let next := if forward then ((current + 1) mod count)%nat
                else match current with O => (count - 1)%nat | S i => i end in
    next ← match next with O => Ok Base | S i => expect (nth_selection s i) end;
    Ok (s <| selected := next |>, Some next).

Definition cycle_without_base (forward : bool) (s : PaneStack) : result unit (PaneStack * option PaneStackSelection) :=
  if is_empty s then Ok (s <| selected := Base |>, None)
  else
    let count := length (entries s) in
    let current := match selected s with Stacked id => entry_position id s | Base => None end in
    let next := match current with
      | Some index =>
          if forward then ((index + 1) mod count)%nat
          else match index with O => (count - 1)%nat | S i => i end
      | None => if forward then 0%nat else (count - 1)%nat
      end in
    next ← expect (nth_selection s next);
    Ok (s <| selected := next |>, Some next).

Definition push (entry : StackedPane) (s : PaneStack) : PaneStack * bool :=
  if Layout.MAX_PANES_PER_TAB - 1 <=? zlen (entries s) then (s, false)
  else (s <| entries := entries s ++ [entry] |> <| selected := Stacked (entry_id entry) |>, true).

Definition remove (id : Z) (s : PaneStack) : PaneStack * option StackedPane :=
  match entry_position id s with
  | None => (s, None)
  | Some index =>
      let was_selected := bool_decide (selected s = Stacked id) in
      let entry := entries s !! index in
      let s := s <| entries := remove_at index (entries s) |> in
      let s :=
        if was_selected then
          s <| selected := match nth_selection s index with
            | Some e => e
            | None => default Base (nth_selection s (index - 1))
            end |>
        else match selected s with
          | Stacked selected_id => if has_entry selected_id s then s else s <| selected := Base |>
          | Base => s
          end in
      (s, entry)
  end.

Definition repair_selection (s : PaneStack) : PaneStack :=
  match selected s with
  | Base => s
  | Stacked id =>
      if has_entry id s then s
      else s <| selected := match last (entries s) with Some e => Stacked (entry_id e) | None => Base end |>
  end.

(** * Correctness *)

Definition ids (s : PaneStack) : list Z := entry_id <$> entries s.

(** The selection is the base or an entry the stack holds. *)
Definition valid_selection (sel : PaneStackSelection) (s : PaneStack) : Prop :=
  match sel with Base => True | Stacked id => id ∈ ids s end.
Definition stack_ok (s : PaneStack) : Prop :=
  NoDup (ids s) /\ valid_selection (selected s) s /\ zlen (entries s) < Layout.MAX_PANES_PER_TAB.

Lemma has_entry_iff id s : has_entry id s = true <-> id ∈ ids s.
Proof.
  unfold has_entry, ids. rewrite existsb_exists, list_elem_of_fmap. split.
  - intros (e & He & Hid). exists e. split; [lia|by apply list_elem_of_In].
  - intros (e & -> & He). exists e. split; [by apply list_elem_of_In|lia].
Qed.

Lemma entry_position_some id s i : entry_position id s = Some i -> ids s !! i = Some id.
Proof.
  unfold entry_position, ids. generalize (entries s) as es. intros es. revert i.
  induction es as [|e es IH]; intros i; cbn [position]; [done|].
  destruct (Z.eqb_spec (entry_id e) id) as [<-|]; [by intros [= <-]|].
  intros (j & Hj & ->)%fmap_Some. by apply IH.
Qed.
Lemma entry_position_none id s : entry_position id s = None <-> id ∉ ids s.
Proof.
  unfold entry_position, ids. generalize (entries s) as es. intros es.
  induction es as [|e es IH]; cbn [position fmap list_fmap]; [set_solver|].
  destruct (Z.eqb_spec (entry_id e) id) as [<-|]; [set_solver|].
  rewrite fmap_None, IH. set_solver.
Qed.

Lemma nth_selection_lookup s i : nth_selection s i = Stacked <$> ids s !! i.
Proof. unfold nth_selection, ids. rewrite list_lookup_fmap. by destruct (entries s !! i). Qed.

(** The place of the selection: the base first, then the entries in order. *)
Definition place (s : PaneStack) : nat :=
  match selected s with
  | Base => 0%nat
  | Stacked id => match entry_position id s with Some i => S i | None => 0%nat end
  end.
Definition at_place (s : PaneStack) (i : nat) : option PaneStackSelection :=
  match i with O => Some Base | S i => Stacked <$> ids s !! i end.

Lemma place_at s : valid_selection (selected s) s -> at_place s (place s) = Some (selected s).
Proof.
  unfold place, at_place. destruct (selected s) as [|id] eqn:Es; [done|]. cbn. intros Hin.
  destruct (entry_position id s) as [i|] eqn:E.
  - by rewrite (entry_position_some _ _ _ E).
  - by apply entry_position_none in E.
Qed.
Lemma ids_length s : length (ids s) = length (entries s).
Proof. apply length_fmap. Qed.
Lemma place_bound s : (place s <= length (entries s))%nat.
Proof.
  unfold place. destruct (selected s) as [|id]; [lia|]. destruct (entry_position id s) as [i|] eqn:E; [|lia].
  apply entry_position_some, lookup_lt_Some in E. rewrite ids_length in E. lia.
Qed.
Lemma at_place_some s i : (i <= length (entries s))%nat ->
  exists sel, at_place s i = Some sel /\ valid_selection sel s.
Proof.
  destruct i as [|i]; [by exists Base|]. intros Hi. cbn.
  destruct (lookup_lt_is_Some_2 (ids s) i) as [id Hid]; [rewrite ids_length; lia|].
  exists (Stacked id). rewrite Hid. split; [done|]. by apply list_elem_of_lookup_2 in Hid.
Qed.
Lemma at_place_inj s i sel : NoDup (ids s) -> at_place s i = Some sel ->
  place (s <| selected := sel |>) = i.
Proof.
  intros Hnd. unfold place. cbn [set_field selected]. destruct i as [|i]; cbn [at_place]; [by intros [= <-]|].
  intros (id & Hid & ->)%fmap_Some. unfold entry_position. cbn [set_field entries].
  fold (entry_position id s). destruct (entry_position id s) as [j|] eqn:E.
  - f_equal. apply entry_position_some in E. by apply (NoDup_lookup (ids s) j i id).
  - apply entry_position_none in E. by apply list_elem_of_lookup_2 in Hid.
Qed.

Lemma cycle_eq (forward : bool) s : entries s <> [] ->
  let n := S (length (entries s)) in
  let next := if forward then ((place s + 1) mod n)%nat else ((place s + length (entries s)) mod n)%nat in
  exists sel, at_place s next = Some sel /\ valid_selection sel s /\
    cycle forward s = Ok (s <| selected := sel |>, Some sel).
Proof.
  intros Hne n next. unfold cycle. assert (is_empty s = false) as ->
    by (unfold is_empty; by destruct (entries s)).
  cbv zeta. fold (place s). pose proof (place_bound s) as Hb.
  assert (Hn : (next <= length (entries s))%nat).
  { subst next n. destruct forward; eapply Nat.lt_succ_r, Nat.mod_upper_bound; lia. }
  assert (Heq : (if forward then ((place s + 1) mod n)%nat
    else match place s with O => (n - 1)%nat | S i => i end) = next).
  { destruct forward; [done|]. subst next n. destruct (place s) as [|i].
    - rewrite Nat.mod_small; lia.
    - replace (S i + length (entries s))%nat with (i + 1 * S (length (entries s)))%nat by lia.
      rewrite Nat.Div0.mod_add, Nat.mod_small; lia. }
  subst n. rewrite Heq. destruct (at_place_some s next Hn) as (sel & Hs & Hv).
  exists sel. split; [done|]. split; [done|]. destruct next as [|i]; cbn [at_place] in Hs.
  - by injection Hs as <-.
  - rewrite nth_selection_lookup, Hs. done.
Qed.

Lemma stack_ok_select s sel : stack_ok s -> valid_selection sel s -> stack_ok (s <| selected := sel |>).
Proof. intros (Hnd & _ & Hl) Hv. by split_and!. Qed.

Lemma stack_ok_cycle forward s : stack_ok s ->
  exists s' sel, cycle forward s = Ok (s', sel) /\ entries s' = entries s /\ stack_ok s'.
Proof.
  intros Hok. destruct (decide (entries s = [])) as [He|He].
  - unfold cycle, is_empty. rewrite He. eexists _, _. split_and!; [done|done|]. by apply stack_ok_select.
  - destruct (cycle_eq forward s He) as (sel & _ & Hv & ->). eexists _, _. split_and!; [done|done|].
    by apply stack_ok_select.
Qed.

Lemma cycle_without_base_eq (forward : bool) s : entries s <> [] ->
  exists id, id ∈ ids s /\ cycle_without_base forward s = Ok (s <| selected := Stacked id |>, Some (Stacked id)).
Proof.
  intros Hne. unfold cycle_without_base. assert (is_empty s = false) as ->
    by (unfold is_empty; by destruct (entries s)).
  cbv zeta. set (current := match selected s with Base => None | Stacked id => entry_position id s end).
  assert (Hc : match current with Some i => (i < length (entries s))%nat | None => True end).
  { subst current. destruct (selected s) as [|id]; [done|]. destruct (entry_position id s) eqn:E; [|done].
    apply entry_position_some, lookup_lt_Some in E. by rewrite ids_length in E. }
  set (next := match current with Some _ => _ | None => _ end).
  assert (Hlt : (next < length (ids s))%nat).
  { rewrite ids_length. assert (length (entries s) <> 0)%nat by (by destruct (entries s)). subst next.
    destruct current as [[|i]|], forward; try apply Nat.mod_upper_bound; lia. }
  apply lookup_lt_is_Some_2 in Hlt as [id Hid]. exists id.
  split; [by apply list_elem_of_lookup_2 in Hid|]. by rewrite nth_selection_lookup, Hid.
Qed.
Lemma stack_ok_cycle_without_base (forward : bool) s : stack_ok s ->
  exists s' sel, cycle_without_base forward s = Ok (s', sel) /\ entries s' = entries s /\ stack_ok s' /\
    (entries s <> [] -> selected s' <> Base).
Proof.
  intros Hok. destruct (decide (entries s = [])) as [He|He].
  - unfold cycle_without_base, is_empty. rewrite He. eexists _, _. split_and!; [done|done| |done].
    by apply stack_ok_select.
  - destruct (cycle_without_base_eq forward s He) as (id & Hid & ->). eexists _, _. split_and!; [done|done| |done].
    by apply stack_ok_select.
Qed.

Lemma remove_at_ids (es : list StackedPane) id i : NoDup (entry_id <$> es) -> (entry_id <$> es) !! i = Some id ->
  entry_id <$> remove_at i es = filter (fun j => j <> id) (entry_id <$> es).
Proof using Type.
  unfold remove_at. revert i; induction es as [|e es IH]; intros i Hnd Hi; [done|]. cbn [fmap list_fmap] in *.
  apply NoDup_cons in Hnd as [Hn Hnd]. destruct i as [|i]; cbn [lookup list_lookup take drop app] in *.
  - injection Hi as <-. rewrite filter_cons_False by (by intros []). symmetry. rewrite drop_0.
    apply filter_all. intros j Hj ->. done.
  - rewrite filter_cons_True.
    + cbn [fmap list_fmap]. f_equal. by apply IH.
    + intros <-. by apply list_elem_of_lookup_2 in Hi.
Qed.

Lemma stack_ok_remove id s : stack_ok s ->
  let '(s', removed) := remove id s in
  stack_ok s' /\ ids s' = filter (fun j => j <> id) (ids s) /\
  entry_id <$> removed = (if decide (id ∈ ids s) then Some id else None) /\
  (selected s <> Stacked id -> selected s' = selected s).
Proof.
  intros (Hnd & Hv & Hl). unfold remove. destruct (entry_position id s) as [i|] eqn:E.
  2: { apply entry_position_none in E. rewrite decide_False by done. split_and!; try done.
       symmetry. apply filter_all. intros j Hj ->. done. }
  pose proof (entry_position_some _ _ _ E) as Hi. cbv zeta.
  set (s1 := s <| entries := remove_at i (entries s) |>).
  assert (Hids : ids s1 = filter (fun j => j <> id) (ids s)) by (by apply remove_at_ids).
  assert (H1 : forall sel, valid_selection sel s1 -> stack_ok (s1 <| selected := sel |>)).
  { intros sel Hsel. split_and!; [| done |].
    - change (NoDup (ids s1)). rewrite Hids. by apply NoDup_filter.
    - unfold zlen in *. change (entries (s1 <| selected := sel |>)) with (entries s1).
      rewrite <-ids_length, Hids. pose proof (length_filter (fun j => j <> id) (ids s)).
      rewrite ids_length in *. lia. }
  assert (Hrem : entry_id <$> entries s !! i = if decide (id ∈ ids s) then Some id else None).
  { rewrite decide_True by (by apply list_elem_of_lookup_2 in Hi). unfold ids in Hi. by rewrite list_lookup_fmap in Hi. }
  assert (Hnth : forall k sel, nth_selection s1 k = Some sel -> valid_selection sel s1).
  { intros k sel. rewrite nth_selection_lookup. intros (x & Hx & ->)%fmap_Some. by apply list_elem_of_lookup_2 in Hx. }
  case_bool_decide as Hsel.
  - split_and!; try done. apply H1. destruct (nth_selection s1 i) eqn:E1; [by eapply Hnth|].
    destruct (nth_selection s1 (i - 1)) eqn:E2; [by eapply Hnth|done].
  - assert (Hsv : valid_selection (selected s) s1).
    { destruct (selected s) as [|j]; [done|]. cbn in *. rewrite Hids. apply list_elem_of_filter.
      split; [congruence|done]. }
    change (selected s1) with (selected s).
    assert (Hsame : (match selected s with
      | Base => s1
      | Stacked j => if has_entry j s1 then s1 else s1 <| selected := Base |> end) = s1).
    { destruct (selected s) as [|j]; [done|]. change (j ∈ ids s1) in Hsv. apply has_entry_iff in Hsv. by rewrite Hsv. }
    rewrite Hsame. split_and!; try done. apply (H1 (selected s)). done.
Qed.

Lemma select_valid sel s : snd (select sel s) = true <-> valid_selection sel s.
Proof. destruct sel as [|id]; [done|]. apply has_entry_iff. Qed.
Lemma stack_ok_select_op sel s : stack_ok s -> stack_ok (fst (select sel s)).
Proof.
  intros Hok. pose proof (select_valid sel s) as Hv. unfold select in *. cbn [snd fst] in *.
  destruct (match sel with Base => true | Stacked id => has_entry id s end); [|done].
  apply stack_ok_select; [done|]. by apply Hv.
Qed.

Lemma stack_ok_push e s : stack_ok s -> entry_id e ∉ ids s -> stack_ok (fst (push e s)).
Proof.
  intros (Hnd & Hv & Hl) He. unfold push. destruct (Z.leb_spec (Layout.MAX_PANES_PER_TAB - 1) (zlen (entries s)));
    [by split_and!|]. cbn [fst].
  assert (Hids : ids (s <| entries := entries s ++ [e] |> <| selected := Stacked (entry_id e) |>) = ids s ++ [entry_id e])
    by (unfold ids; cbn [set_field entries]; by rewrite fmap_app).
  unfold stack_ok, valid_selection. rewrite Hids. split_and!.
  - apply NoDup_app. split; [done|]. split; [set_solver|]. apply NoDup_singleton.
  - cbn [set_field selected]. set_solver.
  - cbn [set_field entries]. rewrite zlen_app. change (zlen [e]) with 1. lia.
Qed.

Lemma select_after_base_exit_spec s : stack_ok s ->
  stack_ok (select_after_base_exit s) /\ entries (select_after_base_exit s) = entries s /\
  (entries s <> [] -> selected (select_after_base_exit s) <> Base).
Proof.
  intros Hok. unfold select_after_base_exit. cbv zeta.
  destruct (match selected s with Base => false | Stacked id => has_entry id s end) eqn:E.
  - split_and!; try done. intros _ Hb. by rewrite Hb in E.
  - destruct (entries s) as [|e es] eqn:Ees; cbn [head].
    + split_and!; try done. by apply stack_ok_select.
    + split_and!; try done. apply stack_ok_select; [done|]. cbn. unfold ids. rewrite Ees. set_solver.
Qed.

Lemma repair_selection_valid s :
  valid_selection (selected (repair_selection s)) (repair_selection s) /\
  entries (repair_selection s) = entries s /\ (valid_selection (selected s) s -> repair_selection s = s).
Proof.
  unfold repair_selection. destruct (selected s) as [|id] eqn:E; [by rewrite E|].
  destruct (has_entry id s) eqn:Eh.
  - rewrite E. split_and!; try done. by apply has_entry_iff.
  - split_and!; [| done |].
    + cbn [set_field selected]. destruct (last (entries s)) as [e|] eqn:El; [|done].
      cbn. unfold ids. cbn [set_field entries]. apply list_elem_of_fmap. exists e. split; [done|].
      apply last_Some in El as (l & ->). set_solver.
    + intros Hv. apply has_entry_iff in Hv. congruence.
Qed.

(** A stack's entries stay distinct and within the limit of a tab, and its
    selection is always the base or an entry it holds, through every
    operation: selecting (which succeeds exactly when the selection is there),
    cycling, pushing a new entry, removing any entry (which removes that one,
    keeps the others in order, and moves the selection only if it was on it),
    and the base terminal's exit (after which the base is selected only if
    nothing is stacked).  No cycle indexes out of range, and repairing a
    selection that is valid changes nothing. *)
Theorem stack_operations_keep_selection (s : PaneStack) :
  stack_ok s ->
  (forall sel, stack_ok (fst (select sel s)) /\ (snd (select sel s) = true <-> valid_selection sel s)) /\
  (forall forward, exists s' sel, cycle forward s = Ok (s', sel) /\ entries s' = entries s /\ stack_ok s') /\
  (forall forward, exists s' sel, cycle_without_base forward s = Ok (s', sel) /\ entries s' = entries s /\
     stack_ok s' /\ (entries s <> [] -> selected s' <> Base)) /\
  (forall e, entry_id e ∉ ids s -> stack_ok (fst (push e s))) /\
  (forall id, let '(s', removed) := remove id s in
     stack_ok s' /\ ids s' = filter (fun j => j <> id) (ids s) /\
     entry_id <$> removed = (if decide (id ∈ ids s) then Some id else None) /\
     (selected s <> Stacked id -> selected s' = selected s)) /\
  (stack_ok (select_after_base_exit s) /\ entries (select_after_base_exit s) = entries s /\
     (entries s <> [] -> selected (select_after_base_exit s) <> Base)) /\
  repair_selection s = s.
Proof.
  intros Hok. split_and!.
  - intros sel. split; [by apply stack_ok_select_op|apply select_valid].
  - intros b. by apply stack_ok_cycle.
  - intros b. by apply stack_ok_cycle_without_base.
  - intros e. by apply stack_ok_push.
  - intros id. by apply stack_ok_remove.
  - by apply select_after_base_exit_spec.
  - by apply select_after_base_exit_spec.
  - by apply select_after_base_exit_spec.
  - apply repair_selection_valid, Hok.
Qed.

Definition cycled (forward : bool) (s : PaneStack) : PaneStack :=
  match cycle forward s with Ok (s', _) => s' | _ => s end.

Lemma cycled_spec (forward : bool) s : stack_ok s -> entries s <> [] ->
  let n := S (length (entries s)) in
  stack_ok (cycled forward s) /\ entries (cycled forward s) = entries s /\
  place (cycled forward s) = (if forward then (place s + 1) mod n else (place s + length (entries s)) mod n)%nat.
Proof.
  intros Hok Hne n. unfold cycled. destruct (cycle_eq forward s Hne) as (sel & Hs & Hv & ->).
  split; [by apply stack_ok_select|]. split; [done|]. apply at_place_inj; [apply Hok|done].
Qed.
Lemma cycled_iter k s : stack_ok s -> entries s <> [] ->
  let s' := Nat.iter k (cycled true) s in
  stack_ok s' /\ entries s' = entries s /\ place s' = ((place s + k) mod S (length (entries s)))%nat.
Proof.
  intros Hok Hne. induction k as [|k IH]; cbv zeta in *.
  - split_and!; try done. cbn [Nat.iter]. rewrite Nat.add_0_r, Nat.mod_small; [done|].
    pose proof (place_bound s). lia.
  - rewrite Nat.iter_succ. set (s' := Nat.iter k (cycled true) s) in *. destruct IH as (Hok' & He & Hp).
    assert (Hne' : entries s' <> []) by by rewrite He.
    destruct (cycled_spec true s' Hok' Hne') as (H1 & H2 & H3). split; [done|]. split; [by rewrite H2|].
    rewrite H3, He, Hp, Nat.Div0.add_mod_idemp_l. f_equal. lia.
Qed.

(** Two stacks with the same entries and the same place are one. *)
Lemma place_unique s s' : valid_selection (selected s) s -> valid_selection (selected s') s' ->
  entries s' = entries s -> place s' = place s -> s' = s.
Proof.
  intros Hv Hv' He Hp. apply place_at in Hv, Hv'. rewrite Hp in Hv'.
  assert (Hs : Some (selected s') = Some (selected s)).
  { rewrite <-Hv, <-Hv'. unfold at_place, ids. by rewrite He. }
  destruct s, s'. cbn in *. congruence.
Qed.

(** Cycling through a stack goes round it: [k] steps forward move the
    selection [k] places on, the base counting as the first place, so one round
    visits the base and every entry and comes back to where it began; a step
    back undoes a step forward. *)
Theorem cycle_goes_round (s : PaneStack) :
  stack_ok s -> entries s <> [] ->
  let n := S (length (entries s)) in
  (forall k, place (Nat.iter k (cycled true) s) = ((place s + k) mod n)%nat) /\
  (forall sel, valid_selection sel s -> exists k, (k < n)%nat /\ selected (Nat.iter k (cycled true) s) = sel) /\
  Nat.iter n (cycled true) s = s /\
  cycled false (cycled true s) = s.
Proof.
  intros Hok Hne n.
  assert (Hit : forall k, place (Nat.iter k (cycled true) s) = ((place s + k) mod n)%nat) by (intros k; by apply cycled_iter).
  assert (Hb := place_bound s). split; [done|]. split_and!.
  - intros sel Hv. set (s1 := s <| selected := sel |>).
    assert (Hok1 : stack_ok s1) by by apply stack_ok_select.
    assert (Hb1 := place_bound s1). change (entries s1) with (entries s) in Hb1.
    exists ((place s1 + (n - place s)) mod n)%nat. split; [apply Nat.mod_upper_bound; lia|].
    destruct (cycled_iter ((place s1 + (n - place s)) mod n)%nat s Hok Hne) as (Hk & He & Hp).
    rewrite (place_unique s1 (Nat.iter _ (cycled true) s)); [done|apply Hok1|apply Hk|done|].
    rewrite Hp, Nat.Div0.add_mod_idemp_r. fold n.
    replace (place s + (place s1 + (n - place s)))%nat with (place s1 + 1 * n)%nat by lia.
    rewrite Nat.Div0.mod_add, Nat.mod_small; lia.
  - destruct (cycled_iter n s Hok Hne) as (Hk & He & Hp). apply place_unique; [apply Hok|apply Hk|done|].
    rewrite Hp. fold n. replace (place s + n)%nat with (place s + 1 * n)%nat by lia.
    rewrite Nat.Div0.mod_add, Nat.mod_small; lia.
  - destruct (cycled_spec true s Hok Hne) as (H1 & He & Hp).
    destruct (cycled_spec false (cycled true s)) as (H2 & He2 & Hp2); [done|by rewrite He|].
    apply place_unique; [apply Hok|apply H2|by rewrite He2|].
    rewrite Hp2, Hp, He. fold n. rewrite Nat.Div0.add_mod_idemp_l.
    replace (place s + 1 + length (entries s))%nat with (place s + 1 * n)%nat by lia.
    rewrite Nat.Div0.mod_add, Nat.mod_small; lia.
Qed.

End Stack.

(** A stack of two entries with the second selected. *)
Definition demo_entry (id : Z) : @StackedPane unit unit unit unit := new_entry id "make" tt None None.
Definition demo_stack : @PaneStack unit unit unit unit := mkStack [demo_entry 7; demo_entry 9] (Stacked 9).
Lemma demo_stack_ok : stack_ok demo_stack.
Proof. split_and!; [apply (bool_decide_unpack _); vm_compute; exact I|cbn; set_solver|done]. Qed.

Lemma stack_operations_keep_selection_witness :
  stack_ok demo_stack /\ selected (fst (remove 9 demo_stack)) = Stacked 7 /\
  ids (fst (remove 9 demo_stack)) = [7] /\ repair_selection demo_stack = demo_stack.
Proof.
  split; [exact demo_stack_ok|]. split; [done|].
  destruct (stack_operations_keep_selection demo_stack demo_stack_ok) as (_ & _ & _ & _ & Hr & _ & Hs).
  split; [exact (proj1 (proj2 (Hr 9)))|exact Hs].
Defined.
Lemma cycle_goes_round_witness :
  stack_ok demo_stack /\ entries demo_stack <> [] /\ selected (cycled true demo_stack) = Base /\
  Nat.iter 3 (cycled true) demo_stack = demo_stack.
Proof.
  assert (Hne : entries demo_stack <> []) by discriminate.
  split; [exact demo_stack_ok|]. split; [exact Hne|]. split; [done|].
  exact (proj1 (proj2 (proj2 (cycle_goes_round demo_stack demo_stack_ok Hne)))).
Defined.
End Stack.
