(* ===== verification/Tab.v ===== *)
(** * A tab: its panes, which one is active, and what it shows

    Models [src/pane/tab.rs] with the calls the window makes of it
    ([src/app/panes.rs], [src/pane_resize.rs], [src/pane_view_state.rs]): panes
    are split, closed, focused, moved, maximized, minimized and restored.  What
    the operations here never read of a tab or a pane (terminals, titles,
    themes, policies) is carried as it is. *)
From Stdlib Require Import ZArith Lia List Bool.
From stdpp Require Import base numbers list gmap sets strings.
From S2P Require Import Prelude Layout Stack.
Import Layout Stack.
Open Scope Z_scope.
Open Scope zetta_scope.

Module Tab.

Section Tab.
Context {Profile Terminal View PathBuf TextField StylePicker PaneRest TabRest : Type}.

Notation PaneStack := (@PaneStack Profile Terminal View PathBuf).
Notation StackedPane := (@StackedPane Profile Terminal View PathBuf).

Record TerminalPane := mkPane {
  pane_id : Z; label_number : Z; generated_label : option string; stack : PaneStack; pane_rest : PaneRest;
}.

Record Tab := mkTab {
  id : Z; panes : list TerminalPane; pane_indices : gmap Z nat; next_pane_label : Z;
  layout : PaneLayout; active_pane : Z; focus_history : list Z;
  maximized_pane : option Z; minimized_panes : list Z; selected_minimized_pane : option Z;
  renaming_pane : option Z; rename_buffer : option TextField;
  editing_overlay_pane : option Z; overlay_buffer : option TextField;
  overlay_style_picker : option StylePicker; tab_rest : TabRest;
}.

#[local] Instance TerminalPane_eta : Eta TerminalPane := fun p =>
  mkPane (pane_id p) (label_number p) (generated_label p) (stack p) (pane_rest p).
#[local] Instance Tab_eta : Eta Tab := fun t =>
  mkTab (id t) (panes t) (pane_indices t) (next_pane_label t) (layout t) (active_pane t) (focus_history t)
    (maximized_pane t) (minimized_panes t) (selected_minimized_pane t) (renaming_pane t) (rename_buffer t)
    (editing_overlay_pane t) (overlay_buffer t) (overlay_style_picker t) (tab_rest t).

(** [TerminalPane::new] *)
Definition new_pane (id : Z) (rest : PaneRest) : TerminalPane := mkPane id 0 None default_stack rest.

(** A window's new tab. *)
Definition new_tab (tab_id pane_id : Z) (pane_rest : PaneRest) (rest : TabRest) : Tab :=
  mkTab tab_id [new_pane pane_id pane_rest <| label_number := 1 |>] {[pane_id := 0%nat]} 2 (Pane pane_id) pane_id
    [pane_id] None [] None None None None None None rest.

(** ** Panes *)

Definition pane (i : Z) (t : Tab) : option TerminalPane :=
  index ← pane_indices t !! i; panes t !! index.

(** [if let Some(pane) = self.pane_mut(id) { .. }] *)
Definition update_pane (i : Z) (g : TerminalPane -> TerminalPane) (t : Tab) : Tab :=
  match pane_indices t !! i with
  | Some index => t <| panes := alter g index (panes t) |>
  | None => t
  end.

Definition push_pane (p : TerminalPane) (t : Tab) : Tab :=
  let p := if label_number p =? 0 then p <| label_number := next_pane_label t |> else p in
  t <| next_pane_label := Z.max (next_pane_label t) (label_number p + 1) |>
    <| pane_indices := <[pane_id p := length (panes t)]> (pane_indices t) |>
    <| panes := panes t ++ [p] |>.

Definition apply_generated_labels (labels : list (Z * option string)) (t : Tab) : Tab :=
  foldl (fun t '(i, label) => update_pane i (fun p => p <| generated_label := label |>) t) t labels.

(** The panes from [index] on with their indices, as the loop of [remove_pane]
    and the rebuilding of [reassign_ids] insert them. *)
Definition indexed (ps : list TerminalPane) : list (Z * nat) := imap (fun i p => (pane_id p, i)) ps.
Definition insert_indices (m : gmap Z nat) (kvs : list (Z * nat)) : gmap Z nat :=
  foldl (fun m kv => <[fst kv := snd kv]> m) m kvs.

Definition remove_pane (i : Z) (t : Tab) : result unit (Tab * option TerminalPane) :=
  match pane_indices t !! i with
  | None => Ok (t, None)
  | Some index =>
      pane ← expect (panes t !! index);
      let panes' := remove_at index (panes t) in
      Ok (t <| pane_indices := insert_indices (delete i (pane_indices t)) (drop index (indexed panes')) |>
            <| panes := panes' |>, Some pane)
  end.

(** ** Focus *)

Definition activate_pane (i : Z) (t : Tab) : Tab :=
  match pane i t with
  | None => t
  | Some _ =>
      t <| focus_history := filter (fun j => j <> i) (focus_history t) ++ [i] |>
        <| active_pane := i |>
  end.

Definition activate_stack_entry (i : Z) (entry : PaneStackSelection) (t : Tab) : Tab :=
  match pane i t with
  | None => t
  | Some p =>
      if snd (select entry (stack p))
      then activate_pane i (update_pane i (fun p => p <| stack := fst (select entry (stack p)) |>) t)
      else t
  end.

Definition is_minimized (i : Z) (t : Tab) : bool := bool_decide (i ∈ minimized_panes t).

Definition visible_layout (t : Tab) : option PaneLayout :=
  match maximized_pane t with
  | Some i => (fun _ => Pane i) <$> pane i t
  | None =>
      match minimized_panes t with
      | [] => Some (layout t)
      | minimized => without_all (list_to_set minimized) (layout t)
      end
  end.

Definition pane_is_visible (i : Z) (t : Tab) : bool :=
  match pane i t with
  | None => false
  | Some _ => match maximized_pane t with Some m => m =? i | None => negb (is_minimized i t) end
  end.

(** ** Maximizing and minimizing *)

Definition repair_minimized_selection (t : Tab) : Tab :=
  let kept := match selected_minimized_pane t with Some i => is_minimized i t | None => false end in
  if kept then t else t <| selected_minimized_pane := last (minimized_panes t) |>.

Definition toggle_maximize (i : Z) (t : Tab) : Tab * bool :=
  match pane i t with
  | None => (t, false)
  | Some _ =>
      let pane_was_minimized := is_minimized i t in
      let visible_pane_count :=
        (length (panes t) - length (minimized_panes t) + (if pane_was_minimized then 1 else 0))%nat in
      if negb (bool_decide (maximized_pane t = Some i)) && (visible_pane_count <? 2)%nat then (t, false)
      else
        let t := t <| minimized_panes := filter (fun j => j <> i) (minimized_panes t) |> in
        let t := repair_minimized_selection t in
        let t := t <| maximized_pane := if negb (bool_decide (maximized_pane t = Some i)) then Some i else None |> in
        (activate_pane i t, true)
  end.

Definition minimize (i : Z) (t : Tab) : result unit (Tab * bool) :=
  if bool_decide (pane i t = None) || is_minimized i t ||
     (length (panes t) - length (minimized_panes t) <=? 1)%nat
  then Ok (t, false)
  else
    let t := t <| maximized_pane := None |> <| minimized_panes := minimized_panes t ++ [i] |>
               <| selected_minimized_pane := Some i |> in
    fallback ← expect (option_or
      (find (fun j => negb (j =? i) && negb (is_minimized j t)) (rev (focus_history t)))
      (find (fun j => negb (is_minimized j t)) (region_id <$> regions (layout t))));
    Ok (activate_pane fallback t, true).

Definition restore_minimized (i : Z) (t : Tab) : result unit (Tab * bool) :=
  match position (fun j => j =? i) (minimized_panes t) with
  | None => Ok (t, false)
  | Some index =>
      let t := t <| minimized_panes := remove_at index (minimized_panes t) |> in
      t ← (if bool_decide (selected_minimized_pane t = Some i) then
             match minimized_panes t with
             | [] => Ok (t <| selected_minimized_pane := None |>)
             | _ => j ← expect (minimized_panes t !! (index mod length (minimized_panes t))%nat);
                    Ok (t <| selected_minimized_pane := Some j |>)
             end
           else Ok (repair_minimized_selection t));
      Ok (activate_pane i (t <| maximized_pane := None |>), true)
  end.

Definition restore_last_minimized (t : Tab) : result unit (Tab * bool) :=
  let selected := i ← selected_minimized_pane t; if is_minimized i t then Some i else None in
  match option_or selected (last (minimized_panes t)) with
  | Some i => restore_minimized i t
  | None => Ok (t, false)
  end.

Definition select_adjacent_minimized (forward : bool) (t : Tab) : result unit (Tab * bool) :=
  match minimized_panes t with
  | [] => Ok (t <| selected_minimized_pane := None |>, false)
  | _ =>
      let count := length (minimized_panes t) in
      let current := i ← selected_minimized_pane t; position (fun j => j =? i) (minimized_panes t) in
      let index := match current with
        | None => if forward then 0%nat else (count - 1)%nat
        | Some index => if forward then ((index + 1) mod count)%nat
                        else match index with O => (count - 1)%nat | S index => index end
        end in
      j ← expect (minimized_panes t !! index);
      Ok (t <| selected_minimized_pane := Some j |>, true)
  end.

(** ** Closing *)

(** [restore_focus_after_close]: what the tab still remembers of the closed
    pane goes, then ([settle_focus]) a pane is shown and focused. *)
Definition forget_closed (closed : Z) (t : Tab) : Tab :=
  let t := if bool_decide (renaming_pane t = Some closed)
           then t <| renaming_pane := None |> <| rename_buffer := None |> else t in
  let t := if bool_decide (maximized_pane t = Some closed) then t <| maximized_pane := None |> else t in
  t <| minimized_panes := filter (fun j => j <> closed) (minimized_panes t) |>.

(** When only minimized panes survive, the last of them is shown again. *)
Definition restore_survivor (t : Tab) : result unit Tab :=
  let surviving := pane_id <$> panes t in
  if negb (bool_decide (surviving = [])) && (length surviving =? length (minimized_panes t))%nat then
    restored ← expect (last (minimized_panes t));
    let t := t <| minimized_panes := removelast (minimized_panes t) |> in
    Ok (activate_pane restored t)
  else Ok t.

Definition settle_focus (closed fallback : Z) (t : Tab) : result unit Tab :=
  t ← restore_survivor t;
  let surviving := pane_id <$> panes t in
  let t := repair_minimized_selection t in
  let t := if (length (panes t) =? 1)%nat then t <| maximized_pane := None |> else t in
  let t := t <| focus_history := filter (fun j => j <> closed /\ j ∈ surviving) (focus_history t) |> in
  if negb (active_pane t =? closed) && bool_decide (active_pane t ∈ surviving) && negb (is_minimized (active_pane t) t)
  then Ok t
  else
    let next := default fallback
      (option_or (find (fun j => negb (is_minimized j t)) (rev (focus_history t)))
      (option_or (first_pane <$> visible_layout t)
      (option_or (selected_minimized_pane t) (head surviving)))) in
    Ok (activate_pane next t).

Definition restore_focus_after_close (closed fallback : Z) (t : Tab) : result unit Tab :=
  settle_focus closed fallback (forget_closed closed t).

(** ** Entering another window *)

Definition renumber_panes (next_pane_id : Z) (ps : list TerminalPane)
    : list TerminalPane * gmap Z Z * Z :=
  foldl (fun '(done, pane_ids, next) p =>
    (done ++ [p <| pane_id := next |>], <[pane_id p := next]> pane_ids, next + 1)) ([], ∅, next_pane_id) ps.

Definition renumber_entries (next_pane_id : Z) (s : PaneStack) : PaneStack * Z :=
  let '(done, sel, next) :=
    foldl (fun '(done, sel, next) (e : StackedPane) =>
      (done ++ [mkStackedPane next (routing_id e) (command e) (profile e) (theme_override e) (terminal e) (view e)
                  (state e) (exit_code e) (error e) (working_directory e) (wsl_directory e)],
       if bool_decide (sel = Stacked (entry_id e)) then Stacked next else sel, next + 1))
      ([], selected s, next_pane_id) (entries s) in
  (repair_selection (mkStack done sel), next).

Definition renumber_stacks (next_pane_id : Z) (ps : list TerminalPane) : list TerminalPane * Z :=
  foldl (fun '(done, next) p =>
    let '(s, next) := renumber_entries next (stack p) in (done ++ [p <| stack := s |>], next))
    ([], next_pane_id) ps.

Definition reassign_ids (tab_id next_pane_id : Z) (t : Tab) : result unit (Tab * gmap Z Z * Z) :=
  let '(ps, pane_ids, next) := renumber_panes next_pane_id (panes t) in
  let '(ps, next) := if bool_decide (pane_ids = ∅) then (ps, next) else renumber_stacks next ps in
  layout ← remap_pane_ids pane_ids (layout t);
  active ← expect (pane_ids !! active_pane t);
  Ok (mkTab tab_id ps (insert_indices ∅ (indexed ps)) (next_pane_label t) layout active
        (omap (fun j => pane_ids !! j) (focus_history t))
        (maximized_pane t ≫= fun j => pane_ids !! j)
        (omap (fun j => pane_ids !! j) (minimized_panes t))
        (selected_minimized_pane t ≫= fun j => pane_ids !! j)
        None None None None None (tab_rest t), pane_ids, next).

(** ** What the window asks of a tab

    The window hands out pane identifiers from a counter; [next_pane_id] is that
    counter, which the model lets grow without wrapping (2^64 panes). *)
Inductive Op :=
| OpSplit (active_pane_id : Z) (axis : SplitAxis) (position : SplitPosition) (rest : PaneRest)
| OpClose (pane_id : Z)
| OpFocus (direction : PaneDirection)
| OpActivate (pane_id : Z) (entry : PaneStackSelection)
| OpToggleMaximize (pane_id : Z)
| OpMinimize (pane_id : Z)
| OpRestore (pane_id : Z)
| OpRestoreLast
| OpSelectMinimized (forward : bool)
| OpMove (direction : PaneDirection)
| OpRotate (direction : PaneRotationDirection)
| OpDrop (dragged target : Z).

(** [split_pane_with_pending_command] *)
Definition split_pane (target : Z) (axis : SplitAxis) (position : SplitPosition) (rest : PaneRest)
    (next_pane_id : Z) (t : Tab) : Z * Tab :=
  if negb (can_add_panes (Z.of_nat (length (panes t))) 1) then (next_pane_id, t)
  else if bool_decide (pane target t = None) then (next_pane_id, t)
  else
    let pane_id := next_pane_id in
    let t := t <| maximized_pane := None |> in
    let '(l, done) := split target axis pane_id position (layout t) in
    let t := t <| layout := l |> in
    (next_pane_id + 1, if (done : bool) then activate_pane pane_id (push_pane (new_pane pane_id rest) t) else t).

(** [close_pane_with_policy]; [None] when the tab closes with its last pane. *)
Definition close_pane (i : Z) (t : Tab) : result unit (option Tab) :=
  if negb (existsb (fun p => pane_id p =? i) (panes t)) then Ok (Some t)
  else if (length (panes t) =? 1)%nat then Ok None
  else
    '(t, _) ← remove_pane i t;
    match without i (layout t) with
    | None => Ok None
    | Some l =>
        t ← restore_focus_after_close i (first_pane l) (t <| layout := l |>);
        Ok (Some t)
    end.

(** [focus_pane] *)
Definition focus_pane (d : PaneDirection) (t : Tab) : Tab :=
  if bool_decide (maximized_pane t <> None) then t
  else
    match visible_layout t ≫= adjacent_pane (active_pane t) d (focus_history t) with
    | Some i => activate_pane i t
    | None => t
    end.

(** [move_active_pane], [rotate_pane_layout_in_direction] *)
Definition move_active_pane (d : PaneDirection) (t : Tab) : Tab :=
  if bool_decide (maximized_pane t <> None) then t
  else t <| layout := fst (move_pane (active_pane t) d (layout t)) |>.
Definition rotate_pane_layout (d : PaneRotationDirection) (t : Tab) : Tab :=
  t <| layout := fst (rotate_pane (active_pane t) d (layout t)) |>.

(** [move_pane_via_drag] *)
Definition drop_pane (dragged target : Z) (t : Tab) : Tab :=
  if (dragged =? target) || bool_decide (maximized_pane t <> None) then t
  else
    let '(l, done) := swap_panes dragged target (layout t) in
    if (done : bool) then activate_pane dragged (t <| layout := l |>) else t.

Definition kept (r : result unit (Tab * bool)) : result unit (option Tab) := Some ∘ fst <$> r.

Definition run (o : Op) (next_pane_id : Z) (t : Tab) : result unit (Z * option Tab) :=
  match o with
  | OpSplit target axis position rest =>
      let '(next, t) := split_pane target axis position rest next_pane_id t in Ok (next, Some t)
  | OpClose i => pair next_pane_id <$> close_pane i t
  | OpFocus d => Ok (next_pane_id, Some (focus_pane d t))
  | OpActivate i entry => Ok (next_pane_id, Some (activate_stack_entry i entry t))
  | OpToggleMaximize i => Ok (next_pane_id, Some (fst (toggle_maximize i t)))
  | OpMinimize i => pair next_pane_id <$> kept (minimize i t)
  | OpRestore i => pair next_pane_id <$> kept (restore_minimized i t)
  | OpRestoreLast => pair next_pane_id <$> kept (restore_last_minimized t)
  | OpSelectMinimized forward => pair next_pane_id <$> kept (select_adjacent_minimized forward t)
  | OpMove d => Ok (next_pane_id, Some (move_active_pane d t))
  | OpRotate d => Ok (next_pane_id, Some (rotate_pane_layout d t))
  | OpDrop dragged target => Ok (next_pane_id, Some (drop_pane dragged target t))
  end.

Fixpoint run_all (ops : list Op) (next_pane_id : Z) (t : Tab) : result unit (Z * option Tab) :=
  match ops with
  | [] => Ok (next_pane_id, Some t)
  | o :: ops =>
      '(next, t) ← run o next_pane_id t;
      match t with Some t => run_all ops next t | None => Ok (next, None) end
  end.

(** * Correctness *)

Definition pane_ids_of (t : Tab) : list Z := pane_id <$> panes t.

(** The index names every pane's place. *)
Definition indices_ok (t : Tab) : Prop :=
  forall i k, pane_indices t !! i = Some k <-> pane_ids_of t !! k = Some i.

Definition selects (sel : option Z) (minimized : list Z) : Prop :=
  match sel with Some i => i ∈ minimized | None => minimized = [] end.

(** The panes, their index, the layout, the history and the minimized panes
    agree, and a pane is left that is not minimized. *)
Record body_ok (next_pane_id : Z) (t : Tab) : Prop := {
  ok_indices : indices_ok t;
  ok_layout : pane_ids (layout t) ≡ₚ pane_ids_of t;
  ok_ratios : ratios_ok (layout t);
  ok_limit : Z.of_nat (length (panes t)) <= MAX_PANES_PER_TAB;
  ok_fresh : forall i, i ∈ pane_ids_of t -> i < next_pane_id;
  ok_history : NoDup (focus_history t) /\ focus_history t ⊆ pane_ids_of t;
  ok_minimized : NoDup (minimized_panes t) /\ minimized_panes t ⊆ pane_ids_of t;
  ok_some_visible : (length (minimized_panes t) < length (panes t))%nat;
  ok_selected : selects (selected_minimized_pane t) (minimized_panes t);
  ok_maximized : forall i, maximized_pane t = Some i -> i ∈ pane_ids_of t /\ i ∉ minimized_panes t;
}.
(** A well-formed tab: the active pane is one of its panes, the last focused. *)
Record tab_ok (next_pane_id : Z) (t : Tab) : Prop := {
  ok_body :> body_ok next_pane_id t;
  ok_active : active_pane t ∈ pane_ids_of t;
  ok_last : last (focus_history t) = Some (active_pane t);
}.

Lemma indices_nodup t : indices_ok t -> NoDup (pane_ids_of t).
Proof using Type.
  intros H. apply NoDup_alt. intros i j x Hi Hj. apply H in Hi, Hj. congruence.
Qed.
Lemma pane_some t i : indices_ok t -> is_Some (pane i t) <-> i ∈ pane_ids_of t.
Proof using Type.
  intros H. unfold pane. split.
  - intros [p Hp]. destruct (pane_indices t !! i) as [k|] eqn:E; cbn in Hp; [|done].
    apply H in E. by apply list_elem_of_lookup_2 in E.
  - intros [k Hk]%list_elem_of_lookup. pose proof (proj2 (H i k) Hk) as ->. cbn.
    unfold pane_ids_of in Hk. rewrite list_lookup_fmap in Hk. by destruct (panes t !! k).
Qed.
Lemma pane_none t i : indices_ok t -> pane i t = None <-> i ∉ pane_ids_of t.
Proof using Type. intros H. rewrite <-(pane_some t i H), eq_None_not_Some. done. Qed.

(** The fields an update leaves alone are read through it. *)
Ltac tab_fields :=
  cbn [set_field id panes pane_indices next_pane_label layout active_pane focus_history maximized_pane
       minimized_panes selected_minimized_pane renaming_pane rename_buffer editing_overlay_pane overlay_buffer
       overlay_style_picker tab_rest pane_id label_number generated_label stack pane_rest].

Lemma activate_pane_eq t i : indices_ok t -> i ∈ pane_ids_of t ->
  activate_pane i t = t <| focus_history := filter (fun j => j <> i) (focus_history t) ++ [i] |> <| active_pane := i |>.
Proof using Type. intros H Hi. apply pane_some in Hi as [p Hp]; [|done]. unfold activate_pane. by rewrite Hp. Qed.

Lemma activated_history (h ids : list Z) i : NoDup h -> h ⊆ ids -> i ∈ ids ->
  NoDup (filter (fun j => j <> i) h ++ [i]) /\ filter (fun j => j <> i) h ++ [i] ⊆ ids /\
  last (filter (fun j => j <> i) h ++ [i]) = Some i.
Proof using Type.
  intros Hnd Hsub Hi. split_and!.
  - apply NoDup_app. split; [by apply NoDup_filter|]. split; [|apply NoDup_singleton].
    intros x [Hx _]%list_elem_of_filter. set_solver.
  - intros x [[_ Hx]%list_elem_of_filter| ->%list_elem_of_singleton]%elem_of_app; [by apply Hsub|done].
  - apply last_snoc.
Qed.

Lemma body_activate next t i : body_ok next t -> i ∈ pane_ids_of t -> tab_ok next (activate_pane i t).
Proof using Type.
  intros H Hi. rewrite activate_pane_eq by (done || apply H). destruct H as [? ? ? ? ? [Hnd Hsub] ? ? ? ?].
  destruct (activated_history _ _ i Hnd Hsub Hi) as (? & ? & ?). constructor; [constructor|..]; tab_fields; done.
Qed.
Lemma tab_ok_activate next t i : tab_ok next t -> tab_ok next (activate_pane i t).
Proof using Type.
  intros H. destruct (decide (i ∈ pane_ids_of t)) as [Hi|Hi]; [by apply body_activate; [apply H|]|].
  apply pane_none in Hi; [|apply H]. unfold activate_pane. by rewrite Hi.
Qed.

(** ** Maximizing and minimizing *)

Lemma tab_ok_view next t mx mn sl : tab_ok next t ->
  NoDup mn -> mn ⊆ pane_ids_of t -> (length mn < length (panes t))%nat -> selects sl mn ->
  (forall i, mx = Some i -> i ∈ pane_ids_of t /\ i ∉ mn) ->
  tab_ok next (t <| maximized_pane := mx |> <| minimized_panes := mn |> <| selected_minimized_pane := sl |>).
Proof using Type. intros [[]] Hnd Hsub Hl Hs Hm. constructor; [constructor|..]; tab_fields; done. Qed.

Lemma last_selects (mn : list Z) : selects (last mn) mn.
Proof using Type.
  unfold selects. destruct (last mn) as [i|] eqn:E; [|by apply last_None].
  apply last_Some in E as (l & ->). set_solver.
Qed.
Lemma repair_spec t : exists sl, repair_minimized_selection t = t <| selected_minimized_pane := sl |> /\
  selects sl (minimized_panes t).
Proof using Type.
  unfold repair_minimized_selection. cbv zeta. destruct (selected_minimized_pane t) as [i|] eqn:E.
  2: { exists (last (minimized_panes t)). split; [done|apply last_selects]. }
  destruct (is_minimized i t) eqn:Em.
  - exists (Some i). split; [rewrite <-E; by destruct t|]. by apply bool_decide_eq_true in Em.
  - exists (last (minimized_panes t)). split; [done|apply last_selects].
Qed.

Lemma visible_active next t i : tab_ok next t -> i ∈ pane_ids_of t ->
  (match maximized_pane t with Some m => m = i | None => i ∉ minimized_panes t end) ->
  pane_is_visible i t = true.
Proof using Type.
  intros H Hi Hv. apply pane_some in Hi as [p Hp]; [|apply H]. unfold pane_is_visible. rewrite Hp.
  destruct (maximized_pane t) as [m|]; [by apply Z.eqb_eq|]. unfold is_minimized.
  rewrite bool_decide_eq_false_2; done.
Qed.
Lemma visible_iff next t i : tab_ok next t -> pane_is_visible i t = true <->
  i ∈ pane_ids_of t /\ (match maximized_pane t with Some m => m = i | None => i ∉ minimized_panes t end).
Proof using Type.
  intros H. split; [|intros []; by apply (visible_active next)].
  unfold pane_is_visible, is_minimized. destruct (pane i t) as [p|] eqn:E; [|done]. intros Hv.
  split; [apply pane_some; [apply H|by exists p]|]. destruct (maximized_pane t); [by apply Z.eqb_eq|].
  by apply negb_true_iff, bool_decide_eq_false in Hv.
Qed.

Lemma toggle_maximize_eq next t i : tab_ok next t ->
  (toggle_maximize i t = (t, false) /\
     ((i ∉ pane_ids_of t) \/ maximized_pane t <> Some i /\ forall j, j ∈ pane_ids_of t -> j <> i -> j ∈ minimized_panes t)) \/
  exists sl mn, i ∈ pane_ids_of t /\ mn = filter (fun j => j <> i) (minimized_panes t) /\ selects sl mn /\
    toggle_maximize i t = (activate_pane i
      (t <| maximized_pane := if decide (maximized_pane t = Some i) then None else Some i |>
         <| minimized_panes := mn |> <| selected_minimized_pane := sl |>), true).
Proof using Type.
  intros H. unfold toggle_maximize. destruct (pane i t) as [p|] eqn:E.
  2: { left. split; [done|]. left. by apply pane_none; [apply H|]. }
  assert (Hi : i ∈ pane_ids_of t) by (apply pane_some; [apply H|by exists p]). cbv zeta.
  destruct (negb _ && _) eqn:Ec.
  - left. split; [done|]. right. apply andb_true_iff in Ec as [Hm Hc].
    apply negb_true_iff, bool_decide_eq_false in Hm. split; [done|]. apply Nat.ltb_lt in Hc.
    intros j Hj Hne. destruct (decide (j ∈ minimized_panes t)) as [|Hjm]; [done|]. exfalso.
    destruct (ok_minimized _ _ H) as [Hnd Hsub]. pose proof (indices_nodup t (ok_indices _ _ H)) as Hnd'.
    assert (Hlen : (length (j :: i :: filter (fun k => k <> i) (minimized_panes t)) <= length (pane_ids_of t))%nat).
    { apply submseteq_length, NoDup_submseteq.
      - apply NoDup_cons. split; [rewrite elem_of_cons, list_elem_of_filter; naive_solver|].
        apply NoDup_cons. split; [rewrite list_elem_of_filter; naive_solver|]. by apply NoDup_filter.
      - intros x. rewrite !elem_of_cons, list_elem_of_filter. intros [->|[->|[_ Hx]]]; try done. by apply Hsub. }
    cbn [length] in Hlen. unfold pane_ids_of in Hlen. rewrite length_fmap in Hlen.
    unfold is_minimized in Hc. case_bool_decide as Him.
    + assert (Hf : length (minimized_panes t) = S (length (filter (fun k => k <> i) (minimized_panes t)))).
      { apply list_elem_of_split in Him as (l1 & l2 & Hl). rewrite Hl in *.
        apply NoDup_app in Hnd as (_ & Hl1 & [Hl2 _]%NoDup_cons). rewrite filter_app, filter_cons_False by tauto.
        rewrite !filter_all; [rewrite !length_app; cbn; lia| |]; intros x Hx ->; [done|].
        apply (Hl1 i Hx). set_solver. }
      lia.
    + rewrite filter_all in Hlen by (intros x Hx ->; done). lia.
  - right. destruct (repair_spec (t <| minimized_panes := filter (fun j => j <> i) (minimized_panes t) |>)) as (sl & Hr & Hs).
    exists sl, (filter (fun j => j <> i) (minimized_panes t)). split; [done|]. split; [done|]. split; [done|].
    rewrite Hr. tab_fields. destruct (decide (maximized_pane t = Some i)).
    + by rewrite bool_decide_eq_true_2.
    + by rewrite bool_decide_eq_false_2.
Qed.

(** A set of panes smaller than the tab misses one. *)
Lemma some_other (mn ids : list Z) : NoDup ids -> (length mn < length ids)%nat -> exists j, j ∈ ids /\ j ∉ mn.
Proof using Type.
  intros Hnd Hl. destruct (decide (Forall (fun j => j ∈ mn) ids)) as [Ha|Ha].
  - exfalso. assert (length ids <= length mn)%nat; [|lia]. apply submseteq_length, NoDup_submseteq; [done|].
    intros x Hx. by eapply Forall_forall in Ha.
  - apply not_Forall_Exists, Exists_exists in Ha; [|apply _]. naive_solver.
Qed.

Lemma find_elem (p : Z -> bool) l x : find p l = Some x -> x ∈ l /\ p x = true.
Proof using Type. intros H. apply find_some in H as [Hin Hp]. split; [by apply list_elem_of_In|done]. Qed.
Lemma find_exists (p : Z -> bool) l x : x ∈ l -> p x = true -> exists y, find p l = Some y.
Proof using Type.
  intros Hin Hp. destruct (find p l) eqn:E; [by eauto|]. apply list_elem_of_In in Hin.
  by rewrite (find_none _ _ E x Hin) in Hp.
Qed.

Lemma elem_of_rev (x : Z) l : x ∈ rev l <-> x ∈ l.
Proof using Type. rewrite !list_elem_of_In. symmetry. apply in_rev. Qed.

Lemma panes_length t : length (pane_ids_of t) = length (panes t).
Proof using Type. apply length_fmap. Qed.

Lemma minimize_eq next t i : tab_ok next t ->
  (minimize i t = Ok (t, false) /\
     ((i ∉ pane_ids_of t) \/ i ∈ minimized_panes t \/ length (panes t) = S (length (minimized_panes t)))) \/
  exists f, i ∈ pane_ids_of t /\ (i ∉ minimized_panes t) /\ f ∈ pane_ids_of t /\ (f ∉ minimized_panes t ++ [i]) /\
    (active_pane t <> i -> active_pane t ∉ minimized_panes t -> f = active_pane t) /\
    (S (length (minimized_panes t)) < length (panes t))%nat /\
    minimize i t = Ok (activate_pane f (t <| maximized_pane := None |> <| minimized_panes := minimized_panes t ++ [i] |>
                         <| selected_minimized_pane := Some i |>), true).
Proof using Type.
  intros H. unfold minimize. case_bool_decide as Hp; cbn [orb].
  { left. split; [done|]. left. apply pane_none; [apply H|done]. }
  assert (Hi : i ∈ pane_ids_of t) by (apply pane_some; [apply H|by apply not_eq_None_Some]).
  destruct (is_minimized i t) eqn:Hm; cbn [orb].
  { left. apply bool_decide_eq_true in Hm. by auto. }
  apply bool_decide_eq_false in Hm.
  pose proof (ok_some_visible _ _ H). destruct (Nat.leb_spec (length (panes t) - length (minimized_panes t)) 1).
  { left. split; [done|]. right. right. lia. }
  right. cbv zeta. set (t1 := t <| maximized_pane := None |> <| minimized_panes := minimized_panes t ++ [i] |>
    <| selected_minimized_pane := Some i |>).
  destruct (some_other (minimized_panes t ++ [i]) (pane_ids_of t)) as (j & Hj & Hjm).
  { apply indices_nodup, H. }
  { rewrite length_app, panes_length. cbn. lia. }
  assert (Hvis : forall k, is_minimized k t1 = false <-> k ∉ minimized_panes t ++ [i]).
  { intros k. unfold is_minimized. change (minimized_panes t1) with (minimized_panes t ++ [i]). apply bool_decide_eq_false. }
  assert (Hreg : exists f, find (fun j => negb (is_minimized j t1)) (region_id <$> regions (layout t1)) = Some f).
  { apply (find_exists _ _ j); [|by apply negb_true_iff, Hvis].
    change (layout t1) with (layout t). rewrite regions_ids, (ok_layout _ _ H). done. }
  destruct Hreg as [g Hg]. change (focus_history t1) with (focus_history t).
  destruct (ok_history _ _ H) as (Hnd & Hsub). pose proof (ok_last _ _ H) as Hlast.
  destruct (find _ (rev (focus_history t))) as [f|] eqn:Ef; cbn [option_or].
  - exists f. destruct (find_elem _ _ _ Ef) as [Hf Hfp]. apply andb_true_iff in Hfp as [Hfi Hfm].
    rewrite elem_of_rev in Hf. apply negb_true_iff in Hfm.
    split_and!; try done; [by apply Hsub|by apply Hvis| |lia].
    intros Ha Ham. apply last_Some in Hlast as (l & Hl). rewrite Hl, rev_app_distr in Ef. cbn in Ef.
    rewrite (proj2 (Hvis (active_pane t))) in Ef by (intros [?|?%list_elem_of_singleton]%elem_of_app; done).
    apply Z.eqb_neq in Ha. rewrite Ha in Ef. by injection Ef as <-.
  - rewrite Hg. exists g. destruct (find_elem _ _ _ Hg) as [Hf Hfp]. apply negb_true_iff in Hfp.
    change (layout t1) with (layout t) in Hf. rewrite regions_ids, (ok_layout _ _ H) in Hf.
    split_and!; try done; [by apply Hvis| |lia].
    intros Ha Ham. exfalso. apply last_Some in Hlast as (l & Hl). rewrite Hl, rev_app_distr in Ef. cbn in Ef.
    rewrite (proj2 (Hvis (active_pane t))) in Ef by (intros [?|?%list_elem_of_singleton]%elem_of_app; done). apply Z.eqb_neq in Ha. by rewrite Ha in Ef.
Qed.

Lemma position_spec (i : Z) l : match position (fun j => j =? i) l with
  | Some k => l !! k = Some i /\ (NoDup l -> remove_at k l = filter (fun j => j <> i) l)
  | None => i ∉ l end.
Proof using Type.
  induction l as [|x l IH]; cbn [position]; [set_solver|]. destruct (Z.eqb_spec x i) as [->|Hne].
  - split; [done|]. intros [Hn Hnd]%NoDup_cons. rewrite filter_cons_False by tauto. unfold remove_at. cbn [take drop app].
    rewrite drop_0, filter_all; [done|]. by intros y Hy ->.
  - destruct (position _ l) as [k|]; cbn [fmap option_fmap option_map]; [|set_solver]. destruct IH as [Hk Hr].
    split; [done|]. intros [Hn Hnd]%NoDup_cons. rewrite filter_cons_True by done. unfold remove_at in *.
    cbn [take drop app]. f_equal. by apply Hr.
Qed.

Lemma restore_minimized_eq next t i : tab_ok next t ->
  (restore_minimized i t = Ok (t, false) /\ (i ∉ minimized_panes t)) \/
  exists sl mn, i ∈ minimized_panes t /\ mn = filter (fun j => j <> i) (minimized_panes t) /\ selects sl mn /\
    (selected_minimized_pane t <> Some i -> sl = selected_minimized_pane t) /\
    restore_minimized i t = Ok (activate_pane i (t <| maximized_pane := None |> <| minimized_panes := mn |>
                                  <| selected_minimized_pane := sl |>), true).
Proof using Type.
  intros H. unfold restore_minimized. pose proof (position_spec i (minimized_panes t)) as Hp.
  destruct (position _ _) as [k|]; [right|by left]. destruct Hp as [Hk Hr].
  rewrite Hr by apply H. set (mn := filter (fun j => j <> i) (minimized_panes t)).
  assert (Hin : i ∈ minimized_panes t) by by apply list_elem_of_lookup_2 in Hk. cbv zeta. tab_fields.
  case_bool_decide as Hs.
  - destruct mn as [|a mn'] eqn:Emn.
    + exists None, []. split_and!; try done. 
    + destruct (lookup_lt_is_Some_2 (a :: mn') (k mod length (a :: mn'))) as [j Hj];
        [apply Nat.mod_upper_bound; cbn; lia|].
      exists (Some j), (a :: mn'). rewrite Hj. split_and!; try done. by apply list_elem_of_lookup_2 in Hj.
  - destruct (repair_spec (t <| minimized_panes := mn |>)) as (sl & Hrs & Hsl).
    exists sl, mn. rewrite Hrs. split_and!; try done. intros _.
    apply (f_equal selected_minimized_pane) in Hrs. change (selected_minimized_pane (_ <| selected_minimized_pane := sl |>)) with sl in Hrs.
    rewrite <-Hrs. unfold repair_minimized_selection. tab_fields.
    pose proof (ok_selected _ _ H) as Hok. destruct (selected_minimized_pane t) as [j|] eqn:Ej.
    + unfold is_minimized. tab_fields. rewrite bool_decide_eq_true_2; [by tab_fields|].
      subst mn. apply list_elem_of_filter. split; [congruence|done].
    + by rewrite Hok in Hin; apply elem_of_nil in Hin.
Qed.

(** ** Opening and closing panes *)

Lemma insert_indices_lookup m kvs i k : NoDup (fst <$> kvs) ->
  insert_indices m kvs !! i = Some k <-> (i, k) ∈ kvs \/ (i ∉ fst <$> kvs) /\ m !! i = Some k.
Proof using Type.
  unfold insert_indices. induction kvs as [|[j v] kvs IH] using rev_ind; [set_solver|].
  rewrite fmap_app, NoDup_app. cbn [fmap list_fmap fst]. intros (Hnd & Hj & _). rewrite foldl_app. cbn [foldl fst snd].
  rewrite !elem_of_app, !list_elem_of_singleton. destruct (decide (j = i)) as [->|Hne].
  - rewrite lookup_insert_eq. split; [intros [= ->]; auto|]. intros [[Hin|[= ->]]|[Hn _]]; [|done|tauto].
    exfalso. apply (Hj i); [|by left]. apply list_elem_of_fmap. by exists (i, k).
  - rewrite lookup_insert_ne, IH by done. naive_solver.
Qed.

Lemma indexed_ids ps : fst <$> indexed ps = pane_id <$> ps.
Proof using Type.
  unfold indexed. apply list_eq. intros k. rewrite list_lookup_fmap, list_lookup_imap, list_lookup_fmap.
  by destruct (ps !! k).
Qed.
Lemma indexed_elem ps n i k : (i, k) ∈ drop n (indexed ps) <-> (n <= k)%nat /\ (pane_id <$> ps) !! k = Some i.
Proof using Type.
  rewrite list_elem_of_lookup. unfold indexed. setoid_rewrite lookup_drop. setoid_rewrite list_lookup_imap.
  rewrite list_lookup_fmap. split.
  - intros [j Hj]. destruct (ps !! (n + j)%nat) eqn:E; cbn in Hj; [|done]. injection Hj as <- <-.
    split; [lia|]. by rewrite E.
  - intros [Hn Hk]. exists (k - n)%nat. replace (n + (k - n))%nat with k by lia. by destruct (ps !! k); [injection Hk as <-|].
Qed.

Lemma lookup_remove_at (l : list Z) n k :
  remove_at n l !! k = if decide (k < n)%nat then l !! k else l !! S k.
Proof using Type.
  unfold remove_at. destruct (decide (k < n)%nat).
  - destruct (decide (k < length l)%nat).
    + rewrite lookup_app_l, lookup_take_lt; [done|lia|rewrite length_take; lia].
    + rewrite !lookup_ge_None_2; [done|lia|rewrite length_app, length_take, length_drop; lia].
  - destruct (decide (n <= length l)%nat).
    + rewrite lookup_app_r by (rewrite length_take; lia). rewrite length_take, lookup_drop. f_equal. lia.
    + rewrite !lookup_ge_None_2; [done|lia|rewrite length_app, length_take, length_drop; lia].
Qed.
Lemma fmap_remove_at ps n : pane_id <$> remove_at n ps = remove_at n (pane_id <$> ps).
Proof using Type. unfold remove_at. by rewrite fmap_app, fmap_take, fmap_drop. Qed.

Lemma remove_pane_eq t i : indices_ok t -> i ∈ pane_ids_of t ->
  exists m ps p, remove_pane i t = Ok (t <| pane_indices := m |> <| panes := ps |>, Some p) /\ pane_id p = i /\
    indices_ok (t <| pane_indices := m |> <| panes := ps |>) /\
    pane_id <$> ps = filter (fun j => j <> i) (pane_ids_of t).
Proof using Type.
  intros H Hi. pose proof (indices_nodup t H) as Hnd. apply list_elem_of_lookup in Hi as [n Hn].
  unfold remove_pane. rewrite (proj2 (H i n) Hn).
  assert (exists p, panes t !! n = Some p /\ pane_id p = i) as (p & Hp & Hpi).
  { unfold pane_ids_of in Hn. rewrite list_lookup_fmap in Hn. destruct (panes t !! n) as [p|]; [|done].
    exists p. by injection Hn. }
  rewrite Hp. cbn [expect mbind result_bind]. set (ps := remove_at n (panes t)).
  assert (Hids : pane_id <$> ps = remove_at n (pane_ids_of t)) by apply fmap_remove_at.
  assert (Hf : remove_at n (pane_ids_of t) = filter (fun j => j <> i) (pane_ids_of t)).
  { pose proof (position_spec i (pane_ids_of t)) as Hpos. destruct (position _ _) as [k|].
    - destruct Hpos as [Hk Hr]. rewrite <-Hr by done. f_equal. by apply (NoDup_lookup (pane_ids_of t) n k i).
    - by apply list_elem_of_lookup_2 in Hn. }
  eexists _, ps, p. split; [done|]. split; [done|]. split; [|by rewrite Hids].
  assert (Hnd' : NoDup (pane_id <$> ps)) by (rewrite Hids, Hf; by apply NoDup_filter).
  intros j k. unfold pane_ids_of. tab_fields. rewrite insert_indices_lookup.
  2: { rewrite fmap_drop, indexed_ids. rewrite <-(take_drop n (pane_id <$> ps)) in Hnd'. by apply NoDup_app in Hnd' as (_ & _ & ?). }
  rewrite indexed_elem.
  assert (Hkey : j ∉ fst <$> drop n (indexed ps) <-> forall k, (n <= k)%nat -> (pane_id <$> ps) !! k <> Some j).
  { rewrite list_elem_of_fmap. split.
    - intros Hno k' Hk' Hl. apply Hno. exists (j, k'). split; [done|]. by apply indexed_elem.
    - intros Hno ([j' k'] & -> & Hin). apply indexed_elem in Hin as [Hk' Hl]. by apply (Hno k'). }
  rewrite Hkey, lookup_delete_Some, (H j k). split.
  - intros [[_ Hk]|(Hno & Hne & Hk)]; [done|]. rewrite Hids, lookup_remove_at.
    destruct (decide (k < n)%nat); [done|]. exfalso. destruct (decide (k = n)) as [->|]; [congruence|].
    apply (Hno (k - 1)%nat); [lia|]. rewrite Hids, lookup_remove_at, decide_False by lia. by replace (S (k - 1)) with k by lia.
  - intros Hk. destruct (decide (n <= k)%nat); [by left|]. right. split; [|split].
    + intros k' Hk' Hl. pose proof (NoDup_lookup _ _ _ _ Hnd' Hk Hl). lia.
    + intros <-. apply list_elem_of_lookup_2 in Hk. rewrite Hids, Hf in Hk. by apply list_elem_of_filter in Hk as [? _].
    + rewrite Hids, lookup_remove_at, decide_True in Hk by lia. done.
Qed.

Lemma push_pane_ids p t : pane_ids_of (push_pane p t) = pane_ids_of t ++ [pane_id p].
Proof using Type.
  unfold push_pane, pane_ids_of. cbv zeta. tab_fields. rewrite fmap_app. by destruct (label_number p =? 0).
Qed.
Lemma push_pane_indices p t : indices_ok t -> pane_id p ∉ pane_ids_of t -> indices_ok (push_pane p t).
Proof using Type.
  intros H Hp i k. rewrite push_pane_ids, lookup_snoc_Some, panes_length.
  assert (Hix : pane_indices (push_pane p t) = <[pane_id p := length (panes t)]> (pane_indices t)).
  { unfold push_pane. cbv zeta. by destruct (label_number p =? 0). }
  rewrite Hix, lookup_insert_Some, (H i k). split.
  - intros [[<- <-]|[Hne Hk]]; [by right|left]. split; [|done]. apply lookup_lt_Some in Hk. by rewrite panes_length in Hk.
  - intros [[Hlt Hk]|[-> ->]]; [right|by left]. split; [|done]. intros Heq. apply Hp. rewrite Heq. by apply list_elem_of_lookup_2 in Hk.
Qed.

Lemma split_spec target new axis position l : target ∈ pane_ids l ->
  exists l', split target axis new position l = (l', true) /\ pane_ids l' ≡ₚ new :: pane_ids l /\ (ratios_ok l -> ratios_ok l').
Proof using Type.
  rewrite pane_ids_leaves. induction l as [j|a r f IHf s IHs]; cbn [leaves Layout.split].
  - intros ->%list_elem_of_singleton. rewrite Z.eqb_refl.
    destruct position; eexists; (split; [done|]); (split; [|by vm_compute]); [done|apply perm_swap].
  - destruct (decide (target ∈ leaves f)) as [Hf|Hf].
    + destruct (IHf Hf) as (f' & -> & Hp & Hr). intros _. eexists. split; [done|]. rewrite pane_ids_leaves in *.
      cbn [leaves ratios_ok]. rewrite Hp. split; [done|naive_solver].
    + intros Hin. rewrite split_absent by done. destruct IHs as (s' & -> & Hp & Hr); [set_solver|].
      eexists. split; [done|]. rewrite pane_ids_leaves in *. cbn [leaves ratios_ok]. rewrite Hp.
      split; [by rewrite Permutation_middle|naive_solver].
Qed.

Lemma split_pane_ok target axis position rest next t : tab_ok next t ->
  let '(next', t') := split_pane target axis position rest next t in
  (next' = next /\ t' = t) \/
  (next' = next + 1 /\ target ∈ pane_ids_of t /\ tab_ok next' t' /\ pane_ids_of t' = pane_ids_of t ++ [next] /\
   active_pane t' = next /\ maximized_pane t' = None /\ minimized_panes t' = minimized_panes t).
Proof using Type.
  intros H. unfold split_pane, can_add_panes. destruct (checked_add_u64 _ _) as [total|] eqn:Ec; [|by left].
  destruct (Z.leb_spec total MAX_PANES_PER_TAB) as [Hle|]; cbn [negb]; [|by left].
  case_bool_decide as Hp; [by left|]. cbv zeta.
  assert (Hin : target ∈ pane_ids_of t) by (apply pane_some; [apply H|by apply not_eq_None_Some]).
  destruct (split_spec target next axis position (layout t)) as (l' & Hs & Hl & Hr).
  { by rewrite (ok_layout _ _ H). }
  change (layout (t <| maximized_pane := None |>)) with (layout t). rewrite Hs. right.
  set (t1 := t <| maximized_pane := None |> <| layout := l' |>). set (p := new_pane next rest).
  assert (Hids : pane_ids_of (push_pane p t1) = pane_ids_of t ++ [next]) by (exact (push_pane_ids p t1)).
  assert (Hnew : next ∉ pane_ids_of t) by (intros Hn; apply (ok_fresh _ _ H) in Hn; lia).
  assert (Hok : body_ok (next + 1) (push_pane p t1)).
  { destruct H as [[Hix Hlay Hrat Hlim Hfr [Hh1 Hh2] [Hm1 Hm2] Hsv Hsel Hmx] Ha Hlast].
    constructor; rewrite ?Hids.
    - by apply push_pane_indices.
    - change (layout (push_pane p t1)) with l'. rewrite Hl, Hlay. by apply Permutation_cons_append.
    - by apply Hr.
    - rewrite <-panes_length, Hids, length_app, panes_length. cbn.
      unfold checked_add_u64 in Ec. destruct (_ <=? _) in Ec; [|done]. injection Ec as <-. lia.
    - intros j [Hj| ->%list_elem_of_singleton]%elem_of_app; [apply Hfr in Hj; lia|lia].
    - split; [done|]. change (focus_history (push_pane p t1)) with (focus_history t). set_solver.
    - split; [done|]. change (minimized_panes (push_pane p t1)) with (minimized_panes t). set_solver.
    - rewrite <-panes_length, Hids, length_app, panes_length. change (minimized_panes (push_pane p t1)) with (minimized_panes t). lia.
    - done.
    - done. }
  assert (Hn : next ∈ pane_ids_of (push_pane p t1)) by (rewrite Hids; set_solver).
  split_and!; try done; [by apply body_activate| | | |];
    rewrite activate_pane_eq by (done || apply Hok); done.
Qed.

(** A tab that has just lost a pane. *)
Record closing (next_pane_id closed : Z) (t : Tab) : Prop := {
  cl_indices : indices_ok t;
  cl_layout : pane_ids (layout t) ≡ₚ pane_ids_of t;
  cl_ratios : ratios_ok (layout t);
  cl_limit : Z.of_nat (length (panes t)) <= MAX_PANES_PER_TAB;
  cl_fresh : forall i, i ∈ pane_ids_of t -> i < next_pane_id;
  cl_closed : closed ∉ pane_ids_of t;
  cl_history : NoDup (focus_history t) /\ focus_history t ⊆ closed :: pane_ids_of t;
  cl_active : active_pane t ∈ closed :: pane_ids_of t;
  cl_last : last (focus_history t) = Some (active_pane t);
  cl_minimized : NoDup (minimized_panes t) /\ minimized_panes t ⊆ pane_ids_of t;
  cl_maximized : forall i, maximized_pane t = Some i -> i ∈ pane_ids_of t /\ i ∉ minimized_panes t;
}.

(** Once a survivor is shown, the tab is well-formed but for what remembers the
    closed pane. *)
Lemma restore_survivor_spec next closed t : closing next closed t ->
  exists t1, restore_survivor t = Ok t1 /\ closing next closed t1 /\ panes t1 = panes t /\
    (length (minimized_panes t1) < length (panes t1))%nat /\
    maximized_pane t1 = maximized_pane t /\ minimized_panes t1 ⊆ minimized_panes t /\
    (length (minimized_panes t) < length (panes t) -> t1 = t)%nat /\
    (length (minimized_panes t) = length (panes t) -> active_pane t1 ∈ pane_ids_of t /\ active_pane t1 ∉ minimized_panes t1)%nat.
Proof using Type.
  intros H. pose proof (ok := cl_minimized _ _ _ H). destruct ok as [Hnd Hsub].
  assert (Hle : (length (minimized_panes t) <= length (panes t))%nat).
  { rewrite <-panes_length. by apply submseteq_length, NoDup_submseteq. }
  assert (Hne : pane_ids_of t <> []).
  { intros He. pose proof (cl_layout _ _ _ H) as Hl. rewrite He, pane_ids_leaves in Hl.
    apply Permutation_nil_r in Hl. by apply leaves_ne in Hl. }
  unfold restore_survivor. fold (pane_ids_of t). rewrite bool_decide_eq_false_2 by done. cbv zeta. cbn [negb andb].
  rewrite panes_length. destruct (Nat.eqb_spec (length (panes t)) (length (minimized_panes t))) as [He|He].
  2: { exists t. split_and!; try done; try lia. }
  destruct (last (minimized_panes t)) as [r|] eqn:El.
  2: { apply last_None in El. rewrite El in He. destruct (panes t) eqn:Ep; [|done]. by rewrite <-Ep in *; destruct Hne; unfold pane_ids_of; rewrite Ep. }
  apply last_Some in El as (mn & Hmn). cbn [expect mbind result_bind]. rewrite Hmn, removelast_last.
  rewrite Hmn in Hnd, Hsub. apply NoDup_app in Hnd as (Hnd & Hr & _).
  assert (Hri : r ∈ pane_ids_of t) by (apply Hsub; set_solver).
  assert (Hix := cl_indices _ _ _ H). rewrite activate_pane_eq by done. eexists. split; [done|].
  destruct (cl_history _ _ _ H) as [Hh1 Hh2].
  destruct (activated_history (focus_history t) (closed :: pane_ids_of t) r) as (? & ? & ?); [done|done|set_solver|].
  split; [|split_and!; tab_fields; try done].
  - destruct H. constructor; tab_fields; try done; [set_solver|split; [done|set_solver]|].
    intros i Hi. destruct (cl_maximized0 i Hi) as [? Hni]. split; [done|]. rewrite Hmn in Hni. set_solver.
  - rewrite He, Hmn, length_app. cbn. lia.
  - set_solver.
  - intros Hlt. rewrite <-Hmn in Hlt. lia.
  - intros _. split; [done|]. intros Hx. apply (Hr r Hx). set_solver.
Qed.

Definition shown (i : Z) (t : Tab) : Prop :=
  match maximized_pane t with Some m => m = i | None => i ∉ minimized_panes t end.

Lemma last_filter (P : Z -> Prop) `{!forall x, Decision (P x)} l a : last l = Some a -> P a -> last (filter P l) = Some a.
Proof using Type.
  intros (k & ->)%last_Some Ha. rewrite filter_app, filter_cons_True by done. cbn. apply last_snoc.
Qed.

(** The fallbacks of [settle_focus] all name panes that survive. *)
Definition fallbacks (fallback : Z) (t : Tab) : Z :=
  default fallback
    (option_or (find (fun j => negb (is_minimized j t)) (rev (focus_history t)))
    (option_or (first_pane <$> visible_layout t)
    (option_or (selected_minimized_pane t) (head (pane_id <$> panes t))))).

Lemma visible_layout_shows next t l : body_ok next t -> visible_layout t = Some l ->
  first_pane l ∈ pane_ids_of t /\ shown (first_pane l) t.
Proof using Type.
  intros H. unfold visible_layout, shown. destruct (maximized_pane t) as [m|] eqn:Em.
  - intros (p & Hp & ->)%fmap_Some. split; [|done]. apply pane_some; [apply H|by exists p].
  - pose proof (first_pane_leaves l) as Hf. rewrite <-pane_ids_leaves in Hf.
    destruct (minimized_panes t) as [|a mn] eqn:Emn.
    + intros [= <-]. rewrite (ok_layout _ _ H) in Hf. set_solver.
    + intros Hw. pose proof (without_all_panes (list_to_set (a :: mn)) (layout t)) as Hs.
      rewrite Hw in Hs. destruct Hs as [Hs _]. rewrite Hs in Hf. apply list_elem_of_filter in Hf as [Hn Hf].
      rewrite (ok_layout _ _ H) in Hf. split; [done|]. by rewrite elem_of_list_to_set in Hn.
Qed.
Lemma visible_layout_some next t : body_ok next t -> is_Some (visible_layout t).
Proof using Type.
  intros H. unfold visible_layout. destruct (maximized_pane t) as [m|] eqn:Em.
  - apply (ok_maximized _ _ H) in Em as [Hm _]. apply pane_some in Hm as [p ->]; [by eexists|apply H].
  - destruct (minimized_panes t) as [|a mn] eqn:Emn; [by eexists|].
    pose proof (without_all_panes (list_to_set (a :: mn)) (layout t)) as Hs.
    destruct (without_all _ _) as [l|]; [by eexists|]. exfalso.
    destruct (some_other (a :: mn) (pane_ids_of t)) as (j & Hj & Hn).
    { apply indices_nodup, H. }
    { rewrite panes_length, <-Emn. apply H. }
    assert (Hx : j ∈ filter (fun id => id ∉ (list_to_set (a :: mn) : gset Z)) (pane_ids (layout t))).
    { apply list_elem_of_filter. rewrite elem_of_list_to_set, (ok_layout _ _ H). done. }
    rewrite Hs in Hx. by apply elem_of_nil in Hx.
Qed.

Lemma fallbacks_ok next fallback t : body_ok next t ->
  fallbacks fallback t ∈ pane_ids_of t /\ (maximized_pane t = None -> fallbacks fallback t ∉ minimized_panes t).
Proof using Type.
  intros H. unfold fallbacks. destruct (find _ (rev _)) as [f|] eqn:Ef; cbn [option_or default].
  - destruct (find_elem _ _ _ Ef) as [Hf Hfp]. rewrite elem_of_rev in Hf. split; [by apply H|].
    intros _. by apply negb_true_iff, bool_decide_eq_false in Hfp.
  - destruct (visible_layout_some _ _ H) as [l Hl]. rewrite Hl. cbn [fmap option_fmap option_map option_or default].
    destruct (visible_layout_shows _ _ _ H Hl) as [Hin Hs]. split; [done|]. intros Hm. unfold shown in Hs. by rewrite Hm in Hs.
Qed.

Lemma settled_body next closed t sl mx : closing next closed t -> (length (minimized_panes t) < length (panes t))%nat ->
  selects sl (minimized_panes t) -> mx = maximized_pane t \/ mx = None ->
  body_ok next (t <| selected_minimized_pane := sl |> <| maximized_pane := mx |>
    <| focus_history := filter (fun j => j <> closed /\ j ∈ pane_ids_of t) (focus_history t) |>).
Proof using Type.
  intros [] Hlt Hs Hmx. constructor; tab_fields; try done.
  - split; [apply NoDup_filter; tauto|]. intros x [[_ Hx] _]%list_elem_of_filter. done.
  - destruct Hmx as [->| ->]; done.
Qed.

Lemma all_minimized next closed t : closing next closed t ->
  (length (minimized_panes t) < length (panes t))%nat \/
  length (minimized_panes t) = length (panes t) /\ maximized_pane t = None.
Proof using Type.
  intros H. destruct (cl_minimized _ _ _ H) as [Hnd Hsub]. pose proof (panes_length t) as Hl.
  assert (Hle : (length (minimized_panes t) <= length (pane_ids_of t))%nat) by (by apply submseteq_length, NoDup_submseteq).
  destruct (decide (length (minimized_panes t) < length (panes t))%nat) as [|Hn]; [by left|right]. split; [lia|].
  destruct (maximized_pane t) as [m|] eqn:Em; [|done]. exfalso.
  destruct (cl_maximized _ _ _ H m Em) as [Hm Hmn].
  assert (length (m :: minimized_panes t) <= length (pane_ids_of t))%nat; [|cbn in *; lia].
  apply submseteq_length, NoDup_submseteq; [by apply NoDup_cons|]. set_solver.
Qed.

Lemma settle_focus_spec next closed fallback t : closing next closed t ->
  exists t', settle_focus closed fallback t = Ok t' /\ tab_ok next t' /\ panes t' = panes t /\
    minimized_panes t' ⊆ minimized_panes t /\
    ((active_pane t = closed -> maximized_pane t = None) -> (active_pane t <> closed -> shown (active_pane t) t) ->
       shown (active_pane t') t') /\
    (active_pane t = closed -> (length (minimized_panes t) < length (panes t))%nat -> forall f,
       find (fun j => negb (is_minimized j t))
         (rev (filter (fun j => j <> closed /\ j ∈ pane_ids_of t) (focus_history t))) = Some f ->
       active_pane t' = f).
Proof using Type.
  intros H0. destruct (restore_survivor_spec _ _ _ H0) as (t1 & Hr & H & Hps & Hlt & Hmx & Hmn & Hsame & Hall).
  unfold settle_focus. rewrite Hr. cbn [mbind result_bind]. cbv zeta.
  destruct (repair_spec t1) as (sl & -> & Hsl). change (panes (t1 <| selected_minimized_pane := sl |>)) with (panes t1).
  set (mx := if (length (panes t1) =? 1)%nat then None else maximized_pane t1).
  set (t2 := t1 <| selected_minimized_pane := sl |> <| maximized_pane := mx |>
    <| focus_history := filter (fun j => j <> closed /\ j ∈ pane_ids_of t1) (focus_history t1) |>).
  assert (Ht2 : (if (length (panes t1) =? 1)%nat then t1 <| selected_minimized_pane := sl |> <| maximized_pane := None |>
      else t1 <| selected_minimized_pane := sl |>)
      <| focus_history := filter (fun j => j <> closed /\ j ∈ pane_id <$> panes t1)
           (focus_history (if (length (panes t1) =? 1)%nat then t1 <| selected_minimized_pane := sl |> <| maximized_pane := None |>
              else t1 <| selected_minimized_pane := sl |>)) |> = t2).
  { subst t2 mx. by destruct (length (panes t1) =? 1)%nat. }
  rewrite Ht2. assert (Hb : body_ok next t2).
  { apply settled_body; try done. subst mx. destruct (_ =? 1)%nat; auto. }
  assert (Hmxa : (active_pane t = closed -> maximized_pane t = None) -> (active_pane t <> closed -> shown (active_pane t) t) ->
    forall m, mx = Some m -> t1 = t /\ m = active_pane t /\ m ∈ pane_ids_of t /\ (m ∉ minimized_panes t) /\ m <> closed).
  { intros Hc Hs m Hm. assert (Hm' : maximized_pane t = Some m) by (subst mx; destruct (_ =? 1)%nat; congruence).
    destruct (cl_maximized _ _ _ H0 m Hm'). destruct (all_minimized _ _ _ H0) as [|[_ ?]]; [|congruence].
    assert (m <> closed) by (intros ->; by apply (cl_closed _ _ _ H0)).
    split_and!; auto. destruct (decide (active_pane t = closed)) as [Ha|Ha]; [rewrite Hc in Hm'; done|].
    specialize (Hs Ha). unfold shown in Hs. by rewrite Hm' in Hs. }
  change (pane_id <$> panes t1) with (pane_ids_of t2). fold (fallbacks fallback t2).
  destruct (negb _ && _ && _) eqn:Eg.
  - apply andb_true_iff in Eg as [[Hac Has]%andb_true_iff Ham]. apply negb_true_iff in Hac, Ham.
    apply Z.eqb_neq in Hac. apply bool_decide_eq_true in Has. apply bool_decide_eq_false in Ham.
    exists t2. split; [done|]. split; [|split_and!; try done].
    + constructor; [done|done|]. apply last_filter; [apply H|done].
    + intros Hc Hs. unfold shown. change (maximized_pane t2) with mx. destruct mx as [m|] eqn:Em; [|done].
      destruct (Hmxa Hc Hs m eq_refl) as (-> & -> & _). done.
    + intros Hc Hl. destruct Hac. change (active_pane t2) with (active_pane t1). by rewrite (Hsame Hl).
  - destruct (fallbacks_ok _ fallback _ Hb) as [Hin Hvis]. eexists. split; [done|].
    split; [by apply body_activate|]. rewrite activate_pane_eq by (done || apply Hb).
    split_and!; tab_fields; try done.
    + intros Hc Hs. unfold shown. tab_fields. change (maximized_pane t2) with mx in *. destruct mx as [m|] eqn:Em; [|by apply Hvis].
      destruct (Hmxa Hc Hs m eq_refl) as (-> & -> & Hm & Hmn' & Hne). exfalso.
      apply Z.eqb_neq in Hne. change (active_pane t2) with (active_pane t) in Eg. rewrite Hne in Eg.
      change (pane_ids_of t2) with (pane_ids_of t) in Eg. rewrite bool_decide_eq_true_2 in Eg by done.
      unfold is_minimized in Eg. change (minimized_panes t2) with (minimized_panes t) in Eg.
      by rewrite bool_decide_eq_false_2 in Eg.
    + intros Hc Hl f Hf. assert (t1 = t) as -> by auto. unfold fallbacks.
      change (find _ (rev (focus_history t2))) with
        (find (fun j => negb (is_minimized j t)) (rev (filter (fun j => j <> closed /\ j ∈ pane_ids_of t) (focus_history t)))).
      by rewrite Hf.
Qed.

Lemma without_panes i l : match without i l with
  | Some l' => pane_ids l' = filter (fun j => j <> i) (pane_ids l) /\ (ratios_ok l -> ratios_ok l')
  | None => filter (fun j => j <> i) (pane_ids l) = []
  end.
Proof using Type.
  rewrite without_singleton. pose proof (without_all_panes {[i]} l) as H.
  assert (Hf : filter (fun id => id ∉ ({[i]} : gset Z)) (pane_ids l) = filter (fun j => j <> i) (pane_ids l)).
  { apply list_filter_iff. intros x. set_solver. }
  by rewrite Hf in H.
Qed.

Lemma filter_neq_fewer (i : Z) l : NoDup l -> i ∈ l -> length l = S (length (filter (fun j => j <> i) l)).
Proof using Type.
  intros Hnd Hi. pose proof (position_spec i l) as Hp. destruct (position _ l) as [k|]; [|done].
  destruct Hp as [Hk Hr]. rewrite <-Hr by done. unfold remove_at. rewrite length_app, length_take, length_drop.
  apply lookup_lt_Some in Hk. lia.
Qed.

Lemma forget_closed_closing next closed t m ps l : tab_ok next t -> closed ∈ pane_ids_of t ->
  let t1 := t <| pane_indices := m |> <| panes := ps |> <| layout := l |> in
  indices_ok t1 -> pane_ids_of t1 = filter (fun j => j <> closed) (pane_ids_of t) ->
  pane_ids l ≡ₚ pane_ids_of t1 -> ratios_ok l ->
  closing next closed (forget_closed closed t1) /\ panes (forget_closed closed t1) = ps /\
  active_pane (forget_closed closed t1) = active_pane t /\ focus_history (forget_closed closed t1) = focus_history t /\
  minimized_panes (forget_closed closed t1) = filter (fun j => j <> closed) (minimized_panes t) /\
  maximized_pane (forget_closed closed t1) = (if decide (maximized_pane t = Some closed) then None else maximized_pane t).
Proof using Type.
  intros H Hin t1 Hix Hids Hl Hr.
  assert (Hf : forall A (g : Tab -> A), (forall t x y, g (t <| renaming_pane := x |> <| rename_buffer := y |>) = g t) ->
      (forall t z, g (t <| maximized_pane := z |>) = g t) ->
      (forall t z, g (t <| minimized_panes := z |>) = g t) -> g (forget_closed closed t1) = g t1).
  { intros A g H1 H2 H3. unfold forget_closed. rewrite H3. case_bool_decide; case_bool_decide; by rewrite ?H2, ?H1. }
  assert (Hmn : minimized_panes (forget_closed closed t1) = filter (fun j => j <> closed) (minimized_panes t)).
  { unfold forget_closed. tab_fields. by repeat case_bool_decide. }
  assert (Hmx : maximized_pane (forget_closed closed t1) = (if decide (maximized_pane t = Some closed) then None else maximized_pane t)).
  { unfold forget_closed. destruct (decide (maximized_pane t = Some closed)) as [E|E]; repeat case_bool_decide; try done;
      match goal with Hx : context [maximized_pane] |- _ => by destruct Hx || by destruct E end. }
  assert (Hps : panes (forget_closed closed t1) = panes t1) by (by apply Hf).
  assert (Hids' : pane_ids_of (forget_closed closed t1) = pane_ids_of t1) by (unfold pane_ids_of; by rewrite Hps).
  assert (Ha : active_pane (forget_closed closed t1) = active_pane t1) by (by apply Hf).
  assert (Hh : focus_history (forget_closed closed t1) = focus_history t1) by (by apply Hf).
  split; [|by split_and!].
  assert (Hkeep : forall j, j ∈ pane_ids_of t -> j ∈ closed :: pane_ids_of t1).
  { intros j Hj. rewrite Hids. destruct (decide (j = closed)) as [->|]; [by left|right]. by apply list_elem_of_filter. }
  constructor; rewrite ?Hids', ?Ha, ?Hh, ?Hmn, ?Hmx.
  - intros j k. rewrite Hids'. rewrite (Hf _ pane_indices) by done. apply Hix.
  - rewrite (Hf _ layout) by done. exact Hl.
  - rewrite (Hf _ layout) by done. exact Hr.
  - rewrite <-panes_length, Hids', Hids. pose proof (length_filter (fun j => j <> closed) (pane_ids_of t)).
    rewrite panes_length in *. pose proof (ok_limit _ _ H). lia.
  - intros j Hj. rewrite Hids in Hj. apply list_elem_of_filter in Hj as [_ Hj]. by apply (ok_fresh _ _ H).
  - rewrite Hids. intros [Hx _]%list_elem_of_filter. done.
  - destruct (ok_history _ _ H) as [Hn Hs]. split; [done|]. intros j Hj. by apply Hkeep, Hs.
  - apply Hkeep. exact (ok_active _ _ H).
  - exact (ok_last _ _ H).
  - destruct (ok_minimized _ _ H) as [Hn Hs]. split; [by apply NoDup_filter|].
    intros j [Hne Hj]%list_elem_of_filter. rewrite Hids. apply list_elem_of_filter. split; [done|]. by apply Hs.
  - intros j Hj. destruct (decide (maximized_pane t = Some closed)) as [|Hne]; [done|].
    destruct (ok_maximized _ _ H j Hj). rewrite Hids, !list_elem_of_filter. split; [split; [congruence|done]|tauto].
Qed.

(** The pane focused when the active one closes: the last focused of those that
    are left and not minimized. *)
Definition next_focus (closed : Z) (t : Tab) : option Z :=
  find (fun j => bool_decide (j <> closed) && bool_decide (j ∈ pane_ids_of t) && negb (is_minimized j t))
    (rev (focus_history t)).

Lemma next_focus_find closed t t2 f : 
  focus_history t2 = focus_history t -> pane_ids_of t2 = filter (fun j => j <> closed) (pane_ids_of t) ->
  minimized_panes t2 = filter (fun j => j <> closed) (minimized_panes t) ->
  next_focus closed t = Some f ->
  find (fun j => negb (is_minimized j t2))
    (rev (filter (fun j => j <> closed /\ j ∈ pane_ids_of t2) (focus_history t2))) = Some f.
Proof using Type.
  intros -> Hids Hmn. unfold next_focus, is_minimized. rewrite Hmn.
  induction (focus_history t) as [|x h IH] using rev_ind; [done|].
  rewrite filter_app, !rev_app_distr. cbn [rev app find].
  destruct (decide (x <> closed /\ x ∈ pane_ids_of t)) as [[Hne Hx]|Hno].
  - rewrite filter_cons_True by (rewrite Hids, list_elem_of_filter; tauto). rewrite !bool_decide_eq_true_2 by done.
    cbn [rev app find andb filter list_filter]. 
    rewrite (bool_decide_ext (x ∈ filter (fun j => j <> closed) (minimized_panes t)) (x ∈ minimized_panes t))
      by (rewrite list_elem_of_filter; tauto).
    by case_bool_decide.
  - rewrite filter_cons_False by (rewrite Hids, list_elem_of_filter; tauto). cbn [rev app].
    assert (bool_decide (x <> closed) && bool_decide (x ∈ pane_ids_of t) = false) as ->; [|done].
    apply andb_false_iff. destruct (decide (x = closed)); [left; by apply bool_decide_eq_false_2; intros []|right].
    apply bool_decide_eq_false_2. tauto.
Qed.

Lemma close_pane_eq next i t : tab_ok next t ->
  (close_pane i t = Ok (Some t) /\ (i ∉ pane_ids_of t)) \/
  (close_pane i t = Ok None /\ pane_ids_of t = [i]) \/
  exists t', close_pane i t = Ok (Some t') /\ i ∈ pane_ids_of t /\ tab_ok next t' /\
    pane_ids_of t' = filter (fun j => j <> i) (pane_ids_of t) /\
    minimized_panes t' ⊆ minimized_panes t /\
    (shown (active_pane t) t -> shown (active_pane t') t') /\
    (active_pane t = i -> forall f, next_focus i t = Some f -> active_pane t' = f).
Proof using Type.
  intros H. unfold close_pane. pose proof (indices_nodup t (ok_indices _ _ H)) as Hnd.
  destruct (existsb _ _) eqn:Ee; cbn [negb].
  2: { left. split; [done|]. intros (p & -> & Hp)%list_elem_of_fmap. apply not_true_iff_false in Ee. apply Ee.
       apply existsb_exists. exists p. split; [by apply list_elem_of_In|lia]. }
  right. assert (Hi : i ∈ pane_ids_of t).
  { apply existsb_exists in Ee as (p & Hp & Hpi). apply list_elem_of_fmap. exists p. split; [lia|by apply list_elem_of_In]. }
  destruct (Nat.eqb_spec (length (panes t)) 1) as [Hone|Hmany].
  { left. split; [done|]. rewrite <-panes_length in Hone. destruct (pane_ids_of t) as [|a [|b l]]; try done. set_solver. }
  right. destruct (remove_pane_eq t i) as (m & ps & p & -> & _ & Hix & Hids); [apply H|done|].
  cbn [mbind result_bind]. change (layout (t <| pane_indices := m |> <| panes := ps |>)) with (layout t).
  pose proof (without_panes i (layout t)) as Hw.
  assert (Hperm : filter (fun j => j <> i) (pane_ids (layout t)) ≡ₚ filter (fun j => j <> i) (pane_ids_of t))
    by (by rewrite (ok_layout _ _ H)).
  pose proof (filter_neq_fewer i _ Hnd Hi) as Hlen.
  destruct (without i (layout t)) as [l|].
  2: { exfalso. rewrite Hw in Hperm. apply Permutation_nil_l in Hperm. rewrite <-Hperm, panes_length in Hlen. by apply Hmany. }
  destruct Hw as [Hl Hr]. set (t1 := t <| pane_indices := m |> <| panes := ps |> <| layout := l |>).
  destruct (forget_closed_closing next i t m ps l H Hi) as (Hc & Hps & Ha & Hh & Hmn & Hmx).
  { exact Hix. } { exact Hids. } { unfold pane_ids_of. tab_fields. by rewrite Hids, Hl. } { apply Hr, H. }
  fold t1 in Hc, Hps, Ha, Hh, Hmn, Hmx.
  unfold restore_focus_after_close. destruct (settle_focus_spec next i (first_pane l) (forget_closed i t1) Hc) as (t' & -> & Hok & Hps' & Hmn' & Hv & Hf).
  exists t'. split; [done|]. split; [done|]. split; [done|].
  assert (Hids' : pane_ids_of (forget_closed i t1) = filter (fun j => j <> i) (pane_ids_of t))
    by (unfold pane_ids_of; by rewrite Hps).
  split; [unfold pane_ids_of; by rewrite Hps', Hps|]. rewrite Ha, Hmx in Hv. rewrite Ha in Hf. split_and!.
  - rewrite Hmn in Hmn'. intros j Hj. apply Hmn', list_elem_of_filter in Hj. tauto.
  - intros Hs. apply Hv.
    + intros Ha'. destruct (decide (maximized_pane t = Some i)) as [|Hne]; [done|]. unfold shown in Hs.
      destruct (maximized_pane t); [congruence|done].
    + intros Hne. unfold shown in *. rewrite Hmx, Hmn.
      destruct (maximized_pane t) as [k|]; [subst k; by rewrite decide_False by congruence|].
      rewrite decide_False by done. rewrite list_elem_of_filter. tauto.
  - intros Hai f Hnf. apply Hf; [done| |by apply (next_focus_find i t)].
    rewrite Hmn, <-panes_length, Hids'. destruct (ok_minimized _ _ H) as [Hmnd Hsub].
    pose proof (ok_some_visible _ _ H) as Hsv. rewrite <-panes_length in Hsv.
    destruct (decide (i ∈ minimized_panes t)) as [Him|Him].
    + pose proof (filter_neq_fewer i _ Hmnd Him). lia.
    + unfold next_focus in Hnf. destruct (find_elem _ _ _ Hnf) as [_ Hfp].
      rewrite !andb_true_iff, !bool_decide_eq_true, negb_true_iff in Hfp. destruct Hfp as [[Hfi Hfin] Hfm].
      apply bool_decide_eq_false in Hfm.
      assert (Hle : (length (f :: filter (fun j => j <> i) (minimized_panes t)) <= length (filter (fun j => j <> i) (pane_ids_of t)))%nat).
      { apply submseteq_length, NoDup_submseteq.
        - apply NoDup_cons. rewrite list_elem_of_filter. split; [tauto|by apply NoDup_filter].
        - intros x. rewrite elem_of_cons, !list_elem_of_filter. intros [->|[? Hx]]; [done|]. split; [done|]. by apply Hsub. }
      cbn in Hle. lia.
Qed.

(** ** Every operation *)

Lemma tab_ok_layout next t l : tab_ok next t -> pane_ids l ≡ₚ pane_ids (layout t) -> ratios_ok l ->
  tab_ok next (t <| layout := l |>).
Proof using Type. intros [[]] Hl Hr. constructor; [constructor|..]; tab_fields; try done. by etrans. Qed.

Lemma tab_ok_update_stack next t i g : tab_ok next t ->
  (forall p, pane_id (g p) = pane_id p) -> tab_ok next (update_pane i g t).
Proof using Type.
  intros H Hg. unfold update_pane. destruct (pane_indices t !! i) as [k|]; [|done].
  assert (Hids : pane_id <$> alter g k (panes t) = pane_id <$> panes t).
  { apply list_eq. intros j. rewrite !list_lookup_fmap. destruct (decide (j = k)) as [->|].
    - rewrite list_lookup_alter_eq. destruct (panes t !! k); [|done]. cbn. by rewrite Hg.
    - by rewrite list_lookup_alter_ne. }
  assert (Hlen : length (alter g k (panes t)) = length (panes t)) by apply length_alter.
  destruct H as [[]]. constructor; [constructor|..]; unfold indices_ok, pane_ids_of in *; tab_fields; rewrite ?Hids, ?Hlen; done.
Qed.

Lemma tab_ok_activate_stack_entry next t i entry : tab_ok next t -> tab_ok next (activate_stack_entry i entry t).
Proof using Type.
  intros H. unfold activate_stack_entry. destruct (pane i t); [|done]. destruct (snd _); [|done].
  apply tab_ok_activate. by apply tab_ok_update_stack.
Qed.

Lemma filter_subset (P : Z -> Prop) `{!forall x, Decision (P x)} (l k : list Z) : l ⊆ k -> filter P l ⊆ k.
Proof using Type. intros Hlk x [_ Hx]%list_elem_of_filter. by apply Hlk. Qed.

Lemma tab_ok_toggle next t i : tab_ok next t -> tab_ok next (fst (toggle_maximize i t)).
Proof using Type.
  intros H. destruct (toggle_maximize_eq next t i H) as [[-> _]|(sl & mn & Hi & Hmn & Hs & ->)]; [done|]. cbn [fst].
  apply body_activate; [|done]. subst mn. apply tab_ok_view; try done.
  - apply NoDup_filter, H.
  - apply filter_subset, H.
  - pose proof (length_filter (fun j => j <> i) (minimized_panes t)). pose proof (ok_some_visible _ _ H). lia.
  - intros j. destruct (decide _); [done|]. intros [= <-]. split; [done|]. rewrite list_elem_of_filter. tauto.
Qed.

Lemma tab_ok_minimize next t i : tab_ok next t -> exists t' b, minimize i t = Ok (t', b) /\ tab_ok next t'.
Proof using Type.
  intros H. destruct (minimize_eq next t i H) as [[-> _]|(f & Hi & Him & Hf & Hfm & _ & Hlt & ->)]; [by eauto|].
  eexists _, _. split; [done|]. apply body_activate; [|done]. destruct (ok_minimized _ _ H) as [Hnd Hsub].
  apply tab_ok_view; try done.
  - apply NoDup_app. split; [done|]. split; [set_solver|apply NoDup_singleton].
  - intros x [Hx| ->%list_elem_of_singleton]%elem_of_app; [by apply Hsub|done].
  - rewrite length_app. cbn. lia.
  - cbn. set_solver.
Qed.

Lemma tab_ok_restore next t i : tab_ok next t -> exists t' b, restore_minimized i t = Ok (t', b) /\ tab_ok next t'.
Proof using Type.
  intros H. destruct (restore_minimized_eq next t i H) as [[-> _]|(sl & mn & Hi & Hmn & Hs & _ & ->)]; [by eauto|].
  eexists _, _. split; [done|]. destruct (ok_minimized _ _ H) as [Hnd Hsub].
  apply body_activate; [|by apply Hsub]. subst mn. apply tab_ok_view; try done.
  - by apply NoDup_filter.
  - by apply filter_subset.
  - pose proof (length_filter (fun j => j <> i) (minimized_panes t)). pose proof (ok_some_visible _ _ H). lia.
Qed.

Lemma restore_last_eq next t : tab_ok next t ->
  (minimized_panes t = [] /\ restore_last_minimized t = Ok (t, false)) \/
  exists i, i ∈ minimized_panes t /\ restore_last_minimized t = restore_minimized i t.
Proof using Type.
  intros H. unfold restore_last_minimized. pose proof (ok_selected _ _ H) as Hs.
  destruct (selected_minimized_pane t) as [i|]; cbn [selects] in Hs.
  - right. exists i. split; [done|]. cbn [mbind option_bind]. unfold is_minimized. by rewrite bool_decide_eq_true_2.
  - left. by rewrite Hs.
Qed.

Lemma select_adjacent_eq next forward t : tab_ok next t ->
  exists sl b, select_adjacent_minimized forward t = Ok (t <| selected_minimized_pane := sl |>, b) /\
    selects sl (minimized_panes t).
Proof using Type.
  intros H. unfold select_adjacent_minimized. destruct (minimized_panes t) as [|a mn] eqn:Em; [by exists None, false|].
  rewrite <-Em. set (current := i ← selected_minimized_pane t; _).
  assert (Hc : match current with Some k => (k < length (minimized_panes t))%nat | None => True end).
  { subst current. destruct (selected_minimized_pane t) as [i|]; [|done]. cbn [mbind option_bind].
    pose proof (position_spec i (minimized_panes t)) as Hp. destruct (position _ _); [|done].
    destruct Hp as [Hp _]. by apply lookup_lt_Some in Hp. }
  assert (Hpos : (0 < length (minimized_panes t))%nat) by (rewrite Em; cbn; lia). cbv zeta.
  set (index := match current with Some _ => _ | None => _ end).
  assert (Hi : (index < length (minimized_panes t))%nat).
  { subst index. destruct current as [[|k]|], forward; try apply Nat.mod_upper_bound; lia. }
  apply lookup_lt_is_Some_2 in Hi as [j Hj]. rewrite Hj. exists (Some j), true. split; [done|].
  cbn. by apply list_elem_of_lookup_2 in Hj.
Qed.

Lemma run_ok o next t : tab_ok next t ->
  exists next' t', run o next t = Ok (next', t') /\ next <= next' /\
    match t' with Some t' => tab_ok next' t' | None => True end.
Proof using Type.
  intros H. destruct o as [target axis position rest|i|d|i entry|i|i|i| |forward|d|d|dragged target]; cbn [run].
  - pose proof (split_pane_ok target axis position rest next t H) as Hs. destruct (split_pane _ _ _ _ _ _) as [next' t'].
    eexists _, _. split; [done|]. destruct Hs as [[-> ->]|(-> & _ & Hok & _)]; (split; [lia|done]).
  - destruct (close_pane_eq next i t H) as [[-> _]|[[-> _]|(t' & -> & _ & Hok & _)]]; eexists _, _; (split; [done|]);
      (split; [lia|done]).
  - eexists _, _. split; [done|]. split; [lia|]. unfold focus_pane. case_bool_decide; [done|].
    destruct (visible_layout t ≫= _); [by apply tab_ok_activate|done].
  - eexists _, _. split; [done|]. split; [lia|]. by apply tab_ok_activate_stack_entry.
  - eexists _, _. split; [done|]. split; [lia|]. by apply tab_ok_toggle.
  - destruct (tab_ok_minimize next t i H) as (t' & b & -> & Hok). eexists _, _. split; [done|]. split; [lia|done].
  - destruct (tab_ok_restore next t i H) as (t' & b & -> & Hok). eexists _, _. split; [done|]. split; [lia|done].
  - destruct (restore_last_eq next t H) as [[_ ->]|(i & _ & ->)].
    + eexists _, _. split; [done|]. split; [lia|done].
    + destruct (tab_ok_restore next t i H) as (t' & b & -> & Hok). eexists _, _. split; [done|]. split; [lia|done].
  - destruct (select_adjacent_eq next forward t H) as (sl & b & -> & Hs). eexists _, _. split; [done|]. split; [lia|].
    destruct H as [[]]. constructor; [constructor|..]; tab_fields; done.
  - eexists _, _. split; [done|]. split; [lia|]. unfold move_active_pane. case_bool_decide; [done|].
    destruct (move_pane_panes (active_pane t) d (layout t)) as [Hp Hr]. apply tab_ok_layout; auto. apply Hr, H.
  - eexists _, _. split; [done|]. split; [lia|]. unfold rotate_pane_layout.
    destruct (rotate_pane_panes (active_pane t) d (layout t)) as [Hp Hr]. apply tab_ok_layout; auto. apply Hr, H.
  - eexists _, _. split; [done|]. split; [lia|]. unfold drop_pane. destruct (_ || _); [done|].
    assert (Hnd : NoDup (pane_ids (layout t))) by (rewrite (ok_layout _ _ H); apply indices_nodup, H).
    destruct (swap_panes_panes dragged target (layout t) Hnd) as [Hp Hr]. destruct (swap_panes _ _ _) as [l [|]]; [|done].
    apply tab_ok_activate, tab_ok_layout; auto. apply Hr, H.
Qed.

Lemma new_tab_ok tab_id i (rest : PaneRest) (tab_rest : TabRest) next : i < next -> tab_ok next (new_tab tab_id i rest tab_rest).
Proof using Type.
  intros Hi. constructor; [constructor|..]; unfold new_tab; tab_fields; try done; unfold pane_ids_of; tab_fields.
  - intros j k. unfold pane_ids_of. cbn. rewrite lookup_singleton_Some, list_lookup_singleton_Some. naive_solver.
  - cbn. set_solver.
  - cbn. split; [apply NoDup_singleton|set_solver].
  - cbn. split; [apply NoDup_nil_2|set_solver].
  - cbn. lia.
  - cbn. set_solver.
Qed.

Lemma run_all_ok ops next t : tab_ok next t ->
  exists next' t', run_all ops next t = Ok (next', t') /\ next <= next' /\
    match t' with Some t' => tab_ok next' t' | None => True end.
Proof using Type.
  revert next t. induction ops as [|o ops IH]; intros next t H; cbn [run_all].
  - eexists _, _. split; [done|]. by split; [lia|].
  - destruct (run_ok o next t H) as (next' & t' & -> & Hn & Ht). cbn [mbind result_bind].
    destruct t' as [t'|]; [|eexists _, _; split; [done|]; by split; [lia|]].
    destruct (IH next' t' Ht) as (n2 & t2 & -> & Hn2 & H2). eexists _, _. split; [done|]. split; [lia|done].
Qed.

(** C20. Whatever a window asks of a tab, in any order, from its creation on
    (panes split, closed, focused, activated, moved, swapped, rotated,
    maximized, minimized, restored), no call fails: no lookup, removal or
    expectation of the code is out of place.  As long as the tab is open its
    layout holds each of its panes exactly once with ratios between 1 and 999,
    the index finds every pane where it is, there are at most 64, the active
    pane is one of them and the last of the focus history, the minimized panes
    are distinct panes of the tab with the selected one among them, some pane
    is not minimized, and the maximized pane is one that is not. *)
Theorem tab_operations_keep_tab_well_formed (tab_id first : Z) (rest : PaneRest) (tab_rest : TabRest) (next : Z) (ops : list Op) :
  first < next ->
  exists next' t', run_all ops next (new_tab tab_id first rest tab_rest) = Ok (next', t') /\ next <= next' /\
    match t' with Some t' => tab_ok next' t' | None => True end.
Proof using Type.
  intros Hf. by apply run_all_ok, new_tab_ok.
Qed.

(** A window activates, and drags, panes the user sees. *)
Definition asked_of_shown (o : Op) (t : Tab) : Prop :=
  match o with
  | OpActivate i _ => shown i t
  | OpDrop dragged _ => shown dragged t
  | _ => True
  end.

Lemma activate_shown t i : shown i t -> shown (active_pane t) t -> shown (active_pane (activate_pane i t)) (activate_pane i t).
Proof using Type. unfold activate_pane, shown. by destruct (pane i t). Qed.

Lemma shown_visible next t : tab_ok next t -> pane_is_visible (active_pane t) t = true <-> shown (active_pane t) t.
Proof using Type. intros H. rewrite (visible_iff next) by done. pose proof (ok_active _ _ H). unfold shown. tauto. Qed.

Lemma visible_layout_panes next t : tab_ok next t ->
  exists l, visible_layout t = Some l /\ forall i, i ∈ pane_ids l <-> pane_is_visible i t = true.
Proof using Type.
  intros H. destruct (visible_layout_some next t H) as [l Hl]. exists l. split; [done|]. intros i.
  rewrite (visible_iff next) by done. unfold visible_layout in Hl.
  destruct (maximized_pane t) as [m|] eqn:Em.
  - apply fmap_Some in Hl as (p & Hp & ->). cbn. rewrite list_elem_of_singleton.
    destruct (ok_maximized _ _ H m Em). naive_solver.
  - rewrite <-(ok_layout _ _ H). destruct (minimized_panes t) as [|a mn] eqn:Emn.
    + injection Hl as <-. set_solver.
    + pose proof (without_all_panes (list_to_set (a :: mn)) (layout t)) as Hs. rewrite Hl in Hs. destruct Hs as [-> _].
      rewrite list_elem_of_filter, elem_of_list_to_set. tauto.
Qed.

Lemma focus_pane_shown next t d : tab_ok next t -> shown (active_pane t) t ->
  shown (active_pane (focus_pane d t)) (focus_pane d t).
Proof using Type.
  intros H Hs. unfold focus_pane. case_bool_decide as Hm; [done|].
  destruct (visible_layout t ≫= _) as [i|] eqn:E; [|done]. apply activate_shown; [|done].
  destruct (visible_layout_panes next t H) as (l & Hl & Hvis). rewrite Hl in E. cbn [mbind option_bind] in E.
  apply adjacent_pane_elem, Hvis, (visible_iff next) in E; tauto.
Qed.

Lemma restore_shown next next' i t t' : tab_ok next t -> shown (active_pane t) t ->
  pair next <$> kept (restore_minimized i t) = Ok (next', Some t') -> shown (active_pane t') t'.
Proof using Type.
  intros H Hs. destruct (restore_minimized_eq next t i H) as [[-> _]|(sl & mn & Hi & Hmn & _ & _ & ->)]; cbn;
    intros [= <- <-]; [done|]. assert (i ∈ pane_ids_of t) by by apply (ok_minimized _ _ H).
  rewrite activate_pane_eq by (done || apply H). unfold shown. tab_fields. subst mn. rewrite list_elem_of_filter. tauto.
Qed.

Lemma run_shown o next t next' t' : tab_ok next t -> shown (active_pane t) t -> asked_of_shown o t ->
  run o next t = Ok (next', Some t') -> shown (active_pane t') t'.
Proof using Type.
  intros H Hs Ha. destruct o as [target axis position rest|i|d|i entry|i|i|i| |forward|d|d|dragged target]; cbn [run asked_of_shown] in *.
  - pose proof (split_pane_ok target axis position rest next t H) as Hp. destruct (split_pane _ _ _ _ _ _) as [n2 t2].
    intros [= <- <-]. destruct Hp as [[_ ->]|(-> & _ & Hok & _ & Hact & Hmx & Hmn)]; [done|].
    unfold shown. rewrite Hmx, Hact, Hmn. intros Hin. apply (ok_minimized _ _ H), (ok_fresh _ _ H) in Hin. lia.
  - destruct (close_pane_eq next i t H) as [[-> _]|[[-> _]|(t2 & -> & _ & _ & _ & _ & Hv & _)]]; cbn; intros [= <- <-]; auto.
  - intros [= <- <-]. by apply (focus_pane_shown next).
  - intros [= <- <-]. unfold activate_stack_entry. destruct (pane i t); [|done]. destruct (snd _); [|done].
    apply activate_shown; unfold shown in *; unfold update_pane; destruct (pane_indices t !! i); done.
  - intros [= <- <-]. destruct (toggle_maximize_eq next t i H) as [[-> _]|(sl & mn & Hi & Hmn & _ & ->)]; [done|]. cbn [fst].
    rewrite activate_pane_eq by (done || apply H). unfold shown. tab_fields. destruct (decide _); [|done].
    subst mn. rewrite list_elem_of_filter. tauto.
  - destruct (minimize_eq next t i H) as [[-> _]|(f & Hi & Him & Hf & Hfm & _ & Hlt & ->)]; cbn; intros [= <- <-]; [done|].
    rewrite activate_pane_eq by (done || apply H). done.
  - apply (restore_shown next). 1-2: done.
  - destruct (restore_last_eq next t H) as [[_ ->]|(i & _ & ->)]; [by cbn; intros [= <- <-]|]. by apply (restore_shown next).
  - destruct (select_adjacent_eq next forward t H) as (sl & b & -> & _). cbn. by intros [= <- <-].
  - intros [= <- <-]. unfold move_active_pane. by case_bool_decide.
  - by intros [= <- <-].
  - intros [= <- <-]. unfold drop_pane. destruct (_ || _); [done|]. destruct (swap_panes _ _ _) as [l [|]]; [|done].
    by apply activate_shown.
Qed.

(** A tab whose active pane is shown keeps showing it, whatever the window
    asks of it as long as it activates and drags panes the user sees: a new
    pane is shown and focused, focus moves only to panes that are shown, and
    maximizing, minimizing, restoring or closing a pane moves the focus with
    what is shown.  What is shown is a layout of exactly the visible panes. *)
Theorem active_pane_stays_visible (o : Op) (next next' : Z) (t t' : Tab) :
  tab_ok next t -> pane_is_visible (active_pane t) t = true -> asked_of_shown o t ->
  run o next t = Ok (next', Some t') ->
  pane_is_visible (active_pane t') t' = true /\
  exists l, visible_layout t' = Some l /\ active_pane t' ∈ pane_ids l /\
    forall i, i ∈ pane_ids l <-> pane_is_visible i t' = true.
Proof using Type.
  intros H Hv Ha Hr. apply (shown_visible next) in Hv; [|done].
  destruct (run_ok o next t H) as (n2 & t2 & Hr2 & _ & Hok). rewrite Hr in Hr2. injection Hr2 as <- <-.
  assert (Hv' : pane_is_visible (active_pane t') t' = true) by (apply (shown_visible next'); [done|by apply (run_shown o next t next' t')]).
  split; [done|]. destruct (visible_layout_panes next' t' Hok) as (l & Hl & Hvis). exists l.
  split_and!; [done|by apply Hvis|done].
Qed.

(** ** Maximizing, minimizing and closing, undone and followed *)

(** Minimizing a pane hides it and moves the focus to a pane that is left
    (the active pane keeps it if it is shown and another one); restoring the
    last minimized pane then brings back the same panes, with that pane
    focused.  Maximizing a pane shows it alone, and toggling it again leaves it
    among the others. *)
Theorem minimize_and_maximize_undone (next i : Z) (t : Tab) :
  tab_ok next t ->
  (forall t1, minimize i t = Ok (t1, true) ->
     pane_is_visible i t1 = false /\ active_pane t1 <> i /\ (active_pane t1 ∉ minimized_panes t1) /\
     (active_pane t <> i -> active_pane t ∉ minimized_panes t -> active_pane t1 = active_pane t) /\
     exists t2, restore_last_minimized t1 = Ok (t2, true) /\ active_pane t2 = i /\
       minimized_panes t2 = minimized_panes t /\ layout t2 = layout t /\ panes t2 = panes t /\ maximized_pane t2 = None) /\
  (forall t1, toggle_maximize i t = (t1, true) -> maximized_pane t <> Some i ->
     visible_layout t1 = Some (Pane i) /\ active_pane t1 = i /\ layout t1 = layout t /\
     exists t2, toggle_maximize i t1 = (t2, true) /\ maximized_pane t2 = None /\ active_pane t2 = i /\
       layout t2 = layout t /\ minimized_panes t2 = filter (fun j => j <> i) (minimized_panes t)).
Proof using Type.
  intros H. split; intros t1 Ht1.
  - pose proof (tab_ok_minimize next t i H) as (t' & b & Hm & Hok). rewrite Hm in Ht1. injection Ht1 as -> ->.
    destruct (minimize_eq next t i H) as [[Hm' _]|(f & Hi & Him & Hf & Hfm & Hfa & Hlt & Hm')]; rewrite Hm in Hm'; [done|].
    injection Hm' as Ht1. rewrite activate_pane_eq in Ht1 by (done || apply H).
    assert (Hsel : selected_minimized_pane t1 = Some i) by (by rewrite Ht1).
    assert (Hmn : minimized_panes t1 = minimized_panes t ++ [i]) by (by rewrite Ht1).
    assert (Hact : active_pane t1 = f) by (by rewrite Ht1).
    split_and!.
    + apply not_true_iff_false. rewrite (visible_iff next) by done. intros [_ Hs]. rewrite Hmn in Hs.
      rewrite (f_equal maximized_pane Ht1) in Hs. tab_fields. apply Hs. apply elem_of_app. right. by left.
    + rewrite Hact. intros ->. apply Hfm. set_solver.
    + by rewrite Hact, Hmn.
    + intros Ha Ham. rewrite Hact. auto.
    + destruct (restore_minimized_eq next t1 i Hok) as [[_ Hno]|(sl & mn & Hi1 & Hmn1 & Hs & _ & Hr)].
      { exfalso. apply Hno. rewrite Hmn. set_solver. }
      assert (Hlast : restore_last_minimized t1 = restore_minimized i t1).
      { unfold restore_last_minimized. rewrite Hsel. cbn [mbind option_bind]. unfold is_minimized.
        by rewrite bool_decide_eq_true_2. }
      rewrite Hlast, Hr. assert (Hi' : i ∈ pane_ids_of t1) by (by apply (ok_minimized _ _ Hok)).
      rewrite activate_pane_eq by (done || apply Hok). eexists. split; [done|]. tab_fields.
      split_and!; try done; [|by rewrite Ht1|by rewrite Ht1].
      rewrite Hmn1, Hmn, filter_app, filter_cons_False, app_nil_r by tauto. apply filter_all. by intros x Hx ->.
  - intros Hmx. pose proof (tab_ok_toggle next t i H) as Hok. rewrite Ht1 in Hok. cbn [fst] in Hok.
    destruct (toggle_maximize_eq next t i H) as [[Hm' _]|(sl & mn & Hi & Hmn & Hs & Hm')]; rewrite Ht1 in Hm'; [done|].
    rewrite decide_False in Hm' by done. injection Hm' as Ht1'. rewrite activate_pane_eq in Ht1' by (done || apply H).
    assert (Hmax : maximized_pane t1 = Some i) by (by rewrite Ht1').
    assert (Hi1 : i ∈ pane_ids_of t1) by (by rewrite Ht1'). split_and!.
    + unfold visible_layout. rewrite Hmax. apply pane_some in Hi1 as [p ->]; [done|apply Hok].
    + by rewrite Ht1'.
    + by rewrite Ht1'.
    + destruct (toggle_maximize_eq next t1 i Hok) as [[_ [Hno|[Hno _]]]|(sl2 & mn2 & _ & Hmn2 & _ & ->)]; [done|done|].
      rewrite activate_pane_eq by (done || apply Hok). eexists. split; [done|]. tab_fields. rewrite decide_True by done.
      split_and!; try done; [by rewrite Ht1'|]. rewrite Hmn2, (f_equal minimized_panes Ht1'). tab_fields. subst mn.
      rewrite filter_all; [done|]. intros x [Hx _]%list_elem_of_filter. done.
Qed.

(** Closing a pane removes that pane and no other, from the tab and from
    its layout; a tab closes with its last pane.  If it was active the focus
    goes to the pane focused most recently of those that are left and not
    minimized, if there is one. *)
Theorem closing_returns_focus (next i : Z) (t : Tab) :
  tab_ok next t ->
  match close_pane i t with
  | Ok None => pane_ids_of t = [i]
  | Ok (Some t') =>
      pane_ids_of t' = filter (fun j => j <> i) (pane_ids_of t) /\
      pane_ids (layout t') ≡ₚ filter (fun j => j <> i) (pane_ids_of t) /\
      (active_pane t = i -> i ∈ pane_ids_of t -> forall f, next_focus i t = Some f -> active_pane t' = f)
  | _ => False
  end.
Proof using Type.
  intros H. destruct (close_pane_eq next i t H) as [[-> Hi]|[[-> Hi]|(t' & -> & Hi & Hok & Hids & _ & _ & Hf)]]; [|done|].
  - assert (Hall : filter (fun j => j <> i) (pane_ids_of t) = pane_ids_of t) by (apply filter_all; by intros x Hx ->).
    rewrite Hall. split; [done|]. split; [apply H|done].
  - split; [done|]. split; [rewrite <-Hids; apply Hok|auto].
Qed.

(** ** Entering another window *)

Lemma renumber_panes_spec next ps : NoDup (pane_id <$> ps) ->
  let '(ps', m, next') := renumber_panes next ps in
  next' = next + zlen ps /\ length ps' = length ps /\
  (forall k, pane_id <$> ps' !! k = (if decide (k < length ps)%nat then Some (next + Z.of_nat k) else None)) /\
  (forall k, stack <$> ps' !! k = stack <$> ps !! k) /\
  (forall i v, m !! i = Some v <-> exists k, (pane_id <$> ps) !! k = Some i /\ v = next + Z.of_nat k).
Proof using Type.
  unfold renumber_panes. induction ps as [|p ps IH] using rev_ind; intros Hnd; [cbn|].
  - split_and!; [unfold zlen; cbn; lia|done|intros k; by rewrite decide_False by lia|done|].
    intros i v. rewrite lookup_empty. split; [done|by intros (k & Hk & _)].
  - rewrite foldl_app. cbn [foldl]. rewrite fmap_app in Hnd. apply NoDup_app in Hnd as (Hnd & Hp & _). specialize (IH Hnd).
    destruct (foldl _ _ ps) as [[ps' m] next']. destruct IH as (-> & Hlen & Hids & Hst & Hm). split_and!.
    + rewrite zlen_app. change (zlen [p]) with 1. lia.
    + rewrite !length_app. cbn. lia.
    + intros k. rewrite length_app. cbn [length]. destruct (decide (k < length ps)%nat).
      * rewrite lookup_app_l by lia. rewrite Hids, !decide_True by lia. done.
      * rewrite lookup_app_r by lia. destruct (decide (k = length ps)) as [->|].
        -- rewrite Hlen, Nat.sub_diag, decide_True by lia. cbn. unfold zlen. done.
        -- rewrite decide_False by lia. rewrite lookup_ge_None_2 by (cbn; lia). done.
    + intros k. destruct (decide (k < length ps)%nat).
      * by rewrite !lookup_app_l by lia.
      * rewrite !lookup_app_r by lia. rewrite Hlen. by destruct (k - length ps)%nat.
    + intros i v. rewrite lookup_insert_Some, Hm, fmap_app. setoid_rewrite lookup_app_Some. split.
      * intros [[<- <-]|[Hne (k & Hk & ->)]]; [|by exists k; auto].
        exists (length ps). rewrite length_fmap, Nat.sub_diag. split; [right; auto|done].
      * intros (k & [Hk|[Hge Hk]] & ->).
        -- right. split; [|by exists k]. intros <-. apply list_elem_of_lookup_2 in Hk. apply (Hp _ Hk). cbn. set_solver.
        -- rewrite length_fmap in Hge, Hk. apply list_lookup_singleton_Some in Hk as [Hk <-]. left.
           split; [done|]. unfold zlen. lia.
Qed.

Definition renumbered (next : Z) (e : StackedPane) : StackedPane :=
  mkStackedPane next (routing_id e) (command e) (profile e) (theme_override e) (terminal e) (view e)
    (state e) (exit_code e) (error e) (working_directory e) (wsl_directory e).
Definition renumber_step '(done, sel, next) (e : StackedPane) : list StackedPane * PaneStackSelection * Z :=
  (done ++ [renumbered next e], if bool_decide (sel = Stacked (entry_id e)) then Stacked next else sel, next + 1).

(** The entries of a stack renumbered one after the other, when none of their
    identifiers is one of the new ones. *)
Lemma renumber_fold es done sel next : NoDup (entry_id <$> es) -> (forall i, i ∈ entry_id <$> es -> i < next) ->
  exists es' sel', foldl renumber_step (done, sel, next) es = (done ++ es', sel', next + zlen es) /\
    (entry_id <$> es' = seqZ next (zlen es)) /\ routing_id <$> es' = routing_id <$> es /\
    (forall k i, (entry_id <$> es) !! k = Some i -> sel = Stacked i -> sel' = Stacked (next + Z.of_nat k)) /\
    ((forall i, i ∈ entry_id <$> es -> sel <> Stacked i) -> sel' = sel).
Proof using Type.
  revert done sel next. induction es as [|e es IH]; intros done sel next Hnd Hlt; cbn [foldl].
  - exists [], sel. rewrite app_nil_r. split_and!; try done. f_equal. unfold zlen. cbn [length]. lia.
  - cbn [fmap list_fmap] in *. apply NoDup_cons in Hnd as [Hn Hnd].
    assert (He : entry_id e < next) by (apply Hlt; set_solver). cbn [renumber_step].
    set (sel1 := if bool_decide _ then _ else _).
    destruct (IH (done ++ [renumbered next e]) sel1 (next + 1) Hnd) as (es' & sel' & Hf & Hids & Hr & Hs1 & Hs2).
    { intros i Hi. assert (i < next) by (apply Hlt; set_solver). lia. }
    exists (renumbered next e :: es'), sel'. rewrite Hf, <-app_assoc. cbn [app].
    split_and!.
    + f_equal. unfold zlen. cbn [length]. lia.
    + rewrite fmap_cons, Hids. change (entry_id (renumbered next e)) with next.
      replace (zlen (e :: es)) with (Z.succ (zlen es)) by (unfold zlen; cbn; lia).
      rewrite (seqZ_cons next) by (pose proof (zlen_nonneg es); lia). by rewrite Z.pred_succ, Z.add_1_r.
    + by rewrite !fmap_cons, Hr.
    + intros [|k] i Hk Hsel; cbn in Hk.
      * injection Hk as <-. subst sel1. rewrite bool_decide_eq_true_2 in Hs2 by done. rewrite Nat2Z.inj_0, Z.add_0_r.
        apply Hs2. intros i' Hi' [= <-]. assert (next < next); [|lia]. apply Hlt. set_solver.
      * subst sel1. assert (Hne : sel <> Stacked (entry_id e)).
        { rewrite Hsel. intros [= ->]. by apply list_elem_of_lookup_2 in Hk. }
        rewrite bool_decide_eq_false_2 in Hs1 by done. rewrite (Hs1 k i Hk Hsel). f_equal. lia.
    + intros Hno. subst sel1. rewrite bool_decide_eq_false_2 in Hs2 by (apply Hno; set_solver). apply Hs2.
      intros i Hi. apply Hno. set_solver.
Qed.

Lemma renumber_entries_spec next s : NoDup (ids s) -> valid_selection (selected s) s -> (forall i, i ∈ ids s -> i < next) ->
  exists s', renumber_entries next s = (s', next + zlen (entries s)) /\ ids s' = seqZ next (zlen (entries s)) /\
    routing_id <$> entries s' = routing_id <$> entries s /\ place s' = place s.
Proof using Type.
  intros Hnd Hv Hlt. unfold renumber_entries.
  destruct (renumber_fold (entries s) [] (selected s) next Hnd Hlt) as (es' & sel' & Hf & Hids & Hr & Hs1 & Hs2).
  change (foldl _ _ (entries s)) with (foldl renumber_step ([], selected s, next) (entries s)). rewrite Hf. cbn [app].
  set (s' := mkStack es' sel'). assert (Hlen : zlen es' = zlen (entries s)).
  { unfold zlen. f_equal. by rewrite <-(length_fmap routing_id es'), Hr, length_fmap. }
  assert (Hids' : ids s' = seqZ next (zlen (entries s))) by done.
  assert (Hsel : at_place s' (place s) = Some sel').
  { pose proof (place_at s Hv) as Hp. unfold place in *. destruct (selected s) as [|i] eqn:Es.
    - cbn. f_equal. symmetry. by apply Hs2.
    - cbn in Hv. destruct (entry_position i s) as [k|] eqn:Ek; [|by apply entry_position_none in Ek].
      apply entry_position_some in Ek. rewrite (Hs1 k i Ek eq_refl). cbn [at_place]. rewrite Hids', lookup_seqZ_lt; [done|].
      apply lookup_lt_Some in Ek. rewrite ids_length in Ek. unfold zlen. lia. }
  assert (Hnd' : NoDup (ids s')) by (rewrite Hids'; apply NoDup_seqZ).
  assert (Hv' : valid_selection sel' s').
  { pose proof (place_bound s) as Hb. destruct (at_place_some s' (place s)) as (sel2 & H2 & Hv2).
    - change (entries s') with es'. unfold zlen in Hlen. lia.
    - rewrite Hsel in H2. by injection H2 as <-. }
  exists s'. rewrite (proj2 (proj2 (repair_selection_valid s')) Hv'). split_and!; try done.
  pose proof (at_place_inj s' (place s) sel' Hnd' Hsel) as Hp. exact Hp.
Qed.

Lemma renumber_stacks_spec next ps :
  exists ps' next', renumber_stacks next ps = (ps', next') /\ next <= next' /\ pane_id <$> ps' = pane_id <$> ps /\
    length ps' = length ps /\
    forall k p', ps' !! k = Some p' -> exists p n, ps !! k = Some p /\ next <= n /\ stack p' = fst (renumber_entries n (stack p)).
Proof using Type.
  unfold renumber_stacks. induction ps as [|p ps IH] using rev_ind; [by exists [], next; split_and!|].
  destruct IH as (ps' & n & Hf & Hn & Hids & Hlen & Hk). rewrite foldl_app, Hf. cbn [foldl].
  destruct (renumber_entries n (stack p)) as [s' n'] eqn:Ee.
  assert (Hn' : n <= n').
  { clear -Ee. unfold renumber_entries in Ee.
    change (foldl _ _ _) with (foldl renumber_step ([], selected (stack p), n) (entries (stack p))) in Ee.
    assert (Hc : forall es acc sel k, k <= snd (foldl renumber_step (acc, sel, k) es)).
    { intros es. induction es as [|e es IHe]; intros acc sel k; cbn [foldl renumber_step]; [cbn; lia|].
      specialize (IHe (acc ++ [renumbered k e]) (if bool_decide (sel = Stacked (entry_id e)) then Stacked k else sel) (k + 1)). lia. }
    specialize (Hc (entries (stack p)) [] (selected (stack p)) n). destruct (foldl _ _ _) as [[d sl] k].
    injection Ee as _ <-. exact Hc. }
  eexists _, n'. split; [done|]. split; [lia|]. rewrite !fmap_app, Hids. split; [done|]. rewrite !length_app, Hlen. split; [done|].
  intros k p' Hp'. apply lookup_app_Some in Hp' as [Hp'|[Hge Hp']].
  - destruct (Hk k p' Hp') as (q & m & Hq & Hm & Hs). exists q, m. split_and!; try done. by apply lookup_app_l_Some.
  - apply list_lookup_singleton_Some in Hp' as [Hk0 <-]. exists p, n. rewrite Ee.
    split_and!; [|lia|done]. rewrite lookup_app_r by lia. rewrite <-Hlen, Hk0. done.
Qed.

(** A renaming of the tab's panes, as a function. *)
Definition renames (m : gmap Z Z) (l : list Z) (f : Z -> Z) : Prop := forall i, i ∈ l -> m !! i = Some (f i).

Lemma omap_renames m l f k : renames m l f -> k ⊆ l -> omap (fun j => m !! j) k = f <$> k.
Proof using Type.
  intros Hf. induction k as [|i k IH]; intros Hk; [done|]. cbn. rewrite (Hf i) by (apply Hk; set_solver).
  f_equal. apply IH. intros x Hx. apply Hk. set_solver.
Qed.

(** Renaming a tab's panes apart keeps it well-formed. *)
Lemma tab_ok_renamed old_next next f t t' : tab_ok old_next t ->
  (forall i, i ∈ pane_ids_of t -> f i < next) ->
  (forall i j, i ∈ pane_ids_of t -> j ∈ pane_ids_of t -> f i = f j -> i = j) ->
  indices_ok t' -> ratios_ok (layout t') -> pane_ids_of t' = f <$> pane_ids_of t ->
  pane_ids (layout t') = f <$> pane_ids (layout t) -> active_pane t' = f (active_pane t) ->
  focus_history t' = f <$> focus_history t -> minimized_panes t' = f <$> minimized_panes t ->
  maximized_pane t' = f <$> maximized_pane t -> selected_minimized_pane t' = f <$> selected_minimized_pane t ->
  tab_ok next t'.
Proof using Type.
  intros [[Hix Hlay Hrat Hlim Hfr [Hh1 Hh2] [Hm1 Hm2] Hsv Hsel Hmx] Ha Hlast] Hlt Hinj Hix' Hrat' Hids El Ea Eh Em Ex Es.
  assert (Hnd : forall l, l ⊆ pane_ids_of t -> NoDup l -> NoDup (f <$> l)).
  { intros l Hl. induction 1 as [|x l Hx _ IH]; [apply NoDup_nil_2|]. rewrite fmap_cons. apply NoDup_cons.
    split; [|apply IH; intros y Hy; apply Hl; by right].
    intros (y & Hy & Hin)%list_elem_of_fmap. apply Hinj in Hy; [by subst|apply Hl; by left|apply Hl; by right]. }
  assert (Hsub : forall l, l ⊆ pane_ids_of t -> (f <$> l) ⊆ f <$> pane_ids_of t).
  { intros l Hl x (y & -> & Hy)%list_elem_of_fmap. apply list_elem_of_fmap. exists y. split; [done|by apply Hl]. }
  assert (Hlen : length (panes t') = length (panes t)).
  { rewrite <-!panes_length, Hids. apply length_fmap. }
  constructor; [constructor|..]; rewrite ?Hids, ?El, ?Ea, ?Eh, ?Em, ?Ex, ?Es, ?Hlen; try done.
  - by rewrite Hlay.
  - intros i (j & -> & Hj)%list_elem_of_fmap. by apply Hlt.
  - split; [by apply Hnd|by apply Hsub].
  - split; [by apply Hnd|by apply Hsub].
  - by rewrite length_fmap.
  - destruct (selected_minimized_pane t); cbn in *; [by apply list_elem_of_fmap_2|by rewrite Hsel].
  - intros i Hi. destruct (maximized_pane t) as [x|]; [|done]. injection Hi as <-.
    destruct (Hmx x eq_refl) as [Hx Hxm]. split; [by apply list_elem_of_fmap_2|].
    intros (y & Hy & Hin)%list_elem_of_fmap. apply Hinj in Hy; [by subst|done|by apply Hm2].
  - by apply list_elem_of_fmap_2.
  - by rewrite fmap_last, Hlast.
Qed.

Lemma insert_indexed_ok ps i k : NoDup (pane_id <$> ps) ->
  insert_indices ∅ (indexed ps) !! i = Some k <-> (pane_id <$> ps) !! k = Some i.
Proof using Type.
  intros Hnd. rewrite insert_indices_lookup by by rewrite indexed_ids.
  pose proof (indexed_elem ps 0 i k) as He. rewrite drop_0 in He. rewrite He, lookup_empty. naive_solver lia.
Qed.

(** A tab that enters another window is renumbered without failing: its
    panes take consecutive identifiers from the window's counter, in order, and
    the returned map says which became which; the layout, the active pane, the
    focus history and the minimized and maximized panes are renamed by that
    map, and the tab stays well-formed.  Each pane's stack keeps its commands
    and the place of its selection, provided its entries' old identifiers are
    below the window's counter. *)
Theorem reassign_ids_renames_tab (tab_id next old_next : Z) (t : Tab) :
  tab_ok old_next t ->
  (forall p, p ∈ panes t -> stack_ok (stack p) /\ forall i, i ∈ ids (stack p) -> i < next) ->
  exists t' m next' f, reassign_ids tab_id next t = Ok (t', m, next') /\ tab_ok next' t' /\
    renames m (pane_ids_of t) f /\
    pane_ids_of t' = f <$> pane_ids_of t /\ pane_ids_of t' = seqZ next (zlen (panes t)) /\
    pane_ids (layout t') = f <$> pane_ids (layout t) /\ active_pane t' = f (active_pane t) /\
    focus_history t' = f <$> focus_history t /\ minimized_panes t' = f <$> minimized_panes t /\
    maximized_pane t' = f <$> maximized_pane t /\ selected_minimized_pane t' = f <$> selected_minimized_pane t /\
    forall k p p', panes t !! k = Some p -> panes t' !! k = Some p' ->
      place (stack p') = place (stack p) /\ routing_id <$> entries (stack p') = routing_id <$> entries (stack p).
Proof using Type.
  intros H Hst. assert (Hnd := indices_nodup t (ok_indices _ _ H)). unfold reassign_ids.
  pose proof (renumber_panes_spec next (panes t) Hnd) as Hp.
  destruct (renumber_panes next (panes t)) as [[ps m] n]. destruct Hp as (-> & Hlen & Hids & Hstk & Hm).
  pose proof (renumber_stacks_spec (next + zlen (panes t)) ps) as (ps' & next' & Hrs & Hn & Hids' & Hlen' & Hk).
  rewrite bool_decide_eq_false_2, Hrs.
  2: { intros ->. pose proof (ok_active _ _ H) as Ha. apply list_elem_of_lookup in Ha as [k Ha].
       assert (Hx : (∅ : gmap Z Z) !! active_pane t = Some (next + Z.of_nat k)) by (apply Hm; by exists k).
       by rewrite lookup_empty in Hx. }
  set (f := fun i => default 0 (m !! i)).
  assert (Hf : renames m (pane_ids_of t) f).
  { intros i [k Hi]%list_elem_of_lookup. unfold f. assert (m !! i = Some (next + Z.of_nat k)) as -> by (apply Hm; by exists k). done. }
  assert (Hnew : pane_id <$> ps = f <$> pane_ids_of t).
  { apply list_eq. intros k. rewrite list_lookup_fmap, Hids. rewrite list_lookup_fmap. unfold pane_ids_of in *.
    rewrite list_lookup_fmap. destruct (decide (k < length (panes t))%nat) as [Hlt|Hge].
    - apply lookup_lt_is_Some_2 in Hlt as [p Hp]. rewrite Hp. cbn. unfold f.
      assert (m !! pane_id p = Some (next + Z.of_nat k)) as ->; [|done].
      apply Hm. exists k. by rewrite list_lookup_fmap, Hp.
    - by rewrite lookup_ge_None_2 by lia. }
  assert (Hseq : pane_id <$> ps = seqZ next (zlen (panes t))).
  { apply list_eq. intros k. rewrite list_lookup_fmap, Hids. destruct (decide (k < length (panes t))%nat).
    - rewrite lookup_seqZ_lt by (unfold zlen; lia). done.
    - rewrite lookup_seqZ_ge by (unfold zlen; lia). done. }
  pose proof (remap_pane_ids_spec m (layout t)) as Hl. destruct (remap_pane_ids m (layout t)) as [l'|[]|]; [|done|].
  2: { destruct Hl as (i & Hi & Hmi). rewrite (ok_layout _ _ H) in Hi. by rewrite (Hf i Hi) in Hmi. }
  destruct Hl as [Hl Hr].
  assert (Hl' : pane_ids l' = f <$> pane_ids (layout t)).
  { apply (list_fmap_eq_inj Some); [by intros ? ? [= ->]|]. rewrite <-Hl, <-list_fmap_compose.
    apply list_fmap_ext. intros k i Hi. apply list_elem_of_lookup_2 in Hi. rewrite (ok_layout _ _ H) in Hi.
    by rewrite (Hf i Hi). }
  cbn [mbind result_bind]. rewrite (Hf _ (ok_active _ _ H)). cbn [expect mbind result_bind].
  rewrite !(omap_renames m _ f) by (done || apply H).
  assert (Hopt : forall o : option Z, (forall i, o = Some i -> i ∈ pane_ids_of t) -> (o ≫= fun j => m !! j) = f <$> o).
  { intros [i|] Ho; [|done]. cbn. by apply Hf, Ho. }
  rewrite !Hopt.
  2: { intros i Hi. pose proof (ok_selected _ _ H) as Hs. rewrite Hi in Hs. by apply (ok_minimized _ _ H). }
  2: { intros i Hi. by apply (ok_maximized _ _ H). }
  assert (Hps' : pane_id <$> ps' = f <$> pane_ids_of t) by by rewrite Hids'.
  eexists _, m, next', f. split; [done|]. split; [|split_and!; try done; [unfold pane_ids_of; cbn; by rewrite Hids'|]].
  - eapply (tab_ok_renamed old_next next' f t); try done.
    + intros i [k Hi]%list_elem_of_lookup. pose proof (lookup_lt_Some _ _ _ Hi) as Hlt. rewrite panes_length in Hlt.
      unfold f. assert (m !! i = Some (next + Z.of_nat k)) as -> by (apply Hm; by exists k). unfold zlen in *. cbn. lia.
    + intros i j Hi Hj Hij. apply list_elem_of_lookup in Hi as [a Hi], Hj as [b Hj].
      assert (m !! i = Some (next + Z.of_nat a)) as Ha by (apply Hm; by exists a).
      assert (m !! j = Some (next + Z.of_nat b)) as Hb by (apply Hm; by exists b).
      unfold f in Hij. rewrite Ha, Hb in Hij. cbn in Hij. assert (a = b) by lia. congruence.
    + intros i k. apply insert_indexed_ok. rewrite Hids', Hseq. apply NoDup_seqZ.
    + apply Hr, H.
  - intros k p p' Hp Hp'. cbn in Hp'. destruct (Hk k p' Hp') as (q & v & Hq & Hv & ->).
    assert (Hsq : stack q = stack p).
    { pose proof (Hstk k) as Hx. rewrite Hq, Hp in Hx. by injection Hx. }
    rewrite Hsq. destruct (Hst p) as [(Hn1 & Hn2 & _) Hn3]; [by apply list_elem_of_lookup_2 in Hp|].
    destruct (renumber_entries_spec v (stack p) Hn1 Hn2) as (s' & -> & _ & Hrt & Hpl); [|done].
    intros i Hi. apply Hn3 in Hi. pose proof (zlen_nonneg (panes t)). lia.
Qed.

End Tab.

(** ** At concrete tabs *)

Definition DemoTab : Type := @Tab unit unit unit unit unit unit unit unit.
Definition demo_ops : list (@Op unit) :=
  [OpSplit 1 Vertical After tt; OpSplit 2 Horizontal After tt; OpMinimize 3; OpToggleMaximize 2; OpToggleMaximize 2;
   OpFocus Left].
Definition demo_start : DemoTab := new_tab 7 1 tt tt.
(** Three panes, the third minimized, the first active. *)
Definition demo_tab : DemoTab := default demo_start (match run_all demo_ops 2 demo_start with Ok (_, t) => t | _ => None end).

Lemma demo_tab_ok : tab_ok 4 demo_tab.
Proof.
  destruct (run_all_ok demo_ops 2 demo_start) as (n & t & Hr & _ & Hok); [apply new_tab_ok; lia|].
  unfold demo_tab. rewrite Hr. assert (Hn : fst <$> run_all demo_ops 2 demo_start = Ok 4) by (by vm_compute).
  assert (Ht : (fun r => bool_decide (snd r = None)) <$> run_all demo_ops 2 demo_start = Ok false) by (by vm_compute).
  rewrite Hr in Hn, Ht. destruct t as [t|]; [|done]. injection Hn as ->. exact Hok.
Qed.

Lemma tab_operations_keep_tab_well_formed_witness :
  1 < 2 /\ minimized_panes demo_tab = [3] /\ focus_history demo_tab = [3; 2; 1] /\
  exists next' t', run_all demo_ops 2 demo_start = Ok (next', t') /\
    match t' with Some t' => tab_ok next' t' | None => True end.
Proof.
  split; [lia|]. split; [by vm_compute|]. split; [by vm_compute|].
  destruct (tab_operations_keep_tab_well_formed 7 1 tt tt 2 demo_ops ltac:(lia) : exists next' (t' : option DemoTab), _)
    as (next' & t' & Hr & _ & Hok). by exists next', t'.
Defined.

Lemma active_pane_stays_visible_witness :
  tab_ok 4 demo_tab /\ pane_is_visible (active_pane demo_tab) demo_tab = true /\
  exists t', run (OpClose 1) 4 demo_tab = Ok (4, Some t') /\ active_pane t' = 2 /\
    exists l, visible_layout t' = Some l /\ 2 ∈ pane_ids l.
Proof.
  assert (Hv : pane_is_visible (active_pane demo_tab) demo_tab = true) by (by vm_compute).
  split; [exact demo_tab_ok|]. split; [exact Hv|]. eexists. split; [by vm_compute|]. split; [done|].
  destruct (active_pane_stays_visible (OpClose 1) 4 4 demo_tab _ demo_tab_ok Hv I ltac:(by vm_compute)) as (_ & l & Hl & Ha & _).
  exists l. split; [exact Hl|exact Ha].
Defined.

Lemma minimize_and_maximize_undone_witness :
  tab_ok 4 demo_tab /\
  exists t1, minimize 1 demo_tab = Ok (t1, true) /\ active_pane t1 = 2 /\
    exists t2, restore_last_minimized t1 = Ok (t2, true) /\ active_pane t2 = 1.
Proof.
  split; [exact demo_tab_ok|]. eexists. split; [by vm_compute|]. split; [done|].
  destruct (minimize_and_maximize_undone 4 1 demo_tab demo_tab_ok) as [Hm _].
  destruct (Hm _ ltac:(by vm_compute)) as (_ & _ & _ & _ & t2 & Hr & Ha & _). exists t2. split; [exact Hr|exact Ha].
Defined.

Lemma closing_returns_focus_witness :
  tab_ok 4 demo_tab /\ next_focus 1 demo_tab = Some 2 /\
  exists t', close_pane 1 demo_tab = Ok (Some t') /\ pane_ids_of t' = [2; 3] /\ active_pane t' = 2.
Proof.
  split; [exact demo_tab_ok|]. assert (Hn : next_focus 1 demo_tab = Some 2) by (by vm_compute). split; [exact Hn|].
  pose proof (closing_returns_focus 4 1 demo_tab demo_tab_ok) as H.
  assert (Ha : active_pane demo_tab = 1) by (by vm_compute).
  assert (Hi : pane_ids_of demo_tab = [1; 2; 3]) by (by vm_compute).
  assert (Hf : filter (fun j => j <> 1) [1; 2; 3] = [2; 3]) by (by vm_compute).
  rewrite Hi in H. destruct (close_pane 1 demo_tab) as [[t'|]|e|]; [|discriminate H|destruct H|destruct H].
  exists t'. destruct H as (Hids & _ & Hact). split; [done|]. split; [by rewrite Hids|].
  apply Hact; [exact Ha|by left|exact Hn].
Defined.

(** A pane whose stack holds two commands, the first selected. *)
Definition stacked_demo (first second : Z) : DemoTab :=
  mkTab 7 [mkPane 1 1 None (mkStack [demo_entry first; demo_entry second] (Stacked first)) tt] {[1 := 0%nat]} 2 (Pane 1) 1 [1]
    None [] None None None None None None tt.
Lemma stacked_demo_ok first second : tab_ok 4 (stacked_demo first second).
Proof.
  pose proof (new_tab_ok 7 1 tt tt 4 ltac:(lia) : tab_ok 4 (demo_start)) as [[]].
  constructor; [constructor|..]; done.
Qed.

Lemma reassign_ids_renames_tab_witness :
  tab_ok 4 (stacked_demo 2 3) /\
  exists t' m next', reassign_ids 9 20 (stacked_demo 2 3) = Ok (t', m, next') /\ pane_ids_of t' = [20] /\
    tab_ok next' t' /\ place <$> (stack <$> panes t') = [1%nat].
Proof.
  assert (Hok := stacked_demo_ok 2 3). split; [exact Hok|].
  destruct (reassign_ids_renames_tab 9 20 4 (stacked_demo 2 3) Hok) as
    (t' & m & next' & f & Hr & Hok' & _ & _ & Hseq & _ & _ & _ & _ & _ & _ & Hst).
  { intros p ->%list_elem_of_singleton. split; [|cbn; set_solver].
    split_and!; [apply (bool_decide_unpack _); vm_compute; exact I|cbn; set_solver|done]. }
  exists t', m, next'. split; [exact Hr|]. split; [exact Hseq|]. split; [exact Hok'|].
  assert (Hlen : length (panes t') = 1%nat) by (rewrite <-panes_length, Hseq; done).
  destruct (panes t') as [|p [|]] eqn:Ep; try discriminate Hlen.
  destruct (Hst 0%nat _ p eq_refl eq_refl) as [Hpl _]. cbn. rewrite Hpl. done.
Defined.

(** The renumbering compares each entry's old identifier with a selection that
    an earlier entry may already have renumbered: entering a window whose
    counter stands at the second entry's old identifier, the selection of the
    first command moves to the second. *)
Lemma reassign_ids_moves_selection :
  match reassign_ids 9 2 (stacked_demo 2 3) with
  | Ok (t', _, _) => (place <$> (stack <$> panes (stacked_demo 2 3)), place <$> (stack <$> panes t')) = ([1%nat], [2%nat])
  | _ => False
  end.
Proof. by vm_compute. Qed.

End Tab.
