(* ===== verification/RunCommand.v ===== *)
(** * The registry of waiting commands

    Models [src/run_command.rs]: the process-wide registry behind
    [zetta pane wait].  Panes report their commands, wrappers register runs that
    wait on panes, and the registry decides when a run is released or fails.

    A handler runs under the registry's lock from beginning to end, so it is a
    function from a state to a state; a channel is the number of the run it was
    made for, and [sent] collects what has been sent on them.  The order in
    which a hash table is iterated is a parameter. *)
From Stdlib Require Import ZArith Lia List Bool.
From Stdlib Require Strings.String.
From stdpp Require Import base numbers list gmap sets strings pretty.
From S2P Require Import Prelude.
Open Scope Z_scope.
Open Scope zetta_scope.

Module RunCommand.

(** ** Data *)

Record RunPaneIdentity := mkIdentity { attention_id : Z; routing_id : Z }.

#[export] Instance RunPaneIdentity_eq_dec : EqDecision RunPaneIdentity.
Proof. solve_decision. Defined.
#[export] Instance RunPaneIdentity_countable : Countable RunPaneIdentity.
Proof.
  apply (inj_countable' (fun p => (attention_id p, routing_id p)) (fun p => mkIdentity p.1 p.2)).
  by intros [].
Defined.

Module RunResolution.
Inductive RunResolution := Ready | Failed.
End RunResolution.

Record RunResolutionMessage := mkMessage { resolution : RunResolution.RunResolution; message : option string }.
(** [RunResolutionMessage::ready] and [RunResolutionMessage::failed] *)
Definition ready_message : RunResolutionMessage := mkMessage RunResolution.Ready None.
Definition failed_message (message : string) : RunResolutionMessage := mkMessage RunResolution.Failed (Some message).

Inductive LastResult := Success (code : Z) | Failure (code : Z) | Unavailable.

Inductive ActiveOperation := Shell (command : string) | Managed (id : Z) | Ignored.

Record PaneState := mkPaneState {
  available : bool; tracking_ready : bool; active : option ActiveOperation; last_result : option LastResult;
  managed_shell_result_pending : bool; authenticated : bool; unauthenticated_reports : bool;
}.
#[export] Instance PaneState_eta : Eta PaneState := fun p =>
  mkPaneState (available p) (tracking_ready p) (active p) (last_result p) (managed_shell_result_pending p)
    (authenticated p) (unauthenticated_reports p).
Definition default_pane : PaneState := mkPaneState true false None None false false false.

Inductive DependencyObservation :=
| Missing
| Closed
| WaitingForCommand
| ActiveShell
| ActiveManaged (id : Z)
| Last (r : LastResult)
| Unknown
| Unauthenticated.

#[export] Instance LastResult_eq_dec : EqDecision LastResult.
Proof. solve_decision. Defined.
#[export] Instance DependencyObservation_eq_dec : EqDecision DependencyObservation.
Proof. solve_decision. Defined.

Record RunDependency := mkDependency { pane : RunPaneIdentity; observation : DependencyObservation }.
#[export] Instance RunDependency_eta : Eta RunDependency := fun d => mkDependency (pane d) (observation d).
#[export] Instance RunDependency_eq_dec : EqDecision RunDependency.
Proof. solve_decision. Defined.

(** A [Sender] is named by the run its channel was made for. *)
Notation Sender := Z (only parsing).

Record RunNode := mkNode {
  owner : RunPaneIdentity; dependencies : list RunDependency; allow_failure : bool;
  ready : bool; terminal : option RunResolutionMessage; waiter : option Sender;
}.
#[export] Instance RunNode_eta : Eta RunNode := fun n =>
  mkNode (owner n) (dependencies n) (allow_failure n) (ready n) (terminal n) (waiter n).

Record RegistryState := mkRegistry {
  next_id : Z;
  panes : gmap RunPaneIdentity PaneState;
  runs : gmap Z RunNode;
  dependents_by_pane : gmap RunPaneIdentity (gset Z);
  dependents_by_run : gmap Z (gset Z);
  sent : list (Sender * RunResolutionMessage);
}.
#[export] Instance RegistryState_eta : Eta RegistryState := fun s =>
  mkRegistry (next_id s) (panes s) (runs s) (dependents_by_pane s) (dependents_by_run s) (sent s).
Definition empty_registry : RegistryState := mkRegistry 0 ∅ ∅ ∅ ∅ [].

(** What [Receiver]s see of [waiter.send(result)]. *)
Definition send (to : Sender) (m : RunResolutionMessage) (st : RegistryState) : RegistryState :=
  st <| sent := sent st ++ [(to, m)] |>.
Definition send_to (to : option Sender) (m : RunResolutionMessage) (st : RegistryState) : RegistryState :=
  match to with Some to => send to m st | None => st end.

(** [state.panes.entry(pane).or_default()] *)
Definition pane_entry (p : RunPaneIdentity) (st : RegistryState) : PaneState := default default_pane (panes st !! p).
Definition set_pane (p : RunPaneIdentity) (s : PaneState) (st : RegistryState) : RegistryState :=
  st <| panes := <[p := s]> (panes st) |>.

(** ** Links between runs and what they depend on *)
Section Links.
Context `{Countable K}.

(** [links.entry(key).or_default().insert(dependent_id)] *)
Definition add_dependency_link (links : gmap K (gset Z)) (key : K) (dependent_id : Z) : gmap K (gset Z) :=
  <[key := {[dependent_id]} ∪ default ∅ (links !! key)]> links.

Definition remove_dependency_link (links : gmap K (gset Z)) (key : K) (dependent_id : Z) : gmap K (gset Z) :=
  match links !! key with
  | None => links
  | Some dependents =>
      let dependents := dependents ∖ {[dependent_id]} in
      if decide (dependents = ∅) then delete key links else <[key := dependents]> links
  end.
End Links.

Definition unlink_observation (o : DependencyObservation) (dependent_id : Z) (links : gmap Z (gset Z)) : gmap Z (gset Z) :=
  match o with ActiveManaged run_id => remove_dependency_link links run_id dependent_id | _ => links end.
Definition link_observation (o : DependencyObservation) (dependent_id : Z) (links : gmap Z (gset Z)) : gmap Z (gset Z) :=
  match o with ActiveManaged run_id => add_dependency_link links run_id dependent_id | _ => links end.

Definition set_dependency_observation (st : RegistryState) (dependent_id : Z) (dependency_index : nat)
    (o : DependencyObservation) : RegistryState * bool :=
  match runs st !! dependent_id ≫= (fun node => dependencies node !! dependency_index) with
  | None => (st, false)
  | Some dependency =>
      if decide (observation dependency = o) then (st, false)
      else
        let st := st <| dependents_by_run :=
          link_observation o dependent_id (unlink_observation (observation dependency) dependent_id (dependents_by_run st)) |> in
        match runs st !! dependent_id with
        | None => (st, false)
        | Some node =>
            (st <| runs := <[dependent_id :=
                     node <| dependencies := alter (fun d => d <| observation := o |>) dependency_index (dependencies node) |>]>
                   (runs st) |>, true)
        end
  end.

(** The indices [replace_observations] collects before it sets them. *)
Definition matching_indices (predicate : RunDependency -> bool) (st : RegistryState) (dependent_id : Z) : list nat :=
  match runs st !! dependent_id with
  | Some node =>
      omap (fun x => x) (imap (fun index d => if predicate d then Some index else None) (dependencies node))
  | None => []
  end.

(** ** Results *)

Definition last_result_from_exit_code (exit_code : option Z) : LastResult :=
  match exit_code with
  | Some code => if code =? 0 then Success 0 else Failure code
  | None => Unavailable
  end.

Module Evaluation.
Inductive Evaluation := Pending | Ready | Failed (message : string) (structural : bool).
End Evaluation.

Definition evaluate_last_result (r : LastResult) : Evaluation.Evaluation :=
  match r with
  | Success _ => Evaluation.Ready
  | Failure code => Evaluation.Failed ("dependency exited with status " +:+ pretty code) false
  | Unavailable => Evaluation.Failed "dependency exit status was unavailable" true
  end.

Definition recorded_result (p : PaneState) : DependencyObservation :=
  if tracking_ready p then match last_result p with Some r => Last r | None => Unknown end else Unknown.

Definition UNAUTHENTICATED_DEPENDENCY_MESSAGE : string :=
  "a dependency pane's shell reports command results Zetta cannot authenticate (a shell started by an older Zetta, a shared pane this window joined or reattached, or an outdated `zetta` on PATH); restart that pane's shell from this Zetta to use it as a dependency".

(** [command.contains(needle)] *)
Definition contains (needle command : string) : bool :=
  match String.index 0 needle command with Some _ => true | None => false end.

Definition is_internal_startup_command (command : string) : bool :=
  contains "__zed_init_command_ready_" command
  || contains "__ZETTA_LIFECYCLE_TRACKING_" command
  || (contains "ZETTA_HOST_EXECUTABLE" command && contains " init " command).

Definition snapshot_dependency (st : RegistryState) (p : RunPaneIdentity) : DependencyObservation :=
  match panes st !! p with
  | None => Missing
  | Some pane_state =>
      if negb (available pane_state) then Closed
      else match active pane_state with
           | Some (Managed id) =>
               match runs st !! id with Some _ => ActiveManaged id | None => recorded_result pane_state end
           | a =>
               if unauthenticated_reports pane_state then Unauthenticated
               else match a with Some (Shell _) => ActiveShell | _ => WaitingForCommand end
           end
  end.

(** ** Evaluation

    The recursion follows runs that wait on runs; [fuel] bounds its depth.  A
    run already on the stack ends it, so the number of runs is enough
    ([RunResolve.evaluate_enough]). *)
Inductive stuck := Refusal (reason : string) | OutOfFuel.

Definition evaluate_terminal (m : RunResolutionMessage) : Evaluation.Evaluation :=
  match resolution m with
  | RunResolution.Ready => Evaluation.Ready
  | RunResolution.Failed => Evaluation.Failed (default "managed dependency failed" (message m)) false
  end.

(** What an observation other than a managed run amounts to. *)
Definition evaluate_observation (o : DependencyObservation) : Evaluation.Evaluation :=
  match o with
  | Missing => Evaluation.Failed "a dependency pane is no longer available" true
  | Closed => Evaluation.Failed "a dependency pane closed" true
  | WaitingForCommand | ActiveShell | ActiveManaged _ => Evaluation.Pending
  | Last r => evaluate_last_result r
  | Unknown => Evaluation.Failed "dependency has no trustworthy command result" true
  | Unauthenticated => Evaluation.Failed UNAUTHENTICATED_DEPENDENCY_MESSAGE true
  end.

(** The fallback for a managed run that is no longer there. *)
Definition evaluate_retired (st : RegistryState) (p : RunPaneIdentity) : Evaluation.Evaluation :=
  match (match panes st !! p with Some s => recorded_result s | None => Missing end) with
  | Last r => evaluate_last_result r
  | _ => Evaluation.Failed "managed dependency result is unavailable" true
  end.

Definition is_terminal (st : RegistryState) (id : Z) : bool :=
  match runs st !! id with Some node => bool_decide (is_Some (terminal node)) | None => false end.

Definition managed_evaluation (was_terminal : bool) (e : Evaluation.Evaluation) : Evaluation.Evaluation :=
  match e with Evaluation.Ready => if was_terminal then Evaluation.Ready else Evaluation.Pending | e => e end.

Definition evaluate_dependency (evaluate : Z -> result stuck (option Evaluation.Evaluation)) (st : RegistryState)
    (d : RunDependency) : result stuck Evaluation.Evaluation :=
  match observation d with
  | ActiveManaged dependency_id =>
      e ← evaluate dependency_id;
      Ok match e with
         | None => evaluate_retired st (pane d)
         | Some e => managed_evaluation (is_terminal st dependency_id) e
         end
  | o => Ok (evaluate_observation o)
  end.

Fixpoint evaluate_dependencies (evaluate : Z -> result stuck (option Evaluation.Evaluation)) (st : RegistryState)
    (allow_failure : bool) (ds : list RunDependency) (pending : bool) : result stuck Evaluation.Evaluation :=
  match ds with
  | [] => Ok (if pending then Evaluation.Pending else Evaluation.Ready)
  | d :: ds =>
      e ← evaluate_dependency evaluate st d;
      match e with
      | Evaluation.Ready => evaluate_dependencies evaluate st allow_failure ds pending
      | Evaluation.Pending => evaluate_dependencies evaluate st allow_failure ds true
      | Evaluation.Failed message structural =>
          if structural || negb allow_failure then Ok (Evaluation.Failed message structural)
          else evaluate_dependencies evaluate st allow_failure ds pending
      end
  end.

Fixpoint evaluate_run (fuel : nat) (st : RegistryState) (id : Z) (stack : list Z) : result stuck (option Evaluation.Evaluation) :=
  match fuel with
  | O => Err OutOfFuel
  | S fuel =>
      match runs st !! id with
      | None => Ok None
      | Some node =>
          match terminal node with
          | Some m => Ok (Some (evaluate_terminal m))
          | None =>
              if ready node then Ok (Some Evaluation.Pending)
              else if bool_decide (id ∈ stack) then Ok (Some (Evaluation.Failed "run dependency cycle detected" true))
              else Some <$> evaluate_dependencies (fun r => evaluate_run fuel st r (id :: stack)) st
                              (allow_failure node) (dependencies node) false
          end
      end
  end.

(** [evaluate_run(state, id, &mut Vec::new())] *)
Definition evaluate (st : RegistryState) (id : Z) : result stuck (option Evaluation.Evaluation) :=
  evaluate_run (S (size (runs st))) st id [].

(** ** Changing observations

    The order in which a [HashSet<u64>] is iterated is any, and may be another
    one in another state. *)
Class Iteration := {
  iterate : RegistryState -> gset Z -> list Z;
  iterate_elements st s : iterate st s ≡ₚ elements s;
}.

Section Registry.
Context {order : Iteration}.

Definition replace_in (o : DependencyObservation) (predicate : RunDependency -> bool)
    (acc : RegistryState * gset Z) (dependent_id : Z) : RegistryState * gset Z :=
  foldl (fun '(st, changed) index =>
      let '(st, replaced) := set_dependency_observation st dependent_id index o in
      (st, if replaced : bool then {[dependent_id]} ∪ changed else changed))
    acc (matching_indices predicate acc.1 dependent_id).

Definition replace_observations (st : RegistryState) (dependent_ids : gset Z) (o : DependencyObservation)
    (predicate : RunDependency -> bool) : RegistryState * list Z :=
  let '(st, changed) := foldl (replace_in o predicate) (st, ∅) (iterate st dependent_ids) in
  (st, iterate st changed).

Definition replace_pane_observations_with (st : RegistryState) (p : RunPaneIdentity) (o : DependencyObservation)
    (predicate : DependencyObservation -> bool) : RegistryState * list Z :=
  replace_observations st (default ∅ (dependents_by_pane st !! p)) o
    (fun d => bool_decide (pane d = p) && predicate (observation d)).

Definition replace_shell_observations st p o := replace_pane_observations_with st p o
  (fun current => match current with ActiveShell => true | _ => false end).
Definition replace_pending_command_observations st p o := replace_pane_observations_with st p o
  (fun current => match current with WaitingForCommand | ActiveShell => true | _ => false end).
Definition replace_waiting_observations st p o := replace_pane_observations_with st p o
  (fun current => match current with WaitingForCommand => true | _ => false end).
Definition replace_pane_observations st p o := replace_pane_observations_with st p o
  (fun current => match current with WaitingForCommand | ActiveShell | ActiveManaged _ => true | _ => false end).

Definition replace_managed_observations (st : RegistryState) (run_id : Z) (o : DependencyObservation) :
    RegistryState * list Z :=
  replace_observations st (default ∅ (dependents_by_run st !! run_id)) o
    (fun d => bool_decide (observation d = ActiveManaged run_id)).

(** ** Retiring a run *)

Definition release_pane (id : Z) (p : PaneState) : PaneState :=
  match active p with
  | Some (Managed active_id) =>
      if active_id =? id then p <| active := None |> <| managed_shell_result_pending := true |> else p
  | _ => p
  end.

Definition remove_run (st : RegistryState) (id : Z) : RegistryState :=
  match runs st !! id with
  | None => st
  | Some node =>
      let st := st <| runs := delete id (runs st) |> <| panes := release_pane id <$> panes st |> in
      let st := foldl (fun st d =>
          st <| dependents_by_pane := remove_dependency_link (dependents_by_pane st) (pane d) id |>
             <| dependents_by_run := unlink_observation (observation d) id (dependents_by_run st) |>)
        st (dependencies node) in
      st <| dependents_by_run := delete id (dependents_by_run st) |>
  end.

(** What [complete_locked], [fail_locked] and a failed decision do to the
    owner's pane. *)
Definition record_managed (r : LastResult) (p : PaneState) : PaneState :=
  p <| active := None |> <| tracking_ready := true |> <| last_result := Some r |>
    <| managed_shell_result_pending := true |>.

(** The part they share: the run takes its result, its owner records it, and
    both kinds of dependents observe it. *)
Definition finish (st : RegistryState) (id : Z) (node : RunNode) (m : RunResolutionMessage) (r : LastResult) :
    RegistryState * list Z :=
  let st := st <| runs := <[id := node <| waiter := None |> <| terminal := Some m |>]> (runs st) |>
               <| panes := alter (record_managed r) (owner node) (panes st) |> in
  let '(st, managed) := replace_managed_observations st id (Last r) in
  let '(st, shell) := replace_shell_observations st (owner node) (Last r) in
  (st, managed ++ shell).

Definition completion_message (exit_code : option Z) : RunResolutionMessage :=
  if bool_decide (exit_code = Some 0) then ready_message
  else failed_message match exit_code with
                      | Some code => "managed run exited with status " +:+ pretty code
                      | None => "managed run exited without a status"
                      end.

Definition complete_locked (st : RegistryState) (id : Z) (exit_code : option Z) : RegistryState * list Z :=
  match runs st !! id with
  | None => (st, [])
  | Some node =>
      match terminal node with
      | Some _ => (st, [])
      | None =>
          let '(st, dependents) := finish st id node (completion_message exit_code) (last_result_from_exit_code exit_code) in
          (send_to (waiter node) (completion_message exit_code) st, dependents)
      end
  end.

Definition fail_locked (st : RegistryState) (id : Z) (reason : string) :
    RegistryState * option (option Sender * RunResolutionMessage * list Z) :=
  match runs st !! id with
  | None => (st, None)
  | Some node =>
      match terminal node with
      | Some _ => (st, None)
      | None =>
          let '(st, dependents) := finish st id node (failed_message reason) Unavailable in
          (st, Some (waiter node, failed_message reason, dependents))
      end
  end.

Definition send_failure (failure : option (option Sender * RunResolutionMessage * list Z)) (st : RegistryState) :
    RegistryState :=
  match failure with Some (Some waiter, m, _) => send waiter m st | _ => st end.

(** ** Resolution

    One turn of the loop of [resolve_locked] takes the head of the queue; the
    queue has no duplicates, so [queued] is the set of its members.  [fuel]
    bounds the turns ([RunResolve.resolve_loop_ind]). *)
Definition enqueue (queue : list Z) (ids : list Z) : list Z :=
  foldl (fun queue id => if bool_decide (id ∈ queue) then queue else queue ++ [id]) queue ids.

Definition decide_run (st : RegistryState) (id : Z) (node : RunNode) (decision : Evaluation.Evaluation) :
    RegistryState * list Z * bool :=
  match decision with
  | Evaluation.Pending => (st, [], false)
  | Evaluation.Ready =>
      if bool_decide (is_Some (terminal node)) || ready node then (st, [], false)
      else (send_to (waiter node) ready_message
              (st <| runs := <[id := node <| ready := true |> <| waiter := None |>]> (runs st) |>), [], false)
  | Evaluation.Failed message structural =>
      if bool_decide (is_Some (terminal node)) then (st, [], false)
      else
        let last_result := if structural : bool then Unavailable else Failure 1 in
        let '(st, dependents) := finish st id node (failed_message message) last_result in
        (send_to (waiter node) (failed_message message) st, dependents, true)
  end.

Definition resolve_turn (st : RegistryState) (id : Z) : result stuck (RegistryState * list Z * bool) :=
  if is_terminal st id then Ok (st, [], true)
  else
    decision ← evaluate st id;
    match decision, runs st !! id with
    | Some decision, Some node => Ok (decide_run st id node decision)
    | _, _ => Ok (st, [], false)
    end.

Fixpoint resolve_loop (fuel : nat) (st : RegistryState) (queue : list Z) (terminal_ids : gset Z) :
    result stuck (RegistryState * gset Z) :=
  match queue with
  | [] => Ok (st, terminal_ids)
  | id :: queue =>
      match fuel with
      | O => Err OutOfFuel
      | S fuel =>
          '(st, dependents, retired) ← resolve_turn st id;
          resolve_loop fuel st (enqueue queue dependents) (if retired : bool then {[id]} ∪ terminal_ids else terminal_ids)
      end
  end.

Definition resolve_fuel (st : RegistryState) (roots : list Z) : nat :=
  (length roots + size (runs st) * S (size (runs st)))%nat.

Definition resolve_locked (st : RegistryState) (roots : list Z) : result stuck RegistryState :=
  '(st, terminal_ids) ← resolve_loop (resolve_fuel st roots) st (enqueue [] roots) ∅;
  Ok (foldl remove_run st (iterate st terminal_ids)).

(** ** Handlers *)

Definition authenticated_marker (p : RunPaneIdentity) (st : RegistryState) : RegistryState :=
  let pane_state := pane_entry p st in
  set_pane p (if available pane_state
              then pane_state <| authenticated := true |> <| unauthenticated_reports := false |>
              else pane_state) st.

Definition unauthenticated_marker (p : RunPaneIdentity) (st : RegistryState) : result stuck RegistryState :=
  let pane_state := pane_entry p st in
  if negb (available pane_state) || authenticated pane_state then Ok (set_pane p pane_state st)
  else
    let st := set_pane p (pane_state <| unauthenticated_reports := true |>) st in
    let '(st, roots) := replace_pending_command_observations st p Unauthenticated in
    resolve_locked st roots.

Definition tracking_ready_marker (p : RunPaneIdentity) (st : RegistryState) : result stuck RegistryState :=
  let pane_state := pane_entry p st in
  if negb (available pane_state) then Ok (set_pane p pane_state st)
  else
    let first_ready := negb (tracking_ready pane_state) in
    let pane_state := pane_state <| available := true |> <| tracking_ready := true |> in
    let pane_state := match first_ready, active pane_state with
                      | true, Some (Shell _) => pane_state <| active := None |>
                      | _, _ => pane_state
                      end in
    let st := set_pane p pane_state st in
    if first_ready
    then let '(st, roots) := replace_shell_observations st p WaitingForCommand in resolve_locked st roots
    else Ok st.

Definition pane_reopened (p : RunPaneIdentity) (st : RegistryState) : RegistryState :=
  let pane_state := pane_entry p st in
  set_pane p (if available pane_state then pane_state
              else pane_state <| available := true |> <| tracking_ready := false |> <| active := None |>
                     <| last_result := None |> <| managed_shell_result_pending := false |>
                     <| authenticated := false |> <| unauthenticated_reports := false |>) st.

Definition command_started (p : RunPaneIdentity) (command : string) (st : RegistryState) : result stuck RegistryState :=
  let pane_state := pane_entry p st in
  if negb (available pane_state) then Ok (set_pane p pane_state st)
  else
    let pane_state := pane_state <| available := true |> in
    let '(st, roots) :=
      match active pane_state with
      | Some (Managed id) => (set_pane p (pane_state <| active := Some (Managed id) |>) st, [])
      | _ =>
          if is_internal_startup_command command
          then (set_pane p (pane_state <| active := Some Ignored |>) st, [])
          else
            let pane_state := pane_state <| managed_shell_result_pending := false |>
                                <| active := Some (Shell command) |> in
            replace_waiting_observations (set_pane p pane_state st) p ActiveShell
      end in
    resolve_locked st roots.

Definition command_finished (p : RunPaneIdentity) (exit_code : option Z) (st : RegistryState) :
    result stuck RegistryState :=
  let pane_state := pane_entry p st in
  if negb (available pane_state) then Ok (set_pane p pane_state st)
  else
    let pane_state := pane_state <| available := true |> <| tracking_ready := true |> in
    match active pane_state with
    | Some (Managed _) => Ok (set_pane p pane_state st)
    | was_active =>
        let st := set_pane p (pane_state <| active := None |>) st in
        if managed_shell_result_pending pane_state then Ok st
        else match was_active with
             | Some (Managed _) | Some Ignored => Ok st
             | _ =>
                 let r := last_result_from_exit_code exit_code in
                 pane_state ← expect (panes st !! p);
                 let st := set_pane p (pane_state <| last_result := Some r |>) st in
                 let '(st, roots) := replace_shell_observations st p (Last r) in
                 resolve_locked st roots
             end
    end.

Definition failure_dependents (failure : option (option Sender * RunResolutionMessage * list Z)) : list Z :=
  match failure with Some (_, _, dependents) => dependents | None => [] end.

Definition pane_closed (p : RunPaneIdentity) (st : RegistryState) : result stuck RegistryState :=
  let pane_state := pane_entry p st in
  let was_active := active pane_state in
  let st := set_pane p (pane_state <| available := false |> <| tracking_ready := false |> <| active := None |>) st in
  pane_state ← expect (panes st !! p);
  let st := set_pane p (pane_state <| managed_shell_result_pending := false |>) st in
  let '(st, roots) := replace_pane_observations st p Closed in
  let '(st, failure, roots) :=
    match was_active with
    | Some (Managed id) =>
        let '(st, failure) := fail_locked st id "the dependency pane closed" in
        (st, failure, match failure with Some _ => roots ++ id :: failure_dependents failure | None => roots end)
    | _ => (st, None, roots)
    end in
  st ← resolve_locked st roots;
  Ok (send_failure failure st).

Definition terminal_lost := pane_closed.

Definition complete (id : Z) (exit_code : option Z) (st : RegistryState) : result stuck RegistryState :=
  let '(st, dependents) := complete_locked st id exit_code in
  resolve_locked st (id :: dependents).

Definition fail (id : Z) (reason : string) (st : RegistryState) : result stuck RegistryState :=
  let '(st, failure) := fail_locked st id reason in
  let roots := match failure with Some _ => id :: failure_dependents failure | None => [] end in
  st ← resolve_locked st roots;
  Ok (send_failure failure st).

Definition connection_lost (id : Z) (st : RegistryState) : result stuck RegistryState :=
  fail id "the run wrapper connection was lost" st.

(** [shutdown] locks once per run it fails. *)
Definition unresolved (st : RegistryState) : gset Z :=
  filter (fun id => is_terminal st id = false) (dom (runs st)).
Definition fail_all (reason : string) (ids : list Z) (st : RegistryState) : result stuck RegistryState :=
  foldl (fun r id => st ← r; fail id reason st) (Ok st) ids.
Definition shutdown (st : RegistryState) : result stuck RegistryState :=
  fail_all "the Zetta process is shutting down" (iterate st (unresolved st)) st.

(** The events of [terminal::Event] the registry reads, and every other one. *)
Inductive TerminalEvent :=
| TrackingReady (authenticated : bool)
| CommandStarted (command : string) (authenticated : bool)
| CommandFinished (exit_code : option Z) (authenticated : bool)
| TerminalExited
| OtherEvent.

Definition observe_terminal_event (p : RunPaneIdentity) (event : TerminalEvent) (st : RegistryState) :
    result stuck RegistryState :=
  match event with
  | TrackingReady true => tracking_ready_marker p (authenticated_marker p st)
  | CommandStarted command true => command_started p command (authenticated_marker p st)
  | CommandFinished exit_code true => command_finished p exit_code (authenticated_marker p st)
  | TrackingReady _ | CommandStarted _ _ | CommandFinished _ _ => unauthenticated_marker p st
  | TerminalExited => terminal_lost p st
  | OtherEvent => Ok st
  end.

(** ** Registration *)

Fixpoint check_dependencies (owner : RunPaneIdentity) (unique : list RunPaneIdentity) (ds : list RunPaneIdentity) :
    result stuck unit :=
  match ds with
  | [] => Ok tt
  | d :: ds =>
      _ ← ensure (negb (attention_id d =? 0) && negb (routing_id d =? 0))
            (Refusal "run dependency identity must be positive");
      _ ← ensure (bool_decide (d <> owner)) (Refusal "a run cannot depend on its own pane");
      _ ← ensure (bool_decide (~ d ∈ unique)) (Refusal "a run cannot list the same dependency more than once");
      check_dependencies owner (d :: unique) ds
  end.

Definition check_request (owner : RunPaneIdentity) (dependencies : list RunPaneIdentity) (command : list string) :
    result stuck unit :=
  _ ← ensure (negb (attention_id owner =? 0)) (Refusal "run owner attention ID must be positive");
  _ ← ensure (negb (routing_id owner =? 0)) (Refusal "run owner routing ID must be positive");
  _ ← ensure (bool_decide (dependencies <> [])) (Refusal "a run requires at least one dependency");
  _ ← ensure (bool_decide (command <> [])) (Refusal "a run requires a command");
  _ ← ensure (match command with program :: _ => bool_decide (program <> "") | [] => true end)
        (Refusal "a run requires a non-empty command name");
  check_dependencies owner [] dependencies.

(** [state.next_id.wrapping_add(1).max(1)] *)
Definition following_id (id : Z) : Z := Z.max (wrap 64 (id + 1)) 1.

Definition link_dependencies (id : Z) (ds : list RunDependency) (st : RegistryState) : RegistryState :=
  foldl (fun st d =>
      st <| dependents_by_pane := add_dependency_link (dependents_by_pane st) (pane d) id |>
         <| dependents_by_run := link_observation (observation d) id (dependents_by_run st) |>)
    st ds.

(** The registration under the lock, once the owner has been checked. *)
Definition register_locked (owner : RunPaneIdentity) (panes : list RunPaneIdentity) (allow_failure : bool)
    (st : RegistryState) : result stuck (RegistryState * Z) :=
  let dependencies := (fun p => mkDependency p (snapshot_dependency st p)) <$> panes in
  let id := following_id (next_id st) in
  let st := link_dependencies id dependencies (st <| next_id := id |>) in
  let st := st <| runs := <[id := mkNode owner dependencies allow_failure false None (Some id)]> (runs st) |> in
  owner_state ← expect (RunCommand.panes st !! owner);
  let owner_was_shell := match active owner_state with Some (Shell _) => true | _ => false end in
  let st := set_pane owner (owner_state <| active := Some (Managed id) |>
                              <| managed_shell_result_pending := owner_was_shell |>) st in
  let '(st, roots) := replace_pending_command_observations st owner (ActiveManaged id) in
  st ← resolve_locked st (id :: roots);
  Ok (st, id).

(** A refused registration keeps the pane entry the lock made. *)
Definition register (owner : RunPaneIdentity) (dependencies : list RunPaneIdentity) (allow_failure : bool)
    (command : list string) (st : RegistryState) : RegistryState * result stuck Z :=
  match check_request owner dependencies command with
  | Err e => (st, Err e)
  | Panic => (st, Panic)
  | Ok _ =>
      let owner_state := pane_entry owner st in
      let st := set_pane owner owner_state st in
      match (_ ← ensure (available owner_state) (Refusal "the originating pane is no longer available");
             ensure (match active owner_state with Some (Managed _) => false | _ => true end)
               (Refusal "the originating pane already owns a waiting run")) with
      | Ok _ =>
          match register_locked owner dependencies allow_failure st with
          | Ok (st, id) => (st, Ok id)
          | Err e => (st, Err e)
          | Panic => (st, Panic)
          end
      | Err e => (st, Err e)
      | Panic => (st, Panic)
      end
  end.

(** ** What reaches the registry, as one sequence of calls *)
Inductive operation :=
| Observe (p : RunPaneIdentity) (event : TerminalEvent)
| Register (owner : RunPaneIdentity) (dependencies : list RunPaneIdentity) (allow_failure : bool) (command : list string)
| Reopened (p : RunPaneIdentity)
| Started (p : RunPaneIdentity) (command : string)
| Finished (p : RunPaneIdentity) (exit_code : option Z)
| ClosedPane (p : RunPaneIdentity)
| Lost (id : Z)
| Completed (id : Z) (exit_code : option Z)
| Shutdown.

Definition step (op : operation) (st : RegistryState) : result stuck RegistryState :=
  match op with
  | Observe p event => observe_terminal_event p event st
  | Register owner dependencies allow_failure command =>
      match register owner dependencies allow_failure command st with
      | (st, Ok _) | (st, Err (Refusal _)) => Ok st
      | (_, Err e) => Err e
      | (_, Panic) => Panic
      end
  | Reopened p => Ok (pane_reopened p st)
  | Started p command => command_started p command st
  | Finished p exit_code => command_finished p exit_code st
  | ClosedPane p => pane_closed p st
  | Lost id => connection_lost id st
  | Completed id exit_code => complete id exit_code st
  | Shutdown => shutdown st
  end.

Definition steps (ops : list operation) (st : RegistryState) : result stuck RegistryState :=
  foldl (fun r op => st ← r; step op st) (Ok st) ops.

End Registry.
End RunCommand.
