(* ===== verification/RunLinks.v ===== *)
(** * The links between runs and what they wait on

    The bookkeeping of [src/run_command.rs]: how replacing observations changes
    the runs, and that the two link tables always mirror the observations. *)
From Stdlib Require Import ZArith Lia List Bool.
From stdpp Require Import base numbers list gmap sets strings.
From S2P Require Import Prelude RunCommand.
Import RunCommand.
Open Scope Z_scope.
Open Scope zetta_scope.

(** ** Link tables *)
Section Links.
Context `{Countable K}.
Implicit Types links : gmap K (gset Z).

Definition linked links (k : K) (id : Z) : Prop := id ∈ default ∅ (links !! k).
Definition no_empty links : Prop := forall k, links !! k <> Some ∅.

Lemma linked_add links k id k' id' :
  linked (add_dependency_link links k id) k' id' <-> (k' = k /\ id' = id) \/ linked links k' id'.
Proof.
  unfold linked, add_dependency_link. destruct (decide (k' = k)) as [->|Hk].
  - rewrite lookup_insert_eq. cbn. rewrite elem_of_union, elem_of_singleton. intuition.
  - rewrite lookup_insert_ne by done. intuition.
Qed.

Lemma linked_remove links k id k' id' :
  linked (remove_dependency_link links k id) k' id' <-> linked links k' id' /\ ~ (k' = k /\ id' = id).
Proof.
  unfold linked, remove_dependency_link. destruct (links !! k) as [s|] eqn:Hs; cycle 1.
  { split; [|tauto]. intros Hl. split; [done|]. intros [-> ->]. rewrite Hs in Hl. by apply not_elem_of_empty in Hl. }
  destruct (decide (k' = k)) as [->|Hk].
  - rewrite Hs. cbn. destruct (decide (s ∖ {[id]} = ∅)) as [He|He].
    + rewrite lookup_delete_eq. cbn. split; [by intros ?%not_elem_of_empty|].
      intros [Hi Hn]. assert (id' ∈ s ∖ {[id]}) by set_solver. rewrite He in *. done.
    + rewrite lookup_insert_eq. cbn. set_solver.
  - destruct (decide _); [rewrite lookup_delete_ne by done|rewrite lookup_insert_ne by done]; intuition.
Qed.

Lemma no_empty_add links k id : no_empty links -> no_empty (add_dependency_link links k id).
Proof.
  intros Hl k'. unfold add_dependency_link. destruct (decide (k' = k)) as [->|Hk].
  - rewrite lookup_insert_eq. intros [= He]. set_solver.
  - rewrite lookup_insert_ne by done. apply Hl.
Qed.

Lemma no_empty_remove links k id : no_empty links -> no_empty (remove_dependency_link links k id).
Proof.
  intros Hl k'. unfold remove_dependency_link. destruct (links !! k) eqn:Hs; [|apply Hl].
  destruct (decide (k' = k)) as [->|Hk]; destruct (decide _).
  - by rewrite lookup_delete_eq.
  - rewrite lookup_insert_eq. congruence.
  - rewrite lookup_delete_ne by done. apply Hl.
  - rewrite lookup_insert_ne by done. apply Hl.
Qed.

Lemma linked_delete links k k' id' : linked (delete k links) k' id' <-> linked links k' id' /\ k' <> k.
Proof.
  unfold linked. destruct (decide (k' = k)) as [->|Hk].
  - rewrite lookup_delete_eq. cbn. set_solver.
  - rewrite lookup_delete_ne by done. tauto.
Qed.

Lemma no_empty_delete links k : no_empty links -> no_empty (delete k links).
Proof.
  intros Hl k'. destruct (decide (k' = k)) as [->|Hk]; [by rewrite lookup_delete_eq|].
  rewrite lookup_delete_ne by done. apply Hl.
Qed.
End Links.

Lemma linked_link o id links r id' :
  linked (link_observation o id links) r id' <-> (o = ActiveManaged r /\ id' = id) \/ linked links r id'.
Proof.
  destruct o; cbn; try (split; [tauto|intros [[? _]|?]; [discriminate|done]]).
  rewrite linked_add. split; intros [[]|]; subst; auto. left. split; congruence.
Qed.

Lemma linked_unlink o id links r id' :
  linked (unlink_observation o id links) r id' <-> linked links r id' /\ ~ (o = ActiveManaged r /\ id' = id).
Proof.
  destruct o; cbn; try (split; [intros ?; split; [done|intros [? _]; discriminate]|tauto]).
  rewrite linked_remove. split; intros [Hl Hn]; split; auto; intros []; subst; apply Hn; split; congruence.
Qed.

Lemma no_empty_link o id links : no_empty links -> no_empty (link_observation o id links).
Proof. destruct o; cbn; auto using no_empty_add. Qed.
Lemma no_empty_unlink o id links : no_empty links -> no_empty (unlink_observation o id links).
Proof. destruct o; cbn; auto using no_empty_remove. Qed.

(** ** Setting observations *)

Definition set_observation (o : DependencyObservation) (d : RunDependency) : RunDependency := d <| observation := o |>.
Definition observe_index (o : DependencyObservation) (i : nat) (node : RunNode) : RunNode :=
  node <| dependencies := alter (set_observation o) i (dependencies node) |>.
Definition observe_matching (o : DependencyObservation) (predicate : RunDependency -> bool) (node : RunNode) : RunNode :=
  node <| dependencies := (fun d => if predicate d then set_observation o d else d) <$> dependencies node |>.

(** What replacing observations leaves alone. *)
Record same_frame (st st' : RegistryState) : Prop := {
  frame_next_id : next_id st' = next_id st;
  frame_panes : panes st' = panes st;
  frame_by_pane : dependents_by_pane st' = dependents_by_pane st;
  frame_sent : sent st' = sent st;
}.

#[export] Instance same_frame_preorder : PreOrder same_frame.
Proof.
  split; [by constructor|]. intros ??? [] []. constructor; congruence.
Qed.

Lemma node_eta node : node <| dependencies := dependencies node |> = node.
Proof. by destruct node. Qed.

Lemma set_observation_same d : set_observation (observation d) d = d.
Proof. by destruct d. Qed.

Lemma alter_same {A} (f : A -> A) i (l : list A) : (forall a, l !! i = Some a -> f a = a) -> alter f i l = l.
Proof.
  intros Hf. apply list_eq. intros j. destruct (decide (j = i)) as [->|Hj].
  - rewrite list_lookup_alter_eq. destruct (l !! i); cbn; [|done]. by rewrite Hf.
  - by rewrite list_lookup_alter_ne.
Qed.

Lemma set_dependency_frame st id i o : same_frame st (set_dependency_observation st id i o).1.
Proof.
  unfold set_dependency_observation. destruct (runs st !! id ≫= _); [|by constructor].
  destruct (decide _); [by constructor|]. cbn [runs set_field]. destruct (runs st !! id); by constructor.
Qed.

Lemma set_dependency_runs st id i o :
  runs (set_dependency_observation st id i o).1 = alter (observe_index o i) id (runs st).
Proof.
  unfold set_dependency_observation. apply map_eq. intros j.
  destruct (runs st !! id) as [node|] eqn:Hn; cbn; cycle 1.
  { destruct (decide (j = id)) as [->|]; [by rewrite lookup_alter_eq, Hn|by rewrite lookup_alter_ne]. }
  assert (Hsame : observe_index o i node = node -> runs st !! j = alter (observe_index o i) id (runs st) !! j).
  { intros He. destruct (decide (j = id)) as [->|]; [rewrite lookup_alter_eq, Hn; cbn; by rewrite He|by rewrite lookup_alter_ne]. }
  destruct (dependencies node !! i) as [d|] eqn:Hd; cycle 1.
  { apply Hsame. unfold observe_index. rewrite alter_same; [apply node_eta|by rewrite Hd]. }
  destruct (decide (observation d = o)) as [<-|Ho]; cbn.
  { apply Hsame. unfold observe_index. rewrite alter_same; [apply node_eta|]. intros ? [= <-]%(eq_trans (eq_sym Hd)). apply set_observation_same. }
  change (runs (st <| dependents_by_run := _ |>)) with (runs st).
  rewrite Hn. cbn. destruct (decide (j = id)) as [->|].
  - by rewrite lookup_insert_eq, lookup_alter_eq, Hn.
  - by rewrite lookup_insert_ne, lookup_alter_ne.
Qed.

Lemma set_dependency_changed st id i o :
  (set_dependency_observation st id i o).2 = true <->
  exists node d, runs st !! id = Some node /\ dependencies node !! i = Some d /\ observation d <> o.
Proof.
  unfold set_dependency_observation.
  destruct (runs st !! id) as [node|] eqn:Hn; cbn; [|split; [done|intros (?&?&?&?); simplify_eq]].
  destruct (dependencies node !! i) as [d|] eqn:Hd; [|split; [done|intros (?&?&?&?&?); simplify_eq]].
  destruct (decide (observation d = o)) as [Ho|Ho]; cbn; [split; [done|intros (?&?&?&?&?); simplify_eq]|].
  change (runs (st <| dependents_by_run := _ |>)) with (runs st). rewrite Hn. cbn.
  split; [intros _; eauto|done].
Qed.

(** ** The tables mirror the observations *)
Record links_ok (st : RegistryState) : Prop := {
  deps_nodup id node : runs st !! id = Some node -> NoDup (pane <$> dependencies node);
  managed_owner id node d r :
    runs st !! id = Some node -> d ∈ dependencies node -> observation d = ActiveManaged r ->
    exists node', runs st !! r = Some node' /\ owner node' = pane d;
  pane_linked p id :
    linked (dependents_by_pane st) p id <-> exists node, runs st !! id = Some node /\ p ∈ pane <$> dependencies node;
  run_linked r id :
    linked (dependents_by_run st) r id <->
    exists node, runs st !! id = Some node /\ ActiveManaged r ∈ observation <$> dependencies node;
  pane_no_empty : no_empty (dependents_by_pane st);
  run_no_empty : no_empty (dependents_by_run st);
}.

(** A run may be observed only on its owner's pane. *)
Definition observable (st : RegistryState) (o : DependencyObservation) (p : RunPaneIdentity) : Prop :=
  forall r, o = ActiveManaged r -> exists node', runs st !! r = Some node' /\ owner node' = p.

Lemma pane_alter o (i : nat) (ds : list RunDependency) : pane <$> alter (set_observation o) i ds = pane <$> ds.
Proof. revert i. induction ds as [|d ds IH]; intros [|i]; cbn; try done. f_equal. apply IH. Qed.

Lemma owner_alter o (i : nat) (id : Z) (m : gmap Z RunNode) (r : Z) :
  owner <$> (alter (observe_index o i) id m !! r) = owner <$> (m !! r).
Proof.
  destruct (decide (r = id)) as [->|]; [rewrite lookup_alter_eq|by rewrite lookup_alter_ne].
  by destruct (m !! id).
Qed.

Lemma set_dependency_by_run st id i o node d :
  runs st !! id = Some node -> dependencies node !! i = Some d -> observation d <> o ->
  dependents_by_run (set_dependency_observation st id i o).1 =
    link_observation o id (unlink_observation (observation d) id (dependents_by_run st)).
Proof.
  intros Hn Hd Ho. unfold set_dependency_observation. rewrite Hn. cbn. rewrite Hd.
  rewrite decide_False by done. change (runs (st <| dependents_by_run := _ |>)) with (runs st). by rewrite Hn.
Qed.

Lemma elem_observation_alter o (i : nat) (ds : list RunDependency) d o' :
  ds !! i = Some d ->
  o' ∈ observation <$> alter (set_observation o) i ds <-> o' = o \/ exists j d', ds !! j = Some d' /\ j <> i /\ observation d' = o'.
Proof.
  intros Hd. rewrite list_elem_of_fmap. split.
  - intros (d' & -> & [j Hj]%list_elem_of_lookup). destruct (decide (j = i)) as [->|Hij].
    + rewrite list_lookup_alter_eq, Hd in Hj. injection Hj as <-. by left.
    + rewrite list_lookup_alter_ne in Hj by done. right. eauto.
  - intros [->|(j & d' & Hj & Hij & <-)].
    + exists (set_observation o d). split; [done|]. apply list_elem_of_lookup. exists i. by rewrite list_lookup_alter_eq, Hd.
    + exists d'. split; [done|]. apply list_elem_of_lookup. exists j. by rewrite list_lookup_alter_ne.
Qed.

(** A dependency pane is listed once, and the runs that own it are the only ones
    its observation can name. *)
Lemma managed_unique st id node i j d d' r :
  links_ok st -> runs st !! id = Some node -> dependencies node !! i = Some d -> dependencies node !! j = Some d' ->
  observation d = ActiveManaged r -> observation d' = ActiveManaged r -> i = j.
Proof.
  intros Hl Hn Hi Hj Hd Hd'.
  destruct (managed_owner _ Hl id node d r) as (n & Hr & Hp); [done|eapply list_elem_of_lookup_2; eauto|done|].
  destruct (managed_owner _ Hl id node d' r) as (n' & Hr' & Hp'); [done|eapply list_elem_of_lookup_2; eauto|done|].
  simplify_eq. pose proof (deps_nodup _ Hl _ _ Hn) as Hnd. rewrite NoDup_alt in Hnd. apply (Hnd i j (pane d)).
  - by rewrite list_lookup_fmap, Hi.
  - rewrite list_lookup_fmap, Hj. cbn. congruence.
Qed.

Lemma set_dependency_same st id i o :
  (set_dependency_observation st id i o).2 = false -> (set_dependency_observation st id i o).1 = st.
Proof.
  unfold set_dependency_observation. destruct (runs st !! id) as [node|] eqn:Hn; cbn; [|done].
  destruct (dependencies node !! i); [|done]. destruct (decide _); [done|].
  change (runs (st <| dependents_by_run := _ |>)) with (runs st). by rewrite Hn.
Qed.

Lemma set_dependency_links_ok st id i o :
  links_ok st ->
  (forall node d, runs st !! id = Some node -> dependencies node !! i = Some d -> observable st o (pane d)) ->
  links_ok (set_dependency_observation st id i o).1.
Proof.
  intros Hl Ho. destruct (set_dependency_observation st id i o).2 eqn:Hc; [|by rewrite set_dependency_same].
  apply set_dependency_changed in Hc as (node & d & Hn & Hd & Hne).
  pose proof (set_dependency_runs st id i o) as Hruns.
  pose proof (set_dependency_by_run st id i o node d Hn Hd Hne) as Hby.
  destruct (set_dependency_frame st id i o) as [_ _ Hbp _].
  set (st' := (set_dependency_observation st id i o).1) in *. clearbody st'.
  assert (Hlook : forall id', runs st' !! id' = if decide (id' = id) then Some (observe_index o i node) else runs st !! id').
  { intros id'. rewrite Hruns. destruct (decide (id' = id)) as [->|]; [by rewrite lookup_alter_eq, Hn|by rewrite lookup_alter_ne]. }
  assert (Hnode : forall id' node', runs st' !! id' = Some node' ->
    exists node0, runs st !! id' = Some node0 /\ pane <$> dependencies node' = pane <$> dependencies node0).
  { intros id' node'. rewrite Hlook. destruct (decide (id' = id)) as [->|]; [|eauto].
    intros [= <-]. exists node. split; [done|]. apply pane_alter. }
  assert (Hown : forall r p, (exists n, runs st !! r = Some n /\ owner n = p) -> exists n, runs st' !! r = Some n /\ owner n = p).
  { intros r p (n & Hr & Hp). rewrite Hlook. destruct (decide (r = id)) as [->|]; [|eauto]. simplify_eq. eauto. }
  constructor.
  - intros id' node' (node0 & Hn0 & ->)%Hnode. by apply (deps_nodup _ Hl id').
  - intros id' node' d' r. rewrite Hlook. destruct (decide (id' = id)) as [->|Hid].
    2:{ intros Hn' Hd' Hr. apply Hown. by apply (managed_owner _ Hl id' node'). }
    intros [= <-] [j Hj]%list_elem_of_lookup Hr. cbn in Hj. destruct (decide (j = i)) as [->|Hij].
    + rewrite list_lookup_alter_eq, Hd in Hj. injection Hj as <-. apply Hown. by apply (Ho node d).
    + rewrite list_lookup_alter_ne in Hj by done. apply Hown. apply (managed_owner _ Hl id node); [done| |done].
      by eapply list_elem_of_lookup_2.
  - intros p id'. rewrite Hbp, (pane_linked _ Hl). split.
    + intros (n & Hn' & Hp). rewrite Hlook. destruct (decide (id' = id)) as [->|]; [|eauto].
      simplify_eq. eexists. split; [done|]. cbn. by rewrite pane_alter.
    + intros (n & (n0 & Hn0 & He)%Hnode & Hp). exists n0. split; [done|]. congruence.
  - intros r id'. rewrite Hby, linked_link, linked_unlink, (run_linked _ Hl). rewrite Hlook.
    destruct (decide (id' = id)) as [->|Hid]; [|split; [by intros [[_ ?]|[? _]]|intros ?; right; split; [done|by intros [_ ?]]]].
    transitivity (ActiveManaged r ∈ observation <$> dependencies (observe_index o i node));
      [|split; [eauto|by intros (? & [= <-] & ?)]].
    cbn. rewrite (elem_observation_alter o i _ d) by done. split.
    + intros [[-> _]|[(n & Hn' & (d' & Hr & [j Hj]%list_elem_of_lookup)%list_elem_of_fmap) Hnot]]; [by left|].
      simplify_eq. right. exists j, d'. split; [done|]. split; [|done]. intros ->. simplify_eq. apply Hnot. by split.
    + intros [->|(j & d' & Hj & Hij & Hr)]; [by left|right]. split.
      * exists node. split; [done|]. apply list_elem_of_fmap. exists d'. split; [done|]. by eapply list_elem_of_lookup_2.
      * intros [Hr' _]. apply Hij. by eapply managed_unique.
  - rewrite Hbp. apply (pane_no_empty _ Hl).
  - rewrite Hby. apply no_empty_link, no_empty_unlink, (run_no_empty _ Hl).
Qed.

(** ** Replacing observations *)

(** The owners of runs never change, so what may be observed does not either. *)
Definition same_owners (st st' : RegistryState) : Prop :=
  forall r, owner <$> (runs st' !! r) = owner <$> (runs st !! r).

Lemma observable_owners st st' o p : same_owners st st' -> observable st o p -> observable st' o p.
Proof.
  intros Hs Ho r Hr. destruct (Ho r Hr) as (n & Hn & <-). specialize (Hs r). rewrite Hn in Hs.
  destruct (runs st' !! r) as [n'|]; [|done]. injection Hs as Hs. exists n'. done.
Qed.

Lemma set_dependency_owners st id i o : same_owners st (set_dependency_observation st id i o).1.
Proof. intros r. rewrite set_dependency_runs. apply owner_alter. Qed.

Definition stale (st : RegistryState) (id : Z) (o : DependencyObservation) (i : nat) : Prop :=
  exists node d, runs st !! id = Some node /\ dependencies node !! i = Some d /\ observation d <> o.

Lemma stale_set st id o i j : stale (set_dependency_observation st id i o).1 id o j <-> j <> i /\ stale st id o j.
Proof.
  unfold stale. rewrite set_dependency_runs, lookup_alter_eq. split.
  - intros (node & d & [n [Hn ->]]%fmap_Some & Hd & Hne). cbn in Hd. destruct (decide (j = i)) as [->|Hj].
    + rewrite list_lookup_alter_eq in Hd. destruct (dependencies n !! i); [|done]. injection Hd as <-. done.
    + rewrite list_lookup_alter_ne in Hd by done. eauto 10.
  - intros (Hj & node & d & Hn & Hd & Hne). exists (observe_index o i node), d. rewrite Hn. split; [done|].
    split; [|done]. cbn. by rewrite list_lookup_alter_ne.
Qed.

Definition observe_indices (o : DependencyObservation) (ix : list nat) (node : RunNode) : RunNode :=
  node <| dependencies := foldl (fun ds i => alter (set_observation o) i ds) (dependencies node) ix |>.

Definition replace_index (o : DependencyObservation) (id : Z) (acc : RegistryState * gset Z) (i : nat) :
    RegistryState * gset Z :=
  ((set_dependency_observation acc.1 id i o).1,
   if (set_dependency_observation acc.1 id i o).2 then {[id]} ∪ acc.2 else acc.2).

Lemma replace_in_eq o predicate acc id :
  replace_in o predicate acc id = foldl (replace_index o id) acc (matching_indices predicate acc.1 id).
Proof.
  unfold replace_in. generalize (matching_indices predicate acc.1 id) as ix. intros ix.
  revert acc. induction ix as [|i ix IH]; intros [st ch]; [done|]. cbn [foldl]. rewrite IH. f_equal.
  unfold replace_index. cbn. by destruct (set_dependency_observation st id i o).
Qed.

Lemma replace_indices_runs o id ix acc :
  runs (foldl (replace_index o id) acc ix).1 = alter (observe_indices o ix) id (runs acc.1).
Proof.
  revert acc. induction ix as [|i ix IH]; intros [st ch].
  - cbn. apply map_eq. intros j. destruct (decide (j = id)) as [->|]; [|by rewrite lookup_alter_ne].
    rewrite lookup_alter_eq. destruct (runs st !! id) as [n|]; [|done]. cbn. by destruct n.
  - cbn [foldl]. rewrite IH. cbn [replace_index fst]. rewrite set_dependency_runs.
    apply map_eq. intros j. destruct (decide (j = id)) as [->|]; [|by rewrite !lookup_alter_ne].
    rewrite !lookup_alter_eq. by destruct (runs st !! id).
Qed.

Lemma replace_indices_frame o id ix acc : same_frame acc.1 (foldl (replace_index o id) acc ix).1.
Proof.
  revert acc. induction ix as [|i ix IH]; intros [st ch]; [reflexivity|]. cbn [foldl].
  etransitivity; [|apply IH]. apply set_dependency_frame.
Qed.

Lemma replace_indices_changed o id ix acc x :
  x ∈ (foldl (replace_index o id) acc ix).2 <-> x ∈ acc.2 \/ (x = id /\ exists i, i ∈ ix /\ stale acc.1 id o i).
Proof.
  revert acc. induction ix as [|i ix IH]; intros [st ch].
  { cbn. split; [by left|]. intros [?|(_ & i & []%elem_of_nil & _)]; done. }
  cbn [foldl]. rewrite IH. cbn [replace_index fst snd]. setoid_rewrite stale_set.
  assert (Hc : x ∈ (if (set_dependency_observation st id i o).2 then {[id]} ∪ ch else ch) <->
               x ∈ ch \/ (x = id /\ stale st id o i)).
  { unfold stale. rewrite <- set_dependency_changed. destruct (set_dependency_observation st id i o).2; [|naive_solver].
    rewrite elem_of_union, elem_of_singleton. naive_solver. }
  rewrite Hc. split.
  - intros [[?|[-> ?]]|(-> & j & Hj & Hne & Hs)]; [by left| |]; right; (split; [done|]).
    + exists i. split; [left|done].
    + exists j. split; [by right|done].
  - intros [?|(-> & j & [->|Hj]%elem_of_cons & Hs)]; [by left; left|by left; right|].
    destruct (decide (j = i)) as [->|]; [by left; right|]. right. eauto 10.
Qed.

Lemma replace_indices_links_ok o id ix acc :
  links_ok acc.1 ->
  (forall i node d, i ∈ ix -> runs acc.1 !! id = Some node -> dependencies node !! i = Some d -> observable acc.1 o (pane d)) ->
  links_ok (foldl (replace_index o id) acc ix).1.
Proof.
  revert acc. induction ix as [|i ix IH]; intros [st ch] Hl Ho; [done|]. cbn [foldl]. cbn [fst] in *.
  apply IH; cbn [replace_index fst].
  - apply set_dependency_links_ok; [done|]. intros node d. apply Ho. left.
  - intros j node d Hj. rewrite set_dependency_runs, lookup_alter_eq. intros [n [Hn ->]]%fmap_Some Hd.
    apply observable_owners with st; [apply set_dependency_owners|]. cbn in Hd.
    assert (Hp : (pane <$> dependencies n) !! j = Some (pane d)).
    { rewrite <- (pane_alter o i). by rewrite list_lookup_fmap, Hd. }
    rewrite list_lookup_fmap in Hp. destruct (dependencies n !! j) as [d0|] eqn:Hd0; [|done]. injection Hp as <-.
    apply (Ho j n d0); [by right|done|done].
Qed.

(** The indices collected are those the predicate holds at. *)
Lemma elem_matching predicate st id i :
  i ∈ matching_indices predicate st id <->
  exists node d, runs st !! id = Some node /\ dependencies node !! i = Some d /\ predicate d = true.
Proof.
  unfold matching_indices. destruct (runs st !! id) as [node|]; cycle 1.
  { split; [by intros ?%elem_of_nil|intros (?&?&?&_); done]. }
  rewrite list_elem_of_omap. split.
  - intros ([j|] & [k Hk]%list_elem_of_lookup & [= ->]). rewrite list_lookup_imap in Hk.
    apply fmap_Some in Hk as (d & Hd & He). destruct (predicate d) eqn:Hp; [|done]. simplify_eq. eauto.
  - intros (n & d & [= <-] & Hd & Hp). exists (Some i). split; [|done]. apply list_elem_of_lookup. exists i.
    by rewrite list_lookup_imap, Hd; cbn; rewrite Hp.
Qed.

Lemma foldl_alter_lookup {A} (f : A -> A) (Hf : forall a, f (f a) = f a) ix (l : list A) j :
  foldl (fun l i => alter f i l) l ix !! j = if decide (j ∈ ix) then f <$> l !! j else l !! j.
Proof.
  revert l. induction ix as [|i ix IH]; intros l; cbn [foldl].
  { by rewrite decide_False by apply not_elem_of_nil. }
  rewrite IH. destruct (decide (j = i)) as [->|Hj].
  - rewrite list_lookup_alter_eq, (decide_True _ _ (P := i ∈ i :: ix)) by left.
    destruct (decide (i ∈ ix)); [|done]. destruct (l !! i); cbn; [|done]. by rewrite Hf.
  - rewrite list_lookup_alter_ne by done. destruct (decide (j ∈ ix)).
    + by rewrite decide_True by (by right).
    + by rewrite decide_False by (by apply not_elem_of_cons).
Qed.

Lemma observe_matching_indices o predicate st id node :
  runs st !! id = Some node -> observe_indices o (matching_indices predicate st id) node = observe_matching o predicate node.
Proof.
  intros Hn. unfold observe_indices, observe_matching. unfold set_field. cbn. f_equal. apply list_eq. intros j.
  rewrite foldl_alter_lookup by done. rewrite list_lookup_fmap.
  destruct (dependencies node !! j) as [d|] eqn:Hd; [|by destruct (decide _)].
  assert (Hm : j ∈ matching_indices predicate st id <-> predicate d = true).
  { rewrite elem_matching. split; [intros (?&?&?&?&?); by simplify_eq|eauto]. }
  cbn. destruct (predicate d); [rewrite decide_True by (by apply Hm); done|].
  rewrite decide_False; [done|]. rewrite Hm. done.
Qed.

(** The tables see only who owns a run and what it depends on. *)
Definition shape (node : RunNode) : RunPaneIdentity * list RunDependency := (owner node, dependencies node).

Lemma links_ok_shape st st' :
  (forall id, shape <$> (runs st' !! id) = shape <$> (runs st !! id)) ->
  dependents_by_pane st' = dependents_by_pane st -> dependents_by_run st' = dependents_by_run st ->
  links_ok st -> links_ok st'.
Proof.
  intros Hs Hbp Hbr Hl.
  assert (Hto : forall id n, runs st' !! id = Some n ->
    exists n0, runs st !! id = Some n0 /\ owner n0 = owner n /\ dependencies n0 = dependencies n).
  { intros id n Hn. specialize (Hs id). rewrite Hn in Hs. destruct (runs st !! id) as [n0|]; [|done].
    injection Hs as He Hd. eauto. }
  assert (Hfrom : forall id n0, runs st !! id = Some n0 ->
    exists n, runs st' !! id = Some n /\ owner n = owner n0 /\ dependencies n = dependencies n0).
  { intros id n0 Hn. specialize (Hs id). rewrite Hn in Hs. destruct (runs st' !! id) as [n|]; [|done].
    injection Hs as He Hd. eauto. }
  constructor.
  - intros id n (n0 & Hn0 & _ & <-)%Hto. by apply (deps_nodup _ Hl id).
  - intros id n d r (n0 & Hn0 & _ & <-)%Hto Hd Hr. destruct (managed_owner _ Hl id n0 d r) as (n' & Hn' & <-); [done..|].
    destruct (Hfrom _ _ Hn') as (n'' & ? & ? & _). eauto.
  - intros p id. rewrite Hbp, (pane_linked _ Hl). split.
    + intros (n & (n' & Hn' & _ & Hd)%Hfrom & Hp). exists n'. by rewrite Hd.
    + intros (n & (n' & Hn' & _ & Hd)%Hto & Hp). exists n'. by rewrite Hd.
  - intros r id. rewrite Hbr, (run_linked _ Hl). split.
    + intros (n & (n' & Hn' & _ & Hd)%Hfrom & Hp). exists n'. by rewrite Hd.
    + intros (n & (n' & Hn' & _ & Hd)%Hto & Hp). exists n'. by rewrite Hd.
  - rewrite Hbp. apply (pane_no_empty _ Hl).
  - rewrite Hbr. apply (run_no_empty _ Hl).
Qed.

(** ** Adding and retiring a run *)

Lemma link_dependencies_spec id ds st :
  let st' := link_dependencies id ds st in
  (next_id st' = next_id st /\ panes st' = panes st /\ runs st' = runs st /\ sent st' = sent st) /\
  (forall p x, linked (dependents_by_pane st') p x <-> (x = id /\ p ∈ pane <$> ds) \/ linked (dependents_by_pane st) p x) /\
  (forall r x, linked (dependents_by_run st') r x <-> (x = id /\ ActiveManaged r ∈ observation <$> ds) \/ linked (dependents_by_run st) r x) /\
  (no_empty (dependents_by_pane st) -> no_empty (dependents_by_pane st')) /\
  (no_empty (dependents_by_run st) -> no_empty (dependents_by_run st')).
Proof.
  unfold link_dependencies. revert st. induction ds as [|d ds IH]; intros st; cbn [foldl].
  { cbn. repeat split; try done; try (by right); intros [[_ ?%elem_of_nil]|?]; done. }
  destruct (IH (st <| dependents_by_pane := add_dependency_link (dependents_by_pane st) (pane d) id |>
                   <| dependents_by_run := link_observation (observation d) id (dependents_by_run st) |>))
    as ((Hn & Hp & Hr & Hs) & Hbp & Hbr & Hep & Her). cbn [set_field dependents_by_pane dependents_by_run fmap list_fmap] in *.
  split; [done|]. split; [|split; [|split]].
  - intros p x. rewrite Hbp, linked_add, elem_of_cons. intuition.
  - intros r x. rewrite Hbr. unfold set_field. cbn. rewrite linked_link, elem_of_cons. intuition.
  - intros He. apply Hep. by apply no_empty_add.
  - intros He. apply Her. by apply no_empty_link.
Qed.

Lemma insert_run_links_ok st id node :
  links_ok st -> runs st !! id = None -> NoDup (pane <$> dependencies node) ->
  (forall d, d ∈ dependencies node -> observable st (observation d) (pane d)) ->
  links_ok (link_dependencies id (dependencies node) st <| runs := <[id := node]> (runs st) |>).
Proof.
  intros Hl Hid Hnd Ho.
  destruct (link_dependencies_spec id (dependencies node) st) as ((_ & _ & Hr & _) & Hbp & Hbr & Hep & Her).
  set (st' := link_dependencies id (dependencies node) st) in *. clearbody st'.
  assert (Hfresh : forall r n, runs st !! r = Some n -> r <> id) by (intros r n Hn ->; congruence).
  constructor; cbn [runs dependents_by_pane dependents_by_run set_field].
  - intros id' n [[<- <-]|[_ Hn]]%lookup_insert_Some; [done|]. by apply (deps_nodup _ Hl id').
  - intros id' n d r Hn Hd Hr'.
    assert (exists n', runs st !! r = Some n' /\ owner n' = pane d) as (n' & Hn' & Hp).
    { apply lookup_insert_Some in Hn as [[<- <-]|[_ Hn]]; [by apply Ho|by apply (managed_owner _ Hl id' n)]. }
    exists n'. split; [|done]. rewrite lookup_insert_ne; [done|]. by apply not_eq_sym, (Hfresh r n').
  - intros p id'. change (linked (dependents_by_pane st') p id' <->
      exists n, <[id:=node]> (runs st) !! id' = Some n /\ p ∈ pane <$> dependencies n). rewrite Hbp, (pane_linked _ Hl).
    destruct (decide (id' = id)) as [->|Hne].
    + rewrite lookup_insert_eq, Hid. split; [intros [[_ ?]|(? & [=] & _)]; eauto|intros (? & [= <-] & ?); auto].
    + rewrite lookup_insert_ne by done. intuition.
  - intros r id'. change (linked (dependents_by_run st') r id' <->
      exists n, <[id:=node]> (runs st) !! id' = Some n /\ ActiveManaged r ∈ observation <$> dependencies n).
    rewrite Hbr, (run_linked _ Hl). destruct (decide (id' = id)) as [->|Hne].
    + rewrite lookup_insert_eq, Hid. split; [intros [[_ ?]|(? & [=] & _)]; eauto|intros (? & [= <-] & ?); auto].
    + rewrite lookup_insert_ne by done. intuition.
  - apply Hep, (pane_no_empty _ Hl).
  - apply Her, (run_no_empty _ Hl).
Qed.

Definition unlink_dependencies (id : Z) (ds : list RunDependency) (st : RegistryState) : RegistryState :=
  foldl (fun st d =>
    st <| dependents_by_pane := remove_dependency_link (dependents_by_pane st) (pane d) id |>
       <| dependents_by_run := unlink_observation (observation d) id (dependents_by_run st) |>) st ds.

Lemma unlink_dependencies_spec id ds st :
  let st' := unlink_dependencies id ds st in
  (next_id st' = next_id st /\ panes st' = panes st /\ runs st' = runs st /\ sent st' = sent st) /\
  (forall p x, linked (dependents_by_pane st') p x <-> linked (dependents_by_pane st) p x /\ ~ (x = id /\ p ∈ pane <$> ds)) /\
  (forall r x, linked (dependents_by_run st') r x <->
     linked (dependents_by_run st) r x /\ ~ (x = id /\ ActiveManaged r ∈ observation <$> ds)) /\
  (no_empty (dependents_by_pane st) -> no_empty (dependents_by_pane st')) /\
  (no_empty (dependents_by_run st) -> no_empty (dependents_by_run st')).
Proof.
  unfold unlink_dependencies. revert st. induction ds as [|d ds IH]; intros st; cbn [foldl].
  { cbn. repeat split; try done; try tauto; by intros [_ ?%elem_of_nil]. }
  destruct (IH (st <| dependents_by_pane := remove_dependency_link (dependents_by_pane st) (pane d) id |>
                   <| dependents_by_run := unlink_observation (observation d) id (dependents_by_run st) |>))
    as ((Hn & Hp & Hr & Hs) & Hbp & Hbr & Hep & Her). cbn [set_field dependents_by_pane dependents_by_run fmap list_fmap] in *.
  split; [done|]. split; [|split; [|split]].
  - intros p x. rewrite Hbp, linked_remove, elem_of_cons. intuition.
  - intros r x. rewrite Hbr. unfold set_field. cbn. rewrite linked_unlink, elem_of_cons. intuition.
  - intros He. apply Hep. by apply no_empty_remove.
  - intros He. apply Her. by apply no_empty_unlink.
Qed.

Lemma remove_run_frame st id :
  next_id (remove_run st id) = next_id st /\ sent (remove_run st id) = sent st /\
  runs (remove_run st id) = delete id (runs st) /\
  panes (remove_run st id) = match runs st !! id with Some _ => release_pane id <$> panes st | None => panes st end.
Proof.
  unfold remove_run. destruct (runs st !! id) as [node|] eqn:Hn; [|by rewrite delete_id].
  set (st0 := st <| runs := _ |> <| panes := _ |>).
  destruct (unlink_dependencies_spec id (dependencies node) st0) as ((Hi & Hp & Hr & Hs) & _).
  unfold unlink_dependencies in *. cbn. by rewrite Hi, Hp, Hr, Hs.
Qed.

Lemma remove_run_links_ok st id :
  links_ok st ->
  (forall x n d, runs st !! x = Some n -> d ∈ dependencies n -> observation d <> ActiveManaged id) ->
  links_ok (remove_run st id).
Proof.
  intros Hl Hno. unfold remove_run. destruct (runs st !! id) as [node|] eqn:Hid; [|done].
  set (st0 := st <| runs := _ |> <| panes := _ |>).
  destruct (unlink_dependencies_spec id (dependencies node) st0) as ((_ & _ & Hr & _) & Hbp & Hbr & Hep & Her).
  fold (unlink_dependencies id (dependencies node) st0).
  set (st' := unlink_dependencies id (dependencies node) st0) in *. clearbody st'. cbn in Hr, Hbp, Hbr, Hep, Her.
  constructor; cbn [runs dependents_by_pane dependents_by_run set_field]; rewrite ?Hr.
  - intros id' n [_ Hn]%lookup_delete_Some. by apply (deps_nodup _ Hl id').
  - intros id' n d r [_ Hn]%lookup_delete_Some Hd Hr'. destruct (managed_owner _ Hl id' n d r) as (n' & Hn' & Hp); [done..|].
    exists n'. split; [|done]. rewrite lookup_delete_ne; [done|]. intros <-. by apply (Hno id' n d).
  - intros p id'. change (linked (dependents_by_pane st') p id' <->
      exists n, delete id (runs st) !! id' = Some n /\ p ∈ pane <$> dependencies n). rewrite Hbp, (pane_linked _ Hl).
    destruct (decide (id' = id)) as [->|Hne].
    + rewrite lookup_delete_eq, Hid. split; [intros [(? & [= <-] & ?) []]; auto|intros (? & [=] & _)].
    + rewrite lookup_delete_ne by done. intuition.
  - intros r id'. change (linked (delete id (dependents_by_run st')) r id' <->
      exists n, delete id (runs st) !! id' = Some n /\ ActiveManaged r ∈ observation <$> dependencies n).
    rewrite linked_delete, Hbr, (run_linked _ Hl). destruct (decide (id' = id)) as [->|Hne].
    + rewrite lookup_delete_eq, Hid. split; [intros [[(? & [= <-] & ?) []] _]; auto|intros (? & [=] & _)].
    + rewrite lookup_delete_ne by done. split; [intros [[? _] _]; done|]. intros (n & Hn & He). split.
      * split; [eauto|]. by intros [? _].
      * intros ->. apply list_elem_of_fmap in He as (d & Hd & Hin). by apply (Hno id' n d).
  - apply Hep, (pane_no_empty _ Hl).
  - apply no_empty_delete, Her, (run_no_empty _ Hl).
Qed.

Section Registry.
Context {order : Iteration}.

Lemma elem_iterate st s x : x ∈ iterate st s <-> x ∈ s.
Proof. by rewrite iterate_elements, elem_of_elements. Qed.
Lemma NoDup_iterate st s : NoDup (iterate st s).
Proof. rewrite iterate_elements. apply NoDup_elements. Qed.

Lemma replace_in_runs o predicate acc id :
  runs (replace_in o predicate acc id).1 = alter (observe_matching o predicate) id (runs acc.1).
Proof.
  rewrite replace_in_eq, replace_indices_runs. apply map_eq. intros j.
  destruct (decide (j = id)) as [->|]; [|by rewrite !lookup_alter_ne]. rewrite !lookup_alter_eq.
  destruct (runs acc.1 !! id) eqn:Hn; [|done]. cbn. by rewrite observe_matching_indices.
Qed.

(** What replacing observations does. *)
Record replaced (o : DependencyObservation) (predicate : RunDependency -> bool) (ids : gset Z)
    (st st' : RegistryState) (roots : list Z) : Prop := {
  replaced_frame : same_frame st st';
  replaced_runs id :
    runs st' !! id = (if decide (id ∈ ids) then observe_matching o predicate else fun n => n) <$> runs st !! id;
  replaced_roots id :
    id ∈ roots <-> id ∈ ids /\ exists node d, runs st !! id = Some node /\ d ∈ dependencies node /\
                                      predicate d = true /\ observation d <> o;
  replaced_nodup : NoDup roots;
}.

Lemma replace_ids_spec o predicate l acc :
  NoDup l ->
  let acc' := foldl (replace_in o predicate) acc l in
  same_frame acc.1 acc'.1 /\
  (forall id, runs acc'.1 !! id = (if decide (id ∈ l) then observe_matching o predicate else fun n => n) <$> runs acc.1 !! id) /\
  (forall id, id ∈ acc'.2 <-> id ∈ acc.2 \/ (id ∈ l /\ exists i, i ∈ matching_indices predicate acc.1 id /\ stale acc.1 id o i)).
Proof.
  revert acc. induction l as [|x l IH]; intros acc Hnd acc'; subst acc'; cbn [foldl].
  { repeat split; try done; [|by left|by intros [?|[?%elem_of_nil _]]].
    intros id. rewrite decide_False by apply not_elem_of_nil. by destruct (runs acc.1 !! id). }
  apply NoDup_cons in Hnd as [Hx Hnd]. destruct (IH (replace_in o predicate acc x) Hnd) as (Hf & Hr & Hc).
  assert (Hne : forall id, id <> x -> runs (replace_in o predicate acc x).1 !! id = runs acc.1 !! id).
  { intros id Hid. by rewrite replace_in_runs, lookup_alter_ne. }
  split; [|split].
  - etransitivity; [|apply Hf]. rewrite replace_in_eq. apply replace_indices_frame.
  - intros id. rewrite Hr. destruct (decide (id = x)) as [->|Hid].
    + rewrite decide_False, decide_True by (by rewrite ?elem_of_cons; auto). rewrite replace_in_runs, lookup_alter_eq.
      by destruct (runs acc.1 !! x).
    + rewrite Hne by done. destruct (decide (id ∈ l)); [rewrite decide_True by (by right); done|].
      by rewrite decide_False by (by apply not_elem_of_cons).
  - intros id. rewrite Hc, elem_of_cons. rewrite replace_in_eq at 1. rewrite replace_indices_changed.
    assert (Hsame : id <> x -> (exists i, i ∈ matching_indices predicate (replace_in o predicate acc x).1 id /\
        stale (replace_in o predicate acc x).1 id o i) <-> exists i, i ∈ matching_indices predicate acc.1 id /\ stale acc.1 id o i).
    { intros Hid. unfold stale. setoid_rewrite elem_matching. by rewrite Hne. }
    destruct (decide (id = x)) as [->|Hid]; [naive_solver|]. rewrite Hsame by done. naive_solver.
Qed.

Lemma replace_in_owners o predicate acc id : same_owners acc.1 (replace_in o predicate acc id).1.
Proof.
  intros r. rewrite replace_in_runs. destruct (decide (r = id)) as [->|]; [rewrite lookup_alter_eq|by rewrite lookup_alter_ne].
  by destruct (runs acc.1 !! id).
Qed.

Lemma replace_ids_links_ok o predicate l acc :
  NoDup l -> links_ok acc.1 ->
  (forall id node d, id ∈ l -> runs acc.1 !! id = Some node -> d ∈ dependencies node -> predicate d = true ->
     observable acc.1 o (pane d)) ->
  links_ok (foldl (replace_in o predicate) acc l).1.
Proof.
  revert acc. induction l as [|x l IH]; intros acc Hnd Hl Ho; [done|]. cbn [foldl].
  apply NoDup_cons in Hnd as [Hx Hnd]. apply IH; [done| |].
  - rewrite replace_in_eq. apply replace_indices_links_ok; [done|].
    intros i node d (n & d' & Hn & Hd & Hp)%elem_matching Hn' Hd'. simplify_eq.
    apply (Ho x n d'); [left|done| |done]. by eapply list_elem_of_lookup_2.
  - intros id node d Hid. rewrite replace_in_runs, lookup_alter_ne by congruence. intros Hn Hd Hp.
    apply observable_owners with acc.1; [apply replace_in_owners|]. apply (Ho id node d); [by right|done..].
Qed.

Lemma replace_observations_links_ok st ids o predicate :
  links_ok st ->
  (forall id node d, runs st !! id = Some node -> d ∈ dependencies node -> predicate d = true -> observable st o (pane d)) ->
  links_ok (replace_observations st ids o predicate).1.
Proof.
  intros Hl Ho. unfold replace_observations.
  pose proof (replace_ids_links_ok o predicate (iterate st ids) (st, ∅) (NoDup_iterate _ _) Hl) as Hr.
  destruct (foldl _ _ _) as [st' changed]. apply Hr. eauto.
Qed.

Lemma replace_observations_spec st ids o predicate :
  let '(st', roots) := replace_observations st ids o predicate in replaced o predicate ids st st' roots.
Proof.
  unfold replace_observations.
  destruct (replace_ids_spec o predicate (iterate st ids) (st, ∅) (NoDup_iterate st ids)) as (Hf & Hr & Hc).
  destruct (foldl _ _ _) as [st' changed]. cbn [fst snd] in *. constructor.
  - done.
  - intros id. rewrite Hr. do 2 destruct (decide _); try done; by rewrite elem_iterate in *.
  - intros id. rewrite elem_iterate, Hc, elem_iterate. setoid_rewrite elem_matching. unfold stale. split.
    + intros [[]%not_elem_of_empty|(Hid & i & (n & d & Hn & Hd & Hp) & (n' & d' & Hn' & Hd' & Hne))]. simplify_eq.
      split; [done|]. exists n, d. split; [done|]. split; [by eapply list_elem_of_lookup_2|done].
    + intros (Hid & n & d & Hn & [i Hd]%list_elem_of_lookup & Hp & Hne). right. split; [done|]. exists i. eauto 10.
  - apply NoDup_iterate.
Qed.
End Registry.
