(* ===== verification/RunResolve.v ===== *)
(** * Resolving the runs that wait

    What [resolve_locked] and [evaluate_run] of [src/run_command.rs] do to a
    registry, as [RunCommand] models them: evaluation is total and finds every
    cycle, each turn of the resolution keeps the registry's invariant, and the
    resolution ends with every waiting run having something to wait for. *)
From Stdlib Require Import ZArith Lia List Bool.
From stdpp Require Import base numbers list gmap sets strings.
From S2P Require Import Prelude RunCommand RunLinks.
Import RunCommand.
Open Scope Z_scope.
Open Scope zetta_scope.

(** ** Waiting runs *)

(** A run whose wrapper has not been told anything yet. *)
Definition waiting (node : RunNode) : Prop := terminal node = None /\ ready node = false.
Definition live (st : RegistryState) (id : Z) (node : RunNode) : Prop :=
  runs st !! id = Some node /\ terminal node = None.

(** An observation that something is still to come on the pane. *)
Definition pending_observation (o : DependencyObservation) : bool :=
  match o with WaitingForCommand | ActiveShell | ActiveManaged _ => true | _ => false end.

(** An observation that does not stop the run. *)
Definition passable (allow_failure : bool) (o : DependencyObservation) : bool :=
  match o with
  | WaitingForCommand | ActiveShell | ActiveManaged _ | Last (Success _) => true
  | Last (Failure _) => allow_failure
  | _ => false
  end.

Definition awaiting (node : RunNode) : Prop :=
  (forall d, d ∈ dependencies node -> passable (allow_failure node) (observation d) = true) /\
  (exists d, d ∈ dependencies node /\ pending_observation (observation d) = true).

(** [a] waits for the run [b]. *)
Definition waits_for (st : RegistryState) (a b : Z) : Prop :=
  exists node d, runs st !! a = Some node /\ waiting node /\ d ∈ dependencies node /\ observation d = ActiveManaged b.

Definition acyclic (st : RegistryState) : Prop := forall a, ~ tc (waits_for st) a a.

(** Every waiting run outside [queue] is waiting for something. *)
Definition settled (st : RegistryState) (queue : list Z) : Prop :=
  forall id node, runs st !! id = Some node -> waiting node -> id ∉ queue -> awaiting node.

(** ** Evaluation *)

Definition passes (allow_failure : bool) (e : Evaluation.Evaluation) : Prop :=
  match e with Evaluation.Failed _ structural => structural = false /\ allow_failure = true | _ => True end.

Lemma evaluate_dependencies_inv ev st allow ds p e :
  evaluate_dependencies ev st allow ds p = Ok e ->
  match e with
  | Evaluation.Failed m s =>
      (s = true \/ allow = false) /\ exists d, d ∈ ds /\ evaluate_dependency ev st d = Ok (Evaluation.Failed m s)
  | _ =>
      (forall d, d ∈ ds -> exists e', evaluate_dependency ev st d = Ok e' /\ passes allow e') /\
      (e = Evaluation.Pending <-> p = true \/ exists d, d ∈ ds /\ evaluate_dependency ev st d = Ok Evaluation.Pending)
  end.
Proof.
  revert p. induction ds as [|d ds IH]; intros p; cbn [evaluate_dependencies].
  { intros [= <-]. destruct p; (split; [by intros d ?%elem_of_nil|]).
    - split; auto.
    - split; [done|]. intros [?|(d & ?%elem_of_nil & _)]; done. }
  intros (e' & He & Hds)%bind_ok_inv. destruct e' as [| |m s].
  - apply IH in Hds. destruct e as [| |m s]; [..|destruct Hds as (? & d' & ? & ?); split; [done|]; exists d'; split; [by right|done]].
    all: destruct Hds as [Hall Hp]; split; [intros d' [->|?]%elem_of_cons; [exists Evaluation.Pending|]; eauto; by split|].
    all: split; [intros _; right; exists d; split; [left|done]|intros _; apply Hp; by left].
  - apply IH in Hds. destruct e as [| |m s]; [..|destruct Hds as (? & d' & ? & ?); split; [done|]; exists d'; split; [by right|done]].
    all: destruct Hds as [Hall Hp]; split; [intros d' [->|?]%elem_of_cons; [exists Evaluation.Ready|]; eauto; by split|].
    all: rewrite Hp; split; [intros [?|(d' & ? & ?)]; [by left|right; exists d'; split; [by right|done]]|].
    all: intros [?|(d' & [->|?]%elem_of_cons & ?)]; [by left|congruence|right; eauto].
  - destruct (s || negb allow) eqn:Hs.
    { injection Hds as <-. split; [destruct s, allow; auto; done|]. exists d. split; [left|done]. }
    apply orb_false_iff in Hs as [-> Ha%negb_false_iff]. apply IH in Hds.
    destruct e as [| |m' s']; [..|destruct Hds as (? & d' & ? & ?); split; [done|]; exists d'; split; [by right|done]].
    all: destruct Hds as [Hall Hp]; split; [intros d' [->|?]%elem_of_cons; [exists (Evaluation.Failed m false); by repeat split|by eauto]|].
    all: rewrite Hp; split; [intros [?|(d' & ? & ?)]; [by left|right; exists d'; split; [by right|done]]|].
    all: intros [?|(d' & [->|?]%elem_of_cons & ?)]; [by left|congruence|right; eauto].
Qed.

Lemma evaluate_dependencies_ok ev st allow ds p :
  (forall r, exists e, ev r = Ok e) -> exists e, evaluate_dependencies ev st allow ds p = Ok e.
Proof.
  intros Hev. revert p. induction ds as [|d ds IH]; intros p; cbn [evaluate_dependencies]; [eauto|].
  assert (exists e, evaluate_dependency ev st d = Ok e) as [e ->].
  { unfold evaluate_dependency. destruct (observation d); eauto. destruct (Hev id) as [e ->]. cbn. eauto. }
  cbn. destruct e; [apply IH..|]. destruct (structural || negb allow); [eauto|apply IH].
Qed.

(** The number of runs bounds the depth of the recursion. *)
Lemma evaluate_enough fuel st id stack :
  NoDup stack -> (forall x, x ∈ stack -> is_Some (runs st !! x)) -> (size (runs st) < fuel + length stack)%nat ->
  exists e, evaluate_run fuel st id stack = Ok e.
Proof.
  revert id stack. induction fuel as [|fuel IH]; intros id stack Hnd Hin Hlt.
  { exfalso. assert (length stack <= size (runs st))%nat; [|lia].
    rewrite <- size_dom, <- (size_list_to_set (C := gset Z)) by done.
    apply subseteq_size. intros x ?%elem_of_list_to_set. by apply elem_of_dom, Hin. }
  cbn [evaluate_run]. destruct (runs st !! id) as [node|] eqn:Hn; [|eauto]. destruct (terminal node); [eauto|].
  destruct (ready node); [eauto|]. case_bool_decide as Hs; [eauto|].
  destruct (evaluate_dependencies_ok (fun r => evaluate_run fuel st r (id :: stack)) st (allow_failure node)
    (dependencies node) false) as [e ->]; [|cbn; eauto].
  intros r. apply IH; [by constructor| |cbn; lia]. intros x [->|?]%elem_of_cons; eauto.
Qed.

Lemma evaluate_total st id : exists e, evaluate st id = Ok e.
Proof. apply evaluate_enough; [constructor|by intros x ?%elem_of_nil|cbn; lia]. Qed.

(** One level of evaluation of a waiting run. *)
Lemma evaluate_waiting fuel st id stack node :
  runs st !! id = Some node -> waiting node -> id ∉ stack ->
  evaluate_run (S fuel) st id stack =
    Some <$> evaluate_dependencies (fun r => evaluate_run fuel st r (id :: stack)) st (allow_failure node)
               (dependencies node) false.
Proof.
  intros Hn [Ht Hr] Hs. cbn [evaluate_run]. rewrite Hn, Ht, Hr. by rewrite bool_decide_false.
Qed.

Lemma evaluate_ready fuel st id stack node :
  runs st !! id = Some node -> terminal node = None -> ready node = true ->
  evaluate_run (S fuel) st id stack = Ok (Some Evaluation.Pending).
Proof. intros Hn Ht Hr. cbn [evaluate_run]. by rewrite Hn, Ht, Hr. Qed.

(** Every managed observation names a run that has not ended. *)
Definition managed_live (st : RegistryState) : Prop :=
  forall id node d r, runs st !! id = Some node -> d ∈ dependencies node -> observation d = ActiveManaged r ->
    exists node', live st r node'.

Lemma live_not_terminal st r node : live st r node -> is_terminal st r = false.
Proof. intros [Hn Ht]. unfold is_terminal. rewrite Hn, Ht. done. Qed.

Lemma evaluate_dependency_plain ev st d :
  (forall r, observation d <> ActiveManaged r) -> evaluate_dependency ev st d = Ok (evaluate_observation (observation d)).
Proof. intros Hd. unfold evaluate_dependency. destruct (observation d) eqn:Ho; try done. by destruct (Hd id). Qed.

(** A pending evaluation says the run has something to wait for. *)
Lemma evaluate_pending fuel st id stack node :
  managed_live st -> runs st !! id = Some node -> waiting node -> id ∉ stack ->
  evaluate_run (S fuel) st id stack = Ok (Some Evaluation.Pending) -> awaiting node.
Proof.
  intros Hm Hn Hw Hs. rewrite (evaluate_waiting _ _ _ _ node) by done.
  destruct (evaluate_dependencies _ _ _ _ _) as [e| |] eqn:He; [|done..]. intros [= ->].
  apply evaluate_dependencies_inv in He as [Hall [Hp _]]. specialize (Hp eq_refl) as [?|(d & Hd & Hev)]; [done|]. split.
  - intros d' Hd'. destruct (Hall d' Hd') as (e' & He' & Hpass). destruct (observation d') eqn:Ho; try done;
      rewrite evaluate_dependency_plain in He' by (by rewrite Ho); rewrite Ho in He'; cbn in He'; injection He' as <-;
      try (by destruct Hpass). destruct r; cbn in *; try done; by destruct Hpass.
  - exists d. split; [done|]. destruct (observation d) eqn:Ho; try done;
      rewrite evaluate_dependency_plain, Ho in Hev by (by rewrite Ho); cbn in Hev; try done. by destruct r.
Qed.

(** Conversely a run with something to wait for, in a graph without cycles of
    such runs, evaluates to pending. *)
Lemma evaluate_awaiting fuel st id stack node :
  managed_live st -> acyclic st -> settled st [] ->
  runs st !! id = Some node -> terminal node = None ->
  (forall x, x ∈ stack -> tc (waits_for st) x id) ->
  NoDup stack -> (forall x, x ∈ stack -> is_Some (runs st !! x)) -> (size (runs st) < fuel + length stack)%nat ->
  evaluate_run fuel st id stack = Ok (Some Evaluation.Pending).
Proof.
  intros Hm Ha Hst. revert id node stack. induction fuel as [|fuel IH]; intros id node stack Hn Ht Hreach Hnd Hin Hlt.
  { destruct (evaluate_enough 0 st id stack) as [e He]; done. }
  destruct (ready node) eqn:Hr; [by apply (evaluate_ready _ _ _ _ node)|].
  assert (Hs : id ∉ stack) by (intros Hid; by apply (Ha id), Hreach).
  rewrite (evaluate_waiting _ _ _ _ node) by done.
  destruct (Hst id node) as [Hpass (dp & Hdp & Hpend)]; [done..|apply not_elem_of_nil|].
  assert (Hev : forall d, d ∈ dependencies node -> evaluate_dependency (fun r => evaluate_run fuel st r (id :: stack)) st d =
      Ok (evaluate_observation (observation d))).
  { intros d Hd. destruct (observation d) as [| | | |r| | |] eqn:Ho;
      try (rewrite evaluate_dependency_plain; rewrite ?Ho; done).
    unfold evaluate_dependency. rewrite Ho. destruct (Hm id node d r Hn Hd Ho) as [n' Hr'].
    assert (Hstep : waits_for st id r) by (by exists node, d).
    rewrite (IH r n'); [by cbn|apply Hr'..| | | |cbn; lia].
    - intros x [->|Hx]%elem_of_cons; [by apply tc_once|]. eapply tc_r; [by apply Hreach|done].
    - by constructor.
    - intros x [->|Hx]%elem_of_cons; eauto. }
  destruct (evaluate_dependencies_ok (fun r => evaluate_run fuel st r (id :: stack)) st (allow_failure node)
    (dependencies node) false) as [e He].
  { intros r. apply evaluate_enough; [by constructor| |cbn; lia]. intros x [->|?]%elem_of_cons; eauto. }
  rewrite He. apply evaluate_dependencies_inv in He. cbn. f_equal. f_equal.
  assert (Hpe : evaluate_dependency (fun r => evaluate_run fuel st r (id :: stack)) st dp = Ok Evaluation.Pending).
  { rewrite Hev by done. by destruct (observation dp). }
  destruct e as [| |m s]; [done| |].
  - destruct He as [_ [_ He]]. apply He. eauto.
  - destruct He as (Hs' & d & Hd & He). rewrite Hev in He by done. specialize (Hpass d Hd). injection He as He.
    destruct (observation d) as [| | | | |[]| |]; try done. cbn in *. injection He as _ <-.
    destruct Hs'; [done|]. congruence.
Qed.

(** ** Cycles are found

    While [n] is being evaluated and every other waiting run has something to
    wait for, a run that leads back to [n] fails for good, and nothing fails
    otherwise. *)
Lemma evaluate_leads_back fuel st n node_n id node stack e :
  managed_live st -> settled st [n] -> runs st !! n = Some node_n -> waiting node_n -> n ∈ stack ->
  live st id node -> evaluate_run fuel st id stack = Ok e ->
  (forall m, e <> Some (Evaluation.Failed m false)) /\
  (tc (waits_for st) id n -> exists m, e = Some (Evaluation.Failed m true)).
Proof.
  intros Hm Hst Hnn Hwn. revert id node stack e. induction fuel as [|fuel IH]; intros id node stack e Hns [Hn Ht] He; [done|].
  destruct (ready node) eqn:Hr.
  { rewrite (evaluate_ready _ _ _ _ node) in He by done. injection He as <-. split; [done|]. intros Hback. exfalso.
    assert (exists r, waits_for st id r) as (r & n' & d & Hn' & [_ Hw] & _) by (inversion Hback; eauto). congruence. }
  destruct (decide (id ∈ stack)) as [Hs|Hs].
  { cbn [evaluate_run] in He. rewrite Hn, Ht, Hr, bool_decide_true in He by done. injection He as <-. split; [done|eauto]. }
  rewrite (evaluate_waiting _ _ _ _ node) in He by done.
  destruct (evaluate_dependencies _ _ _ _ _) as [e'| |] eqn:He'; [|done..]. injection He as <-.
  apply evaluate_dependencies_inv in He'.
  destruct (Hst id node) as [Hpass _]; [done..|by apply not_elem_of_cons; split; [congruence|apply not_elem_of_nil]|].
  assert (HA : forall d m s, d ∈ dependencies node ->
      evaluate_dependency (fun r => evaluate_run fuel st r (id :: stack)) st d = Ok (Evaluation.Failed m s) ->
      s = true \/ allow_failure node = true).
  { intros d m s Hd Hev. specialize (Hpass d Hd). destruct (observation d) as [| | | |r|[]| |] eqn:Ho; try done.
    all: try (rewrite evaluate_dependency_plain in Hev; rewrite ?Ho in *; cbn in *; try done; by right).
    unfold evaluate_dependency in Hev. rewrite Ho in Hev. apply bind_ok_inv in Hev as (er & Her & Hev).
    destruct (Hm id node d r Hn Hd Ho) as [nr Hlr]. destruct (IH r nr (id :: stack) er) as [Hnf _]; [by right|done|done|].
    destruct er as [[| |m' s']|]; cbn in Hev; try done.
    - destruct (is_terminal st r); done.
    - injection Hev as -> ->. destruct s; [by left|]. by destruct (Hnf m).
    - exfalso. destruct fuel; [done|]. cbn in Her. destruct Hlr as [Hlr Hlt]. rewrite Hlr, Hlt in Her.
      destruct (ready nr); [done|]. case_bool_decide; [done|]. by destruct (evaluate_dependencies _ _ _ _ _). }
  split.
  - intros m [= ->]. destruct He' as [Hsa (d & Hd & Hev)]. destruct Hsa as [?|Ha]; [done|].
    assert (He1 := HA d m false Hd Hev). destruct He1; congruence.
  - intros Hback.
    assert (exists r, waits_for st id r /\ (r = n \/ tc (waits_for st) r n)) as (r & (n' & d & Hn' & _ & Hd & Ho) & Hrn)
      by (inversion Hback; eauto). simplify_eq.
    destruct (Hm id node d r Hn Hd Ho) as [nr Hlr].
    assert (Hstruct : exists m, evaluate_dependency (fun r => evaluate_run fuel st r (id :: stack)) st d = Ok (Evaluation.Failed m true) \/
        forall e, evaluate_dependency (fun r => evaluate_run fuel st r (id :: stack)) st d <> Ok e).
    { unfold evaluate_dependency. rewrite Ho.
      destruct (evaluate_run fuel st r (id :: stack)) as [er| |] eqn:Her; [|exists ""; by right..].
      assert (exists m, er = Some (Evaluation.Failed m true)) as [m ->]; [|exists m; by left].
      destruct Hrn as [->|Hrn]; [|by apply (IH r nr (id :: stack) er); [right|..]].
      destruct fuel; [done|]. cbn in Her. destruct Hwn as [Hwt Hwr]. rewrite Hnn, Hwt, Hwr in Her.
      rewrite bool_decide_true in Her by (by right). injection Her as <-. eauto. }
    destruct Hstruct as [m Hstruct]. destruct e' as [| |m' s'].
    1,2: destruct He' as [Hall _]; destruct (Hall d Hd) as (e1 & He1 & Hp1); destruct Hstruct as [Hstruct|Hno];
      [rewrite Hstruct in He1; injection He1 as <-; by destruct Hp1|by destruct (Hno e1)].
    destruct s'; [eauto|]. destruct He' as [[?|Ha] (d' & Hd' & Hev)]; [done|].
    destruct (HA d' m' false Hd' Hev); congruence.
Qed.

(** A run on a cycle fails when it is evaluated. *)
Lemma evaluate_on_cycle st n node e :
  managed_live st -> settled st [n] -> runs st !! n = Some node -> waiting node -> tc (waits_for st) n n ->
  evaluate st n = Ok e -> exists m s, e = Some (Evaluation.Failed m s).
Proof.
  intros Hm Hst Hn Hw Hcycle He. unfold evaluate in He.
  rewrite (evaluate_waiting _ _ _ _ node) in He by (done || apply not_elem_of_nil).
  destruct (evaluate_dependencies _ _ _ _ _) as [e'| |] eqn:He'; [|done..]. injection He as <-.
  assert (exists r, waits_for st n r /\ (r = n \/ tc (waits_for st) r n)) as (r & (n' & d & Hn' & _ & Hd & Ho) & Hrn)
    by (inversion Hcycle; eauto). simplify_eq.
  destruct e' as [| |m s]; [..|by eauto]; exfalso.
  all: apply evaluate_dependencies_inv in He' as [Hall _]; destruct (Hall d Hd) as (e1 & He1 & Hp1).
  all: unfold evaluate_dependency in He1; rewrite Ho in He1; apply bind_ok_inv in He1 as (er & Her & He1).
  all: destruct (Hm n node d r Hn Hd Ho) as [nr Hlr].
  all: assert (exists m, er = Some (Evaluation.Failed m true)) as [m ->];
    [destruct Hrn as [->|Hrn]|cbn in He1; injection He1 as <-; by destruct Hp1].
  all: try (eapply evaluate_leads_back; [done|exact Hst|exact Hn|done| |exact Hlr|exact Her|done]; left).
  all: destruct (size (runs st)); [done|]; cbn in Her; destruct Hw as [Hwt Hwr]; rewrite Hn, Hwt, Hwr in Her.
  all: rewrite bool_decide_true in Her by left; injection Her as <-; eauto.
Qed.

(** ** The invariant

    [exempt] is a run whose owner no longer points at it while the handler that
    ends it is still at work. *)
Record registry_ok (exempt : option Z) (st : RegistryState) : Prop := {
  ok_links : links_ok st;
  ok_ids id node : runs st !! id = Some node -> 1 <= id <= next_id st;
  ok_managed : managed_live st;
  ok_owner id node : live st id node -> exempt <> Some id ->
    exists ps, panes st !! owner node = Some ps /\ active ps = Some (Managed id);
  ok_active p ps id : panes st !! p = Some ps -> active ps = Some (Managed id) ->
    exists node, live st id node /\ owner node = p;
  ok_waiter id node : runs st !! id = Some node ->
    (waiting node -> waiter node = Some id) /\ (~ waiting node -> waiter node = None);
  ok_pending id node d : runs st !! id = Some node -> d ∈ dependencies node ->
    observation d = WaitingForCommand \/ observation d = ActiveShell ->
    exists ps, panes st !! pane d = Some ps /\ available ps = true /\ forall r, active ps <> Some (Managed r);
  ok_closed p ps r : panes st !! p = Some ps -> available ps = false -> active ps <> Some (Managed r);
}.

#[export] Instance waiting_dec node : Decision (waiting node).
Proof. unfold waiting. apply and_dec; [destruct (terminal node); [right|left]; done|apply _]. Defined.

Section Registry.
Context {order : Iteration}.

(** ** Replacing observations of a pane or of a run *)

(** Every dependency the predicate selects observes [o]; the runs that changed
    are the roots. *)
Record observed (o : DependencyObservation) (predicate : RunDependency -> bool) (st st' : RegistryState)
    (roots : list Z) : Prop := {
  observed_frame : same_frame st st';
  observed_runs id : runs st' !! id = observe_matching o predicate <$> runs st !! id;
  observed_roots id :
    id ∈ roots <-> exists node d, runs st !! id = Some node /\ d ∈ dependencies node /\ predicate d = true /\ observation d <> o;
  observed_links : links_ok st';
}.

Lemma observe_matching_none o predicate node :
  (forall d, d ∈ dependencies node -> predicate d = false) -> observe_matching o predicate node = node.
Proof.
  intros Hp. unfold observe_matching. destruct node as [ow ds al re te wa]. unfold set_field. cbn in *. f_equal.
  induction ds as [|d ds IH]; [done|]. cbn. rewrite Hp by left. f_equal. apply IH. intros d' Hd'. apply Hp. by right.
Qed.

Lemma replace_observed st ids o predicate :
  links_ok st ->
  (forall id node d, runs st !! id = Some node -> d ∈ dependencies node -> predicate d = true ->
     id ∈ ids /\ observable st o (pane d)) ->
  let '(st', roots) := replace_observations st ids o predicate in observed o predicate st st' roots.
Proof.
  intros Hl Hids. pose proof (replace_observations_spec st ids o predicate) as Hspec.
  pose proof (replace_observations_links_ok st ids o predicate Hl) as Hlinks.
  destruct (replace_observations st ids o predicate) as [st' roots]. destruct Hspec as [Hf Hr Hroots _].
  constructor; [done| | |].
  - intros id. rewrite Hr. destruct (decide (id ∈ ids)) as [|Hid]; [done|].
    destruct (runs st !! id) as [node|] eqn:Hn; [|done]. cbn. rewrite observe_matching_none; [done|].
    intros d Hd. destruct (predicate d) eqn:Hp; [|done]. by destruct (Hids id node d Hn Hd Hp).
  - intros id. rewrite Hroots. split; [by intros [_ ?]|]. intros (node & d & Hn & Hd & Hp & Hne).
    split; [by apply (Hids id node d)|eauto 10].
  - apply Hlinks. intros id node d Hn Hd Hp. by apply (Hids id node d).
Qed.

Definition on_pane (p : RunPaneIdentity) (predicate : DependencyObservation -> bool) (d : RunDependency) : bool :=
  bool_decide (pane d = p) && predicate (observation d).

Lemma replace_pane_observed st p o predicate :
  links_ok st -> observable st o p ->
  let '(st', roots) := replace_pane_observations_with st p o predicate in
  observed o (on_pane p predicate) st st' roots.
Proof.
  intros Hl Ho. apply replace_observed; [done|]. intros id node d Hn Hd [Hp _]%andb_true_iff.
  apply bool_decide_eq_true in Hp as <-. split; [|done]. apply (pane_linked _ Hl). exists node. split; [done|].
  by apply list_elem_of_fmap_2.
Qed.

Lemma replace_managed_observed st r o :
  links_ok st -> (forall r', o <> ActiveManaged r') ->
  let '(st', roots) := replace_managed_observations st r o in
  observed o (fun d => bool_decide (observation d = ActiveManaged r)) st st' roots.
Proof.
  intros Hl Ho. apply replace_observed; [done|]. intros id node d Hn Hd Hp%bool_decide_eq_true.
  split; [|by intros r' ?; destruct (Ho r')]. apply (run_linked _ Hl). exists node. split; [done|].
  apply list_elem_of_fmap. eauto.
Qed.

Lemma observable_plain st o p : (forall r, o <> ActiveManaged r) -> observable st o p.
Proof. intros Ho r ->. by destruct (Ho r). Qed.

(** ** Ending a run *)

(** The dependencies a run's end is reported to. *)
Definition affected (id : Z) (p : RunPaneIdentity) (d : RunDependency) : bool :=
  bool_decide (observation d = ActiveManaged id) || on_pane p (fun o => match o with ActiveShell => true | _ => false end) d.

Lemma observe_matching_compose o p q node :
  (forall d, q (set_observation o d) = false) ->
  observe_matching o q (observe_matching o p node) = observe_matching o (fun d => p d || q d) node.
Proof.
  intros Hq. unfold observe_matching. destruct node as [ow ds al re te wa]. unfold set_field. cbn. f_equal.
  rewrite <- list_fmap_compose. apply list_fmap_ext. intros i d _. cbn.
  destruct (p d); cbn; [by rewrite Hq|done].
Qed.

Lemma observed_compose o p q st st1 st2 roots1 roots2 :
  (forall d, q (set_observation o d) = false) ->
  observed o p st st1 roots1 -> observed o q st1 st2 roots2 ->
  observed o (fun d => p d || q d) st st2 (roots1 ++ roots2).
Proof.
  intros Hq [Hf1 Hr1 Ho1 _] [Hf2 Hr2 Ho2 Hl2]. constructor; [by etransitivity| | |done].
  - intros id. rewrite Hr2, Hr1. destruct (runs st !! id); [|done]. cbn. by rewrite observe_matching_compose.
  - intros id. rewrite elem_of_app, Ho1, Ho2. split.
    + intros [(n & d & Hn & Hd & Hp & Hne)|(n & d & Hn & Hd & Hp & Hne)].
      { exists n, d. by rewrite Hp. }
      rewrite Hr1 in Hn. apply fmap_Some in Hn as (n0 & Hn0 & ->). unfold observe_matching in Hd. cbn in Hd.
      apply list_elem_of_fmap in Hd as (d0 & -> & Hd0). exists n0, d0.
      destruct (p d0) eqn:Hp0; [by rewrite Hq in Hp|]. by rewrite Hp.
    + intros (n & d & Hn & Hd & Hp & Hne). destruct (p d) eqn:Hp0; [left; eauto 10|]. right.
      exists (observe_matching o p n), d. rewrite Hr1, Hn. split; [done|]. split; [|done]. cbn.
      apply list_elem_of_fmap. exists d. by rewrite Hp0.
Qed.

(** The state a run ends in, before anyone observes it. *)
Definition ended (st : RegistryState) (id : Z) (node : RunNode) (m : RunResolutionMessage) (r : LastResult) : RegistryState :=
  st <| runs := <[id := node <| waiter := None |> <| terminal := Some m |>]> (runs st) |>
     <| panes := alter (record_managed r) (owner node) (panes st) |>.

Lemma ended_links_ok st id node m r : links_ok st -> runs st !! id = Some node -> links_ok (ended st id node m r).
Proof.
  intros Hl Hn. apply links_ok_shape with st; [|done..]. intros x. unfold ended, set_field. cbn.
  destruct (decide (x = id)) as [->|Hx]; [by rewrite lookup_insert_eq, Hn|by rewrite lookup_insert_ne].
Qed.

Lemma finish_observed st id node m r :
  links_ok st -> runs st !! id = Some node ->
  let '(st', dependents) := finish st id node m r in
  observed (Last r) (affected id (owner node)) (ended st id node m r) st' dependents.
Proof.
  intros Hl Hn. unfold finish. fold (ended st id node m r).
  pose proof (replace_managed_observed (ended st id node m r) id (Last r) (ended_links_ok _ _ _ _ _ Hl Hn)) as H1.
  destruct (replace_managed_observations _ _ _) as [st1 roots1]. specialize (H1 ltac:(done)).
  pose proof (replace_pane_observed st1 (owner node) (Last r) (fun o => match o with ActiveShell => true | _ => false end)
    (observed_links _ _ _ _ _ H1)) as H2.
  unfold replace_shell_observations. destruct (replace_pane_observations_with _ _ _ _) as [st2 roots2].
  specialize (H2 ltac:(by apply observable_plain)). unfold affected.
  eapply observed_compose; [|exact H1|exact H2]. intros d. unfold on_pane. cbn. by rewrite andb_false_r.
Qed.

(** Looking up a run after observations were replaced. *)
Lemma observed_lookup o p st st' roots id node' :
  observed o p st st' roots -> runs st' !! id = Some node' ->
  exists node, runs st !! id = Some node /\ node' = observe_matching o p node.
Proof. intros Ho. rewrite (observed_runs _ _ _ _ _ Ho). intros (n & Hn & ->)%fmap_Some. eauto. Qed.

Lemma elem_observe_matching o p node d' :
  d' ∈ dependencies (observe_matching o p node) <->
  exists d, d ∈ dependencies node /\ d' = if p d then set_observation o d else d.
Proof. unfold observe_matching. cbn. rewrite list_elem_of_fmap. split; intros (d & ? & ?); eauto. Qed.

Lemma observed_live o p st st' roots id node' :
  observed o p st st' roots -> live st' id node' ->
  exists node, live st id node /\ node' = observe_matching o p node.
Proof. intros Ho [Hn Ht]. destruct (observed_lookup _ _ _ _ _ _ _ Ho Hn) as (n & Hn' & ->). by exists n. Qed.

Lemma observed_live_to o p st st' roots id node :
  observed o p st st' roots -> live st id node -> live st' id (observe_matching o p node).
Proof. intros Ho [Hn Ht]. split; [|done]. by rewrite (observed_runs _ _ _ _ _ Ho), Hn. Qed.

Lemma observed_waiter o p node : waiter (observe_matching o p node) = waiter node /\
  (waiting (observe_matching o p node) <-> waiting node) /\ owner (observe_matching o p node) = owner node.
Proof. by destruct node. Qed.

(** Replacing observations keeps the invariant when what is observed is there. *)
Lemma observed_ok exempt o p st st' roots :
  registry_ok exempt st -> observed o p st st' roots ->
  (forall r, o = ActiveManaged r -> exists node, live st r node) ->
  (o = WaitingForCommand \/ o = ActiveShell -> forall d, p d = true ->
     observation d = WaitingForCommand \/ observation d = ActiveShell) ->
  registry_ok exempt st'.
Proof.
  intros Hok Ho Hm Hp. destruct (observed_frame _ _ _ _ _ Ho) as [Hfi Hfp _ _]. constructor.
  - apply (observed_links _ _ _ _ _ Ho).
  - intros id node (n & Hn & ->)%(observed_lookup _ _ _ _ _ _ _ Ho). rewrite Hfi. by apply (ok_ids _ _ Hok id n).
  - intros id node d r (n & Hn & ->)%(observed_lookup _ _ _ _ _ _ _ Ho) (d0 & Hd0 & ->)%elem_observe_matching Hr.
    assert (exists n', live st r n') as [n' Hn'].
    { destruct (p d0); [by apply Hm|]. by apply (ok_managed _ _ Hok id n d0 r). }
    exists (observe_matching o p n'). by apply (observed_live_to _ _ _ _ _ _ _ Ho).
  - intros id node (n & Hn & ->)%(observed_live _ _ _ _ _ _ _ Ho) He. rewrite Hfp. by apply (ok_owner _ _ Hok id n).
  - intros q ps id. rewrite Hfp. intros Hq Ha. destruct (ok_active _ _ Hok q ps id Hq Ha) as (n & Hn & Hown).
    exists (observe_matching o p n). split; [by apply (observed_live_to _ _ _ _ _ _ _ Ho)|done].
  - intros id node (n & Hn & ->)%(observed_lookup _ _ _ _ _ _ _ Ho). apply (ok_waiter _ _ Hok id n Hn).
  - intros id node d (n & Hn & ->)%(observed_lookup _ _ _ _ _ _ _ Ho) (d0 & Hd0 & ->)%elem_observe_matching Hr.
    rewrite Hfp. destruct (p d0) eqn:Hpd; [|by apply (ok_pending _ _ Hok id n d0)].
    apply (ok_pending _ _ Hok id n d0); [done..|by apply Hp].
  - rewrite Hfp. apply (ok_closed _ _ Hok).
Qed.

(** Two runs that have not ended have different owners. *)
Lemma owners_differ exempt st id node id' node' :
  registry_ok exempt st -> live st id node -> live st id' node' -> exempt <> Some id -> exempt <> Some id' ->
  owner node = owner node' -> id = id'.
Proof.
  intros Hok Hl Hl' He He' Ho. destruct (ok_owner _ _ Hok _ _ Hl He) as (ps & Hp & Ha).
  destruct (ok_owner _ _ Hok _ _ Hl' He') as (ps' & Hp' & Ha'). congruence.
Qed.

(** Ending a run restores the invariant: nothing observes it any more, and its
    owner is free. *)
Lemma finish_ok exempt st id node m r :
  registry_ok exempt st -> live st id node -> exempt = None \/ exempt = Some id ->
  (forall id' node', live st id' node' -> id' <> id -> owner node' <> owner node) ->
  let '(st', dependents) := finish st id node m r in registry_ok None st'.
Proof.
  intros Hok [Hid Ht] Hex Hown. pose proof (finish_observed st id node m r (ok_links _ _ Hok) Hid) as Ho.
  destruct (finish st id node m r) as [st' dependents].
  destruct (observed_frame _ _ _ _ _ Ho) as [Hfi Hfp _ _].
  assert (Hback : forall x node', runs st' !! x = Some node' -> exists n, runs st !! x = Some n /\
      node' = observe_matching (Last r) (affected id (owner node))
                (if decide (x = id) then n <| waiter := None |> <| terminal := Some m |> else n)).
  { intros x node' (n & Hn & ->)%(observed_lookup _ _ _ _ _ _ _ Ho). unfold ended, set_field in Hn. cbn in Hn.
    destruct (decide (x = id)) as [->|Hx].
    - rewrite lookup_insert_eq in Hn. injection Hn as <-. eauto.
    - rewrite lookup_insert_ne in Hn by done. eauto. }
  assert (Hto : forall x n, live st x n -> x <> id -> live st' x (observe_matching (Last r) (affected id (owner node)) n)).
  { intros x n Hn Hx. apply (observed_live_to _ _ _ _ _ _ _ Ho). split; [|apply Hn]. unfold ended, set_field. cbn.
    rewrite lookup_insert_ne by done. apply Hn. }
  assert (Hlive : forall x node', live st' x node' -> x <> id /\ exists n, live st x n /\
      node' = observe_matching (Last r) (affected id (owner node)) n).
  { intros x node' [(n & Hn & ->)%Hback Ht']. destruct (decide (x = id)); [done|].
    split; [done|]. by exists n. }
  constructor.
  - apply (observed_links _ _ _ _ _ Ho).
  - intros x node' (n & Hn & _)%Hback. rewrite Hfi. apply (ok_ids _ _ Hok x n Hn).
  - intros x node' d' r' (n & Hn & ->)%Hback (d & Hd & ->)%elem_observe_matching Hr.
    destruct (affected id (owner node) d) eqn:Haff; [done|].
    destruct (ok_managed _ _ Hok x n d r') as [n' Hn']; [done|by destruct (decide (x = id))|done|].
    exists (observe_matching (Last r) (affected id (owner node)) n'). apply Hto; [done|]. intros ->.
    unfold affected in Haff. rewrite bool_decide_true in Haff; done.
  - intros x node' [Hx (n & Hn & ->)]%Hlive _. destruct (ok_owner _ _ Hok x n Hn) as (ps & Hp & Ha).
    { destruct Hex as [->| ->]; congruence. }
    exists ps. split; [|done]. rewrite Hfp. unfold ended, set_field. cbn.
    rewrite lookup_alter_ne; [done|]. apply not_eq_sym, (Hown x n); done.
  - intros q ps x. rewrite Hfp. unfold ended, set_field. cbn. destruct (decide (q = owner node)) as [->|Hq].
    { rewrite lookup_alter_eq. intros (ps0 & _ & ->)%fmap_Some. done. }
    rewrite lookup_alter_ne by done. intros Hps Ha. destruct (ok_active _ _ Hok q ps x Hps Ha) as (n & Hn & <-).
    exists (observe_matching (Last r) (affected id (owner node)) n). split; [|done]. apply Hto; [done|].
    intros ->. destruct Hn as [Hn _]. congruence.
  - intros x node' (n & Hn & ->)%Hback. destruct (decide (x = id)) as [->|]; [by split; [intros []|]|].
    apply (ok_waiter _ _ Hok x n Hn).
  - intros x node' d' (n & Hn & ->)%Hback (d & Hd & ->)%elem_observe_matching.
    destruct (affected id (owner node) d); [by intros [|]|]. intros Hr.
    destruct (ok_pending _ _ Hok x n d) as (ps & Hps & Hav & Ha); [done|by destruct (decide (x = id))|done|].
    rewrite Hfp. unfold ended, set_field. cbn. destruct (decide (pane d = owner node)) as [He|He].
    + exists (record_managed r ps). rewrite He in *. by rewrite lookup_alter_eq, Hps.
    + exists ps. by rewrite lookup_alter_ne.
  - intros q ps r'. rewrite Hfp. unfold ended, set_field. cbn. destruct (decide (q = owner node)) as [->|Hq].
    + rewrite lookup_alter_eq. by intros (ps0 & _ & ->)%fmap_Some.
    + rewrite lookup_alter_ne by done. apply (ok_closed _ _ Hok).
Qed.

(** ** One turn of the resolution *)

Definition released (st : RegistryState) (id : Z) (node : RunNode) : RegistryState :=
  st <| runs := <[id := node <| ready := true |> <| waiter := None |>]> (runs st) |>.

Inductive turned (st : RegistryState) (id : Z) : RegistryState -> list Z -> bool -> Prop :=
| turned_ended : is_terminal st id = true -> turned st id st [] true
| turned_gone : runs st !! id = None -> turned st id st [] false
| turned_waits node : live st id node -> evaluate st id = Ok (Some Evaluation.Pending) -> turned st id st [] false
| turned_released node :
    runs st !! id = Some node -> waiting node -> evaluate st id = Ok (Some Evaluation.Ready) ->
    turned st id (send_to (waiter node) ready_message (released st id node)) [] false
| turned_failed node m structural st' dependents :
    runs st !! id = Some node -> waiting node -> evaluate st id = Ok (Some (Evaluation.Failed m structural)) ->
    finish st id node (failed_message m) (if structural : bool then Unavailable else Failure 1) = (st', dependents) ->
    turned st id (send_to (waiter node) (failed_message m) st') dependents true.

Lemma resolve_turn_spec st id :
  exists st' dependents retired, resolve_turn st id = Ok (st', dependents, retired) /\
    turned st id st' dependents retired.
Proof.
  unfold resolve_turn. destruct (is_terminal st id) eqn:Hterm; [eauto 10 using turned_ended|].
  destruct (evaluate_total st id) as [e He]. rewrite He. cbn.
  destruct (runs st !! id) as [node|] eqn:Hn; [|destruct e; eauto 10 using turned_gone].
  assert (Ht : terminal node = None) by (unfold is_terminal in Hterm; rewrite Hn in Hterm; by destruct (terminal node)).
  destruct (ready node) eqn:Hr.
  { unfold evaluate in He. rewrite (evaluate_ready _ _ _ _ node) in He by done. injection He as <-. cbn.
    exists st, [], false. split; [done|]. apply turned_waits with node; [done|].
    unfold evaluate. by rewrite (evaluate_ready _ _ _ _ node). }
  destruct e as [[| |m s]|]; cbn; unfold decide_run; rewrite ?Ht, ?Hr; cbn.
  - exists st, [], false. split; [done|]. by apply turned_waits with node.
  - eexists _, _, _. split; [done|]. by apply turned_released.
  - destruct (finish _ _ _ _ _) as [st' deps] eqn:Hf. eexists _, _, _. split; [done|].
    by apply turned_failed with (structural := s).
  - exfalso. unfold evaluate in He. rewrite (evaluate_waiting _ _ _ _ node) in He by (done || apply not_elem_of_nil).
    by destruct (evaluate_dependencies _ _ _ _ _).
Qed.

(** What is sent is not part of the invariant. *)
Lemma ok_sent exempt st to m : registry_ok exempt st -> registry_ok exempt (send_to to m st).
Proof. destruct to as [to|]; [|done]. by intros [[] ? ? ? ? ? ? ?]; constructor; [constructor|..]. Qed.

Lemma send_to_frame to m st :
  runs (send_to to m st) = runs st /\ panes (send_to to m st) = panes st /\ next_id (send_to to m st) = next_id st.
Proof. by destruct to. Qed.

Lemma released_lookup st id node x n' :
  runs st !! id = Some node -> runs (released st id node) !! x = Some n' ->
  exists n, runs st !! x = Some n /\ n' = if decide (x = id) then n <| ready := true |> <| waiter := None |> else n.
Proof.
  intros Hn. unfold released, set_field. cbn. destruct (decide (x = id)) as [->|Hx].
  - rewrite lookup_insert_eq. intros [= <-]. eauto.
  - rewrite lookup_insert_ne by done. eauto.
Qed.

Lemma released_live st id node x n :
  runs st !! id = Some node -> live st x n ->
  live (released st id node) x (if decide (x = id) then n <| ready := true |> <| waiter := None |> else n).
Proof.
  intros Hn [Hx Ht]. unfold live, released, set_field. cbn. destruct (decide (x = id)) as [->|].
  - simplify_eq. by rewrite lookup_insert_eq.
  - by rewrite lookup_insert_ne.
Qed.

Lemma released_ok st id node :
  registry_ok None st -> runs st !! id = Some node -> waiting node -> registry_ok None (released st id node).
Proof.
  intros Hok Hn Hw. constructor.
  - apply links_ok_shape with st; [|done..|apply (ok_links _ _ Hok)]. intros x. unfold released, set_field. cbn.
    destruct (decide (x = id)) as [->|Hx]; [by rewrite lookup_insert_eq, Hn|by rewrite lookup_insert_ne].
  - intros x n' (n & Hx & _)%(released_lookup _ _ _ _ _ Hn). apply (ok_ids _ _ Hok x n Hx).
  - intros x n' d r (n & Hx & ->)%(released_lookup _ _ _ _ _ Hn) Hd Hr.
    destruct (ok_managed _ _ Hok x n d r) as [n' Hn']; [done|by destruct (decide (x = id))|done|].
    eexists. by apply released_live.
  - intros x n' [(n & Hx & ->)%(released_lookup _ _ _ _ _ Hn) Ht] _.
    destruct (ok_owner _ _ Hok x n) as (ps & Hp & Ha); [split; [done|by destruct (decide (x = id))]|done|].
    exists ps. split; [by destruct (decide (x = id))|done].
  - intros p ps x Hp Ha. destruct (ok_active _ _ Hok p ps x Hp Ha) as (n & Hx & Ho).
    eexists. split; [by apply released_live|by destruct (decide (x = id))].
  - intros x n' (n & Hx & ->)%(released_lookup _ _ _ _ _ Hn). destruct (decide (x = id)); [by split; [intros []|]|].
    apply (ok_waiter _ _ Hok x n Hx).
  - intros x n' d (n & Hx & ->)%(released_lookup _ _ _ _ _ Hn) Hd. apply (ok_pending _ _ Hok x n d Hx).
    by destruct (decide (x = id)).
  - apply (ok_closed _ _ Hok).
Qed.

Lemma turned_ok st id st' dependents retired :
  registry_ok None st -> turned st id st' dependents retired -> registry_ok None st'.
Proof.
  intros Hok Ht. destruct Ht as [| | |node Hn Hw _|node m s st1 deps Hn Hw _ Hf]; try done; apply ok_sent.
  - by apply released_ok.
  - destruct Hw as [Ht _]. pose proof (finish_ok None st id node (failed_message m) (if s then Unavailable else Failure 1)
      Hok ltac:(by split) ltac:(by left)) as H. rewrite Hf in H. apply H.
    intros x n Hx Hne He. apply Hne. by apply (owners_differ None st x n id node).
Qed.

(** The dependents of an ended run are the runs whose observations changed. *)
Lemma finish_unchanged st id node m r x n :
  links_ok st -> runs st !! id = Some node ->
  let '(st', dependents) := finish st id node m r in
  x <> id -> x ∉ dependents -> runs st' !! x = Some n -> runs st !! x = Some n.
Proof.
  intros Hok Hid. pose proof (finish_observed st id node m r Hok Hid) as Ho.
  destruct (finish st id node m r) as [st' dependents]. intros Hx Hdep Hn.
  destruct (observed_lookup _ _ _ _ _ _ _ Ho Hn) as (n0 & Hn0 & ->).
  rewrite observe_matching_none.
  - unfold ended, set_field in Hn0. cbn in Hn0. by rewrite lookup_insert_ne in Hn0.
  - intros d Hd. destruct (affected id (owner node) d) eqn:Haff; [|done]. destruct Hdep.
    apply (observed_roots _ _ _ _ _ Ho). exists n0, d. split; [done|]. split; [done|]. split; [done|].
    intros He. unfold affected, on_pane in Haff. rewrite He in Haff. rewrite bool_decide_false in Haff by done.
    by rewrite andb_false_r in Haff.
Qed.

(** ** The queue *)

Lemma enqueue_spec queue ids :
  exists extra, enqueue queue ids = queue ++ extra /\ NoDup extra /\ (forall x, x ∈ extra -> x ∈ ids /\ x ∉ queue) /\
    (forall x, x ∈ ids -> x ∈ enqueue queue ids).
Proof.
  unfold enqueue. revert queue. induction ids as [|id ids IH]; intros queue; cbn [foldl].
  { exists []. rewrite app_nil_r. split; [done|]. split; [apply NoDup_nil_2|]. split; by intros x ?%elem_of_nil. }
  case_bool_decide as Hid.
  - destruct (IH queue) as (extra & He & Hnd & Hin & Hall). exists extra. split; [done|]. split; [done|]. split.
    + intros x [? ?]%Hin. split; [by right|done].
    + intros x [->|Hx]%elem_of_cons; [|by apply Hall]. rewrite He. apply elem_of_app. by left.
  - destruct (IH (queue ++ [id])) as (extra & He & Hnd & Hin & Hall). exists (id :: extra). rewrite He, <- app_assoc.
    split; [done|]. split; [|split].
    + constructor; [|done]. intros [_ Hn]%Hin. apply Hn, elem_of_app. right. left.
    + intros x [->|[Hx Hn]%Hin]%elem_of_cons; [split; [left|done]|]. split; [by right|]. intros Hq. apply Hn, elem_of_app. by left.
    + intros x [->|Hx]%elem_of_cons; [|rewrite He, <- app_assoc in Hall; by apply Hall].
      apply elem_of_app. right. left.
Qed.

Lemma elem_enqueue queue ids x : x ∈ enqueue queue ids <-> x ∈ queue \/ x ∈ ids.
Proof.
  destruct (enqueue_spec queue ids) as (extra & He & _ & Hin & Hall). split.
  - rewrite He, elem_of_app. intros [?|[? _]%Hin]; auto.
  - intros [?|?]; [|by apply Hall]. rewrite He, elem_of_app. by left.
Qed.

Lemma elem_unresolved st id : id ∈ unresolved st <-> exists node, live st id node.
Proof.
  unfold unresolved. rewrite elem_of_filter, elem_of_dom. unfold is_terminal, live. split.
  - intros [Hb [node Hn]]. rewrite Hn in Hb. exists node. split; [done|]. by destruct (terminal node).
  - intros (node & Hn & Ht). rewrite Hn, Ht. done.
Qed.

(** What a turn does to the queue's measure. *)
Definition potential (st : RegistryState) (queue : list Z) : nat :=
  (length queue + size (unresolved st) * S (size (runs st)))%nat.

Lemma size_runs_dom st st' : dom (runs st') = dom (runs st) -> size (runs st') = size (runs st).
Proof. intros Hd. by rewrite <- !size_dom, Hd. Qed.

Lemma finish_unresolved st id node m r :
  registry_ok None st -> live st id node ->
  let '(st', dependents) := finish st id node m r in
  dom (runs st') = dom (runs st) /\ unresolved st' = unresolved st ∖ {[id]} /\
  (forall x, x ∈ dependents -> x ∈ dom (runs st)).
Proof.
  intros Hok [Hid Ht]. pose proof (finish_observed st id node m r (ok_links _ _ Hok) Hid) as Ho.
  destruct (finish st id node m r) as [st' dependents].
  assert (Hlook : forall x, runs st' !! x = observe_matching (Last r) (affected id (owner node)) <$>
      (if decide (x = id) then Some (node <| waiter := None |> <| terminal := Some m |>) else runs st !! x)).
  { intros x. rewrite (observed_runs _ _ _ _ _ Ho). unfold ended, set_field. cbn.
    destruct (decide (x = id)) as [->|]; [by rewrite lookup_insert_eq|by rewrite lookup_insert_ne]. }
  split; [|split].
  - apply set_eq. intros x. rewrite !elem_of_dom, Hlook. destruct (decide (x = id)) as [->|]; [rewrite Hid; by split|].
    destruct (runs st !! x); cbn; split; intros []; eauto; done.
  - apply set_eq. intros x. rewrite elem_of_difference, elem_of_singleton, !elem_unresolved. unfold live.
    setoid_rewrite Hlook. destruct (decide (x = id)) as [->|Hx].
    + split; [intros (n & [= <-] & ?); done|intros [_ ?]; done].
    + split; [intros (n & (n0 & Hn0 & ->)%fmap_Some & Htn); split; [eauto|done]|].
      intros [(n & Hn & Htn) _]. rewrite Hn. cbn. eauto.
  - intros x (n & d & Hn & _)%(observed_roots _ _ _ _ _ Ho). unfold ended, set_field in Hn. cbn in Hn.
    apply elem_of_dom. apply lookup_insert_Some in Hn as [[<- _]|[_ Hn]]; eauto.
Qed.

Lemma turned_potential st id queue st' dependents retired :
  registry_ok None st -> turned st id st' dependents retired ->
  (potential st' (enqueue queue dependents) < potential st (id :: queue))%nat.
Proof.
  intros Hok Ht. unfold potential. cbn [length].
  destruct Ht as [| | |node Hn Hw _|node m s st1 deps Hn Hw _ Hf]; cbn [enqueue foldl]; try lia.
  - destruct (send_to_frame (waiter node) ready_message (released st id node)) as (Hr & _ & _).
    assert (Hd : dom (runs (send_to (waiter node) ready_message (released st id node))) = dom (runs st)).
    { rewrite Hr. unfold released, set_field. cbn. apply dom_insert_lookup_L. eauto. }
    assert (unresolved (send_to (waiter node) ready_message (released st id node)) = unresolved st) as ->; [|rewrite (size_runs_dom _ _ Hd); lia].
    apply set_eq. intros x. rewrite !elem_unresolved. unfold live. rewrite Hr. unfold released, set_field. cbn.
    destruct (decide (x = id)) as [->|Hx]; [rewrite lookup_insert_eq|by rewrite lookup_insert_ne]. destruct Hw.
    split; [eauto|]. intros (n & Hn' & Htn). eexists. split; [done|]. done.
  - destruct (send_to_frame (waiter node) (failed_message m) st1) as (Hr & _ & _).
    pose proof (finish_unresolved st id node (failed_message m) (if s then Unavailable else Failure 1) Hok ltac:(split; [done|apply Hw])) as Hu.
    rewrite Hf in Hu. destruct Hu as (Hd & Hu & Hin).
    assert (Hu' : unresolved (send_to (waiter node) (failed_message m) st1) = unresolved st ∖ {[id]}).
    { rewrite <- Hu. unfold unresolved, is_terminal. by rewrite Hr. }
    rewrite Hu', Hr, (size_runs_dom st st1 Hd). rewrite size_difference, size_singleton.
    2:{ apply singleton_subseteq_l, elem_unresolved. exists node. by split; [|apply Hw]. }
    destruct (enqueue_spec queue deps) as (extra & -> & Hnd & Hex & _). rewrite length_app.
    assert (Hle : (length extra <= size (runs st))%nat).
    { rewrite <- size_dom, <- (size_list_to_set (C := gset Z)) by done. apply subseteq_size.
      intros x ?%elem_of_list_to_set. by apply Hin, Hex. }
    assert (size (unresolved st) <> 0)%nat.
    { intros He%size_empty_inv. apply (not_elem_of_empty (C := gset Z) id), (He id), elem_unresolved. exists node. by split; [|apply Hw]. }
    destruct (size (unresolved st)) as [|k]; [done|]. cbn [Nat.sub]. rewrite Nat.sub_0_r. nia.
Qed.

(** The resolution ends, and what every turn preserves holds at its end. *)
Lemma resolve_loop_ind (P : RegistryState -> list Z -> gset Z -> Prop) fuel st queue terminal_ids :
  registry_ok None st -> P st queue terminal_ids ->
  (forall st id queue terminal_ids st' dependents retired,
     registry_ok None st -> P st (id :: queue) terminal_ids -> turned st id st' dependents retired ->
     P st' (enqueue queue dependents) (if retired : bool then {[id]} ∪ terminal_ids else terminal_ids)) ->
  (potential st queue <= fuel)%nat ->
  exists st' terminal_ids', resolve_loop fuel st queue terminal_ids = Ok (st', terminal_ids') /\
    registry_ok None st' /\ P st' [] terminal_ids'.
Proof.
  revert st queue terminal_ids. induction fuel as [|fuel IH]; intros st [|id queue] tids Hok HP Hstep Hfuel; cbn [resolve_loop]; try by eauto.
  { cbn in Hfuel. lia. }
  destruct (resolve_turn_spec st id) as (st' & deps & ret & -> & Hturn). cbn.
  apply IH; [by eapply turned_ok|by eapply Hstep|done|].
  pose proof (turned_potential _ _ queue _ _ _ Hok Hturn). lia.
Qed.

(** ** What the turns keep *)

Lemma finish_shrinks st id node m r x n' :
  links_ok st -> runs st !! id = Some node ->
  let '(st', dependents) := finish st id node m r in
  live st' x n' -> x <> id /\ exists n, live st x n /\ n' = observe_matching (Last r) (affected id (owner node)) n.
Proof.
  intros Hok Hid. pose proof (finish_observed st id node m r Hok Hid) as Ho.
  destruct (finish st id node m r) as [st' dependents].
  intros (n & [Hn Ht] & ->)%(observed_live _ _ _ _ _ _ _ Ho). unfold ended, set_field in Hn. cbn in Hn.
  apply lookup_insert_Some in Hn as [[<- <-]|[Hx Hn]]; [done|]. split; [done|]. by exists n.
Qed.

(** A turn adds no wait, and the run it ends waits for nothing. *)
Lemma turn_adds_no_wait st id st' dependents retired a b :
  registry_ok None st -> turned st id st' dependents retired -> waits_for st' a b ->
  waits_for st a b /\ (retired = true -> a <> id).
Proof.
  intros Hok Ht (n' & d' & Hn' & Hw' & Hd' & Ho'). assert (Hsame : st' = st -> waits_for st a b) by (intros ->; by exists n', d').
  destruct Ht as [Hterm| | |node Hn Hw _|node m s st1 deps Hn Hw _ Hf]; try (split; [by apply Hsame|done]).
  - split; [by apply Hsame|]. intros _ ->. unfold is_terminal in Hterm. rewrite Hn' in Hterm. destruct Hw' as [Hw' _].
    by rewrite Hw' in Hterm.
  - split; [|done]. rewrite (proj1 (send_to_frame _ _ _)) in Hn'.
    apply (released_lookup _ _ _ _ _ Hn) in Hn' as (n & Hx & ->). destruct (decide (a = id)); [by destruct Hw'|]. by exists n, d'.
  - rewrite (proj1 (send_to_frame _ _ _)) in Hn'.
    pose proof (finish_shrinks st id node (failed_message m) (if s then Unavailable else Failure 1) a n' (ok_links _ _ Hok) Hn) as Hs.
    rewrite Hf in Hs. destruct Hs as (Hne & n & [Hx Ht] & ->); [by split; [|apply Hw']|]. split; [|done].
    apply elem_observe_matching in Hd' as (d & Hd & ->). destruct (affected id (owner node) d); [done|].
    exists n, d. split; [done|]. by split; [split; [|apply Hw']|].
Qed.

Lemma turned_settled st id queue st' dependents retired :
  registry_ok None st -> settled st (id :: queue) -> turned st id st' dependents retired ->
  settled st' (enqueue queue dependents).
Proof.
  intros Hok Hst Ht x n Hn Hw Hx. rewrite elem_enqueue in Hx.
  assert (Hold : x <> id -> runs st !! x = Some n -> awaiting n).
  { intros Hne Hn'. apply (Hst x n Hn' Hw). rewrite elem_of_cons. tauto. }
  destruct Ht as [Hterm|Hgone|node [Hnode Ht] He|node Hnode Hwn _|node m s st1 deps Hnode Hwn _ Hf].
  - apply Hold; [|done]. intros ->. unfold is_terminal in Hterm. rewrite Hn in Hterm. destruct Hw as [Hw _]. by rewrite Hw in Hterm.
  - apply Hold; [congruence|done].
  - destruct (decide (x = id)) as [->|]; [|by apply Hold]. unfold evaluate in He.
    eapply evaluate_pending; [apply (ok_managed _ _ Hok)|done..|apply not_elem_of_nil|done].
  - rewrite (proj1 (send_to_frame _ _ _)) in Hn. apply (released_lookup _ _ _ _ _ Hnode) in Hn as (n0 & Hn0 & ->).
    destruct (decide (x = id)); [by destruct Hw|]. by apply Hold.
  - rewrite (proj1 (send_to_frame _ _ _)) in Hn.
    pose proof (finish_unchanged st id node (failed_message m) (if s then Unavailable else Failure 1) x n (ok_links _ _ Hok) Hnode) as Hu.
    pose proof (finish_shrinks st id node (failed_message m) (if s then Unavailable else Failure 1) x n (ok_links _ _ Hok) Hnode) as Hs.
    rewrite Hf in Hu, Hs. destruct Hs as [Hne _]; [by split; [|apply Hw]|]. apply Hold; [done|]. apply Hu; [done|tauto|done].
Qed.

(** The runs that have ended are those to retire. *)
Definition ends_in (st : RegistryState) (queue : list Z) (terminal_ids : gset Z) : Prop :=
  (forall id node, runs st !! id = Some node -> terminal node <> None -> id ∈ queue \/ id ∈ terminal_ids) /\
  (forall id node, id ∈ terminal_ids -> runs st !! id = Some node -> terminal node <> None).

Lemma turned_ends st id queue terminal_ids st' dependents retired :
  registry_ok None st -> ends_in st (id :: queue) terminal_ids -> turned st id st' dependents retired ->
  ends_in st' (enqueue queue dependents) (if retired : bool then {[id]} ∪ terminal_ids else terminal_ids).
Proof.
  intros Hok [Hin Hall] Ht.
  assert (Hold : forall x n, runs st !! x = Some n -> terminal n <> None -> x = id \/ x ∈ enqueue queue dependents \/ x ∈ terminal_ids).
  { intros x n Hn Hx. rewrite elem_enqueue. destruct (Hin x n Hn Hx) as [[->|?]%elem_of_cons|?]; auto. }
  destruct Ht as [Hterm|Hgone|node [Hnode Ht] _|node Hnode Hwn _|node m s st1 deps Hnode Hwn _ Hf].
  - split.
    + intros x n Hn Hx. destruct (Hold x n Hn Hx) as [->|[?|?]]; [right; set_solver|by left|right; set_solver].
    + intros x n [->%elem_of_singleton|Hx]%elem_of_union Hn; [|by apply (Hall x n)]. unfold is_terminal in Hterm.
      rewrite Hn in Hterm. by destruct (terminal n).
  - split; [|done]. intros x n Hn Hx. destruct (Hold x n Hn Hx) as [->|?]; [congruence|done].
  - split; [|done]. intros x n Hn Hx. destruct (Hold x n Hn Hx) as [->|?]; [congruence|done].
  - unfold ends_in. rewrite (proj1 (send_to_frame _ _ _)). split.
    + intros x n (n0 & Hn0 & ->)%(released_lookup _ _ _ _ _ Hnode) Hx. destruct (decide (x = id)) as [->|Hne].
      * destruct Hwn. cbn in Hx. congruence.
      * destruct (Hold x n0 Hn0 Hx); done.
    + intros x n Hx (n0 & Hn0 & ->)%(released_lookup _ _ _ _ _ Hnode). specialize (Hall x n0 Hx Hn0). by destruct (decide (x = id)).
  - unfold ends_in. rewrite (proj1 (send_to_frame _ _ _)).
    pose proof (finish_observed st id node (failed_message m) (if s then Unavailable else Failure 1) (ok_links _ _ Hok) Hnode) as Ho.
    rewrite Hf in Ho. split.
    + intros x n (n0 & Hn0 & ->)%(observed_lookup _ _ _ _ _ _ _ Ho) Hx. unfold ended, set_field in Hn0. cbn in Hn0.
      apply lookup_insert_Some in Hn0 as [[<- _]|[Hne Hn0]]; [right; set_solver|].
      destruct (Hold x n0 Hn0 Hx) as [?|[?|?]]; [done|by left|right; set_solver].
    + intros x n Hx (n0 & Hn0 & ->)%(observed_lookup _ _ _ _ _ _ _ Ho). unfold ended, set_field in Hn0. cbn in Hn0.
      apply lookup_insert_Some in Hn0 as [[<- <-]|[Hne Hn0]]; [done|].
      apply elem_of_union in Hx as [?%elem_of_singleton|Hx]; [congruence|]. by apply (Hall x n0).
Qed.

(** ** Cycles *)

(** Without [n], the waits have no cycle. *)
Definition acyclic_without (st : RegistryState) (n : Z) : Prop := forall a, ~ tc (fun x y => waits_for st x y /\ x <> n) a a.

Lemma tc_through {A} (R : A -> A -> Prop) (n : A) (Hdec : forall x, x = n \/ x <> n) a b :
  tc R a b -> tc (fun x y => R x y /\ x <> n) a b \/ (rtc R a n /\ tc R n b).
Proof.
  induction 1 as [a b Hab|a c b Hac Hcb IH]; destruct (Hdec a) as [->|Hne].
  - right. split; [reflexivity|by apply tc_once].
  - left. by apply tc_once.
  - right. split; [reflexivity|by eapply tc_l].
  - destruct IH as [IH|[H1 H2]]; [left; by eapply tc_l|right]. split; [by eapply rtc_l|done].
Qed.

Lemma cycle_through st n a : acyclic_without st n -> tc (waits_for st) a a -> tc (waits_for st) n n.
Proof.
  intros Hno Hc. apply (tc_through _ n) in Hc as [Hc|[H1 H2]]; [by destruct (Hno a)| |].
  - by eapply tc_rtc_r.
  - intros x. destruct (decide (x = n)); auto.
Qed.

Lemma tc_mono {A} (R S : A -> A -> Prop) a b : (forall x y, R x y -> S x y) -> tc R a b -> tc S a b.
Proof. intros HRS. induction 1; [apply tc_once|eapply tc_l]; eauto. Qed.

Lemma turned_acyclic st id st' dependents retired :
  registry_ok None st -> acyclic st -> turned st id st' dependents retired -> acyclic st'.
Proof.
  intros Hok Ha Ht a Hc. apply (Ha a). eapply tc_mono; [|exact Hc]. intros x y Hxy. by eapply turn_adds_no_wait.
Qed.

(** A new run is looked at first: if it closed a cycle it fails, and either way
    no cycle is left. *)
Lemma turned_first_acyclic st n node st' dependents retired :
  registry_ok None st -> settled st [n] -> runs st !! n = Some node -> waiting node -> acyclic_without st n ->
  turned st n st' dependents retired -> acyclic st'.
Proof.
  intros Hok Hst Hn Hw Hno Ht.
  assert (Heval : (forall m s, evaluate st n <> Ok (Some (Evaluation.Failed m s))) -> acyclic st).
  { intros He a Hc%(cycle_through _ n); [|done]. destruct (evaluate_total st n) as [e Hev].
    destruct (evaluate_on_cycle st n node e) as (m & s & ->); [apply (ok_managed _ _ Hok)|done..|]. by destruct (He m s). }
  destruct retired eqn:Hret.
  - intros a Hc. apply (Hno a). eapply tc_mono; [|exact Hc]. intros x y Hxy.
    destruct (turn_adds_no_wait _ _ _ _ _ _ _ Hok Ht Hxy). split; [done|]. by auto.
  - eapply turned_acyclic; [done| |exact Ht]. apply Heval. intros m s He. inversion Ht; simplify_eq; congruence.
Qed.

(** ** Retiring what ended *)

(** [st'] is [st] without the runs that have ended. *)
Record retired (st st' : RegistryState) : Prop := {
  retired_frame : next_id st' = next_id st /\ panes st' = panes st /\ sent st' = sent st;
  retired_runs id node : runs st' !! id = Some node <-> live st id node;
}.

Lemma remove_run_ok st id node :
  registry_ok None st -> runs st !! id = Some node -> terminal node <> None ->
  registry_ok None (remove_run st id) /\ panes (remove_run st id) = panes st.
Proof.
  intros Hok Hn Ht. destruct (remove_run_frame st id) as (Hi & Hs & Hr & Hp). rewrite Hn in Hp.
  assert (Hpanes : release_pane id <$> panes st = panes st).
  { apply map_eq. intros p. rewrite lookup_fmap. destruct (panes st !! p) as [ps|] eqn:Hps; [|done]. cbn. f_equal.
    unfold release_pane. destruct (active ps) as [[|x|]|] eqn:Ha; try done. destruct (x =? id) eqn:Hx; [|done].
    apply Z.eqb_eq in Hx as ->. destruct (ok_active _ _ Hok p ps id Hps Ha) as (n & [Hn' Hl] & _). congruence. }
  rewrite Hpanes in Hp. split; [|done].
  assert (Hlive : forall x n, live (remove_run st id) x n <-> live st x n).
  { intros x n. unfold live. rewrite Hr. destruct (decide (x = id)) as [->|]; [rewrite lookup_delete_eq|by rewrite lookup_delete_ne].
    split; [by intros []|]. intros [? ?]. congruence. }
  constructor.
  - apply remove_run_links_ok; [apply (ok_links _ _ Hok)|]. intros x n d Hx Hd Ho.
    destruct (ok_managed _ _ Hok x n d id Hx Hd Ho) as (n' & Hn' & Hl). congruence.
  - intros x n. rewrite Hr, Hi. intros [_ Hx]%lookup_delete_Some. apply (ok_ids _ _ Hok x n Hx).
  - intros x n d r. rewrite Hr. intros [_ Hx]%lookup_delete_Some Hd Ho. destruct (ok_managed _ _ Hok x n d r Hx Hd Ho) as [n' Hn'].
    exists n'. by apply Hlive.
  - intros x n Hx%Hlive He. rewrite Hp. by apply (ok_owner _ _ Hok x n).
  - intros p ps x. rewrite Hp. intros Hps Ha. destruct (ok_active _ _ Hok p ps x Hps Ha) as (n & Hx & Ho). exists n. by rewrite Hlive.
  - intros x n. rewrite Hr. intros [_ Hx]%lookup_delete_Some. apply (ok_waiter _ _ Hok x n Hx).
  - intros x n d. rewrite Hr, Hp. intros [_ Hx]%lookup_delete_Some. apply (ok_pending _ _ Hok x n d Hx).
  - rewrite Hp. apply (ok_closed _ _ Hok).
Qed.

Lemma remove_runs_ok ids st :
  registry_ok None st -> (forall id node, id ∈ ids -> runs st !! id = Some node -> terminal node <> None) ->
  let st' := foldl remove_run st ids in
  registry_ok None st' /\ next_id st' = next_id st /\ panes st' = panes st /\ sent st' = sent st /\
  (forall id, runs st' !! id = if decide (id ∈ ids) then None else runs st !! id).
Proof.
  revert st. induction ids as [|x ids IH]; intros st Hok Hids; cbn [foldl].
  { do 4 (split; [done|]). intros id. destruct (decide (id ∈ [])) as [Hid|]; [by apply elem_of_nil in Hid|done]. }
  destruct (remove_run_frame st x) as (Hi & Hs & Hr & Hp).
  assert (Hx : registry_ok None (remove_run st x) /\ panes (remove_run st x) = panes st).
  { destruct (runs st !! x) as [n|] eqn:Hn; [apply (remove_run_ok st x n Hok Hn), (Hids x n); [left|done]|].
    split; [|done]. unfold remove_run. by rewrite Hn. }
  destruct Hx as [Hok' Hp']. destruct (IH (remove_run st x) Hok') as (Hok2 & Hi2 & Hp2 & Hs2 & Hr2).
  { intros id n Hid. rewrite Hr. intros [_ Hn]%lookup_delete_Some. apply (Hids id n); [by right|done]. }
  split; [done|]. split; [by rewrite Hi2|]. split; [by rewrite Hp2|]. split; [by rewrite Hs2|].
  intros id. rewrite Hr2, Hr. destruct (decide (id = x)) as [->|Hne].
  - rewrite lookup_delete_eq. destruct (decide (x ∈ x :: ids)) as [|Hn]; [by destruct (decide _)|destruct Hn; left].
  - rewrite lookup_delete_ne by done. do 2 destruct (decide _); try done; rewrite elem_of_cons in *; tauto.
Qed.

(** ** Resolving *)

(** Between calls: the invariant holds, every waiting run has something to wait
    for, no waits form a cycle and no ended run is kept. *)
Record stable (st : RegistryState) : Prop := {
  stable_ok : registry_ok None st;
  stable_settled : settled st [];
  stable_acyclic : acyclic st;
  stable_live id node : runs st !! id = Some node -> terminal node = None;
}.

(** Either the waits have no cycle, or the first run to be looked at is the only
    one a cycle can pass. *)
Definition first_cycles (st : RegistryState) (queue : list Z) : Prop :=
  acyclic st \/ exists n rest node, queue = n :: rest /\ settled st [n] /\ runs st !! n = Some node /\ waiting node /\
                              acyclic_without st n.

Lemma turned_first_cycles st id queue st' dependents retired :
  registry_ok None st -> first_cycles st (id :: queue) -> turned st id st' dependents retired -> acyclic st'.
Proof.
  intros Hok [Ha|(n & rest & node & [= <- <-] & Hst & Hn & Hw & Hno)] Ht; [by eapply turned_acyclic|].
  by eapply turned_first_acyclic.
Qed.

Lemma retired_stable st st' terminal_ids :
  registry_ok None st -> settled st [] -> acyclic st -> ends_in st [] terminal_ids ->
  st' = foldl remove_run st (iterate st terminal_ids) -> retired st st' /\ stable st'.
Proof.
  intros Hok Hst Ha [Hin Hall] ->.
  destruct (remove_runs_ok (iterate st terminal_ids) st Hok) as (Hok' & Hi & Hp & Hs & Hr).
  { intros id node Hid%(elem_iterate). by apply Hall. }
  set (st' := foldl remove_run st (iterate st terminal_ids)) in *. clearbody st'.
  assert (Hlive : forall id node, runs st' !! id = Some node <-> live st id node).
  { intros id node. rewrite Hr. destruct (decide (id ∈ iterate st terminal_ids)) as [Hid|Hid];
      rewrite (elem_iterate) in Hid.
    - split; [done|]. intros [Hn Ht]. by destruct (Hall id node Hid Hn).
    - split; [|by intros []]. intros Hn. split; [done|]. destruct (terminal node) eqn:Ht; [|done].
      destruct (Hin id node Hn) as [?%elem_of_nil|?]; [congruence|done..]. }
  split; [by constructor|]. constructor.
  - done.
  - intros id node Hn Hw _. apply Hlive in Hn as [Hn _]. apply (Hst id node Hn Hw). apply not_elem_of_nil.
  - intros a Hc. apply (Ha a). eapply tc_mono; [|exact Hc]. intros x y (node & d & Hn & Hrest). apply Hlive in Hn as [Hn _].
    by exists node, d.
  - intros id node Hn. apply Hlive in Hn. apply Hn.
Qed.

Lemma resolve_locked_spec (P : RegistryState -> list Z -> Prop) st roots :
  registry_ok None st -> settled st roots -> ends_in st roots ∅ -> first_cycles st roots ->
  P st (enqueue [] roots) ->
  (forall st id queue st' dependents retired,
     registry_ok None st -> P st (id :: queue) -> turned st id st' dependents retired -> P st' (enqueue queue dependents)) ->
  exists st1 st', resolve_locked st roots = Ok st' /\ P st1 [] /\ retired st1 st' /\ stable st'.
Proof.
  intros Hok Hst Hends Hcyc HP Hstep. unfold resolve_locked.
  destruct (resolve_loop_ind (fun st queue tids => P st queue /\ settled st queue /\ ends_in st queue tids /\ first_cycles st queue)
    (resolve_fuel st roots) st (enqueue [] roots) ∅) as (st1 & tids & Hloop & Hok1 & HP1 & Hst1 & Hends1 & Hcyc1).
  - done.
  - assert (Hmem : forall x, x ∈ enqueue [] roots <-> x ∈ roots).
    { intros x. rewrite elem_enqueue. split; [intros [?%elem_of_nil|?]; done|by right]. }
    split; [done|]. split; [|split].
    + intros id node Hn Hw Hid. apply (Hst id node Hn Hw). by rewrite <- Hmem.
    + destruct Hends as [Hin Hall]. split; [|done]. intros id node Hn Ht. rewrite Hmem. by apply (Hin id node).
    + destruct Hcyc as [?|(n & rest & node & -> & Hrest)]; [by left|right].
      destruct (enqueue_spec [n] rest) as (extra & He & _). exists n, extra, node. split; [|done]. exact He.
  - intros st0 id queue tids st0' deps ret Hok0 (HP0 & Hst0 & Hends0 & Hcyc0) Ht. split; [by eapply Hstep|].
    split; [by eapply turned_settled|]. split; [by eapply turned_ends|]. left. by eapply turned_first_cycles.
  - unfold potential, resolve_fuel. destruct (enqueue_spec [] roots) as (extra & -> & Hnd & Hex & _). cbn [app].
    assert (length extra <= length roots)%nat.
    { apply submseteq_length, NoDup_submseteq; [done|]. intros x Hx. by apply Hex. }
    assert (size (unresolved st) <= size (runs st))%nat; [|nia].
    rewrite <- size_dom. apply subseteq_size. intros x (node & Hn & _)%elem_unresolved. apply elem_of_dom. eauto.
  - rewrite Hloop. cbn. destruct Hcyc1 as [Ha1|(? & ? & ? & ? & _)]; [|done].
    destruct (retired_stable st1 (foldl remove_run st1 (iterate st1 tids)) tids) as [Hret Hstable]; [done..|].
    eexists st1, _. done.
Qed.

(** The turns a resolution takes. *)
Inductive turns : RegistryState -> list Z -> RegistryState -> Prop :=
| turns_done st : turns st [] st
| turns_step st id queue st1 dependents retired st2 :
    registry_ok None st -> turned st id st1 dependents retired -> turns st1 (enqueue queue dependents) st2 ->
    turns st (id :: queue) st2.

Lemma resolve_locked_turns st roots :
  registry_ok None st -> settled st roots -> ends_in st roots ∅ -> first_cycles st roots ->
  exists st1 st', resolve_locked st roots = Ok st' /\ turns st (enqueue [] roots) st1 /\ retired st1 st' /\ stable st'.
Proof.
  intros Hok Hst Hends Hcyc.
  destruct (resolve_locked_spec (fun s queue => forall s2, turns s queue s2 -> turns st (enqueue [] roots) s2) st roots)
    as (st1 & st' & Hres & Hturns & Hret & Hstable); [done..| |].
  - intros s id queue s' deps ret Hoks HP Ht s2 Hs2. apply HP. by eapply turns_step.
  - exists st1, st'. split; [done|]. split; [apply Hturns, turns_done|done].
Qed.
End Registry.
