(* ===== verification/RunRegistry.v ===== *)
(** * The registry's calls, and what they guarantee

    Theorems about [src/run_command.rs] as [RunCommand] models it: no call
    panics or loops, every run that is left waiting really has something to wait
    for, waits never form a cycle, every wrapper is told its fate exactly once,
    and nothing but a dependency's own success releases it. *)
From Stdlib Require Import ZArith Lia List Bool.
From stdpp Require Import base numbers list gmap sets strings.
From S2P Require Import Prelude RunCommand RunLinks RunResolve.
Import RunCommand.
Open Scope Z_scope.
Open Scope zetta_scope.

Section Registry.
Context {order : Iteration}.

(** ** What a call does before it resolves *)

Definition is_waiting (st : RegistryState) (id : Z) : bool :=
  match runs st !! id with Some node => bool_decide (waiting node) | None => false end.

(** How many of the messages are for [id]. *)
Definition told (id : Z) (l : list (Z * RunResolutionMessage)) : nat :=
  length (filter (fun x => x.1 = id) l).

(** The new observations a call may make, what it may say before it resolves,
    and what runs it may add. *)
Record allowance := {
  may : RunPaneIdentity -> DependencyObservation -> Prop;
  says : Z -> RunResolutionMessage -> Prop;
  opens : RunNode -> Prop;
}.

(** The dependencies of a run after a call: their panes are the same, and what
    is observed is as before or one of the new observations. *)
Definition may_follow (a : allowance) (d d0 : RunDependency) : Prop :=
  pane d0 = pane d /\ (observation d0 = observation d \/ may a (pane d) (observation d0)).

Record follows (a : allowance) (node node0 : RunNode) : Prop := {
  follows_owner : owner node0 = owner node;
  follows_allow : allow_failure node0 = allow_failure node;
  follows_ready : ready node0 = ready node;
  follows_dependencies : Forall2 (may_follow a) (dependencies node) (dependencies node0);
}.

Record prepared (a : allowance) (st st0 : RegistryState) (roots : list Z) (fresh : option Z)
    (before after : list (Z * RunResolutionMessage)) : Prop := {
  prepared_ok : registry_ok None st0;
  prepared_settled : settled st0 roots;
  prepared_ends : ends_in st0 roots ∅;
  prepared_cycles : first_cycles st0 roots;
  prepared_sent : sent st0 = sent st ++ before;
  prepared_before x : x ∈ before -> says a x.1 x.2;
  prepared_after x : x ∈ after -> resolution x.2 = RunResolution.Failed;
  prepared_told id : fresh <> Some id ->
    (told id (before ++ after) + Nat.b2n (is_waiting st0 id) = Nat.b2n (is_waiting st id))%nat;
  prepared_node id node0 : runs st0 !! id = Some node0 -> fresh <> Some id ->
    exists node, runs st !! id = Some node /\ follows a node node0;
  prepared_fresh id : fresh = Some id ->
    id = next_id st + 1 /\ told id (before ++ after) = O /\
    exists node0, runs st0 !! id = Some node0 /\ waiting node0 /\ opens a node0;
  prepared_next_id : next_id st0 = match fresh with Some id => id | None => next_id st end;
  prepared_roots id node0 : (forall node, ~ opens a node) -> id ∈ roots -> runs st0 !! id = Some node0 -> waiting node0 ->
    exists d, d ∈ dependencies node0 /\ may a (pane d) (observation d);
}.

(** A call from one stable state to another. *)
Inductive evolves (a : allowance) : RegistryState -> RegistryState -> Prop :=
| evolves_call st st0 roots fresh before after st1 st2 :
    stable st -> prepared a st st0 roots fresh before after -> turns st0 (enqueue [] roots) st1 -> retired st1 st2 ->
    stable st2 -> evolves a st (st2 <| sent := sent st2 ++ after |>)
| evolves_refl st : stable st -> evolves a st st
| evolves_trans st1 st2 st3 : evolves a st1 st2 -> evolves a st2 st3 -> evolves a st1 st3.

Lemma sent_irrelevant st l : stable st -> stable (st <| sent := l |>).
Proof. intros [[[] ? ? ? ? ? ? ?] ? ? ?]. constructor; [constructor; [constructor|..]|..]; done. Qed.

Lemma evolves_stable a st st' : evolves a st st' -> stable st'.
Proof. induction 1; [by apply sent_irrelevant|done..]. Qed.

Lemma prepared_resolves a st st0 roots fresh before after :
  stable st -> prepared a st st0 roots fresh before after ->
  exists st', resolve_locked st0 roots = Ok st' /\ stable st' /\ evolves a st (st' <| sent := sent st' ++ after |>).
Proof.
  intros Hst Hp. destruct (resolve_locked_turns st0 roots) as (st1 & st' & Hres & Hturns & Hret & Hstable); try apply Hp.
  exists st'. split; [done|]. split; [done|]. by eapply evolves_call.
Qed.

(** ** Preparations *)

(** A pane's record may change freely as long as who runs in it and whether it
    is there do not. *)
Definition same_pane (st : RegistryState) (p : RunPaneIdentity) (ps : PaneState) : Prop :=
  (forall r, active ps = Some (Managed r) <-> active (pane_entry p st) = Some (Managed r)) /\
  (available ps = true \/ available ps = available (pane_entry p st)).

Lemma pane_entry_some st p ps : panes st !! p = Some ps -> pane_entry p st = ps.
Proof. unfold pane_entry. by intros ->. Qed.

Lemma pane_entry_managed st p r : active (pane_entry p st) = Some (Managed r) -> panes st !! p = Some (pane_entry p st).
Proof. unfold pane_entry. by destruct (panes st !! p). Qed.

Lemma set_pane_lookup st p ps q : panes (set_pane p ps st) !! q = if decide (q = p) then Some ps else panes st !! q.
Proof.
  unfold set_pane, set_field. cbn. destruct (decide (q = p)) as [->|]; [by rewrite lookup_insert_eq|by rewrite lookup_insert_ne].
Qed.

Lemma set_pane_ok exempt st p ps : registry_ok exempt st -> same_pane st p ps -> registry_ok exempt (set_pane p ps st).
Proof.
  intros Hok [Hact Hav]. constructor.
  - apply links_ok_shape with st; [done..|apply (ok_links _ _ Hok)].
  - apply (ok_ids _ _ Hok).
  - apply (ok_managed _ _ Hok).
  - intros id node Hl He. destruct (ok_owner _ _ Hok id node Hl He) as (ps0 & Hp & Ha). rewrite set_pane_lookup.
    destruct (decide (owner node = p)) as [<-|]; [|by eauto]. exists ps. split; [done|]. apply Hact.
    by rewrite (pane_entry_some _ _ _ Hp).
  - intros q qs id. rewrite set_pane_lookup. destruct (decide (q = p)) as [->|]; [|apply (ok_active _ _ Hok)].
    intros [= <-] Ha%Hact. apply (ok_active _ _ Hok p (pane_entry p st) id); [|done]. by eapply pane_entry_managed.
  - apply (ok_waiter _ _ Hok).
  - intros id node d Hn Hd Ho. destruct (ok_pending _ _ Hok id node d Hn Hd Ho) as (ps0 & Hp & Ha & Hm). rewrite set_pane_lookup.
    destruct (decide (pane d = p)) as [<-|]; [|by eauto]. rewrite (pane_entry_some _ _ _ Hp) in Hact, Hav.
    exists ps. split; [done|]. split; [destruct Hav; congruence|]. intros r Hr%Hact. by apply (Hm r).
  - intros q qs r. rewrite set_pane_lookup. destruct (decide (q = p)) as [->|]; [|apply (ok_closed _ _ Hok)].
    intros [= <-] Hc Ha%Hact. destruct Hav as [?|Hav]; [congruence|].
    apply (ok_closed _ _ Hok p (pane_entry p st) r); [by eapply pane_entry_managed|congruence|done].
Qed.

Lemma observe_same a o p node :
  (forall d, p d = true -> may a (pane d) o) -> follows a node (observe_matching o p node).
Proof.
  intros Hp. constructor; try done. unfold observe_matching. cbn. apply Forall2_fmap_r, Forall_Forall2_diag, Forall_forall.
  intros d _. unfold may_follow, compose. destruct (p d) eqn:Hd; (split; [done|]); [right; by apply Hp|by left].
Qed.

Lemma observed_unchanged o p st st' roots id node :
  observed o p st st' roots -> runs st' !! id = Some node -> id ∉ roots -> runs st !! id = Some node.
Proof.
  intros Ho Hn Hid. destruct (observed_lookup _ _ _ _ _ _ _ Ho Hn) as (n & Hn' & ->). rewrite Hn'. f_equal.
  destruct n as [ow ds al re te wa]. unfold observe_matching, set_field. cbn. f_equal.
  assert (Hall : forall d, d ∈ ds -> p d = true -> observation d = o).
  { intros d Hd Hp. destruct (decide (observation d = o)) as [|Hne]; [done|]. destruct Hid.
    apply (observed_roots _ _ _ _ _ Ho). by exists (mkNode ow ds al re te wa), d. }
  clear -Hall. induction ds as [|d ds IH]; [done|]. cbn. f_equal; [|apply IH; intros d' Hd'; apply Hall; by right].
  destruct (p d) eqn:Hp; [|done]. rewrite <- (Hall d) by (left || done). by rewrite set_observation_same.
Qed.

Lemma observed_settled o p st st' roots queue :
  settled st queue -> observed o p st st' roots -> settled st' (queue ++ roots).
Proof.
  intros Hst Ho id node Hn Hw Hid. rewrite elem_of_app in Hid.
  apply (Hst id node); [|done|tauto]. eapply observed_unchanged; [done..|tauto].
Qed.

Lemma observed_acyclic o p st st' roots :
  acyclic st -> (forall r, o <> ActiveManaged r) -> observed o p st st' roots -> acyclic st'.
Proof.
  intros Ha Hr Ho x Hc. apply (Ha x). eapply tc_mono; [|exact Hc].
  intros y z (n' & d' & Hn & Hw & Hd & Hz). destruct (observed_lookup _ _ _ _ _ _ _ Ho Hn) as (n & Hn' & ->).
  apply elem_observe_matching in Hd as (d & Hd & ->). destruct (p d); [by destruct (Hr z)|].
  exists n, d. by rewrite (proj1 (proj2 (observed_waiter o p n))) in Hw.
Qed.

Lemma observed_is_waiting o p st st' roots id : observed o p st st' roots -> is_waiting st' id = is_waiting st id.
Proof.
  intros Ho. unfold is_waiting. rewrite (observed_runs _ _ _ _ _ Ho). destruct (runs st !! id) as [n|]; [|done]. cbn.
  apply bool_decide_ext, (proj1 (proj2 (observed_waiter o p n))).
Qed.

Lemma live_ends st roots : (forall id node, runs st !! id = Some node -> terminal node = None) -> ends_in st roots ∅.
Proof. intros Hl. split; [intros id node Hn Ht; destruct Ht; by apply (Hl id)|]. by intros id node ?%not_elem_of_empty. Qed.

Lemma told_nil id : told id [] = O.
Proof. done. Qed.

Lemma on_pane_pane p pred d : on_pane p pred d = true -> pane d = p.
Proof. by intros [?%bool_decide_eq_true _]%andb_true_iff. Qed.

Lemma observed_roots_may a p pred o st st0 roots id node0 :
  observed o (on_pane p pred) st st0 roots -> may a p o -> id ∈ roots -> runs st0 !! id = Some node0 ->
  exists d, d ∈ dependencies node0 /\ may a (pane d) (observation d).
Proof.
  intros Ho Hmay (n & d & Hn & Hd & Hpd & _)%(observed_roots _ _ _ _ _ Ho) Hn0.
  destruct (observed_lookup _ _ _ _ _ _ _ Ho Hn0) as (n' & Hn' & ->). simplify_eq.
  exists (set_observation o d). split; [|by rewrite <- (on_pane_pane _ _ _ Hpd) in Hmay].
  apply elem_observe_matching. exists d. by rewrite Hpd.
Qed.

Lemma observed_follows a p pred o st st0 roots id node0 :
  observed o (on_pane p pred) st st0 roots -> may a p o -> runs st0 !! id = Some node0 ->
  exists node, runs st !! id = Some node /\ follows a node node0.
Proof.
  intros Ho Hmay (n & Hn & ->)%(observed_lookup _ _ _ _ _ _ _ Ho). exists n. split; [done|].
  apply observe_same. by intros d ->%on_pane_pane.
Qed.

(** What the runs on a pane observe changes to [o]. *)
Lemma observed_prepared a st p ps o pred st0 roots :
  stable st -> registry_ok None st0 -> observed o (on_pane p pred) (set_pane p ps st) st0 roots ->
  (forall r, o <> ActiveManaged r) -> may a p o -> prepared a st st0 roots None [] [].
Proof.
  intros Hst Hok Ho Hr Hmay. destruct (observed_frame _ _ _ _ _ Ho) as [Hi Hp _ Hs].
  constructor; try done; try by intros ? ?%elem_of_nil.
  - apply (observed_settled o (on_pane p pred) (set_pane p ps st) st0 roots []); [|done]. apply (stable_settled _ Hst).
  - apply live_ends. intros id node (n & Hn & ->)%(observed_lookup _ _ _ _ _ _ _ Ho). apply (stable_live _ Hst id n Hn).
  - left. eapply observed_acyclic; [|done..]. apply (stable_acyclic _ Hst).
  - by rewrite Hs, app_nil_r.
  - intros id _. by rewrite (observed_is_waiting _ _ _ _ _ _ Ho).
  - intros id node0 Hn _. by apply (observed_follows _ _ _ _ _ _ _ _ _ Ho).
  - intros id node0 _ Hid Hn _. by eapply observed_roots_may.
Qed.

(** A pane reports: its record changes, and the runs that observe it see [o]. *)
Lemma report_prepared a st p ps o pred st0 roots :
  stable st -> same_pane st p ps -> observed o (on_pane p pred) (set_pane p ps st) st0 roots ->
  (forall r, o <> ActiveManaged r) -> may a p o ->
  (o = WaitingForCommand \/ o = ActiveShell -> forall o', pred o' = true -> o' = WaitingForCommand \/ o' = ActiveShell) ->
  prepared a st st0 roots None [] [].
Proof.
  intros Hst Hsame Ho Hr Hmay Hpend. eapply observed_prepared; [done| |done..].
  eapply observed_ok; [apply set_pane_ok; [apply Hst|done]|done| |].
  - intros r ->. by destruct (Hr r).
  - intros Hop d [_ Hd]%andb_true_iff. by apply Hpend.
Qed.

(** A call that changes only a pane's record. *)
Lemma pane_evolves a st p ps : stable st -> same_pane st p ps -> stable (set_pane p ps st) /\ evolves a st (set_pane p ps st).
Proof.
  intros Hst Hsame.
  assert (Hs' : stable (set_pane p ps st)).
  { constructor; [apply set_pane_ok; [apply Hst|done]|apply Hst..]. }
  split; [done|].
  enough (evolves a st (set_pane p ps st <| sent := sent (set_pane p ps st) ++ [] |>)) as He
    by (rewrite app_nil_r in He; by destruct st).
  apply evolves_call with (set_pane p ps st) [] None [] (set_pane p ps st); [done| |apply turns_done| |done].
  - constructor; try done; try by intros ? ?%elem_of_nil.
    + apply Hs'.
    + apply Hs'.
    + apply live_ends, Hs'.
    + left. apply Hs'.
    + by rewrite app_nil_r.
    + intros id node Hn _. exists node. split; [done|]. constructor; try done. apply Forall_Forall2_diag, Forall_forall.
      intros d _. split; [done|by left].
    + by intros id node _ ?%elem_of_nil.
  - constructor; [done|]. intros id node. split; [|by intros []]. intros Hn. split; [done|]. apply (stable_live _ Hs' id node Hn).
Qed.

(** ** Ending a run before resolving *)

Lemma follows_trans a n1 n2 n3 : follows a n1 n2 -> follows a n2 n3 -> follows a n1 n3.
Proof.
  intros [Ho1 Ha1 Hr1 Hd1] [Ho2 Ha2 Hr2 Hd2]. constructor; [congruence..|].
  revert Hd2. generalize (dependencies n3). induction Hd1 as [|d1 d2 l1 l2 H12 H IH]; intros l3 H3; inversion H3; subst; constructor.
  - destruct H12 as [Hp Ho]. match goal with H : may_follow _ d2 _ |- _ => destruct H as [Hp' Ho'] end.
    split; [congruence|]. rewrite Hp in Ho'. destruct Ho as [<-|Ho]; [done|]. destruct Ho' as [->|Ho']; auto.
  - by apply IH.
Qed.

Lemma follows_refl a n : follows a n n.
Proof. constructor; try done. apply Forall_Forall2_diag, Forall_forall. intros d _. split; [done|by left]. Qed.

(** The dependencies an end reaches are on the owner's pane. *)
Lemma affected_pane st x n d id node :
  links_ok st -> runs st !! x = Some n -> d ∈ dependencies n -> runs st !! id = Some node ->
  affected id (owner node) d = true -> pane d = owner node.
Proof.
  intros Hl Hx Hd Hid [Ho%bool_decide_eq_true|[Hp%bool_decide_eq_true _]%andb_true_iff]%orb_true_iff; [|done].
  destruct (managed_owner _ Hl x n d id) as (n' & Hn' & <-); [done..|]. congruence.
Qed.

(** What ending [id] does to a state between two resolutions; [earlier] are the
    roots there already are. *)
Record ending (a : allowance) (id : Z) (earlier : list Z) (st st' : RegistryState) (dependents : list Z) : Prop := {
  ending_ok : registry_ok None st';
  ending_settled : settled st' (earlier ++ id :: dependents);
  ending_ends : ends_in st' (earlier ++ id :: dependents) ∅;
  ending_acyclic : acyclic st';
  ending_sent : sent st' = sent st;
  ending_next_id : next_id st' = next_id st;
  ending_waiting x : is_waiting st' x = negb (bool_decide (x = id)) && is_waiting st x;
  ending_node x n' : runs st' !! x = Some n' -> exists n, runs st !! x = Some n /\ follows a n n' /\
    (x <> id -> x ∉ dependents -> n' = n);
  ending_dependents x n' : x ∈ dependents -> runs st' !! x = Some n' ->
    exists d, d ∈ dependencies n' /\ may a (pane d) (observation d);
}.

Lemma finish_is_waiting st id node m r :
  links_ok st -> runs st !! id = Some node ->
  let '(st', dependents) := finish st id node m r in
  sent st' = sent st /\ next_id st' = next_id st /\
  forall x, is_waiting st' x = negb (bool_decide (x = id)) && is_waiting st x.
Proof.
  intros Hl Hid. pose proof (finish_observed st id node m r Hl Hid) as Ho.
  destruct (finish st id node m r) as [st' deps]. destruct (observed_frame _ _ _ _ _ Ho) as [Hi _ _ Hs].
  split; [done|]. split; [done|]. intros x. rewrite (observed_is_waiting _ _ _ _ _ _ Ho). unfold is_waiting, ended, set_field. cbn.
  case_bool_decide as Hx; cbn; [subst x; rewrite lookup_insert_eq; by apply bool_decide_eq_false; intros []|by rewrite lookup_insert_ne].
Qed.

Lemma finish_ending a exempt st id node m r earlier :
  registry_ok exempt st -> exempt = None \/ exempt = Some id -> settled st earlier -> acyclic st ->
  (forall x n, runs st !! x = Some n -> terminal n = None) -> runs st !! id = Some node ->
  (forall x n, live st x n -> x <> id -> owner n <> owner node) ->
  may a (owner node) (Last r) ->
  let '(st', dependents) := finish st id node m r in ending a id earlier st st' dependents.
Proof.
  intros Hok Hex Hst Ha Hlive Hid Hown Hmay.
  pose proof (finish_ok exempt st id node m r Hok ltac:(split; [done|by apply (Hlive id)]) Hex Hown) as Hok'.
  pose proof (finish_observed st id node m r (ok_links _ _ Hok) Hid) as Ho.
  pose proof (finish_is_waiting st id node m r (ok_links _ _ Hok) Hid) as Hwait.
  pose proof (fun x n => finish_unchanged st id node m r x n (ok_links _ _ Hok) Hid) as Hun.
  pose proof (fun x n => finish_shrinks st id node m r x n (ok_links _ _ Hok) Hid) as Hsh.
  destruct (finish st id node m r) as [st' deps]. destruct Hwait as (Hs & Hi & Hwait).
  assert (Hback : forall x n', runs st' !! x = Some n' -> exists n n0, runs st !! x = Some n /\
      n' = observe_matching (Last r) (affected id (owner node)) n0 /\
      n0 = if decide (x = id) then n <| waiter := None |> <| terminal := Some m |> else n).
  { intros x n' (n0 & Hn0 & ->)%(observed_lookup _ _ _ _ _ _ _ Ho). unfold ended, set_field in Hn0. cbn in Hn0.
    apply lookup_insert_Some in Hn0 as [[<- <-]|[Hx Hn0]].
    - exists node. eexists. rewrite decide_True by done. done.
    - exists n0. eexists. rewrite decide_False by done. done. }
  constructor; try done.
  - intros x n Hn Hw Hx. rewrite elem_of_app, elem_of_cons in Hx.
    destruct (Hsh x n) as [Hne _]; [by split; [|apply Hw]|]. apply (Hst x n); [apply Hun; tauto|done|tauto].
  - split; [|by intros x n ?%not_elem_of_empty]. intros x n (n0 & n1 & Hn0 & -> & ->)%Hback Ht. left.
    rewrite elem_of_app, elem_of_cons. destruct (decide (x = id)); [tauto|]. destruct Ht. by apply (Hlive x n0).
  - intros x Hc. apply (Ha x). eapply tc_mono; [|exact Hc]. intros y z (n' & d' & Hn & Hw & Hd & Hz).
    destruct (Hsh y n') as (_ & n & [Hn' Hl] & ->); [by split; [|apply Hw]|].
    apply elem_observe_matching in Hd as (d & Hd & ->). destruct (affected id (owner node) d); [done|].
    exists n, d. split; [done|]. split; [by split; [|apply Hw]|done].
  - intros x n' Hx. destruct (Hback x n' Hx) as (n & n0 & Hn & -> & ->). exists n. split; [done|]. split.
    + assert (Hf : follows a n (observe_matching (Last r) (affected id (owner node)) n)).
      { constructor; try done. unfold observe_matching. cbn. apply Forall2_fmap_r, Forall_Forall2_diag, Forall_forall.
        intros d Hd. unfold may_follow, compose. destruct (affected id (owner node) d) eqn:Haff; [|by split; [|left]].
        split; [done|]. right. by rewrite (affected_pane st x n d id node) by (done || apply (ok_links _ _ Hok)). }
      destruct (decide (x = id)); [|done]. by destruct Hf.
    + intros Hne Hd. pose proof (Hun x _ Hne Hd Hx) as Heq. rewrite Hn in Heq. by injection Heq.
  - intros x n' (n1 & d & Hn1 & Hd & Haff & _)%(observed_roots _ _ _ _ _ Ho) Hx.
    destruct (observed_lookup _ _ _ _ _ _ _ Ho Hx) as (n2 & Hn2 & ->). simplify_eq. exists (set_observation (Last r) d). split.
    { apply elem_observe_matching. exists d. by rewrite Haff. }
    destruct (Hback x _ Hx) as (n & n0 & Hn & Heq & ->). cbn.
    rewrite (affected_pane st x n d id node); [done|apply (ok_links _ _ Hok)|done| |done|done].
    unfold ended, set_field in Hn1. cbn in Hn1. apply lookup_insert_Some in Hn1 as [[<- <-]|[Hne Hn1]].
    + assert (n = node) as -> by congruence. exact Hd.
    + by assert (n = n1) as -> by congruence.
Qed.

Lemma told_app id l k : told id (l ++ k) = (told id l + told id k)%nat.
Proof. unfold told. by rewrite filter_app, length_app. Qed.

(** The message for a run's wrapper, if it still waits for one. *)
Definition word_to (node : RunNode) (m : RunResolutionMessage) : list (Z * RunResolutionMessage) :=
  match waiter node with Some to => [(to, m)] | None => [] end.

Lemma told_word st id node m x :
  registry_ok None st -> runs st !! id = Some node ->
  told x (word_to node m) = Nat.b2n (bool_decide (x = id) && is_waiting st id).
Proof.
  intros Hok Hn. unfold word_to, is_waiting. rewrite Hn. destruct (ok_waiter _ _ Hok id node Hn) as [Hw Hnw].
  destruct (decide (waiting node)) as [Hwait|Hwait].
  - rewrite Hw, (bool_decide_true (waiting node)) by done. unfold told. rewrite filter_cons. cbn.
    destruct (decide (id = x)) as [->|]; [by rewrite bool_decide_true|by rewrite bool_decide_false].
  - rewrite Hnw, (bool_decide_false (waiting node)) by done. by rewrite andb_false_r.
Qed.

Lemma is_waiting_spec st id : is_waiting st id = true <-> exists node, runs st !! id = Some node /\ waiting node.
Proof.
  unfold is_waiting. destruct (runs st !! id) as [node|]; [rewrite bool_decide_eq_true|]; naive_solver.
Qed.

Lemma ending_prepared a st base id earlier st' dependents before after :
  ending a id earlier base st' dependents ->
  (forall x n, runs base !! x = Some n -> exists n0, runs st !! x = Some n0 /\ follows a n0 n) ->
  (forall x n, x ∈ earlier -> runs base !! x = Some n -> exists d, d ∈ dependencies n /\ may a (pane d) (observation d)) ->
  (forall x, is_waiting base x = is_waiting st x) ->
  next_id base = next_id st -> sent base = sent st ->
  (forall x, x ∈ before -> says a x.1 x.2) -> (forall x, x ∈ after -> resolution x.2 = RunResolution.Failed) ->
  (forall x, told x (before ++ after) = Nat.b2n (bool_decide (x = id) && is_waiting st id)) ->
  prepared a st (st' <| sent := sent st' ++ before |>) (earlier ++ id :: dependents) None before after.
Proof.
  intros He Hnode Hearlier Hwait Hi Hs Hbefore Hafter Htold. constructor; try done.
  - destruct (ending_ok _ _ _ _ _ _ He) as [[] ? ? ? ? ? ? ?]. constructor; [constructor|..]; done.
  - apply (ending_settled _ _ _ _ _ _ He).
  - apply (ending_ends _ _ _ _ _ _ He).
  - left. apply (ending_acyclic _ _ _ _ _ _ He).
  - cbn. by rewrite (ending_sent _ _ _ _ _ _ He), Hs.
  - intros x _. rewrite Htold. change (is_waiting (st' <| sent := _ |>) x) with (is_waiting st' x).
    rewrite (ending_waiting _ _ _ _ _ _ He), Hwait. case_bool_decide as Hx; [subst x|]; cbn; [|done].
    by destruct (is_waiting st id).
  - intros x n' Hx _. destruct (ending_node _ _ _ _ _ _ He x n' Hx) as (n & Hn & Hf & _).
    destruct (Hnode x n Hn) as (n0 & Hn0 & Hf0). exists n0. split; [done|]. by eapply follows_trans.
  - cbn. by rewrite (ending_next_id _ _ _ _ _ _ He), Hi.
  - intros x n' _ Hx Hn' Hw. change (runs st' !! x = Some n') in Hn'.
    destruct (decide (x ∈ dependents)) as [Hd|Hd]; [by apply (ending_dependents _ _ _ _ _ _ He x n')|].
    assert (Hwx : is_waiting st' x = true) by (apply is_waiting_spec; eauto).
    rewrite (ending_waiting _ _ _ _ _ _ He) in Hwx. apply andb_true_iff in Hwx as [Hne%negb_true_iff%bool_decide_eq_false _].
    destruct (ending_node _ _ _ _ _ _ He x n' Hn') as (n & Hn & _ & Heq). rewrite (Heq Hne Hd).
    apply (Hearlier x n); [|done]. rewrite elem_of_app, elem_of_cons in Hx. tauto.
Qed.

(** ** The calls that end runs *)

Lemma sent_nil st : st <| sent := sent st ++ [] |> = st.
Proof. destruct st. unfold set_field. cbn. by rewrite app_nil_r. Qed.

Lemma idle_prepared a st roots :
  stable st -> (forall id, id ∈ roots -> runs st !! id = None) -> prepared a st st roots None [] [].
Proof.
  intros Hst Hroots. constructor; try done; try by intros ? ?%elem_of_nil.
  - apply Hst.
  - intros id node Hn Hw _. by apply (stable_settled _ Hst id node Hn Hw), not_elem_of_nil.
  - apply live_ends, Hst.
  - left. apply Hst.
  - by rewrite app_nil_r.
  - intros id node Hn _. exists node. split; [done|]. apply follows_refl.
  - intros id node _ Hid Hn. rewrite Hroots in Hn; done.
Qed.

Lemma idle_resolves a st roots :
  stable st -> (forall id, id ∈ roots -> runs st !! id = None) ->
  exists st', resolve_locked st roots = Ok st' /\ stable st' /\ evolves a st st'.
Proof.
  intros Hst Hroots. destruct (prepared_resolves a st st roots None [] []) as (st' & Hr & Hs & He); [done|by apply idle_prepared|].
  rewrite sent_nil in He. eauto.
Qed.

Lemma stable_finish a st id node m r :
  stable st -> runs st !! id = Some node -> may a (owner node) (Last r) ->
  let '(st', dependents) := finish st id node m r in ending a id [] st st' dependents.
Proof.
  intros Hst Hn Hmay. apply finish_ending with (exempt := None); [apply Hst|by left|apply Hst|apply Hst|apply Hst|done| |done].
  intros x n Hx Hne Ho. apply Hne. eapply owners_differ; [apply Hst|exact Hx|split; [exact Hn|by apply (stable_live _ Hst id)]|done..].
Qed.

Lemma send_to_word node m st : send_to (waiter node) m st = st <| sent := sent st ++ word_to node m |>.
Proof. unfold send_to, word_to. destruct (waiter node); [done|by rewrite sent_nil]. Qed.

Lemma complete_evolves a id exit_code st :
  stable st ->
  (forall node, runs st !! id = Some node ->
     may a (owner node) (Last (last_result_from_exit_code exit_code)) /\ says a id (completion_message exit_code)) ->
  exists st', complete id exit_code st = Ok st' /\ stable st' /\ evolves a st st'.
Proof.
  intros Hst Hallow. unfold complete, complete_locked. destruct (runs st !! id) as [node|] eqn:Hn; cycle 1.
  { apply idle_resolves; [done|]. by intros x ->%list_elem_of_singleton. }
  rewrite (stable_live _ Hst id node Hn). destruct (Hallow node eq_refl) as [Hmay Hsay].
  pose proof (stable_finish a st id node (completion_message exit_code) (last_result_from_exit_code exit_code) Hst Hn Hmay) as He.
  destruct (finish _ _ _ _ _) as [st1 deps]. rewrite send_to_word.
  destruct (prepared_resolves a st (st1 <| sent := sent st1 ++ word_to node (completion_message exit_code) |>) (id :: deps) None
    (word_to node (completion_message exit_code)) []) as (st' & Hr & Hs & Hev); [done| |rewrite sent_nil in Hev; eauto].
  apply (ending_prepared a st st id [] st1 deps); try done.
  - intros x n Hx. exists n. split; [done|]. apply follows_refl.
  - by intros x n ?%elem_of_nil.
  - intros x Hx. unfold word_to in Hx. destruct (ok_waiter _ _ (stable_ok _ Hst) id node Hn) as [Hw Hnw].
    destruct (decide (waiting node)) as [Hwait|Hwait]; [rewrite Hw in Hx by done|rewrite Hnw in Hx by done; by apply elem_of_nil in Hx].
    by apply list_elem_of_singleton in Hx as ->.
  - by intros x ?%elem_of_nil.
  - intros x. rewrite app_nil_r. apply told_word; [apply Hst|done].
Qed.

Lemma word_failed node reason x : x ∈ word_to node (failed_message reason) -> resolution x.2 = RunResolution.Failed.
Proof. unfold word_to. destruct (waiter node); [by intros ->%list_elem_of_singleton|by intros ?%elem_of_nil]. Qed.

Lemma send_failure_word node m deps st :
  send_failure (Some (waiter node, m, deps)) st = st <| sent := sent st ++ word_to node m |>.
Proof. unfold send_failure, word_to. destruct (waiter node); [done|by rewrite sent_nil]. Qed.

Lemma fail_evolves a id reason st :
  stable st -> (forall node, runs st !! id = Some node -> may a (owner node) (Last Unavailable)) ->
  exists st', fail id reason st = Ok st' /\ stable st' /\ evolves a st st'.
Proof.
  intros Hst Hallow. unfold fail, fail_locked. destruct (runs st !! id) as [node|] eqn:Hn; cycle 1.
  { destruct (idle_resolves a st []) as (st' & Hr & Hs & He); [done|by intros ? ?%elem_of_nil|]. rewrite Hr. cbn. eauto. }
  rewrite (stable_live _ Hst id node Hn).
  pose proof (stable_finish a st id node (failed_message reason) Unavailable Hst Hn (Hallow node eq_refl)) as He.
  destruct (finish _ _ _ _ _) as [st1 deps]. cbn [failure_dependents].
  destruct (prepared_resolves a st st1 (id :: deps) None [] (word_to node (failed_message reason))) as (st' & Hr & Hs & Hev); [done| |].
  - rewrite <- (sent_nil st1). apply (ending_prepared a st st id [] st1 deps); try done.
    + intros x n Hx. exists n. split; [done|]. apply follows_refl.
    + by intros x n ?%elem_of_nil.
    + by intros x ?%elem_of_nil.
    + apply word_failed.
    + intros x. apply told_word; [apply Hst|done].
  - rewrite Hr. cbn [mbind result_bind]. rewrite send_failure_word. eexists. split; [done|]. split; [by apply sent_irrelevant|done].
Qed.

Lemma fail_all_evolves a reason ids st :
  stable st -> (forall p, may a p (Last Unavailable)) ->
  exists st', fail_all reason ids st = Ok st' /\ stable st' /\ evolves a st st'.
Proof.
  intros Hst Hallow. unfold fail_all. revert st Hst. induction ids as [|id ids IH]; intros st Hst; cbn [foldl]; [by eauto using evolves_refl|].
  destruct (fail_evolves a id reason st) as (st1 & Hf & Hs & He); [done..|]. cbn [mbind result_bind]. rewrite Hf.
  destruct (IH st1 Hs) as (st2 & Hf2 & Hs2 & He2). exists st2. split; [done|]. split; [done|]. by eapply evolves_trans.
Qed.

(** ** The calls that report on a pane *)

Lemma report_resolves a st p ps o pred :
  stable st -> same_pane st p ps -> (forall r, o <> ActiveManaged r) -> may a p o ->
  (o = WaitingForCommand \/ o = ActiveShell -> forall o', pred o' = true -> o' = WaitingForCommand \/ o' = ActiveShell) ->
  exists st', (let '(st0, roots) := replace_pane_observations_with (set_pane p ps st) p o pred in resolve_locked st0 roots) = Ok st' /\
    stable st' /\ evolves a st st'.
Proof.
  intros Hst Hsame Hr Hmay Hpend.
  pose proof (replace_pane_observed (set_pane p ps st) p o pred) as Ho.
  destruct (replace_pane_observations_with _ _ _ _) as [st0 roots].
  destruct (prepared_resolves a st st0 roots None [] []) as (st' & Hres & Hs & He); [done| |rewrite sent_nil in He; eauto].
  eapply report_prepared; [done|done| |done..]. apply Ho; [|by apply observable_plain].
  apply ok_links with None, set_pane_ok; [apply Hst|done].
Qed.

Lemma same_pane_refl st p : same_pane st p (pane_entry p st).
Proof. split; [done|by right]. Qed.
#[local] Hint Resolve same_pane_refl : core.

(** A record that differs from the pane's in nothing the invariant reads. *)
Lemma same_pane_active st p ps :
  active ps = active (pane_entry p st) -> available ps = available (pane_entry p st) -> same_pane st p ps.
Proof. intros Ha Hv. split; [by rewrite Ha|by right]. Qed.

(** A pane without a managed run may change what runs in it. *)
Lemma same_pane_unmanaged st p ps :
  (forall r, active (pane_entry p st) <> Some (Managed r)) -> (forall r, active ps <> Some (Managed r)) ->
  available ps = true \/ available ps = available (pane_entry p st) -> same_pane st p ps.
Proof. intros Ha Ha' Hv. split; [|done]. intros r. by split; intros ?; [destruct (Ha' r)|destruct (Ha r)]. Qed.

Lemma pane_set a p ps st :
  stable st -> same_pane st p ps ->
  exists st', (Ok (set_pane p ps st) : result stuck RegistryState) = Ok st' /\ stable st' /\ evolves a st st'.
Proof. intros Hst Hsame. eexists. split; [done|]. by apply pane_evolves. Qed.

Lemma authenticated_marker_evolves a p st :
  stable st -> stable (authenticated_marker p st) /\ evolves a st (authenticated_marker p st).
Proof. intros Hst. apply pane_evolves; [done|]. destruct (available (pane_entry p st)) eqn:?; [|done]. by apply same_pane_active. Qed.

Lemma unauthenticated_marker_evolves a p st :
  stable st -> may a p Unauthenticated ->
  exists st', unauthenticated_marker p st = Ok st' /\ stable st' /\ evolves a st st'.
Proof.
  intros Hst Hmay. unfold unauthenticated_marker. destruct (negb _ || _); [by apply pane_set|].
  apply report_resolves; try done; [by apply same_pane_active|by intros [|]].
Qed.

Lemma tracking_ready_evolves a p st :
  stable st -> may a p WaitingForCommand ->
  exists st', tracking_ready_marker p st = Ok st' /\ stable st' /\ evolves a st st'.
Proof.
  intros Hst Hmay. unfold tracking_ready_marker. destruct (available (pane_entry p st)) eqn:Hav; [|by apply pane_set]. cbn [negb].
  match goal with |- context [set_pane p ?x st] => set (ps := x) end.
  assert (Hsame : same_pane st p ps).
  { unfold ps. destruct (negb _); [|by apply same_pane_active; cbn; rewrite ?Hav].
    cbn [active set_field]. destruct (active (pane_entry p st)) as [[]|] eqn:Ha;
      try (apply same_pane_active; cbn; by rewrite ?Ha, ?Hav).
    apply same_pane_unmanaged; [by rewrite Ha|done|by left]. }
  destruct (negb _); [|by apply pane_set]. apply report_resolves; try done. intros _ []; auto; done.
Qed.

Lemma pane_reopened_evolves a p st : stable st -> stable (pane_reopened p st) /\ evolves a st (pane_reopened p st).
Proof.
  intros Hst. apply pane_evolves; [done|]. destruct (available (pane_entry p st)) eqn:Hav; [done|].
  apply same_pane_unmanaged; [|done|by left]. intros r Hr.
  apply (ok_closed _ _ (stable_ok _ Hst) p (pane_entry p st) r); [by eapply pane_entry_managed|done..].
Qed.

Lemma command_started_evolves a p command st :
  stable st -> may a p ActiveShell ->
  exists st', command_started p command st = Ok st' /\ stable st' /\ evolves a st st'.
Proof.
  intros Hst Hmay. unfold command_started. destruct (available (pane_entry p st)) eqn:Hav; [|by apply pane_set]. cbn [negb].
  change (active (pane_entry p st <| available := true |>)) with (active (pane_entry p st)).
  assert (Hset : forall ps, same_pane st p ps ->
    exists st', resolve_locked (set_pane p ps st) [] = Ok st' /\ stable st' /\ evolves a st st').
  { intros ps Hs. destruct (pane_evolves a st p ps Hst Hs) as [Hst1 He1].
    destruct (idle_resolves a (set_pane p ps st) []) as (st' & Hr & Hs' & He); [done|by intros ? ?%elem_of_nil|].
    exists st'. split; [done|]. split; [done|]. by eapply evolves_trans. }
  assert (Hshell : (forall r, active (pane_entry p st) <> Some (Managed r)) ->
    exists st', (let '(st, roots) :=
        if is_internal_startup_command command
        then (set_pane p (pane_entry p st <| available := true |> <| active := Some Ignored |>) st, [])
        else replace_waiting_observations (set_pane p (pane_entry p st <| available := true |>
               <| managed_shell_result_pending := false |> <| active := Some (Shell command) |>) st) p ActiveShell
      in resolve_locked st roots) = Ok st' /\ stable st' /\ evolves a st st').
  { intros Hno. destruct (is_internal_startup_command command); [apply Hset|apply report_resolves; try done].
    - apply same_pane_unmanaged; [done|done|by left].
    - apply same_pane_unmanaged; [done|done|by left].
    - intros _ []; auto; done. }
  destruct (active (pane_entry p st)) as [[c|id|]|] eqn:Ha; try (apply Hshell; by rewrite ?Ha).
  apply Hset. apply same_pane_active; cbn; by rewrite ?Ha, ?Hav.
Qed.

Lemma command_finished_evolves a p exit_code st :
  stable st -> may a p (Last (last_result_from_exit_code exit_code)) ->
  exists st', command_finished p exit_code st = Ok st' /\ stable st' /\ evolves a st st'.
Proof.
  intros Hst Hmay. unfold command_finished. destruct (available (pane_entry p st)) eqn:Hav; [|by apply pane_set]. cbn [negb].
  change (active (pane_entry p st <| available := true |> <| tracking_ready := true |>)) with (active (pane_entry p st)).
  set (ps := pane_entry p st <| available := true |> <| tracking_ready := true |>).
  assert (Hnone : (forall r, active (pane_entry p st) <> Some (Managed r)) -> same_pane st p (ps <| active := None |>)).
  { intros Hno. apply same_pane_unmanaged; [done|done|by left]. }
  assert (Hreport : (forall r, active (pane_entry p st) <> Some (Managed r)) ->
    exists st', (if managed_shell_result_pending ps then Ok (set_pane p (ps <| active := None |>) st)
      else pane_state ← expect (panes (set_pane p (ps <| active := None |>) st) !! p);
           let '(st, roots) := replace_shell_observations
             (set_pane p (pane_state <| last_result := Some (last_result_from_exit_code exit_code) |>)
                (set_pane p (ps <| active := None |>) st)) p (Last (last_result_from_exit_code exit_code)) in
           resolve_locked st roots) = Ok st' /\ stable st' /\ evolves a st st').
  { intros Hno. destruct (managed_shell_result_pending ps); [apply pane_set; auto|].
    rewrite set_pane_lookup, decide_True by done. cbn [expect mbind result_bind].
    destruct (pane_evolves a st p (ps <| active := None |>) Hst (Hnone Hno)) as [Hst1 He1].
    destruct (report_resolves a (set_pane p (ps <| active := None |>) st) p
      (ps <| active := None |> <| last_result := Some (last_result_from_exit_code exit_code) |>)
      (Last (last_result_from_exit_code exit_code)) (fun o => match o with ActiveShell => true | _ => false end))
      as (st' & Hr & Hs & He); try done; [|by intros [|]|exists st'; split; [done|]; split; [done|by eapply evolves_trans]].
    apply same_pane_active; unfold pane_entry; by rewrite set_pane_lookup, decide_True. }
  destruct (active (pane_entry p st)) as [[c|id|]|] eqn:Ha; try (apply Hreport; by rewrite ?Ha).
  - apply pane_set; [done|]. apply same_pane_active; unfold ps; cbn; by rewrite ?Hav.
  - destruct (managed_shell_result_pending ps); apply pane_set; auto; apply Hnone; by rewrite Ha.
Qed.

(** ** Closing a pane *)

Definition closed_state (p : PaneState) : PaneState :=
  p <| available := false |> <| tracking_ready := false |> <| active := None |> <| managed_shell_result_pending := false |>.

Definition unsettled_observation (o : DependencyObservation) : bool :=
  match o with WaitingForCommand | ActiveShell | ActiveManaged _ => true | _ => false end.

Lemma close_ok st p st0 roots exempt :
  registry_ok None st -> observed Closed (on_pane p unsettled_observation) (set_pane p (closed_state (pane_entry p st)) st) st0 roots ->
  (forall id, active (pane_entry p st) = Some (Managed id) -> exempt = Some id) ->
  registry_ok exempt st0.
Proof.
  intros Hok Ho Hex. destruct (observed_frame _ _ _ _ _ Ho) as [Hi Hp _ _].
  assert (Hlive : forall id node, live st id node -> live st0 id (observe_matching Closed (on_pane p unsettled_observation) node)).
  { intros id node Hl. by eapply observed_live_to. }
  assert (Hpanes : forall q, q <> p -> panes st0 !! q = panes st !! q) by (intros q Hq; by rewrite Hp, set_pane_lookup, decide_False).
  assert (Hclosed : panes st0 !! p = Some (closed_state (pane_entry p st))) by (by rewrite Hp, set_pane_lookup, decide_True).
  constructor.
  - apply (observed_links _ _ _ _ _ Ho).
  - intros id node (n & Hn & _)%(observed_lookup _ _ _ _ _ _ _ Ho). rewrite Hi. apply (ok_ids _ _ Hok id n Hn).
  - intros id node d r (n & Hn & ->)%(observed_lookup _ _ _ _ _ _ _ Ho) (d0 & Hd0 & ->)%elem_observe_matching Hr.
    destruct (on_pane p unsettled_observation d0); [done|]. destruct (ok_managed _ _ Hok id n d0 r Hn Hd0 Hr) as [n' Hn']. eauto.
  - intros id node (n & Hn & ->)%(observed_live _ _ _ _ _ _ _ Ho) He.
    destruct (ok_owner _ _ Hok id n Hn) as (ps & Hps & Ha); [done|]. exists ps. split; [|done]. cbn.
    rewrite Hpanes; [done|]. intros Heq. rewrite Heq in Hps. destruct He. apply Hex. by rewrite (pane_entry_some _ _ _ Hps).
  - intros q ps id Hq Ha. destruct (decide (q = p)) as [->|Hne]; [rewrite Hclosed in Hq; by injection Hq as <-|].
    rewrite Hpanes in Hq by done. destruct (ok_active _ _ Hok q ps id Hq Ha) as (n & Hn & Hown). eauto.
  - intros id node (n & Hn & ->)%(observed_lookup _ _ _ _ _ _ _ Ho). apply (ok_waiter _ _ Hok id n Hn).
  - intros id node d (n & Hn & ->)%(observed_lookup _ _ _ _ _ _ _ Ho) (d0 & Hd0 & ->)%elem_observe_matching.
    destruct (on_pane p unsettled_observation d0) eqn:Hpd; [by intros [|]|]. intros Hr.
    assert (pane d0 <> p). { intros <-. unfold on_pane in Hpd. rewrite bool_decide_true in Hpd by done. by destruct Hr as [Hr|Hr]; rewrite Hr in Hpd. }
    rewrite Hpanes by done. by apply (ok_pending _ _ Hok id n d0).
  - intros q ps r Hq. destruct (decide (q = p)) as [->|Hne]; [rewrite Hclosed in Hq; by injection Hq as <-|].
    rewrite Hpanes in Hq by done. by apply (ok_closed _ _ Hok q).
Qed.

Lemma set_pane_twice p ps ps' st : set_pane p ps (set_pane p ps' st) = set_pane p ps st.
Proof. unfold set_pane, set_field. cbn. by rewrite insert_insert_eq. Qed.

Lemma pane_closed_evolves a p st :
  stable st -> may a p Closed -> may a p (Last Unavailable) ->
  exists st', pane_closed p st = Ok st' /\ stable st' /\ evolves a st st'.
Proof.
  intros Hst Hmay Hmay'. unfold pane_closed. rewrite set_pane_lookup, decide_True by done. cbn [expect mbind result_bind].
  rewrite set_pane_twice. fold (closed_state (pane_entry p st)).
  set (st_p := set_pane p (closed_state (pane_entry p st)) st).
  pose proof (replace_pane_observed st_p p Closed unsettled_observation) as Ho. unfold replace_pane_observations.
  change (fun current => match current with WaitingForCommand | ActiveShell | ActiveManaged _ => true | _ => false end)
    with unsettled_observation. destruct (replace_pane_observations_with st_p p Closed unsettled_observation) as [st0 roots].
  specialize (Ho ltac:(apply links_ok_shape with st; [done..|apply Hst]) ltac:(by apply observable_plain)).
  assert (Hplain : (forall r, active (pane_entry p st) <> Some (Managed r)) ->
    exists st', (st ← resolve_locked st0 roots; Ok (send_failure None st)) = Ok st' /\ stable st' /\ evolves a st st').
  { intros Hno. destruct (prepared_resolves a st st0 roots None [] []) as (st' & Hr & Hs & He); [done| |].
    - eapply observed_prepared; [done| |exact Ho|done..]. eapply close_ok; [apply Hst|exact Ho|]. intros id Hid. by destruct (Hno id).
    - rewrite sent_nil in He. rewrite Hr. cbn. eauto. }
  destruct (active (pane_entry p st)) as [[c|id|]|] eqn:Ha; try (apply Hplain; by rewrite ?Ha). clear Hplain.
  destruct (ok_active _ _ (stable_ok _ Hst) p (pane_entry p st) id) as (node & Hl & Hown); [by eapply pane_entry_managed|done|].
  pose proof (observed_live_to _ _ _ _ _ _ _ Ho Hl) as [Hn0 Ht0]. unfold fail_locked. rewrite Hn0, Ht0.
  set (node0 := observe_matching Closed (on_pane p unsettled_observation) node) in *.
  pose proof (finish_ending a (Some id) st0 id node0 (failed_message "the dependency pane closed") Unavailable roots) as He.
  destruct (finish _ _ _ _ _) as [st1 deps]. cbn [failure_dependents].
  assert (Hend : ending a id roots st0 st1 deps).
  { apply He; [|by right| | | |done| |].
    - eapply close_ok; [apply Hst|exact Ho|]. intros id' Hid'. congruence.
    - apply (observed_settled Closed (on_pane p unsettled_observation) st_p st0 roots []); [apply (stable_settled _ Hst)|done].
    - eapply observed_acyclic; [| |exact Ho]; [apply (stable_acyclic _ Hst)|done].
    - intros x n (n1 & Hn1 & ->)%(observed_lookup _ _ _ _ _ _ _ Ho). apply (stable_live _ Hst x n1 Hn1).
    - intros x n (n1 & Hn1 & ->)%(observed_live _ _ _ _ _ _ _ Ho) Hne Heq. apply Hne.
      by apply (owners_differ None st x n1 id node (stable_ok _ Hst)).
    - cbn. by rewrite Hown. }
  destruct (prepared_resolves a st st1 (roots ++ id :: deps) None [] (word_to node0 (failed_message "the dependency pane closed")))
    as (st' & Hr & Hs & Hev); [done| |].
  - rewrite <- (sent_nil st1). destruct (observed_frame _ _ _ _ _ Ho) as [Hi _ _ Hse]. apply (ending_prepared a st st0); try done.
    + intros x n. by apply (observed_follows _ _ _ _ _ _ _ _ _ Ho).
    + intros x n. by apply (observed_roots_may _ _ _ _ _ _ _ _ _ Ho).
    + intros x. by rewrite (observed_is_waiting _ _ _ _ _ x Ho).
    + by intros x ?%elem_of_nil.
    + apply word_failed.
    + intros x. change (word_to node0) with (word_to node). apply told_word; [apply Hst|apply Hl].
  - rewrite Hr. cbn [mbind result_bind]. rewrite send_failure_word. eexists. split; [done|]. split; [by apply sent_irrelevant|done].
Qed.

(** ** Registration *)

Lemma ensure_bind {E A} b (e : E) (k : result E A) a :
  (_ ← ensure b e; k) = Ok a -> b = true /\ k = Ok a.
Proof. by destruct b. Qed.

Lemma check_dependencies_ok owner unique ds u :
  check_dependencies owner unique ds = Ok u -> NoDup ds /\ (forall d, d ∈ ds -> d ∉ unique).
Proof.
  revert unique. induction ds as [|d ds IH]; intros unique; cbn [check_dependencies].
  { intros _. split; [apply NoDup_nil_2|]. by intros d ?%elem_of_nil. }
  intros [_ [_ [Hun%bool_decide_eq_true (Hnd & Hin)%IH]%ensure_bind]%ensure_bind]%ensure_bind. split.
  - constructor; [|done]. intros Hd. apply (Hin d Hd). left.
  - intros d' [->|Hd']%elem_of_cons; [done|]. intros Hu. apply (Hin d' Hd'). by right.
Qed.

Lemma check_request_ok owner ds command u : check_request owner ds command = Ok u -> ds <> [] /\ NoDup ds.
Proof.
  unfold check_request. intros [_ [_ [Hds%bool_decide_eq_true [_ [_ H]%ensure_bind]%ensure_bind]%ensure_bind]%ensure_bind]%ensure_bind.
  split; [done|]. by apply check_dependencies_ok in H as [? _].
Qed.

Lemma check_request_no_panic owner ds command :
  match check_request owner ds command with Ok _ => True | Err (Refusal _) => True | _ => False end.
Proof.
  unfold check_request, ensure. repeat (match goal with |- context [if ?b then _ else _] => destruct b end; cbn; try done).
  generalize (@nil RunPaneIdentity) as unique. induction ds as [|d ds IH]; intros unique; [done|]. cbn. unfold ensure.
  repeat (match goal with |- context [if ?b then _ else _] => destruct b end; cbn; try done). apply IH.
Qed.

Lemma following_id_next id : 0 <= id < u64_max -> following_id id = id + 1.
Proof. intros Hid. unfold following_id, wrap, u64_max in *. rewrite Z.mod_small by lia. lia. Qed.

(** What a new registration finds on its dependencies' panes. *)
Lemma snapshot_spec st p :
  registry_ok None st ->
  match snapshot_dependency st p with
  | ActiveManaged r => exists node, live st r node /\ owner node = p
  | WaitingForCommand | ActiveShell =>
      exists ps, panes st !! p = Some ps /\ available ps = true /\ forall r, active ps <> Some (Managed r)
  | Last _ => False
  | _ => True
  end.
Proof.
  intros Hok. unfold snapshot_dependency. destruct (panes st !! p) as [ps|] eqn:Hp; [|done].
  destruct (available ps) eqn:Hav; cbn [negb]; [|done].
  destruct (active ps) as [[c|id|]|] eqn:Ha; try (destruct (unauthenticated_reports ps); [done|]; exists ps; by rewrite Ha).
  destruct (ok_active _ _ Hok p ps id Hp Ha) as (node & Hl & Ho). rewrite (proj1 Hl). eauto.
Qed.

Definition new_node (owner : RunPaneIdentity) (ds : list RunPaneIdentity) (allow : bool) (st : RegistryState) : RunNode :=
  mkNode owner ((fun p => mkDependency p (snapshot_dependency st p)) <$> ds) allow false None (Some (next_id st + 1)).

(** The state a registration resolves from, before it rebinds what others
    observe of its owner. *)
Definition opened (owner : RunPaneIdentity) (ds : list RunPaneIdentity) (allow : bool) (pending : bool) (st : RegistryState) : RegistryState :=
  let st1 := link_dependencies (next_id st + 1) (dependencies (new_node owner ds allow st)) (st <| next_id := next_id st + 1 |>) in
  set_pane owner (pane_entry owner st <| active := Some (Managed (next_id st + 1)) |> <| managed_shell_result_pending := pending |>)
    (st1 <| runs := <[next_id st + 1 := new_node owner ds allow st]> (runs st1) |>).

Lemma fresh_id st : registry_ok None st -> runs st !! (next_id st + 1) = None.
Proof. intros Hok. destruct (runs st !! _) as [n|] eqn:Hn; [|done]. apply (ok_ids _ _ Hok) in Hn. lia. Qed.

Lemma opened_frame owner ds allow pending st :
  let st' := opened owner ds allow pending st in
  next_id st' = next_id st + 1 /\ sent st' = sent st /\ runs st' = <[next_id st + 1 := new_node owner ds allow st]> (runs st) /\
  forall p, panes st' !! p = if decide (p = owner)
    then Some (pane_entry owner st <| active := Some (Managed (next_id st + 1)) |> <| managed_shell_result_pending := pending |>)
    else panes st !! p.
Proof.
  destruct (link_dependencies_spec (next_id st + 1) (dependencies (new_node owner ds allow st)) (st <| next_id := next_id st + 1 |>))
    as ((Hi & Hp & Hr & Hs) & _).
  unfold opened. split; [exact Hi|]. split; [exact Hs|]. split; [exact (f_equal _ Hr)|]. intros p. rewrite set_pane_lookup.
  destruct (decide (p = owner)); [done|].
  exact (f_equal (fun m => m !! p) Hp).
Qed.

Lemma opened_links_ok owner ds allow pending st :
  registry_ok None st -> NoDup ds -> links_ok (opened owner ds allow pending st).
Proof.
  intros Hok Hnd. unfold opened. apply links_ok_shape with
    (link_dependencies (next_id st + 1) (dependencies (new_node owner ds allow st)) (st <| next_id := next_id st + 1 |>)
       <| runs := <[next_id st + 1 := new_node owner ds allow st]> (runs (st <| next_id := next_id st + 1 |>)) |>);
    [|done..|].
  { intros x. destruct (link_dependencies_spec (next_id st + 1) (dependencies (new_node owner ds allow st))
      (st <| next_id := next_id st + 1 |>)) as ((_ & _ & Hr & _) & _).
    exact (f_equal (fun m => shape <$> (<[next_id st + 1 := new_node owner ds allow st]> m !! x)) Hr). }
  apply (insert_run_links_ok (st <| next_id := next_id st + 1 |>) (next_id st + 1) (new_node owner ds allow st)).
  - apply links_ok_shape with st; [done..|apply Hok].
  - exact (fresh_id st Hok).
  - cbn. rewrite <- list_fmap_compose. cbn. rewrite list_fmap_id. done.
  - intros d (p & -> & _)%list_elem_of_fmap r Hr. cbn in *. pose proof (snapshot_spec st p Hok) as Hs. rewrite Hr in Hs.
    destruct Hs as (n & [Hn _] & Ho). eauto.
Qed.

Definition pending_command (o : DependencyObservation) : bool :=
  match o with WaitingForCommand | ActiveShell => true | _ => false end.

Section Opening.
Context (st : RegistryState) (owner : RunPaneIdentity) (ds : list RunPaneIdentity) (allow pending : bool).
Context (st0 : RegistryState) (roots : list Z).
Notation id := (next_id st + 1).
Notation rebind := (observe_matching (ActiveManaged id) (on_pane owner pending_command)).
Hypothesis Hstable : stable st.
Hypothesis Hid : 0 <= next_id st.
Hypothesis Hds : NoDup ds.
Hypothesis Havailable : available (pane_entry owner st) = true.
Hypothesis Hidle : forall r, active (pane_entry owner st) <> Some (Managed r).
Hypothesis Hobserved :
  observed (ActiveManaged id) (on_pane owner pending_command) (opened owner ds allow pending st) st0 roots.

Lemma opened_lookup x n :
  runs st0 !! x = Some n ->
  (x = id /\ n = rebind (new_node owner ds allow st)) \/ (x <> id /\ exists n0, runs st !! x = Some n0 /\ n = rebind n0).
Proof.
  intros (n0 & Hn & ->)%(observed_lookup _ _ _ _ _ _ _ Hobserved).
  destruct (opened_frame owner ds allow pending st) as (_ & _ & Hr & _). rewrite Hr in Hn.
  apply lookup_insert_Some in Hn as [[<- <-]|[Hne Hn]]; [by left|right]. split; [done|eauto].
Qed.

Lemma opened_old x n : runs st !! x = Some n -> runs st0 !! x = Some (rebind n).
Proof.
  intros Hn. rewrite (observed_runs _ _ _ _ _ Hobserved).
  destruct (opened_frame owner ds allow pending st) as (_ & _ & Hr & _). rewrite Hr, lookup_insert_ne; [by rewrite Hn|].
  intros <-. rewrite (fresh_id st (stable_ok _ Hstable)) in Hn. done.
Qed.

Lemma opened_new : runs st0 !! id = Some (rebind (new_node owner ds allow st)).
Proof.
  rewrite (observed_runs _ _ _ _ _ Hobserved).
  destruct (opened_frame owner ds allow pending st) as (_ & _ & Hr & _). by rewrite Hr, lookup_insert_eq.
Qed.

Lemma opened_panes p :
  panes st0 !! p = if decide (p = owner)
    then Some (pane_entry owner st <| active := Some (Managed id) |> <| managed_shell_result_pending := pending |>)
    else panes st !! p.
Proof.
  destruct (observed_frame _ _ _ _ _ Hobserved) as [_ Hp _ _]. rewrite Hp.
  destruct (opened_frame owner ds allow pending st) as (_ & _ & _ & Hp'). apply Hp'.
Qed.

Lemma opened_next_id : next_id st0 = id /\ sent st0 = sent st.
Proof.
  destruct (observed_frame _ _ _ _ _ Hobserved) as [Hi _ _ Hs]. rewrite Hi, Hs.
  destruct (opened_frame owner ds allow pending st) as (Hi' & Hs' & _). done.
Qed.

Lemma opened_live_old x n : live st x n -> live st0 x (rebind n).
Proof. intros [Hn Ht]. split; [by apply opened_old|done]. Qed.

Lemma opened_live x n : live st0 x n ->
  (x = id /\ n = rebind (new_node owner ds allow st)) \/ (x <> id /\ exists n0, live st x n0 /\ n = rebind n0).
Proof. intros [[?|(Hne & n0 & Hn & ->)]%opened_lookup Ht]; [by left|right]. split; [done|]. by exists n0. Qed.

Lemma not_owned x n : live st x n -> RunCommand.owner n <> owner.
Proof.
  intros Hl Ho. destruct (ok_owner _ _ (stable_ok _ Hstable) x n Hl) as (ps & Hp & Ha); [done|]. rewrite Ho in Hp.
  apply (Hidle x). by rewrite (pane_entry_some _ _ _ Hp).
Qed.

Lemma opened_ok : registry_ok None st0.
Proof.
  pose proof (stable_ok _ Hstable) as Hok. destruct opened_next_id as [Hi _].
  assert (Hnew : forall d, d ∈ dependencies (new_node owner ds allow st) -> observation d = snapshot_dependency st (pane d)).
  { intros d (p & -> & _)%list_elem_of_fmap. done. }
  constructor.
  - apply (observed_links _ _ _ _ _ Hobserved).
  - intros x n Hx. rewrite Hi. destruct (opened_lookup x n Hx) as [[-> _]|(_ & n0 & Hn & _)].
    + lia.
    + apply (ok_ids _ _ Hok) in Hn. lia.
  - intros x n d r Hx Hd Hr. assert (Hfrom : (exists n', live st r n') \/ r = id).
    { destruct (opened_lookup x n Hx) as [[-> ->]|(_ & n0 & Hn & ->)]; apply elem_observe_matching in Hd as (d0 & Hd0 & ->);
        (destruct (on_pane owner pending_command d0); [injection Hr as <-; by right|left]).
      - rewrite (Hnew d0 Hd0) in Hr. pose proof (snapshot_spec st (pane d0) Hok) as Hs. rewrite Hr in Hs. destruct Hs as (n' & Hn' & _). eauto.
      - by apply (ok_managed _ _ Hok x n0 d0). }
    destruct Hfrom as [[n' Hn']| ->]; [exists (rebind n'); by apply opened_live_old|]. eexists. split; [apply opened_new|done].
  - intros x n [[-> ->]|(Hne & n0 & Hl & ->)]%opened_live _; rewrite opened_panes.
    + rewrite decide_True by done. eauto.
    + destruct (ok_owner _ _ Hok x n0 Hl) as (ps & Hp & Ha); [done|]. rewrite decide_False by exact (not_owned x n0 Hl). eauto.
  - intros p ps x. rewrite opened_panes. destruct (decide (p = owner)) as [->|Hp].
    + intros [= <-] [= <-]. eexists. split; [split; [apply opened_new|done]|done].
    + intros Hps Ha. destruct (ok_active _ _ Hok p ps x Hps Ha) as (n & Hl & <-). exists (rebind n). split; [by apply opened_live_old|done].
  - intros x n Hx. destruct (opened_lookup x n Hx) as [[-> ->]|(_ & n0 & Hn & ->)]; [|apply (ok_waiter _ _ Hok x n0 Hn)].
    split; [done|]. intros Hnw. by destruct Hnw.
  - intros x n d Hx Hd Hr. assert (Hfrom : pane d <> owner /\ exists ps, panes st !! pane d = Some ps /\ available ps = true /\ forall r, active ps <> Some (Managed r)).
    { destruct (opened_lookup x n Hx) as [[-> ->]|(_ & n0 & Hn & ->)]; apply elem_observe_matching in Hd as (d0 & Hd0 & ->);
        (destruct (on_pane owner pending_command d0) eqn:Hon; [by destruct Hr|]).
      all: split; [intros Ho; unfold on_pane in Hon; rewrite bool_decide_true in Hon by done; by destruct Hr as [Hr|Hr]; rewrite Hr in Hon|].
      - rewrite (Hnew d0 Hd0) in Hr. pose proof (snapshot_spec st (pane d0) Hok) as Hs. by destruct Hr as [Hr|Hr]; rewrite Hr in Hs.
      - by apply (ok_pending _ _ Hok x n0 d0). }
    destruct Hfrom as [Hp Hps]. rewrite opened_panes, decide_False by done. done.
  - intros p ps r. rewrite opened_panes. destruct (decide (p = owner)) as [->|Hp]; [|apply (ok_closed _ _ Hok)].
    intros [= <-]. cbn. congruence.
Qed.

(** The runs that were there keep something to wait for. *)
Lemma rebind_awaiting n : awaiting n -> awaiting (rebind n).
Proof.
  intros [Hpass (d & Hd & Hp)]. split.
  - intros d' (d0 & Hd0 & ->)%elem_observe_matching. destruct (on_pane owner pending_command d0); [done|]. by apply Hpass.
  - exists (if on_pane owner pending_command d then set_observation (ActiveManaged id) d else d). split.
    + apply elem_observe_matching. eauto.
    + by destruct (on_pane owner pending_command d).
Qed.

(** A wait of one run for another is an old one or one for the new run. *)
Lemma opened_waits x y : waits_for st0 x y -> x <> id -> y = id \/ waits_for st x y.
Proof.
  intros (n & d & Hn & Hw & Hd & Ho) Hx. destruct (opened_lookup x n Hn) as [[? _]|(_ & n0 & Hn0 & ->)]; [done|].
  apply elem_observe_matching in Hd as (d0 & Hd0 & ->). destruct (on_pane owner pending_command d0).
  - left. by injection Ho.
  - right. by exists n0, d0.
Qed.

Lemma opened_acyclic_without : acyclic_without st0 id.
Proof.
  assert (Hsource : forall a b, tc (fun x y => waits_for st0 x y /\ x <> id) a b -> a <> id).
  { intros a b Hc. by destruct Hc as [? ? []|? ? ? []]. }
  assert (Hold : forall a b, tc (fun x y => waits_for st0 x y /\ x <> id) a b -> b <> id -> tc (waits_for st) a b).
  { induction 1 as [a b [Hab Ha]|a c b [Hac Ha] Hcb IH]; intros Hb.
    - apply tc_once. by destruct (opened_waits a b Hab Ha).
    - eapply tc_l; [|by apply IH]. destruct (opened_waits a c Hac Ha) as [->|?]; [|done]. by destruct (Hsource id b Hcb). }
  intros x Hc. apply (stable_acyclic _ Hstable x). apply Hold; [done|]. by eapply Hsource.
Qed.

Lemma opened_settled : settled st0 [id].
Proof.
  intros x n Hx Hw Hne. apply not_elem_of_cons in Hne as [Hne _].
  destruct (opened_lookup x n Hx) as [[? _]|(_ & n0 & Hn0 & ->)]; [done|]. apply rebind_awaiting.
  apply (stable_settled _ Hstable x n0 Hn0 Hw), not_elem_of_nil.
Qed.

Lemma opened_prepared a :
  (forall r, may a owner (ActiveManaged r)) -> opens a (rebind (new_node owner ds allow st)) ->
  prepared a st st0 (id :: roots) (Some id) [] [].
Proof.
  intros Hmay Hopens. destruct opened_next_id as [Hi Hs]. constructor; try done; try by intros ? ?%elem_of_nil.
  - by apply opened_ok.
  - intros x n Hx Hw Hne. apply (opened_settled x n Hx Hw). rewrite not_elem_of_cons in *. split; [tauto|apply not_elem_of_nil].
  - apply live_ends. intros x n Hx. destruct (opened_lookup x n Hx) as [[_ ->]|(_ & n0 & Hn0 & ->)]; [done|].
    apply (stable_live _ Hstable x n0 Hn0).
  - right. exists id, roots, (rebind (new_node owner ds allow st)). split; [done|]. split; [by apply opened_settled|].
    split; [by apply opened_new|]. split; [done|by apply opened_acyclic_without].
  - by rewrite Hs, app_nil_r.
  - intros x Hx. cbn. f_equal. rewrite (observed_is_waiting _ _ _ _ _ _ Hobserved). unfold is_waiting.
    destruct (opened_frame owner ds allow pending st) as (_ & _ & Hr & _). rewrite Hr, lookup_insert_ne by congruence. done.
  - intros x n Hx Hne. destruct (opened_lookup x n Hx) as [[-> _]|(_ & n0 & Hn0 & ->)]; [done|]. exists n0. split; [done|].
    apply observe_same. by intros d ->%on_pane_pane.
  - intros x [= <-]. split; [done|]. split; [done|]. eexists. split; [by apply opened_new|done].
  - intros x n Hno. by destruct (Hno (rebind (new_node owner ds allow st))).
Qed.
End Opening.

Lemma register_locked_eq owner ds allow st :
  0 <= next_id st < u64_max -> panes st !! owner = Some (pane_entry owner st) ->
  exists pending, register_locked owner ds allow st =
    let '(st0, roots) := replace_pending_command_observations (opened owner ds allow pending st) owner (ActiveManaged (next_id st + 1)) in
    st' ← resolve_locked st0 (next_id st + 1 :: roots); Ok (st', next_id st + 1).
Proof.
  intros Hid Hp. exists (match active (pane_entry owner st) with Some (Shell _) => true | _ => false end).
  unfold register_locked. rewrite (following_id_next _ Hid).
  destruct (link_dependencies_spec (next_id st + 1) (dependencies (new_node owner ds allow st)) (st <| next_id := next_id st + 1 |>))
    as ((_ & Hp' & _ & _) & _).
  assert (Hlook : panes (link_dependencies (next_id st + 1) (dependencies (new_node owner ds allow st)) (st <| next_id := next_id st + 1 |>))
    !! owner = Some (pane_entry owner st)) by exact (eq_trans (f_equal (fun m => m !! owner) Hp') Hp).
  unfold new_node in Hlook. cbn [dependencies] in Hlook.
  set (st1 := link_dependencies _ _ _) in *. change (panes (st1 <| runs := _ |>)) with (panes st1). rewrite Hlook. done.
Qed.

(** A registration is refused, with no more than the owner's default entry, or
    opens the next run. *)
Lemma register_spec a owner ds allow command st :
  stable st -> 0 <= next_id st < u64_max -> (forall r, may a owner (ActiveManaged r)) ->
  (forall node, RunCommand.owner node = owner -> allow_failure node = allow -> pane <$> dependencies node = ds ->
     (forall d r, d ∈ dependencies node -> observation d <> Last r) -> opens a node) ->
  (exists reason st', register owner ds allow command st = (st', Err (Refusal reason)) /\ stable st' /\ evolves a st st' /\
     (st' = st \/ st' = set_pane owner (pane_entry owner st) st)) \/
  (exists st_p st0 roots st1 st', register owner ds allow command st = (st', Ok (next_id st + 1)) /\
     st_p = set_pane owner (pane_entry owner st) st /\ stable st_p /\ evolves a st st_p /\ ds <> [] /\ NoDup ds /\
     prepared a st_p st0 (next_id st + 1 :: roots) (Some (next_id st + 1)) [] [] /\
     turns st0 (enqueue [] (next_id st + 1 :: roots)) st1 /\ retired st1 st' /\ stable st').
Proof.
  intros Hst Hid Hmay Hopens. unfold register.
  pose proof (check_request_no_panic owner ds command) as Hnp. pose proof (check_request_ok owner ds command) as Hchk.
  destruct (check_request owner ds command) as [u|[reason|]|]; [|left|done..].
  2:{ exists reason, st. split; [done|]. split; [done|]. split; [by apply evolves_refl|by left]. }
  destruct (Hchk u eq_refl) as [Hne Hnd].
  destruct (pane_evolves a st owner (pane_entry owner st) Hst (same_pane_refl st owner)) as [Hst_p He_p].
  set (st_p := set_pane owner (pane_entry owner st) st) in *.
  assert (Hentry : pane_entry owner st_p = pane_entry owner st).
  { unfold pane_entry at 1. unfold st_p. by rewrite set_pane_lookup, decide_True. }
  destruct (available (pane_entry owner st)) eqn:Hav; cbn [ensure mbind result_bind]; [|left; eauto 10].
  destruct (match active (pane_entry owner st) with Some (Managed _) => false | _ => true end) eqn:Hact; cbn [ensure]; [right|left; eauto 10].
  assert (Hidle : forall r, active (pane_entry owner st_p) <> Some (Managed r)) by (intros r Hr; rewrite Hentry in Hr; by rewrite Hr in Hact).
  assert (Hlook : panes st_p !! owner = Some (pane_entry owner st_p)) by (rewrite Hentry; unfold st_p; by rewrite set_pane_lookup, decide_True).
  destruct (register_locked_eq owner ds allow st_p Hid Hlook) as [pending ->]. change (next_id st_p) with (next_id st).
  pose proof (replace_pane_observed (opened owner ds allow pending st_p) owner (ActiveManaged (next_id st + 1)) pending_command
    (opened_links_ok owner ds allow pending st_p (stable_ok _ Hst_p) Hnd)) as Ho.
  unfold replace_pending_command_observations.
  change (fun current => match current with WaitingForCommand | ActiveShell => true | _ => false end) with pending_command.
  destruct (replace_pane_observations_with _ _ _ _) as [st0 roots].
  destruct (opened_frame owner ds allow pending st_p) as (_ & _ & Hr & _).
  specialize (Ho ltac:(intros r [= <-]; eexists; rewrite Hr, lookup_insert_eq; done)).
  assert (Hprep : prepared a st_p st0 (next_id st + 1 :: roots) (Some (next_id st + 1)) [] []).
  { eapply (opened_prepared st_p owner ds allow pending st0 roots); try done; [apply Hid|by rewrite Hentry|].
    apply Hopens; try done.
    - cbn. rewrite <- !list_fmap_compose. rewrite <- (list_fmap_id ds) at 2. apply list_fmap_ext. intros i p _. unfold compose. cbn.
      by destruct (on_pane _ _ _).
    - intros d r (d0 & (p & -> & _)%list_elem_of_fmap & ->)%elem_observe_matching. destruct (on_pane _ _ _); [done|]. cbn.
      intros Hl. pose proof (snapshot_spec st_p p (stable_ok _ Hst_p)) as Hs. by rewrite Hl in Hs. }
  destruct (resolve_locked_turns st0 (next_id st + 1 :: roots)) as (st1 & st' & Hres & Hturns & Hret & Hstable); try apply Hprep.
  exists st_p, st0, roots, st1, st'. rewrite Hres. cbn [mbind result_bind]. repeat (split; [done|]). done.
Qed.
End Registry.
