(* ===== verification/RunGuarantees.v ===== *)
(** * What the registry guarantees its callers

    The theorems about [src/run_command.rs]: whatever the panes, the wrappers and
    the program call, in whatever order, the registry never panics or loops, no
    waiting run is left behind, waits never form a cycle, every wrapper is told
    its fate once, and only a dependency's own success releases it. *)
From Stdlib Require Import ZArith Lia List Bool.
From stdpp Require Import base numbers list gmap sets strings.
From S2P Require Import Prelude RunCommand RunLinks RunResolve RunRegistry.
Import RunCommand.
Open Scope Z_scope.
Open Scope zetta_scope.

Module RunGuarantees.
Section Guarantees.
Context {order : Iteration}.

(** ** What each call may make a run observe *)
Definition observations (op : operation) (st : RegistryState) (p : RunPaneIdentity) (o : DependencyObservation) : Prop :=
  match op with
  | Observe q (TrackingReady true) => p = q /\ o = WaitingForCommand
  | Observe q (CommandStarted _ true) | Started q _ => p = q /\ o = ActiveShell
  | Observe q (CommandFinished e true) | Finished q e => p = q /\ o = Last (last_result_from_exit_code e)
  | Observe q TerminalExited | ClosedPane q => (p = q /\ o = Closed) \/ o = Last Unavailable
  | Observe _ OtherEvent | Reopened _ => False
  | Observe q _ => p = q /\ o = Unauthenticated
  | Register owner _ _ _ => p = owner /\ exists r, o = ActiveManaged r
  | Lost _ | Shutdown => o = Last Unavailable
  | Completed id e => (exists node, runs st !! id = Some node /\ owner node = p) /\ o = Last (last_result_from_exit_code e)
  end.

Definition words (op : operation) (to : Z) (m : RunResolutionMessage) : Prop :=
  match op with Completed id e => to = id /\ m = completion_message e | _ => False end.

Definition openings (op : operation) (node : RunNode) : Prop :=
  match op with
  | Register p ds allow _ => owner node = p /\ allow_failure node = allow /\ pane <$> dependencies node = ds /\
      forall d r, d ∈ dependencies node -> observation d <> Last r
  | _ => False
  end.

Definition allowed (op : operation) (st : RegistryState) : allowance :=
  {| may := observations op st; says := words op; opens := openings op |}.

(** ** Every call succeeds and leads from a stable state to a stable state *)

Lemma observe_evolves p event st :
  stable st -> exists st', step (Observe p event) st = Ok st' /\ stable st' /\ evolves (allowed (Observe p event) st) st st'.
Proof.
  intros Hst. destruct (authenticated_marker_evolves (allowed (Observe p event) st) p st Hst) as [Hst1 He1].
  assert (Hthen : forall r, (exists st', r = Ok st' /\ stable st' /\ evolves (allowed (Observe p event) st) (authenticated_marker p st) st') ->
    exists st', (r : result stuck RegistryState) = Ok st' /\ stable st' /\ evolves (allowed (Observe p event) st) st st').
  { intros r (st' & -> & Hs & He). exists st'. split; [done|]. split; [done|]. by eapply evolves_trans. }
  destruct event as [[]|c []|e []| |]; cbn [step observe_terminal_event];
    try (apply unauthenticated_marker_evolves; [done|by split]).
  - apply Hthen, tracking_ready_evolves; [done|by split].
  - apply Hthen, command_started_evolves; [done|by split].
  - apply Hthen, command_finished_evolves; [done|by split].
  - apply pane_closed_evolves; [done|by left; split|by right].
  - exists st. split; [done|]. split; [done|]. by apply evolves_refl.
Qed.

Lemma turns_next_id st queue st' : turns st queue st' -> next_id st' = next_id st.
Proof.
  induction 1 as [|st id queue st1 deps ret st2 Hok Ht _ IH]; [done|]. rewrite IH.
  destruct Ht as [| | |node Hn Hw _|node m s st3 deps Hn Hw _ Hf]; try done; rewrite (proj2 (proj2 (send_to_frame _ _ _))); [done|].
  pose proof (finish_is_waiting st id node (failed_message m) (if s then Unavailable else Failure 1) (ok_links _ _ Hok) Hn) as Hfi.
  rewrite Hf in Hfi. apply Hfi.
Qed.

Lemma evolves_next_id a st st' : (forall node, ~ opens a node) -> evolves a st st' -> next_id st' = next_id st.
Proof.
  intros Hno. induction 1 as [st st0 roots fresh before after st1 st2 _ Hp Ht [(Hi & _) _] _|st|st1 st2 st3 _ IH1 _ IH2]; [|done|by rewrite IH2].
  cbn. rewrite Hi, (turns_next_id _ _ _ Ht), (prepared_next_id _ _ _ _ _ _ _ Hp). destruct fresh as [id|]; [|done].
  destruct (prepared_fresh _ _ _ _ _ _ _ Hp id eq_refl) as (_ & _ & node & _ & _ & Ho). by destruct (Hno node).
Qed.

Lemma step_evolves op st :
  stable st -> 0 <= next_id st < u64_max ->
  exists st', step op st = Ok st' /\ stable st' /\ evolves (allowed op st) st st' /\ next_id st <= next_id st' <= next_id st + 1.
Proof.
  intros Hst Hid.
  assert (Hsame : (forall node, ~ openings op node) ->
    (exists st', step op st = Ok st' /\ stable st' /\ evolves (allowed op st) st st') ->
    exists st', step op st = Ok st' /\ stable st' /\ evolves (allowed op st) st st' /\ next_id st <= next_id st' <= next_id st + 1).
  { intros Hno (st' & Hs & Hst' & He). exists st'. split; [done|]. split; [done|]. split; [done|].
    rewrite (evolves_next_id (allowed op st) _ _ Hno He). lia. }
  destruct op as [p event|owner ds allow command|p|p command|p e|p|id|id e|]; try (apply Hsame; [by intros node ?|]); cbn [step].
  - by apply observe_evolves.
  - destruct (register_spec (allowed (Register owner ds allow command) st) owner ds allow command st Hst Hid) as
      [(reason & st' & Hr & Hs & He & Hst')|(st_p & st0 & roots & st1 & st' & Hr & -> & Hsp & Hep & _ & _ & Hp & Ht & Hret & Hs)].
    + intros r. split; [done|by exists r].
    + by intros node.
    + exists st'. rewrite Hr. split; [done|]. split; [done|]. split; [done|]. destruct Hst' as [->| ->]; cbn; lia.
    + exists st'. rewrite Hr. split; [done|]. split; [done|]. split.
      * eapply evolves_trans; [exact Hep|]. rewrite <- (sent_nil st'). by eapply evolves_call.
      * destruct Hret as [(-> & _) _]. rewrite (turns_next_id _ _ _ Ht), (prepared_next_id _ _ _ _ _ _ _ Hp). lia.
  - eexists. split; [done|]. by apply pane_reopened_evolves.
  - by apply command_started_evolves.
  - by apply command_finished_evolves.
  - apply pane_closed_evolves; [done|by left|by right].
  - apply fail_evolves; [done|]. done.
  - apply complete_evolves; [done|]. intros node Hn. split; [|done]. split; [eauto|done].
  - unfold shutdown. by apply fail_all_evolves.
Qed.

(** ** Sequences of calls *)

Lemma steps_app ops ops' st : steps (ops ++ ops') st = (st' ← steps ops st; steps ops' st').
Proof.
  unfold steps. rewrite foldl_app. destruct (foldl _ (Ok st) ops) as [st'|e|]; cbn; [done|..];
    by induction ops' as [|op ops' IH].
Qed.

Lemma steps_one op st : steps [op] st = step op st.
Proof. done. Qed.

Lemma zlen_snoc {A} (l : list A) a : zlen (l ++ [a]) = zlen l + 1.
Proof. rewrite zlen_app. done. Qed.

Lemma empty_run id : runs empty_registry !! id = None.
Proof. apply lookup_empty. Qed.

Lemma empty_stable : stable empty_registry.
Proof.
  assert (Hlinks : forall (K : Type) (HE : EqDecision K) (HC : Countable K) (k : K) id (P : RunNode -> Prop),
    linked (∅ : gmap K (gset Z)) k id <-> exists node, runs empty_registry !! id = Some node /\ P node).
  { intros K HE HC k id P. unfold linked. rewrite lookup_empty. split; [by intros ?%not_elem_of_empty|].
    intros (node & Hn & _). by rewrite empty_run in Hn. }
  assert (Hpane : forall p s, panes empty_registry !! p = Some s -> False) by (intros p s; cbn; by rewrite lookup_empty).
  constructor; [constructor; [constructor|..]|..].
  - intros id node. by rewrite empty_run.
  - intros id node d r. by rewrite empty_run.
  - intros p id. apply Hlinks.
  - intros r id. apply Hlinks.
  - intros p. cbn. by rewrite lookup_empty.
  - intros p. cbn. by rewrite lookup_empty.
  - intros id node. by rewrite empty_run.
  - intros id node d r. by rewrite empty_run.
  - intros id node [Hn _]. by rewrite empty_run in Hn.
  - intros p ps id Hp. by destruct (Hpane p ps).
  - intros id node. by rewrite empty_run.
  - intros id node d. by rewrite empty_run.
  - intros p ps r Hp. by destruct (Hpane p ps).
  - intros id node. by rewrite empty_run.
  - intros a Hc. assert (exists b, waits_for empty_registry a b) as (b & node & d & Hn & _) by (inversion Hc; eauto).
    by rewrite empty_run in Hn.
  - intros id node. by rewrite empty_run.
Qed.

(** What holds of the empty registry and is kept by every call holds after any
    sequence of calls. *)
Lemma steps_induction (P : list operation -> RegistryState -> Prop) st0 ops :
  stable st0 -> 0 <= next_id st0 -> next_id st0 + zlen ops <= u64_max -> P [] st0 ->
  (forall done op st st', stable st -> 0 <= next_id st < u64_max -> steps done st0 = Ok st -> P done st ->
     evolves (allowed op st) st st' -> step op st = Ok st' -> P (done ++ [op]) st') ->
  exists st, steps ops st0 = Ok st /\ stable st /\ next_id st0 <= next_id st <= next_id st0 + zlen ops /\ P ops st.
Proof.
  intros Hst Hi Hlen H0 Hstep. induction ops as [|op ops IH] using rev_ind.
  { exists st0. split; [done|]. split; [done|]. split; [by unfold zlen; cbn; lia|done]. }
  rewrite zlen_snoc in *. destruct IH as (st & Hs & Hst' & Hn & HP); [lia|].
  assert (0 <= zlen ops) by apply zlen_nonneg.
  destruct (step_evolves op st Hst') as (st' & Hop & Hst'' & He & Hn'); [lia|].
  exists st'. split; [by rewrite steps_app, Hs|]. split; [done|]. split; [lia|]. eapply Hstep; [..|exact He|done]; eauto. lia.
Qed.

Lemma steps_stable st0 ops :
  stable st0 -> 0 <= next_id st0 -> next_id st0 + zlen ops <= u64_max ->
  exists st, steps ops st0 = Ok st /\ stable st /\ next_id st0 <= next_id st <= next_id st0 + zlen ops.
Proof.
  intros Hst Hi Hlen. destruct (steps_induction (fun _ _ => True) st0 ops) as (st & Hs & Hst' & Hn & _); [done..|]. eauto.
Qed.

Lemma reached_stable ops st : zlen ops <= u64_max -> steps ops empty_registry = Ok st -> stable st /\ 0 <= next_id st <= zlen ops.
Proof.
  intros Hlen Hs. destruct (steps_stable empty_registry ops empty_stable) as (st' & Hs' & Hst & Hn); [done|done|].
  rewrite Hs in Hs'. injection Hs' as <-. done.
Qed.

(** ** Theorems *)

(** C6. No sequence of calls panics or loops, and afterwards no run is
    left behind: every run the registry keeps is undecided by its own rules, and
    one that has not been released waits for a pane that is there to report or
    for a run the registry still keeps. *)
Theorem no_run_is_left_behind (ops : list operation) :
  zlen ops <= u64_max ->
  exists st, steps ops empty_registry = Ok st /\
    forall id node, runs st !! id = Some node ->
      evaluate st id = Ok (Some Evaluation.Pending) /\
      (ready node = false -> exists d, d ∈ dependencies node /\
         match observation d with
         | WaitingForCommand | ActiveShell => exists p, panes st !! pane d = Some p /\ available p = true
         | ActiveManaged r => exists node', runs st !! r = Some node' /\ owner node' = pane d
         | _ => False
         end).
Proof.
  intros Hlen. destruct (steps_stable empty_registry ops empty_stable) as (st & Hs & Hst & _); [done|done|].
  exists st. split; [done|]. intros id node Hn. pose proof (stable_ok _ Hst) as Hok. split.
  - unfold evaluate. apply evaluate_awaiting with node; [apply (ok_managed _ _ Hok)|apply (stable_acyclic _ Hst)|
      apply (stable_settled _ Hst)|done|by apply (stable_live _ Hst id)|..].
    + by intros x ?%elem_of_nil.
    + apply NoDup_nil_2.
    + by intros x ?%elem_of_nil.
    + cbn. lia.
  - intros Hr. destruct (stable_settled _ Hst id node Hn) as [_ (d & Hd & Hp)]; [by split; [apply (stable_live _ Hst id)|]|apply not_elem_of_nil|].
    exists d. split; [done|]. destruct (observation d) as [| | | |r| | |] eqn:Ho; try done.
    1,2: destruct (ok_pending _ _ Hok id node d Hn Hd) as (p & Hpane & Hav & _); [by auto|eauto].
    by apply (managed_owner _ (ok_links _ _ Hok) id node d r).
Qed.

(** C26. Waits never form a cycle, every pane owns at most the run it is busy with,
    and the tables the registry finds dependents by list exactly the runs that
    observe the pane or the run: nothing is forgotten and nothing kept too long. *)
Theorem waits_are_acyclic_and_indexed (ops : list operation) st :
  zlen ops <= u64_max -> steps ops empty_registry = Ok st ->
  (forall id, ~ tc (waits_for st) id id) /\
  (forall p id, (exists s, panes st !! p = Some s /\ active s = Some (Managed id)) <-> (exists node, runs st !! id = Some node /\ owner node = p)) /\
  (forall p id, id ∈ default ∅ (dependents_by_pane st !! p) <->
     exists node, runs st !! id = Some node /\ p ∈ pane <$> dependencies node) /\
  (forall r id, id ∈ default ∅ (dependents_by_run st !! r) <->
     exists node, runs st !! id = Some node /\ ActiveManaged r ∈ observation <$> dependencies node) /\
  (runs st = ∅ -> dependents_by_pane st = ∅ /\ dependents_by_run st = ∅).
Proof.
  intros Hlen Hs. destruct (reached_stable ops st Hlen Hs) as [Hst _]. pose proof (stable_ok _ Hst) as Hok.
  pose proof (ok_links _ _ Hok) as Hl. split; [apply Hst|]. split; [|split; [|split]].
  - intros p id. split.
    + intros (s & Hp & Ha). destruct (ok_active _ _ Hok p s id Hp Ha) as (node & [Hn _] & Ho). eauto.
    + intros (node & Hn & <-). apply (ok_owner _ _ Hok id node); [split; [done|by apply (stable_live _ Hst id)]|done].
  - intros p id. apply (pane_linked _ Hl).
  - intros r id. apply (run_linked _ Hl).
  - intros Hempty.
    assert (Hnone : forall (K : Type) (HE : EqDecision K) (HC : Countable K) (links : gmap K (gset Z)),
      no_empty links -> (forall k id, ~ linked links k id) -> links = ∅).
    { intros K HE HC links Hne Hlinks. apply map_empty. intros k. destruct (links !! k) as [s|] eqn:Hk; [|done].
      destruct (decide (s = ∅)) as [->|Hs']; [by destruct (Hne k)|].
      apply set_choose_L in Hs' as [x Hx]. destruct (Hlinks k x). unfold linked. by rewrite Hk. }
    split; apply Hnone; try apply Hl; intros k id; [rewrite (pane_linked _ Hl)|rewrite (run_linked _ Hl)];
      intros (node & Hn & _); by rewrite Hempty, lookup_empty in Hn.
Qed.

(** ** Messages *)

Lemma retired_is_waiting st st' id : retired st st' -> is_waiting st' id = is_waiting st id.
Proof.
  intros [_ Hr]. apply eq_bool_prop_intro. rewrite !Is_true_true, !is_waiting_spec. split.
  - intros (node & Hn & Hw). apply Hr in Hn as [Hn _]. eauto.
  - intros (node & Hn & Hw). exists node. split; [|done]. apply Hr. split; [done|apply Hw].
Qed.

Lemma send_to_sent st node m : sent (send_to (waiter node) m st) = sent st ++ word_to node m.
Proof. by rewrite send_to_word. Qed.

(** A turn tells a run its fate exactly when the run stops waiting. *)
Lemma turned_told st id st' dependents retired x :
  registry_ok None st -> turned st id st' dependents retired ->
  (told x (sent st') + Nat.b2n (is_waiting st' x) = told x (sent st) + Nat.b2n (is_waiting st x))%nat.
Proof.
  intros Hok Ht.
  assert (Hend : forall node m st1, runs st !! id = Some node -> sent st1 = sent st ->
    is_waiting st1 x = negb (bool_decide (x = id)) && is_waiting st x ->
    (told x (sent (send_to (waiter node) m st1)) + Nat.b2n (is_waiting (send_to (waiter node) m st1) x) =
       told x (sent st) + Nat.b2n (is_waiting st x))%nat).
  { intros node m st1 Hn Hs Hw. rewrite send_to_sent, told_app, (told_word st id node m x Hok Hn), Hs.
    unfold is_waiting at 2. rewrite (proj1 (send_to_frame _ _ _)). fold (is_waiting st1 x). rewrite Hw.
    case_bool_decide as Hx; [subst x|]; cbn; [destruct (is_waiting st id); cbn; lia|lia]. }
  destruct Ht as [| | |node Hn Hw _|node m s st1 deps Hn Hw _ Hf]; try done; apply Hend; try done.
  - unfold is_waiting, released, set_field. cbn. case_bool_decide as Hx; cbn; [subst x|by rewrite lookup_insert_ne].
    rewrite lookup_insert_eq. apply bool_decide_eq_false. by intros [].
  - pose proof (finish_is_waiting st id node (failed_message m) (if s then Unavailable else Failure 1) (ok_links _ _ Hok) Hn) as H.
    rewrite Hf in H. apply H.
  - pose proof (finish_is_waiting st id node (failed_message m) (if s then Unavailable else Failure 1) (ok_links _ _ Hok) Hn) as H.
    rewrite Hf in H. apply H.
Qed.

Lemma turns_told st queue st' x :
  turns st queue st' ->
  (told x (sent st') + Nat.b2n (is_waiting st' x) = told x (sent st) + Nat.b2n (is_waiting st x))%nat.
Proof.
  induction 1 as [|st id queue st1 deps ret st2 Hok Ht _ IH]; [done|]. rewrite IH. by eapply turned_told.
Qed.

(** Each registered run that does not wait has been told once, and no other. *)
Definition told_once (st : RegistryState) : Prop := forall id,
  (told id (sent st) + Nat.b2n (is_waiting st id))%nat = if decide (1 <= id <= next_id st) then 1%nat else 0%nat.

Lemma evolves_told a st st' : 0 <= next_id st -> told_once st -> evolves a st st' -> told_once st' /\ next_id st <= next_id st'.
Proof.
  intros Hi Hst He. induction He as [st st0 roots fresh before after st1 st2 _ Hp Ht Hret _|st|st1 st2 st3 _ IH1 _ IH2].
  - pose proof Hret as [(Hi2 & _ & Hs2) _]. pose proof (turns_next_id _ _ _ Ht) as Hi1.
    pose proof (prepared_next_id _ _ _ _ _ _ _ Hp) as Hi0. split.
    + intros id. change (is_waiting (st2 <| sent := _ |>) id) with (is_waiting st2 id).
      change (sent (st2 <| sent := sent st2 ++ after |>)) with (sent st2 ++ after).
      change (next_id (st2 <| sent := _ |>)) with (next_id st2). rewrite told_app, Hs2, (retired_is_waiting _ _ _ Hret), Hi2, Hi1, Hi0. pose proof (turns_told _ _ _ id Ht) as Hturns.
      rewrite (prepared_sent _ _ _ _ _ _ _ Hp), told_app in Hturns. specialize (Hst id).
      destruct (decide (fresh = Some id)) as [->|Hf].
      * destruct (prepared_fresh _ _ _ _ _ _ _ Hp id eq_refl) as (-> & Htold & node & Hn & Hw & _). rewrite told_app in Htold.
        assert (Hwait : is_waiting st0 (next_id st + 1) = true) by (apply is_waiting_spec; eauto). rewrite Hwait in Hturns.
        rewrite decide_False in Hst by lia. rewrite decide_True by lia. cbn in *. lia.
      * pose proof (prepared_told _ _ _ _ _ _ _ Hp id Hf) as Htold. rewrite told_app in Htold.
        assert (Hrange : (1 <= id <= match fresh with Some i => i | None => next_id st end) <-> 1 <= id <= next_id st).
        { destruct fresh as [i|]; [|done]. destruct (prepared_fresh _ _ _ _ _ _ _ Hp i eq_refl) as (-> & _).
          assert (id <> next_id st + 1) by congruence. lia. }
        rewrite (decide_ext _ _ _ _ Hrange), <- Hst. lia.
    + cbn. rewrite Hi2, Hi1, Hi0. destruct fresh as [i|]; [|lia].
      destruct (prepared_fresh _ _ _ _ _ _ _ Hp i eq_refl) as (-> & _). lia.
  - split; [done|lia].
  - destruct (IH1 Hi Hst) as [Hst2 Hi2]. destruct (IH2 ltac:(lia) Hst2) as [Hst3 Hi3]. split; [done|lia].
Qed.

(** C25. Every registered wrapper is told its fate exactly once: nothing while it
    waits, one message when it is released or fails, and never a second. *)
Theorem every_wrapper_is_told_once (ops : list operation) st id :
  zlen ops <= u64_max -> steps ops empty_registry = Ok st ->
  told id (sent st) = if decide (1 <= id <= next_id st) then (if is_waiting st id then 0%nat else 1%nat) else 0%nat.
Proof.
  intros Hlen Hs.
  destruct (steps_induction (fun _ st => told_once st) empty_registry ops empty_stable) as (st' & Hs' & _ & _ & Htold); [done|done| | |].
  - intros x. unfold is_waiting. rewrite empty_run. change (next_id empty_registry) with 0. rewrite decide_False by lia. done.
  - intros done_ op s s' _ Hi _ Hs0 He _. apply (evolves_told (allowed op s) s s' (proj1 Hi) Hs0 He).
  - rewrite Hs in Hs'. injection Hs' as <-. specialize (Htold id). destruct (decide _), (is_waiting st id); cbn in *; lia.
Qed.

(** ** Evidence for a release *)

(** What is known of the strict run [id] on the panes [ps], when [evidence]
    holds of the panes that have succeeded. *)
Definition justified (id : Z) (ps : list RunPaneIdentity) (evidence : RunPaneIdentity -> Prop) (st : RegistryState) : Prop :=
  (forall node, runs st !! id = Some node -> waiting node ->
     allow_failure node = false /\ pane <$> dependencies node = ps /\
     forall d c, d ∈ dependencies node -> observation d = Last (Success c) -> evidence (pane d)) /\
  ((id, ready_message) ∈ sent st -> forall p, p ∈ ps -> evidence p).

Lemma elem_word node m x : x ∈ word_to node m -> exists to, waiter node = Some to /\ x = (to, m).
Proof. unfold word_to. destruct (waiter node) as [to|]; [intros ->%list_elem_of_singleton; eauto|by intros ?%elem_of_nil]. Qed.

Lemma failed_not_ready message : failed_message message <> ready_message.
Proof. done. Qed.

(** A strict run is released only when all its dependencies succeeded. *)
Lemma evaluate_strict_ready fuel st id stack node :
  managed_live st -> runs st !! id = Some node -> waiting node -> id ∉ stack -> allow_failure node = false ->
  evaluate_run (S fuel) st id stack = Ok (Some Evaluation.Ready) ->
  forall d, d ∈ dependencies node -> exists c, observation d = Last (Success c).
Proof.
  intros Hm Hn Hw Hs Hallow. rewrite (evaluate_waiting _ _ _ _ node) by done.
  destruct (evaluate_dependencies _ _ _ _ _) as [e| |] eqn:He; [|done..]. intros [= ->] d Hd.
  apply evaluate_dependencies_inv in He as [Hall [_ Hp]]. destruct (Hall d Hd) as (e & Hev & Hpass).
  assert (e = Evaluation.Ready) as ->.
  { destruct e as [| |m s]; [|done|by destruct Hpass; congruence]. discriminate Hp. right. eauto. }
  unfold evaluate_dependency in Hev. destruct (observation d) as [| | | |r|[]| |] eqn:Ho; try done; [|eauto].
  destruct (Hm id node d r Hn Hd Ho) as [nr Hlr]. apply bind_ok_inv in Hev as (er & Her & Hev).
  rewrite (live_not_terminal _ _ _ Hlr) in Hev. destruct er as [[]|]; cbn in Hev; try done.
  exfalso. destruct fuel; [done|]. cbn in Her. destruct Hlr as [Hlr Hlt]. rewrite Hlr, Hlt in Her.
  destruct (ready nr); [done|]. case_bool_decide; [done|]. by destruct (evaluate_dependencies _ _ _ _ _).
Qed.

Lemma turned_justified id ps evidence st x st' dependents retired :
  registry_ok None st -> turned st x st' dependents retired -> justified id ps evidence st -> justified id ps evidence st'.
Proof.
  intros Hok Ht [Hnode Hsent]. destruct Ht as [| | |node Hn Hw He|node m s st1 deps Hn Hw _ Hf]; try by split.
  - destruct (ok_waiter _ _ Hok x node Hn) as [Hto _]. split.
    + intros n' Hn' Hw'. rewrite (proj1 (send_to_frame _ _ _)) in Hn'. apply (released_lookup _ _ _ _ _ Hn) in Hn' as (n & Hx & ->).
      destruct (decide (id = x)); [by destruct Hw'|]. by apply Hnode.
    + rewrite send_to_sent, elem_of_app. intros [Hin|(to & Hto' & [= <-])%elem_word]; [by apply Hsent|].
      rewrite Hto in Hto' by done. injection Hto' as <-. destruct (Hnode node Hn Hw) as (Hallow & <- & Hev).
      intros p (d & -> & Hd)%list_elem_of_fmap. unfold evaluate in He.
      destruct (evaluate_strict_ready _ st x [] node (ok_managed _ _ Hok) Hn Hw ltac:(apply not_elem_of_nil) Hallow He d Hd) as [c Hc].
      by apply (Hev d c).
  - pose proof (finish_shrinks st x node (failed_message m) (if s then Unavailable else Failure 1) id) as Hsh.
    pose proof (finish_is_waiting st x node (failed_message m) (if s then Unavailable else Failure 1) (ok_links _ _ Hok) Hn) as Hfi.
    rewrite Hf in Hfi. destruct Hfi as (Hs & _ & _). split.
    + intros n' Hn' Hw'. rewrite (proj1 (send_to_frame _ _ _)) in Hn'. specialize (Hsh n' (ok_links _ _ Hok) Hn). rewrite Hf in Hsh.
      destruct Hsh as (_ & n & [Hx _] & ->); [by split; [|apply Hw']|]. destruct (Hnode n Hx Hw') as (Hallow & Hps & Hev).
      split; [done|]. split.
      * rewrite <- Hps. cbn. rewrite <- list_fmap_compose. apply list_fmap_ext. intros i d _. unfold compose. by destruct (affected _ _ d).
      * intros d c (d0 & Hd0 & ->)%elem_observe_matching. destruct (affected _ _ d0); [by destruct s|]. by apply (Hev d0 c).
    + rewrite send_to_sent, elem_of_app, Hs. intros [Hin|(to & _ & Heq)%elem_word]; [by apply Hsent|discriminate Heq].
Qed.

Lemma evolves_justified a id ps evidence st st' :
  (forall p c, may a p (Last (Success c)) -> evidence p) -> (forall m, says a id m -> m <> ready_message) ->
  evolves a st st' -> id <= next_id st -> justified id ps evidence st -> justified id ps evidence st' /\ id <= next_id st'.
Proof.
  intros Hmay Hsays He. induction He as [st st0 roots fresh before after st1 st2 Hst Hp Ht Hret _|st|st1 st2 st3 _ IH1 _ IH2]; intros Hid Hj.
  2:{ done. }
  2:{ destruct (IH1 Hid Hj). by apply IH2. }
  assert (Hfresh : fresh <> Some id).
  { intros ->. destruct (prepared_fresh _ _ _ _ _ _ _ Hp id eq_refl) as (-> & _). lia. }
  assert (Hj0 : justified id ps evidence st0).
  { destruct Hj as [Hnode Hsent]. split.
    - intros n0 Hn0 Hw0. destruct (prepared_node _ _ _ _ _ _ _ Hp id n0 Hn0 Hfresh) as (n & Hn & [_ Hallow Hready Hdeps]).
      destruct (Hnode n Hn) as (Ha & Hps & Hev); [split; [by apply (stable_live _ Hst id)|rewrite <- Hready; apply Hw0]|].
      split; [congruence|]. split.
      + rewrite <- Hps. clear -Hdeps. induction Hdeps as [|d d0 l l0 [Hpd _] _ IH]; [done|]. cbn. by rewrite Hpd, IH.
      + intros d0 c [i Hi]%list_elem_of_lookup Ho. destruct (Forall2_lookup_r _ _ _ _ _ Hdeps Hi) as (d & Hd & Hpd & Hod).
        rewrite Hpd. rewrite Ho in Hod. destruct Hod as [Hod|Hod]; [|by eapply Hmay].
        apply (Hev d c); [by eapply list_elem_of_lookup_2|done].
    - rewrite (prepared_sent _ _ _ _ _ _ _ Hp), elem_of_app. intros [Hin|Hin]; [by apply Hsent|].
      apply (prepared_before _ _ _ _ _ _ _ Hp) in Hin. by apply Hsays in Hin. }
  assert (Hj1 : justified id ps evidence st1).
  { clear -Ht Hj0. induction Ht as [|st x queue st1 deps ret st2 Hok Ht _ IH]; [done|]. apply IH. by eapply turned_justified. }
  destruct Hret as [(Hi2 & _ & Hs2) Hr2]. destruct Hj1 as [Hnode Hsent]. split; [split|].
  - intros n Hn Hw. apply Hr2 in Hn as [Hn _]. by apply Hnode.
  - change (sent (st2 <| sent := _ |>)) with (sent st2 ++ after). rewrite elem_of_app, Hs2. intros [Hin|Hin]; [by apply Hsent|].
    by apply (prepared_after _ _ _ _ _ _ _ Hp) in Hin.
  - change (next_id (st2 <| sent := _ |>)) with (next_id st2). rewrite Hi2, (turns_next_id _ _ _ Ht), (prepared_next_id _ _ _ _ _ _ _ Hp).
    destruct fresh as [i|]; [|done]. destruct (prepared_fresh _ _ _ _ _ _ _ Hp i eq_refl) as (-> & _). lia.
Qed.

(** A call that reports a success of the pane [p]: its shell's trusted report of
    exit status 0, or the completion with status 0 of the run [p] owns. *)
Definition succeeds (op : operation) (st : RegistryState) (p : RunPaneIdentity) : Prop :=
  match op with
  | Observe q (CommandFinished (Some 0) true) | Finished q (Some 0) => q = p
  | Completed r (Some 0) => exists node, runs st !! r = Some node /\ owner node = p
  | _ => False
  end.

Lemma last_result_success e c : last_result_from_exit_code e = Success c -> e = Some 0.
Proof.
  unfold last_result_from_exit_code. destruct e as [code|]; [|done]. destruct (Z.eqb_spec code 0) as [->|]; [done|discriminate].
Qed.

Lemma observations_success op st p c : observations op st p (Last (Success c)) -> succeeds op st p.
Proof.
  destruct op as [q [[]|? []|e []| |]|q ds al cm|q|q cm|q e|q|id|id e|]; cbn; intros Ho; try done;
    try (by destruct Ho as [? [=]]); try (by destruct Ho as [[? [=]]|[=]]); try (by destruct Ho as [_ [r [=]]]).
  all: destruct Ho as [Hp [= He]]; symmetry in He; apply last_result_success in He as ->; done.
Qed.

(** The successes of [p] among the calls [ops] made from [st0]. *)
Definition has_succeeded (st0 : RegistryState) (ops : list operation) (p : RunPaneIdentity) : Prop :=
  exists before op after st, ops = before ++ op :: after /\ steps before st0 = Ok st /\ succeeds op st p.

Lemma has_succeeded_snoc st0 ops op p : has_succeeded st0 ops p -> has_succeeded st0 (ops ++ [op]) p.
Proof. intros (b & o & a & st & -> & Hs & Hp). exists b, o, (a ++ [op]), st. by rewrite <- app_assoc. Qed.

Lemma justified_mono id ps (E E' : RunPaneIdentity -> Prop) st :
  (forall p, E p -> E' p) -> justified id ps E st -> justified id ps E' st.
Proof.
  intros HE [Hnode Hsent]. split.
  - intros n Hn Hw. destruct (Hnode n Hn Hw) as (Ha & Hps & Hev). split; [done|]. split; [done|]. eauto.
  - eauto.
Qed.

Lemma told_none id l m : told id l = O -> (id, m) ∉ l.
Proof.
  intros Ht Hin. unfold told in Ht. apply nil_length_inv in Ht.
  assert (H : (id, m) ∈ filter (fun x => x.1 = id) l) by (by apply list_elem_of_filter). rewrite Ht in H. by apply elem_of_nil in H.
Qed.

(** Right after its registration a run has heard of no success. *)
Lemma register_justified owner ds command st st' id :
  stable st -> told_once st -> 0 <= next_id st < u64_max -> register owner ds false command st = (st', Ok id) ->
  stable st' /\ id = next_id st' /\ next_id st' = next_id st + 1 /\ justified id ds (fun _ => False) st'.
Proof.
  intros Hst Htold Hid Hreg.
  destruct (register_spec (allowed (Register owner ds false command) st) owner ds false command st Hst Hid) as
    [(reason & st1 & Hr & _)|(st_p & st0 & roots & st1 & st2 & Hr & -> & Hsp & Hep & _ & _ & Hp & Ht & Hret & Hs)];
    [intros r; split; [done|by exists r]|done|congruence|].
  rewrite Hreg in Hr. injection Hr as <- ->.
  destruct (prepared_fresh _ _ _ _ _ _ _ Hp _ eq_refl) as (_ & _ & node & Hn & Hw & Hopen).
  destruct Hret as [(Hi2 & _ & Hs2) Hr2]. pose proof (turns_next_id _ _ _ Ht) as Hi1. pose proof (prepared_next_id _ _ _ _ _ _ _ Hp) as Hi0.
  split; [done|]. split; [congruence|]. split; [congruence|].
  assert (Hj0 : justified (next_id st + 1) ds (fun _ => False) st0).
  { split.
    - intros n Hn' _. assert (n = node) as -> by congruence. destruct Hopen as (_ & Hallow & Hps & Hno).
      split; [done|]. split; [done|]. intros d c Hd Ho. by apply (Hno d (Success c)).
    - rewrite (prepared_sent _ _ _ _ _ _ _ Hp), app_nil_r. intros Hin. exfalso. apply told_none in Hin; [done|].
      specialize (Htold (next_id st + 1)). rewrite decide_False in Htold by lia.
      change (told (next_id st + 1) (sent st) = O). lia. }
  assert (Hj1 : justified (next_id st + 1) ds (fun _ => False) st1).
  { clear -Ht Hj0. induction Ht as [|s x queue s1 deps ret s2 Hok Ht _ IH]; [done|]. apply IH. by eapply turned_justified. }
  destruct Hj1 as [Hnode Hsent]. split; [|by rewrite Hs2]. intros n Hn' Hw'. apply Hr2 in Hn' as [Hn' _]. by apply Hnode.
Qed.

(** C5. A run that does not allow failures is released only by a success
    of every pane it depends on, each one reported after the run was registered:
    by the pane's own shell, or by the completion of the run the pane owns.  A
    printed marker, an earlier result or another pane's result never does. *)
Theorem strict_release_needs_every_success (ops1 ops2 : list operation) st1 st2 st3 owner ds command id :
  zlen ops1 + 1 + zlen ops2 <= u64_max ->
  steps ops1 empty_registry = Ok st1 -> register owner ds false command st1 = (st2, Ok id) -> steps ops2 st2 = Ok st3 ->
  (forall e, Completed id e ∉ ops2) -> (id, ready_message) ∈ sent st3 ->
  forall p, p ∈ ds -> exists before op after st,
    ops2 = before ++ op :: after /\ steps before st2 = Ok st /\ succeeds op st p.
Proof.
  intros Hlen Hs1 Hreg Hs2 Hno Hsent. assert (0 <= zlen ops1 /\ 0 <= zlen ops2) by (split; apply zlen_nonneg).
  destruct (steps_induction (fun _ st => told_once st) empty_registry ops1 empty_stable) as (st & Hs & Hst & Hi & Htold); [done|cbn; lia| | |].
  { intros x. unfold is_waiting. rewrite empty_run. change (next_id empty_registry) with 0. rewrite decide_False by lia. done. }
  { intros done_ op s s' _ Hi _ Hs0 He _. apply (evolves_told (allowed op s) s s' (proj1 Hi) Hs0 He). }
  rewrite Hs1 in Hs. injection Hs as <-. change (next_id empty_registry) with 0 in Hi.
  destruct (register_justified owner ds command st1 st2 id Hst Htold) as (Hst2 & -> & Hi2 & Hj); [lia|done|].
  destruct (steps_induction (fun ops st => (forall e, Completed (next_id st2) e ∉ ops) ->
    justified (next_id st2) ds (has_succeeded st2 ops) st /\ next_id st2 <= next_id st) st2 ops2 Hst2) as (s3 & Hs3 & _ & _ & HP).
  - lia.
  - lia.
  - intros _. split; [|done]. eapply justified_mono; [|exact Hj]. done.
  - intros done_ op s s' _ _ Hdone HP He _ Hnone. destruct HP as [Hjs Hle]; [intros e Hin; apply (Hnone e), elem_of_app; by left|].
    apply (evolves_justified (allowed op s) (next_id st2) ds (has_succeeded st2 (done_ ++ [op])) s s'); try done.
    + intros p c Hmay. exists done_, op, [], s. split; [done|]. split; [done|]. exact (observations_success op s p c Hmay).
    + intros m Hw ->. destruct op; try done. destruct Hw as [Hw _]. apply (Hnone exit_code), elem_of_app. right. rewrite Hw. left.
    + eapply justified_mono; [|exact Hjs]. intros p. apply has_succeeded_snoc.
  - rewrite Hs2 in Hs3. injection Hs3 as <-. destruct (HP Hno) as [[_ Hev] _]. by apply Hev.
Qed.

(** ** Calls that can only fail runs *)

(** An observation that stops a run whatever it allows. *)
Definition stops (o : DependencyObservation) : Prop :=
  match o with Missing | Closed | Unknown | Unauthenticated | Last Unavailable => True | _ => False end.

(** No run that allows no failure sees one. *)
Definition no_plain_failure (st : RegistryState) : Prop := forall id node d c,
  runs st !! id = Some node -> waiting node -> allow_failure node = false -> d ∈ dependencies node ->
  observation d <> Last (Failure c).

(** Then a run that fails fails for good. *)
Lemma evaluate_failed_structural fuel st id stack node m s :
  managed_live st -> no_plain_failure st -> live st id node ->
  evaluate_run fuel st id stack = Ok (Some (Evaluation.Failed m s)) -> s = true.
Proof.
  intros Hm Hno. revert id stack node m s. induction fuel as [|fuel IH]; intros id stack node m s [Hn Ht]; [done|].
  destruct (ready node) eqn:Hr; [rewrite (evaluate_ready _ _ _ _ node) by done; discriminate|].
  destruct (decide (id ∈ stack)) as [Hs|Hs].
  { cbn [evaluate_run]. rewrite Hn, Ht, Hr, bool_decide_true by done. by intros [= _ <-]. }
  rewrite (evaluate_waiting _ _ _ _ node) by done.
  destruct (evaluate_dependencies _ _ _ _ _) as [e| |] eqn:He; [|done..]. intros [= ->].
  apply evaluate_dependencies_inv in He as [[?|Hallow] (d & Hd & Hev)]; [done|]. unfold evaluate_dependency in Hev.
  destruct (observation d) as [| | | |r|[|c|]| |] eqn:Ho; cbn in Hev; try (by injection Hev as _ <-); try done.
  - apply bind_ok_inv in Hev as (er & Her & Hev). destruct (Hm id node d r Hn Hd Ho) as [nr Hlr].
    destruct er as [[| |m' s']|]; cbn in Hev; try done; [by destruct (is_terminal st r)|injection Hev as -> ->; by eapply IH|].
    exfalso. destruct fuel; [done|]. cbn in Her. destruct Hlr as [Hlr Hlt]. rewrite Hlr, Hlt in Her.
    destruct (ready nr); [done|]. case_bool_decide; [done|]. by destruct (evaluate_dependencies _ _ _ _ _).
  - by destruct (Hno id node d c Hn (conj Ht Hr) Hallow Hd).
Qed.

(** A run that observes something that stops it fails. *)
Lemma evaluate_stopped fuel st id stack node d e :
  runs st !! id = Some node -> waiting node -> id ∉ stack -> d ∈ dependencies node -> stops (observation d) ->
  evaluate_run (S fuel) st id stack = Ok e -> exists m s, e = Some (Evaluation.Failed m s).
Proof.
  intros Hn Hw Hs Hd Hstop. rewrite (evaluate_waiting _ _ _ _ node) by done.
  destruct (evaluate_dependencies _ _ _ _ _) as [e'| |] eqn:He; [|done..]. intros [= <-].
  apply evaluate_dependencies_inv in He. destruct e' as [| |m s]; [..|by eauto]; exfalso.
  all: destruct He as [Hall _]; destruct (Hall d Hd) as (e1 & He1 & Hpass);
    rewrite evaluate_dependency_plain in He1 by (by intros r Ho; rewrite Ho in Hstop); injection He1 as <-;
    destruct (observation d) as [| | | | |[]| |]; try done; by destruct Hpass.
Qed.

(** What holds while such a call resolves. *)
Definition failing (st : RegistryState) (queue : list Z) : Prop :=
  no_plain_failure st /\
  forall id node, id ∈ queue -> runs st !! id = Some node -> waiting node ->
    exists d, d ∈ dependencies node /\ stops (observation d).

Definition only_failures (st st' : RegistryState) : Prop :=
  (exists l, sent st' = sent st ++ l /\ forall x, x ∈ l -> resolution x.2 = RunResolution.Failed) /\
  (forall id node', runs st' !! id = Some node' -> ready node' = true -> exists node, runs st !! id = Some node /\ ready node = true).

Lemma only_failures_refl st : only_failures st st.
Proof. split; [|eauto]. exists []. split; [by rewrite app_nil_r|by intros x ?%elem_of_nil]. Qed.

Lemma only_failures_trans st1 st2 st3 : only_failures st1 st2 -> only_failures st2 st3 -> only_failures st1 st3.
Proof.
  intros [(l & Hs & Hl) Hr] [(l' & Hs' & Hl') Hr']. split.
  - exists (l ++ l'). split; [by rewrite Hs', Hs, app_assoc|]. intros x [?|?]%elem_of_app; auto.
  - intros id n Hn (n2 & Hn2 & Hrn2)%(Hr' id n Hn). eauto.
Qed.

Lemma turned_failing st id queue st' dependents retired :
  registry_ok None st -> failing st (id :: queue) -> turned st id st' dependents retired ->
  failing st' (enqueue queue dependents) /\ only_failures st st'.
Proof.
  intros Hok [Hno Hqueue] Ht.
  assert (Hsame : failing st (enqueue queue [])) by (split; [done|]; intros x n Hx; apply Hqueue; by right).
  destruct Ht as [| | |node Hn Hw He|node m s st1 deps Hn Hw He Hf]; try (split; [exact Hsame|apply only_failures_refl]).
  - exfalso. destruct (Hqueue id node ltac:(left) Hn Hw) as (d & Hd & Hstop). unfold evaluate in He.
    by destruct (evaluate_stopped _ st id [] node d _ Hn Hw (not_elem_of_nil _) Hd Hstop He) as (m & s & [=]).
  - assert (s = true) as ->.
    { eapply evaluate_failed_structural; [apply (ok_managed _ _ Hok)|exact Hno|split; [exact Hn|apply Hw]|exact He]. }
    pose proof (fun x n => finish_shrinks st id node (failed_message m) Unavailable x n (ok_links _ _ Hok) Hn) as Hsh.
    pose proof (fun x n => finish_unchanged st id node (failed_message m) Unavailable x n (ok_links _ _ Hok) Hn) as Hun.
    pose proof (finish_is_waiting st id node (failed_message m) Unavailable (ok_links _ _ Hok) Hn) as Hfi.
    pose proof (finish_observed st id node (failed_message m) Unavailable (ok_links _ _ Hok) Hn) as Ho.
    rewrite Hf in *. destruct Hfi as (Hs & _ & _). destruct (send_to_frame (waiter node) (failed_message m) st1) as (Hr & _ & _).
    split; [split|split].
    + intros x n d c. rewrite Hr. intros Hx Hwx Ha Hd. destruct (Hsh x n) as (_ & n0 & [Hx0 _] & ->); [by split; [|apply Hwx]|].
      apply elem_observe_matching in Hd as (d0 & Hd0 & ->). destruct (affected _ _ d0); [done|]. by apply (Hno x n0).
    + intros x n Hx. rewrite Hr. intros Hnx Hwx. destruct (decide (x ∈ deps)) as [Hd|Hd].
      * apply (observed_roots _ _ _ _ _ Ho) in Hd as (n1 & d & Hn1 & Hd & Haff & _).
        destruct (observed_lookup _ _ _ _ _ _ _ Ho Hnx) as (n2 & Hn2 & ->). simplify_eq.
        exists (set_observation (Last Unavailable) d). split; [|done]. apply elem_observe_matching. exists d. by rewrite Haff.
      * destruct (Hsh x n) as (Hne & _); [by split; [|apply Hwx]|].
        assert (Hold : runs st !! x = Some n) by (by apply Hun).
        apply (Hqueue x n); [|done..]. right. rewrite elem_enqueue in Hx. tauto.
    + exists (word_to node (failed_message m)). rewrite send_to_sent, Hs. split; [done|]. apply word_failed.
    + intros x n'. rewrite Hr. intros (n1 & Hn1 & ->)%(observed_lookup _ _ _ _ _ _ _ Ho) Hrd. unfold ended, set_field in Hn1. cbn in Hn1.
      apply lookup_insert_Some in Hn1 as [[<- <-]|[_ Hn1]]; eauto.
Qed.

Lemma turns_failing st queue st' : turns st queue st' -> failing st queue -> only_failures st st'.
Proof.
  induction 1 as [|st id queue st1 deps ret st2 Hok Ht _ IH]; intros Hf; [apply only_failures_refl|].
  destruct (turned_failing _ _ _ _ _ _ Hok Hf Ht) as [Hf1 Ho1]. eapply only_failures_trans; [exact Ho1|by apply IH].
Qed.

Lemma retired_only_failures st st' : retired st st' -> only_failures st st'.
Proof.
  intros [(_ & _ & Hs) Hr]. split.
  - exists []. split; [by rewrite app_nil_r|by intros x ?%elem_of_nil].
  - intros id n Hn Hrd. apply Hr in Hn as [Hn _]. eauto.
Qed.

Lemma evolves_failing a st st' :
  (forall p o, may a p o -> stops o) -> (forall to m, ~ says a to m) -> (forall node, ~ opens a node) ->
  evolves a st st' -> only_failures st st'.
Proof.
  intros Hmay Hsays Hopens. induction 1 as [st st0 roots fresh before after st1 st2 Hst Hp Ht Hret _|st|st1 st2 st3 _ IH1 _ IH2];
    [|apply only_failures_refl|by eapply only_failures_trans].
  assert (Hfresh : fresh = None).
  { destruct fresh as [i|]; [|done]. destruct (prepared_fresh _ _ _ _ _ _ _ Hp i eq_refl) as (_ & _ & n & _ & _ & Ho). by destruct (Hopens n). }
  assert (Hbefore : before = []).
  { destruct before as [|x l]; [done|]. destruct (Hsays x.1 x.2). apply (prepared_before _ _ _ _ _ _ _ Hp). left. }
  subst fresh before.
  assert (Hnode : forall id n0, runs st0 !! id = Some n0 -> exists n, runs st !! id = Some n /\ follows a n n0).
  { intros id n0 Hn0. by apply (prepared_node _ _ _ _ _ _ _ Hp id n0). }
  assert (Hfail : failing st0 (enqueue [] roots)).
  { split.
    - intros id n0 d0 c Hn0 [Ht0 Hr0] Ha Hd0 Ho. destruct (Hnode id n0 Hn0) as (n & Hn & [_ Hal Hrd Hdeps]).
      apply list_elem_of_lookup in Hd0 as [i Hi]. destruct (Forall2_lookup_r _ _ _ _ _ Hdeps Hi) as (d & Hd & _ & Hod).
      rewrite Ho in Hod. destruct Hod as [Hod|Hod]; [|by apply Hmay in Hod].
      destruct (stable_settled _ Hst id n Hn) as [Hpass _]; [split; [by apply (stable_live _ Hst id)|congruence]|apply not_elem_of_nil|].
      specialize (Hpass d ltac:(by eapply list_elem_of_lookup_2)). rewrite <- Hod in Hpass. cbn in Hpass. congruence.
    - intros id n0 [?%elem_of_nil|Hid]%elem_enqueue Hn0 Hw0; [done|].
      destruct (prepared_roots _ _ _ _ _ _ _ Hp id n0 Hopens Hid Hn0 Hw0) as (d & Hd & Hm). eauto. }
  eapply only_failures_trans; [|eapply only_failures_trans; [by eapply turns_failing|]].
  - split.
    + exists []. rewrite (prepared_sent _ _ _ _ _ _ _ Hp). split; [done|by intros x ?%elem_of_nil].
    + intros id n0 Hn0 Hr0. destruct (Hnode id n0 Hn0) as (n & Hn & Hf). exists n. split; [done|]. by rewrite <- (follows_ready _ _ _ Hf).
  - eapply only_failures_trans; [by eapply retired_only_failures|]. split; [|eauto]. exists after. split; [done|].
    apply (prepared_after _ _ _ _ _ _ _ Hp).
Qed.

(** The calls that carry no trusted report: markers without the pane's nonce,
    closed panes, exited terminals, lost connections and the shutdown. *)
Definition untrusted (event : TerminalEvent) : bool :=
  match event with TrackingReady false | CommandStarted _ false | CommandFinished _ false => true | _ => false end.
Definition only_fails (op : operation) : bool :=
  match op with
  | Observe _ TerminalExited | ClosedPane _ | Lost _ | Shutdown => true
  | Observe _ event => untrusted event
  | _ => false
  end.

Lemma only_fails_stops op st p o : only_fails op = true -> observations op st p o -> stops o.
Proof.
  intros Hop Ho. destruct op as [q [[]|c []|e []| |]|q ds al cm|q|q cm|q e|q|id|id e|]; try done; cbn in Ho;
    try (by destruct Ho as [_ ->]); try (by destruct Ho as [[_ ->]| ->]); by subst o.
Qed.

(** C27. Nothing that carries no trusted report ever releases a wrapper:
    not a forged marker, a closed pane, a lost connection or the shutdown.  All
    such a call can say is that a run failed. *)
Theorem untrusted_reports_never_release (ops : list operation) op st :
  zlen ops < u64_max -> steps ops empty_registry = Ok st -> only_fails op = true ->
  exists st', step op st = Ok st' /\
    (exists l, sent st' = sent st ++ l /\ forall to m, (to, m) ∈ l -> resolution m = RunResolution.Failed) /\
    (forall id node', runs st' !! id = Some node' -> ready node' = true -> exists node, runs st !! id = Some node /\ ready node = true).
Proof.
  intros Hlen Hs Hop. destruct (reached_stable ops st) as [Hst Hi]; [lia|done|].
  destruct (step_evolves op st Hst) as (st' & Hstep & _ & He & _); [lia|]. exists st'. split; [done|].
  destruct (evolves_failing (allowed op st) st st') as [(l & Hl & Hfail) Hready]; [..|done|].
  - intros p o. by apply only_fails_stops.
  - intros to m Hw. destruct op; try done.
  - intros node Ho. destruct op; try done.
  - split; [|done]. exists l. split; [done|]. intros to m Hin. by apply (Hfail (to, m)).
Qed.

(** A resolution touches no pane that owns no run. *)
Lemma turned_panes st id st' dependents retired p :
  registry_ok None st -> turned st id st' dependents retired -> (forall x n, live st x n -> owner n <> p) ->
  panes st' !! p = panes st !! p /\ (forall x n, live st' x n -> owner n <> p).
Proof.
  intros Hok Ht Hno. destruct Ht as [| | |node Hn Hw _|node m s st1 deps Hn Hw _ Hf]; try done.
  - rewrite (proj1 (proj2 (send_to_frame _ _ _))). split; [done|]. intros x n [Hx Htn]. rewrite (proj1 (send_to_frame _ _ _)) in Hx.
    apply (released_lookup _ _ _ _ _ Hn) in Hx as (n0 & Hx & ->).
    destruct (decide (x = id)); [|by apply (Hno x); split]. apply (Hno x n0). split; [done|by destruct (decide (x = id))].
  - pose proof (fun x n => finish_shrinks st id node (failed_message m) (if s then Unavailable else Failure 1) x n (ok_links _ _ Hok) Hn) as Hsh.
    pose proof (finish_observed st id node (failed_message m) (if s then Unavailable else Failure 1) (ok_links _ _ Hok) Hn) as Ho.
    rewrite Hf in *. rewrite (proj1 (proj2 (send_to_frame _ _ _))). split.
    + destruct (observed_frame _ _ _ _ _ Ho) as [_ Hp _ _]. rewrite Hp. unfold ended, set_field. cbn.
      apply lookup_alter_ne. apply (Hno id node). by split; [|apply Hw].
    + intros x n [Hx Htn]. rewrite (proj1 (send_to_frame _ _ _)) in Hx. destruct (Hsh x n) as (_ & n0 & Hl & ->); [done|]. by apply (Hno x n0).
Qed.

Lemma turns_panes st queue st' p :
  turns st queue st' -> (forall x n, live st x n -> owner n <> p) -> panes st' !! p = panes st !! p.
Proof.
  induction 1 as [|st id queue st1 deps ret st2 Hok Ht _ IH]; intros Hno; [done|].
  destruct (turned_panes _ _ _ _ _ p Hok Ht Hno) as [Hp Hno']. rewrite <- Hp. by apply IH.
Qed.

(** A marker without the nonce changes nothing in the pane it is
    printed in but the note that the pane reports without proof: neither what
    runs there, nor its last result.  Where the shell has proved itself it
    changes nothing at all. *)
Theorem forged_marker_records_nothing (ops : list operation) p event st :
  zlen ops < u64_max -> steps ops empty_registry = Ok st -> untrusted event = true ->
  exists st' unproved, step (Observe p event) st = Ok st' /\
    panes st' !! p = Some (pane_entry p st <| unauthenticated_reports := unproved |>) /\
    (authenticated (pane_entry p st) = true -> st' = set_pane p (pane_entry p st) st).
Proof.
  intros Hlen Hs Hev. destruct (reached_stable ops st) as [Hst Hi]; [lia|done|].
  assert (Hstep : step (Observe p event) st = unauthenticated_marker p st) by (destruct event as [[]|c []|e []| |]; done).
  rewrite Hstep. unfold unauthenticated_marker.
  destruct (negb (available (pane_entry p st)) || authenticated (pane_entry p st)) eqn:Hguard.
  { exists (set_pane p (pane_entry p st) st), (unauthenticated_reports (pane_entry p st)). split; [done|]. split; [|done].
    rewrite set_pane_lookup, decide_True by done. by destruct (pane_entry p st). }
  apply orb_false_iff in Hguard as [Hav Hauth]. set (ps := pane_entry p st <| unauthenticated_reports := true |>).
  assert (Hsame : same_pane st p ps) by (by apply same_pane_active).
  assert (Hok : registry_ok None (set_pane p ps st)) by (apply set_pane_ok; [apply Hst|done]).
  pose proof (replace_pane_observed (set_pane p ps st) p Unauthenticated pending_command (ok_links _ _ Hok) ltac:(by apply observable_plain)) as Ho.
  unfold replace_pending_command_observations.
  change (fun current => match current with WaitingForCommand | ActiveShell => true | _ => false end) with pending_command.
  destruct (replace_pane_observations_with _ _ _ _) as [st0 roots].
  assert (Hprep : prepared (allowed (Observe p (TrackingReady false)) st) st st0 roots None [] []).
  { eapply report_prepared; [done|exact Hsame|exact Ho|done|by split|by intros [|]]. }
  destruct (resolve_locked_turns st0 roots) as (st1 & st' & Hres & Hturns & Hret & _); try apply Hprep.
  exists st', true. split; [done|]. split; [|intros Ha; congruence].
  destruct Hret as [(_ & -> & _) _]. destruct (observed_frame _ _ _ _ _ Ho) as [_ Hp0 _ _].
  assert (Hgoal : panes st1 !! p = panes st0 !! p); [|by rewrite Hgoal, Hp0, set_pane_lookup, decide_True].
  destruct (decide (roots = [])) as [->|Hroots]; [by inversion Hturns|]. eapply turns_panes; [exact Hturns|].
  intros x n (n0 & Hl & ->)%(observed_live _ _ _ _ _ _ _ Ho) Howner.
  destruct (ok_owner _ _ (stable_ok _ Hst) x n0 Hl) as (s & Hsp & Ha); [done|].
  apply Hroots. destruct roots as [|y roots]; [done|]. exfalso.
  destruct (proj1 (observed_roots _ _ _ _ _ Ho y) ltac:(left)) as (ny & d & Hny & Hd & Hon & _).
  assert (Hpend : observation d = WaitingForCommand \/ observation d = ActiveShell).
  { apply andb_true_iff in Hon as [_ Hpend]. destruct (observation d); auto; done. }
  destruct (ok_pending _ _ (stable_ok _ Hst) y ny d Hny Hd Hpend) as (s' & Hs' & _ & Hno).
  rewrite (on_pane_pane _ _ _ Hon) in Hs'. cbn in Howner. rewrite Howner in Hsp. apply (Hno x). congruence.
Qed.
End Guarantees.

(** ** Witnesses *)
#[local] Instance sorted_iteration : Iteration :=
  {| iterate _ s := elements s; iterate_elements _ s := reflexivity (elements s) |}.

Definition demo_pane (n : Z) : RunPaneIdentity := mkIdentity 1 n.
Definition demo_start : list operation :=
  [Observe (demo_pane 1) (CommandStarted "make" true); Reopened (demo_pane 4);
   Register (demo_pane 2) [demo_pane 1] true ["deploy"%string];
   Observe (demo_pane 3) (CommandFinished None false)].
Definition state_of (r : result stuck RegistryState) : RegistryState :=
  match r with Ok st => st | _ => empty_registry end.
Definition demo_state : RegistryState := state_of (steps demo_start empty_registry).
(** Pane 4 waits for the shell of pane 1 and for the run pane 2 owns. *)
Definition demo_registered : RegistryState := (register (demo_pane 4) [demo_pane 1; demo_pane 2] false ["notify"%string] demo_state).1.
Definition demo_rest : list operation :=
  [Observe (demo_pane 1) (CommandFinished (Some 0) true); Completed 1 (Some 0)].

Lemma no_run_is_left_behind_witness :
  zlen demo_start <= u64_max /\ exists st, steps demo_start empty_registry = Ok st /\
    forall id node, runs st !! id = Some node ->
      evaluate st id = Ok (Some Evaluation.Pending) /\
      (ready node = false -> exists d, d ∈ dependencies node /\
         match observation d with
         | WaitingForCommand | ActiveShell => exists p, panes st !! pane d = Some p /\ available p = true
         | ActiveManaged r => exists node', runs st !! r = Some node' /\ owner node' = pane d
         | _ => False
         end).
Proof. split; [vm_compute; discriminate|]. apply no_run_is_left_behind. vm_compute. discriminate. Defined.

Lemma waits_are_acyclic_and_indexed_witness :
  steps demo_start empty_registry = Ok demo_state /\ runs demo_state <> ∅ /\
  (forall id, ~ tc (waits_for demo_state) id id).
Proof.
  split; [vm_compute; reflexivity|]. split.
  - intros He. apply (f_equal (fun m => bool_decide (is_Some (m !! 1)))) in He. vm_compute in He. discriminate.
  - apply (waits_are_acyclic_and_indexed demo_start demo_state); vm_compute; [discriminate|reflexivity].
Defined.

Lemma every_wrapper_is_told_once_witness :
  told 1 (sent (state_of (steps (demo_start ++ demo_rest) empty_registry))) = 1%nat.
Proof.
  rewrite (every_wrapper_is_told_once (demo_start ++ demo_rest)) by (vm_compute; (discriminate || reflexivity)).
  vm_compute. reflexivity.
Defined.

Lemma strict_release_needs_every_success_witness :
  register (demo_pane 4) [demo_pane 1; demo_pane 2] false ["notify"%string] demo_state = (demo_registered, Ok 2) /\
  (2, ready_message) ∈ sent (state_of (steps demo_rest demo_registered)) /\
  exists before op after st, demo_rest = before ++ op :: after /\ steps before demo_registered = Ok st /\ succeeds op st (demo_pane 2).
Proof.
  split; [vm_compute; reflexivity|].
  assert (Hsent : (2, ready_message) ∈ sent (state_of (steps demo_rest demo_registered))).
  { apply list_elem_of_lookup. exists 1%nat. vm_compute. reflexivity. }
  split; [exact Hsent|].
  apply (strict_release_needs_every_success demo_start demo_rest demo_state demo_registered
    (state_of (steps demo_rest demo_registered)) (demo_pane 4) [demo_pane 1; demo_pane 2] ["notify"%string] 2).
  - vm_compute. discriminate.
  - vm_compute. reflexivity.
  - vm_compute. reflexivity.
  - vm_compute. reflexivity.
  - intros e [H|[H|H%elem_of_nil]%elem_of_cons]%elem_of_cons; [discriminate H|discriminate H|exact H].
  - exact Hsent.
  - right. left.
Defined.

Lemma untrusted_reports_never_release_witness :
  exists st', step (ClosedPane (demo_pane 1)) demo_state = Ok st' /\
    (exists l, sent st' = sent demo_state ++ l /\ forall to m, (to, m) ∈ l -> resolution m = RunResolution.Failed) /\
    (forall id node', runs st' !! id = Some node' -> ready node' = true ->
       exists node, runs demo_state !! id = Some node /\ ready node = true).
Proof.
  apply (untrusted_reports_never_release demo_start (ClosedPane (demo_pane 1)) demo_state); vm_compute; reflexivity.
Defined.

Lemma forged_marker_records_nothing_witness :
  exists st' unproved, step (Observe (demo_pane 3) (CommandFinished (Some 0) false)) demo_state = Ok st' /\
    panes st' !! demo_pane 3 = Some (pane_entry (demo_pane 3) demo_state <| unauthenticated_reports := unproved |>) /\
    (authenticated (pane_entry (demo_pane 3) demo_state) = true -> st' = set_pane (demo_pane 3) (pane_entry (demo_pane 3) demo_state) demo_state).
Proof.
  apply (forged_marker_records_nothing demo_start (demo_pane 3) (CommandFinished (Some 0) false) demo_state); vm_compute; reflexivity.
Defined.
End RunGuarantees.
