(* ===== verification/History.v ===== *)
(** * The command history of the console host

    Models [crates/console-server/src/history.rs]: the commands of one application,
    the place shown in them, and the lists a console keeps.  Text is UTF-16 units.
    An index is an [i32], whose overflow panics; what the standard library's Unicode
    tables make of a name in lower case is the class [Lowercase]. *)
From Stdlib Require Import ZArith Lia List Bool.
From stdpp Require Import base numbers list.
From S2P Require Import Prelude.
Open Scope Z_scope.
Open Scope zetta_scope.

Module History.

(** [String::from_utf16_lossy(name).to_lowercase()] *)
Class Lowercase := { lowercase : list Z -> list Z }.
Definition same_name `{Lowercase} (a b : list Z) : bool := bool_decide (lowercase a = lowercase b).

Section History.
Context {E : Type}.

Definition checked (z : Z) : result E Z := if (- 2 ^ 31 <=? z) && (z <? 2 ^ 31) then Ok z else Panic.

Record CommandHistory := mkHistory {
  commands : list (list Z);
  max_commands : Z;
  application : list Z;
  owner : option Z;
  reset : bool;
  last_displayed : Z;
}.
#[export] Instance history_eta : Eta CommandHistory := fun h =>
  mkHistory (commands h) (max_commands h) (application h) (owner h) (reset h) (last_displayed h).
Implicit Types h : CommandHistory.

Inductive Direction := Previous | Next.

Definition len h : Z := as_i32 (zlen (commands h)).
Definition reset_position h : result E CommandHistory :=
  last ← checked (len h - 1);
  Ok (h <| last_displayed := last |> <| reset := true |>).
Definition nth (index : Z) h : list Z :=
  if (0 <=? index) && (index <? len h) then default [] (commands h !! Z.to_nat index) else [].

Definition retrieve_nth (index : Z) h : result E (CommandHistory * list Z) :=
  if bool_decide (commands h = []) then Ok (h <| last_displayed := 0 |>, [])
  else
    top ← checked (len h - 1);
    (* [index.clamp(0, top)] *)
    if top <? 0 then Panic
    else
      let at_ := Z.min (Z.max index 0) top in
      command ← expect (commands h !! Z.to_nat at_);
      Ok (h <| last_displayed := at_ |>, command).
Definition retrieve (direction : Direction) h : result E (CommandHistory * list Z) :=
  h ← match direction with
      | Previous => if reset h then Ok (h <| reset := false |>) else last ← checked (last_displayed h - 1); Ok (h <| last_displayed := last |>)
      | Next => last ← checked (last_displayed h + 1); Ok (h <| last_displayed := last |>)
      end;
  retrieve_nth (last_displayed h) h.
Definition last_command h : list Z := nth (last_displayed h) h.
Definition empty h : CommandHistory := h <| commands := [] |> <| last_displayed := -1 |> <| reset := true |>.

Definition at_first h : result E bool :=
  if reset h then Ok false
  else
    index ← checked (last_displayed h - 1);
    top ← checked (len h - 1);
    Ok ((if index =? -1 then top else index) =? top).
Definition at_last h : result E bool := top ← checked (len h - 1); Ok (last_displayed h =? top).

Definition realloc (n : Z) h : result E CommandHistory :=
  if max_commands h =? n then Ok h
  else
    let h := h <| commands := take (Z.to_nat (Z.max n 0)) (commands h) |> <| reset := true |> in
    last ← checked (len h - 1);
    Ok (h <| last_displayed := last |> <| max_commands := n |>).

Definition remove (index : Z) h : result E (CommandHistory * list Z) :=
  if negb ((0 <=? index) && (index <? len h)) then Ok (h, [])
  else
    command ← expect (commands h !! Z.to_nat index);
    let h := h <| commands := delete (Z.to_nat index) (commands h) |> in
    if last_displayed h =? index then Ok (h <| last_displayed := -1 |>, command)
    else if index <? last_displayed h then
      last ← checked ((if last_displayed h <=? 0 then max_commands h else last_displayed h) - 1);
      Ok (h <| last_displayed := last |>, command)
    else Ok (h, command).

Definition swap (a b : Z) h : CommandHistory :=
  let inside i := (0 <=? i) && (i <? len h) in
  if negb (a =? b) && inside a && inside b then
    match commands h !! Z.to_nat a, commands h !! Z.to_nat b with
    | Some x, Some y => h <| commands := <[Z.to_nat b := x]> (<[Z.to_nat a := y]> (commands h)) |>
    | _, _ => h
    end
  else h.

(** [fn previous], on the index *)
Definition previous (index : Z) h : result E Z := checked ((if index <=? 0 then len h else index) - 1).
Definition starts_with (prefix stored : list Z) : bool := bool_decide (take (length prefix) stored = prefix).
Definition matches (prefix : list Z) (exact : bool) (stored : list Z) : bool :=
  (if exact then Nat.eqb (length stored) (length prefix) else (length prefix <=? length stored)%nat) && starts_with prefix stored.
Fixpoint search (n : nat) (prefix : list Z) (exact : bool) (index : Z) h : result E (option Z) :=
  match n with
  | O => Ok None
  | S n =>
      stored ← (if index <? 0 then Panic else expect (commands h !! Z.to_nat index));
      if matches prefix exact stored then Ok (Some index)
      else index ← previous index h; search n prefix exact index h
  end.
Definition find (prefix : list Z) (start : Z) (exact just_looking : bool) h : result E (CommandHistory * option Z) :=
  if bool_decide (commands h = []) then Ok (h, None)
  else
    '(h, index) ← (if negb just_looking && reset h then Ok (h <| reset := false |>, start)
                   else index ← previous start h; Ok (h, index));
    if bool_decide (prefix = []) then Ok (h, Some index)
    else found ← search (length (commands h)) prefix exact index h; Ok (h, found).

Definition add (command : list Z) (suppress_duplicates : bool) h : result E CommandHistory :=
  if (max_commands h =? 0) || bool_decide (command = []) then Ok h
  else
    h ← (if bool_decide (last (commands h) = Some command) then Ok h
         else
           '(h, reuse) ← (if suppress_duplicates then
                            '(h, found) ← find command (last_displayed h) true false h;
                            match found with
                            | Some index => '(h, taken) ← remove index h; Ok (h, Some taken)
                            | None => Ok (h, None)
                            end
                          else Ok (h, None));
           h ← (if len h =? max_commands h then
                  _ ← expect (head (commands h));
                  last ← checked (last_displayed h - 1);
                  Ok (h <| commands := tail (commands h) |> <| last_displayed := last |>)
                else Ok h);
           let h := h <| commands := commands h ++ [default command reuse] |> in
           if (last_displayed h =? -1) || negb (bool_decide (nth (last_displayed h) h = command)) then reset_position h else Ok h);
    Ok (h <| reset := true |>).

(** ** The lists of a console *)

Record Histories := mkHistories { lists : list CommandHistory; size : Z; buffers : Z; flags : Z }.
#[export] Instance histories_eta : Eta Histories := fun hs => mkHistories (lists hs) (size hs) (buffers hs) (flags hs).
Definition default_histories : Histories := mkHistories [] 50 4 0.
Context `{Lowercase}.

(** A list found and changed in place. *)
Definition owned_by (client : Z) h : bool := bool_decide (owner h = Some client).
Definition live_of (name : list Z) h : bool := bool_decide (is_Some (owner h)) && same_name (application h) name.
Definition free_of (name : list Z) h : bool := bool_decide (owner h = None) && same_name (application h) name.
Definition with_list {A} (p : CommandHistory -> bool) (f : CommandHistory -> result E (CommandHistory * A)) (hs : Histories)
    : result E (Histories * option A) :=
  match position p (lists hs) with
  | None => Ok (hs, None)
  | Some i =>
      h ← expect (lists hs !! i);
      '(h, a) ← f h;
      Ok (hs <| lists := <[i := h]> (lists hs) |>, Some a)
  end.

Definition emptier (best : option (bool * nat)) (entry : nat * CommandHistory) : option (bool * nat) :=
  let '(index, h) := entry in
  let is_empty := bool_decide (commands h = []) in
  if bool_decide (owner h = None) && (is_empty || match best with None => true | Some (best_empty, _) => negb best_empty end)
  then Some (is_empty, index) else best.
(** The free list to clear: an empty one if there is one, the least recent of them. *)
Definition best_free (l : list CommandHistory) : option nat := snd <$> foldl emptier None (imap pair l).

Definition allocate (name : list Z) (client : Z) (hs : Histories) : Histories :=
  let same := position (free_of name) (lists hs) in
  if bool_decide (same = None) && (zlen (lists hs) <? buffers hs) then
    hs <| lists := mkHistory [] (as_i32 (size hs)) name (Some client) false (-1) :: lists hs |>
  else
    match option_or same (best_free (lists hs)) with
    | None => hs
    | Some index =>
        match lists hs !! index with
        | None => hs
        | Some h =>
            let h := if bool_decide (same = None)
                     then h <| commands := [] |> <| last_displayed := -1 |> <| application := name |> else h in
            hs <| lists := h <| owner := Some client |> :: delete index (lists hs) |>
        end
    end.
Definition free (client : Z) (hs : Histories) : Histories :=
  match position (owned_by client) (lists hs) with
  | Some i => hs <| lists := alter (fun h => h <| owner := None |>) i (lists hs) |>
  | None => hs
  end.
Fixpoint realloc_each (n : Z) (l : list CommandHistory) : result E (list CommandHistory) :=
  match l with
  | [] => Ok []
  | h :: l => h ← realloc n h; l ← realloc_each n l; Ok (h :: l)
  end.
Definition resize_all (n : Z) (hs : Histories) : result E Histories :=
  l ← realloc_each (as_i32 n) (lists hs);
  Ok (hs <| size := n |> <| lists := l |>).
Definition realloc_application (name : list Z) (n : Z) (hs : Histories) : result E Histories :=
  match position (live_of name) (lists hs) with
  | None => Ok hs
  | Some i =>
      h ← expect (lists hs !! i);
      h ← realloc (as_i32 n) h;
      Ok (hs <| lists := h :: delete i (lists hs) |>)
  end.

(** ** Where a list stands *)

(** No more commands than it may hold, none of them empty, and a place in it. *)
Record placed h : Prop := {
  pl_count : zlen (commands h) <= max_commands h < 2 ^ 31;
  pl_words : [] ∉ commands h;
  pl_at : -1 <= last_displayed h <= Z.max 0 (zlen (commands h) - 1);
}.
(** The command last shown was deleted, and none was shown since. *)
Definition unplaced h : Prop := reset h = true /\ last_displayed h = -1 /\ commands h <> [].

Lemma len_placed h : placed h -> len h = zlen (commands h).
Proof using Type.
  intros [[? ?] _ _]. unfold len, as_i32, wrap. pose proof (zlen_nonneg (commands h)). rewrite Z.mod_small by lia.
  by rewrite (proj2 (Z.ltb_lt _ _)) by lia.
Qed.
Lemma checked_ok z : - 2 ^ 31 <= z < 2 ^ 31 -> checked z = Ok z.
Proof using Type. intros [? ?]. unfold checked. by rewrite (proj2 (Z.leb_le _ _)), (proj2 (Z.ltb_lt _ _)) by lia. Qed.
Lemma commands_count h : commands h <> [] -> 1 <= zlen (commands h).
Proof using Type. unfold zlen. destruct (commands h); [done | cbn [length]; lia]. Qed.

(** ** The search *)

(** The places backwards from [k] around the list. *)
Definition backwards (k n : Z) : list Z := (fun j => (k - j) `mod` n) <$> seqZ 0 n.
Definition command_at h (i : Z) : list Z := default [] (commands h !! Z.to_nat i).

Lemma previous_place h k : placed h -> 0 <= k < zlen (commands h) -> previous k h = Ok ((k - 1) `mod` zlen (commands h)).
Proof using Type.
  intros Hp Hk. unfold previous. rewrite (len_placed h Hp). destruct Hp as [[? ?] _ _]. destruct (Z.leb_spec k 0).
  - assert (k = 0) as -> by lia. rewrite checked_ok by lia. f_equal. apply (Z.mod_unique_pos _ _ (-1)); lia.
  - rewrite checked_ok by lia. by rewrite Z.mod_small by lia.
Qed.
Lemma search_places n prefix exact k h :
  placed h -> 0 <= k < zlen (commands h) ->
  search n prefix exact k h =
  Ok (List.find (fun i => matches prefix exact (command_at h i)) ((fun j => (k - j) `mod` zlen (commands h)) <$> seqZ 0 (Z.of_nat n))).
Proof using Type.
  intros Hp. revert k. induction n as [|n IH]; intros k Hk; [done|]. cbn [search]. rewrite (proj2 (Z.ltb_ge k 0)) by lia.
  destruct (lookup_lt_is_Some_2 (commands h) (Z.to_nat k)) as [stored Hst]; [unfold zlen in Hk; lia|].
  rewrite seqZ_cons by lia. cbn [fmap list_fmap List.find]. rewrite Z.sub_0_r, Z.mod_small by lia. unfold command_at at 1. rewrite Hst.
  cbn [expect mbind result_bind default]. unfold id. destruct (matches prefix exact stored); [done|].
  rewrite previous_place by done. cbn [mbind result_bind]. rewrite IH by (apply Z.mod_pos_bound; lia). do 2 f_equal.
  replace (Z.pred (Z.of_nat (S n))) with (Z.of_nat n) by lia. change (Z.succ 0) with 1.
  replace (seqZ 1 (Z.of_nat n)) with (Z.add 1 <$> seqZ 0 (Z.of_nat n)) by (by rewrite fmap_add_seqZ).
  rewrite <- list_fmap_compose. apply list_fmap_ext. intros _ j _. cbn. rewrite Zminus_mod_idemp_l. f_equal. lia.
Qed.

(** Where a search from a place starts. *)
Definition first_place (just_looking : bool) h : Z :=
  if negb just_looking && reset h then last_displayed h
  else if last_displayed h <=? 0 then zlen (commands h) - 1 else last_displayed h - 1.
(** What a search leaves of the list. *)
Definition looked (just_looking : bool) h : CommandHistory := if negb just_looking && reset h then h <| reset := false |> else h.
Lemma looked_placed just_looking h : placed h -> placed (looked just_looking h).
Proof using Type. intros []. unfold looked. by destruct (negb _ && _). Qed.

Lemma find_placed prefix exact just_looking h :
  placed h -> commands h <> [] -> (reset h = true -> just_looking = false -> last_displayed h <> -1) ->
  0 <= first_place just_looking h < zlen (commands h) /\
  find prefix (last_displayed h) exact just_looking h =
  Ok (looked just_looking h,
      if bool_decide (prefix = []) then Some (first_place just_looking h)
      else List.find (fun i => matches prefix exact (command_at h i)) (backwards (first_place just_looking h) (zlen (commands h)))).
Proof using Type.
  intros Hp Hne Hat. pose proof (commands_count h Hne). pose proof (len_placed h Hp) as Hlen.
  assert (0 <= first_place just_looking h < zlen (commands h)) as Hk.
  { unfold first_place. destruct Hp as [[? ?] _ [? ?]]. destruct just_looking, (reset h); cbn [negb andb]; try specialize (Hat eq_refl eq_refl);
      try (destruct (Z.leb_spec (last_displayed h) 0)); lia. }
  split; [done|]. unfold find. rewrite bool_decide_eq_false_2 by done.
  assert ((if negb just_looking && reset h then Ok (h <| reset := false |>, last_displayed h)
      else index ← previous (last_displayed h) h; Ok (h, index)) = Ok (looked just_looking h, first_place just_looking h)) as ->.
  { unfold looked, first_place in *. destruct (negb _ && _); [done|]. unfold previous. rewrite Hlen.
    destruct Hp as [[? ?] _ [? ?]]. destruct (Z.leb_spec (last_displayed h) 0); by rewrite checked_ok by lia. }
  cbn [mbind result_bind]. case_bool_decide; [done|].
  assert (commands (looked just_looking h) = commands h) as Hc by (unfold looked; by destruct (negb _ && _)).
  assert (command_at (looked just_looking h) = command_at h) as Hat' by (unfold command_at; by rewrite Hc).
  rewrite search_places by (rewrite ?Hc; first [by apply looked_placed | done]). by rewrite Hc, Hat'.
Qed.

(** Once the command last shown was deleted, a search for something fails on its place. *)
Lemma find_unplaced prefix exact h :
  unplaced h -> prefix <> [] -> find prefix (last_displayed h) exact false h = Panic.
Proof using Type.
  intros (Hr & Hl & Hne) Hp. unfold find. rewrite !bool_decide_eq_false_2 by done. rewrite Hr, Hl. cbn [negb andb mbind result_bind].
  destruct (commands h) eqn:Hc; [done|]. cbn. by rewrite Hc.
Qed.

Lemma matches_exactly command stored : matches command true stored = true <-> stored = command.
Proof using Type.
  unfold matches, starts_with. rewrite andb_true_iff, Nat.eqb_eq, bool_decide_eq_true. split.
  - intros [Hl Ht]. by rewrite take_ge in Ht by lia.
  - intros ->. by rewrite take_ge by lia.
Qed.
Lemma backwards_covers k n i : 0 <= k < n -> 0 <= i < n -> i ∈ backwards k n.
Proof using Type.
  intros Hk Hi. apply list_elem_of_fmap. exists ((k - i) `mod` n). split.
  - rewrite Zminus_mod_idemp_r. replace (k - (k - i)) with i by lia. by rewrite Z.mod_small by lia.
  - apply elem_of_seqZ. pose proof (Z.mod_pos_bound (k - i) n). lia.
Qed.
Lemma backwards_inside k n i : 0 < n -> i ∈ backwards k n -> 0 <= i < n.
Proof using Type. intros Hn (j & -> & _)%list_elem_of_fmap. by apply Z.mod_pos_bound. Qed.

(** But for the flag that a command was entered, and where a list belongs, the same. *)
Definition alike h h' : Prop := commands h' = commands h /\ max_commands h' = max_commands h /\ last_displayed h' = last_displayed h.
Lemma alike_placed h h' : alike h h' -> placed h -> placed h'.
Proof using Type. intros (Hc & Hm & Hl) []. split; by rewrite ?Hc, ?Hm, ?Hl. Qed.

(** Looking for a whole command finds a place of it if there is one. *)
Lemma find_whole command h :
  placed h -> command <> [] -> ~ unplaced h ->
  exists h' found, find command (last_displayed h) true false h = Ok (h', found) /\ alike h h' /\
  match found with
  | Some i => 0 <= i /\ commands h !! Z.to_nat i = Some command
  | None => command ∉ commands h
  end.
Proof using Type.
  intros Hp Hc Hun. destruct (decide (commands h = [])) as [Hnil|Hne].
  { exists h, None. unfold find. rewrite bool_decide_eq_true_2 by done. rewrite Hnil. split_and!; [done | by split_and! | apply not_elem_of_nil]. }
  destruct (find_placed command true false h Hp Hne) as [Hk Hf].
  { intros Hr _ Hl. by apply Hun. }
  eexists _, _. split; [exact Hf|]. rewrite bool_decide_eq_false_2 by done.
  split; [unfold looked; destruct (negb _ && _); by split_and!|].
  destruct (List.find _ _) as [i|] eqn:Hi.
  - apply find_some in Hi as [Hin Hm]. rewrite <- list_elem_of_In in Hin. apply backwards_inside in Hin; [|lia]. split; [lia|].
    apply matches_exactly in Hm. unfold command_at in Hm. destruct (commands h !! Z.to_nat i) eqn:Hl; [by subst|].
    by subst command.
  - intros [i Hl]%list_elem_of_lookup. pose proof (lookup_lt_Some _ _ _ Hl).
    assert (matches command true (command_at h (Z.of_nat i)) = true) as Hm.
    { apply matches_exactly. unfold command_at. by rewrite Nat2Z.id, Hl. }
    rewrite (find_none _ _ Hi (Z.of_nat i)) in Hm; [done|]. apply list_elem_of_In, backwards_covers; [done | unfold zlen; lia].
Qed.

Lemma remove_placed index h :
  placed h -> exists h' command, remove index h = Ok (h', command) /\ placed h' /\ max_commands h' = max_commands h /\ reset h' = reset h /\
  commands h' = (if (0 <=? index) && (index <? zlen (commands h)) then delete (Z.to_nat index) (commands h) else commands h) /\
  (0 <= index -> commands h !! Z.to_nat index = Some command \/ (commands h !! Z.to_nat index = None /\ command = [])).
Proof using Type.
  intros Hp. unfold remove. rewrite (len_placed h Hp). pose proof Hp as [[Hn Hm] Hw [Hl1 Hl2]].
  destruct (Z.leb_spec 0 index) as [H0|]; cbn [andb negb]; [|exists h, []; split_and!; [done.. | lia]].
  destruct (Z.ltb_spec index (zlen (commands h))) as [Hi|]; cbn [andb negb].
  2: { exists h, []. split_and!; [done.. | right; split; [apply lookup_ge_None_2; unfold zlen in *; lia | done]]. }
  destruct (lookup_lt_is_Some_2 (commands h) (Z.to_nat index)) as [command Hc]; [unfold zlen in Hi; lia|].
  rewrite Hc. cbn [expect mbind result_bind]. cbv zeta. set (h1 := h <| commands := delete _ _ |>).
  change (last_displayed h1) with (last_displayed h). change (max_commands h1) with (max_commands h).
  assert (forall l, -1 <= l <= Z.max 0 (zlen (commands h) - 2) ->
    placed (h1 <| last_displayed := l |>)) as Hd.
  { intros l Hl. assert (zlen (delete (Z.to_nat index) (commands h)) = zlen (commands h) - 1) as Hlen.
    { unfold zlen. rewrite length_delete by (by exists command). unfold zlen in Hi. lia. }
    split; cbn; rewrite ?Hlen; [lia | | lia]. intros Hin. apply Hw. by eapply elem_of_sublist, sublist_delete. }
  destruct (Z.eqb_spec (last_displayed h) index) as [He|Hne].
  - eexists _, _. split; [reflexivity|]. split; [apply Hd; lia|]. split_and!; [done | done | done | by left].
  - destruct (Z.ltb_spec index (last_displayed h)).
    + rewrite (proj2 (Z.leb_gt _ _)) by lia. rewrite checked_ok by lia. eexists _, _. split; [reflexivity|].
      split; [apply Hd; lia|]. split_and!; [done | done | done | by left].
    + eexists _, _. split; [reflexivity|]. split; [apply (Hd (last_displayed h)); lia|]. split_and!; [done | done | done | by left].
Qed.

(** Wherever the place is. *)
Definition stored h : Prop := placed (h <| last_displayed := -1 |>).
Lemma placed_stored h : placed h -> stored h.
Proof using Type. intros []. split; [done | done | cbn; lia]. Qed.
Lemma len_stored h : stored h -> len h = zlen (commands h).
Proof using Type. intros Hs. by apply len_placed in Hs. Qed.
Lemma stored_placed h : stored h -> -1 <= last_displayed h <= Z.max 0 (zlen (commands h) - 1) -> placed h.
Proof using Type. intros [] ?. by split. Qed.

Lemma retrieve_nth_placed index h :
  stored h -> exists h' command, retrieve_nth index h = Ok (h', command) /\ placed h' /\ commands h' = commands h /\ reset h' = reset h /\
  (last_displayed h' <> -1) /\ (commands h <> [] -> commands h !! Z.to_nat (Z.min (Z.max index 0) (zlen (commands h) - 1)) = Some command).
Proof using Type.
  intros Hp. pose proof Hp as [[Hn Hm] Hw _]. cbn in Hn, Hm. unfold retrieve_nth. case_bool_decide as Hnil.
  - eexists _, _. split; [reflexivity|]. split; [|done]. split; [done | done | cbn; lia].
  - rewrite (len_stored h Hp). pose proof (commands_count h Hnil). rewrite checked_ok by lia. cbn [mbind result_bind].
    rewrite (proj2 (Z.ltb_ge _ _)) by lia. set (at_ := Z.min _ _).
    destruct (lookup_lt_is_Some_2 (commands h) (Z.to_nat at_)) as [command Hc]; [unfold at_, zlen in *; lia|]. rewrite Hc. cbn [expect mbind result_bind].
    eexists _, _. split; [reflexivity|]. split; [split; [done | done | cbn; lia]|]. split_and!; [done | done | cbn; lia | done].
Qed.

Lemma retrieve_placed direction h :
  placed h -> exists h' command, retrieve direction h = Ok (h', command) /\ placed h' /\ commands h' = commands h /\ last_displayed h' <> -1.
Proof using Type.
  intros Hp. unfold retrieve. pose proof (placed_stored h Hp) as Hs. pose proof Hp as [[Hn Hm] Hw [Hl1 Hl2]].
  assert (exists h1, match direction with
      | Previous => if reset h then Ok (h <| reset := false |>) else last ← checked (last_displayed h - 1); Ok (h <| last_displayed := last |>)
      | Next => last ← checked (last_displayed h + 1); Ok (h <| last_displayed := last |>)
      end = Ok h1 /\ stored h1 /\ commands h1 = commands h) as (h1 & -> & Hs1 & Hc1).
  { destruct direction; [destruct (reset h)|]; rewrite ?checked_ok by lia; (eexists; split; [reflexivity | split; [destruct Hs; by split | done]]). }
  cbn [mbind result_bind]. destruct (retrieve_nth_placed (last_displayed h1) h1 Hs1) as (h' & command & Hr & Hp' & Hc' & _ & Hl & _).
  exists h', command. rewrite Hc'. done.
Qed.

Lemma realloc_placed n h :
  placed h -> 0 <= n < 2 ^ 31 -> exists h', realloc n h = Ok h' /\ placed h' /\ commands h' = take (Z.to_nat n) (commands h) /\ max_commands h' = n.
Proof using Type.
  intros Hp Hn. pose proof Hp as [[Hc Hm] Hw Hl]. unfold realloc. destruct (Z.eqb_spec (max_commands h) n) as [He|Hne].
  { exists h. split_and!; [done | done | | done]. rewrite take_ge; [done | unfold zlen in Hc; lia]. }
  rewrite Z.max_l by lia. cbv zeta. set (h1 := h <| commands := _ |> <| reset := true |>).
  assert (zlen (commands h1) <= n /\ zlen (commands h1) <= zlen (commands h)) as [H1 H2] by (unfold h1, zlen; cbn; rewrite length_take; lia).
  assert ([] ∉ commands h1) as Hw1 by (intros Hin; apply Hw; eapply elem_of_sublist; [exact Hin | apply sublist_take]).
  assert (len h1 = zlen (commands h1)) as -> by (apply len_stored; split; [cbn in *; lia | exact Hw1 | cbn; lia]).
  pose proof (zlen_nonneg (commands h1)). rewrite checked_ok by lia. eexists. split; [reflexivity|]. split_and!; [|done|done].
  split; [cbn in *; lia | exact Hw1 | cbn in *; lia].
Qed.

Lemma empty_placed h : placed h -> placed (empty h).
Proof using Type. intros [[? ?] _ _]. pose proof (zlen_nonneg (commands h)). split; cbn; [unfold zlen; cbn; lia | apply not_elem_of_nil | lia]. Qed.

(** Two places exchanged. *)
Lemma swap_lookup a b h :
  len h = zlen (commands h) -> exists other : nat -> nat, (forall i j, other i = other j -> i = j) /\ forall i, commands (swap a b h) !! i = commands h !! other i.
Proof using Type.
  intros Hlen. unfold swap. cbv zeta.
  assert (exists other : nat -> nat, (forall i j, other i = other j -> i = j) /\ forall i, commands h !! i = commands h !! other i) as Hid by (by exists (fun i => i)).
  destruct (_ && _) eqn:Hg; [|exact Hid].
  destruct (commands h !! Z.to_nat a) as [x|] eqn:Ha; [|exact Hid]. destruct (commands h !! Z.to_nat b) as [y|] eqn:Hb; [|exact Hid].
  exists (fun i => if decide (i = Z.to_nat b) then Z.to_nat a else if decide (i = Z.to_nat a) then Z.to_nat b else i). split.
  - intros j k. repeat case_decide; congruence.
  - intros j. cbn. pose proof (lookup_lt_Some _ _ _ Ha). pose proof (lookup_lt_Some _ _ _ Hb).
    destruct (decide (j = Z.to_nat b)) as [->|]; [rewrite list_lookup_insert_eq by (rewrite length_insert; lia); done|].
    rewrite list_lookup_insert_ne by done. destruct (decide (j = Z.to_nat a)) as [->|]; [by rewrite list_lookup_insert_eq by lia|].
    by rewrite list_lookup_insert_ne by done.
Qed.
Lemma swap_placed a b h : placed h -> placed (swap a b h) /\ (NoDup (commands h) -> NoDup (commands (swap a b h))).
Proof using Type.
  intros Hp. destruct (swap_lookup a b h (len_placed h Hp)) as (other & Hinj & Hl). split.
  - assert (zlen (commands (swap a b h)) = zlen (commands h) /\ max_commands (swap a b h) = max_commands h /\ last_displayed (swap a b h) = last_displayed h)
      as (Hc & Hm & Ha) by (unfold swap, zlen; repeat case_match; cbn; rewrite ?length_insert; done).
    destruct Hp as [Hcount Hw Hat]. split; rewrite ?Hc, ?Hm, ?Ha; [done | | done].
    intros [i Hi]%list_elem_of_lookup. rewrite Hl in Hi. apply Hw. by apply list_elem_of_lookup_2 in Hi.
  - rewrite !NoDup_alt. intros Hnd i j x. rewrite !Hl. intros Hi Hj. by eapply Hinj, Hnd.
Qed.

(** ** A command entered *)
Section Add.
Context (command : list Z) (suppress : bool).

(** What suppression takes out: the command, if it is there. *)
Definition suppressed (l kept : list (list Z)) : Prop :=
  if suppress && bool_decide (command ∈ l) then exists i, l !! i = Some command /\ kept = delete i l else kept = l.

Lemma suppressed_placed h :
  placed h -> command <> [] -> (suppress = true -> ~ unplaced h) ->
  exists h' reuse, (if suppress then
      '(h, found) ← find command (last_displayed h) true false h;
      match found with
      | Some index => '(h, taken) ← remove index h; Ok (h, Some taken)
      | None => Ok (h, None)
      end
    else Ok (h, None)) = Ok (h', reuse) /\ placed h' /\ max_commands h' = max_commands h /\ suppressed (commands h) (commands h') /\
    default command reuse = command.
Proof using Type.
  intros Hp Hc Hun. unfold suppressed. destruct suppress; cbn [andb]; [|by exists h, None].
  destruct (find_whole command h Hp Hc (Hun eq_refl)) as (h1 & found & Hf & Hal & Hfound). rewrite Hf. cbn [mbind result_bind].
  pose proof (alike_placed _ _ Hal Hp) as Hp1. destruct Hal as (Hc1 & Hm1 & _). destruct found as [i|].
  - destruct Hfound as [Hi Hl]. destruct (remove_placed i h1 Hp1) as (h2 & taken & Hr & Hp2 & Hm2 & _ & Hc2 & Htaken). rewrite Hr. cbn [mbind result_bind].
    exists h2, (Some taken). split_and!; [done | done | congruence | | ].
    + rewrite bool_decide_eq_true_2 by (by apply list_elem_of_lookup_2 in Hl). exists (Z.to_nat i). split; [done|]. rewrite Hc2, Hc1.
      pose proof (lookup_lt_Some _ _ _ Hl). rewrite (proj2 (Z.leb_le _ _)), (proj2 (Z.ltb_lt _ _)) by (unfold zlen; lia). done.
    + rewrite Hc1, Hl in Htaken. by destruct (Htaken Hi) as [[= ->]|[? _]].
  - exists h1, None. split_and!; [done | done | done | by rewrite bool_decide_eq_false_2 | done].
Qed.

(** The command remembered, the oldest making room for it. *)
Lemma pushed_placed h :
  placed h -> command <> [] -> max_commands h <> 0 ->
  exists h', (h ← (if len h =? max_commands h then
                  _ ← expect (head (commands h));
                  last ← checked (last_displayed h - 1);
                  Ok (h <| commands := tail (commands h) |> <| last_displayed := last |>)
                else Ok h);
           let h := h <| commands := commands h ++ [command] |> in
           if (last_displayed h =? -1) || negb (bool_decide (nth (last_displayed h) h = command)) then reset_position h else Ok h) = Ok h' /\
    placed h' /\ max_commands h' = max_commands h /\ nth (last_displayed h') h' = command /\
    commands h' = (if zlen (commands h) =? max_commands h then tail (commands h) else commands h) ++ [command].
Proof using Type.
  intros Hp Hc Hm0. pose proof Hp as [[Hn Hm] Hw Hl]. rewrite (len_placed h Hp). pose proof (zlen_nonneg (commands h)).
  set (kept := if zlen (commands h) =? max_commands h then tail (commands h) else commands h).
  assert (exists h1, (if zlen (commands h) =? max_commands h then
                  _ ← expect (head (commands h));
                  last ← checked (last_displayed h - 1);
                  Ok (h <| commands := tail (commands h) |> <| last_displayed := last |>)
                else Ok h) = Ok h1 /\ commands h1 = kept /\ max_commands h1 = max_commands h /\
    zlen kept < max_commands h /\ [] ∉ kept) as (h1 & -> & Hc1 & Hm1 & Hroom & Hwords).
  { subst kept. destruct (Z.eqb_spec (zlen (commands h)) (max_commands h)) as [He|Hne]; [|by exists h; split_and!; [..|lia|]].
    rewrite checked_ok by lia. destruct (commands h) as [|first rest] eqn:Hcs; [unfold zlen in He; cbn in He; lia|].
    eexists. split; [reflexivity|]. split_and!; [done | done | unfold zlen in *; cbn in *; lia |]. intros Hin. apply Hw. by right. }
  cbn [mbind result_bind]. cbv zeta. set (h2 := h1 <| commands := commands h1 ++ [command] |>).
  assert (commands h2 = kept ++ [command]) as Hc2 by (by unfold h2; cbn; rewrite Hc1).
  assert (zlen (commands h2) = zlen kept + 1) as Hz2 by (rewrite Hc2; apply zlen_app).
  assert (stored h2) as Hs2.
  { split; cbn [commands max_commands last_displayed]; [unfold h2 in *; cbn in *; rewrite Hz2; lia | | pose proof (zlen_nonneg kept); cbn in *; lia].
    change ([] ∉ commands h2). rewrite Hc2. intros [Hin|Hin%list_elem_of_singleton]%elem_of_app; [done | congruence]. }
  pose proof (zlen_nonneg kept). pose proof (len_stored h2 Hs2) as Hlen2. pose proof Hs2 as [[_ Hm2] _ _]. change (max_commands h2 < 2 ^ 31) in Hm2.
  assert (max_commands h2 = max_commands h) as Hmax2 by exact Hm1.
  destruct (_ || _) eqn:Hat.
  - unfold reset_position. rewrite Hlen2, Hz2. rewrite checked_ok by lia. cbn [mbind result_bind]. eexists. split; [reflexivity|].
    split_and!; [| done | | done].
    + destruct Hs2 as [Hcount Hws _]. split; [exact Hcount | exact Hws |]. change (-1 <= zlen kept + 1 - 1 <= Z.max 0 (zlen (commands h2) - 1)). lia.
    + unfold nth. set (h3 := _ <| reset := true |>). assert (len h3 = zlen kept + 1) as -> by (rewrite <- Hz2, <- Hlen2; done).
      change (last_displayed h3) with (zlen kept + 1 - 1). change (commands h3) with (commands h2). rewrite Hc2.
      rewrite (proj2 (Z.leb_le _ _)), (proj2 (Z.ltb_lt _ _)) by lia. cbn [andb]. rewrite lookup_app_r by (unfold zlen; lia).
      replace (Z.to_nat (zlen kept + 1 - 1) - length kept)%nat with 0%nat by (unfold zlen; lia). done.
  - apply orb_false_iff in Hat as [Hat1 Hat2]. apply negb_false_iff, bool_decide_eq_true in Hat2. exists h2. split_and!; [done | | done | done | done].
    apply stored_placed; [done|]. unfold nth in Hat2. rewrite Hlen2 in Hat2.
    destruct (Z.leb_spec 0 (last_displayed h2)), (Z.ltb_spec (last_displayed h2) (zlen (commands h2))); cbn [andb] in Hat2; [lia | congruence..].
Qed.

(** What entering a command does: nothing where nothing may be remembered; no second
    time in a row; or it is the newest, the oldest falling off, and the place shown. *)
Lemma add_placed h :
  placed h -> (suppress = true -> ~ unplaced h) ->
  exists h', add command suppress h = Ok h' /\ placed h' /\ max_commands h' = max_commands h /\
  if (max_commands h =? 0) || bool_decide (command = []) then h' = h
  else reset h' = true /\
    if bool_decide (last (commands h) = Some command) then commands h' = commands h /\ last_displayed h' = last_displayed h
    else last_command h' = command /\ exists kept, suppressed (commands h) kept /\
      commands h' = (if zlen kept =? max_commands h then tail kept else kept) ++ [command].
Proof using Type.
  intros Hp Hun. unfold add. destruct (_ || _) eqn:Hnone; [by exists h|].
  apply orb_false_iff in Hnone as [Hm0%Z.eqb_neq Hc%bool_decide_eq_false].
  case_bool_decide as Hlast; [by eexists; split; [reflexivity|]; split; [destruct Hp; by split|]|].
  destruct (suppressed_placed h Hp Hc Hun) as (h1 & reuse & Hs & Hp1 & Hm1 & Hsup & Hreuse).
  destruct (pushed_placed h1 Hp1 Hc ltac:(congruence)) as (h2 & Hpush & Hp2 & Hm2 & Hshown & Hc2).
  rewrite Hs. cbn [mbind result_bind]. rewrite Hreuse. cbn [mbind result_bind] in Hpush. rewrite Hpush.
  eexists. split; [reflexivity|]. split; [destruct Hp2; by split|]. split; [by cbn; rewrite Hm2|]. split; [done|]. split; [exact Hshown|].
  exists (commands h1). split; [done|]. by rewrite <- Hm1.
Qed.
End Add.

(** ** A search, command by command *)

Lemma find_first {A} (p : A -> bool) l :
  match List.find p l with
  | Some a => exists i, l !! i = Some a /\ p a = true /\ forall j b, (j < i)%nat -> l !! j = Some b -> p b = false
  | None => forall a, a ∈ l -> p a = false
  end.
Proof using Type.
  induction l as [|a l IH]; [by intros a ?%elem_of_nil|]. cbn [List.find]. destruct (p a) eqn:Ha.
  - exists 0%nat. split_and!; [done | done | lia].
  - destruct (List.find p l) as [b|].
    + destruct IH as (i & Hi & Hb & Hbefore). exists (Datatypes.S i). split_and!; [done | done |]. intros [|j] c Hj Hc; [by injection Hc as <- | eapply (Hbefore j); [lia | done]].
    + intros b [->|Hb]%elem_of_cons; [done | by apply IH].
Qed.
Lemma backwards_lookup k n (i : nat) : Z.of_nat i < n -> backwards k n !! i = Some ((k - Z.of_nat i) `mod` n).
Proof using Type. intros Hi. unfold backwards. rewrite list_lookup_fmap, lookup_seqZ_lt by lia. cbn. by rewrite Z.add_0_l. Qed.

(** C34. A search goes around the list once, towards older commands: it starts at the command shown
    while the reset flag is on and it is not only looking, and turns the flag off; otherwise at the one before it.
    It finds the nearest from there that begins with what is looked for, or is it; or there is none.
    It leaves the commands and the place as they were. The one way it panics is to start at a command that was deleted. *)
Theorem a_search_goes_around_once prefix exact just_looking h :
  placed h -> commands h <> [] -> prefix <> [] ->
  let n := zlen (commands h) in let from := first_place just_looking h in
  (reset h = true /\ just_looking = false /\ last_displayed h = -1 /\
   find prefix (last_displayed h) exact just_looking h = Panic) \/
  exists found, find prefix (last_displayed h) exact just_looking h = Ok (looked just_looking h, found) /\
  alike h (looked just_looking h) /\ 0 <= from < n /\
  match found with
  | Some i => exists back, 0 <= back < n /\ i = (from - back) `mod` n /\ matches prefix exact (command_at h i) = true /\
      forall nearer, 0 <= nearer < back -> matches prefix exact (command_at h ((from - nearer) `mod` n)) = false
  | None => forall command, command ∈ commands h -> matches prefix exact command = false
  end.
Proof using Type.
  intros Hp Hne Hpre n from.
  destruct (decide (reset h = true /\ just_looking = false /\ last_displayed h = -1)) as [(Hr & -> & Hl)|Hat].
  { left. split_and!; [done | done | done |]. by apply find_unplaced. }
  right. assert (reset h = true -> just_looking = false -> last_displayed h <> -1) as Hat' by tauto.
  destruct (find_placed prefix exact just_looking h Hp Hne Hat') as [Hk Hf].
  eexists. split; [exact Hf|]. rewrite bool_decide_eq_false_2 by done.
  split; [unfold looked; destruct (negb _ && _); by split_and!|]. split; [done|]. fold n from. fold n from in Hk.
  pose proof (find_first (fun i => matches prefix exact (command_at h i)) (backwards from n)) as Hfirst. destruct (List.find _ _) as [i|].
  - destruct Hfirst as (back & Hi & Hm & Hbefore). pose proof (lookup_lt_Some _ _ _ Hi) as Hlt.
    unfold backwards in Hlt. rewrite length_fmap, length_seqZ in Hlt. rewrite backwards_lookup in Hi by lia. injection Hi as <-.
    exists (Z.of_nat back). split_and!; [lia | lia | done | done |]. intros nearer Hn. apply (Hbefore (Z.to_nat nearer)); [lia|].
    rewrite backwards_lookup by lia. by rewrite Z2Nat.id by lia.
  - intros command [i Hi]%list_elem_of_lookup. pose proof (lookup_lt_Some _ _ _ Hi).
    specialize (Hfirst (Z.of_nat i) (backwards_covers from n (Z.of_nat i) Hk ltac:(unfold n, zlen; lia))). unfold command_at in Hfirst.
    by rewrite Nat2Z.id, Hi in Hfirst.
Qed.

(** ** Any calls on a list *)

Inductive call :=
  | Add (command : list Z) (suppress : bool) | Look (prefix : list Z) (exact just_looking : bool)
  | Recall (direction : Direction) | RecallAt (index : Z) | Remove (index : Z) | Swap (a b : Z) | Empty | Realloc (n : Z).
Definition perform (c : call) h : result E CommandHistory :=
  match c with
  | Add command suppress => add command suppress h
  | Look prefix exact just_looking => fst <$> find prefix (last_displayed h) exact just_looking h
  | Recall direction => fst <$> retrieve direction h
  | RecallAt index => fst <$> retrieve_nth index h
  | Remove index => fst <$> remove index h
  | Swap a b => Ok (swap a b h)
  | Empty => Ok (empty h)
  | Realloc n => realloc n h
  end.
Fixpoint run (calls : list call) h : result E CommandHistory :=
  match calls with [] => Ok h | c :: calls => h ← perform c h; run calls h end.
(** A size is not past the range of an index. *)
Definition sized (c : call) : Prop := match c with Realloc n => 0 <= n < 2 ^ 31 | _ => True end.
Definition searches (c : call) : Prop :=
  match c with Add _ true => True | Look prefix _ false => prefix <> [] | _ => False end.
Definition suppresses (c : call) : Prop := match c with Add _ suppress => suppress = true | _ => True end.

#[local] Instance unplaced_dec h : Decision (unplaced h).
Proof using Type. unfold unplaced. apply _. Defined.
Lemma search_or_not c h : unplaced h /\ searches c \/ ~ (unplaced h /\ searches c).
Proof using Type.
  assert (Decision (searches c)) as Hd by (destruct c as [? []|? ? []| | | | | |]; cbn; apply _).
  destruct (decide (unplaced h /\ searches c)); [by left | by right].
Qed.
Lemma delete_once (l : list (list Z)) i c : NoDup l -> l !! i = Some c -> NoDup (delete i l) /\ c ∉ delete i l.
Proof using Type.
  intros Hnd Hi. rewrite (delete_Permutation l i c Hi) in Hnd. by apply NoDup_cons in Hnd as [? ?].
Qed.
Lemma suppressed_once command (l kept : list (list Z)) : NoDup l -> suppressed command true l kept -> NoDup (kept ++ [command]).
Proof using Type.
  intros Hnd Hs. unfold suppressed in Hs. cbn [andb] in Hs. apply NoDup_app. assert (NoDup kept /\ command ∉ kept) as [Hk Hc].
  { case_bool_decide as Hin; [destruct Hs as (i & Hi & ->); by apply delete_once | by subst]. }
  split_and!; [done | intros x Hx ->%list_elem_of_singleton; done | apply NoDup_singleton].
Qed.
Lemma perform_placed c h :
  placed h -> sized c -> ~ (unplaced h /\ searches c) ->
  exists h', perform c h = Ok h' /\ placed h' /\ (suppresses c -> NoDup (commands h) -> NoDup (commands h')).
Proof using Type.
  intros Hp Hc Hsearch. destruct c as [command suppress|prefix exact jl|direction|index|index|a b| |n]; cbn [perform].
  - destruct (add_placed command suppress h Hp) as (h' & Ha & Hp' & _ & Hspec); [intros -> Hun; by apply Hsearch|].
    exists h'. split_and!; [done | done |]. cbn [suppresses]. intros -> Hnd. destruct (_ || _); [by subst|]. destruct Hspec as [_ Hspec].
    case_bool_decide; [by destruct Hspec as [-> _]|]. destruct Hspec as [_ (kept & Hsup & ->)]. pose proof (suppressed_once _ _ _ Hnd Hsup) as Hk.
    destruct (_ =? _); [|done]. destruct kept; [done|]. by apply NoDup_cons in Hk as [_ ?].
  - destruct (decide (commands h = [])) as [Hnil|Hne].
    { exists h. unfold find. by rewrite bool_decide_eq_true_2 by done. }
    destruct (decide (unplaced h /\ jl = false)) as [[Hun ->]|Hun].
    { assert (prefix = []) as -> by (destruct (decide (prefix = [])); [done | exfalso; by apply Hsearch]).
      exists (looked false h). split; [|split; [by apply looked_placed | unfold looked; by destruct (negb _ && _)]].
      destruct Hun as (Hr & Hl & _). unfold find, looked. rewrite bool_decide_eq_false_2 by done. by rewrite Hr. }
    destruct (find_placed prefix exact jl h Hp Hne) as [_ ->]; [intros Hr -> Hl; by apply Hun|].
    exists (looked jl h). split; [done|]. split; [by apply looked_placed | unfold looked; by destruct (negb _ && _)].
  - destruct (retrieve_placed direction h Hp) as (h' & command & -> & Hp' & Hc' & _). exists h'. by rewrite Hc'.
  - destruct (retrieve_nth_placed index h (placed_stored h Hp)) as (h' & command & -> & Hp' & Hc' & _). exists h'. by rewrite Hc'.
  - destruct (remove_placed index h Hp) as (h' & command & -> & Hp' & _ & _ & Hc' & _). exists h'. split_and!; [done | done |]. intros _ Hnd. rewrite Hc'.
    destruct (_ && _); [|done]. eapply sublist_NoDup; [exact Hnd | apply sublist_delete].
  - destruct (swap_placed a b h Hp) as [Hp' Hnd]. by exists (swap a b h).
  - exists (empty h). split_and!; [done | by apply empty_placed | intros _ _; apply NoDup_nil_2].
  - destruct (realloc_placed n h Hp Hc) as (h' & -> & Hp' & Hc' & _). exists h'. split_and!; [done | done |]. intros _ Hnd. rewrite Hc'.
    eapply sublist_NoDup; [exact Hnd | apply sublist_take].
Qed.

(** A search where the place is gone: nothing to search for, or a panic. *)
Lemma perform_unplaced c h :
  placed h -> unplaced h -> searches c ->
  perform c h = Panic \/ exists h', perform c h = Ok h' /\ placed h' /\ commands h' = commands h.
Proof using Type.
  intros Hp Hun Hc. destruct c as [command [] | prefix exact [] | | | | | |]; try done; cbn [perform searches] in *.
  - unfold add. destruct (_ || _) eqn:Hnone; [right; by exists h|]. apply orb_false_iff in Hnone as [_ Hne%bool_decide_eq_false].
    case_bool_decide; [right; eexists; split; [reflexivity|]; split; [destruct Hp; by split | done]|].
    left. by rewrite find_unplaced.
  - left. by rewrite find_unplaced.
Qed.

(** C29. Whatever is done with a list of commands, it never holds more than it may (a size below 2^31;
    a larger one counts as negative, [SampleHistory.a_huge_size_is_no_bound]), nor an empty
    command, its place stays in it, and, where every entry suppresses duplicates, no command is in
    it twice; the one way it panics is a search made while the command last shown is gone. *)
Theorem history_keeps_its_place calls h :
  placed h -> Forall sized calls ->
  (exists h', run calls h = Ok h' /\ placed h' /\ (Forall suppresses calls -> NoDup (commands h) -> NoDup (commands h'))) \/
  (run calls h = Panic /\ exists before c after h1, calls = before ++ c :: after /\ run before h = Ok h1 /\ unplaced h1 /\ searches c).
Proof using Type.
  intros Hp Hcalls. revert h Hp. induction Hcalls as [|c calls Hc _ IH]; intros h Hp; [left; by exists h|]. cbn [run].
  assert (perform c h = Panic /\ unplaced h /\ searches c \/
    exists h1, perform c h = Ok h1 /\ placed h1 /\ (suppresses c -> NoDup (commands h) -> NoDup (commands h1))) as [(-> & Hun & Hs)|(h1 & Hr & Hp1 & Hnd)].
  { destruct (search_or_not c h) as [[Hun Hs]|Hno]; [|right; by apply perform_placed].
    destruct (perform_unplaced c h Hp Hun Hs) as [Hr|(h1 & Hr & Hp1 & Hc1)]; [by left | right; exists h1; by rewrite Hc1]. }
  - right. split; [done|]. by exists [], c, calls, h.
  - rewrite Hr. cbn [mbind result_bind]. destruct (IH h1 Hp1) as [(h2 & -> & Hp2 & Hnd2)|(-> & before & c' & after & h2 & -> & Hb & Hun & Hs)].
    + left. exists h2. split_and!; [done | done |]. intros [Hc1 Hcs]%Forall_cons Hn. auto.
    + right. split; [done|]. exists (c :: before), c', after, h2. cbn [app run]. by rewrite Hr.
Qed.

(** ** The list a client gets *)

Lemma best_free_entries entries best :
  let r := foldl emptier best entries in
  (r = best \/ exists i h, (i, h) ∈ entries /\ owner h = None /\ r = Some (bool_decide (commands h = []), i)) /\
  (is_Some best \/ (exists i h, (i, h) ∈ entries /\ owner h = None) -> is_Some r) /\
  ((exists i, best = Some (true, i)) \/ (exists i h, (i, h) ∈ entries /\ owner h = None /\ commands h = []) -> exists i, r = Some (true, i)).
Proof using Type.
  revert best. induction entries as [|[i h] entries IH]; intros best r.
  { split_and!; [by left | | ]; intros [?|Hno]; try done; by destruct Hno as (? & ? & ?%elem_of_nil & _). }
  unfold r. cbn [foldl]. destruct (IH (emptier best (i, h))) as (Hfrom & Hsome & Hempty). split_and!.
  - destruct Hfrom as [->|(j & g & Hin & Hg & ->)]; [|right; exists j, g; split_and!; [by right | done | done]]. unfold emptier.
    case_bool_decide as Ho; [|by left]. destruct (_ || _); cbn [andb]; [right; exists i, h; split_and!; [by left | done | done] | by left].
  - intros Hs. apply Hsome. destruct Hs as [[b Hb]|(j & g & [[= -> ->]|Hin]%elem_of_cons & Hg)].
    + left. subst best. unfold emptier. destruct (_ && _); eauto.
    + left. unfold emptier. rewrite bool_decide_eq_true_2 by done. destruct best as [[be bi]|]; cbn [andb]; [|rewrite orb_true_r; eauto]. destruct (_ || _); eauto.
    + right. by exists j, g.
  - intros Hs. apply Hempty. destruct Hs as [[b Hb]|(j & g & [[= -> ->]|Hin]%elem_of_cons & Hg & Hcg)].
    + left. subst best. unfold emptier. case_bool_decide; cbn [andb negb]; [|by exists b]. case_bool_decide; cbn [orb]; [by exists i | by exists b].
    + left. unfold emptier. rewrite !bool_decide_eq_true_2 by done. by exists i.
    + right. by exists j, g.
Qed.
(** It is free, and empty if a free list is. *)
Lemma best_free_spec l :
  match best_free l with
  | Some i => exists h, l !! i = Some h /\ owner h = None /\ ((exists g, g ∈ l /\ owner g = None /\ commands g = []) -> commands h = [])
  | None => forall h, h ∈ l -> owner h <> None
  end.
Proof using Type.
  unfold best_free. destruct (best_free_entries (imap pair l) None) as (Hfrom & Hsome & Hempty).
  assert (forall i h, (i, h) ∈ imap pair l <-> l !! i = Some h) as Hin.
  { intros i h. rewrite list_elem_of_lookup. split.
    - intros [j Hj]. rewrite list_lookup_imap in Hj. destruct (l !! j) eqn:Hl; [by injection Hj as -> -> | done].
    - intros Hl. exists i. by rewrite list_lookup_imap, Hl. }
  destruct (foldl emptier None (imap pair l)) as [[b i]|] eqn:Hr; cbn [fmap option_fmap option_map snd].
  - destruct Hfrom as [[=]|(j & h & Hj & Ho & [= -> ->])]. apply Hin in Hj. exists h. split_and!; [done | done |].
    intros (g & Hg & Hog & Hcg). apply list_elem_of_lookup in Hg as [k Hk]. destruct Hempty as [m Hm]; [right; exists k, g; by rewrite Hin|].
    injection Hm as Hm _. by apply bool_decide_eq_true in Hm.
  - intros h [k Hk]%list_elem_of_lookup Ho. destruct Hsome as [? [=]]. right. exists k, h. by rewrite Hin.
Qed.

(** A client is given a list of its own while there is room for one or a list is free: the one
    its application left, with its commands, if there is one; else an empty one. It takes no list
    from a client, puts no more lists than the console may keep, and a list that must be cleared
    for it is an empty one if one is free. *)
Theorem a_client_is_given_a_list name client hs :
  zlen (lists hs) < buffers hs \/ (exists h, h ∈ lists hs /\ owner h = None) ->
  exists h lost rest, lists (allocate name client hs) = h :: rest /\ owner h = Some client /\ same_name (application h) name = true /\
  lists hs ≡ₚ lost ++ rest /\ Forall (fun g => owner g = None) lost /\
  zlen (h :: rest) <= Z.max (zlen (lists hs)) (buffers hs) /\
  if existsb (free_of name) (lists hs) then exists g, lost = [g] /\ free_of name g = true /\ commands h = commands g
  else commands h = [] /\ last_displayed h = -1 /\ forall g, g ∈ lost -> (exists e, e ∈ lists hs /\ owner e = None /\ commands e = []) -> commands g = [].
Proof using Type.
  intros Hserve. unfold allocate. pose proof (position_finds (free_of name) (lists hs)) as Hsame.
  assert (same_name name name = true) as Hrefl by (by apply bool_decide_eq_true).
  destruct (position (free_of name) (lists hs)) as [i|].
  - destruct Hsame as (h & Hi & Hfree). rewrite bool_decide_eq_false_2 by done. cbn [andb option_or]. rewrite Hi.
    pose proof Hfree as Hof. unfold free_of in Hof. apply andb_true_iff in Hof as [Ho%bool_decide_eq_true Hn].
    eexists _, [h], _. split; [reflexivity|]. split_and!; [done | done | by apply delete_Permutation | by constructor | |].
    + unfold zlen. cbn [length]. rewrite length_delete by (by exists h). pose proof (lookup_lt_Some _ _ _ Hi). lia.
    + assert (existsb (free_of name) (lists hs) = true) as ->.
      { apply existsb_exists. exists h. split; [by apply list_elem_of_In, list_elem_of_lookup_2 in Hi || apply list_elem_of_In; by apply list_elem_of_lookup_2 in Hi | done]. }
      by exists h.
  - assert (existsb (free_of name) (lists hs) = false) as ->.
    { apply not_true_is_false. intros (g & Hg & Hp)%existsb_exists. rewrite <- list_elem_of_In in Hg. by rewrite (Hsame g Hg) in Hp. }
    rewrite bool_decide_eq_true_2 by done. cbn [andb option_or]. destruct (Z.ltb_spec (zlen (lists hs)) (buffers hs)) as [Hroom|Hfull].
    + eexists _, [], _. split; [reflexivity|]. split_and!; [done | done | done | constructor | unfold zlen in *; cbn [length]; lia | done | done | by intros g ?%elem_of_nil].
    + destruct Hserve as [?|(g & Hg & Hog)]; [lia|]. pose proof (best_free_spec (lists hs)) as Hbest.
      destruct (best_free (lists hs)) as [i|]; [|by apply Hbest in Hg]. destruct Hbest as (h & Hi & Ho & Hemp). rewrite Hi.
      eexists _, [h], _. split; [reflexivity|]. split_and!; [done | done | by apply delete_Permutation | by constructor | | done | done |].
      * unfold zlen. cbn [length]. rewrite length_delete by (by exists h). pose proof (lookup_lt_Some _ _ _ Hi). lia.
      * intros e ->%list_elem_of_singleton. exact Hemp.
Qed.
End History.

(** ** A console's history *)
Module SampleHistory.
#[local] Instance plain_names : Lowercase := { lowercase name := name }.
Definition typed (l : list (list Z)) : result unit CommandHistory :=
  run ((fun c => Add c false) <$> l) (mkHistory [] 50 [1] (Some 7) false (-1)).
Definition dir_a : list Z := [4; 9; 1].
Definition dir_b : list Z := [4; 9; 2].
Definition echo : list Z := [5; 3].

Example walks_back : (h ← typed [dir_a; echo; dir_b]; '(h, c) ← retrieve Previous h; '(h, d) ← retrieve Previous h; Ok (c, d)) = Ok (dir_b, echo).
Proof. reflexivity. Qed.
Example moves_a_duplicate : (h ← typed [dir_a; echo]; h ← add dir_a true h; Ok (commands h)) = Ok [echo; dir_a].
Proof. reflexivity. Qed.

(** The command last shown deleted from the list, then a search for what was typed. *)
Lemma search_after_deletion_panics :
  run (E:=unit) [Add dir_a false; Add echo false; Remove 1; Look [4] false false] (mkHistory [] 50 [1] (Some 7) false (-1)) = Panic.
Proof. reflexivity. Qed.

(** A size of 2^31 and more is taken for a negative one: the list is emptied, and from then on never full. *)
Lemma a_huge_size_is_no_bound :
  (forall size name h rest,
     2 ^ 31 <= size < 2 ^ 32 -> owner h <> None -> application h = name -> 0 <= max_commands h ->
     exists h', realloc_application (E:=unit) name size (mkHistories (h :: rest) 50 4 0) = Ok (mkHistories (h' :: rest) 50 4 0) /\
       commands h' = [] /\ max_commands h' < 0) /\
  (forall command h, max_commands h < 0 -> zlen (commands h) < 2 ^ 31 - 1 -> command <> [] -> last (commands h) <> Some command ->
     exists h', add (E:=unit) command false h = Ok h' /\ commands h' = commands h ++ [command] /\ max_commands h' = max_commands h).
Proof.
  assert (forall z, 0 <= z < 2 ^ 31 -> as_i32 z = z) as Hsmall.
  { intros z Hz. unfold as_i32, wrap. rewrite Z.mod_small by lia. by rewrite (proj2 (Z.ltb_lt _ _)) by lia. }
  split.
  - intros size name h rest Hs Ho <- Hm. unfold realloc_application. cbn [lists position].
    assert (live_of (application h) h = true) as -> by (unfold live_of, same_name; destruct (owner h); [by rewrite !bool_decide_eq_true_2 by (done || by eexists) | done]).
    cbn [expect lookup list_lookup mbind result_bind].
    assert (as_i32 size = size - 2 ^ 32) as ->.
    { unfold as_i32, wrap. rewrite Z.mod_small by lia. by rewrite (proj2 (Z.ltb_ge _ _)) by lia. }
    unfold realloc. rewrite (proj2 (Z.eqb_neq _ _)) by lia. rewrite Z.max_r by lia. cbn. eexists. split; [reflexivity|]. cbn. split; [done | lia].
  - intros command h Hm Hlen Hne Hlast. unfold add. rewrite (proj2 (Z.eqb_neq _ _)) by lia. rewrite !bool_decide_eq_false_2 by done.
    cbn [orb mbind result_bind]. pose proof (zlen_nonneg (commands h)). unfold len at 1. rewrite Hsmall by lia. rewrite (proj2 (Z.eqb_neq _ _)) by lia.
    cbn [default mbind result_bind]. set (h1 := h <| commands := _ |>).
    assert (zlen (commands h1) = zlen (commands h) + 1) as Hl1 by apply zlen_app.
    destruct (_ || _); [|by eexists]. unfold reset_position, len. rewrite Hsmall, Hl1 by lia. unfold checked.
    rewrite (proj2 (Z.leb_le _ _)), (proj2 (Z.ltb_lt _ _)) by lia. cbn [andb mbind result_bind]. by eexists.
Qed.

Definition three : CommandHistory := mkHistory [dir_a; echo; dir_b] 50 [1] (Some 7) true 2.
Lemma three_placed : placed three.
Proof.
  split; [by vm_compute | | by vm_compute]. change (commands three) with [dir_a; echo; dir_b].
  rewrite !elem_of_cons, elem_of_nil. by intros [|[|[|]]].
Qed.
Lemma three_distinct : NoDup (commands three).
Proof. refine (bool_decide_unpack _ _). by vm_compute. Qed.
Lemma a_search_goes_around_once_witness :
  find (E:=unit) [4; 9] 2 false false three = Ok (looked false three, Some 2) /\ alike three (looked false three).
Proof.
  destruct (a_search_goes_around_once (E:=unit) [4; 9] false false three three_placed) as [(_ & _ & Hl & _)|(found & Hf & Hal & _)]; [discriminate.. |].
  assert (found = Some 2) as -> by (vm_compute in Hf; congruence). exact (conj Hf Hal).
Defined.

Definition session_calls : list call := [Add dir_b true; Recall Previous; Look [4] false false; Swap 0 1; Remove 0; Add echo true; Realloc 2].
Lemma history_keeps_its_place_witness :
  exists h', run (E:=unit) session_calls three = Ok h' /\ placed h' /\ NoDup (commands h').
Proof.
  destruct (history_keeps_its_place (E:=unit) session_calls three three_placed) as [(h' & Hr & Hp & Hn)|(Hr & _)].
  - repeat constructor; vm_compute; congruence.
  - exists h'. refine (conj Hr (conj Hp (Hn _ _))); [repeat constructor | exact three_distinct].
  - exfalso. vm_compute in Hr. discriminate.
Defined.

Definition console : Histories :=
  allocate [2] 8 (free 7 (allocate [1] 7 (mkHistories [] 50 2 0))).
Lemma a_client_is_given_a_list_witness :
  exists h rest, lists (allocate [1] 9 console) = h :: rest /\ owner h = Some 9 /\ length rest = 1%nat.
Proof.
  destruct (a_client_is_given_a_list [1] 9 console) as (h & lost & rest & Hl & Ho & _).
  - right. exists (mkHistory [] 50 [1] None false (-1)). split; [|reflexivity]. right. left.
  - exists h, rest. refine (conj Hl (conj Ho _)). assert (tail (lists (allocate [1] 9 console)) = rest) as <- by (rewrite Hl; reflexivity). reflexivity.
Defined.
End SampleHistory.
End History.
