(* ===== verification/Alias.v ===== *)
(** * The aliases of the console host

    Models [crates/console-server/src/alias.rs]: what a program's lines are replaced
    by before it reads them.  Text is UTF-16 units; a [BTreeMap] is a finite map, its
    order that of its keys; lower case is the class [Lowercase] of [History]. *)
From Stdlib Require Import ZArith Lia List Bool.
From stdpp Require Import base numbers list gmap sorting.
From S2P Require Import Prelude History.
Open Scope Z_scope.
Open Scope zetta_scope.

Module Alias.
Import History.

Section Alias.
Context `{Lowercase} {E : Type}.

Abbreviation AliasMap := (gmap (list Z) (list Z)).
Record Aliases := mkAliases { entries : list (list Z * AliasMap) }.
Definition default_aliases : Aliases := mkAliases [].

Definition lower (text : list Z) : list Z := lowercase text.
(** [exes.iter().position(|(name, _)| *name == key)] *)
Definition exe_position (key : list Z) (a : Aliases) : option nat := position (fun e => bool_decide (e.1 = key)) (entries a).
Definition exe (name : list Z) (a : Aliases) : option AliasMap :=
  i ← exe_position (lower name) a; snd <$> entries a !! i.

Definition add (source target name : list Z) (a : Aliases) : Aliases * bool :=
  if bool_decide (source = []) then (a, false)
  else
    let name := lower name in
    let source := lower source in
    let at_ := exe_position name a in
    if bool_decide (target = []) then
      match at_ with
      | Some index => (mkAliases (alter (fun e => (e.1, delete source e.2)) index (entries a)), true)
      | None => (a, true)
      end
    else
      let '(index, l) := match at_ with
        | Some index => (index, entries a)
        | None => (length (entries a), entries a ++ [(name, ∅)])
        end in
      (mkAliases (alter (fun e => (e.1, <[source := target]> e.2)) index l), true).

Definition get (source name : list Z) (a : Aliases) : option (list Z) :=
  map ← exe name a;
  target ← map !! lower source;
  if bool_decide (target = []) then None else Some target.

(** The order of [Vec<u16>]. *)
Fixpoint units_le (a b : list Z) : bool :=
  match a, b with
  | [], _ => true
  | _ :: _, [] => false
  | x :: a, y :: b => (x <? y) || ((x =? y) && units_le a b)
  end.
Definition in_order (map : AliasMap) : list (list Z * list Z) := merge_sort (fun p q => units_le p.1 q.1) (map_to_list map).
Definition list_aliases (name : list Z) (a : Aliases) : list Z :=
  match exe name a with
  | Some map => concat ((fun p => p.1 ++ 0x3d :: p.2 ++ [0]) <$> in_order map)
  | None => []
  end.
Definition exes (a : Aliases) : list Z := concat ((fun e => e.1 ++ [0]) <$> entries a).
Definition clear_cmd (a : Aliases) : Aliases :=
  match exe_position (lower [0x63; 0x6d; 0x64; 0x2e; 0x65; 0x78; 0x65]) a with
  | Some i => mkAliases (alter (fun e => (e.1, ∅)) i (entries a))
  | None => a
  end.

(** ** Expansion *)
Definition space : Z := 0x20.
(** [&line[start..end]], which panics out of its range *)
Definition slice (first last : nat) (line : list Z) : result E (list Z) :=
  if (first <=? last)%nat && (last <=? length line)%nat then Ok (take (last - first) (drop first line)) else Panic.
Definition slice_from (first : nat) (line : list Z) : result E (list Z) := slice first (length line) line.

(** The words of a line with where they start, ten at most. *)
Fixpoint split_args (fuel : nat) (line : list Z) (start : nat) (args : list (nat * list Z)) : result E (list (nat * list Z)) :=
  match fuel with
  | O => Panic
  | S fuel =>
      if negb ((start <? length line)%nat && (length args <? 10)%nat) then Ok args
      else
        rest ← slice_from start line;
        let last := match position (fun unit => unit =? space) rest with Some offset => (start + offset)%nat | None => length line end in
        if Nat.eqb last start then Ok args
        else
          word ← slice start last line;
          let args := args ++ [(start, word)] in
          after ← slice_from last line;
          match position (fun unit => negb (unit =? space)) after with
          | Some offset => split_args fuel line (last + offset)%nat args
          | None => Ok args
          end
  end.
Definition words (line : list Z) : result E (list (nat * list Z)) := split_args 11 line O [].

Definition lowered (next : Z) : Z := if (0x41 <=? next) && (next <=? 0x5a) then next + 32 else next.
(** What follows a dollar sign: the units, and the lines they end. *)
Definition macro (next : Z) (line : list Z) (args : list (nat * list Z)) : result E (list Z * Z) :=
  let c := lowered next in
  if (0x31 <=? c) && (c <=? 0x39) then
    Ok (match args !! Z.to_nat (c - 0x30) with Some (_, arg) => arg | None => [] end, 0)
  else if c =? 0x2a then
    match args !! 1%nat with Some (offset, _) => rest ← slice_from offset line; Ok (rest, 0) | None => Ok ([], 0) end
  else if c =? 0x6c then Ok ([0x3c], 0)
  else if c =? 0x67 then Ok ([0x3e], 0)
  else if c =? 0x62 then Ok ([0x7c], 0)
  else if c =? 0x74 then Ok ([13; 10], 1)
  else Ok ([0x24; next], 0).
Fixpoint replaced (units line : list Z) (args : list (nat * list Z)) : result E (list Z * Z) :=
  match units with
  | [] => Ok ([], 0)
  | [unit] => Ok ([unit], 0)
  | unit :: (next :: units) as rest =>
      if negb (unit =? 0x24) then '(out, lines) ← replaced rest line args; Ok (unit :: out, lines)
      else
        '(text, ended) ← macro next line args;
        '(out, lines) ← replaced units line args;
        Ok (text ++ out, ended + lines)
  end.
Definition expand (line name : list Z) (a : Aliases) : result E (option (list Z * Z)) :=
  match exe name a with
  | None => Ok None
  | Some map =>
      if bool_decide (map = ∅) then Ok None
      else
        args ← words line;
        match head args with
        | None => Ok None
        | Some (_, name) =>
            match map !! lower name with
            | Some target =>
                if bool_decide (target = []) then Ok None
                else '(out, lines) ← replaced target line args; Ok (Some (out ++ [13; 10], lines + 1))
            | None => Ok None
            end
        end
  end.

(** ** The aliases as a map *)

Lemma position_alter {A} (p : A -> bool) f i l : (forall a, p (f a) = p a) -> position p (alter f i l) = position p l.
Proof using Type.
  intros Hp. revert i. induction l as [|a l IH]; intros [|i]; [done | done | |]; cbn [alter list_alter position].
  - by rewrite Hp.
  - destruct (p a); [done|]. f_equal. apply IH.
Qed.
Lemma position_snoc {A} (p : A -> bool) l a :
  position p (l ++ [a]) = match position p l with Some i => Some i | None => if p a then Some (length l) else None end.
Proof using Type.
  induction l as [|b l IH]; [cbn; by destruct (p a)|]. cbn [app position length]. destruct (p b); [done|]. rewrite IH.
  destruct (position p l); [done|]. by destruct (p a).
Qed.

(** The map of a name when the map at a place changes. *)
Lemma exe_alter key i f l name :
  position (fun e => bool_decide (e.1 = key)) l = Some i ->
  exe name (mkAliases (alter (fun e => (e.1, f e.2)) i l)) = if decide (lower name = key) then f <$> exe name (mkAliases l) else exe name (mkAliases l).
Proof using Type.
  intros Hi. unfold exe, exe_position. cbn [entries]. rewrite position_alter by done. case_decide as Hk.
  - rewrite Hk, Hi. cbn [mbind option_bind]. rewrite list_lookup_alter_eq. by destruct (l !! i).
  - destruct (position (fun e : list Z * AliasMap => bool_decide (e.1 = lower name)) l) as [j|] eqn:Hj; [|done]. cbn [mbind option_bind]. destruct (decide (j = i)) as [->|Hne]; [|by rewrite list_lookup_alter_ne].
    exfalso. apply Hk. pose proof (position_finds (fun e : list Z * AliasMap => bool_decide (e.1 = key)) l) as H1.
    pose proof (position_finds (fun e : list Z * AliasMap => bool_decide (e.1 = lower name)) l) as H2. rewrite Hi in H1. rewrite Hj in H2.
    destruct H1 as (e1 & He1 & Hp1%bool_decide_eq_true), H2 as (e2 & He2 & Hp2%bool_decide_eq_true). congruence.
Qed.

(** A name added, with no alias yet. *)
Lemma exe_added key l name :
  position (fun e => bool_decide (e.1 = key)) l = None ->
  position (fun e : list Z * AliasMap => bool_decide (e.1 = key)) (l ++ [(key, ∅)]) = Some (length l) /\
  exe name (mkAliases (l ++ [(key, ∅)])) = if decide (lower name = key) then Some ∅ else exe name (mkAliases l).
Proof using Type.
  intros Hi. split; [rewrite position_snoc, Hi; cbn; by rewrite bool_decide_eq_true_2|].
  unfold exe, exe_position. cbn [entries]. rewrite position_snoc. case_decide as Hk.
  - rewrite Hk, Hi. cbn [fst]. rewrite bool_decide_eq_true_2 by done. cbn [mbind option_bind]. by rewrite lookup_app_r, Nat.sub_diag by lia.
  - destruct (position (fun e : list Z * AliasMap => bool_decide (e.1 = lower name)) l) as [j|] eqn:Hj; cbn [mbind option_bind]; [by rewrite lookup_app_l by (by eapply position_lt)|].
    cbn [fst]. by rewrite bool_decide_eq_false_2 by done.
Qed.

(** The aliases of a console are a map from a program and a name, both without regard to case,
    to a text: setting one changes that one and no other, and an empty text takes it away. *)
Theorem an_alias_is_what_was_set source target name a source' name' :
  get source' name' (add source target name a).1 =
  if bool_decide (source <> [] /\ lower name' = lower name /\ lower source' = lower source)
  then (if bool_decide (target = []) then None else Some target)
  else get source' name' a.
Proof using Type.
  unfold add. destruct (decide (source = [])) as [->|Hs].
  { rewrite bool_decide_eq_true_2 by done. by rewrite bool_decide_eq_false_2 by (by intros [? _]). }
  rewrite (bool_decide_eq_false_2 (source = [])) by done. cbv zeta.
  set (same := bool_decide (source <> [] /\ _)).
  assert (forall map : AliasMap, lower name' = lower name -> (delete (lower source) map !! lower source' = if same then None else map !! lower source') /\
    (<[lower source := target]> map !! lower source' = if same then Some target else map !! lower source')) as Hmap.
  { intros map Hn. unfold same. case_bool_decide as Hsame.
    - destruct Hsame as (_ & _ & ->). by rewrite lookup_delete_eq, lookup_insert_eq.
    - assert (lower source <> lower source') by (intros He; by apply Hsame). by rewrite lookup_delete_ne, lookup_insert_ne by done. }
  assert (lower name' <> lower name -> same = false) as Hother by (intros Hn; apply bool_decide_eq_false; by intros (_ & ? & _)).
  unfold get. destruct (exe_position (lower name) a) as [i|] eqn:Hi.
  - destruct a as [l]. unfold exe_position in Hi. cbn [entries] in *. destruct (decide (target = [])) as [->|Ht].
    + rewrite !bool_decide_eq_true_2 by done. cbn [fst]. rewrite (exe_alter _ i (delete (lower source)) l name' Hi). destruct (decide _) as [Hn|Hn]; [|by rewrite Hother].
      destruct (exe name' _) as [map|] eqn:He; cbn [fmap option_fmap option_map mbind option_bind]; [|by destruct same].
      rewrite (proj1 (Hmap map Hn)). by destruct same.
    + rewrite !(bool_decide_eq_false_2 (target = [])) by done. cbn [fst]. rewrite (exe_alter _ i (insert (lower source) target) l name' Hi). destruct (decide _) as [Hn|Hn]; [|by rewrite Hother].
      assert (exists map, exe name' (mkAliases l) = Some map) as [map ->].
      { unfold exe, exe_position. cbn [entries]. rewrite Hn, Hi. apply position_lt in Hi. destruct (lookup_lt_is_Some_2 l i Hi) as [e He]. cbn. rewrite He. by exists e.2. }
      cbn [fmap option_fmap option_map mbind option_bind]. rewrite (proj2 (Hmap map Hn)). destruct same; [cbn; by rewrite bool_decide_eq_false_2 | done].
  - assert (lower name' = lower name -> exe name' a = None) as Hnone by (intros Hn; unfold exe; by rewrite Hn, Hi).
    destruct a as [l]. unfold exe_position in Hi. cbn [entries] in *. destruct (decide (target = [])) as [->|Ht].
    + rewrite !bool_decide_eq_true_2 by done. cbn [fst]. destruct (decide (lower name' = lower name)) as [Hn|Hn]; [rewrite Hnone by done; by destruct same | by rewrite Hother].
    + rewrite !(bool_decide_eq_false_2 (target = [])) by done. cbn [fst].
      destruct (exe_added (lower name) l name' Hi) as [Hp Hadded]. rewrite (exe_alter _ _ (insert (lower source) target) _ name' Hp), Hadded.
      destruct (decide (lower name' = lower name)) as [Hn|Hn]; [|by rewrite Hother].
      rewrite (Hnone Hn). cbn [fmap option_fmap option_map mbind option_bind]. rewrite (proj2 (Hmap ∅ Hn)).
      destruct same; [cbn; by rewrite bool_decide_eq_false_2 | done].
Qed.

(** ** A line by its words *)

Fixpoint drop_while (p : Z -> bool) (l : list Z) : list Z := match l with x :: l' => if p x then drop_while p l' else l | [] => [] end.
Fixpoint take_while (p : Z -> bool) (l : list Z) : list Z := match l with x :: l' => if p x then x :: take_while p l' else [] | [] => [] end.
Definition is_space (unit : Z) : bool := unit =? space.
Definition in_word (unit : Z) : bool := negb (unit =? space).
Definition first_word (line : list Z) : list Z := take_while in_word line.
Fixpoint from_word (k : nat) (line : list Z) : list Z :=
  match k with O => line | S k => from_word k (drop_while is_space (drop_while in_word line)) end.

Lemma position_stops (p : Z -> bool) l :
  match position p l with
  | Some k => (k <= length l)%nat /\ take k l = take_while (fun x => negb (p x)) l /\ drop k l = drop_while (fun x => negb (p x)) l
  | None => l = take_while (fun x => negb (p x)) l /\ drop_while (fun x => negb (p x)) l = []
  end.
Proof using Type.
  induction l as [|x l IH]; [done|]. cbn [position take_while drop_while]. destruct (p x); cbn [negb]; [split_and!; [lia | done | done]|].
  destruct (position p l) as [k|]; cbn [fmap option_fmap option_map].
  - destruct IH as (Hk & Ht & Hd). cbn [length take drop]. split_and!; [lia | by rewrite Ht | done].
  - destruct IH as [H1 H2]. split; [by f_equal | done].
Qed.
Lemma while_spaces l : drop_while (fun x => negb (in_word x)) l = drop_while is_space l.
Proof using Type. induction l as [|x l IH]; [done|]. cbn [drop_while]. unfold in_word, is_space in *. rewrite negb_involutive. by rewrite IH. Qed.
Lemma slice_ok first last line : (first <= last <= length line)%nat -> slice first last line = Ok (take (last - first) (drop first line)).
Proof using Type. intros [? ?]. unfold slice. by rewrite !(proj2 (Nat.leb_le _ _)) by lia. Qed.
Lemma slice_from_ok first line : (first <= length line)%nat -> slice_from first line = Ok (drop first line).
Proof using Type. intros ?. unfold slice_from. rewrite slice_ok by lia. by rewrite take_ge by (rewrite length_drop; lia). Qed.

(** The words from the [k]th on, in their places. *)
Definition worded (line : list Z) (ws : list (nat * list Z)) : Prop :=
  forall k o w, ws !! k = Some (o, w) ->
    (o <= length line)%nat /\ drop o line = from_word k line /\ w = first_word (from_word k line) /\ w <> [].
Definition all_words (line : list Z) (n : nat) : Prop := n = 10%nat \/ first_word (from_word n line) = [].

Lemma from_word_succ k line : from_word (S k) line = drop_while is_space (drop_while in_word (from_word k line)).
Proof using Type. revert line. induction k as [|k IH]; intros line; [done|]. cbn [from_word]. apply (IH (drop_while _ (drop_while _ line))). Qed.
Lemma split_args_words fuel line start args :
  (start <= length line)%nat -> drop start line = from_word (length args) line -> worded line args -> (length args <= 10)%nat -> (10 < fuel + length args)%nat ->
  exists ws, split_args fuel line start args = Ok ws /\ worded line ws /\ all_words line (length ws) /\ (length ws <= 10)%nat.
Proof using Type.
  revert start args. induction fuel as [|fuel IH]; intros start args Hs Hd Hw Hl Hf; [lia|]. cbn [split_args].
  destruct (Nat.ltb_spec start (length line)) as [Hlt|]; cbn [andb negb].
  2: { exists args. split_and!; [done | done | right | done]. rewrite <- Hd. by rewrite drop_ge by lia. }
  destruct (Nat.ltb_spec (length args) 10) as [Hl'|]; cbn [negb]; [|exists args; split_and!; [done | done | left; lia | done]].
  rewrite slice_from_ok by lia. cbn [mbind result_bind]. set (rest := drop start line) in *.
  set (last := match position _ rest with Some offset => _ | None => _ end).
  assert (length rest = length line - start)%nat as Hlen by apply length_drop.
  assert ((start <= last <= length line)%nat /\ take (last - start) rest = first_word rest /\ drop (last - start) rest = drop_while in_word rest) as (Hlast & Hword & Hafter).
  { pose proof (position_stops (fun unit => unit =? space) rest) as Hp. unfold last, first_word, in_word.
    destruct (position _ rest) as [k|].
    - destruct Hp as (Hk & Ht & Hdr). replace (start + k - start)%nat with k by lia. split_and!; [lia | lia | done | done].
    - destruct Hp as [H1 H2]. rewrite take_ge, drop_ge by lia. split_and!; [lia | lia | done | done]. }
  assert (word_len : last = start <-> first_word rest = []).
  { rewrite <- Hword. split; [intros ->; by rewrite Nat.sub_diag | intros He]. apply (f_equal length) in He. rewrite length_take in He. cbn in He. lia. }
  destruct (Nat.eqb_spec last start) as [He|Hne].
  { exists args. split_and!; [done | done | right; rewrite <- Hd; by apply word_len | done]. }
  rewrite slice_ok by lia. cbn [mbind result_bind]. fold rest. rewrite Hword. rewrite slice_from_ok by lia. cbn [mbind result_bind].
  assert (drop last line = drop_while in_word rest) as Hdrop.
  { rewrite <- Hafter. unfold rest. rewrite drop_drop. f_equal. lia. }
  assert (worded line (args ++ [(start, first_word rest)])) as Hw1.
  { intros k o w Hk. apply lookup_app_Some in Hk as [Hk|[Hk1 Hk2]]; [by apply Hw|].
    apply list_lookup_singleton_Some in Hk2 as [Hz [= <- <-]]. assert (k = length args) as -> by lia. split_and!; [lia | done | by rewrite <- Hd |].
    intros Hnil. by apply Hne, word_len. }
  assert (length (args ++ [(start, first_word rest)]) = S (length args)) as Hl1 by (rewrite length_app; cbn; lia).
  pose proof (position_stops in_word (drop last line)) as Hp. rewrite while_spaces in Hp. change (fun unit => negb (unit =? space)) with in_word.
  destruct (position in_word (drop last line)) as [k|].
  - destruct Hp as (Hk & _ & Hdr). rewrite length_drop in Hk. apply IH; rewrite ?Hl1; [lia | | done | lia | lia].
    rewrite from_word_succ, <- Hd, <- Hdrop, <- Hdr. by rewrite drop_drop.
  - eexists. split; [reflexivity|]. split; [done|]. rewrite Hl1. split; [|lia]. right. rewrite from_word_succ, <- Hd, <- Hdrop. destruct Hp as [_ ->]. done.
Qed.

Lemma words_of_a_line line : exists ws, words line = Ok ws /\ worded line ws /\ all_words line (length ws).
Proof using Type.
  destruct (split_args_words 11 line 0 []) as (ws & Hws & Hw & Ha & _); [lia | done | by intros k o w | cbn; lia | cbn; lia |]. by exists ws.
Qed.
(** A word a line does not have is empty, and so is the line from there. *)
Lemma no_word_after j line : (0 < j)%nat -> first_word (from_word j line) = [] -> from_word j line = [].
Proof using Type.
  intros Hj. destruct j as [|j]; [lia|]. rewrite from_word_succ. generalize (drop_while in_word (from_word j line)). intros l.
  induction l as [|x l IH]; [done|]. cbn [drop_while]. destruct (is_space x) eqn:Hx; [done|]. unfold first_word. cbn [take_while].
  unfold in_word, is_space in *. by rewrite Hx.
Qed.
Lemma no_words_after i j line : (0 < i)%nat -> (i <= j)%nat -> from_word i line = [] -> from_word j line = [].
Proof using Type. intros Hi Hij Hn. induction Hij as [|j Hij IH]; [done|]. by rewrite from_word_succ, IH. Qed.
Lemma word_at line ws k : worded line ws -> all_words line (length ws) -> ws <> [] -> (k < 10)%nat ->
  match ws !! k with Some (o, w) => (o <= length line)%nat /\ drop o line = from_word k line /\ w = first_word (from_word k line)
  | None => from_word k line = [] end.
Proof using Type.
  intros Hw Ha Hne Hk. destruct (ws !! k) as [[o w]|] eqn:Hl; [by destruct (Hw k o w Hl) as (? & ? & ? & _)|].
  apply lookup_ge_None_1 in Hl. destruct Ha as [Hten|Ha]; [lia|]. assert (0 < length ws)%nat by (destruct ws; [done | cbn; lia]).
  apply (no_words_after (length ws)); [done | done | by apply no_word_after].
Qed.

(** ** What a text says of a line *)
Definition said (next : Z) (line : list Z) : list Z * Z :=
  let c := lowered next in
  if (0x31 <=? c) && (c <=? 0x39) then (first_word (from_word (Z.to_nat (c - 0x30)) line), 0)
  else if c =? 0x2a then (from_word 1 line, 0)
  else if c =? 0x6c then ([0x3c], 0)
  else if c =? 0x67 then ([0x3e], 0)
  else if c =? 0x62 then ([0x7c], 0)
  else if c =? 0x74 then ([13; 10], 1)
  else ([0x24; next], 0).
Fixpoint rendered (units line : list Z) : list Z * Z :=
  match units with
  | [] => ([], 0)
  | [unit] => ([unit], 0)
  | unit :: (next :: units) as rest =>
      if negb (unit =? 0x24) then let '(out, lines) := rendered rest line in (unit :: out, lines)
      else
        let '(text, ended) := said next line in
        let '(out, lines) := rendered units line in (text ++ out, ended + lines)
  end.

Lemma macro_said next line ws : worded line ws -> all_words line (length ws) -> ws <> [] -> macro next line ws = Ok (said next line).
Proof using Type.
  intros Hw Ha Hne. unfold macro, said. cbv zeta. destruct (Z.leb_spec 0x31 (lowered next)), (Z.leb_spec (lowered next) 0x39); cbn [andb];
    try (destruct (Z.eqb_spec (lowered next) 0x2a); [|by repeat case_match]).
  1: { pose proof (word_at line ws (Z.to_nat (lowered next - 0x30)) Hw Ha Hne ltac:(lia)) as Hk.
    destruct (ws !! _) as [[o w]|]; [by destruct Hk as (_ & _ & ->) | by rewrite Hk]. }
  all: pose proof (word_at line ws 1 Hw Ha Hne ltac:(lia)) as Hk; destruct (ws !! 1%nat) as [[o w]|];
    [destruct Hk as (Ho & Hd & _); rewrite slice_from_ok by done; cbn [mbind result_bind]; by rewrite Hd | by rewrite Hk].
Qed.
Lemma rendered_step unit next units line :
  rendered (unit :: next :: units) line =
  if negb (unit =? 0x24) then ((unit :: (rendered (next :: units) line).1), (rendered (next :: units) line).2)
  else ((said next line).1 ++ (rendered units line).1, (said next line).2 + (rendered units line).2).
Proof using Type.
  change (rendered (unit :: next :: units) line) with (if negb (unit =? 0x24) then let '(out, lines) := rendered (next :: units) line in (unit :: out, lines)
    else let '(text, ended) := said next line in let '(out, lines) := rendered units line in (text ++ out, ended + lines)).
  destruct (negb _); [by destruct (rendered (next :: units) line) | destruct (said next line); by destruct (rendered units line)].
Qed.
Lemma replaced_rendered units line ws : worded line ws -> all_words line (length ws) -> ws <> [] -> replaced units line ws = Ok (rendered units line).
Proof using Type.
  intros Hw Ha Hne. induction units as [units IH] using (induction_ltof1 _ (@length Z)). unfold ltof in IH.
  destruct units as [|unit [|next units]]; [done | done |]. rewrite rendered_step.
  change (replaced (unit :: next :: units) line ws) with (if negb (unit =? 0x24) then '(out, lines) ← replaced (next :: units) line ws; Ok (unit :: out, lines)
    else '(text, ended) ← macro next line ws; '(out, lines) ← replaced units line ws; Ok (text ++ out, ended + lines)).
  rewrite macro_said by done. rewrite !IH by (cbn; lia). cbn [mbind result_bind].
  destruct (rendered (next :: units) line), (said next line), (rendered units line). by destruct (negb _).
Qed.

(** C36. A line that begins with the name of an alias becomes what the alias says, with the words
    of the line, or all after the first, where it asks for them, and an end of line for each it asks
    for and at the end, which are counted; any other line is left, and none makes expansion panic. *)
Theorem a_line_becomes_what_its_alias_says line name a :
  expand line name a =
  Ok (if bool_decide (first_word line = []) then None
      else match get (first_word line) name a with
           | Some target => let '(out, lines) := rendered target line in Some (out ++ [13; 10], lines + 1)
           | None => None
           end).
Proof using Type.
  unfold expand, get. destruct (exe name a) as [map|]; cbn [mbind option_bind]; [|by destruct (bool_decide _)].
  destruct (decide (map = ∅)) as [->|Hmap].
  { rewrite bool_decide_eq_true_2 by done. rewrite lookup_empty. by destruct (bool_decide _). }
  rewrite bool_decide_eq_false_2 by done. destruct (words_of_a_line line) as (ws & -> & Hw & Ha). cbn [mbind result_bind].
  destruct ws as [|[o first] more] eqn:Hws; cbn [head].
  { destruct Ha as [[=]|Ha]. by rewrite bool_decide_eq_true_2. }
  destruct (Hw 0%nat o first eq_refl) as (_ & _ & Hfirst & Hne). cbn [from_word] in Hfirst. subst first.
  rewrite (bool_decide_eq_false_2 (first_word line = [])) by done. destruct (map !! lower (first_word line)) as [target|]; [|done].
  cbn [mbind option_bind]. case_bool_decide; [done|]. rewrite replaced_rendered by done. cbn [mbind result_bind]. by destruct (rendered target line).
Qed.
End Alias.

Module Sample.
#[local] Instance plain_names : Lowercase := { lowercase name := (fun c => if (0x41 <=? c) && (c <=? 0x5a) then c + 32 else c) <$> name }.
Definition cmd : list Z := [0x43; 0x4d; 0x44].
(** "ls" is "dir $1$T[$*]$q$", entered as "LS a  b". *)
Definition aliases : Aliases :=
  (add [0x6c; 0x73] [0x64; 0x69; 0x72; 0x20; 0x24; 0x31; 0x24; 0x54; 0x5b; 0x24; 0x2a; 0x5d; 0x24; 0x71; 0x24] cmd default_aliases).1.
Example ls_expands :
  expand (E:=unit) [0x4c; 0x53; 0x20; 0x61; 0x20; 0x20; 0x62] cmd aliases =
  Ok (Some ([0x64; 0x69; 0x72; 0x20; 0x61; 13; 10; 0x5b; 0x61; 0x20; 0x20; 0x62; 0x5d; 0x24; 0x71; 0x24; 13; 10], 2)).
Proof. vm_compute. reflexivity. Qed.
Example listed : list_aliases cmd (add [0x61] [0x62] cmd aliases).1 = [0x61; 0x3d; 0x62; 0] ++ [0x6c; 0x73; 0x3d] ++
  [0x64; 0x69; 0x72; 0x20; 0x24; 0x31; 0x24; 0x54; 0x5b; 0x24; 0x2a; 0x5d; 0x24; 0x71; 0x24] ++ [0].
Proof. vm_compute. reflexivity. Qed.
End Sample.
End Alias.
