(* ===== verification/PersistenceQueue.v ===== *)
(** * The queue into the encrypted store

    Models [crates/zmux/src/server/persistence_queue.rs]: the drain queues what it
    reads of the panes, one worker gives it to the store, and whoever needs the
    store waits for what was queued before.  The store is the class
    [PersistenceStore]: the files, and what it reads of the clock and the disk.

    The threads are a state and the events that move it: each event is what one
    thread does under one lock, or between two.  [pushed] and [handed], all that was
    ever queued and all that was given to the store, and what a caller found queued
    when it called, are written down for the statements only: no step reads them. *)
From Stdlib Require Import ZArith Lia List Bool.
From stdpp Require Import base numbers list.
From S2P Require Import Prelude.
Open Scope Z_scope.
Open Scope zetta_scope.

Module PersistenceQueue.

Definition QUEUE_LIMIT_BYTES : Z := 16 * 1024 * 1024.

Record Append := mkAppend { session_id : Z; pane_id : Z; contents : bytes }.

(** What [append_scrollback] comes to: done, an error that is logged, or a panic. *)
Inductive Outcome := Stored | NotStored | StorePanicked.
(** [PersistenceStore] *)
Class PersistenceStore := { Store : Type; append_scrollback : Z -> Z -> bytes -> Store -> Store * Outcome }.

(** The worker, in [run]. *)
Inductive Worker :=
  | NotStarted
  | Checking                                 (* before it takes the lock on the state *)
  | Asleep                                   (* in [queued.wait] *)
  | Holding (batch : list Append)            (* before [apply] *)
  | Given (batch : list Append)              (* before the bytes are subtracted *)
  | MakingRoom (batch : list Append) (before : Z)  (* before [on_room] *)
  | Counting (batch : list Append)           (* before [applied] is raised *)
  | Notifying.                               (* before [applied.notify_all] *)
(** A caller, in [lock]. *)
Inductive Caller :=
  | Sleeping (target : Z)                    (* in [applied.wait] *)
  | Woken (target : Z)
  | Clear (target : Z)                       (* before [lock_store] *)
  | Inside (target : Z)                      (* with the store *)
  | Gone.

Section Queue.
Context `{PersistenceStore}.

Record System := mkSystem {
  store : option Store;
  poisoned : bool;
  enabled : bool;
  appends : list Append;
  queued : Z;
  applied : Z;
  queued_bytes : Z;
  worker : Worker;
  notifies : nat;                            (* [queued.notify_one]s not yet made *)
  callers : list (Caller * list Append);     (* and what they found queued *)
  holder : option nat;                       (* of the lock on the store *)
  held_off : bool;                           (* the drain saw a backlog, and no room since *)
  pushed : list Append;
  handed : list Append;
}.
#[export] Instance system_eta : Eta System := fun s =>
  mkSystem (store s) (poisoned s) (enabled s) (appends s) (queued s) (applied s) (queued_bytes s) (worker s) (notifies s)
    (callers s) (holder s) (held_off s) (pushed s) (handed s).
Implicit Types s : System.

Definition new (st : option Store) (on : bool) : System := mkSystem st false on [] 0 0 0 NotStarted 0 [] None false [] [].
Definition worker_started s : bool := match worker s with NotStarted => false | _ => true end.
Fixpoint bytes_of (l : list Append) : Z := match l with [] => 0 | a :: l => zlen (contents a) + bytes_of l end.

(** The appends given to the store one by one, until one panics. *)
Fixpoint append_all (l : list Append) (st : Store) : Store * bool :=
  match l with
  | [] => (st, false)
  | a :: l =>
      match append_scrollback (session_id a) (pane_id a) (contents a) st with
      | (st, StorePanicked) => (st, true)
      | (st, _) => append_all l st
      end
  end.
(** [apply], with the store's lock: on a poisoned one [lock_store] panics. *)
Definition apply (l : list Append) s : System :=
  if poisoned s || negb (enabled s) then s
  else match store s with
       | None => s
       | Some st => let '(st, panicked) := append_all l st in s <| store := Some st |> <| poisoned := panicked |>
       end.

(** ** What the threads do *)

Definition start s : option System := if worker_started s then None else Some (s <| worker := Checking |>).
Definition backlogged s : bool := QUEUE_LIMIT_BYTES <=? queued_bytes s.
(** The drain looks whether it may read on. *)
Definition drain_checks s : System := if backlogged s then s <| held_off := true |> else s.

(** [append], but for its [notify_one]; before the worker is started, and so before there is a
    drain, the append is given at once, and where the store is spoilt its caller panics, changing nothing.  [on] is what it read of [enabled], which may
    have changed since.  The bytes are added under the lock that the append is queued
    under. *)
Definition append (a : Append) (on : bool) s : option System :=
  if bool_decide (contents a = []) || negb on then Some s
  else if negb (worker_started s) then match holder s with Some _ => None | None => Some (apply [a] s) end
  else
    Some (s <| queued_bytes := wrap 64 (queued_bytes s + zlen (contents a)) |> <| appends := appends s ++ [a] |>
            <| queued := wrap 64 (queued s + 1) |> <| pushed := pushed s ++ [a] |> <| notifies := S (notifies s) |>).
Definition notify_one s : option System :=
  match notifies s with
  | O => None
  | S n => Some (let s := s <| notifies := n |> in match worker s with Asleep => s <| worker := Checking |> | _ => s end)
  end.

Definition run_step s : option System :=
  match worker s with
  | NotStarted | Asleep => None
  | Checking =>
      Some (if bool_decide (appends s = []) then s <| worker := Asleep |>
            else s <| worker := Holding (appends s) |> <| appends := [] |>)
  | Holding batch =>
      match holder s with
      | Some _ => None
      | None => Some (apply batch s <| worker := Given batch |> <| handed := handed s ++ batch |>)
      end
  | Given batch => Some (s <| queued_bytes := wrap 64 (queued_bytes s - bytes_of batch) |> <| worker := MakingRoom batch (queued_bytes s) |>)
  | MakingRoom batch before =>
      Some ((if QUEUE_LIMIT_BYTES <=? before then s <| held_off := false |> else s) <| worker := Counting batch |>)
  | Counting batch => Some (s <| applied := wrap 64 (applied s + zlen batch) |> <| worker := Notifying |>)
  | Notifying =>
      Some (s <| callers := (fun p => (match p.1 with Sleeping t => Woken t | c => c end, p.2)) <$> callers s |> <| worker := Checking |>)
  end.

(** The test of the loop in [lock], with the state's lock. *)
Definition wait_test (target : Z) s : Caller := if applied s <? target then Sleeping target else Clear target.
Definition lock s : System := s <| callers := callers s ++ [(wait_test (queued s) s, pushed s)] |>.
Definition set_caller (i : nat) (c : Caller) s : System := s <| callers := alter (fun p => (c, p.2)) i (callers s) |>.
(** A caller wakes, tests again, takes the store, uses it, and gives it back. *)
Definition wakes (i : nat) s : option System :=
  match callers s !! i with Some (Sleeping t, _) => Some (set_caller i (Woken t) s) | _ => None end.
Definition tests (i : nat) s : option System :=
  match callers s !! i with Some (Woken t, _) => Some (set_caller i (wait_test t s) s) | _ => None end.
Definition lock_store (i : nat) s : option System :=
  match callers s !! i, holder s with
  | Some (Clear t, _), None => Some (if poisoned s then set_caller i Gone s else set_caller i (Inside t) s <| holder := Some i |>)
  | _, _ => None
  end.
Definition uses (i : nat) (f : option Store -> option Store) (on : bool) s : option System :=
  match callers s !! i with Some (Inside _, _) => Some (s <| store := f (store s) |> <| enabled := on |>) | _ => None end.
Definition leaves (i : nat) (panicking : bool) s : option System :=
  match callers s !! i with
  | Some (Inside _, _) => Some (set_caller i Gone s <| holder := None |> <| poisoned := poisoned s || panicking |>)
  | _ => None
  end.

Inductive event :=
  | Start | DrainChecks | Appends (a : Append) (on : bool) | NotifyOne | WorkerRuns | WorkerWakes | Calls
  | Wakes (i : nat) | Tests (i : nat) | Takes (i : nat) | Uses (i : nat) (f : option Store -> option Store) (on : bool) | Leaves (i : nat) (panicking : bool).
Definition step (e : event) s : option System :=
  match e with
  | Start => start s
  | DrainChecks => Some (drain_checks s)
  | Appends a on => append a on s
  | NotifyOne => notify_one s
  | WorkerRuns => run_step s
  | WorkerWakes => match worker s with Asleep => Some (s <| worker := Checking |>) | _ => None end
  | Calls => Some (lock s)
  | Wakes i => wakes i s
  | Tests i => tests i s
  | Takes i => lock_store i s
  | Uses i f on => uses i f on s
  | Leaves i panicking => leaves i panicking s
  end.
Fixpoint steps (es : list event) s : option System := match es with [] => Some s | e :: es => s ← step e s; steps es s end.
Definition reachable s : Prop := exists st on es, steps es (new st on) = Some s.

(** ** What stays true *)

Definition in_hand (w : Worker) : list Append := match w with Holding b => b | _ => [] end.
Definition uncounted (w : Worker) : list Append := match w with Given b | MakingRoom b _ | Counting b => b | _ => [] end.
Definition unsubtracted (w : Worker) : list Append := match w with Holding b | Given b => b | _ => [] end.
(** The counters do not come around. *)
Definition in_range s : Prop := zlen (pushed s) < 2 ^ 64 /\ bytes_of (pushed s) < 2 ^ 64.

Definition caller_ok s (p : Caller * list Append) : Prop :=
  p.2 `prefix_of` pushed s /\
  match p.1 with
  | Sleeping t => t = zlen p.2 /\ (applied s < t \/ worker s = Notifying)
  | Woken t => t = zlen p.2
  | Clear t | Inside t => t = zlen p.2 /\ t <= applied s
  | Gone => True
  end.
Record inv s : Prop := {
  i_line : pushed s = handed s ++ in_hand (worker s) ++ appends s;
  i_queued : queued s = zlen (pushed s);
  i_applied : exists counted, handed s = counted ++ uncounted (worker s) /\ applied s = zlen counted;
  i_bytes : queued_bytes s = bytes_of (appends s) + bytes_of (unsubtracted (worker s));
  i_early : worker s = NotStarted -> pushed s = [];
  i_asleep : worker s = Asleep -> appends s <> [] -> notifies s <> O;
  i_callers : Forall (caller_ok s) (callers s);
  i_held : held_off s = true -> QUEUE_LIMIT_BYTES <= queued_bytes s \/ exists b before, worker s = MakingRoom b before /\ QUEUE_LIMIT_BYTES <= before;
}.

(** ** What the store is promised

    One thing at a time: an append, given to a store that is there, wanted and sound; what a caller
    does with it; a panic of a caller, that spoils it. *)
Inductive op := Stores (a : Append) | Used (f : option Store -> option Store) (on : bool) | Spoilt.
(** The store, whether it is wanted, and whether it is spoilt. *)
Abbreviation Held := (option Store * bool * bool)%type.
Definition do_op (h : Held) (o : op) : Held :=
  let '(st, on, spoilt) := h in
  if spoilt then h
  else match o with
       | Stores a =>
           if negb on then h
           else match st with
                | None => h
                | Some st => let '(st, o) := append_scrollback (session_id a) (pane_id a) (contents a) st in
                             (Some st, on, match o with StorePanicked => true | _ => false end)
                end
       | Used f on => (f st, on, false)
       | Spoilt => (st, on, true)
       end.
Definition held s : Held := (store s, enabled s, poisoned s).
Definition stored (ops : list op) : list Append := omap (fun o => match o with Stores a => Some a | _ => None end) ops.
Definition used (ops : list op) : list ((option Store -> option Store) * bool) :=
  omap (fun o => match o with Used f on => Some (f, on) | _ => None end) ops.
Definition uses_of (es : list event) : list ((option Store -> option Store) * bool) :=
  omap (fun e => match e with Uses _ f on => Some (f, on) | _ => None end) es.

(** ** What goes on by itself *)

(** The worker goes on, a [notify_one] is made, a caller tests again, takes the store, or gives it back. *)
Definition internal (e : event) : bool :=
  match e with NotifyOne | WorkerRuns | Tests _ | Takes _ | Leaves _ _ => true | _ => false end.
Definition stuck s : Prop := forall e, internal e = true -> step e s = None.
(** All was given to the store, and counted; nobody waits, and the drain may read. *)
Record quiet s : Prop := {
  q_handed : handed s = pushed s;
  q_bytes : queued_bytes s = 0;
  q_applied : applied s = queued s;
  q_callers : Forall (fun p => p.1 = Gone) (callers s);
  q_drain : held_off s = false;
}.
(** How much is left to do. *)
Definition left_of (c : Caller) : nat := match c with Sleeping _ | Gone => 0 | Inside _ => 1 | Clear _ => 2 | Woken _ => 3 end.
Definition callers_left (cs : list (Caller * list Append)) : nat := sum_list_with (fun p => left_of p.1) cs.
Definition worker_left (n : nat) (w : Worker) : nat :=
  match w with
  | NotStarted | Asleep => 0
  | Checking => 1
  | Notifying => 3 * n + 2
  | Counting _ => 3 * n + 3
  | MakingRoom _ _ => 3 * n + 4
  | Given _ => 3 * n + 5
  | Holding _ => 3 * n + 6
  end.
Definition left s : nat :=
  let n := length (callers s) in
  callers_left (callers s) + worker_left n (worker s) + 2 * notifies s + (if bool_decide (appends s = []) then 0 else 3 * n + 6).

Lemma bytes_of_app l l' : bytes_of (l ++ l') = bytes_of l + bytes_of l'.
Proof using Type. induction l as [|a l IH]; cbn [app bytes_of]; [done|]. rewrite IH. lia. Qed.
Lemma bytes_of_nonneg l : 0 <= bytes_of l.
Proof using Type. induction l as [|a l IH]; cbn [bytes_of]; [done|]. pose proof (zlen_nonneg (contents a)). lia. Qed.

Lemma apply_same l s : let s' := apply l s in
  appends s' = appends s /\ queued s' = queued s /\ applied s' = applied s /\ queued_bytes s' = queued_bytes s /\ worker s' = worker s /\
  notifies s' = notifies s /\ callers s' = callers s /\ held_off s' = held_off s /\ pushed s' = pushed s /\ handed s' = handed s /\ holder s' = holder s.
Proof using Type.
  unfold apply. destruct (_ || _); [done|]. destruct (store s) as [st|]; [|done]. by destruct (append_all l st).
Qed.

Lemma new_inv st on : inv (new st on).
Proof using Type. split; try done. by exists []. Qed.
Lemma step_pushed e s s' : step e s = Some s' -> exists l, pushed s' = pushed s ++ l.
Proof using Type.
  assert (forall s, exists l, pushed s = pushed s ++ l) as Hsame by (intros; exists []; by rewrite app_nil_r).
  intros He. destruct e; cbn [step] in He.
  - unfold start in He. destruct (worker_started s); [done|]. injection He as <-. exact (Hsame s).
  - injection He as <-. unfold drain_checks. destruct (backlogged s); exact (Hsame s).
  - unfold append in He. destruct (_ || _); [injection He as <-; exact (Hsame s)|]. destruct (negb _).
    + destruct (holder s); [done|]. injection He as <-. destruct (apply_same [a] s) as (_ & _ & _ & _ & _ & _ & _ & _ & -> & _). exact (Hsame s).
    + injection He as <-. by exists [a].
  - unfold notify_one in He. destruct (notifies s); [done|]. injection He as <-. cbv zeta. destruct (worker _); exact (Hsame s).
  - unfold run_step in He. destruct (worker s); try done; try (injection He as <-; repeat case_match; exact (Hsame s)).
    destruct (holder s); [done|]. injection He as <-. cbn. destruct (apply_same batch s) as (_ & _ & _ & _ & _ & _ & _ & _ & -> & _). exact (Hsame s).
  - destruct (worker s); try done. injection He as <-. exact (Hsame s).
  - injection He as <-. exact (Hsame s).
  - unfold wakes in He. destruct (callers s !! i) as [[[] ?]|]; try done. injection He as <-. exact (Hsame s).
  - unfold tests in He. destruct (callers s !! i) as [[[] ?]|]; try done. injection He as <-. exact (Hsame s).
  - unfold lock_store in He. destruct (callers s !! i) as [[[] ?]|], (holder s); try done. injection He as <-. destruct (poisoned s); exact (Hsame s).
  - unfold uses in He. destruct (callers s !! i) as [[[] ?]|]; try done. injection He as <-. exact (Hsame s).
  - unfold leaves in He. destruct (callers s !! i) as [[[] ?]|]; try done. injection He as <-. exact (Hsame s).
Qed.

Lemma caller_ok_mono s s' p l :
  pushed s' = pushed s ++ l -> applied s' = applied s -> (worker s = Notifying -> worker s' = Notifying) -> caller_ok s p -> caller_ok s' p.
Proof using Type.
  intros Hp Ha Hw [Hpre Hc]. split; [rewrite Hp; by apply prefix_app_r|]. destruct (p.1); rewrite ?Ha; [|done..].
  destruct Hc as [? [?|?]]; [tauto | auto].
Qed.
Lemma callers_mono s s' l cs :
  pushed s' = pushed s ++ l -> applied s' = applied s -> (worker s = Notifying -> worker s' = Notifying) ->
  Forall (caller_ok s) cs -> Forall (caller_ok s') cs.
Proof using Type. intros Hp Ha Hw Hall. eapply Forall_impl; [exact Hall|]. intros p. by apply (caller_ok_mono s s' p l). Qed.

(** The callers, where [s] became what the goal is of and [l] was queued. *)
Ltac callers_from s l :=
  match goal with |- Forall (caller_ok ?x) _ => apply (callers_mono s x l); rewrite ?app_nil_r; try done; try (cbn; congruence) end.

(** A step of one caller. *)
Lemma set_caller_inv i c s :
  inv s -> (forall p, callers s !! i = Some p -> caller_ok s p -> caller_ok s (c, p.2)) -> inv (set_caller i c s).
Proof using Type.
  intros [] Hc. split; try done. cbn. apply (Forall_alter _ _ _ _ i_callers0). intros p Hp Hok. by apply Hc.
Qed.
Lemma wait_test_ok s saw : saw `prefix_of` pushed s -> caller_ok s (wait_test (zlen saw) s, saw).
Proof using Type. intros Hp. split; [done|]. cbn. unfold wait_test. destruct (Z.ltb_spec (applied s) (zlen saw)); cbn; [auto | lia]. Qed.

(** The bytes on their way are no more than all there were. *)
Lemma queued_bytes_range s : inv s -> 0 <= queued_bytes s <= bytes_of (pushed s).
Proof using Type.
  intros []. rewrite i_bytes0, i_line0, !bytes_of_app. destruct i_applied0 as (counted & -> & _). rewrite bytes_of_app.
  pose proof (bytes_of_nonneg counted). pose proof (bytes_of_nonneg (appends s)).
  destruct (worker s); cbn [in_hand uncounted unsubtracted bytes_of]; try pose proof (bytes_of_nonneg batch); lia.
Qed.
Lemma append_inv a on s s' : append a on s = Some s' -> in_range s' -> inv s -> inv s'.
Proof using Type.
  unfold append. intros Ha Hr Hs. destruct (_ || _); [by injection Ha as <-|]. destruct (worker_started s) eqn:Hstarted; cbn [negb] in Ha.
  - injection Ha as <-. pose proof (queued_bytes_range s Hs) as Hq. destruct Hs, Hr as [Hr1 Hr2]. cbn in Hr1, Hr2.
    assert (zlen (pushed s ++ [a]) = zlen (pushed s) + 1) as Hlen by apply zlen_app. rewrite Hlen in Hr1. rewrite bytes_of_app in Hr2. cbn [bytes_of] in Hr2.
    pose proof (zlen_nonneg (pushed s)). pose proof (zlen_nonneg (contents a)).
    assert (wrap 64 (queued_bytes s + zlen (contents a)) = queued_bytes s + zlen (contents a)) as Hb by (unfold wrap; apply Z.mod_small; lia).
    split; cbn -[zlen].
    + by rewrite i_line0, !app_assoc.
    + rewrite Hlen, i_queued0. unfold wrap. rewrite Z.mod_small; lia.
    + done.
    + rewrite Hb, i_bytes0, bytes_of_app. cbn [bytes_of]. lia.
    + intros Hw. unfold worker_started in Hstarted. by rewrite Hw in Hstarted.
    + done.
    + callers_from s [a].
    + rewrite Hb. intros Hh. destruct (i_held0 Hh); [left; lia | by right].
  - destruct (holder s); [done|]. injection Ha as <-. destruct (apply_same [a] s) as (E1 & E2 & E3 & E4 & E5 & E6 & E7 & E8 & E9 & E10 & E11).
    destruct Hs. split; rewrite ?E1, ?E2, ?E3, ?E4, ?E5, ?E6, ?E7, ?E8, ?E9, ?E10; try done.
    apply (callers_mono s _ []); rewrite ?app_nil_r, ?E3, ?E5, ?E9; done.
Qed.

(** A drain held off stays so for the reason it was, the worker not about to make room. *)
Ltac still_held :=
  match goal with Hheld : held_off _ = true -> _ |- _ -> _ \/ _ =>
    let K := fresh in intros K; destruct (Hheld K) as [?|(? & ? & ? & _)]; [by left | congruence] end.
Lemma notify_inv s s' : notify_one s = Some s' -> inv s -> inv s'.
Proof using Type.
  unfold notify_one. intros Hn []. destruct (notifies s) as [|n] eqn:Hno; [done|]. injection Hn as <-. cbv zeta. cbn [worker].
  destruct (worker s) eqn:Hw; (split; cbn; rewrite ?Hw in *; try done); [callers_from s (@nil Append) | still_held].
Qed.
Lemma wakes_inv s : worker s = Asleep -> inv s -> inv (s <| worker := Checking |>).
Proof using Type. intros Hw []. split; cbn; rewrite ?Hw in *; try done; [callers_from s (@nil Append) | still_held]. Qed.

(** A batch given to the store. *)
Lemma given_inv batch s : worker s = Holding batch -> inv s -> inv (apply batch s <| worker := Given batch |> <| handed := handed s ++ batch |>).
Proof using Type.
  intros Hw []. destruct (apply_same batch s) as (E1 & E2 & E3 & E4 & E5 & E6 & E7 & E8 & E9 & E10 & E11). rewrite Hw in *. cbn [in_hand uncounted unsubtracted] in *.
  split; cbn; rewrite ?E1, ?E2, ?E3, ?E4, ?E6, ?E7, ?E8, ?E9; try done.
  - by rewrite i_line0, app_assoc.
  - destruct i_applied0 as (counted & -> & ->). exists counted. by rewrite app_nil_r.
  - apply (callers_mono s _ []); [by rewrite app_nil_r, <- E9 | done | congruence | done].
  - still_held.
Qed.
(** A batch counted: a caller that waits for no more is about to be told. *)
Lemma counted_inv batch s :
  worker s = Counting batch -> in_range s -> inv s -> inv (s <| applied := wrap 64 (applied s + zlen batch) |> <| worker := Notifying |>).
Proof using Type.
  intros Hw [Hr _] []. rewrite Hw in *. cbn [in_hand uncounted unsubtracted] in *. destruct i_applied0 as (counted & Hh & Ha).
  assert (wrap 64 (applied s + zlen batch) = zlen (handed s)) as ->.
  { rewrite Ha, Hh, zlen_app. unfold wrap. pose proof (zlen_nonneg counted). pose proof (zlen_nonneg batch). pose proof (zlen_nonneg (appends s)).
    rewrite i_line0, Hh in Hr. cbn [app] in Hr. rewrite !zlen_app in Hr. apply Z.mod_small. lia. }
  split; cbn; try done.
  - exists (handed s). by rewrite app_nil_r.
  - assert (applied s <= zlen (handed s)) as Hle by (rewrite Ha, Hh, zlen_app; pose proof (zlen_nonneg batch); lia).
    eapply Forall_impl; [exact i_callers0|]. intros [c saw] [Hp Hc]. split; [exact Hp|]. cbn in *. destruct c; try done; [tauto | lia..].
  - still_held.
Qed.
Lemma worker_inv s s' : run_step s = Some s' -> in_range s -> inv s -> inv s'.
Proof using Type.
  unfold run_step. intros Hrun Hr Hs. pose proof (queued_bytes_range s Hs) as Hq. destruct (worker s) as [| | |batch|batch|batch before|batch|] eqn:Hw; try done.
  - injection Hrun as <-. destruct Hs. rewrite Hw in *. cbn [in_hand uncounted unsubtracted bytes_of app] in *.
    case_bool_decide as Hnil; (split; cbn; try done); [callers_from s (@nil Append) | still_held | by rewrite app_nil_r | lia | callers_from s (@nil Append) | still_held].
  - destruct (holder s); [done|]. injection Hrun as <-. by apply given_inv.
  - injection Hrun as <-. destruct Hs. rewrite Hw in *. cbn [in_hand uncounted unsubtracted app] in *. destruct Hr as [Hr1 Hr2].
    assert (wrap 64 (queued_bytes s - bytes_of batch) = bytes_of (appends s)) as Hb.
    { rewrite i_bytes0. unfold wrap. pose proof (bytes_of_nonneg batch). pose proof (bytes_of_nonneg (appends s)). rewrite Z.mod_small; lia. }
    split; cbn; try done; [lia | callers_from s (@nil Append) |].
    intros Hh. destruct (i_held0 Hh) as [?|(b & before & ? & _)]; [|congruence]. right. by exists batch, (queued_bytes s).
  - injection Hrun as <-. destruct Hs. rewrite Hw in *. cbn [in_hand uncounted unsubtracted app] in *.
    destruct (Z.leb_spec QUEUE_LIMIT_BYTES before); (split; cbn; try done); [callers_from s (@nil Append) | callers_from s (@nil Append) |].
    intros Hh. destruct (i_held0 Hh) as [?|(b & before' & [= _ <-] & ?)]; [by left | lia].
  - injection Hrun as <-. by apply counted_inv.
  - injection Hrun as <-. destruct Hs. rewrite Hw in *. cbn [in_hand uncounted unsubtracted app] in *. split; cbn; try done; [|still_held].
    apply Forall_fmap. eapply Forall_impl; [exact i_callers0|]. intros [c saw] [Hp Hc]. split; [exact Hp|]. cbn in *. by destruct c; try destruct Hc.
Qed.

Lemma step_inv e s s' : step e s = Some s' -> in_range s' -> inv s -> inv s'.
Proof using Type.
  intros He Hr Hs. destruct e; cbn [step] in He.
  - unfold start in He. destruct (worker_started s) eqn:Hst; [done|]. injection He as <-. unfold worker_started in Hst. destruct Hs.
    destruct (worker s) eqn:Hw; try done. split; cbn; try done; [callers_from s (@nil Append) | still_held].
  - injection He as <-. unfold drain_checks, backlogged. destruct (Z.leb_spec QUEUE_LIMIT_BYTES (queued_bytes s)); [|done]. destruct Hs. split; cbn; try done. by left.
  - by eapply append_inv.
  - by eapply notify_inv.
  - eapply worker_inv; [exact He | | exact Hs]. destruct (step_pushed WorkerRuns s s' He) as [l Hl]. destruct Hr as [H1 H2]. rewrite Hl in H1, H2.
    rewrite zlen_app in H1. rewrite bytes_of_app in H2. pose proof (zlen_nonneg l). pose proof (bytes_of_nonneg l). split; lia.
  - destruct (worker s) eqn:Hw; try done. injection He as <-. by apply wakes_inv.
  - injection He as <-. destruct Hs. split; cbn; try done. apply Forall_app. split; [callers_from s (@nil Append)|].
    apply Forall_singleton. rewrite i_queued0. apply (wait_test_ok (lock s)). done.
  - unfold wakes in He. destruct (callers s !! i) as [[[t| | | |] saw]|] eqn:Hi; try done. injection He as <-. apply set_caller_inv; [done|].
    intros p Hp. rewrite Hi in Hp. injection Hp as <-. intros [Hpre [Ht _]]. by split.
  - unfold tests in He. destruct (callers s !! i) as [[[|t| | |] saw]|] eqn:Hi; try done. injection He as <-. apply set_caller_inv; [done|].
    intros p Hp. rewrite Hi in Hp. injection Hp as <-. intros [Hpre ->]. by apply wait_test_ok.
  - unfold lock_store in He. destruct (callers s !! i) as [[[| |t| |] saw]|] eqn:Hi, (holder s) eqn:Hh; try done. injection He as <-. destruct (poisoned s).
    + apply set_caller_inv; [done|]. intros p Hp [Hpre _]. by split.
    + assert (inv (set_caller i (Inside t) s)) as Hinv.
      { apply set_caller_inv; [done|]. intros p Hp. rewrite Hi in Hp. injection Hp as <-. intros [Hpre Ht]. by split. }
      by destruct Hinv.
  - unfold uses in He. destruct (callers s !! i) as [[[] ?]|]; try done. injection He as <-. by destruct Hs.
  - unfold leaves in He. destruct (callers s !! i) as [[[] ?]|] eqn:Hi; try done. injection He as <-.
    assert (inv (set_caller i Gone s)) as Hinv by (apply set_caller_inv; [done | intros p Hp [Hpre _]; by split]).
    by destruct Hinv.
Qed.

Lemma steps_pushed es s s' : steps es s = Some s' -> pushed s `prefix_of` pushed s'.
Proof using Type.
  revert s. induction es as [|e es IH]; intros s; cbn [steps]; [by intros [= ->]|]. intros (s1 & He & Hes)%bind_Some.
  destruct (step_pushed e s s1 He) as [l Hl]. etransitivity; [|by apply (IH s1)]. rewrite Hl. by apply prefix_app_r.
Qed.
Lemma in_range_back s s' : pushed s `prefix_of` pushed s' -> in_range s' -> in_range s.
Proof using Type.
  intros [l Hl] [H1 H2]. rewrite Hl in H1, H2. rewrite zlen_app in H1. rewrite bytes_of_app in H2.
  pose proof (zlen_nonneg l). pose proof (bytes_of_nonneg l). split; lia.
Qed.
Lemma steps_inv es s s' : steps es s = Some s' -> in_range s' -> inv s -> inv s'.
Proof using Type.
  revert s. induction es as [|e es IH]; intros s; cbn [steps]; [by intros [= ->]|]. intros (s1 & He & Hes)%bind_Some Hr Hs.
  apply (IH s1); [done..|]. apply (step_inv e s); [done | | done]. exact (in_range_back s1 s' (steps_pushed es s1 s' Hes) Hr).
Qed.
Lemma reachable_inv st on es s : steps es (new st on) = Some s -> in_range s -> inv s.
Proof using Type. intros He Hr. exact (steps_inv es _ s He Hr (new_inv st on)). Qed.
Lemma steps_then es es' s : steps (es ++ es') s = (s ← steps es s; steps es' s).
Proof using Type. revert s. induction es as [|e es IH]; intros s; cbn [steps app]; [done|]. destruct (step e s); cbn; [apply IH | done]. Qed.

(** ** A caller finds what was queued before it given to the store *)

(** What a caller found queued stays what it found. *)
Lemma set_caller_saw i j c s :
  option_map snd (callers (set_caller i c s) !! j) = option_map snd (callers s !! j).
Proof using Type. cbn. rewrite list_lookup_alter. case_decide; [subst|done]. by destruct (callers s !! j). Qed.
Lemma step_saw e s s' i saw :
  step e s = Some s' -> option_map snd (callers s !! i) = Some saw -> option_map snd (callers s' !! i) = Some saw.
Proof using Type.
  intros He Hi. destruct e; cbn [step] in He.
  - unfold start in He. destruct (worker_started s); [done|]. by injection He as <-.
  - injection He as <-. unfold drain_checks. by destruct (backlogged s).
  - unfold append in He. destruct (_ || _); [by injection He as <-|]. destruct (negb _); [|by injection He as <-].
    destruct (holder s); [done|]. injection He as <-. by destruct (apply_same [a] s) as (_ & _ & _ & _ & _ & _ & -> & _).
  - unfold notify_one in He. destruct (notifies s); [done|]. injection He as <-. cbv zeta. by destruct (worker _).
  - unfold run_step in He. destruct (worker s); try done; try (injection He as <-; repeat case_match; done).
    + destruct (holder s); [done|]. injection He as <-. cbn. by destruct (apply_same batch s) as (_ & _ & _ & _ & _ & _ & -> & _).
    + injection He as <-. cbn. rewrite list_lookup_fmap. by destruct (callers s !! i).
  - destruct (worker s); try done. by injection He as <-.
  - injection He as <-. cbn. destruct (callers s !! i) eqn:H'; [|done]. by rewrite (lookup_app_l_Some _ _ _ _ H').
  - unfold wakes in He. destruct (callers s !! _) as [[[] ?]|]; try done. injection He as <-. by rewrite set_caller_saw.
  - unfold tests in He. destruct (callers s !! _) as [[[] ?]|]; try done. injection He as <-. by rewrite set_caller_saw.
  - unfold lock_store in He. destruct (callers s !! _) as [[[] ?]|], (holder s); try done. injection He as <-.
    destruct (poisoned s); [|change (callers (_ <| holder := _ |>)) with (callers (set_caller i0 (Inside target) s))]; by rewrite set_caller_saw.
  - unfold uses in He. destruct (callers s !! _) as [[[] ?]|]; try done. by injection He as <-.
  - unfold leaves in He. destruct (callers s !! _) as [[[] ?]|]; try done. injection He as <-.
    change (callers _) with (callers (set_caller i0 Gone s)) at 1. by rewrite set_caller_saw.
Qed.
Lemma steps_saw es s s' i saw :
  steps es s = Some s' -> option_map snd (callers s !! i) = Some saw -> option_map snd (callers s' !! i) = Some saw.
Proof using Type.
  revert s. induction es as [|e es IH]; intros s; cbn [steps]; [by intros [= ->]|]. intros (s1 & He & Hes)%bind_Some Hi.
  apply (IH s1 Hes). by apply (step_saw e s).
Qed.

(** C13. Whoever is given the store finds in it all that was queued before it called, whatever the
    threads did meanwhile: what was queued then is the beginning of what the worker has given to the
    store by now, in that order, and that is the beginning of what was ever queued. *)
Theorem the_store_is_lent_after_what_was_queued st on earlier later s0 s t saw :
  steps earlier (new st on) = Some s0 -> steps (Calls :: later) s0 = Some s -> in_range s ->
  callers s !! length (callers s0) = Some (Inside t, saw) ->
  pushed s0 `prefix_of` handed s /\ handed s `prefix_of` pushed s.
Proof using Type.
  intros H0 H1 Hr Hi. assert (inv s) as Hinv.
  { apply (reachable_inv st on (earlier ++ Calls :: later)); [|exact Hr]. rewrite steps_then, H0. exact H1. }
  assert (saw = pushed s0) as ->.
  { cbn in H1. assert (option_map snd (callers s !! length (callers s0)) = Some (pushed s0)) as Hs; [|rewrite Hi in Hs; by injection Hs].
    apply (steps_saw later _ s _ _ H1). cbn. by rewrite lookup_app_r, Nat.sub_diag by lia. }
  destruct Hinv. pose proof (proj1 (Forall_lookup _ _) i_callers0 _ _ Hi) as [Hpre [Ht Hle]]. cbn in Hpre, Ht, Hle.
  destruct i_applied0 as (counted & Hc & Ha).
  assert (handed s `prefix_of` pushed s) as Hh by (rewrite i_line0; by apply prefix_app_r). split; [|exact Hh].
  destruct (prefix_weak_total _ _ _ Hpre Hh) as [|Hback]; [done|].
  rewrite (prefix_length_eq _ _ Hback); [done|]. apply (f_equal length) in Hc. rewrite length_app in Hc. unfold zlen in *. lia.
Qed.

(** ** One holder at a time *)

Definition inside (p : Caller * list Append) : Prop := exists t, p.1 = Inside t.
(** The store is lent to the one caller that is inside, and never once a panic spoiled it. *)
Record lent s : Prop := {
  l_holder : forall i, holder s = Some i <-> exists p, callers s !! i = Some p /\ inside p;
  l_sound : poisoned s = true -> holder s = None;
}.
Lemma new_lent st on : lent (new st on).
Proof using Type. split; [|done]. intros i. split; [done|]. intros (p & Hp & _). done. Qed.

(** A caller that is not inside moves on, and not inside. *)
Lemma set_caller_lent i c s :
  (forall p, callers s !! i = Some p -> ~ inside p) -> (forall saw, ~ inside (c, saw)) -> lent s -> lent (set_caller i c s).
Proof using Type.
  intros Hwas Hc []. split; [|done]. intros j. cbn. rewrite l_holder0, list_lookup_alter. case_decide as Hj; [subst j|done].
  split; [intros (p & Hp & Hin); by destruct (Hwas p Hp)|]. intros (p & Hp & Hin).
  destruct (callers s !! i) as [q|]; [|done]. injection Hp as <-. by destruct (Hc q.2).
Qed.
(** Nobody holds the store when the worker, or an early [append], is done with it. *)
Lemma apply_lent l s : holder s = None -> lent s -> lent (apply l s).
Proof using Type.
  intros Hn []. destruct (apply_same l s) as (_ & _ & _ & _ & _ & _ & E7 & _ & _ & _ & E11). split; [|intros _; by rewrite E11].
  intros i. by rewrite E7, E11.
Qed.
Lemma callers_lent f (s s' : System) :
  (forall p, inside (f p) <-> inside p) -> callers s' = f <$> callers s -> holder s' = holder s -> poisoned s' = poisoned s -> lent s -> lent s'.
Proof using Type.
  intros Hf Hc Hh Hp []. split; [|by rewrite Hh, Hp]. intros i. rewrite Hh, Hc, l_holder0, list_lookup_fmap. split.
  - intros (p & -> & Hin). exists (f p). split; [done | by apply Hf].
  - intros (p & Hp' & Hin). destruct (callers s !! i) as [q|]; [|done]. injection Hp' as <-. exists q. split; [done | by apply Hf].
Qed.
Ltac not_inside := by intros [t' [=]].
Lemma step_lent e s s' : step e s = Some s' -> lent s -> lent s'.
Proof using Type.
  intros He Hs. destruct e; cbn [step] in He.
  - unfold start in He. destruct (worker_started s); [done|]. injection He as <-. by destruct Hs.
  - injection He as <-. unfold drain_checks. by destruct (backlogged s), Hs.
  - unfold append in He. destruct (_ || _); [by injection He as <-|]. destruct (negb _); [|injection He as <-; by destruct Hs].
    destruct (holder s) eqn:Hn; [done|]. injection He as <-. by apply apply_lent.
  - unfold notify_one in He. destruct (notifies s); [done|]. injection He as <-. cbv zeta. by destruct (worker _), Hs.
  - unfold run_step in He. destruct (worker s); try done; try (injection He as <-; repeat case_match; by destruct Hs).
    + destruct (holder s) eqn:Hn; [done|]. injection He as <-. by destruct (apply_lent batch s Hn Hs).
    + injection He as <-. eapply (callers_lent _ s); [|done..]. intros [[] ?]; cbn; try done; split; not_inside.
  - destruct (worker s); try done. injection He as <-. by destruct Hs.
  - injection He as <-. destruct Hs. split; [|done]. intros i. cbn. rewrite l_holder0. split.
    + intros (p & Hp & Hin). exists p. by rewrite (lookup_app_l_Some _ _ _ _ Hp).
    + intros (p & [Hp|[_ Hp]]%lookup_app_Some & Hin); [by exists p|]. apply list_lookup_singleton_Some in Hp as [_ <-].
      destruct Hin as [t Ht]. cbn in Ht. unfold wait_test in Ht. by destruct (_ <? _).
  - unfold wakes in He. destruct (callers s !! i) as [[[] ?]|] eqn:Hi; try done. injection He as <-.
    apply set_caller_lent; [|intros ?; not_inside | done]. rewrite Hi. intros p [= <-]. not_inside.
  - unfold tests in He. destruct (callers s !! i) as [[[] ?]|] eqn:Hi; try done. injection He as <-.
    apply set_caller_lent; [| |done]; [rewrite Hi; intros p [= <-]; not_inside|]. intros saw [t Ht]. cbn in Ht. unfold wait_test in Ht. by destruct (_ <? _).
  - unfold lock_store in He. destruct (callers s !! i) as [[[] saw]|] eqn:Hi, (holder s) eqn:Hn; try done. injection He as <-. destruct (poisoned s) eqn:Hbad.
    + apply set_caller_lent; [|intros ?; not_inside | done]. rewrite Hi. intros p [= <-]. not_inside.
    + destruct Hs. split; [|intros Hp; cbn in Hp; congruence]. intros j. cbn. rewrite list_lookup_alter. case_decide as Hj.
      * subst j. split; [|done]. intros _. exists (Inside target, saw). rewrite Hi. split; [done | by exists target].
      * split; [by intros [= <-]|]. intros Hin. apply l_holder0 in Hin. congruence.
  - unfold uses in He. destruct (callers s !! i) as [[[] ?]|]; try done. injection He as <-. by destruct Hs.
  - unfold leaves in He. destruct (callers s !! i) as [[[] saw]|] eqn:Hi; try done. injection He as <-. destruct Hs. split; [|done].
    assert (holder s = Some i) as Hh by (apply l_holder0; exists (Inside target, saw); split; [done | by exists target]).
    intros j. cbn. rewrite list_lookup_alter. split; [done|]. intros (p & Hp & Hin). case_decide as Hj.
    + subst j. rewrite Hi in Hp. injection Hp as <-. destruct Hin as [? [=]].
    + assert (holder s = Some j) as Hh' by (apply l_holder0; by exists p). congruence.
Qed.
Lemma steps_lent es s s' : steps es s = Some s' -> lent s -> lent s'.
Proof using Type.
  revert s. induction es as [|e es IH]; intros s; cbn [steps]; [by intros [= ->]|]. intros (s1 & He & Hes)%bind_Some Hs.
  apply (IH s1 Hes). by apply (step_lent e s).
Qed.

(** ** The store sees one order *)

Lemma spoilt_stays ops st on : foldl do_op (st, on, true) ops = (st, on, true).
Proof using Type. induction ops as [|o ops IH]; [done|]. exact IH. Qed.
(** A batch is its appends, one by one. *)
Lemma apply_ops l s : held (apply l s) = foldl do_op (held s) (map Stores l).
Proof using Type.
  unfold held, apply. destruct (poisoned s) eqn:Hbad; cbn [orb]; [by rewrite Hbad, spoilt_stays|].
  destruct (enabled s) eqn:Hon; cbn [negb]; [|rewrite Hon, Hbad; by induction l].
  destruct (store s) as [st|] eqn:Hst; [|rewrite Hst, Hon, Hbad; by induction l].
  cut (forall l st, foldl do_op (Some st, true, false) (map Stores l) = (Some (append_all l st).1, true, (append_all l st).2)).
  { intros ->. destruct (append_all l st). cbn. by rewrite Hon. }
  clear. induction l as [|a l IH]; intros st; [done|]. cbn [map foldl do_op negb append_all].
  destruct (append_scrollback _ _ _ st) as [st' []]; [apply IH..|]. apply spoilt_stays.
Qed.
Lemma stored_stores l : stored (map Stores l) = l.
Proof using Type. unfold stored. induction l as [|a l IH]; cbn; [done|]. by rewrite IH. Qed.
Lemma used_stores l : used (map Stores l) = [].
Proof using Type. unfold used. by induction l. Qed.

Lemma step_order e s s' :
  step e s = Some s' -> worker_started s = true -> lent s ->
  worker_started s' = true /\
  exists ops, held s' = foldl do_op (held s) ops /\ handed s' = handed s ++ stored ops /\ used ops = uses_of [e].
Proof using Type.
  intros He Hw Hs.
  assert (forall s', held s' = held s -> handed s' = handed s -> uses_of [e] = [] ->
            exists ops, held s' = foldl do_op (held s) ops /\ handed s' = handed s ++ stored ops /\ used ops = uses_of [e]) as Hsame.
  { intros s1 H1 H2 H3. exists []. by rewrite H3, app_nil_r. }
  destruct e; cbn [step] in He.
  - unfold start in He. by rewrite Hw in He.
  - injection He as <-. unfold drain_checks. destruct (backlogged s); split; try done; by apply Hsame.
  - unfold append in He. rewrite Hw in He. destruct (_ || _); injection He as <-; (split; [exact Hw|]); by apply Hsame.
  - unfold notify_one in He. destruct (notifies s); [done|]. injection He as <-. cbv zeta. cbn [worker].
    unfold worker_started in *. destruct (worker s) eqn:E; (split; [cbn; by rewrite ?E | by apply Hsame]).
  - unfold run_step in He. unfold worker_started in *. destruct (worker s) eqn:E; try done; try (injection He as <-; repeat case_match; split; try done; by apply Hsame).
    destruct (holder s); [done|]. injection He as <-. split; [done|]. exists (map Stores batch).
    rewrite stored_stores, used_stores. split; [exact (apply_ops batch s) | done].
  - destruct (worker s); try done. injection He as <-. split; [done|]. by apply Hsame.
  - injection He as <-. split; [exact Hw|]. by apply Hsame.
  - unfold wakes in He. destruct (callers s !! i) as [[[] ?]|]; try done. injection He as <-. split; [exact Hw|]. by apply Hsame.
  - unfold tests in He. destruct (callers s !! i) as [[[] ?]|]; try done. injection He as <-. split; [exact Hw|]. by apply Hsame.
  - unfold lock_store in He. destruct (callers s !! i) as [[[] ?]|], (holder s); try done. injection He as <-.
    destruct (poisoned s) eqn:E; (split; [exact Hw|]); by apply Hsame.
  - unfold uses in He. destruct (callers s !! i) as [[[] saw]|] eqn:Hi; try done. injection He as <-. split; [exact Hw|].
    exists [Used f on]. cbn. rewrite app_nil_r. split; [|done]. unfold held. cbn. destruct (poisoned s) eqn:E; [|done].
    assert (holder s = Some i) as Hh by (apply (l_holder s Hs); exists (Inside target, saw); split; [done | by exists target]).
    rewrite (l_sound s Hs E) in Hh. done.
  - unfold leaves in He. destruct (callers s !! i) as [[[] ?]|]; try done. injection He as <-. split; [exact Hw|].
    destruct panicking; [|apply Hsame; try done; unfold held; cbn; by rewrite orb_false_r].
    exists [Spoilt]. cbn. rewrite app_nil_r. split; [|done]. unfold held. cbn. rewrite orb_true_r. by destruct (poisoned s).
Qed.

Lemma started_stays st on es s : steps (Start :: es) (new st on) = Some s -> worker_started s = true.
Proof using Type.
  cbn. cut (forall s0 s1, steps es s0 = Some s1 -> worker_started s0 = true -> lent s0 -> worker_started s1 = true).
  { intros Hall Hes. apply (Hall _ s Hes); [done|]. by destruct (new_lent st on). }
  induction es as [|e es IH]; intros s0 s1; cbn [steps]; [by intros [= ->]|]. intros (s2 & He & Hes)%bind_Some Hw Hs.
  destruct (step_order e s0 s2 He Hw Hs) as [Hw2 _]. exact (IH s2 s1 Hes Hw2 (step_lent e s0 s2 He Hs)).
Qed.

(** C12. The threads together are one hand on the store: whatever a started queue went through, the
    store, whether it is wanted and whether it is spoilt are what the appends given so far, in the order they were
    queued and one at a time, and the uses of the callers, in the order they were made, leave of it
    in some order of both; a store that a panic spoilt is touched by neither. *)
Theorem the_store_sees_one_order st on es s :
  steps (Start :: es) (new st on) = Some s ->
  exists ops, held s = foldl do_op (st, on, false) ops /\ stored ops = handed s /\ used ops = uses_of es.
Proof using Type.
  cbn. intros Hes.
  cut (forall es s s', steps es s = Some s' -> worker_started s = true -> lent s ->
         exists ops, held s' = foldl do_op (held s) ops /\ handed s' = handed s ++ stored ops /\ used ops = uses_of es).
  { intros Hall. destruct (Hall es _ s Hes) as (ops & H1 & H2 & H3); [done| |by exists ops]. by destruct (new_lent st on). }
  clear. induction es as [|e es IH]; intros s s'; cbn [steps]; [intros [= ->] _ _; exists []; by rewrite app_nil_r|].
  intros (s1 & He & Hes)%bind_Some Hw Hs. destruct (step_order e s s1 He Hw Hs) as (Hw1 & ops1 & H1 & H2 & H3).
  destruct (IH s1 s' Hes Hw1 (step_lent e s s1 He Hs)) as (ops2 & H4 & H5 & H6). exists (ops1 ++ ops2). repeat split.
  - by rewrite foldl_app, <- H1.
  - unfold stored in *. rewrite omap_app, H5, H2. by rewrite app_assoc.
  - unfold used, uses_of in *. rewrite omap_app, H3, H6. cbn. by destruct e.
Qed.

(** ** Nobody waits for ever *)

Lemma callers_left_alter i c p cs :
  cs !! i = Some p -> (callers_left (alter (fun p => (c, p.2)) i cs) + left_of p.1 = callers_left cs + left_of c)%nat.
Proof using Type.
  unfold callers_left. revert i. induction cs as [|q cs IH]; intros [|i] Hi; cbn in *; [done..|injection Hi as ->; lia|]. specialize (IH i Hi). lia.
Qed.
Lemma callers_left_woken cs :
  (callers_left ((fun p => (match p.1 with Sleeping t => Woken t | c => c end, p.2)) <$> cs) <= callers_left cs + 3 * length cs)%nat.
Proof using Type. unfold callers_left. induction cs as [|[c saw] cs IH]; cbn in *; [done|]. destruct c; cbn; lia. Qed.
(** A step of one caller leaves less, and the rest as it was. *)
Lemma set_caller_left i c p s :
  callers s !! i = Some p -> (left_of c < left_of p.1)%nat -> (left (set_caller i c s) < left s)%nat.
Proof using Type.
  intros Hi Hc. pose proof (callers_left_alter i c p (callers s) Hi). unfold left. cbn -[callers_left Nat.mul]. rewrite length_alter. lia.
Qed.
Lemma internal_leaves_less e s s' : internal e = true -> step e s = Some s' -> (left s' < left s)%nat.
Proof using Type.
  intros Hint He. destruct e; try done; cbn [step] in He.
  - unfold notify_one in He. destruct (notifies s) as [|n] eqn:Hn; [done|]. injection He as <-. cbv zeta. unfold left. cbn [worker].
    destruct (worker s) eqn:E; cbn -[callers_left Nat.mul]; rewrite ?E, ?Hn; cbn -[callers_left Nat.mul]; lia.
  - unfold run_step in He. unfold left. destruct (worker s) eqn:E; try done.
    + injection He as <-. destruct (bool_decide (appends s = [])) eqn:Ha; cbn -[callers_left Nat.mul]; rewrite ?Ha; cbn -[callers_left Nat.mul]; lia.
    + destruct (holder s); [done|]. injection He as <-. cbn -[callers_left Nat.mul]. destruct (apply_same batch s) as (-> & _ & _ & _ & _ & -> & -> & _). lia.
    + injection He as <-. cbn -[callers_left Nat.mul]. lia.
    + injection He as <-. destruct (_ <=? _); cbn -[callers_left Nat.mul]; lia.
    + injection He as <-. cbn -[callers_left Nat.mul]. lia.
    + injection He as <-. cbn -[callers_left Nat.mul]. rewrite length_fmap. pose proof (callers_left_woken (callers s)). lia.
  - unfold tests in He. destruct (callers s !! i) as [[[] saw]|] eqn:Hi; try done. injection He as <-.
    apply (set_caller_left i _ _ s Hi). unfold wait_test. destruct (_ <? _); cbn; lia.
  - unfold lock_store in He. destruct (callers s !! i) as [[[] saw]|] eqn:Hi, (holder s); try done. injection He as <-.
    destruct (poisoned s); [|change (left (?x <| holder := _ |>)) with (left x)]; apply (set_caller_left i _ _ s Hi); cbn; lia.
  - unfold leaves in He. destruct (callers s !! i) as [[[] saw]|] eqn:Hi; try done. injection He as <-.
    exact (set_caller_left i Gone _ s Hi ltac:(cbn; lia)).
Qed.
Lemma internal_pushes_nothing e s s' :
  internal e = true -> step e s = Some s' -> pushed s' = pushed s /\ (worker_started s = true -> worker_started s' = true).
Proof using Type.
  intros Hint He. unfold worker_started. destruct e; try done; cbn [step] in He.
  - unfold notify_one in He. destruct (notifies s); [done|]. injection He as <-. cbv zeta. cbn [worker]. by destruct (worker s) eqn:E; cbn; rewrite ?E.
  - unfold run_step in He. destruct (worker s); try done; try (injection He as <-; repeat case_match; done).
    destruct (holder s); [done|]. injection He as <-. cbn. by destruct (apply_same batch s) as (_ & _ & _ & _ & _ & _ & _ & _ & -> & _).
  - unfold tests in He. destruct (callers s !! i) as [[[] saw]|]; try done. by injection He as <-.
  - unfold lock_store in He. destruct (callers s !! i) as [[[] saw]|], (holder s); try done. injection He as <-. by destruct (poisoned s).
  - unfold leaves in He. destruct (callers s !! i) as [[[] saw]|]; try done. by injection He as <-.
Qed.

(** Where nothing goes on by itself, nothing is left to do. *)
Lemma stuck_is_quiet s : inv s -> lent s -> worker_started s = true -> stuck s -> quiet s.
Proof using Type.
  intros [] [] Hw Hstuck. unfold worker_started in Hw.
  assert (holder s = None) as Hfree.
  { destruct (holder s) as [i|] eqn:Hh; [|done]. destruct (proj1 (l_holder0 i) eq_refl) as (p & Hi & [t Ht]). destruct p as [c saw]. cbn in Ht. subst c.
    specialize (Hstuck (Leaves i false) eq_refl). cbn in Hstuck. unfold leaves in Hstuck. by rewrite Hi in Hstuck. }
  assert (worker s = Asleep) as Ha.
  { specialize (Hstuck WorkerRuns eq_refl). cbn in Hstuck. unfold run_step in Hstuck. rewrite Hfree in Hstuck. by destruct (worker s). }
  assert (appends s = []) as Hnil.
  { destruct (decide (appends s = [])) as [|Hne]; [done|]. specialize (Hstuck NotifyOne eq_refl). cbn in Hstuck. unfold notify_one in Hstuck.
    by destruct (notifies s) eqn:Hn; [destruct (i_asleep0 Ha Hne)|]. }
  rewrite Ha, Hnil in *. cbn in *. rewrite app_nil_r in i_line0. destruct i_applied0 as (counted & Hc & Happ). rewrite app_nil_r in Hc. subst counted.
  split; [done | done | | |].
  - by rewrite Happ, i_queued0, i_line0.
  - apply Forall_lookup. intros i [c saw] Hi. pose proof (proj1 (Forall_lookup _ _) i_callers0 i _ Hi) as [Hpre Hok]. cbn in *.
    destruct c as [t|t|t|t|]; [| | | |done].
    + destruct Hok as [-> [Hlt|]]; [|congruence]. apply prefix_length in Hpre. unfold zlen in *. rewrite Happ, <- i_line0 in Hlt. lia.
    + specialize (Hstuck (Tests i) eq_refl). cbn in Hstuck. unfold tests in Hstuck. by rewrite Hi in Hstuck.
    + specialize (Hstuck (Takes i) eq_refl). cbn in Hstuck. unfold lock_store in Hstuck. by rewrite Hi, Hfree in Hstuck.
    + specialize (Hstuck (Leaves i false) eq_refl). cbn in Hstuck. unfold leaves in Hstuck. by rewrite Hi in Hstuck.
  - destruct (held_off s); [|done]. destruct (i_held0 eq_refl) as [Hb|(b & before & ? & _)]; [|congruence].
    rewrite i_bytes0 in Hb. unfold QUEUE_LIMIT_BYTES in Hb. lia.
Qed.

(** C11. Whatever the threads did, once nothing more is queued and nobody more calls, they come to an
    end of their own accord, after no more steps than [left] counts, and they cannot stop before all that was queued was given to the
    store and counted, every caller was let in and done, and a drain that was held off was told of the room.
    No wakeup is lost, a panicking store holds nobody up, and nobody waits for another in a circle. *)
Theorem nobody_waits_for_ever st on es es' s s' :
  steps (Start :: es) (new st on) = Some s -> in_range s ->
  Forall (fun e => internal e = true) es' -> steps es' s = Some s' ->
  (length es' <= left s)%nat /\ (stuck s' -> quiet s').
Proof using Type.
  intros Hes Hr Hint Hes'. assert (inv s /\ lent s /\ worker_started s = true) as (Hinv & Hlent & Hw).
  { split; [exact (reachable_inv st on (Start :: es) s Hes Hr)|]. split; [exact (steps_lent _ _ _ Hes (new_lent st on))|]. by apply (started_stays st on es). }
  clear Hes. revert s Hr Hinv Hlent Hw Hes'. induction Hint as [|e es' He Hint IH]; intros s Hr Hinv Hlent Hw.
  - intros [= <-]. split; [cbn; lia | by apply stuck_is_quiet].
  - cbn [steps]. intros (s1 & H1 & Hes')%bind_Some. destruct (internal_pushes_nothing e s s1 He H1) as [Hp Hw1].
    assert (in_range s1) as Hr1 by (unfold in_range; by rewrite Hp).
    destruct (IH s1) as [Hlen Hquiet]; [done | by apply (step_inv e s) | by apply (step_lent e s) | auto | done|].
    split; [|done]. pose proof (internal_leaves_less e s s1 He H1). cbn [length]. lia.
Qed.
End Queue.

(** ** A store that keeps what it is given *)

Module SampleQueue.
(** A store for the examples: it fails for pane 8 and panics for pane 9. *)
#[local] Instance sample_store : PersistenceStore := {
  Store := list (Z * bytes);
  append_scrollback session pane text st :=
    if pane =? 9 then (st, StorePanicked) else if pane =? 8 then (st, NotStored) else (st ++ [(session, text)], Stored);
}.
Definition none_kept : option (@Store sample_store) := Some [].
Definition one : Append := mkAppend 7 1 [Byte.x61].
Definition two : Append := mkAppend 7 1 [Byte.x62].
Definition bad : Append := mkAppend 7 9 [Byte.x63].
Definition after_all (es : list event) (s : System) : System := default s (steps es s).
(** A whole turn of the worker. *)
Definition turn : list event := repeat WorkerRuns 6.
(** Two appends, a caller, and an append more that the worker is slow to take. *)
Definition earlier : list event := [Start; WorkerRuns; Appends one true; Appends two true; NotifyOne].
Definition later : list event := [Appends bad true] ++ turn ++ [Tests 0; Takes 0].
Definition called : System := after_all earlier (new none_kept true).
Definition let_in : System := after_all (Calls :: later) called.
Definition forget : option Store -> option Store := fun _ => none_kept.

(** The caller sleeps until its two appends were given, with the third, that panicked, which is why it is refused. *)
Example refused_a_spoilt_store :
  let s := let_in in callers s = [(Gone, [one; two])] /\ store s = Some [(7, [Byte.x61]); (7, [Byte.x62])] /\ poisoned s = true /\ queued_bytes s = 0.
Proof. vm_compute. done. Qed.
(** Without the panic it is let in, and what it does comes after what was queued before it. *)
Definition sound : list event := [Appends (mkAppend 7 8 [Byte.x64]) true; Appends one true] ++ turn ++ [Tests 0; Takes 0].
Definition inside_now : System := after_all (Calls :: sound) called.

Lemma the_store_is_lent_after_what_was_queued_witness :
  callers inside_now !! 0%nat = Some (Inside 2, [one; two]) /\
  pushed called `prefix_of` handed inside_now /\ handed inside_now `prefix_of` pushed inside_now.
Proof.
  split; [by vm_compute|].
  apply (the_store_is_lent_after_what_was_queued none_kept true earlier sound called inside_now 2 [one; two]); vm_compute; done.
Defined.

Definition whole : list event := tail earlier ++ Calls :: sound ++ [Uses 0 forget true; Leaves 0 false; Appends two true] ++ NotifyOne :: turn.
Definition final : System := after_all (Start :: whole) (new none_kept true).
Lemma the_store_sees_one_order_witness :
  store final = Some [(7, [Byte.x62])] /\
  exists ops, held final = foldl (do_op (H := sample_store)) (none_kept, true, false) ops /\ stored ops = handed final /\ used ops = uses_of whole.
Proof. split; [by vm_compute|]. apply (the_store_sees_one_order none_kept true whole final). vm_compute. reflexivity. Defined.

(** A sleeping caller, a panic, an append more: left to themselves, the threads come to an end. *)
Definition busy : list event := tail earlier ++ [Calls; Appends bad true].
Definition busy_state : System := after_all (Start :: busy) (new none_kept true).
Definition own : list event := turn ++ [NotifyOne; NotifyOne; Tests 0; Takes 0; WorkerRuns].
Definition over : System := after_all own busy_state.
Lemma nobody_waits_for_ever_witness :
  callers busy_state = [(Sleeping 2, [one; two])] /\ callers over = [(Gone, [one; two])] /\
  (length own <= left busy_state)%nat /\ (stuck over -> quiet over).
Proof.
  split; [by vm_compute|]. split; [by vm_compute|].
  apply (nobody_waits_for_ever none_kept true busy own busy_state over); [by vm_compute | by vm_compute | repeat constructor | by vm_compute].
Defined.
End SampleQueue.
End PersistenceQueue.
